(* ===== verification/_CoqProject ===== *)
-Q . S2P
Prelude.v
RustStr.v
RustText.v
Utf8.v
RustMap.v
RustPath.v
CoreError.v
DnsLabel.v
Tld.v
Domain.v
Host.v
Php.v
Net.v
Site.v
Proxy.v
Router.v
Project.v
Settings.v
Config.v
Migrate.v
Wire.v
Serialize.v
SiteDomains.v
Descriptor.v
Frame.v
Ipc.v
Mutate.v
MutateValid.v
Storable.v
MutateEffects.v
Link.v
Scan.v
Daemon.v
LanSetup.v
DaemonInv.v
DaemonClaims.v
Restart.v
HttpPath.v
CgiHead.v
Http.v
Hop.v
Fcgi.v
FileServe.v
Server.v
Gateway.v
Smtp.v
Mime.v
MailStore.v
ShellProfile.v
SockAddr.v
HelperArgv.v
ResolverFiles.v
PfAnchor.v
Helper.v
HelperSafe.v
HelperCa.v
Supervisor.v
Tunnel.v
TunnelManager.v
TunnelDaemon.v
Update.v
SelfUpdate.v
Apply.v
Dns.v
Jobs.v
Report.v
Doctor.v
