(* ===== verification/Prelude.v ===== *)
(** * Verification of orcker

    Orcker serves local PHP sites, reverse proxies and container projects under
    a private top-level domain.  A daemon ([src/bin/orckerd]) holds one
    configuration, answers requests over a local socket, keeps a host router
    built from the configuration and a scan of the parked folders, and persists
    every accepted change.  This library is a shallow embedding of that core and
    of the crates it stands on, with the theorems that make it correct.

    ** Conventions

    Rust functions are Rocq functions with the source's names; [Result] is
    [result], [?] its bind; mutation is a state passed through; unsigned
    integers are [N], with their bounds written where the code compares or
    saturates; a Rust string is [str], the list of its characters' code points;
    [BTreeMap] and [HashMap] are [gmap], with [btree_iter] for key order.  Code
    outside the repository (TOML, JSON, the file system, clocks, randomness) is
    a parameter.  Theorems about the program are the claims C<n> of the
    manifest; the lemmas between them carry no number.

    ** Files

    - [Prelude], [RustStr], [RustText], [RustMap], [RustPath]: results, iterator
      adaptors, early-return loops, and the standard-library operations on strings,
      lines, maps and paths the source uses.
    - [CoreError] to [Settings], [src/crates/orcker-core]: names and suffixes
      ([DnsLabel], [Tld], [Domain], [Host]), [Php] versions, the LAN address
      predicate ([Net]), sites ([Site]), upstreams and path rules ([Proxy]), the
      host router ([Router]), container projects, port allocation and web-root
      detection ([Project]), PHP settings, directives, extensions and service
      overrides ([Settings]).
    - [Config], [Migrate], [Wire], [Serialize], [Descriptor],
      [src/crates/orcker-config]: the configuration with its validation, the
      migrations between versions, the conversions from and to the raw file, and
      the per-project [orcker.yml].
    - [Frame], [Ipc], [src/crates/orcker-ipc]: length-prefixed framing over a
      stream cut anywhere, and the requests and error codes.
    - [SiteDomains], [Mutate], [Link], [Scan], [Daemon], [LanSetup],
      [src/bin/orckerd]: building the router from a configuration, the
      configuration commands, linking a project, scanning parked folders, the
      daemon's state with every request that changes it, and the one-time
      remote-setup code.
    - [MutateValid], [Storable], [MutateEffects], [DaemonInv], [DaemonClaims],
      [Restart]: what the commands preserve and do, what holds of every reachable
      daemon state, and what a restart from the saved file gives.
    - [Utf8], [HttpPath], [CgiHead], [Http], [Hop], [Fcgi], [FileServe],
      [Server], [src/crates/orcker-proxy]: UTF-8 as the source decodes it; the
      pure modules on paths, redirects, query strings and the picker; the head of
      a CGI response; requests, responses and header maps (the http crate, as the
      interfaces [Http], [HttpLaws] and [UriOps]); hop-by-hop headers; the FastCGI codec,
      the request written and the response relayed; files and scripts below a
      document root; and the dispatch of a request.
    - [Gateway]: the daemon and its proxy together.
    - [Smtp], [Mime], [MailStore], [src/crates/orcker-mail]: the mail capture: the
      SMTP session and its connection handler, what is shown of a message, and the
      store of messages with its index, on a disk whose reads, listings, writes,
      removals and renames may fail.
    - [SockAddr], [HelperArgv], [ResolverFiles], [PfAnchor], [ShellProfile],
      [src/crates/orcker-platform]: socket addresses as text, the privileged
      operations with their command lines, the resolver, packet-filter and
      shell-profile texts.
    - [Helper], [HelperSafe], [HelperCa], [src/bin/orcker-helper]: the privileged
      helper over a machine ([World]) in which any call may fail, with the log of
      what was done to it.
    - [Supervisor], [Tunnel], [TunnelManager], [src/crates/orcker-tunnel]: the
      supervisor's transitions, back-off and signals; origins, command lines, the
      ingress file and what is read from cloudflared's output; the manager of
      running tunnels over a system ([Sys]) in which any call may fail.
    - [TunnelDaemon], [src/bin/orckerd/src/tunnel]: the requests on tunnels, which
      cloudflared is used, its installer and the account's zone.
    - [Dns], [src/crates/orcker-dns]: what the resolver answers a query, by the name, the
      type and the client, and the binding of its sockets; its theorem joins it to the
      daemon and the router.
    - [Jobs], [jobs.rs] and [ansi.rs] of [src/bin/orckerd/src]: the registry of background
      jobs and the tasks that feed it.
    - [Report]: the daemon's listings ([ipc_server.rs]) and how the client shows them
      ([src/bin/orcker/src/map.rs]).  [Doctor], [src/crates/orcker-doctor]: the status
      report and the findings.
    - [Update], [src/crates/orcker-update], [src/crates/orcker-release-manifest] and
      [src/xtask/src/cdn.rs]: which release a channel leads to, its files and their
      verification, the published manifests and the plan that keeps the mirror in step,
      over the semver, hash and signature crates ([Semver], [Crypto]).
    - [SelfUpdate], [src/bin/orckerd/src/self_update.rs], and [Apply],
      [src/bin/orcker/src/apply.rs]: what the daemon announces and stages, and how the
      applier verifies and installs it.

    ** What the theorems show

    - The daemon ([DaemonClaims]): every reachable state has a valid
      configuration, saved as it is, and a router that belongs to it; a request
      is all or nothing; no request adds an upstream that is one of its own
      listeners under the spellings it recognises ([own_listener]).
    - The commands ([MutateValid], [MutateEffects]): which keep the
      configuration valid, what they do to domains, groups and links.
    - The router ([Router], [SiteDomains]): it refines a plain map from claimant
      to route and domains; building it gives every domain to the claimant the
      collision rule names.
    - The file ([Wire], [Config], [Migrate], [Serialize], [Storable], [Restart],
      [Descriptor]): loading gives a typed and valid configuration, migrations
      reach the current version, validation accepts exactly the declared
      guarantees, what the daemon saves loads again, and a restart routes as the
      running daemon would.
    - The proxy ([HttpPath], [FileServe], [Server]): exactly which files are served
      and which scripts run, inside the document root while symlink protection is
      on; a request cannot run a script that is not its site's, cannot spend a
      login token without being signed in, and cannot be redirected off its
      origin; ([CgiHead], [Fcgi], [Hop]): what PHP-FPM reads is the request, what
      the client reads is the response, however either is cut into records, and
      neither the environment nor the peer address can be forged.
    - The whole ([Gateway]): in every reachable daemon state a request is only
      forwarded to the upstream that the configuration has for its host and path,
      and neither reads the disk nor runs PHP.
    - The mail capture ([Smtp], [MailStore]): what a client sends is stored and shown
      as it was sent, an acknowledged message survives a restart, no listed message
      is overwritten or taken for another whatever fails, and a connection ends.
      (A message that no index lists can be overwritten after a restart that could
      not list the directory.)
    - The privileged helper ([HelperSafe], [HelperCa], [HelperArgv]): whatever
      fails, it writes only the files and runs only the commands its operations
      name; trusting and distrusting touch the certificate with the fingerprint
      asked for, with the exceptions that [HelperCa] names; a failed installation
      rolls the resolver back under the conditions stated there; a command line decodes to the operation it
      was made from.  The texts it edits ([ResolverFiles], [PfAnchor],
      [ShellProfile]) hold what is meant and keep the lines that are the user's.
    - The tunnels ([TunnelManager], [TunnelDaemon], [Tunnel]): a start ends, up or
      with nothing left; there is one cloudflared per site and none after a stop; a
      tunnel reaches the site it was started for, the named one the enabled sites;
      only a verified binary is installed and only checked values reach its command
      line; the ingress file and the account token read back as they were written.
    - The updates ([Update], [SelfUpdate], [Apply]): the decision is exact and the
      manifest leads to the same one as all releases; an update is announced only when
      a signed manifest has it; only verified files are staged; the applier accepts
      what was staged and root installs nothing that was not signed; the mirror
      converges.
    - What users see ([Report], [Doctor], [Jobs]): listed domains are the routed ones, of
      sites that own any, and rules can be removed as they are listed, unless two routed
      sites share a folder; findings are raised exactly when they hold; a polling client
      gets each line of a job's output once and in order, all of them unless it falls
      [LOG_CAP] behind, from a bounded registry.
    - The edges ([Frame], [LanSetup], [Scan], [Host], [Proxy], [Settings]):
      framing refines the byte stream, one-time codes are redeemed once, in time
      and not after a completed switch-off, generated files cannot be injected into, requests cannot escape the
      served folder.

    ** Bounds and fuel

    [Frame.session] takes fuel for the frames of a connection; one more than the
    bytes received is enough, and [session_refines] is stated for any fuel on
    both sides.  [Migrate.up] takes the number of steps of the source's table.
    [Fcgi.forward_response] takes the bytes the backend has still to send: a
    record is at least its eight header bytes, so one more than their number is
    enough ([forward_response_total]).
    [Smtp.handle_conn] and [read_data] take one more than the bytes the client has
    still to send, since every turn of their loops reads a byte or ends
    ([connection_bounded]).
    [HelperArgv.pairs_loop] takes one more than the arguments; the helper's wait
    loop is the source's own twenty turns.  [TunnelManager.drive] takes the steps of
    a start: three attempts of at most 400 readiness checks, so [START_FUEL], 1217,
    is enough ([start_ends]).  [Dns.bind_loop] takes the source's five attempts.
    [Jobs.strip_loop] takes one more than the length of the line, and more gives the
    same ([strip_loop_fuel]).  The other recursions are structural.

    ** Handlers as steps

    Every daemon handler holds the configuration mutex from its first read of
    the configuration to its last write, so [Daemon] models a handler as one
    function of the state and of what the system answers ([Env]).  The setup code
    has a mutex of its own, and is redeemed without the configuration's: so
    [Daemon] writes the handlers that mint and revoke it as the parts between
    which a redemption may come, and [LanSetup] interleaves these parts.

    ** Not modelled

    Sockets, TLS, the parsing of HTTP itself, the accept loops with their peer
    filter, the copying of an upgraded connection, the backpressure between a
    FastCGI backend and its client and a client that hangs up in the middle of a
    response, the DNS wire format, the calls that spawn and signal processes, the
    platform back ends that call the helper, most of the command-line client, the
    graphical client: they act on the outside world, or are
    planned (see the components of the manifest).  Of the daemon's state, the
    fields these parts own are left out of [DaemonState].  The text of messages
    is kept as its format and arguments. *)

From stdpp Require Export base tactics option list gmap sets.
From Stdlib Require Export NArith ZArith Lia ZifyBool.

(** [lia] also reasons about division and remainder. *)
Ltac Zify.zify_post_hook ::= Z.to_euclidean_division_equations.

#[global] Arguments N.eqb _ _ : simpl nomatch.
#[global] Arguments N.leb _ _ : simpl nomatch.
#[global] Arguments N.ltb _ _ : simpl nomatch.

(** ** Fallible computations

    Rust's [Result<A, E>].  The error type comes first so that [result E] is a
    monad; the [?] operator is the bind. *)

Inductive result (E A : Type) : Type :=
| Ok (a : A)
| Err (e : E).
Arguments Ok {E A} _.
Arguments Err {E A} _.

#[export] Instance result_ret E : MRet (result E) := fun A a => Ok a.
#[export] Instance result_bind E : MBind (result E) := fun A B k r =>
  match r with Ok a => k a | Err e => Err e end.

Definition map_err {E F A} (f : E -> F) (r : result E A) : result F A :=
  match r with Ok a => Ok a | Err e => Err (f e) end.

Definition ok_or {E A} (e : E) (o : option A) : result E A :=
  match o with Some a => Ok a | None => Err e end.

Definition result_ok {E A} (r : result E A) : option A :=
  match r with Ok a => Some a | Err _ => None end.

Definition is_ok {E A} (r : result E A) : bool :=
  match r with Ok _ => true | Err _ => false end.

#[export] Instance result_eq_dec {E A} `{EqDecision E, EqDecision A} : EqDecision (result E A).
Proof. solve_decision. Defined.

(** [std::io::ErrorKind], as far as the source looks at it. *)
Inductive io_kind := IoNotFound | IoOther (code : N).

(** ** Machine integers

    A [w]-bit unsigned integer is an [N] below [2^w]; the bounds the code
    compares against. *)

Definition u8_max : N := 255.
Definition u16_max : N := 65535.
Definition u32_max : N := 4294967295.
Definition u64_max : N := 18446744073709551615.

(** [Vec::len], as the [usize] it is. *)
Definition vlen {A} (l : list A) : N := N.of_nat (length l).

(** ** Iterator adaptors used throughout the source *)

Section Adaptors.
Context {A B : Type}.

(** [Iterator::find_map] *)
Fixpoint find_map (f : A -> option B) (l : list A) : option B :=
  match l with
  | [] => None
  | x :: r => match f x with Some y => Some y | None => find_map f r end
  end.

(** [Iterator::find] *)
Fixpoint find_first (p : A -> bool) (l : list A) : option A :=
  match l with
  | [] => None
  | x :: r => if p x then Some x else find_first p r
  end.

(** [Iterator::max_by_key]: the last of the elements with the largest key. *)
Fixpoint max_by_key_aux (key : A -> N) (best : A) (l : list A) : A :=
  match l with
  | [] => best
  | x :: r => max_by_key_aux key (if (key best <=? key x)%N then x else best) r
  end.
Definition max_by_key (key : A -> N) (l : list A) : option A :=
  match l with [] => None | x :: r => Some (max_by_key_aux key x r) end.

(** [Iterator::filter] with a boolean predicate. *)
Fixpoint bfilter (p : A -> bool) (l : list A) : list A :=
  match l with
  | [] => []
  | x :: r => if p x then x :: bfilter p r else bfilter p r
  end.
End Adaptors.

(** ** Loops with an early return

    [for x in l { ... return Err(e) ... }], without and with a variable the
    body updates. *)

Section Loops.
Context {E A S : Type}.

Fixpoint for_each (body : A -> result E unit) (l : list A) : result E unit :=
  match l with
  | [] => Ok tt
  | x :: r => match body x with Ok _ => for_each body r | Err e => Err e end
  end.

Fixpoint for_fold (body : S -> A -> result E S) (s : S) (l : list A) : result E S :=
  match l with
  | [] => Ok s
  | x :: r => match body s x with Ok s' => for_fold body s' r | Err e => Err e end
  end.

(** [iter.map(f).collect::<Result<Vec<_>, _>>()] *)
Fixpoint collect_ok {B} (f : A -> result E B) (l : list A) : result E (list B) :=
  match l with
  | [] => Ok []
  | x :: r => match f x with
              | Ok y => match collect_ok f r with Ok ys => Ok (y :: ys) | Err e => Err e end
              | Err e => Err e
              end
  end.
End Loops.

(** ** Tactics *)

(** Break the boolean conjunctions and comparisons of a hypothesis or goal
    into propositions [lia] understands. *)
Ltac bprop :=
  repeat match goal with
  | H : (_ && _)%bool = true |- _ => apply andb_true_iff in H; destruct H
  | H : (_ || _)%bool = false |- _ => apply orb_false_iff in H; destruct H
  | H : negb _ = true |- _ => apply negb_true_iff in H
  | H : negb _ = false |- _ => apply negb_false_iff in H
  | H : (_ <=? _)%N = true |- _ => apply N.leb_le in H
  | H : (_ <=? _)%N = false |- _ => apply N.leb_gt in H
  | H : (_ <? _)%N = true |- _ => apply N.ltb_lt in H
  | H : (_ <? _)%N = false |- _ => apply N.ltb_ge in H
  | H : (_ =? _)%N = true |- _ => apply N.eqb_eq in H
  | H : (_ =? _)%N = false |- _ => apply N.eqb_neq in H
  | H : bool_decide _ = true |- _ => apply bool_decide_eq_true in H
  | H : bool_decide _ = false |- _ => apply bool_decide_eq_false in H
  end.

(** Case on the scrutinee of the outermost [if] or [match] of a hypothesis
    that equates a computation with a result, discharging the impossible
    branches. *)
Ltac step_in H :=
  match type of H with
  | context [match ?x with _ => _ end] =>
      let E := fresh "E" in destruct x eqn:E; try discriminate H
  end.
Ltac steps_in H := repeat (step_in H; simpl in H).

(** ** Generic lemmas *)

Section AdaptorFacts.
Context {A B : Type}.
Implicit Types (l : list A) (p : A -> bool).

Lemma find_first_Some p l x :
  find_first p l = Some x <->
  exists l1 l2, l = l1 ++ x :: l2 /\ p x = true /\ Forall (fun y => p y = false) l1.
Proof.
  induction l as [|y l IH]; simpl.
  - split; [discriminate|]. intros (l1 & l2 & Hl & _). by destruct l1.
  - destruct (p y) eqn:Hp.
    + split.
      * intros [= ->]. exists [], l. by repeat constructor.
      * intros (l1 & l2 & Hl & Hx & Hall). destruct l1 as [|z l1]; simplify_eq/=; [done|].
        inversion Hall; congruence.
    + rewrite IH. split.
      * intros (l1 & l2 & -> & Hx & Hall). exists (y :: l1), l2. by repeat constructor.
      * intros (l1 & l2 & Hl & Hx & Hall). destruct l1 as [|z l1]; simplify_eq/=; [congruence|].
        inversion Hall; subst. by exists l1, l2.
Qed.

Lemma find_first_elem p l x : find_first p l = Some x -> x ∈ l /\ p x = true.
Proof. intros (l1 & l2 & -> & Hp & _)%find_first_Some. set_solver. Qed.

Lemma find_first_None p l :
  find_first p l = None <-> Forall (fun x => p x = false) l.
Proof.
  induction l as [|y l IH]; simpl; [by split|].
  destruct (p y) eqn:Hp; rewrite Forall_cons; [|by rewrite IH; intuition].
  split; [discriminate|]. intros []; congruence.
Qed.

Lemma elem_of_bfilter p l x : x ∈ bfilter p l <-> p x = true /\ x ∈ l.
Proof.
  induction l as [|y l IH]; simpl; [set_solver|].
  destruct (p y) eqn:Hp; rewrite ?elem_of_cons, IH; intuition congruence.
Qed.

Lemma bfilter_app p a b : bfilter p (a ++ b) = bfilter p a ++ bfilter p b.
Proof. induction a as [|x a IH]; [done|]. cbn. destruct (p x); cbn; by rewrite IH. Qed.

Lemma bfilter_NoDup p l : NoDup l -> NoDup (bfilter p l).
Proof.
  induction 1 as [|x l Hx Hl IH]; simpl; [constructor|].
  destruct (p x); [|done]. constructor; [|done].
  rewrite elem_of_bfilter. naive_solver.
Qed.

Lemma forallb_Forall p l : forallb p l = true <-> Forall (fun x => p x = true) l.
Proof. by rewrite forallb_forall, List.Forall_forall. Qed.

Lemma forallb_elem p l : forallb p l = true <-> forall x, x ∈ l -> p x = true.
Proof. by rewrite forallb_Forall, Forall_forall. Qed.

Lemma existsb_elem p l : existsb p l = true <-> exists x, x ∈ l /\ p x = true.
Proof. rewrite existsb_exists. by setoid_rewrite list_elem_of_In. Qed.

Lemma existsb_none p l : existsb p l = false <-> forall x, x ∈ l -> p x = false.
Proof.
  rewrite <- not_true_iff_false, existsb_elem. split.
  - intros H x Hx. destruct (p x) eqn:E; [|done]. exfalso. eauto.
  - intros H (x & Hx & E). rewrite H in E by done. done.
Qed.

Lemma find_map_Some (f : A -> option B) l y :
  find_map f l = Some y -> exists x, x ∈ l /\ f x = Some y.
Proof.
  induction l as [|x l IH]; simpl; [done|].
  destruct (f x) eqn:Hf; [intros [= ->]; set_solver|].
  intros (z & Hz & Hfz)%IH. set_solver.
Qed.

Lemma find_map_None (f : A -> option B) l :
  find_map f l = None <-> forall x, x ∈ l -> f x = None.
Proof.
  induction l as [|x l IH]; simpl; [set_solver|].
  destruct (f x) eqn:Hf.
  - split; [done|]. intros H. rewrite H in Hf by set_solver. done.
  - rewrite IH. set_solver.
Qed.

Lemma max_by_key_aux_spec (key : A -> N) l best :
  let m := max_by_key_aux key best l in
  (m = best \/ m ∈ l) /\ (key best <= key m)%N /\ (forall x, x ∈ l -> (key x <= key m)%N).
Proof.
  revert best; induction l as [|x l IH]; intros best; simpl.
  - split; [by left|]. split; [lia|]. set_solver.
  - destruct (key best <=? key x)%N eqn:E; bprop.
    + destruct (IH x) as (Hin & Hx & Hall).
      split; [set_solver|]. split; [lia|]. intros y; rewrite elem_of_cons; naive_solver.
    + destruct (IH best) as (Hin & Hx & Hall).
      split; [set_solver|]. split; [lia|]. intros y; rewrite elem_of_cons.
      intros [->|Hy]; [lia|auto].
Qed.

Lemma max_by_key_Some (key : A -> N) l m :
  max_by_key key l = Some m -> m ∈ l /\ forall x, x ∈ l -> (key x <= key m)%N.
Proof.
  destruct l as [|x l]; [done|]. intros [= <-].
  destruct (max_by_key_aux_spec key l x) as (Hin & Hx & Hall).
  split; [set_solver|]. intros y; rewrite elem_of_cons. naive_solver.
Qed.

Lemma max_by_key_None (key : A -> N) l : max_by_key key l = None <-> l = [].
Proof. by destruct l. Qed.
End AdaptorFacts.

(** ** Loops *)

Lemma for_each_ok {E A} (body : A -> result E unit) l :
  for_each body l = Ok tt <-> forall x, x ∈ l -> body x = Ok tt.
Proof.
  induction l as [|x l IH]; simpl; [set_solver|]. destruct (body x) as [[]|e] eqn:Hx.
  - rewrite IH. set_solver.
  - split; [done|]. intros H. rewrite H in Hx by set_solver. done.
Qed.

(** A loop that rejects repeated keys and bad elements accepts exactly the
    lists of good elements with distinct keys. *)
Lemma for_fold_unique {E A K} `{Countable K} (body : gset K -> A -> result E (gset K))
    (key : A -> K) (good : A -> Prop) seen l s' :
  (forall seen x s', body seen x = Ok s' <-> good x /\ key x ∉ seen /\ s' = {[key x]} ∪ seen) ->
  for_fold body seen l = Ok s' <->
  (forall x, x ∈ l -> good x /\ key x ∉ seen) /\ NoDup (key <$> l) /\ s' = list_to_set (key <$> l) ∪ seen.
Proof.
  intros Hb. revert seen; induction l as [|x l IH]; intros seen; simpl.
  - split; [intros [= <-]|intros (_ & _ & ->); f_equal; set_solver].
    split; [set_solver|]. split; [constructor|set_solver].
  - rewrite NoDup_cons. destruct (body seen x) as [s1|e] eqn:E1.
    + apply Hb in E1 as (Hg & Hk & ->). rewrite IH. split.
      * intros (H1 & H2 & ->). repeat split; set_solver.
      * intros (H1 & [H2 H3] & ->). repeat split; set_solver.
    + split; [done|]. intros (H1 & _). destruct (H1 x) as [Hg Hk]; [set_solver|].
      exfalso. by rewrite (proj2 (Hb seen x _) (conj Hg (conj Hk eq_refl))) in E1.
Qed.

Lemma collect_ok_Forall2 {E A B} (f : A -> result E B) l ys :
  collect_ok f l = Ok ys <-> Forall2 (fun x y => f x = Ok y) l ys.
Proof.
  revert ys; induction l as [|x l IH]; intros ys; simpl.
  - split; [intros [= <-]; constructor|by inversion 1].
  - destruct (f x) as [y|e] eqn:Hx; [|split; [done|inversion 1; congruence]].
    destruct (collect_ok f l) as [ys'|e] eqn:Hc.
    + split; [intros [= <-]; constructor; [done|by apply IH]|].
      inversion 1 as [|x' y' l' ys'' Hxy Hl]; subst. apply IH in Hl. congruence.
    + split; [done|]. inversion 1 as [|x' y' l' ys'' Hxy Hl]; subst. apply IH in Hl. congruence.
Qed.

(** ** Lengths *)

Lemma vlen_cons {A} (x : A) l : (vlen (x :: l) = 1 + vlen l)%N.
Proof. unfold vlen. simpl. lia. Qed.

Lemma vlen_app {A} (a b : list A) : (vlen (a ++ b) = vlen a + vlen b)%N.
Proof. unfold vlen. rewrite length_app. lia. Qed.

Lemma vlen_0 {A} (l : list A) : (vlen l =? 0)%N = true <-> l = [].
Proof. unfold vlen. destruct l; simpl; split; intros H; try done; lia. Qed.
