(* ===== verification/RustStr.v ===== *)
(** * Rust strings

    A Rust [str] is a sequence of Unicode scalar values; a [str] here is the
    list of those values and a [char] is an [N].  [len] is the length of the
    UTF-8 encoding, which is what [str::len] counts.  A byte is an [N] below
    256, so the ASCII predicates serve for [u8] and [char] alike.  The file
    holds the operations of [core::str], [core::char], [u8] and the integer
    [FromStr]/[Display] implementations the source uses, with the lemmas the
    components share. *)

From Stdlib Require Import Strings.Byte.
From S2P Require Import Prelude.

(** ** Literals: ["..."%str] is a [str], ["c"%ch] a [char]. *)

Notation str := (list N).
Notation char := N (only parsing).

Inductive slit := SNil | SCons (b : N) (r : slit).
Fixpoint slit_of_bytes (l : list Byte.byte) : slit :=
  match l with [] => SNil | b :: r => SCons (Byte.to_N b) (slit_of_bytes r) end.
Fixpoint slit_to_bytes (l : slit) : option (list Byte.byte) :=
  match l with
  | SNil => Some []
  | SCons b r =>
      if (32 <=? b)%N && (b <? 127)%N then
        match Byte.of_N b, slit_to_bytes r with
        | Some x, Some y => Some (x :: y)
        | _, _ => None
        end
      else None
  end.
Definition slit_print (l : slit) : option (list Byte.byte) :=
  match l with SNil => None | _ => slit_to_bytes l end.

Definition ch_of_bytes (l : list Byte.byte) : option N :=
  match l with [b] => Some (Byte.to_N b) | _ => None end.
Definition ch_to_bytes (n : N) : option (list Byte.byte) := None.

Declare Scope str_scope.
Delimit Scope str_scope with str.
Declare Scope ch_scope.
Delimit Scope ch_scope with ch.
#[warnings="-via-type-mismatch"]
String Notation list slit_of_bytes slit_print
  (via slit mapping [[nil] => SNil, [cons] => SCons]) : str_scope.
String Notation N ch_of_bytes ch_to_bytes : ch_scope.

Open Scope N_scope.

(** ** Characters and bytes *)

Definition in_range (lo hi c : N) : bool := (lo <=? c) && (c <=? hi).

Definition is_ascii (c : N) : bool := c <? 128.
Definition is_ascii_lowercase (c : N) : bool := in_range "a"%ch "z"%ch c.
Definition is_ascii_uppercase (c : N) : bool := in_range "A"%ch "Z"%ch c.
Definition is_ascii_digit (c : N) : bool := in_range "0"%ch "9"%ch c.
Definition is_ascii_alphabetic (c : N) : bool := is_ascii_lowercase c || is_ascii_uppercase c.
Definition is_ascii_alphanumeric (c : N) : bool := is_ascii_alphabetic c || is_ascii_digit c.
Definition is_ascii_hexdigit (c : N) : bool :=
  is_ascii_digit c || in_range "a"%ch "f"%ch c || in_range "A"%ch "F"%ch c.
(** [u8::is_ascii_whitespace]: space, tab, line feed, form feed, return. *)
Definition is_ascii_whitespace (c : N) : bool :=
  (c =? 32) || (c =? 9) || (c =? 10) || (c =? 12) || (c =? 13).
(** [char::is_control]: the Unicode category Cc. *)
Definition is_control (c : N) : bool := (c <? 32) || in_range 127 159 c.
(** [char::is_whitespace]: the Unicode property White_Space. *)
Definition is_whitespace (c : N) : bool :=
  in_range 9 13 c || (c =? 32) || (c =? 133) || (c =? 160) || (c =? 5760)
  || in_range 8192 8202 c || (c =? 8232) || (c =? 8233) || (c =? 8239) || (c =? 8287)
  || (c =? 12288).

Definition lower_char (c : N) : N := if is_ascii_uppercase c then c + 32 else c.
Definition upper_char (c : N) : N := if is_ascii_lowercase c then c - 32 else c.

(** [char::len_utf8] *)
Definition len_utf8 (c : N) : N :=
  if c <? 128 then 1 else if c <? 2048 then 2 else if c <? 65536 then 3 else 4.

(** ** Strings *)

(** [str::len] *)
Definition len (s : str) : N := foldr (fun c n => len_utf8 c + n) 0 s.

Definition to_ascii_lowercase (s : str) : str := map lower_char s.
Definition to_ascii_uppercase (s : str) : str := map upper_char s.
Definition eq_ignore_ascii_case (a b : str) : bool :=
  bool_decide (to_ascii_lowercase a = to_ascii_lowercase b).

Definition str_eqb (a b : str) : bool := bool_decide (a = b).
Definition is_empty {A} (s : list A) : bool := match s with [] => true | _ => false end.

(** [str::contains] with a [char] pattern. *)
Definition contains_char (c : N) (s : str) : bool := existsb (N.eqb c) s.

(** [strip_prefix] and [starts_with] *)
Fixpoint strip_prefix (p s : str) : option str :=
  match p, s with
  | [], _ => Some s
  | c :: p', d :: s' => if c =? d then strip_prefix p' s' else None
  | _ :: _, [] => None
  end.
Definition starts_with (p s : str) : bool :=
  match strip_prefix p s with Some _ => true | None => false end.

(** [strip_suffix] and [ends_with] *)
Definition strip_suffix (p s : str) : option str :=
  option_map (@rev N) (strip_prefix (rev p) (rev s)).
Definition ends_with (p s : str) : bool :=
  match strip_suffix p s with Some _ => true | None => false end.

(** [str::split] with a [char] pattern: never empty. *)
Fixpoint split_char (sep : N) (s : str) : list str :=
  match s with
  | [] => [[]]
  | c :: r =>
      if c =? sep then [] :: split_char sep r
      else match split_char sep r with
           | [] => [[c]]
           | w :: ws => (c :: w) :: ws
           end
  end.

(** [\[_\].join(sep)] *)
Fixpoint join_char (sep : N) (ws : list str) : str :=
  match ws with
  | [] => []
  | [w] => w
  | w :: ws' => w ++ sep :: join_char sep ws'
  end.

(** [split_once] with a [char] pattern: at the first occurrence. *)
Fixpoint split_once (sep : N) (s : str) : option (str * str) :=
  match s with
  | [] => None
  | c :: r =>
      if c =? sep then Some ([], r)
      else match split_once sep r with
           | Some (a, b) => Some (c :: a, b)
           | None => None
           end
  end.

(** [rsplit_once] with a [char] pattern: at the last occurrence. *)
Definition rsplit_once (sep : N) (s : str) : option (str * str) :=
  match split_once sep (rev s) with
  | Some (a, b) => Some (rev b, rev a)
  | None => None
  end.

(** [split_once] with a [&str] pattern. *)
Fixpoint split_once_str (sep s : str) : option (str * str) :=
  match strip_prefix sep s with
  | Some r => Some ([], r)
  | None =>
      match s with
      | [] => None
      | c :: r =>
          match split_once_str sep r with
          | Some (a, b) => Some (c :: a, b)
          | None => None
          end
      end
  end.

(** [trim_start_matches], [trim_end_matches] and [trim] *)
Fixpoint drop_while {A} (p : A -> bool) (s : list A) : list A :=
  match s with [] => [] | c :: r => if p c then drop_while p r else s end.
Fixpoint take_while {A} (p : A -> bool) (s : list A) : list A :=
  match s with [] => [] | c :: r => if p c then c :: take_while p r else [] end.
Definition trim_end_matches (p : N -> bool) (s : str) : str := rev (drop_while p (rev s)).
Definition trim (s : str) : str := trim_end_matches is_whitespace (drop_while is_whitespace s).

(** [s.matches(c).count()] *)
Definition count_char (c : N) (s : str) : N := vlen (bfilter (N.eqb c) s).

(** ** Integers *)

Definition digit_val (c : N) : N := c - 48.

Fixpoint parse_digits (max acc : N) (s : str) : option N :=
  match s with
  | [] => Some acc
  | c :: r =>
      if is_ascii_digit c then
        let acc' := acc * 10 + digit_val c in
        if acc' <=? max then parse_digits max acc' r else None
      else None
  end.

(** [<uN as FromStr>::from_str] for the type whose largest value is [max]:
    an optional [+], then at least one digit; [None] on overflow. *)
Definition parse_uint (max : N) (s : str) : option N :=
  let digits := match s with
                | c :: ((_ :: _) as r) => if c =? "+"%ch then r else s
                | _ => s
                end in
  match digits with [] => None | _ => parse_digits max 0 digits end.

(** [Display] of an unsigned integer. *)
Fixpoint show_digits (fuel : nat) (n : N) (acc : str) : str :=
  match fuel with
  | O => acc
  | S f =>
      let acc' := (48 + n mod 10) :: acc in
      if n <? 10 then acc' else show_digits f (n / 10) acc'
  end.
Definition show_uint (n : N) : str := show_digits (S (N.to_nat (N.log2 n))) n [].

(** ** Lemmas on prefixes, suffixes and splitting *)

Create HintDb str_db.

Lemma strip_prefix_Some p s r : strip_prefix p s = Some r <-> s = p ++ r.
Proof.
  revert s; induction p as [|c p IH]; intros s; simpl.
  - split; [by intros [= ->]|by intros ->].
  - destruct s as [|d s]; [done|]. destruct (c =? d) eqn:E; bprop.
    + subst. rewrite IH. split; [by intros ->|by intros [= ->]].
    + split; [done|]. intros [= -> _]. done.
Qed.

Lemma starts_with_spec p s : starts_with p s = true <-> exists r, s = p ++ r.
Proof.
  unfold starts_with. destruct (strip_prefix p s) eqn:E.
  - apply strip_prefix_Some in E. naive_solver.
  - split; [done|]. intros (r & Hr). apply strip_prefix_Some in Hr. congruence.
Qed.

Lemma strip_suffix_Some p s r : strip_suffix p s = Some r <-> s = r ++ p.
Proof.
  unfold strip_suffix. destruct (strip_prefix (rev p) (rev s)) as [q|] eqn:E; simpl.
  - apply strip_prefix_Some in E. apply (f_equal (@rev N)) in E.
    rewrite rev_involutive, rev_app_distr, rev_involutive in E. subst.
    split; [by intros [= ->]|]. by intros H%app_inv_tail; subst.
  - split; [done|]. intros ->. rewrite rev_app_distr in E.
    assert (strip_prefix (rev p) (rev p ++ rev r) = Some (rev r)) by by apply strip_prefix_Some.
    congruence.
Qed.

Lemma strip_suffix_None p s : strip_suffix p s = None <-> forall r, s <> r ++ p.
Proof.
  destruct (strip_suffix p s) as [r|] eqn:E.
  - apply strip_suffix_Some in E. naive_solver.
  - split; [|done]. intros _ r Hr. apply strip_suffix_Some in Hr. congruence.
Qed.

Lemma ends_with_spec p s : ends_with p s = true <-> exists r, s = r ++ p.
Proof.
  unfold ends_with. destruct (strip_suffix p s) eqn:E.
  - apply strip_suffix_Some in E. naive_solver.
  - split; [done|]. intros (r & Hr). apply strip_suffix_Some in Hr. congruence.
Qed.

Lemma contains_char_spec c s : contains_char c s = true <-> c ∈ s.
Proof.
  unfold contains_char. rewrite existsb_exists, list_elem_of_In.
  split; [intros (x & ? & ?%N.eqb_eq); by subst|]. intros H; exists c. by rewrite N.eqb_refl.
Qed.

Lemma contains_char_false c s : contains_char c s = false <-> c ∉ s.
Proof. rewrite <- contains_char_spec. by destruct (contains_char c s). Qed.

Lemma split_once_complete c a b : c ∉ a -> split_once c (a ++ c :: b) = Some (a, b).
Proof.
  induction a as [|d a IH]; simpl; intros Ha; [by rewrite N.eqb_refl|].
  destruct (d =? c) eqn:E; bprop; [set_solver|]. by rewrite IH by set_solver.
Qed.

Lemma split_once_Some c s a b : split_once c s = Some (a, b) <-> s = a ++ c :: b /\ c ∉ a.
Proof.
  split; [|intros [-> Ha]; by apply split_once_complete].
  revert a; induction s as [|d s IH]; intros a; simpl; [done|].
  destruct (d =? c) eqn:E; bprop; [intros [= <- <-]; set_solver|].
  destruct (split_once c s) as [[a' b']|]; [|done]. intros [= <- <-].
  destruct (IH a') as [-> Ha']; [done|]. set_solver.
Qed.

Lemma split_once_None c s : split_once c s = None <-> c ∉ s.
Proof.
  induction s as [|d s IH]; simpl; [set_solver|].
  destruct (d =? c) eqn:E; bprop.
  - subst. split; [done|set_solver].
  - destruct (split_once c s) as [[a b]|]; [split; [done|]|set_solver].
    intros H. assert (Some (a, b) = None); [|done]. apply IH. set_solver.
Qed.

Lemma elem_of_rev {A} (x : A) l : x ∈ rev l <-> x ∈ l.
Proof. by rewrite !list_elem_of_In, <- in_rev. Qed.

Lemma rsplit_once_complete c a b : c ∉ b -> rsplit_once c (a ++ c :: b) = Some (a, b).
Proof.
  intros Hb. unfold rsplit_once. rewrite rev_app_distr. simpl. rewrite <- app_assoc. simpl.
  rewrite split_once_complete by by rewrite elem_of_rev. by rewrite !rev_involutive.
Qed.

Lemma rsplit_once_Some c s a b : rsplit_once c s = Some (a, b) <-> s = a ++ c :: b /\ c ∉ b.
Proof.
  split; [|intros [-> Hb]; by apply rsplit_once_complete].
  unfold rsplit_once. destruct (split_once c (rev s)) as [[x y]|] eqn:E; [|done].
  intros [= <- <-]. apply split_once_Some in E as [E Hx]. rewrite elem_of_rev.
  split; [|done]. rewrite <- (rev_involutive s), E, rev_app_distr. simpl. by rewrite <- app_assoc.
Qed.

Lemma rsplit_once_None c s : rsplit_once c s = None <-> c ∉ s.
Proof.
  rewrite <- elem_of_rev, <- split_once_None. unfold rsplit_once.
  by destruct (split_once c (rev s)) as [[x y]|].
Qed.

Lemma split_char_ne sep s : split_char sep s <> [].
Proof. destruct s as [|c s]; simpl; [done|]. destruct (c =? sep), (split_char sep s); done. Qed.

Lemma split_char_no_sep sep s w : w ∈ split_char sep s -> sep ∉ w.
Proof.
  revert w; induction s as [|c s IH]; intros w; simpl.
  - rewrite list_elem_of_singleton. set_solver.
  - destruct (c =? sep) eqn:E; bprop.
    { rewrite elem_of_cons. intros [->|Hw]; [set_solver|by apply IH]. }
    destruct (split_char sep s) as [|v vs] eqn:E'; [by apply split_char_ne in E'|].
    rewrite elem_of_cons. intros [->|Hw]; [|apply IH; set_solver].
    assert (sep ∉ v) by (apply IH; set_solver). set_solver.
Qed.

Lemma split_char_none sep s : sep ∉ s -> split_char sep s = [s].
Proof.
  induction s as [|c s IH]; simpl; [done|]. intros Hs.
  destruct (c =? sep) eqn:E; bprop; [set_solver|]. by rewrite IH by set_solver.
Qed.

Lemma split_char_app sep a b : sep ∉ a -> split_char sep (a ++ sep :: b) = a :: split_char sep b.
Proof.
  induction a as [|c a IH]; simpl; intros Ha; [by rewrite N.eqb_refl|].
  destruct (c =? sep) eqn:E; bprop; [set_solver|]. by rewrite IH by set_solver.
Qed.

Lemma split_char_app_all sep a b :
  split_char sep (a ++ sep :: b) = split_char sep a ++ split_char sep b.
Proof.
  induction a as [|c a IH]; simpl; [by rewrite N.eqb_refl|].
  rewrite IH. destruct (c =? sep); [done|].
  destruct (split_char sep a) eqn:E; [by apply split_char_ne in E|done].
Qed.

Lemma join_char_cons sep w v vs :
  join_char sep (w :: v :: vs) = w ++ sep :: join_char sep (v :: vs).
Proof. done. Qed.

Lemma join_split sep s : join_char sep (split_char sep s) = s.
Proof.
  induction s as [|c s IH]; simpl; [done|].
  destruct (split_char sep s) as [|w ws] eqn:E'; [by apply split_char_ne in E'|].
  destruct (c =? sep) eqn:E; bprop.
  - subst c. by rewrite join_char_cons, IH.
  - destruct ws; simpl in *; by rewrite IH.
Qed.

Lemma split_join sep ws :
  ws <> [] -> Forall (fun w => sep ∉ w) ws -> split_char sep (join_char sep ws) = ws.
Proof.
  intros Hne Hall. induction Hall as [|w ws Hw Hall IH]; [done|].
  destruct ws as [|v vs]; [by apply split_char_none|].
  change (join_char sep (w :: v :: vs)) with (w ++ sep :: join_char sep (v :: vs)).
  by rewrite split_char_app, IH by done.
Qed.

Lemma is_empty_true {A} (s : list A) : is_empty s = true <-> s = [].
Proof. by destruct s. Qed.
Lemma is_empty_false {A} (s : list A) : is_empty s = false <-> s <> [].
Proof. by destruct s. Qed.

(** ** Lemmas on case folding and lengths *)

(** Decide a goal about the character classes: they unfold to boolean
    comparisons, which [lia] reads. *)
Ltac char_unfold :=
  unfold is_ascii_whitespace, is_ascii_alphanumeric, is_ascii_alphabetic,
    is_ascii_lowercase, is_ascii_uppercase, is_ascii_digit, is_ascii, in_range in *.
Ltac char_cases :=
  unfold lower_char, upper_char, len_utf8 in *; char_unfold;
  repeat match goal with
  | |- context [if ?b then _ else _] => destruct b eqn:?
  | H : context [if ?b then _ else _] |- _ => destruct b eqn:?
  end; lia.

Lemma lower_char_idem c : lower_char (lower_char c) = lower_char c.
Proof. char_cases. Qed.
Lemma lower_char_not_upper c : is_ascii_uppercase (lower_char c) = false.
Proof. char_cases. Qed.
Lemma lower_char_id c : is_ascii_uppercase c = false -> lower_char c = c.
Proof. unfold lower_char. by intros ->. Qed.
Lemma lower_char_ascii c : is_ascii (lower_char c) = is_ascii c.
Proof. char_cases. Qed.
Lemma lower_char_len c : len_utf8 (lower_char c) = len_utf8 c.
Proof. char_cases. Qed.
Lemma lower_char_alnum c : is_ascii_alphanumeric (lower_char c) = is_ascii_alphanumeric c.
Proof. char_cases. Qed.
(** A character that is not a lowercase letter is hit only by itself. *)
Lemma lower_char_eq c d :
  is_ascii_lowercase d = false -> is_ascii_uppercase d = false -> lower_char c = d <-> c = d.
Proof. intros. char_cases. Qed.

Lemma lower_idem s : to_ascii_lowercase (to_ascii_lowercase s) = to_ascii_lowercase s.
Proof. induction s as [|c s IH]; simpl; [done|]. by rewrite lower_char_idem, IH. Qed.

Lemma lower_app a b :
  to_ascii_lowercase (a ++ b) = to_ascii_lowercase a ++ to_ascii_lowercase b.
Proof. apply map_app. Qed.

Lemma lower_id s : Forall (fun c => is_ascii_uppercase c = false) s -> to_ascii_lowercase s = s.
Proof. induction 1 as [|c s Hc Hs IH]; simpl; [done|]. by rewrite lower_char_id, IH. Qed.

Lemma lower_no_upper s : Forall (fun c => is_ascii_uppercase c = false) (to_ascii_lowercase s).
Proof. induction s; simpl; constructor; auto using lower_char_not_upper. Qed.

Lemma len_app a b : len (a ++ b) = len a + len b.
Proof. induction a as [|c a IH]; simpl; [done|]. unfold len in *. simpl. rewrite IH. lia. Qed.

Lemma len_lower s : len (to_ascii_lowercase s) = len s.
Proof. unfold len. induction s as [|c s IH]; simpl; [done|]. by rewrite lower_char_len, IH. Qed.

Lemma len_cons c s : len (c :: s) = len_utf8 c + len s.
Proof. done. Qed.

Lemma len_utf8_bound c : 1 <= len_utf8 c <= 4.
Proof. char_cases. Qed.

Lemma len_ascii s : Forall (fun c => is_ascii c = true) s -> len s = vlen s.
Proof.
  induction 1 as [|c s Hc Hs IH]; [done|]. rewrite len_cons, vlen_cons, IH. char_cases.
Qed.

Lemma len_vlen s : vlen s <= len s.
Proof.
  induction s as [|c s IH]; [done|]. rewrite len_cons, vlen_cons.
  pose proof (len_utf8_bound c). lia.
Qed.

Lemma len_0 s : len s = 0 <-> s = [].
Proof. split; [|by intros ->]. destruct s as [|c s]; [done|]. rewrite len_cons.
  pose proof (len_utf8_bound c). lia.
Qed.

(** Splitting commutes with case folding when the separator is not a letter. *)
Lemma split_char_lower sep s :
  is_ascii_lowercase sep = false -> is_ascii_uppercase sep = false ->
  split_char sep (to_ascii_lowercase s) = map to_ascii_lowercase (split_char sep s).
Proof.
  intros Hl Hu. induction s as [|c s IH]; [done|]. simpl. rewrite IH.
  destruct (c =? sep) eqn:E; bprop.
  - subst. rewrite lower_char_id by done. by rewrite N.eqb_refl.
  - destruct (lower_char c =? sep) eqn:E'; bprop.
    { by apply (lower_char_eq c sep Hl Hu) in E'. }
    by destruct (split_char sep s).
Qed.

Lemma elem_of_lower sep s :
  is_ascii_lowercase sep = false -> is_ascii_uppercase sep = false ->
  sep ∈ to_ascii_lowercase s <-> sep ∈ s.
Proof.
  intros Hl Hu. induction s as [|c s IH]; simpl; [set_solver|].
  rewrite !elem_of_cons, IH.
  assert (sep = lower_char c <-> sep = c) as ->; [|done].
  split; intros H; symmetry; symmetry in H; by apply (lower_char_eq c sep Hl Hu).
Qed.

(** ** Integers: printing then parsing is the identity *)

Lemma digit_of_mod n : is_ascii_digit (48 + n mod 10) = true.
Proof.
  pose proof (N.mod_upper_bound n 10 ltac:(lia)).
  char_unfold. lia.
Qed.

Lemma show_digits_parse max fuel n acc :
  n < 2 ^ N.of_nat fuel -> n <= max -> (fuel <> 0)%nat ->
  parse_digits max 0 (show_digits fuel n acc) = parse_digits max n acc.
Proof.
  revert n acc; induction fuel as [|f IH]; intros n acc Hf Hm Hne; [done|]. simpl.
  pose proof (digit_of_mod n) as Hd.
  destruct (n <? 10) eqn:E; bprop.
  - cbn [parse_digits]. rewrite Hd. unfold digit_val. rewrite N.mod_small by done.
    replace (0 * 10 + (48 + n - 48)) with n by lia.
    destruct (n <=? max) eqn:E'; bprop; [done|lia].
  - assert (n / 10 <= n / 2) by (apply N.div_le_compat_l; lia).
    assert (n / 2 < 2 ^ N.of_nat f).
    { apply N.Div0.div_lt_upper_bound. rewrite Nat2N.inj_succ, N.pow_succ_r in Hf by lia. lia. }
    pose proof (N.div_mod n 10 ltac:(lia)).
    rewrite IH; [| lia | lia |].
    + cbn [parse_digits]. rewrite Hd. unfold digit_val.
      replace (n / 10 * 10 + (48 + n mod 10 - 48)) with n by lia.
      destruct (n <=? max) eqn:E'; bprop; [done|lia].
    + destruct f; [|done]. simpl in *. lia.
Qed.

Lemma show_digits_digits fuel n acc :
  Forall (fun c => is_ascii_digit c = true) acc ->
  Forall (fun c => is_ascii_digit c = true) (show_digits fuel n acc).
Proof.
  revert n acc; induction fuel as [|f IH]; intros n acc Ha; [done|]. simpl.
  pose proof (digit_of_mod n) as Hd.
  destruct (n <? 10); [by constructor|]. apply IH. by constructor.
Qed.

Lemma show_digits_ne fuel n c acc : show_digits fuel n (c :: acc) <> [].
Proof. revert n c acc; induction fuel as [|f IH]; intros n c acc; [done|]. simpl.
  destruct (n <? 10); [done|apply IH].
Qed.

Lemma show_uint_ne n : show_uint n <> [].
Proof. unfold show_uint. simpl. destruct (n <? 10); [done|apply show_digits_ne]. Qed.

Lemma show_uint_digits n : Forall (fun c => is_ascii_digit c = true) (show_uint n).
Proof. by apply show_digits_digits. Qed.

Lemma parse_uint_digits max s :
  Forall (fun c => is_ascii_digit c = true) s -> s <> [] -> parse_uint max s = parse_digits max 0 s.
Proof.
  intros Hs Hne. destruct s as [|c [|d s]]; [congruence|reflexivity|].
  inversion_clear Hs. unfold parse_uint. destruct (c =? "+"%ch) eqn:E; [|reflexivity]. bprop. subst. discriminate.
Qed.

Lemma parse_show_uint max n : n <= max -> parse_uint max (show_uint n) = Some n.
Proof.
  intros Hn. rewrite parse_uint_digits by auto using show_uint_digits, show_uint_ne.
  unfold show_uint. rewrite show_digits_parse; [done| |done|done].
  rewrite Nat2N.inj_succ, N2Nat.id.
  destruct (N.eq_dec n 0) as [->|]; [done|]. apply N.log2_spec. lia.
Qed.

Lemma show_uint_inj a b : show_uint a = show_uint b -> a = b.
Proof.
  intros H. pose proof (parse_show_uint (N.max a b) a ltac:(lia)) as Ha.
  rewrite H, parse_show_uint in Ha by lia. congruence.
Qed.

Lemma parse_digits_bound max acc s n : acc <= max -> parse_digits max acc s = Some n -> n <= max.
Proof.
  revert acc; induction s as [|c s IH]; intros acc Ha; simpl; [by intros [= ->]|].
  intros H. steps_in H. bprop. eapply IH; eauto.
Qed.

Lemma parse_uint_bound max s n : parse_uint max s = Some n -> n <= max.
Proof.
  unfold parse_uint. set (ds := match s with [] => _ | _ => _ end).
  destruct ds; [done|]. apply parse_digits_bound. lia.
Qed.

#[export] Hint Rewrite len_app len_lower lower_app lower_idem @vlen_app : str_db.
#[export] Hint Resolve lower_no_upper show_uint_digits show_uint_ne : str_db.

Arguments str_eqb (_ _)%_str_scope.
Arguments eq_ignore_ascii_case (_ _)%_str_scope.
Arguments strip_prefix (_ _)%_str_scope.
Arguments strip_suffix (_ _)%_str_scope.
Arguments starts_with (_ _)%_str_scope.
Arguments ends_with (_ _)%_str_scope.
Arguments split_once_str (_ _)%_str_scope.
Arguments contains_char _%_ch_scope _%_str_scope.
Arguments split_char _%_ch_scope _%_str_scope.
Arguments join_char _%_ch_scope _.
Arguments split_once _%_ch_scope _%_str_scope.
Arguments rsplit_once _%_ch_scope _%_str_scope.
Arguments count_char _%_ch_scope _%_str_scope.
