(* ===== verification/RustText.v ===== *)
(** * Text

    The line and word operations of [str] the source edits configuration files
    with: [lines], [split_whitespace], [contains] and [replace]. *)

From S2P Require Import Prelude RustStr.

Open Scope N_scope.

Notation NL := 10%N (only parsing).

(** [str::lines]: a line ending is [\n] or [\r\n], and none after the last. *)
Fixpoint lines_of (ws : list str) : list str :=
  match ws with
  | [] => []
  | [w] => if is_empty w then [] else [w]
  | w :: r => default w (strip_suffix [13] w) :: lines_of r
  end.
Definition str_lines (s : str) : list str := lines_of (split_char NL s).

(** [str::contains] with a [&str] pattern. *)
Definition contains_str (needle hay : str) : bool :=
  match split_once_str needle hay with Some _ => true | None => false end.

(** [str::split_whitespace] *)
Fixpoint words_go (word s : str) : list str :=
  match s with
  | [] => if is_empty word then [] else [word]
  | c :: r =>
      if is_whitespace c then if is_empty word then words_go [] r else word :: words_go [] r
      else words_go (word ++ [c]) r
  end.
Definition split_whitespace (s : str) : list str := words_go [] s.

Definition trim_start (s : str) : str := drop_while is_whitespace s.
Definition trim_end (s : str) : str := trim_end_matches is_whitespace s.

(** A text made of lines, each ended. *)
Definition unlines (ls : list str) : str := mjoin ((fun l => l ++ [NL]) <$> ls).

(** ** Lemmas *)

Lemma drop_while_app {A} (p : A -> bool) a x b : p x = false -> drop_while p (a ++ x :: b) = drop_while p (a ++ [x]) ++ b.
Proof.
  intros Hx. induction a as [|y a IH]; cbn; [by rewrite Hx|]. destruct (p y); [done|].
  change (y :: (a ++ x :: b) = y :: ((a ++ [x]) ++ b)). by rewrite <- app_assoc.
Qed.

Lemma take_while_app {A} (p : A -> bool) a x b :
  Forall (fun c => p c = true) a -> p x = false -> take_while p (a ++ x :: b) = a.
Proof. induction 1 as [|y a Hy Ha IH]; intros Hx; cbn; [by rewrite Hx|]. by rewrite Hy, IH. Qed.

Lemma drop_while_suffix {A} (p : A -> bool) s : exists k, s = k ++ drop_while p s.
Proof.
  induction s as [|c s (k & IH)]; simpl; [by exists []|].
  destruct (p c); [exists (c :: k); simpl; by f_equal|by exists []].
Qed.

Lemma trim_end_matches_prefix (p : N -> bool) s : exists k, s = trim_end_matches p s ++ k /\ Forall (fun c => p c = true) k.
Proof.
  unfold trim_end_matches. assert (exists k, rev s = k ++ drop_while p (rev s) /\ Forall (fun c => p c = true) k) as (k & Hk & Hp).
  { induction (rev s) as [|c r (k & IH & Hk)]; cbn; [by exists []|].
    destruct (p c) eqn:E; [exists (c :: k); cbn; by rewrite <- IH; auto|by exists []]. }
  exists (rev k). rewrite <- rev_app_distr, <- Hk, rev_involutive. split; [done|]. by apply Forall_rev.
Qed.

Lemma trim_no_space s :
  (forall c r, s = c :: r -> is_whitespace c = false) ->
  (forall r c, s = r ++ [c] -> is_whitespace c = false) -> trim s = s.
Proof.
  intros Hh Hl. unfold trim, trim_end_matches.
  assert (drop_while is_whitespace s = s) as ->.
  { destruct s as [|c s]; [done|]. simpl. by rewrite (Hh c s). }
  destruct (rev s) as [|c r] eqn:E.
  - apply (f_equal (@rev N)) in E. rewrite rev_involutive in E. by subst.
  - simpl. rewrite (Hl (rev r) c).
    + by rewrite <- E, rev_involutive.
    + by rewrite <- (rev_involutive s), E.
Qed.

Lemma trim_solid s : Forall (fun c => is_whitespace c = false) s -> trim s = s.
Proof.
  intros Hs. apply trim_no_space; [intros c r ->; by inv Hs|]. intros r c ->. apply Forall_app in Hs as [_ Hs]. by inv Hs.
Qed.

Lemma split_lines {A} (line : A -> str) l :
  (forall x, x ∈ l -> NL ∉ line x) ->
  split_char NL (mjoin ((fun x => line x ++ [NL]) <$> l)) = (line <$> l) ++ [[]].
Proof.
  induction l as [|x l IH]; intros H; [done|]. rewrite !fmap_cons.
  set (tl := mjoin _) in *. change (mjoin _) with ((line x ++ [NL]) ++ tl).
  rewrite <- app_assoc. change ([NL] ++ tl) with (NL :: tl).
  rewrite split_char_app by set_solver. by rewrite IH by set_solver.
Qed.

Lemma lines_of_clean ls : (forall l, l ∈ ls -> 13 ∉ l) -> lines_of (ls ++ [[]]) = ls.
Proof.
  induction ls as [|l ls IH]; intros H; [done|].
  assert (strip_suffix [13] l = None) as Hs.
  { apply strip_suffix_None. intros r ->. apply (H (r ++ [13])); set_solver. }
  assert (lines_of (l :: (ls ++ [[]])) = default l (strip_suffix [13] l) :: lines_of (ls ++ [[]])) as E.
  { by destruct ls. }
  simpl app. rewrite E, Hs, IH by set_solver. done.
Qed.

Lemma unlines_cons l ls : unlines (l :: ls) = l ++ NL :: unlines ls.
Proof. unfold unlines. cbn. by rewrite <- app_assoc. Qed.

Lemma unlines_app a b : unlines (a ++ b) = unlines a ++ unlines b.
Proof. unfold unlines. by rewrite fmap_app, join_app. Qed.

Lemma split_unlines ls : (forall l, l ∈ ls -> NL ∉ l) -> split_char NL (unlines ls) = ls ++ [[]].
Proof. intros H. unfold unlines. rewrite (split_lines (fun x => x)) by done. by rewrite list_fmap_id. Qed.

Lemma split_unlines_app ls rest : (forall l, l ∈ ls -> NL ∉ l) -> split_char NL (unlines ls ++ rest) = ls ++ split_char NL rest.
Proof.
  induction ls as [|l ls IH]; intros H; [done|]. rewrite unlines_cons, <- app_assoc. cbn [app].
  rewrite split_char_app by (apply H; by left). rewrite IH by (intros x Hx; apply H; by right). done.
Qed.

Lemma str_lines_unlines ls : (forall l, l ∈ ls -> NL ∉ l /\ 13 ∉ l) -> str_lines (unlines ls) = ls.
Proof.
  intros H. unfold str_lines. rewrite split_unlines by (intros l Hl; by apply H). apply lines_of_clean.
  intros l Hl. by apply H.
Qed.

Lemma join_snoc_nil sep ls : ls <> [] -> join_char sep (ls ++ [[]]) = join_char sep ls ++ [sep].
Proof.
  induction ls as [|l ls IH]; intros Hne; [done|]. destruct ls as [|l' ls]; [done|].
  change (join_char sep ((l :: l' :: ls) ++ [[]])) with (l ++ sep :: join_char sep ((l' :: ls) ++ [[]])).
  rewrite IH by done. change (join_char sep (l :: l' :: ls)) with (l ++ sep :: join_char sep (l' :: ls)).
  by rewrite <- app_assoc.
Qed.

Lemma join_lines_unlines ls : ls <> [] -> join_char NL ls ++ [NL] = unlines ls.
Proof.
  induction ls as [|l ls IH]; intros Hne; [done|]. rewrite unlines_cons. destruct ls as [|l' ls]; [done|].
  rewrite <- IH by done. change (join_char NL (l :: l' :: ls)) with (l ++ NL :: join_char NL (l' :: ls)).
  by rewrite <- app_assoc.
Qed.

Lemma elem_of_join_char c sep ws : c ∈ join_char sep ws -> c = sep \/ exists w, w ∈ ws /\ c ∈ w.
Proof.
  induction ws as [|w [|v ws] IH]; [by intros ?%elem_of_nil|intros Hc; right; exists w; set_solver|].
  rewrite join_char_cons, elem_of_app, elem_of_cons. intros [Hc|[->|Hc]]; [right; exists w; set_solver|auto|].
  destruct (IH Hc) as [->|(x & Hx & ?)]; [auto|]. right. exists x. set_solver.
Qed.

Lemma elem_of_split_char c sep s w : w ∈ split_char sep s -> c ∈ w -> c ∈ s.
Proof.
  revert w; induction s as [|d s IH]; intros w; cbn; [intros ->%list_elem_of_singleton; done|].
  destruct (d =? sep).
  { intros [->|Hw]%elem_of_cons Hc; [by apply elem_of_nil in Hc|]. right. by eapply IH. }
  destruct (split_char sep s) as [|v vs] eqn:E; [by apply split_char_ne in E|].
  intros [->|Hw]%elem_of_cons Hc; [|right; eapply IH; [by right|done]].
  apply elem_of_cons in Hc as [->|Hc]; [left|right]. eapply IH; [by left|done].
Qed.

(** Stripping brings in nothing but separators. *)
Lemma contains_str_spec needle hay : contains_str needle hay = true <-> exists a b, hay = a ++ needle ++ b.
Proof.
  unfold contains_str. induction hay as [|c hay IH]; cbn [split_once_str].
  - destruct (strip_prefix needle []) eqn:E.
    + apply strip_prefix_Some in E. split; [|done]. intros _. by exists [], l.
    + split; [done|]. intros (a & b & E'). destruct a, needle; [|done..]. by destruct b.
  - destruct (strip_prefix needle (c :: hay)) eqn:E.
    + apply strip_prefix_Some in E. split; [|done]. intros _. by exists [], l.
    + destruct (split_once_str needle hay) as [[x y]|].
      * split; [|done]. intros _. destruct IH as [IH _]. destruct (IH eq_refl) as (a & b & ->). by exists (c :: a), b.
      * split; [done|]. intros ([|a0 a] & b & E').
        -- exfalso. assert (strip_prefix needle (c :: hay) = Some b) by (by apply strip_prefix_Some). congruence.
        -- injection E' as -> ->. apply IH. by exists a, b.
Qed.

(** A run of words is read back from its text. *)
Lemma words_go_word w word r : Forall (fun c => is_whitespace c = false) w ->
  words_go word (w ++ r) = words_go (word ++ w) r.
Proof.
  revert word. induction w as [|c w IH]; intros word Hw; cbn; [by rewrite app_nil_r|].
  apply Forall_cons in Hw as [Hc Hw]. rewrite Hc, IH by done. by rewrite <- app_assoc.
Qed.

Lemma words_space w r : w <> [] -> Forall (fun c => is_whitespace c = false) w ->
  split_whitespace (w ++ 32 :: r) = w :: split_whitespace r.
Proof.
  intros Hne Hw. unfold split_whitespace. rewrite words_go_word by done. cbn. by destruct w.
Qed.

Lemma words_last w : w <> [] -> Forall (fun c => is_whitespace c = false) w -> split_whitespace w = [w].
Proof.
  intros Hne Hw. unfold split_whitespace. rewrite <- (app_nil_r w) at 1. rewrite words_go_word by done. cbn. by destruct w.
Qed.
