(* ===== verification/Utf8.v ===== *)
(** * UTF-8

    The encoding behind [str::as_bytes], [str::bytes], [String::from_utf8] and
    [String::from_utf8_lossy].  [utf8_chunks] reads a byte sequence as the
    standard library does: a scalar value per well-formed sequence and [None]
    per maximal ill-formed one, which the lossy conversion replaces. *)

From S2P Require Import Prelude RustStr.

Open Scope N_scope.

(** [char]: a Unicode scalar value. *)
Definition is_scalar (c : N) : bool := (c <? 55296) || in_range 57344 1114111 c.

(** [char::encode_utf8] *)
Definition utf8_char (c : N) : list N :=
  if c <? 128 then [c]
  else if c <? 2048 then [192 + c / 64; 128 + c mod 64]
  else if c <? 65536 then [224 + c / 4096; 128 + c / 64 mod 64; 128 + c mod 64]
  else [240 + c / 262144; 128 + c / 4096 mod 64; 128 + c / 64 mod 64; 128 + c mod 64].

(** [str::as_bytes] *)
Definition as_bytes (s : str) : list N := mjoin (utf8_char <$> s).

(** Which bytes may follow a leading byte: no overlong form, no surrogate,
    nothing past [10FFFF]. *)
Definition is_cont (b : N) : bool := in_range 128 191 b.
Definition second_of_three (b0 b1 : N) : bool :=
  if b0 =? 224 then in_range 160 191 b1 else if b0 =? 237 then in_range 128 159 b1 else is_cont b1.
Definition second_of_four (b0 b1 : N) : bool :=
  if b0 =? 240 then in_range 144 191 b1 else if b0 =? 244 then in_range 128 143 b1 else is_cont b1.

Fixpoint utf8_chunks (bs : list N) : list (option N) :=
  match bs with
  | [] => []
  | b0 :: r0 =>
      if b0 <? 128 then Some b0 :: utf8_chunks r0
      else if in_range 194 223 b0 then
        match r0 with
        | b1 :: r1 =>
            if is_cont b1 then Some ((b0 - 192) * 64 + (b1 - 128)) :: utf8_chunks r1
            else None :: utf8_chunks r0
        | [] => [None]
        end
      else if in_range 224 239 b0 then
        match r0 with
        | b1 :: r1 =>
            if second_of_three b0 b1 then
              match r1 with
              | b2 :: r2 =>
                  if is_cont b2
                  then Some ((b0 - 224) * 4096 + (b1 - 128) * 64 + (b2 - 128)) :: utf8_chunks r2
                  else None :: utf8_chunks r1
              | [] => [None]
              end
            else None :: utf8_chunks r0
        | [] => [None]
        end
      else if in_range 240 244 b0 then
        match r0 with
        | b1 :: r1 =>
            if second_of_four b0 b1 then
              match r1 with
              | b2 :: r2 =>
                  if is_cont b2 then
                    match r2 with
                    | b3 :: r3 =>
                        if is_cont b3
                        then Some ((b0 - 240) * 262144 + (b1 - 128) * 4096 + (b2 - 128) * 64 + (b3 - 128))
                             :: utf8_chunks r3
                        else None :: utf8_chunks r2
                    | [] => [None]
                    end
                  else None :: utf8_chunks r1
              | [] => [None]
              end
            else None :: utf8_chunks r0
        | [] => [None]
        end
      else None :: utf8_chunks r0
  end.

(** [String::from_utf8] and [String::from_utf8_lossy] *)
Definition from_utf8 (bs : list N) : option str := mapM id (utf8_chunks bs).
Definition from_utf8_lossy (bs : list N) : str := default 65533 <$> utf8_chunks bs.

(** ** Lemmas *)

Lemma as_bytes_cons c s : as_bytes (c :: s) = utf8_char c ++ as_bytes s.
Proof. done. Qed.

Lemma as_bytes_app a b : as_bytes (a ++ b) = as_bytes a ++ as_bytes b.
Proof. unfold as_bytes. by rewrite fmap_app, join_app. Qed.

Lemma as_bytes_ascii s : Forall (fun c => c < 128) s -> as_bytes s = s.
Proof.
  induction 1 as [|c s Hc Hs IH]; [done|]. rewrite as_bytes_cons, IH. unfold utf8_char.
  apply N.ltb_lt in Hc. by rewrite Hc.
Qed.

(** ASCII bytes of an encoding are ASCII characters of the string. *)
Lemma utf8_char_high c b : b ∈ utf8_char c -> b < 128 -> b = c.
Proof.
  unfold utf8_char. intros Hb Hlt.
  destruct (c <? 128) eqn:E1; [set_solver|].
  destruct (c <? 2048); [|destruct (c <? 65536)]; set_unfold in Hb;
    repeat (destruct Hb as [Hb|Hb]); subst; try done; exfalso;
    match type of Hlt with ?a + ?x < 128 => assert (0 <= x) by apply N.le_0_l; lia end.
Qed.

Lemma elem_of_as_bytes_ascii b s : b < 128 -> b ∈ as_bytes s <-> b ∈ s.
Proof.
  intros Hb. unfold as_bytes. rewrite list_elem_of_join. split.
  - intros (l & Hin & (c & -> & Hc)%list_elem_of_fmap). apply utf8_char_high in Hin; [|done]. by subst.
  - intros Hs. exists (utf8_char b). split; [|by apply list_elem_of_fmap_2].
    unfold utf8_char. apply N.ltb_lt in Hb. rewrite Hb. set_solver.
Qed.

(** The digits of [c] in base 64. *)
Lemma digits64 c : exists q r, c = 64 * q + r /\ r < 64 /\ c / 64 = q /\ c mod 64 = r.
Proof.
  exists (c / 64), (c mod 64). split; [by apply N.div_mod'|]. split; [by apply N.mod_lt|done].
Qed.

(** The well-formed sequences of each length. *)
Lemma lead_two b : in_range 194 223 b = true -> (b <? 128) = false.
Proof. unfold in_range. intros. bprop. lia. Qed.
Lemma lead_three b : in_range 224 239 b = true -> (b <? 128) = false /\ in_range 194 223 b = false.
Proof. unfold in_range. intros. bprop. split; [lia|]. apply andb_false_iff. right. lia. Qed.
Lemma lead_four b : in_range 240 244 b = true ->
  (b <? 128) = false /\ in_range 194 223 b = false /\ in_range 224 239 b = false.
Proof. unfold in_range. intros. bprop. split; [lia|]. split; apply andb_false_iff; right; lia. Qed.

Lemma utf8_chunks_2 b0 b1 r :
  in_range 194 223 b0 = true -> is_cont b1 = true ->
  utf8_chunks (b0 :: b1 :: r) = Some ((b0 - 192) * 64 + (b1 - 128)) :: utf8_chunks r.
Proof. intros H0 H1. cbn [utf8_chunks]. by rewrite (lead_two _ H0), H0, H1. Qed.

Lemma utf8_chunks_3 b0 b1 b2 r :
  in_range 224 239 b0 = true -> second_of_three b0 b1 = true -> is_cont b2 = true ->
  utf8_chunks (b0 :: b1 :: b2 :: r) =
  Some ((b0 - 224) * 4096 + (b1 - 128) * 64 + (b2 - 128)) :: utf8_chunks r.
Proof.
  intros H0 H1 H2. destruct (lead_three _ H0) as [Ha Hb]. cbn [utf8_chunks].
  by rewrite Ha, Hb, H0, H1, H2.
Qed.

Lemma utf8_chunks_4 b0 b1 b2 b3 r :
  in_range 240 244 b0 = true -> second_of_four b0 b1 = true -> is_cont b2 = true -> is_cont b3 = true ->
  utf8_chunks (b0 :: b1 :: b2 :: b3 :: r) =
  Some ((b0 - 240) * 262144 + (b1 - 128) * 4096 + (b2 - 128) * 64 + (b3 - 128)) :: utf8_chunks r.
Proof.
  intros H0 H1 H2 H3. destruct (lead_four _ H0) as (Ha & Hb & Hc). cbn [utf8_chunks].
  by rewrite Ha, Hb, Hc, H0, H1, H2, H3.
Qed.

(** [lia] on the range conditions. *)
Ltac range_lia :=
  unfold is_cont, second_of_three, second_of_four, in_range in *;
  repeat match goal with |- context [if ?b then _ else _] => destruct b eqn:?; bprop end;
  apply andb_true_iff; split; apply N.leb_le; lia.

Lemma utf8_chunks_char c bs :
  is_scalar c = true -> utf8_chunks (utf8_char c ++ bs) = Some c :: utf8_chunks bs.
Proof.
  unfold is_scalar, utf8_char. intros Hc. apply orb_true_iff in Hc.
  destruct (c <? 128) eqn:E1; [cbn; by rewrite E1|]. bprop.
  destruct (digits64 c) as (q & r & Hq & Hr & Eq & Er).
  destruct (digits64 q) as (q2 & r2 & Hq2 & Hr2 & Eq2 & Er2).
  destruct (digits64 q2) as (q3 & r3 & Hq3 & Hr3 & Eq3 & Er3).
  assert (c / 4096 = q2) as E4096 by (change 4096 with (64 * 64); rewrite <- N.Div0.div_div; congruence).
  assert (c / 262144 = q3) as E262144.
  { change 262144 with (64 * 64 * 64). rewrite <- !N.Div0.div_div. congruence. }
  rewrite Eq, Er, E4096, E262144, Er2, Er3. clear Eq Er E4096 E262144 Eq2 Er2 Eq3 Er3.
  assert (c < 55296 \/ 57344 <= c <= 1114111) as Hc'.
  { destruct Hc as [Hc|Hc]; [bprop; lia|unfold in_range in Hc; bprop; lia]. }
  clear Hc. destruct (c <? 2048) eqn:E2; bprop; [|destruct (c <? 65536) eqn:E3; bprop]; cbn [app].
  - rewrite utf8_chunks_2 by range_lia. do 2 f_equal. lia.
  - rewrite utf8_chunks_3 by range_lia. do 2 f_equal. lia.
  - rewrite utf8_chunks_4 by range_lia. do 2 f_equal. lia.
Qed.

Lemma utf8_chunks_as_bytes s bs :
  Forall (fun c => is_scalar c = true) s -> utf8_chunks (as_bytes s ++ bs) = (Some <$> s) ++ utf8_chunks bs.
Proof.
  induction 1 as [|c s Hc Hs IH]; [done|].
  rewrite as_bytes_cons, <- app_assoc, utf8_chunks_char, IH by done. done.
Qed.

(** Decoding inverts encoding. *)
Lemma from_utf8_as_bytes s : Forall (fun c => is_scalar c = true) s -> from_utf8 (as_bytes s) = Some s.
Proof.
  intros Hs. unfold from_utf8. rewrite <- (app_nil_r (as_bytes s)), utf8_chunks_as_bytes by done.
  cbn. rewrite app_nil_r. clear Hs. induction s as [|c s IH]; [done|]. cbn in *. by rewrite IH.
Qed.

Lemma from_utf8_lossy_as_bytes s :
  Forall (fun c => is_scalar c = true) s -> from_utf8_lossy (as_bytes s) = s.
Proof.
  intros Hs. unfold from_utf8_lossy. rewrite <- (app_nil_r (as_bytes s)), utf8_chunks_as_bytes by done.
  cbn. rewrite app_nil_r. clear Hs. induction s as [|c s IH]; [done|]. cbn in *. by rewrite IH.
Qed.

(** What is decoded is a scalar value. *)
Ltac scalar_range := unfold is_scalar, is_cont, second_of_three, second_of_four, in_range in *; bprop;
  repeat match goal with H : context [if ?b then _ else _] |- _ => destruct b eqn:?; bprop end;
  unfold is_cont, in_range in *; bprop; apply orb_true_iff; first [left; apply N.ltb_lt; lia|right; apply andb_true_iff; split; apply N.leb_le; lia].

Lemma utf8_chunks_scalar_n n : forall bs, (length bs <= n)%nat -> Forall (fun o => forall c, o = Some c -> is_scalar c = true) (utf8_chunks bs).
Proof.
  induction n as [|n IH]; intros bs Hl; [destruct bs; [constructor|cbn in Hl; lia]|].
  destruct bs as [|b0 r0]; [constructor|]. cbn [length] in Hl. cbn [utf8_chunks].
  assert (Forall (fun o : option N => forall c, o = Some c -> is_scalar c = true) (utf8_chunks r0)) as H0 by (apply IH; lia).
  destruct (b0 <? 128) eqn:E0; [constructor; [|done]; intros c [= <-]; scalar_range|].
  destruct (in_range 194 223 b0) eqn:E1.
  { destruct r0 as [|b1 r1]; [by repeat constructor|]. destruct (is_cont b1) eqn:C1; [|by constructor].
    constructor; [|apply IH; cbn in Hl; lia]. intros c [= <-]. scalar_range. }
  destruct (in_range 224 239 b0) eqn:E2.
  { destruct r0 as [|b1 r1]; [by repeat constructor|]. destruct (second_of_three b0 b1) eqn:C1; [|by constructor].
    destruct r1 as [|b2 r2]; [by repeat constructor|]. destruct (is_cont b2) eqn:C2; [|constructor; [done|apply IH; cbn in *; lia]].
    constructor; [|apply IH; cbn in *; lia]. intros c [= <-]. clear H0 IH Hl. assert (b0 < 237 \/ b0 = 237 \/ 237 < b0) as [?|[?|?]] by lia; scalar_range. }
  destruct (in_range 240 244 b0) eqn:E3; [|by constructor].
  destruct r0 as [|b1 r1]; [by repeat constructor|]. destruct (second_of_four b0 b1) eqn:C1; [|by constructor].
  destruct r1 as [|b2 r2]; [by repeat constructor|]. destruct (is_cont b2) eqn:C2; [|constructor; [done|apply IH; cbn in *; lia]].
  destruct r2 as [|b3 r3]; [by repeat constructor|]. destruct (is_cont b3) eqn:C3; [|constructor; [done|apply IH; cbn in *; lia]].
  constructor; [|apply IH; cbn in *; lia]. intros c [= <-]. clear H0 IH Hl. scalar_range.
Qed.

Lemma lossy_scalar bs : Forall (fun c => is_scalar c = true) (from_utf8_lossy bs).
Proof.
  unfold from_utf8_lossy. apply Forall_fmap. eapply Forall_impl; [by apply (utf8_chunks_scalar_n (length bs))|].
  intros [c|] H; cbn; [by apply H|done].
Qed.
