(* ===== verification/RustMap.v ===== *)
(** * Ordered maps

    A [BTreeMap<String, V>] is a [gmap] from [str]; where the source iterates
    over it, the order matters and is the byte order of the keys, which for
    UTF-8 is the order of the scalar values.  [btree_iter] is that iteration. *)

From stdpp Require Import sorting.
From S2P Require Import Prelude RustStr.

Open Scope N_scope.

(** [Ord] for [str]: lexicographic. *)
Fixpoint str_leb (a b : str) : bool :=
  match a, b with
  | [], _ => true
  | _ :: _, [] => false
  | x :: a', y :: b' => if x <? y then true else if y <? x then false else str_leb a' b'
  end.
Definition str_le (a b : str) : Prop := str_leb a b = true.

#[export] Instance str_le_dec a b : Decision (str_le a b).
Proof. unfold str_le. apply _. Defined.

Lemma str_le_total a b : str_le a b \/ str_le b a.
Proof.
  unfold str_le. revert b; induction a as [|x a IH]; intros [|y b]; simpl; auto.
  destruct (x <? y) eqn:E1, (y <? x) eqn:E2; auto.
Qed.

Lemma str_le_trans a b c : str_le a b -> str_le b c -> str_le a c.
Proof.
  unfold str_le. revert b c; induction a as [|x a IH]; intros [|y b] [|z c]; simpl; try done.
  destruct (x <? y) eqn:E1; [|destruct (y <? x) eqn:E2; [done|]];
    (destruct (y <? z) eqn:E3; [|destruct (z <? y) eqn:E4; [done|]]);
    destruct (x <? z) eqn:E5; try done; destruct (z <? x) eqn:E6; bprop; try lia; eauto.
Qed.

Lemma str_le_antisym a b : str_le a b -> str_le b a -> a = b.
Proof.
  unfold str_le. revert b; induction a as [|x a IH]; intros [|y b]; simpl; try done.
  destruct (x <? y) eqn:E1; destruct (y <? x) eqn:E2; bprop; try lia; try done.
  intros H1 H2. f_equal; [lia|auto].
Qed.

#[export] Instance str_le_transitive : Transitive str_le := str_le_trans.
#[export] Instance str_le_is_total : Total str_le := str_le_total.
#[export] Instance str_le_antisymm : AntiSymm (=) str_le := str_le_antisym.

Section Iter.
Context {A : Type}.
Implicit Types m : gmap str A.

Definition key_le (p q : str * A) : Prop := str_le p.1 q.1.
#[export] Instance key_le_dec p q : Decision (key_le p q).
Proof. unfold key_le. apply _. Defined.
#[export] Instance key_le_trans : Transitive key_le.
Proof. intros p q r. unfold key_le. apply str_le_trans. Qed.
#[export] Instance key_le_total : Total key_le.
Proof. intros p q. apply str_le_total. Qed.

(** [BTreeMap::iter] *)
Definition btree_iter m : list (str * A) := merge_sort key_le (map_to_list m).

Lemma btree_iter_perm m : btree_iter m ≡ₚ map_to_list m.
Proof. apply merge_sort_Permutation. Qed.

Lemma elem_of_btree_iter m k v : (k, v) ∈ btree_iter m <-> m !! k = Some v.
Proof. rewrite btree_iter_perm. apply elem_of_map_to_list. Qed.

(** Keys come out strictly increasing. *)
Lemma btree_iter_sorted m : StronglySorted key_le (btree_iter m) /\ NoDup (btree_iter m).*1.
Proof.
  split; [apply StronglySorted_merge_sort; apply _|].
  rewrite btree_iter_perm. apply NoDup_fst_map_to_list.
Qed.

End Iter.
