(* ===== verification/RustPath.v ===== *)
(** * Unix paths

    [std::path::Path] on Unix for the paths the program handles: a path is the
    [str] of its bytes (the code converts with [to_string_lossy] wherever it
    needs text, and only UTF-8 paths are modelled).  [components] normalises
    repeated separators and inner [.] exactly as the library does. *)

From S2P Require Import Prelude RustStr.

Open Scope N_scope.

Inductive component :=
| RootDir
| CurDir
| ParentDir
| Normal (s : str).
#[export] Instance component_eq_dec : EqDecision component.
Proof. solve_decision. Defined.

Definition slash : N := "/"%ch.

Definition segment_component (seg : str) : option component :=
  if str_eqb seg "" || str_eqb seg "." then None
  else if str_eqb seg ".." then Some ParentDir
  else Some (Normal seg).

(** [Path::components] *)
Definition components (p : str) : list component :=
  let segs := split_char slash p in
  (if starts_with "/" p then [RootDir]
   else match segs with
        | s0 :: _ => if str_eqb s0 "." then [CurDir] else []
        | [] => []
        end)
  ++ omap segment_component segs.

(** [Path::is_absolute] *)
Definition is_absolute (p : str) : bool := starts_with "/" p.

(** [Path::join] and [PathBuf::push] *)
Definition path_join (base p : str) : str :=
  if is_absolute p then p
  else if is_empty base || ends_with "/" base then base ++ p
  else base ++ "/"%str ++ p.

(** [Path::starts_with]: component-wise. *)
Fixpoint list_prefixb {A} `{EqDecision A} (a b : list A) : bool :=
  match a, b with
  | [], _ => true
  | x :: a', y :: b' => bool_decide (x = y) && list_prefixb a' b'
  | _ :: _, [] => false
  end.
Definition path_starts_with (p base : str) : bool :=
  list_prefixb (components base) (components p).

(** [Path::file_name] *)
Definition file_name (p : str) : option str :=
  match last (components p) with Some (Normal s) => Some s | _ => None end.

(** [Path::extension] *)
Definition extension (p : str) : option str :=
  match file_name p with
  | None => None
  | Some f =>
      match rsplit_once "."%ch f with
      | Some ([], _) | None => None
      | Some (_, ext) => Some ext
      end
  end.

(** Trailing separators and inner [.] segments: no component of their own. *)
Definition blank_segment (seg : str) : bool := str_eqb seg "" || str_eqb seg ".".

(** [Path::parent]: the path up to its last component, its trailing separators
    gone; nothing above a root or an empty path. *)
Definition path_parent (p : str) : option str :=
  match split_char slash p with
  | [] => None
  | s0 :: segs =>
      match drop_while blank_segment (rev segs) with
      | [] => if is_empty s0 then None else Some []
      | _ :: above =>
          let kept := rev (drop_while blank_segment above) in
          Some (if is_empty s0 && is_empty kept then "/"%str else join_char slash (s0 :: kept))
      end
  end.

(** ** Lemmas *)

Lemma list_prefixb_app {A} `{EqDecision A} (a b : list A) : list_prefixb a (a ++ b) = true.
Proof. induction a as [|x a IH]; simpl; [done|]. by rewrite bool_decide_true. Qed.

Lemma list_prefixb_spec {A} `{EqDecision A} (a b : list A) :
  list_prefixb a b = true <-> exists c, b = a ++ c.
Proof.
  split; [|intros (c & ->); apply list_prefixb_app].
  revert b; induction a as [|x a IH]; intros b; simpl; [by exists b|].
  destruct b as [|y b]; [done|]. intros H. bprop. subst.
  destruct (IH b) as (c & ->); [done|]. by exists c.
Qed.

(** Joining a relative path that has no leading [.] onto a non-empty base
    concatenates the components. *)
Lemma components_join base p :
  base <> [] -> is_absolute p = false ->
  components (path_join base p) = components base ++ omap segment_component (split_char slash p).
Proof.
  intros Hb Hp. unfold path_join. rewrite Hp. destruct base as [|c base]; [done|]. simpl.
  assert (forall x, components ((c :: base) ++ x) =
    (if starts_with "/" (c :: base) then [RootDir]
     else match split_char slash ((c :: base) ++ x) with
        | s0 :: _ => if str_eqb s0 "." then [CurDir] else []
        | [] => []
        end) ++ omap segment_component (split_char slash ((c :: base) ++ x))) as Hx.
  { intros x. unfold components. unfold starts_with. cbn [strip_prefix app].
    by destruct (_ =? c). }
  destruct (ends_with "/" (c :: base)) eqn:E.
  - apply ends_with_spec in E as (b & Eb). change "/"%str with [slash] in Eb.
    change (c :: base ++ p) with ((c :: base) ++ p). rewrite Hx. unfold components.
    destruct (starts_with "/" (c :: base)); rewrite Eb, <- app_assoc; cbn [app];
      rewrite !split_char_app_all, !omap_app; simpl; rewrite ?app_nil_r; [done|].
    destruct (split_char slash b) eqn:Es; [by apply split_char_ne in Es|]. simpl.
    by rewrite app_assoc.
  - match goal with |- components ?x = _ => change x with ((c :: base) ++ slash :: p) end.
    rewrite Hx. unfold components. rewrite split_char_app_all, omap_app, app_assoc. do 2 f_equal.
    destruct (starts_with _ _); [done|].
    destruct (split_char slash (c :: base)) eqn:Es; [by apply split_char_ne in Es|done].
Qed.
