(* ===== verification/CoreError.v ===== *)
(** * Errors of the core crate

    [src/crates/orcker-core/src/error.rs]: the reason enumerations of
    [CoreError] with their [Display] messages, and [CoreError] itself. *)

From S2P Require Import Prelude RustStr.

Open Scope N_scope.

(** Rust's [std::fmt::Display]. *)
Class Display (A : Type) := fmt : A -> str.

Inductive UpstreamTargetErrorReason :=
| UpstreamEmpty
| UpstreamMissingScheme
| UpstreamUnsupportedScheme
| UpstreamHasCredentials
| UpstreamHasPathOrQuery
| UpstreamMissingHost
| UpstreamInvalidHost
| UpstreamInvalidPort.
#[export] Instance UpstreamTargetErrorReason_eq_dec : EqDecision UpstreamTargetErrorReason.
Proof. solve_decision. Defined.
Definition UpstreamTargetErrorReason_fmt (r : UpstreamTargetErrorReason) : str :=
  match r with
  | UpstreamEmpty => "target must not be empty"%str
  | UpstreamMissingScheme => "target must start with http:// or https://"%str
  | UpstreamUnsupportedScheme => "target scheme must be http or https"%str
  | UpstreamHasCredentials => "target must not contain credentials"%str
  | UpstreamHasPathOrQuery => "target must not contain a path, query, or fragment"%str
  | UpstreamMissingHost => "target host must not be empty"%str
  | UpstreamInvalidHost => "target host is not a valid IP or hostname"%str
  | UpstreamInvalidPort => "target port must be a number in 1..=65535"%str
  end.
#[export] Instance UpstreamTargetErrorReason_display : Display UpstreamTargetErrorReason := UpstreamTargetErrorReason_fmt.

Inductive ProxyRuleErrorReason :=
| RuleEmpty
| RuleNotAbsolute
| RuleContainsDotDot
| RuleContainsControl.
#[export] Instance ProxyRuleErrorReason_eq_dec : EqDecision ProxyRuleErrorReason.
Proof. solve_decision. Defined.
Definition ProxyRuleErrorReason_fmt (r : ProxyRuleErrorReason) : str :=
  match r with
  | RuleEmpty => "prefix must not be empty"%str
  | RuleNotAbsolute => "prefix must begin with '/'"%str
  | RuleContainsDotDot => "prefix must not contain a '..' component"%str
  | RuleContainsControl => "prefix must not contain control characters"%str
  end.
#[export] Instance ProxyRuleErrorReason_display : Display ProxyRuleErrorReason := ProxyRuleErrorReason_fmt.

Inductive RouteRuleErrorReason :=
| RouteEmptyPrefix
| RoutePrefixNotAbsolute
| RoutePrefixContainsControl
| RoutePrefixContainsDotDot
| RouteEmptyTarget
| RouteInvalidTarget.
#[export] Instance RouteRuleErrorReason_eq_dec : EqDecision RouteRuleErrorReason.
Proof. solve_decision. Defined.
Definition RouteRuleErrorReason_fmt (r : RouteRuleErrorReason) : str :=
  match r with
  | RouteEmptyPrefix => "prefix must not be empty"%str
  | RoutePrefixNotAbsolute => "prefix must begin with '/'"%str
  | RoutePrefixContainsControl => "prefix must not contain control characters"%str
  | RoutePrefixContainsDotDot => "prefix must not contain a '..' component"%str
  | RouteEmptyTarget => "target must not be empty"%str
  | RouteInvalidTarget => "target must be a relative path with no '..' component"%str
  end.
#[export] Instance RouteRuleErrorReason_display : Display RouteRuleErrorReason := RouteRuleErrorReason_fmt.

Inductive PhpVersionErrorReason :=
| PhpEmpty
| PhpMissingMinor
| PhpNonNumeric
| PhpUnsupportedPrefix
| PhpMajorOutOfRange
| PhpMinorOutOfRange.
#[export] Instance PhpVersionErrorReason_eq_dec : EqDecision PhpVersionErrorReason.
Proof. solve_decision. Defined.
Definition PhpVersionErrorReason_fmt (r : PhpVersionErrorReason) : str :=
  match r with
  | PhpEmpty => "input is empty"%str
  | PhpMissingMinor => "missing minor version"%str
  | PhpNonNumeric => "version parts must be ASCII digits"%str
  | PhpUnsupportedPrefix => "only the ASCII "%str ++ [34%N] ++ "php"%str ++ [34%N] ++ " prefix is accepted"%str
  | PhpMajorOutOfRange => "major version must be 5..=9"%str
  | PhpMinorOutOfRange => "minor version must be 0..=99"%str
  end.
#[export] Instance PhpVersionErrorReason_display : Display PhpVersionErrorReason := PhpVersionErrorReason_fmt.

Inductive TldErrorReason :=
| TldEmpty
| TldLeadingOrTrailingDot
| TldConsecutiveDots
| TldContainsWhitespace
| TldNonAscii
| TldInvalidCharacter
| TldLabelTooLong
| TldLeadingOrTrailingHyphen
| TldTooLong.
#[export] Instance TldErrorReason_eq_dec : EqDecision TldErrorReason.
Proof. solve_decision. Defined.
Definition TldErrorReason_fmt (r : TldErrorReason) : str :=
  match r with
  | TldEmpty => "tld must not be empty"%str
  | TldLeadingOrTrailingDot => "tld must not have a leading or trailing dot"%str
  | TldConsecutiveDots => "tld must not contain consecutive dots"%str
  | TldContainsWhitespace => "tld must not contain whitespace"%str
  | TldNonAscii => "tld must be ASCII"%str
  | TldInvalidCharacter => "tld labels may only contain [a-z0-9-]"%str
  | TldLabelTooLong => "tld label exceeds 63 bytes"%str
  | TldLeadingOrTrailingHyphen => "tld labels must not start or end with '-'"%str
  | TldTooLong => "tld exceeds 253 bytes"%str
  end.
#[export] Instance TldErrorReason_display : Display TldErrorReason := TldErrorReason_fmt.

Inductive SiteNameErrorReason :=
| NameEmpty
| NameContainsDot
| NameInvalidCharacter
| NameLabelTooLong
| NameLeadingOrTrailingHyphen.
#[export] Instance SiteNameErrorReason_eq_dec : EqDecision SiteNameErrorReason.
Proof. solve_decision. Defined.
Definition SiteNameErrorReason_fmt (r : SiteNameErrorReason) : str :=
  match r with
  | NameEmpty => "site name must not be empty"%str
  | NameContainsDot => "site name must not contain '.'"%str
  | NameInvalidCharacter => "site name may only contain [a-z0-9-]"%str
  | NameLabelTooLong => "site name exceeds 63 bytes"%str
  | NameLeadingOrTrailingHyphen => "site name must not start or end with '-'"%str
  end.
#[export] Instance SiteNameErrorReason_display : Display SiteNameErrorReason := SiteNameErrorReason_fmt.

Inductive DomainErrorReason :=
| DomainEmpty
| DomainEmptyLabel
| DomainNotUnderTld
| DomainMisplacedWildcard
| DomainBareWildcard
| DomainInvalidCharacter
| DomainLabelTooLong
| DomainLeadingOrTrailingHyphen
| DomainTooLong.
#[export] Instance DomainErrorReason_eq_dec : EqDecision DomainErrorReason.
Proof. solve_decision. Defined.
Definition DomainErrorReason_fmt (r : DomainErrorReason) : str :=
  match r with
  | DomainEmpty => "domain must not be empty"%str
  | DomainEmptyLabel => "domain must not contain an empty label"%str
  | DomainNotUnderTld => "domain must be a subdomain of the configured TLD"%str
  | DomainMisplacedWildcard => "'*' is only allowed as the leftmost label"%str
  | DomainBareWildcard => "a bare '*' wildcard is not allowed"%str
  | DomainInvalidCharacter => "domain labels may only contain [a-z0-9-]"%str
  | DomainLabelTooLong => "domain label exceeds 63 bytes"%str
  | DomainLeadingOrTrailingHyphen => "domain labels must not start or end with '-'"%str
  | DomainTooLong => "domain exceeds 253 bytes"%str
  end.
#[export] Instance DomainErrorReason_display : Display DomainErrorReason := DomainErrorReason_fmt.

Inductive ProxyNameErrorReason :=
| ProxyNameWildcard
| ProxyNameShape (reason : DomainErrorReason).
#[export] Instance ProxyNameErrorReason_eq_dec : EqDecision ProxyNameErrorReason.
Proof. solve_decision. Defined.
Definition ProxyNameErrorReason_fmt (r : ProxyNameErrorReason) : str :=
  match r with
  | ProxyNameWildcard => "a proxy name must not be a wildcard"%str
  | ProxyNameShape reason => fmt reason
  end.
#[export] Instance ProxyNameErrorReason_display : Display ProxyNameErrorReason :=
  ProxyNameErrorReason_fmt.

Inductive CoreError :=
| InvalidPhpVersion (input : str) (reason : PhpVersionErrorReason)
| InvalidTld (input : str) (reason : TldErrorReason)
| DuplicateSite (name : str)
| SiteNotFound (name : str)
| InvalidSiteName (name : str) (reason : SiteNameErrorReason)
| PortRangeExhausted (first last : N)
| InvalidDomain (input : str) (reason : DomainErrorReason)
| DuplicateDomain (domain : str)
| InvalidUpstreamTarget (input : str) (reason : UpstreamTargetErrorReason)
| InvalidProxyName (name : str) (reason : ProxyNameErrorReason)
| InvalidProxyRule (input : str) (reason : ProxyRuleErrorReason)
| InvalidRouteRule (input : str) (reason : RouteRuleErrorReason).
#[export] Instance CoreError_eq_dec : EqDecision CoreError.
Proof. solve_decision. Defined.
