(* ===== verification/DnsLabel.v ===== *)
(** * DNS labels

    The shape the top-level domain, site and domain validators all enforce,
    stated once: the reference grammar their acceptance theorems are proved
    against. *)

From S2P Require Import Prelude RustStr.

Open Scope N_scope.

(** The label alphabet [\[a-z0-9-\]]. *)
Definition label_char (c : N) : bool :=
  is_ascii_lowercase c || is_ascii_digit c || (c =? "-"%ch).

(** A label: 1 to 63 characters of the alphabet, no hyphen at either end. *)
Definition dns_label (w : str) : bool :=
  negb (is_empty w) && (vlen w <=? 63) && forallb label_char w
  && negb (starts_with "-" w || ends_with "-" w).

(** One or more labels separated by single dots. *)
Definition dns_name (s : str) : bool := forallb dns_label (split_char "." s).

(** ** Lemmas *)

Lemma label_char_props c :
  label_char c = true ->
  is_ascii c = true /\ is_ascii_uppercase c = false /\ is_ascii_whitespace c = false
  /\ c <> "."%ch /\ c <> "*"%ch /\ c <> "/"%ch.
Proof.
  unfold label_char. intros H. char_unfold. lia.
Qed.

Lemma dns_label_chars w : dns_label w = true -> Forall (fun c => label_char c = true) w.
Proof. unfold dns_label. intros H. bprop. by apply forallb_Forall. Qed.

Lemma dns_label_ne w : dns_label w = true -> w <> [].
Proof. by intros H ->. Qed.

Lemma dns_label_no_char w c :
  dns_label w = true -> label_char c = false -> c ∉ w.
Proof.
  intros Hw%dns_label_chars Hc Hin. rewrite Forall_forall in Hw. apply Hw in Hin. congruence.
Qed.

(** A property of the characters of every piece holds of the whole. *)
Lemma Forall_of_split (P : N -> Prop) sep s :
  (forall w, w ∈ split_char sep s -> Forall P w) -> P sep -> Forall P s.
Proof.
  intros H Hsep. rewrite <- (join_split sep s). revert H.
  generalize (split_char sep s). intros ws. induction ws as [|w ws IH]; intros H; [done|].
  destruct ws as [|v vs]; [apply H; set_solver|]. rewrite join_char_cons.
  apply Forall_app. split; [apply H; set_solver|]. constructor; [done|].
  apply IH. intros u Hu. apply H. set_solver.
Qed.

Lemma dns_name_spec s :
  dns_name s = true <-> forall w, w ∈ split_char "." s -> dns_label w = true.
Proof. apply forallb_elem. Qed.

Lemma dns_name_chars s :
  dns_name s = true -> Forall (fun c => label_char c = true \/ c = "."%ch) s.
Proof.
  intros H. rewrite dns_name_spec in H. apply (Forall_of_split _ "."%ch); [|by right].
  intros w Hw. apply H, dns_label_chars in Hw. eapply Forall_impl; [exact Hw|]. by left.
Qed.

Lemma dns_name_ascii s : dns_name s = true -> Forall (fun c => is_ascii c = true) s.
Proof.
  intros H%dns_name_chars. eapply Forall_impl; [exact H|].
  intros c [Hc| ->]; [apply label_char_props in Hc; tauto|done].
Qed.

Lemma dns_name_lower s : dns_name s = true -> to_ascii_lowercase s = s.
Proof.
  intros H%dns_name_chars. apply lower_id. eapply Forall_impl; [exact H|].
  intros c [Hc| ->]; [apply label_char_props in Hc; tauto|done].
Qed.

Lemma dns_name_no_char s c :
  dns_name s = true -> label_char c = false -> c <> "."%ch -> c ∉ s.
Proof.
  intros H%dns_name_chars Hc Hd Hin. rewrite Forall_forall in H. apply H in Hin.
  destruct Hin; congruence.
Qed.

Lemma dns_name_ne s : dns_name s = true -> s <> [].
Proof. by intros H ->. Qed.

Lemma dns_name_no_edge_dot s :
  dns_name s = true -> starts_with "." s = false /\ ends_with "." s = false.
Proof.
  intros H. rewrite dns_name_spec in H.
  split; apply not_true_is_false; intros Hs.
  - apply starts_with_spec in Hs as (r & ->). specialize (H []). cbn in H. discriminate H. set_solver.
  - apply ends_with_spec in Hs as (r & ->). specialize (H []).
    assert (dns_label [] = true); [|done]. apply H.
    change (r ++ "."%str) with (r ++ "."%ch :: []). rewrite split_char_app_all. set_solver.
Qed.

Lemma dns_label_name w : dns_label w = true -> dns_name w = true.
Proof.
  intros H. unfold dns_name. rewrite split_char_none; [simpl; by rewrite H|].
  by apply dns_label_no_char.
Qed.

Lemma dns_label_ascii w : dns_label w = true -> Forall (fun c => is_ascii c = true) w.
Proof. intros H. by apply dns_name_ascii, dns_label_name. Qed.

Lemma dns_label_lower w : dns_label w = true -> to_ascii_lowercase w = w.
Proof. intros H. by apply dns_name_lower, dns_label_name. Qed.

Lemma dns_label_len w : dns_label w = true -> len w <= 63.
Proof.
  intros H. rewrite len_ascii by by apply dns_label_ascii. unfold dns_label in H. by bprop.
Qed.
