(* ===== verification/Tld.v ===== *)
(** * Top-level domains

    [src/crates/orcker-core/src/tld.rs]: the validated, lowercased DNS suffix.
    [Tld::new] is [Tld_new]; the pinned validation order is kept, so every
    input has one error reason. *)

From S2P Require Import Prelude RustStr CoreError DnsLabel.

Open Scope N_scope.

Record Tld := mkTld { Tld_str : str }.
#[export] Instance Tld_eq_dec : EqDecision Tld.
Proof. solve_decision. Defined.

(** Every byte must be ASCII and non-whitespace. *)
Fixpoint tld_validate_charset (stripped : str) : result TldErrorReason unit :=
  match stripped with
  | [] => Ok tt
  | b :: r =>
      if negb (is_ascii b) then Err TldNonAscii
      else if is_ascii_whitespace b then Err TldContainsWhitespace
      else tld_validate_charset r
  end.

Definition tld_validate_label (label : str) : result TldErrorReason unit :=
  if is_empty label then Err TldConsecutiveDots
  else if 63 <? len label then Err TldLabelTooLong
  else if negb (forallb (fun b => is_ascii_lowercase b || is_ascii_digit b || (b =? "-"%ch)) label)
  then Err TldInvalidCharacter
  else if starts_with "-" label || ends_with "-" label then Err TldLeadingOrTrailingHyphen
  else Ok tt.

Fixpoint tld_validate_labels (labels : list str) : result TldErrorReason unit :=
  match labels with
  | [] => Ok tt
  | label :: r => _ ← tld_validate_label label; tld_validate_labels r
  end.

Definition tld_validate_steps (raw : str) : result TldErrorReason str :=
  if is_empty raw then Err TldEmpty
  else
    let stripped := default raw (strip_suffix "." raw) in
    if is_empty stripped || ends_with "." stripped || starts_with "." stripped
    then Err TldLeadingOrTrailingDot
    else if 253 <? len stripped then Err TldTooLong
    else
      _ ← tld_validate_charset stripped;
      let lowered := to_ascii_lowercase stripped in
      _ ← tld_validate_labels (split_char "." lowered);
      Ok lowered.

Definition tld_err (input : str) (reason : TldErrorReason) : CoreError := InvalidTld input reason.

Definition tld_validate (raw : str) : result CoreError str :=
  map_err (tld_err raw) (tld_validate_steps raw).

Definition Tld_new (s : str) : result CoreError Tld :=
  t ← tld_validate s; Ok (mkTld t).

Definition Tld_default : Tld := mkTld "test"%str.

Definition Tld_fmt (t : Tld) : str := Tld_str t.
#[export] Instance Tld_display : Display Tld := Tld_fmt.

(** The reference grammar: labels separated by dots, at most 253 bytes. *)
Definition valid_tld (t : str) : bool := dns_name t && (len t <=? 253).

(** ** Lemmas *)

Lemma tld_validate_charset_ok s :
  tld_validate_charset s = Ok tt <->
  Forall (fun b => is_ascii b = true /\ is_ascii_whitespace b = false) s.
Proof.
  induction s as [|b s IH]; simpl; [by split|].
  rewrite Forall_cons, <- IH.
  destruct (is_ascii b) eqn:Ha; simpl; [|naive_solver].
  destruct (is_ascii_whitespace b) eqn:Hw; naive_solver.
Qed.

Lemma tld_validate_label_ok l :
  Forall (fun c => is_ascii c = true) l -> tld_validate_label l = Ok tt <-> dns_label l = true.
Proof.
  intros Ha. unfold tld_validate_label, dns_label. rewrite len_ascii by done.
  change (forallb (fun b => is_ascii_lowercase b || is_ascii_digit b || (b =? "-"%ch)) l)
    with (forallb label_char l).
  destruct (is_empty l); simpl; [done|].
  destruct (63 <? vlen l) eqn:E1; destruct (vlen l <=? 63) eqn:E2; bprop; try lia; simpl; try done.
  destruct (forallb label_char l); simpl; [|done].
  by destruct (starts_with "-" l || ends_with "-" l).
Qed.

Lemma tld_validate_labels_ok ls :
  tld_validate_labels ls = Ok tt <-> Forall (fun l => tld_validate_label l = Ok tt) ls.
Proof.
  induction ls as [|l ls IH]; simpl; [by split|].
  rewrite Forall_cons, <- IH. destruct (tld_validate_label l) as [[]|e]; naive_solver.
Qed.

Lemma split_char_forall (P : N -> Prop) sep s w :
  Forall P s -> w ∈ split_char sep s -> Forall P w.
Proof.
  revert w; induction s as [|c s IH]; intros w Hs; simpl.
  - rewrite list_elem_of_singleton. by intros ->.
  - inv Hs. destruct (c =? sep).
    + rewrite elem_of_cons. intros [->|Hw]; [done|by apply IH].
    + destruct (split_char sep s) as [|v vs] eqn:E; [by apply split_char_ne in E|].
      rewrite elem_of_cons. intros [->|Hw]; [|apply IH; [done|set_solver]].
      constructor; [done|]. apply IH; [done|set_solver].
Qed.

Lemma tld_validate_labels_name s :
  Forall (fun c => is_ascii c = true) s ->
  tld_validate_labels (split_char "." s) = Ok tt <-> dns_name s = true.
Proof.
  intros Ha. rewrite tld_validate_labels_ok, dns_name_spec, Forall_forall.
  split; intros H w Hw; apply tld_validate_label_ok; eauto using split_char_forall.
Qed.

Lemma forall_ascii_lower s :
  Forall (fun c => is_ascii c = true) (to_ascii_lowercase s) <->
  Forall (fun c => is_ascii c = true) s.
Proof.
  induction s as [|c s IH]; simpl; [done|]. by rewrite !Forall_cons, IH, lower_char_ascii.
Qed.

Lemma forall_nonspace_lower s :
  Forall (fun c => is_ascii_whitespace c = false) (to_ascii_lowercase s) ->
  Forall (fun c => is_ascii_whitespace c = false) s.
Proof.
  induction s as [|c s IH]; simpl; [done|]. rewrite !Forall_cons. intros [Hc Hs].
  split; [|auto]. revert Hc. char_cases.
Qed.

Lemma dns_name_nonspace s : dns_name s = true -> Forall (fun c => is_ascii_whitespace c = false) s.
Proof.
  intros H%dns_name_chars. eapply Forall_impl; [exact H|].
  intros c [Hc| ->]; [apply label_char_props in Hc; tauto|done].
Qed.

Lemma lower_dot_edges s :
  starts_with "." (to_ascii_lowercase s) = starts_with "." s /\
  ends_with "." (to_ascii_lowercase s) = ends_with "." s.
Proof.
  assert (forall t, starts_with "." (to_ascii_lowercase t) = starts_with "." t) as Hs.
  { intros [|c t]; [done|]. unfold starts_with. cbn [to_ascii_lowercase map strip_prefix].
    destruct ("."%ch =? c) eqn:E, ("."%ch =? lower_char c) eqn:E'; try done; bprop.
    - subst. by destruct E'.
    - destruct E. symmetry in E'. by apply (lower_char_eq c "."%ch) in E'. }
  split; [done|]. unfold ends_with, strip_suffix, to_ascii_lowercase. rewrite <- map_rev.
  specialize (Hs (rev s)). unfold starts_with, to_ascii_lowercase in Hs.
  change (rev "."%str) with "."%str.
  by destruct (strip_prefix "." (map lower_char (rev s))), (strip_prefix "." (rev s)).
Qed.

(** The part of [validate_steps] after the one trailing dot is stripped. *)
Lemma tld_validate_stripped s t :
  (if is_empty s || ends_with "." s || starts_with "." s then Err TldLeadingOrTrailingDot
   else if 253 <? len s then Err TldTooLong
   else _ ← tld_validate_charset s;
        _ ← tld_validate_labels (split_char "." (to_ascii_lowercase s));
        Ok (to_ascii_lowercase s)) = Ok t
  <-> valid_tld t = true /\ to_ascii_lowercase s = t.
Proof.
  unfold valid_tld. split.
  - intros H. steps_in H. destruct (tld_validate_charset s) as [[]|] eqn:Ec; [|done].
    destruct (tld_validate_labels _) as [[]|] eqn:El; simpl in H; [|done].
    injection H as <-. apply tld_validate_charset_ok in Ec. bprop.
    rewrite tld_validate_labels_name in El.
    + rewrite El, len_lower. split; [|done]. simpl. by apply N.leb_le.
    + rewrite forall_ascii_lower. eapply Forall_impl; [exact Ec|]. naive_solver.
  - intros [H <-]. bprop. destruct (lower_dot_edges s) as [Hs He].
    pose proof (dns_name_no_edge_dot _ H) as [Hs' He'].
    rewrite <- He, <- Hs, He', Hs'. rewrite len_lower in *.
    destruct (is_empty s) eqn:Es; [destruct s; done|]. simpl.
    destruct (253 <? len s) eqn:E; bprop; [lia|].
    rewrite (proj2 (tld_validate_charset_ok s)).
    + simpl. rewrite (proj2 (tld_validate_labels_name _ (dns_name_ascii _ H))); done.
    + apply Forall_and. split.
      * by apply forall_ascii_lower, dns_name_ascii.
      * by apply forall_nonspace_lower, dns_name_nonspace.
Qed.

(** The validator accepts exactly the inputs that lowercase to a valid suffix,
    with or without one trailing dot, and returns that suffix. *)
Lemma tld_validate_steps_spec raw t :
  tld_validate_steps raw = Ok t <->
  valid_tld t = true /\ (to_ascii_lowercase raw = t \/ to_ascii_lowercase raw = t ++ "."%str).
Proof.
  unfold tld_validate_steps. destruct (is_empty raw) eqn:Er.
  { destruct raw; [|done]. split; [done|]. intros [Hv [<-|H]]; [done|]. by destruct t. }
  destruct (strip_suffix "." raw) as [s|] eqn:E; simpl; rewrite tld_validate_stripped.
  - apply strip_suffix_Some in E. subst. rewrite lower_app.
    change (to_ascii_lowercase "."%str) with "."%str. split.
    + intros [Hv <-]. auto.
    + intros [Hv [H|H]]; [|by apply app_inv_tail in H]. exfalso.
      unfold valid_tld in Hv. bprop. apply dns_name_no_edge_dot in H0 as [_ He].
      assert (ends_with "." t = true); [|congruence]. apply ends_with_spec. eauto.
  - split; [naive_solver|]. intros [Hv [H|H]]; [done|]. exfalso.
    assert (ends_with "." raw = true) as He.
    { destruct (lower_dot_edges raw) as [_ <-]. apply ends_with_spec. eauto. }
    unfold ends_with in He. by rewrite E in He.
Qed.

Lemma Tld_new_spec raw t :
  Tld_new raw = Ok t <->
  valid_tld (Tld_str t) = true /\
  (to_ascii_lowercase raw = Tld_str t \/ to_ascii_lowercase raw = Tld_str t ++ "."%str).
Proof.
  rewrite <- tld_validate_steps_spec. unfold Tld_new, tld_validate. destruct t as [t]; simpl.
  destruct (tld_validate_steps raw); simpl; naive_solver.
Qed.

(** [Tld::new] accepts exactly the strings that, lowercased, are one or more
    DNS labels (1-63 characters of [a-z0-9-], no hyphen at either end) separated
    by single dots, at most 253 bytes, optionally followed by one trailing dot;
    it stores that lowercased suffix without the dot. *)
Theorem Tld_new_accepts_exactly raw t :
  Tld_new raw = Ok t <->
  (dns_name (Tld_str t) = true /\ len (Tld_str t) <= 253) /\
  (to_ascii_lowercase raw = Tld_str t \/ to_ascii_lowercase raw = Tld_str t ++ "."%str).
Proof.
  rewrite Tld_new_spec. unfold valid_tld. by rewrite andb_true_iff, N.leb_le.
Qed.

(** A stored suffix parses back to itself. *)
Lemma Tld_new_stable t : valid_tld (Tld_str t) = true -> Tld_new (fmt t) = Ok t.
Proof.
  intros H. apply Tld_new_spec. split; [done|]. left. unfold valid_tld in H. bprop.
  by apply dns_name_lower.
Qed.
