(* ===== verification/Domain.v ===== *)
(** * Routable domain patterns

    [src/crates/orcker-core/src/domain.rs]: a [Domain] is the part of a host
    left of the top-level domain, either exact ([api.foo]) or a single-label
    wildcard ([*.foo]).  The file also has the effective-set algebra of a site's
    routable domains and the choice of its primary domain. *)

From S2P Require Import Prelude RustStr CoreError DnsLabel Tld.

Open Scope N_scope.

Record Domain := mkDomain { Domain_str : str }.
#[export] Instance Domain_eq_dec : EqDecision Domain.
Proof. solve_decision. Defined.

Definition MAX_NAME_BYTES : N := 253.
Definition MAX_LABEL_BYTES : N := 63.

Definition domain_err (input : str) (reason : DomainErrorReason) : CoreError :=
  InvalidDomain input reason.

Definition domain_validate_label (label : str) : result DomainErrorReason unit :=
  if MAX_LABEL_BYTES <? len label then Err DomainLabelTooLong
  else if negb (forallb (fun b => is_ascii_lowercase b || is_ascii_digit b || (b =? "-"%ch)) label)
  then Err DomainInvalidCharacter
  else if starts_with "-" label || ends_with "-" label then Err DomainLeadingOrTrailingHyphen
  else Ok tt.

(** The loop over the labels; [i] is the index and [n] the number of labels. *)
Fixpoint domain_validate_labels (n i : nat) (labels : list str) : result DomainErrorReason unit :=
  match labels with
  | [] => Ok tt
  | label :: rest =>
      if is_empty label then Err DomainEmptyLabel
      else if contains_char "*" label then
        if negb (str_eqb label "*") then Err DomainMisplacedWildcard
        else if negb (i =? 0)%nat then Err DomainMisplacedWildcard
        else if (n =? 1)%nat then Err DomainBareWildcard
        else domain_validate_labels n (S i) rest
      else
        _ ← domain_validate_label label;
        domain_validate_labels n (S i) rest
  end.

Definition domain_validate_steps (raw : str) : result DomainErrorReason str :=
  if is_empty raw then Err DomainEmpty
  else if existsb (fun b => negb (is_ascii b)) raw then Err DomainInvalidCharacter
  else if MAX_NAME_BYTES <? len raw then Err DomainTooLong
  else
    let lowered := to_ascii_lowercase raw in
    let labels := split_char "." lowered in
    _ ← domain_validate_labels (length labels) 0 labels;
    Ok lowered.

Definition validate_subpart (raw : str) : result CoreError str :=
  map_err (domain_err raw) (domain_validate_steps raw).

Definition Domain_apex (name : str) : Domain := mkDomain (to_ascii_lowercase name).

Definition Domain_parse_subpart (sub : str) : result CoreError Domain :=
  s ← validate_subpart sub; Ok (mkDomain s).

Definition Domain_parse (fqdn tld : str) : result CoreError Domain :=
  let lowered := to_ascii_lowercase fqdn in
  let trimmed := default lowered (strip_suffix "." lowered) in
  let tld := to_ascii_lowercase tld in
  if is_empty trimmed then Err (domain_err fqdn DomainEmpty)
  else if MAX_NAME_BYTES <? len trimmed then Err (domain_err fqdn DomainTooLong)
  else if str_eqb trimmed tld then Err (domain_err fqdn DomainNotUnderTld)
  else
    sub ← ok_or (domain_err fqdn DomainNotUnderTld) (strip_suffix ("."%ch :: tld) trimmed);
    map_err (fun e => match e with
                      | InvalidDomain _ reason => domain_err fqdn reason
                      | other => other
                      end)
            (Domain_parse_subpart sub).

Definition Domain_as_str (d : Domain) : str := Domain_str d.
Definition is_wildcard (d : Domain) : bool := starts_with "*." (Domain_str d).
Definition to_fqdn (d : Domain) (tld : str) : str := Domain_str d ++ "."%str ++ tld.

(** [(implicit_default - suppressed) + added], with the apex restored when no
    exact domain is left. *)
Definition push_new (out : list Domain) (d : Domain) : list Domain :=
  if bool_decide (d ∈ out) then out else out ++ [d].

Definition effective_domains (name : str) (added suppressed : list Domain) : list Domain :=
  let apex := Domain_apex name in
  let out := if bool_decide (apex ∈ suppressed) then [] else [apex] in
  let out := foldl push_new out added in
  if negb (existsb (fun d => negb (is_wildcard d)) out) then apex :: out else out.

Definition choose_primary (name : str) (effective : list Domain) (stored : option Domain) : Domain :=
  let fallback :=
    let apex := Domain_apex name in
    if bool_decide (apex ∈ effective) then apex
    else default apex (find_first (fun d => negb (is_wildcard d)) effective) in
  match stored with
  | Some p => if negb (is_wildcard p) && bool_decide (p ∈ effective) then p else fallback
  | None => fallback
  end.

(** ** The reference grammar *)

(** An exact sub-part is a DNS name; a wildcard one is [*.] before a DNS name. *)
Definition subpart_shape (d : str) : bool :=
  dns_name d || match strip_prefix "*." d with Some r => dns_name r | None => false end.
Definition valid_subpart (d : str) : bool := subpart_shape d && (len d <=? 253).

(** ** Lemmas on validation *)

Lemma domain_validate_label_ok l :
  Forall (fun c => is_ascii c = true) l -> l <> [] ->
  domain_validate_label l = Ok tt <-> dns_label l = true.
Proof.
  intros Ha Hne. rewrite <- tld_validate_label_ok by done.
  unfold domain_validate_label, tld_validate_label. destruct l as [|c l]; [done|]. simpl is_empty.
  cbv iota. change MAX_LABEL_BYTES with 63.
  repeat (case_match; try done).
Qed.

Lemma label_star w : contains_char "*" w = true -> dns_label w = false.
Proof.
  intros H%contains_char_spec. apply not_true_is_false. intros Hd.
  eapply dns_label_no_char; [exact Hd| |exact H]. done.
Qed.

Lemma domain_validate_labels_tail n i ls :
  (i <> 0)%nat -> Forall (Forall (fun c => is_ascii c = true)) ls ->
  domain_validate_labels n i ls = Ok tt <-> Forall (fun w => dns_label w = true) ls.
Proof.
  revert i; induction ls as [|l ls IH]; intros i Hi Ha; simpl; [by split|].
  inv Ha. rewrite Forall_cons, <- (IH (S i)) by (done || lia).
  destruct (is_empty l) eqn:Ee; [apply is_empty_true in Ee; subst; by split; [|intros []]|].
  apply is_empty_false in Ee.
  destruct (contains_char "*" l) eqn:Ec.
  - rewrite (label_star _ Ec), (proj2 (Nat.eqb_neq i 0)) by done. simpl.
    destruct (negb (str_eqb l "*")); by split; [|intros []].
  - rewrite <- domain_validate_label_ok by done.
    destruct (domain_validate_label l) as [[]|e]; simpl; naive_solver.
Qed.

Lemma domain_validate_labels_ok ls :
  ls <> [] -> Forall (Forall (fun c => is_ascii c = true)) ls ->
  domain_validate_labels (length ls) 0 ls = Ok tt <->
  Forall (fun w => dns_label w = true) ls \/
  exists v vs, ls = "*"%str :: v :: vs /\ Forall (fun w => dns_label w = true) (v :: vs).
Proof.
  intros Hne Ha. destruct ls as [|l ls]; [done|]. inv Ha. simpl.
  destruct (is_empty l) eqn:Ee.
  { apply is_empty_true in Ee; subst. split; [done|].
    intros [H|(v & vs & ? & ?)]; [inversion H|]; done. }
  apply is_empty_false in Ee.
  destruct (contains_char "*" l) eqn:Ec.
  - destruct (str_eqb l "*") eqn:Es; unfold str_eqb in Es; bprop; simpl.
    + subst l. destruct ls as [|v vs]; simpl.
      * split; [done|]. intros [H|(v & vs & ? & ?)]; [inversion H|]; done.
      * change (match v with | [] => _ | _ => _ end) with
          (if is_empty v then Err DomainEmptyLabel else
            if contains_char "*" v then
              if negb (str_eqb v "*") then Err DomainMisplacedWildcard else Err DomainMisplacedWildcard
            else _ ← domain_validate_label v; domain_validate_labels (S (S (length vs))) 2 vs).
        pose proof (domain_validate_labels_tail (S (S (length vs))) 1 (v :: vs) ltac:(lia)) as Ht.
        simpl in Ht. rewrite Ht by done. split; [naive_solver|].
        intros [H|(v' & vs' & [= <- <-] & Hv)]; [inversion H; done|done].
    + split; [done|]. intros [H|(v & vs & [= -> _] & _)]; [|done].
      inv H. rewrite label_star in *; done.
  - rewrite Forall_cons, <- domain_validate_label_ok by done.
    rewrite <- (domain_validate_labels_tail (S (length ls)) 1) by (done || lia).
    destruct (domain_validate_label l) as [[]|e]; simpl; [|naive_solver].
    split; [naive_solver|]. intros [[_ H]|(v & vs & [= -> _] & _)]; done.
Qed.

Lemma split_star s v vs :
  split_char "." s = "*"%str :: v :: vs <->
  exists r, s = "*."%str ++ r /\ split_char "." r = v :: vs.
Proof.
  split.
  - intros H. pose proof (join_split "."%ch s) as Hs. rewrite H, join_char_cons in Hs.
    exists (join_char "." (v :: vs)). split; [by rewrite <- Hs|].
    apply split_join; [done|]. apply Forall_forall. intros w Hw.
    apply (split_char_no_sep _ s). rewrite H. set_solver.
  - intros (r & -> & Hr). by rewrite <- Hr.
Qed.

Lemma valid_subpart_labels d :
  subpart_shape d = true <->
  Forall (fun w => dns_label w = true) (split_char "." d) \/
  exists v vs, split_char "." d = "*"%str :: v :: vs /\ Forall (fun w => dns_label w = true) (v :: vs).
Proof.
  unfold subpart_shape. rewrite orb_true_iff. unfold dns_name at 1. rewrite forallb_Forall.
  assert (match strip_prefix "*." d with Some r => dns_name r | None => false end = true <->
    exists v vs, split_char "." d = "*"%str :: v :: vs /\
      Forall (fun w => dns_label w = true) (v :: vs)) as ->; [|done].
  destruct (strip_prefix "*." d) as [r|] eqn:E.
  - apply strip_prefix_Some in E. unfold dns_name. rewrite forallb_Forall.
    destruct (split_char "." r) as [|v vs] eqn:Er; [by apply split_char_ne in Er|].
    split; [intros H; exists v, vs; split; [|done]; apply split_star; eauto|].
    intros (v' & vs' & Hs & Hf). apply split_star in Hs as (r' & Hr' & Hs').
    rewrite E in Hr'. apply app_inv_head in Hr'. congruence.
  - split; [done|]. intros (v & vs & Hs & _). apply split_star in Hs as (r & Hr & _).
    apply strip_prefix_Some in Hr. congruence.
Qed.

Lemma valid_subpart_ascii d : valid_subpart d = true -> Forall (fun c => is_ascii c = true) d.
Proof.
  unfold valid_subpart, subpart_shape. intros H. bprop. apply orb_true_iff in H as [H|H]; [by apply dns_name_ascii|].
  destruct (strip_prefix "*." d) as [r|] eqn:E; [|done]. apply strip_prefix_Some in E. subst.
  apply Forall_app. split; [by repeat constructor|by apply dns_name_ascii].
Qed.

Lemma valid_subpart_lower d : valid_subpart d = true -> to_ascii_lowercase d = d.
Proof.
  unfold valid_subpart, subpart_shape. intros H. bprop. apply orb_true_iff in H as [H|H]; [by apply dns_name_lower|].
  destruct (strip_prefix "*." d) as [r|] eqn:E; [|done]. apply strip_prefix_Some in E. subst.
  rewrite lower_app. f_equal. by apply dns_name_lower.
Qed.

Lemma valid_subpart_ne d : valid_subpart d = true -> d <> [].
Proof. by intros H ->. Qed.

Lemma valid_subpart_no_edge_dot d :
  valid_subpart d = true -> starts_with "." d = false /\ ends_with "." d = false.
Proof.
  unfold valid_subpart, subpart_shape. intros H. bprop.
  apply orb_true_iff in H as [H|H]; [by apply dns_name_no_edge_dot|].
  destruct (strip_prefix "*." d) as [r|] eqn:E; [|done]. apply strip_prefix_Some in E. subst.
  split; [done|]. pose proof (dns_name_no_edge_dot r H) as [_ He].
  pose proof (dns_name_ne r H) as Hne.
  apply not_true_is_false. intros (x & Hx)%ends_with_spec.
  assert (ends_with "." r = true); [|congruence]. apply ends_with_spec.
  destruct (exists_last Hne) as (r' & c & ->). rewrite app_assoc in Hx.
  apply app_inj_tail in Hx as [_ ->]. by exists r'.
Qed.

(** The validator accepts exactly the strings whose lowercase form is a valid
    sub-part, and returns that form. *)
Lemma domain_validate_steps_spec raw d :
  domain_validate_steps raw = Ok d <-> valid_subpart d = true /\ to_ascii_lowercase raw = d.
Proof.
  unfold domain_validate_steps. destruct (is_empty raw) eqn:Er.
  { apply is_empty_true in Er. subst. split; [done|]. by intros [H <-]. }
  destruct (existsb (fun b => negb (is_ascii b)) raw) eqn:Ea.
  { split; [done|]. intros [H%valid_subpart_ascii <-]. rewrite forall_ascii_lower in H.
    apply existsb_elem in Ea as (c & Hc & Hn). rewrite Forall_forall in H. apply H in Hc.
    by rewrite Hc in Hn. }
  assert (Forall (fun c => is_ascii c = true) (to_ascii_lowercase raw)) as Hasc.
  { apply forall_ascii_lower, Forall_forall. intros c Hc. rewrite existsb_none in Ea.
    apply Ea in Hc. by bprop. }
  unfold valid_subpart, MAX_NAME_BYTES.
  destruct (253 <? len raw) eqn:El; bprop.
  { split; [done|]. intros [H <-]. bprop. rewrite len_lower in *. lia. }
  pose proof (domain_validate_labels_ok (split_char "." (to_ascii_lowercase raw))
    (split_char_ne _ _)) as Hl.
  rewrite <- valid_subpart_labels in Hl.
  destruct (domain_validate_labels _ _ _) as [[]|e] eqn:E; simpl.
  - split; [|naive_solver]. intros [= <-]. split; [|done].
    rewrite (proj1 (Hl ltac:(apply Forall_forall; intros; eapply split_char_forall; eauto)) eq_refl).
    simpl. rewrite len_lower. by apply N.leb_le.
  - split; [done|]. intros [H <-]. bprop. apply Hl in H; [done|].
    apply Forall_forall; intros; eapply split_char_forall; eauto.
Qed.

Lemma Domain_parse_subpart_spec raw d :
  Domain_parse_subpart raw = Ok d <->
  valid_subpart (Domain_str d) = true /\ to_ascii_lowercase raw = Domain_str d.
Proof.
  rewrite <- domain_validate_steps_spec. unfold Domain_parse_subpart, validate_subpart.
  destruct d as [d]; simpl. destruct (domain_validate_steps raw); simpl; naive_solver.
Qed.

Lemma Domain_parse_subpart_err raw e :
  Domain_parse_subpart raw = Err e -> exists r, e = InvalidDomain raw r.
Proof.
  unfold Domain_parse_subpart, validate_subpart, domain_err.
  destruct (domain_validate_steps raw); simpl; naive_solver.
Qed.

Definition trim_dot (s : str) : str := default s (strip_suffix "." s).

Lemma trim_dot_spec s x :
  ends_with "." x = false -> trim_dot s = x <-> s = x \/ s = x ++ "."%str.
Proof.
  intros Hx. unfold trim_dot. destruct (strip_suffix "." s) as [r|] eqn:E; simpl.
  - apply strip_suffix_Some in E. subst. split; [intros ->; by right|].
    intros [<-|H]; [|by apply app_inv_tail in H].
    assert (ends_with "." (r ++ "."%str) = true); [|congruence]. apply ends_with_spec; eauto.
  - split; [by left|]. intros [->| ->]; [done|].
    assert (strip_suffix "." (x ++ "."%str) = Some x) by by apply strip_suffix_Some. congruence.
Qed.

Lemma lower_trim_dot s : to_ascii_lowercase s = s -> to_ascii_lowercase (trim_dot s) = trim_dot s.
Proof.
  intros Hs. unfold trim_dot. destruct (strip_suffix "." s) as [r|] eqn:E; simpl; [|done].
  apply strip_suffix_Some in E. subst. rewrite lower_app in Hs.
  by apply app_inv_tail in Hs.
Qed.

(** Once the trailing dot is gone, parsing splits the name at the TLD. *)
Lemma Domain_parse_ok_iff fqdn tld d :
  Domain_parse fqdn tld = Ok d <->
  exists sub, trim_dot (to_ascii_lowercase fqdn) = sub ++ "."%ch :: to_ascii_lowercase tld /\
    len (trim_dot (to_ascii_lowercase fqdn)) <= 253 /\
    domain_validate_steps sub = Ok (Domain_str d).
Proof.
  unfold Domain_parse, MAX_NAME_BYTES. fold (trim_dot (to_ascii_lowercase fqdn)).
  set (t := trim_dot (to_ascii_lowercase fqdn)). set (l := to_ascii_lowercase tld). cbv zeta.
  unfold Domain_parse_subpart, validate_subpart. split.
  - intros H. steps_in H. bprop. destruct (strip_suffix _ t) as [sub|] eqn:Es; [|done].
    apply strip_suffix_Some in Es. exists sub. split; [done|]. split; [done|].
    simpl in H. destruct (domain_validate_steps sub); simpl in H; [|done]. by simplify_eq/=.
  - intros (sub & Ht & Hl & Hv). rewrite (proj2 (is_empty_false _)) by (rewrite Ht; by destruct sub).
    destruct (253 <? len t) eqn:E; bprop; [lia|].
    unfold str_eqb. rewrite bool_decide_false.
    + rewrite (proj2 (strip_suffix_Some _ _ _) Ht). simpl. rewrite Hv. by destruct d.
    + intros He. rewrite Ht in He. apply (f_equal length) in He. rewrite length_app in He. simpl in He. lia.
Qed.

Lemma to_fqdn_no_end_dot d tld : dns_name tld = true -> ends_with "." (to_fqdn d tld) = false.
Proof.
  intros Ht. pose proof (dns_name_no_edge_dot _ Ht) as [_ He].
  apply not_true_is_false. intros (x & Hx)%ends_with_spec.
  destruct (exists_last (dns_name_ne _ Ht)) as (t' & c & ->). unfold to_fqdn in Hx.
  rewrite !app_assoc in Hx. apply app_inj_tail in Hx as [_ ->].
  assert (ends_with "." (t' ++ "."%str) = true); [|congruence]. apply ends_with_spec; eauto.
Qed.

Lemma Domain_parse_spec fqdn tld d :
  dns_name tld = true ->
  Domain_parse fqdn tld = Ok d <->
  valid_subpart (Domain_str d) = true /\ len (to_fqdn d tld) <= 253 /\
  (to_ascii_lowercase fqdn = to_fqdn d tld \/ to_ascii_lowercase fqdn = to_fqdn d tld ++ "."%str).
Proof.
  intros Ht. rewrite Domain_parse_ok_iff, (dns_name_lower _ Ht).
  rewrite <- trim_dot_spec by by apply to_fqdn_no_end_dot.
  pose proof (lower_trim_dot _ (lower_idem fqdn)) as Hlow.
  set (t := trim_dot (to_ascii_lowercase fqdn)) in *. split.
  - intros (sub & Hs & Hl & [Hv Hd]%domain_validate_steps_spec).
    assert (to_ascii_lowercase sub = sub) as Hsub.
    { rewrite Hs, lower_app in Hlow. simpl in Hlow.
      change (to_ascii_lowercase tld) with (map lower_char tld) in *.
      pose proof (dns_name_lower _ Ht) as Hlt. unfold to_ascii_lowercase in Hlt.
      rewrite Hlt in Hlow. change (lower_char 46) with 46 in Hlow.
      by apply app_inv_tail in Hlow. }
    rewrite Hsub in Hd. subst sub. by assert (to_fqdn d tld = t) as -> by done.
  - intros (Hv & Hl & He). exists (Domain_str d). rewrite He. split; [done|]. split; [done|].
    apply domain_validate_steps_spec. split; [done|]. by apply valid_subpart_lower.
Qed.

(** ** Lemmas on the effective set *)

Lemma elem_of_push_new out d x : x ∈ push_new out d <-> x ∈ out \/ x = d.
Proof. unfold push_new. case_bool_decide; set_solver. Qed.

Lemma elem_of_foldl_push_new added out x : x ∈ foldl push_new out added <-> x ∈ out \/ x ∈ added.
Proof.
  revert out; induction added as [|d added IH]; intros out; simpl; [set_solver|].
  rewrite IH, elem_of_push_new. set_solver.
Qed.

Lemma foldl_push_new_NoDup added out : NoDup out -> NoDup (foldl push_new out added).
Proof.
  revert out; induction added as [|d added IH]; intros out Ho; simpl; [done|]. apply IH.
  unfold push_new. case_bool_decide; [done|]. apply NoDup_app. split; [done|].
  split; [set_solver|apply NoDup_singleton].
Qed.

Lemma foldl_push_new_prefix added out : exists k, foldl push_new out added = out ++ k.
Proof.
  revert out; induction added as [|d added IH]; intros out; simpl; [by exists []; rewrite app_nil_r|].
  destruct (IH (push_new out d)) as (k & ->). unfold push_new. case_bool_decide; [eauto|].
  rewrite <- app_assoc. eauto.
Qed.

Definition exact (d : Domain) : Prop := is_wildcard d = false.

Lemma no_exact_iff out :
  existsb (fun d => negb (is_wildcard d)) out = false <-> forall d, d ∈ out -> is_wildcard d = true.
Proof.
  rewrite existsb_none. split; intros H d Hd; specialize (H d Hd); by destruct (is_wildcard d).
Qed.

Lemma elem_of_effective name added suppressed d :
  d ∈ effective_domains name added suppressed <->
  d ∈ added \/ (d = Domain_apex name /\
    (Domain_apex name ∉ suppressed \/ forall x, x ∈ added -> is_wildcard x = true)).
Proof.
  unfold effective_domains. set (apex := Domain_apex name).
  set (out0 := if bool_decide (apex ∈ suppressed) then [] else [apex]).
  assert (forall x, x ∈ out0 <-> x = apex /\ apex ∉ suppressed) as H0.
  { intros x. unfold out0. case_bool_decide; set_solver. }
  destruct (existsb _ _) eqn:E; simpl.
  - rewrite elem_of_foldl_push_new, H0. split; [naive_solver|].
    intros [H|[-> [H|H]]]; [by right|by left|].
    apply existsb_elem in E as (x & Hx & Hw). bprop. apply elem_of_foldl_push_new in Hx as [Hx|Hx].
    + apply H0 in Hx as [-> Hx]. by left.
    + rewrite H in Hw by done. done.
  - rewrite no_exact_iff in E. setoid_rewrite elem_of_foldl_push_new in E.
    rewrite elem_of_cons, elem_of_foldl_push_new, H0. naive_solver.
Qed.

Lemma effective_NoDup name added suppressed :
  is_wildcard (Domain_apex name) = false -> NoDup (effective_domains name added suppressed).
Proof.
  intros Ha. unfold effective_domains.
  assert (NoDup (foldl push_new (if bool_decide (Domain_apex name ∈ suppressed) then []
    else [Domain_apex name]) added)) as Hn.
  { apply foldl_push_new_NoDup. case_bool_decide; [constructor|apply NoDup_singleton]. }
  destruct (existsb _ _) eqn:E; [done|]. simpl. constructor; [|done].
  rewrite no_exact_iff in E. intros H%E. congruence.
Qed.

Lemma effective_has_exact name added suppressed :
  is_wildcard (Domain_apex name) = false ->
  exists d, d ∈ effective_domains name added suppressed /\ is_wildcard d = false.
Proof.
  intros Ha. unfold effective_domains. destruct (existsb _ _) eqn:E; simpl.
  - apply existsb_elem in E as (d & Hd & Hw). bprop. eauto.
  - exists (Domain_apex name). set_solver.
Qed.

Lemma choose_primary_exact name eff stored :
  (exists d, d ∈ eff /\ is_wildcard d = false) -> is_wildcard (Domain_apex name) = false ->
  choose_primary name eff stored ∈ eff /\ is_wildcard (choose_primary name eff stored) = false.
Proof.
  intros (d & Hd & Hw) Ha.
  assert (forall r, r = (if bool_decide (Domain_apex name ∈ eff) then Domain_apex name
    else default (Domain_apex name) (find_first (fun d => negb (is_wildcard d)) eff)) ->
    r ∈ eff /\ is_wildcard r = false) as Hfall.
  { intros r ->. case_bool_decide; [done|].
    destruct (find_first _ eff) as [x|] eqn:E; simpl.
    - apply find_first_Some in E as (l1 & l2 & -> & Hx & _). bprop. set_solver.
    - rewrite find_first_None, Forall_forall in E. apply E in Hd. by rewrite Hw in Hd. }
  unfold choose_primary. destruct stored as [p|]; [|by apply Hfall].
  destruct (negb (is_wildcard p) && bool_decide (p ∈ eff)) eqn:E; [by bprop|by apply Hfall].
Qed.

Lemma dns_name_not_wildcard s : dns_name s = true -> is_wildcard (mkDomain s) = false.
Proof.
  intros H. apply not_true_is_false. unfold is_wildcard. intros (r & Hr)%starts_with_spec.
  simpl in Hr. subst. eapply (dns_name_no_char _ "*"%ch H); set_solver.
Qed.

Lemma apex_not_wildcard name : dns_name name = true -> is_wildcard (Domain_apex name) = false.
Proof.
  intros H. unfold Domain_apex. rewrite dns_name_lower by done. by apply dns_name_not_wildcard.
Qed.

(** [Domain::parse] under a valid top-level domain accepts exactly the names
    whose lowercase form is [sub.tld] (or [sub.tld.]), where [sub] is a DNS name
    or [*.] before a DNS name and the whole name has at most 253 bytes, and
    returns [sub]; in particular it inverts [to_fqdn]. *)
Theorem Domain_parse_accepts_exactly fqdn t d (Ht : valid_tld (Tld_str t) = true) :
  Domain_parse fqdn (Tld_str t) = Ok d <->
  valid_subpart (Domain_str d) = true /\ len (to_fqdn d (Tld_str t)) <= 253 /\
  (to_ascii_lowercase fqdn = to_fqdn d (Tld_str t) \/
   to_ascii_lowercase fqdn = to_fqdn d (Tld_str t) ++ "."%str).
Proof. apply Domain_parse_spec. unfold valid_tld in Ht. by bprop. Qed.

Lemma Domain_parse_accepts_exactly_witness :
  Domain_parse "*.API.Foo.Dev.Local."%str (Tld_str (mkTld "dev.local"%str))
  = Ok (mkDomain "*.api.foo"%str).
Proof.
  apply (Domain_parse_accepts_exactly _ (mkTld "dev.local"%str)); [vm_compute; reflexivity|].
  split; [vm_compute; reflexivity|]. split; [vm_compute; discriminate|]. right. vm_compute. reflexivity.
Defined.

(** For a valid claimant name, the effective set has no duplicates, holds
    exactly the added domains plus the apex (unless the apex is suppressed and
    an exact domain was added), always has an exact domain, and the chosen
    primary is an exact member of it, the stored one whenever that is exact and
    still present. *)
Theorem effective_domains_primary name added suppressed stored (Hn : dns_name name = true) :
  let eff := effective_domains name added suppressed in
  let primary := choose_primary name eff stored in
  NoDup eff /\
  (forall d, d ∈ eff <-> d ∈ added \/ (d = Domain_apex name /\
     (Domain_apex name ∉ suppressed \/ forall x, x ∈ added -> is_wildcard x = true))) /\
  (exists d, d ∈ eff /\ is_wildcard d = false) /\
  primary ∈ eff /\ is_wildcard primary = false /\
  (forall p, stored = Some p -> p ∈ eff -> is_wildcard p = false -> primary = p).
Proof.
  pose proof (apex_not_wildcard name Hn) as Ha. intros eff primary.
  split; [by apply effective_NoDup|]. split; [intros d; apply elem_of_effective|].
  pose proof (effective_has_exact name added suppressed Ha) as He.
  split; [exact He|]. destruct (choose_primary_exact name eff stored He Ha) as [H1 H2].
  split; [done|]. split; [done|]. intros p -> Hp Hw. unfold primary, choose_primary.
  by rewrite Hw, bool_decide_true.
Qed.

Lemma effective_domains_primary_witness :
  exists d, d ∈ effective_domains "foo"%str [mkDomain "*.foo"%str] [mkDomain "foo"%str]
    /\ is_wildcard d = false.
Proof.
  apply (effective_domains_primary "foo"%str [mkDomain "*.foo"%str] [mkDomain "foo"%str] None).
  vm_compute. reflexivity.
Defined.
