(* ===== verification/Host.v ===== *)
(** * Host header normalisation

    [src/crates/orcker-core/src/host.rs]: a raw [Host:] value becomes a lowercase
    ASCII hostname without port and trailing dot, or is not routable. *)

From S2P Require Import Prelude RustStr DnsLabel Tld Domain.

Open Scope N_scope.

Inductive HostKind :=
| Hostname (h : str)
| Unroutable.

Definition normalise (raw : str) : HostKind :=
  if is_empty raw then Unroutable
  else if starts_with "[" raw then Unroutable
  else if existsb (fun b => negb (is_ascii b)) raw then Unroutable
  else
    let host := match rsplit_once ":" raw with
                | None => Some raw
                | Some (head, tail) =>
                    if is_empty tail || forallb is_ascii_digit tail then Some head else None
                end in
    match host with
    | None => Unroutable
    | Some host =>
        if is_empty host then Unroutable
        else
          let host := default host (strip_suffix "." host) in
          if is_empty host then Unroutable
          else if starts_with "." host then Unroutable
          else if existsb is_ascii_uppercase host then Hostname (to_ascii_lowercase host)
          else Hostname host
    end.

(** ** Lemmas *)

(** Lowercasing only when an uppercase byte is present is lowercasing. *)
Lemma lower_if_upper h :
  (if existsb is_ascii_uppercase h then Hostname (to_ascii_lowercase h) else Hostname h)
  = Hostname (to_ascii_lowercase h).
Proof.
  destruct (existsb is_ascii_uppercase h) eqn:E; [done|]. f_equal. symmetry. apply lower_id.
  rewrite existsb_none in E. by apply Forall_forall.
Qed.

(** The port part: nothing, or a colon followed by digits only. *)
Definition port_suffix (p : str) : Prop :=
  p = [] \/ exists ds, p = ":"%ch :: ds /\ Forall (fun c => is_ascii_digit c = true) ds.

Lemma normalise_shape raw h :
  normalise raw = Hostname h ->
  exists host dot port,
    raw = host ++ dot ++ port /\ port_suffix port /\ (dot = [] \/ dot = "."%str) /\
    host <> [] /\ starts_with "." host = false /\ starts_with "[" host = false /\
    Forall (fun c => is_ascii c = true) host /\ h = to_ascii_lowercase host.
Proof.
  unfold normalise. intros H.
  destruct (is_empty raw) eqn:E0; [done|]. destruct (starts_with "[" raw) eqn:E1; [done|].
  destruct (existsb _ raw) eqn:E2; [done|].
  assert (Forall (fun c => is_ascii c = true) raw) as Hasc.
  { apply Forall_forall. intros c Hc. rewrite existsb_none in E2. apply E2 in Hc. by bprop. }
  set (o := match rsplit_once ":" raw with None => _ | Some _ => _ end) in H.
  assert (forall x, o = Some x -> exists port, raw = x ++ port /\ port_suffix port) as Ho.
  { intros x Hx. unfold o in Hx. destruct (rsplit_once ":" raw) as [[hd tl]|] eqn:E.
    - apply rsplit_once_Some in E as [-> _].
      destruct (is_empty tl || forallb is_ascii_digit tl) eqn:Et; [|done]. injection Hx as <-.
      eexists; split; [done|]. right. exists tl. split; [done|].
      apply orb_true_iff in Et as [Et|Et]; [apply is_empty_true in Et; by subst|by apply forallb_Forall].
    - injection Hx as <-. exists []. rewrite app_nil_r. split; [done|by left]. }
  destruct o as [x|]; [|done]. destruct (Ho x eq_refl) as (port & Hraw & Hport).
  destruct (is_empty x) eqn:E3; [done|].
  fold (trim_dot x) in H. destruct (is_empty (trim_dot x)) eqn:E4; [done|].
  destruct (starts_with "." (trim_dot x)) eqn:E5; [done|].
  rewrite lower_if_upper in H. injection H as <-.
  assert (exists dot, x = trim_dot x ++ dot /\ (dot = [] \/ dot = "."%str)) as (dot & Hx & Hdot).
  { unfold trim_dot. destruct (strip_suffix "." x) as [r|] eqn:E; simpl.
    - apply strip_suffix_Some in E. eauto.
    - exists []. rewrite app_nil_r. auto. }
  exists (trim_dot x), dot, port. rewrite app_assoc, <- Hx.
  split; [done|]. split; [done|]. split; [done|].
  split; [by apply is_empty_false|]. split; [done|].
  rewrite Hraw, Hx in Hasc, E1. rewrite !Forall_app in Hasc.
  split; [|tauto]. destruct (trim_dot x) as [|c t]; [done|]. unfold starts_with in *.
  cbn [strip_prefix app] in E1 |- *. by destruct ("["%ch =? c).
Qed.

(** When a [Host:] value is routable, the hostname returned is the lowercase
    form of what is left of the value after an optional [:digits] port and one
    optional trailing dot: it is non-empty, ASCII, has no uppercase letter and
    no leading dot, and is not a bracketed IPv6 literal; nothing else of the
    value is dropped. *)
Theorem normalise_routable raw h (Hr : normalise raw = Hostname h) :
  exists host dot port,
    raw = host ++ dot ++ port /\ port_suffix port /\ (dot = [] \/ dot = "."%str) /\
    h = to_ascii_lowercase host /\ h <> [] /\ starts_with "." h = false /\
    starts_with "[" host = false /\
    Forall (fun c => is_ascii c = true /\ is_ascii_uppercase c = false) h.
Proof.
  destruct (normalise_shape _ _ Hr) as (host & dot & port & ? & ? & ? & Hne & Hdot & Hb & Ha & ->).
  exists host, dot, port. do 4 (split; [done|]).
  split; [by destruct host|]. split; [by rewrite (proj1 (lower_dot_edges host))|]. split; [done|].
  apply Forall_and. split; [by apply forall_ascii_lower|apply lower_no_upper].
Qed.

Lemma normalise_routable_witness :
  exists host dot port, "Foo.Test.:8443"%str = host ++ dot ++ port /\ port_suffix port.
Proof.
  destruct (normalise_routable "Foo.Test.:8443"%str "foo.test"%str eq_refl)
    as (host & dot & port & H1 & H2 & _).
  exists host, dot, port. split; [exact H1|exact H2].
Defined.

(** A name under a DNS suffix is normalised to itself. *)
Lemma normalise_dns_name s : dns_name s = true -> normalise s = Hostname s.
Proof.
  intros H. unfold normalise.
  pose proof (dns_name_ne _ H) as Hne. pose proof (dns_name_no_edge_dot _ H) as [Hs He].
  pose proof (dns_name_ascii _ H) as Ha.
  assert (forall c, label_char c = false -> c <> "."%ch -> c ∉ s) as Hno
    by eauto using dns_name_no_char.
  rewrite (proj2 (is_empty_false s) Hne).
  replace (starts_with "[" s) with false; last first.
  { symmetry. apply not_true_is_false. intros (r & ->)%starts_with_spec.
    apply (Hno "["%ch); [done|done|set_solver]. }
  replace (existsb (fun b => negb (is_ascii b)) s) with false; last first.
  { symmetry. apply existsb_none. intros c Hc. rewrite Forall_forall in Ha. by rewrite Ha. }
  rewrite (proj2 (rsplit_once_None _ _)) by (by apply Hno).
  rewrite (proj2 (is_empty_false s) Hne).
  replace (strip_suffix "." s) with (@None str); last first.
  { symmetry. unfold ends_with in He. by destruct (strip_suffix "." s). }
  simpl default. rewrite (proj2 (is_empty_false s) Hne), Hs, lower_if_upper.
  by rewrite dns_name_lower.
Qed.
