(* ===== verification/Php.v ===== *)
(** * PHP versions

    [src/crates/orcker-core/src/php.rs]: a [(major, minor)] pair of [u8]s with a
    strict parser and a [major.minor] printer. *)

From S2P Require Import Prelude RustStr CoreError.

Open Scope N_scope.

Record PhpVersion := mkPhp { php_major : N; php_minor : N }.
#[export] Instance PhpVersion_eq_dec : EqDecision PhpVersion.
Proof. solve_decision. Defined.

Definition PhpVersion_new (major minor : N) : PhpVersion := mkPhp major minor.
Definition FIRST_SUPPORTED_MINOR : PhpVersion := PhpVersion_new 8 2.

Definition is_legacy (v : PhpVersion) : bool :=
  (php_major v <? php_major FIRST_SUPPORTED_MINOR)
  || ((php_major v =? php_major FIRST_SUPPORTED_MINOR)
      && (php_minor v <? php_minor FIRST_SUPPORTED_MINOR)).

Definition PhpVersion_fmt (v : PhpVersion) : str :=
  show_uint (php_major v) ++ "."%str ++ show_uint (php_minor v).
#[export] Instance PhpVersion_display : Display PhpVersion := PhpVersion_fmt.

Definition php_err (input : str) (reason : PhpVersionErrorReason) : CoreError :=
  InvalidPhpVersion input reason.

(** What is left after the optional, case-insensitive [php] prefix. *)
Definition php_strip_prefix (input : str) : result CoreError str :=
  match input with
  | b :: _ =>
      if negb (is_ascii b) then Err (php_err input PhpUnsupportedPrefix)
      else if is_ascii_alphabetic b then
        if eq_ignore_ascii_case (take 3 input) "php" then
          let after := drop 3 input in
          match after with
          | a :: _ => if is_ascii_alphabetic a then Err (php_err input PhpUnsupportedPrefix)
                      else Ok after
          | [] => Ok after
          end
        else Err (php_err input PhpUnsupportedPrefix)
      else Ok input
  | [] => Ok input
  end.

Definition PhpVersion_from_str (input : str) : result CoreError PhpVersion :=
  if is_empty input then Err (php_err input PhpEmpty)
  else
    rest ← php_strip_prefix input;
    p ← ok_or (php_err input PhpMissingMinor) (split_once "." rest);
    let '(major_str, minor_str) := p in
    if is_empty major_str || is_empty minor_str
       || negb (forallb is_ascii_digit major_str) || negb (forallb is_ascii_digit minor_str)
    then Err (php_err input PhpNonNumeric)
    else
      major ← ok_or (php_err input PhpNonNumeric) (parse_uint u16_max major_str);
      minor ← ok_or (php_err input PhpNonNumeric) (parse_uint u16_max minor_str);
      if negb ((5 <=? major) && (major <=? 9)) then Err (php_err input PhpMajorOutOfRange)
      else if 99 <? minor then Err (php_err input PhpMinorOutOfRange)
      else Ok (PhpVersion_new (major mod 256) (minor mod 256)).

(** The documented range of an accepted version. *)
Definition php_in_range (v : PhpVersion) : Prop := 5 <= php_major v <= 9 /\ php_minor v <= 99.

(** ** Lemmas *)

Lemma php_from_str_range s v : PhpVersion_from_str s = Ok v -> php_in_range v.
Proof.
  unfold PhpVersion_from_str. intros H. destruct (is_empty s); [done|].
  destruct (php_strip_prefix s) as [rest|]; simpl in H; [|done].
  destruct (split_once "." rest) as [[a b]|]; simpl in H; [|done].
  destruct (_ || _ || _ || _); [done|].
  destruct (parse_uint u16_max a) as [ma|]; simpl in H; [|done].
  destruct (parse_uint u16_max b) as [mi|]; simpl in H; [|done].
  destruct (negb _) eqn:E1; [done|]. destruct (99 <? mi) eqn:E2; [done|]. bprop.
  injection H as <-. unfold php_in_range, PhpVersion_new; simpl.
  rewrite !N.mod_small by lia. lia.
Qed.

(** A [major.minor] text is parsed once its optional prefix is gone. *)
Lemma php_from_str_rest s v :
  php_in_range v -> s <> [] -> php_strip_prefix s = Ok (fmt v) -> PhpVersion_from_str s = Ok v.
Proof.
  intros [Hma Hmi] Hne Hs. unfold PhpVersion_from_str.
  rewrite (proj2 (is_empty_false s) Hne), Hs. simpl.
  unfold fmt, PhpVersion_display, PhpVersion_fmt. simpl.
  rewrite split_once_complete; last first.
  { intros Hin. pose proof (show_uint_digits (php_major v)) as Hd.
    rewrite Forall_forall in Hd. by apply Hd in Hin. }
  simpl. rewrite !(proj2 (is_empty_false _)) by apply show_uint_ne.
  rewrite !(proj2 (forallb_Forall _ _)) by apply show_uint_digits. simpl.
  rewrite !parse_show_uint by (unfold u16_max; lia). simpl.
  rewrite (proj2 (N.leb_le 5 _)), (proj2 (N.leb_le _ 9)), (proj2 (N.ltb_ge 99 _)) by lia. simpl.
  rewrite !N.mod_small by lia. by destruct v.
Qed.

Lemma php_strip_none s : (exists c r, s = c :: r /\ is_ascii_digit c = true) -> php_strip_prefix s = Ok s.
Proof.
  intros (c & r & -> & Hc). unfold php_strip_prefix.
  replace (is_ascii c) with true by (symmetry; char_unfold; lia).
  replace (is_ascii_alphabetic c) with false by (symmetry; char_unfold; lia). done.
Qed.

Lemma php_fmt_digit v : exists c r, fmt v = c :: r /\ is_ascii_digit c = true.
Proof.
  unfold fmt, PhpVersion_display, PhpVersion_fmt. pose proof (show_uint_digits (php_major v)) as Hd.
  pose proof (show_uint_ne (php_major v)). destruct (show_uint (php_major v)) as [|c r]; [done|].
  inv Hd. simpl. eauto.
Qed.

Lemma php_strip_php p r :
  eq_ignore_ascii_case p "php" = true -> (exists c q, r = c :: q /\ is_ascii_digit c = true) ->
  php_strip_prefix (p ++ r) = Ok r.
Proof.
  unfold eq_ignore_ascii_case. intros Hp (c & q & -> & Hc). bprop.
  destruct p as [|a [|b [|d [|? ?]]]]; try discriminate Hp.
  injection Hp as Ha Hb Hd. fold (lower_char a) (lower_char b) (lower_char d) in *.
  unfold php_strip_prefix. cbn [app take drop].
  replace (is_ascii a) with true by (symmetry; revert Ha; char_cases).
  replace (is_ascii_alphabetic a) with true by (symmetry; revert Ha; char_cases). simpl negb. cbv iota.
  unfold eq_ignore_ascii_case. rewrite bool_decide_true by (simpl; by rewrite Ha, Hb, Hd).
  replace (is_ascii_alphabetic c) with false by (symmetry; char_unfold; lia). done.
Qed.

Lemma php_fmt_parse v : php_in_range v -> PhpVersion_from_str (fmt v) = Ok v.
Proof.
  intros Hv. destruct (php_fmt_digit v) as (c & r & E & Hc).
  apply php_from_str_rest; [done|by rewrite E|]. apply php_strip_none. eauto.
Qed.

(** The versions [PhpVersion::from_str] can return are exactly those with
    major 5-9 and minor 0-99, and each of them is what its printed form parses
    to, with and without a [php] prefix in any letter case. *)
Theorem php_version_roundtrip v :
  (php_in_range v <-> exists s, PhpVersion_from_str s = Ok v) /\
  (php_in_range v <->
    PhpVersion_from_str (fmt v) = Ok v /\
    forall p, eq_ignore_ascii_case p "php" = true -> PhpVersion_from_str (p ++ fmt v) = Ok v).
Proof.
  split; split.
  - intros Hv. exists (fmt v). by apply php_fmt_parse.
  - intros (s & Hs). by eapply php_from_str_range.
  - intros Hv. split; [by apply php_fmt_parse|]. intros p Hp. destruct (php_fmt_digit v) as (c & r & E & Hc).
    apply php_from_str_rest; [done|rewrite E; by destruct p|]. apply php_strip_php; eauto.
  - intros [Hs _]. by eapply php_from_str_range.
Qed.
