(* ===== verification/Net.v ===== *)
(** * IP addresses and network scope

    [std::net] addresses with the standard library's textual parser (used on
    upstream hosts), and [src/crates/orcker-core/src/net.rs]: which peers are
    served in LAN mode. *)

From S2P Require Import Prelude RustStr.

Open Scope N_scope.

(** ** [std::net] *)

Record Ipv4Addr := mkV4 { v4_a : N; v4_b : N; v4_c : N; v4_d : N }.
(** An IPv6 address is its eight 16-bit segments. *)
Record Ipv6Addr := mkV6 { v6_segments : list N }.
Inductive IpAddr :=
| V4 (a : Ipv4Addr)
| V6 (a : Ipv6Addr).
#[export] Instance Ipv4Addr_eq_dec : EqDecision Ipv4Addr.
Proof. solve_decision. Defined.
#[export] Instance Ipv6Addr_eq_dec : EqDecision Ipv6Addr.
Proof. solve_decision. Defined.

Definition v4_is_loopback (a : Ipv4Addr) : bool := v4_a a =? 127.
Definition v4_is_private (a : Ipv4Addr) : bool :=
  (v4_a a =? 10)
  || ((v4_a a =? 172) && (16 <=? v4_b a) && (v4_b a <=? 31))
  || ((v4_a a =? 192) && (v4_b a =? 168)).
Definition v4_is_link_local (a : Ipv4Addr) : bool := (v4_a a =? 169) && (v4_b a =? 254).

Definition v6_is_loopback (a : Ipv6Addr) : bool :=
  bool_decide (v6_segments a = [0; 0; 0; 0; 0; 0; 0; 1]).
Definition v6_to_ipv4_mapped (a : Ipv6Addr) : option Ipv4Addr :=
  match v6_segments a with
  | [0; 0; 0; 0; 0; 65535; ab; cd] => Some (mkV4 (ab / 256) (ab mod 256) (cd / 256) (cd mod 256))
  | _ => None
  end.

(** [Display] of the address types. *)
Definition Ipv4Addr_fmt (a : Ipv4Addr) : str :=
  join_char "."%ch [show_uint (v4_a a); show_uint (v4_b a); show_uint (v4_c a); show_uint (v4_d a)].

(** [{:x}] of a 16-bit segment. *)
Definition hex_char (d : N) : N := if d <? 10 then 48 + d else 87 + d.
Definition show_hex (n : N) : str :=
  let ds := [n / 4096; n / 256 mod 16; n / 16 mod 16; n mod 16] in
  match drop_while (N.eqb 0) ds with [] => "0"%str | ds => map hex_char ds end.

(** The longest run of zero segments, the first of the longest ones: where it
    starts and how long it is. *)
Fixpoint zero_span (i start len : nat) (best : nat * nat) (segments : list N) : nat * nat :=
  match segments with
  | [] => best
  | s :: rest =>
      if s =? 0 then
        let start := if (len =? 0)%nat then i else start in
        let best := if (best.2 <? S len)%nat then (start, S len) else best in
        zero_span (S i) start (S len) best rest
      else zero_span (S i) 0 0 best rest
  end.

Definition fmt_subslice (chunk : list N) : str := join_char ":"%ch (map show_hex chunk).

Definition Ipv6Addr_fmt (a : Ipv6Addr) : str :=
  match v6_to_ipv4_mapped a with
  | Some v4 => "::ffff:"%str ++ Ipv4Addr_fmt v4
  | None =>
      let '(start, len) := zero_span 0 0 0 (0, 0)%nat (v6_segments a) in
      if (1 <? len)%nat
      then fmt_subslice (take start (v6_segments a)) ++ "::"%str ++ fmt_subslice (drop (start + len) (v6_segments a))
      else fmt_subslice (v6_segments a)
  end.

Definition IpAddr_fmt (ip : IpAddr) : str := match ip with V4 a => Ipv4Addr_fmt a | V6 a => Ipv6Addr_fmt a end.

(** [SocketAddr] *)
Record SocketAddr := mkAddr { addr_ip : IpAddr; addr_port : N }.

(** [Display]: an IPv6 address goes in brackets. *)
Definition SocketAddr_fmt (a : SocketAddr) : str :=
  match addr_ip a with
  | V4 ip => Ipv4Addr_fmt ip ++ ":"%str ++ show_uint (addr_port a)
  | V6 ip => "["%str ++ Ipv6Addr_fmt ip ++ "]:"%str ++ show_uint (addr_port a)
  end.

(** The textual parser: a reader consumes a prefix or fails without consuming. *)
Definition reader (A : Type) := str -> option (A * str).

Definition hex_digit (c : N) : option N :=
  if is_ascii_digit c then Some (c - 48)
  else if in_range "a"%ch "f"%ch c then Some (c - 87)
  else if in_range "A"%ch "F"%ch c then Some (c - 55)
  else None.
Definition radix_digit (radix c : N) : option N :=
  match hex_digit c with Some d => if d <? radix then Some d else None | None => None end.

Fixpoint read_digits (radix : N) (count : nat) (acc : N) (s : str) : nat * N * str :=
  match s with
  | c :: r =>
      match radix_digit radix c with
      | Some d => read_digits radix (S count) (acc * radix + d) r
      | None => (count, acc, s)
      end
  | [] => (count, acc, s)
  end.

(** [Parser::read_number] *)
Definition read_number (radix : N) (max_digits : nat) (allow_zero_prefix : bool) (max : N)
  : reader N := fun s =>
  let has_leading_zero := match s with c :: _ => c =? "0"%ch | [] => false end in
  let '(count, v, r) := read_digits radix 0 0 s in
  if (max_digits <? count)%nat then None
  else if (count =? 0)%nat then None
  else if negb allow_zero_prefix && has_leading_zero && (1 <? count)%nat then None
  else if v <=? max then Some (v, r) else None.

(** [Parser::read_separator] *)
Definition read_separator {A} (sep : N) (index : nat) (inner : reader A) : reader A := fun s =>
  match index with
  | O => inner s
  | S _ => match s with c :: r => if c =? sep then inner r else None | [] => None end
  end.

Definition read_octet (i : nat) : reader N :=
  read_separator "."%ch i (read_number 10 3 false 255).

Definition read_ipv4_addr : reader Ipv4Addr := fun s =>
  match read_octet 0 s with
  | None => None
  | Some (a, s) => match read_octet 1 s with
  | None => None
  | Some (b, s) => match read_octet 2 s with
  | None => None
  | Some (c, s) => match read_octet 3 s with
  | None => None
  | Some (d, s) => Some (mkV4 a b c d, s)
  end end end end.

(** [read_groups]: at most [limit] groups starting at index [i]; the groups
    read, whether they end in an embedded IPv4 address, and what is left. *)
Fixpoint read_groups (limit i : nat) (s : str) : list N * bool * str :=
  match limit with
  | O => ([], false, s)
  | S rest =>
      let v4 := match rest with
                | O => None
                | S _ => read_separator ":"%ch i read_ipv4_addr s
                end in
      match v4 with
      | Some (a, s') =>
          ([v4_a a * 256 + v4_b a; v4_c a * 256 + v4_d a], true, s')
      | None =>
          match read_separator ":"%ch i (read_number 16 4 true u16_max) s with
          | None => ([], false, s)
          | Some (g, s') =>
              let '(gs, v4, s'') := read_groups rest (S i) s' in (g :: gs, v4, s'')
          end
      end
  end.

Definition read_ipv6_addr : reader Ipv6Addr := fun s =>
  let '(head, head_ipv4, s) := read_groups 8 0 s in
  if (length head =? 8)%nat then Some (mkV6 head, s)
  else if head_ipv4 then None
  else match s with
       | c1 :: c2 :: s =>
           if (c1 =? ":"%ch) && (c2 =? ":"%ch) then
             let '(tail, _, s) := read_groups (7 - length head) 0 s in
             Some (mkV6 (head ++ replicate (8 - length head - length tail) 0 ++ tail), s)
           else None
       | _ => None
       end.

(** [<IpAddr as FromStr>::from_str] *)
Definition parse_ip (s : str) : option IpAddr :=
  let r := match read_ipv4_addr s with
           | Some (a, s') => Some (V4 a, s')
           | None => match read_ipv6_addr s with Some (a, s') => Some (V6 a, s') | None => None end
           end in
  match r with Some (a, []) => Some a | _ => None end.

(** ** [net.rs] *)

Definition is_lan_source_v4 (v4 : Ipv4Addr) : bool :=
  v4_is_loopback v4 || v4_is_private v4 || v4_is_link_local v4.

Definition is_lan_source (ip : IpAddr) : bool :=
  match ip with
  | V4 v4 => is_lan_source_v4 v4
  | V6 v6 => v6_is_loopback v6
             || match v6_to_ipv4_mapped v6 with Some v4 => is_lan_source_v4 v4 | None => false end
  end.

(** ** Lemmas *)

Definition v4_valid (a : Ipv4Addr) : Prop := v4_a a < 256 /\ v4_b a < 256 /\ v4_c a < 256 /\ v4_d a < 256.

(** The address as the 32-bit number it is. *)
Definition v4_bits (a : Ipv4Addr) : N :=
  v4_a a * 16777216 + v4_b a * 65536 + v4_c a * 256 + v4_d a.

(** [bits] lies in the CIDR block [base/prefix]. *)
Definition in_cidr (base prefix bits : N) : bool := bits / 2 ^ (32 - prefix) =? base / 2 ^ (32 - prefix).

(** Over IPv4, LAN mode serves exactly loopback 127/8, the RFC 1918 blocks
    10/8, 172.16/12 and 192.168/16, and link-local 169.254/16: CGNAT and every
    public address are refused. *)
Theorem is_lan_source_v4_blocks a (Ha : v4_valid a) :
  is_lan_source (V4 a) = true <->
  in_cidr 0x7F000000 8 (v4_bits a) = true \/ in_cidr 0x0A000000 8 (v4_bits a) = true \/
  in_cidr 0xAC100000 12 (v4_bits a) = true \/ in_cidr 0xC0A80000 16 (v4_bits a) = true \/
  in_cidr 0xA9FE0000 16 (v4_bits a) = true.
Proof.
  destruct a as [a b c d]. destruct Ha as (Ha & Hb & Hc & Hd). simpl in *.
  unfold is_lan_source, is_lan_source_v4, v4_is_loopback, v4_is_private, v4_is_link_local,
    in_cidr, v4_bits. simpl.
  change (2 ^ (32 - 8)) with 16777216. change (2 ^ (32 - 12)) with 1048576.
  change (2 ^ (32 - 16)) with 65536. lia.
Qed.

Lemma is_lan_source_v4_blocks_witness : is_lan_source (V4 (mkV4 172 31 255 254)) = true.
Proof.
  apply is_lan_source_v4_blocks; [repeat split; vm_compute; reflexivity|].
  right. right. left. vm_compute. reflexivity.
Defined.

(** Characters an address text can contain. *)
Definition ip_char (c : N) : bool :=
  match hex_digit c with Some _ => true | None => (c =? ":"%ch) || (c =? "."%ch) end.

(** A reader only consumes address characters. *)
Definition reads_ip {A} (p : reader A) : Prop :=
  forall s a r, p s = Some (a, r) -> exists q, s = q ++ r /\ Forall (fun c => ip_char c = true) q.
(** A reader does not see the case of letters. *)
Definition case_blind {A} (p : reader A) : Prop :=
  forall s, p (to_ascii_lowercase s) =
    match p s with Some (a, r) => Some (a, to_ascii_lowercase r) | None => None end.

Lemma hex_digit_lower c : hex_digit (lower_char c) = hex_digit c.
Proof.
  unfold hex_digit, lower_char. char_unfold.
  repeat match goal with
  | |- context [if ?b then _ else _] => destruct b eqn:?
  | H : context [if ?b then _ else _] |- _ => destruct b eqn:?
  end; try lia; try (f_equal; lia).
Qed.

Lemma read_digits_ip radix s k acc count v r :
  read_digits radix k acc s = (count, v, r) ->
  exists q, s = q ++ r /\ Forall (fun c => ip_char c = true) q.
Proof.
  revert k acc; induction s as [|c s IH]; intros k acc; simpl.
  - intros [= <- <- <-]. by exists [].
  - destruct (radix_digit radix c) as [d|] eqn:E; [|intros [= <- <- <-]; by exists []].
    intros H. destruct (IH _ _ H) as (q & -> & Hq). exists (c :: q). split; [done|].
    constructor; [|done]. unfold radix_digit in E. unfold ip_char. by destruct (hex_digit c).
Qed.

Lemma read_digits_lower radix s k acc :
  read_digits radix k acc (to_ascii_lowercase s) =
  let '(count, v, r) := read_digits radix k acc s in (count, v, to_ascii_lowercase r).
Proof.
  revert k acc; induction s as [|c s IH]; intros k acc; [done|].
  cbn [read_digits to_ascii_lowercase map]. unfold radix_digit. rewrite hex_digit_lower.
  destruct (hex_digit c) as [d|]; [|done]. destruct (d <? radix); [|done]. apply IH.
Qed.

Lemma read_number_ip radix md az max : reads_ip (read_number radix md az max).
Proof.
  intros s a r H. unfold read_number in H. destruct (read_digits radix 0 0 s) as [[count v] r'] eqn:E.
  repeat case_match; simplify_eq/=; eauto using read_digits_ip.
Qed.

Lemma lower_head_eq c d : is_ascii_lowercase d = false -> is_ascii_uppercase d = false ->
  (lower_char c =? d) = (c =? d).
Proof.
  intros Hl Hu. apply Bool.eq_iff_eq_true. rewrite !N.eqb_eq. by apply lower_char_eq.
Qed.

Lemma read_number_lower radix md az max : case_blind (read_number radix md az max).
Proof.
  intros s. unfold read_number. rewrite read_digits_lower.
  destruct (read_digits radix 0 0 s) as [[count v] r].
  replace (match to_ascii_lowercase s with c :: _ => c =? "0"%ch | [] => false end)
    with (match s with c :: _ => c =? "0"%ch | [] => false end);
    [by repeat case_match|].
  destruct s; [done|]. simpl. by rewrite lower_head_eq.
Qed.

Lemma read_separator_ip {A} sep i (p : reader A) :
  ip_char sep = true -> reads_ip p -> reads_ip (read_separator sep i p).
Proof.
  intros Hsep Hp s a r. unfold read_separator. destruct i; [apply Hp|].
  destruct s as [|c s]; [done|]. destruct (c =? sep) eqn:E; [|done]. bprop. subst.
  intros (q & -> & Hq)%Hp. exists (sep :: q). split; [done|by constructor].
Qed.

Lemma read_separator_lower {A} sep i (p : reader A) :
  is_ascii_lowercase sep = false -> is_ascii_uppercase sep = false ->
  case_blind p -> case_blind (read_separator sep i p).
Proof.
  intros Hl Hu Hp s. unfold read_separator. destruct i; [apply Hp|].
  destruct s as [|c s]; [done|]. cbn [to_ascii_lowercase map]. rewrite lower_head_eq by done.
  destruct (c =? sep); [apply Hp|done].
Qed.

Lemma read_ipv4_ip : reads_ip read_ipv4_addr.
Proof.
  intros s x r H. unfold read_ipv4_addr in H.
  assert (forall i, reads_ip (read_octet i)) as Ho
    by (intros i; apply read_separator_ip; [done|apply read_number_ip]).
  destruct (read_octet 0 s) as [[a s1]|] eqn:E1; [|done]. apply Ho in E1 as (q1 & -> & H1).
  destruct (read_octet 1 s1) as [[b s2]|] eqn:E2; [|done]. apply Ho in E2 as (q2 & -> & H2).
  destruct (read_octet 2 s2) as [[c s3]|] eqn:E3; [|done]. apply Ho in E3 as (q3 & -> & H3).
  destruct (read_octet 3 s3) as [[d s4]|] eqn:E4; [|done]. apply Ho in E4 as (q4 & -> & H4).
  injection H as _ <-. exists (q1 ++ q2 ++ q3 ++ q4). rewrite <- !app_assoc. split; [done|].
  by repeat (apply Forall_app; split).
Qed.

Lemma read_ipv4_lower : case_blind read_ipv4_addr.
Proof.
  intros s. unfold read_ipv4_addr.
  assert (forall i, case_blind (read_octet i)) as Ho
    by (intros i; apply read_separator_lower; [done|done|apply read_number_lower]).
  rewrite Ho. destruct (read_octet 0 s) as [[a s1]|]; [|done].
  rewrite Ho. destruct (read_octet 1 s1) as [[b s2]|]; [|done].
  rewrite Ho. destruct (read_octet 2 s2) as [[c s3]|]; [|done].
  rewrite Ho. by destruct (read_octet 3 s3) as [[d s4]|].
Qed.

Lemma read_groups_ip limit i s gs v4 r :
  read_groups limit i s = (gs, v4, r) -> exists q, s = q ++ r /\ Forall (fun c => ip_char c = true) q.
Proof.
  revert i s gs v4 r; induction limit as [|n IH]; intros i s gs v4 r; simpl.
  - intros [= <- <- <-]. by exists [].
  - set (o := match n with O => None | S _ => _ end).
    destruct o as [[a s']|] eqn:Eo.
    + intros [= <- <- <-]. destruct n; [done|].
      eapply (read_separator_ip ":"%ch i); [done|apply read_ipv4_ip|exact Eo].
    + destruct (read_separator _ i (read_number _ _ _ _) s) as [[g s']|] eqn:E;
        [|intros [= <- <- <-]; by exists []].
      apply read_separator_ip in E as (q1 & -> & H1); [|done|apply read_number_ip].
      destruct (read_groups n (S i) s') as [[gs' v4'] s''] eqn:Er. intros [= <- <- <-].
      destruct (IH _ _ _ _ _ Er) as (q2 & -> & H2). exists (q1 ++ q2).
      rewrite <- app_assoc. split; [done|]. by apply Forall_app.
Qed.

Lemma read_groups_lower limit i s :
  read_groups limit i (to_ascii_lowercase s) =
  let '(gs, v4, r) := read_groups limit i s in (gs, v4, to_ascii_lowercase r).
Proof.
  revert i s; induction limit as [|n IH]; intros i s; [done|]. cbn [read_groups].
  assert (case_blind (read_separator ":"%ch i read_ipv4_addr)) as H4
    by (apply read_separator_lower; [done|done|apply read_ipv4_lower]).
  assert (case_blind (read_separator ":"%ch i (read_number 16 4 true u16_max))) as H6
    by (apply read_separator_lower; [done|done|apply read_number_lower]).
  rewrite H4, H6.
  destruct n as [|n'] eqn:En; [|destruct (read_separator ":"%ch i read_ipv4_addr s) as [[a s']|]; [done|]];
    rewrite <- En in *;
    (destruct (read_separator _ i (read_number _ _ _ _) s) as [[g s']|]; [|done]);
    rewrite IH; by destruct (read_groups n (S i) s') as [[? ?] ?].
Qed.

Lemma read_ipv6_ip : reads_ip read_ipv6_addr.
Proof.
  intros s x r H. unfold read_ipv6_addr in H.
  destruct (read_groups 8 0 s) as [[hd v4] s1] eqn:E1. apply read_groups_ip in E1 as (q1 & -> & H1).
  destruct (length hd =? 8)%nat; [injection H as _ <-; eauto|]. destruct v4; [done|].
  destruct s1 as [|c1 [|c2 s2]]; [done|done|].
  destruct ((c1 =? ":"%ch) && (c2 =? ":"%ch)) eqn:E; [|done]. bprop. subst.
  destruct (read_groups (7 - length hd) 0 s2) as [[tl v4'] s3] eqn:E2.
  apply read_groups_ip in E2 as (q2 & -> & H2). injection H as _ <-.
  exists (q1 ++ "::"%str ++ q2). rewrite <- app_assoc. split; [done|].
  apply Forall_app. split; [done|]. by repeat constructor.
Qed.

Lemma read_ipv6_lower : case_blind read_ipv6_addr.
Proof.
  intros s. unfold read_ipv6_addr. rewrite read_groups_lower.
  destruct (read_groups 8 0 s) as [[hd v4] s1]. destruct (length hd =? 8)%nat; [done|].
  destruct v4; [done|]. destruct s1 as [|c1 [|c2 s2]]; [done|done|].
  cbn [to_ascii_lowercase map]. rewrite !lower_head_eq by done.
  destruct ((c1 =? ":"%ch) && (c2 =? ":"%ch)); [|done].
  fold (to_ascii_lowercase s2). rewrite read_groups_lower.
  by destruct (read_groups (7 - length hd) 0 s2) as [[? ?] ?].
Qed.

Lemma parse_ip_lower s : parse_ip (to_ascii_lowercase s) = parse_ip s.
Proof.
  unfold parse_ip. rewrite read_ipv4_lower, read_ipv6_lower.
  destruct (read_ipv4_addr s) as [[a r]|]; [by destruct r|].
  destruct (read_ipv6_addr s) as [[a r]|]; [by destruct r|done].
Qed.

Lemma parse_ip_chars s a : parse_ip s = Some a -> Forall (fun c => ip_char c = true) s.
Proof.
  unfold parse_ip. destruct (read_ipv4_addr s) as [[x r]|] eqn:E4.
  - destruct r; [|done]. intros _. apply read_ipv4_ip in E4 as (q & -> & Hq). by rewrite app_nil_r.
  - destruct (read_ipv6_addr s) as [[x r]|] eqn:E6; [|done].
    destruct r; [|done]. intros _. apply read_ipv6_ip in E6 as (q & -> & Hq). by rewrite app_nil_r.
Qed.

Example ipv6_fmt_examples :
  map Ipv6Addr_fmt [mkV6 [0;0;0;0;0;0;0;1]; mkV6 [8193;3512;0;0;1;0;0;1]; mkV6 [65152;0;1;0;1;0;1;255];
                    mkV6 [0;0;0;0;0;65535;32512;1]]
  = ["::1"; "2001:db8::1:0:0:1"; "fe80:0:1:0:1:0:1:ff"; "::ffff:127.0.0.1"]%str.
Proof. by vm_compute. Qed.
