(* ===== verification/Site.v ===== *)
(** * Sites

    [src/crates/orcker-core/src/site.rs]: the routable site, its validated name,
    the served root that never leaves the document root, and the two ways a
    directory name becomes a site name. *)

From S2P Require Import Prelude RustStr RustPath CoreError DnsLabel Tld Php.

Open Scope N_scope.

Inductive SiteKind := Parked | Linked.
#[export] Instance SiteKind_eq_dec : EqDecision SiteKind.
Proof. solve_decision. Defined.

Record Site := mkSite {
  site_name : str;
  site_document_root : str;
  site_web_subpath : str;
  site_php : PhpVersion;
  site_secure : bool;
  site_kind : SiteKind;
  site_wp_auto_login : bool;
  site_wp_auto_login_user : option str;
  site_front_controller : option bool;
}.
#[export] Instance Site_eq_dec : EqDecision Site.
Proof. solve_decision. Defined.

Definition site_err (name : str) (reason : SiteNameErrorReason) : CoreError :=
  InvalidSiteName name reason.

Definition validate_and_lowercase_name (raw : str) : result CoreError str :=
  if is_empty raw then Err (site_err raw NameEmpty)
  else if contains_char "." raw then Err (site_err raw NameContainsDot)
  else if negb (forallb (fun b => is_ascii b && (is_ascii_alphanumeric b || (b =? "-"%ch))) raw)
  then Err (site_err raw NameInvalidCharacter)
  else
    let lowered := to_ascii_lowercase raw in
    if starts_with "-" lowered || ends_with "-" lowered
    then Err (site_err raw NameLeadingOrTrailingHyphen)
    else if 63 <? len lowered then Err (site_err raw NameLabelTooLong)
    else Ok lowered.

Definition site_with_kind (k : SiteKind) (name document_root : str) (php : PhpVersion)
  : result CoreError Site :=
  name ← validate_and_lowercase_name name;
  Ok {| site_name := name; site_document_root := document_root; site_web_subpath := [];
        site_php := php; site_secure := false; site_kind := k; site_wp_auto_login := false;
        site_wp_auto_login_user := None; site_front_controller := None |}.
Definition Site_parked := site_with_kind Parked.
Definition Site_linked := site_with_kind Linked.

(** A path that can only resolve below the directory it is joined to. *)
Definition is_safe_relative (p : str) : bool :=
  forallb (fun c => match c with Normal _ | CurDir => true | _ => false end) (components p).

Definition served_root (s : Site) : str :=
  if is_empty (site_web_subpath s) || negb (is_safe_relative (site_web_subpath s))
  then site_document_root s
  else path_join (site_document_root s) (site_web_subpath s).

Definition uses_front_controller (s : Site) (is_wordpress : bool) : bool :=
  default (negb is_wordpress && negb (is_empty (site_web_subpath s))) (site_front_controller s).

(** The setters; there is none for the name. *)
Definition set_document_root (p : str) (s : Site) : Site :=
  mkSite (site_name s) p (site_web_subpath s) (site_php s) (site_secure s) (site_kind s)
    (site_wp_auto_login s) (site_wp_auto_login_user s) (site_front_controller s).
Definition set_web_subpath (p : str) (s : Site) : Site :=
  mkSite (site_name s) (site_document_root s) p (site_php s) (site_secure s) (site_kind s)
    (site_wp_auto_login s) (site_wp_auto_login_user s) (site_front_controller s).
Definition set_php (v : PhpVersion) (s : Site) : Site :=
  mkSite (site_name s) (site_document_root s) (site_web_subpath s) v (site_secure s) (site_kind s)
    (site_wp_auto_login s) (site_wp_auto_login_user s) (site_front_controller s).
Definition set_secure (b : bool) (s : Site) : Site :=
  mkSite (site_name s) (site_document_root s) (site_web_subpath s) (site_php s) b (site_kind s)
    (site_wp_auto_login s) (site_wp_auto_login_user s) (site_front_controller s).
Definition set_kind (k : SiteKind) (s : Site) : Site :=
  mkSite (site_name s) (site_document_root s) (site_web_subpath s) (site_php s) (site_secure s) k
    (site_wp_auto_login s) (site_wp_auto_login_user s) (site_front_controller s).
Definition set_wp_auto_login (b : bool) (s : Site) : Site :=
  mkSite (site_name s) (site_document_root s) (site_web_subpath s) (site_php s) (site_secure s)
    (site_kind s) b (site_wp_auto_login_user s) (site_front_controller s).
Definition set_wp_auto_login_user (u : option str) (s : Site) : Site :=
  mkSite (site_name s) (site_document_root s) (site_web_subpath s) (site_php s) (site_secure s)
    (site_kind s) (site_wp_auto_login s) u (site_front_controller s).
Definition set_front_controller (f : option bool) (s : Site) : Site :=
  mkSite (site_name s) (site_document_root s) (site_web_subpath s) (site_php s) (site_secure s)
    (site_kind s) (site_wp_auto_login s) (site_wp_auto_login_user s) f.

(** One character of [slugify_site_name]'s loop. *)
Definition slug_step (out : str) (ch : N) : str :=
  if is_ascii_alphanumeric ch then out ++ [lower_char ch]
  else if negb (is_empty out) && negb (ends_with "-" out) then out ++ "-"%str
  else out.

(** [while out.ends_with('-') { out.pop(); }] *)
Definition pop_hyphens (s : str) : str := trim_end_matches (N.eqb "-"%ch) s.

Definition slugify_site_name (raw : str) : option str :=
  let out := pop_hyphens (foldl slug_step [] raw) in
  if is_empty out then None
  else
    let out := if 63 <? vlen out then pop_hyphens (take 63 out) else out in
    if is_empty out then None else Some out.

Definition normalize_site_name (raw : str) : option str :=
  match validate_and_lowercase_name raw with
  | Ok name => Some name
  | Err _ => slugify_site_name raw
  end.

(** ** Lemmas on names *)

Lemma name_chars_lower raw :
  forallb (fun b => is_ascii b && (is_ascii_alphanumeric b || (b =? "-"%ch))) raw = true <->
  Forall (fun c => label_char c = true) (to_ascii_lowercase raw).
Proof.
  rewrite forallb_Forall. unfold to_ascii_lowercase. rewrite Forall_map.
  assert (forall b, is_ascii b && (is_ascii_alphanumeric b || (b =? "-"%ch)) = label_char (lower_char b))
    as Hb by (intros b; unfold label_char; char_cases).
  split; intros H; (eapply Forall_impl; [exact H|]); intros b; simpl; by rewrite Hb.
Qed.

Lemma validate_name_spec raw n :
  validate_and_lowercase_name raw = Ok n <-> dns_label n = true /\ to_ascii_lowercase raw = n.
Proof.
  unfold validate_and_lowercase_name. destruct (is_empty raw) eqn:E0.
  { apply is_empty_true in E0. subst. split; [done|]. by intros [H <-]. }
  assert (is_empty (to_ascii_lowercase raw) = false) as El by by destruct raw.
  destruct (contains_char "." raw) eqn:E1.
  { split; [done|]. intros [H <-]. apply contains_char_spec in E1.
    exfalso. eapply (dns_label_no_char _ "."%ch H); [done|]. by apply elem_of_lower. }
  pose proof (name_chars_lower raw) as Hc.
  destruct (forallb _ raw) eqn:E2; simpl.
  - destruct Hc as [Hc _]. specialize (Hc eq_refl).
    assert (len (to_ascii_lowercase raw) = vlen (to_ascii_lowercase raw)) as Hlen.
    { apply len_ascii. eapply Forall_impl; [exact Hc|]. intros c Hl. apply label_char_props in Hl. tauto. }
    apply forallb_Forall in Hc. unfold dns_label.
    destruct (starts_with "-" _ || ends_with "-" _) eqn:E3.
    { split; [done|]. intros [Hx <-]. rewrite E3 in Hx. simpl in Hx. by rewrite andb_false_r in Hx. }
    apply orb_false_iff in E3 as [Es Ee].
    rewrite Hlen. destruct (63 <? vlen _) eqn:E4; bprop.
    { split; [done|]. intros [Hx <-]. bprop. lia. }
    split; [|naive_solver]. intros [= <-]. split; [|done].
    rewrite El, Hc, Es, Ee. simpl. rewrite !andb_true_r. by apply N.leb_le.
  - split; [done|]. intros [H <-]. by apply dns_label_chars, Hc in H.
Qed.

Lemma validate_name_stable n : dns_label n = true -> validate_and_lowercase_name n = Ok n.
Proof. intros H. apply validate_name_spec. split; [done|]. by apply dns_label_lower. Qed.

Definition is_hyphen (c : N) : bool := "-"%ch =? c.

(** What the slug loop maintains: label characters, no leading hyphen and no
    two hyphens in a row. *)
Definition no_double (s : str) : Prop := forall a b, s <> a ++ "--"%str ++ b.
Definition slug_inv (s : str) : Prop :=
  Forall (fun c => label_char c = true) s /\ starts_with "-" s = false /\ no_double s.

Lemma ends_with_hyphen_snoc s c : ends_with "-" (s ++ [c]) = is_hyphen c.
Proof.
  unfold ends_with, strip_suffix, is_hyphen. rewrite rev_app_distr. simpl.
  by destruct ("-"%ch =? c).
Qed.

Lemma starts_with_app_ne c p s : s <> [] -> starts_with [c] (s ++ p) = starts_with [c] s.
Proof. destruct s as [|d s]; [done|]. intros _. unfold starts_with. simpl. by destruct (c =? d). Qed.

Lemma no_double_snoc s c :
  no_double s -> (is_hyphen c = true -> ends_with "-" s = false) -> no_double (s ++ [c]).
Proof.
  intros Hs Hc a b H. destruct (decide (b = [])) as [->|Hb].
  - rewrite app_nil_r in H. replace (a ++ "--"%str) with ((a ++ "-"%str) ++ "-"%str) in H
      by by rewrite <- app_assoc.
    apply app_inj_tail in H as [-> ->]. specialize (Hc eq_refl).
    assert (ends_with "-" (a ++ "-"%str) = true); [|congruence]. apply ends_with_spec; eauto.
  - destruct (exists_last Hb) as (b' & d & ->). rewrite !app_assoc in H.
    apply app_inj_tail in H as [H _]. rewrite <- app_assoc in H. by apply (Hs a b').
Qed.

Lemma slug_step_inv s c : slug_inv s -> slug_inv (slug_step s c).
Proof.
  intros (Hc & Hs & Hd). unfold slug_step.
  destruct (is_ascii_alphanumeric c) eqn:Ea.
  - assert (label_char (lower_char c) = true /\ is_hyphen (lower_char c) = false) as [Hl Hh].
    { unfold label_char, is_hyphen. char_cases. }
    split; [apply Forall_app; by repeat constructor|]. split.
    + destruct s as [|d s]; [|by rewrite starts_with_app_ne].
      unfold starts_with, is_hyphen in *. simpl in *. by rewrite Hh.
    + apply no_double_snoc; [done|congruence].
  - destruct (negb (is_empty s) && negb (ends_with "-" s)) eqn:E; [|done]. bprop.
    split; [apply Forall_app; by repeat constructor|]. split.
    + rewrite starts_with_app_ne; [done|by apply is_empty_false].
    + by apply no_double_snoc.
Qed.

Lemma slug_fold_inv raw s : slug_inv s -> slug_inv (foldl slug_step s raw).
Proof. revert s; induction raw; simpl; auto using slug_step_inv. Qed.

Lemma slug_inv_nil : slug_inv [].
Proof. split; [done|]. split; [done|]. intros a b H. by destruct a. Qed.

Lemma slug_inv_prefix a b : slug_inv (a ++ b) -> slug_inv a.
Proof.
  intros (Hc & Hs & Hd). apply Forall_app in Hc as [Hc _]. split; [done|]. split.
  - destruct a; [done|]. by rewrite starts_with_app_ne in Hs.
  - intros x y ->. apply (Hd x (y ++ b)). by rewrite <- !app_assoc.
Qed.

Lemma drop_while_spec {A} (p : A -> bool) s :
  exists a, s = a ++ drop_while p s /\ Forall (fun c => p c = true) a /\
    forall c r, drop_while p s = c :: r -> p c = false.
Proof.
  induction s as [|c s (a & Hs & Ha & Hr)]; simpl; [by exists []|].
  destruct (p c) eqn:E.
  - exists (c :: a). rewrite Hs at 1. split; [done|]. split; [by constructor|done].
  - exists []. split; [done|]. split; [done|]. by intros ? ? [= <- <-].
Qed.

Lemma pop_hyphens_spec s :
  exists h, s = pop_hyphens s ++ h /\ Forall (fun c => is_hyphen c = true) h /\
    ends_with "-" (pop_hyphens s) = false.
Proof.
  unfold pop_hyphens, trim_end_matches.
  destruct (drop_while_spec is_hyphen (rev s)) as (a & Hs & Ha & Hr). fold is_hyphen.
  change (N.eqb "-"%ch) with is_hyphen.
  exists (rev a). split; [|split].
  - rewrite <- rev_app_distr, <- Hs. by rewrite rev_involutive.
  - apply Forall_rev. exact Ha.
  - destruct (drop_while is_hyphen (rev s)) as [|c r]; [done|]. simpl.
    rewrite ends_with_hyphen_snoc. eauto.
Qed.

Lemma pop_hyphens_ne s : s <> [] -> starts_with "-" s = false -> pop_hyphens s <> [].
Proof.
  intros Hne Hs He. destruct (pop_hyphens_spec s) as (h & Hh & Ha & _).
  rewrite He in Hh. simpl in Hh. subst h. destruct s as [|c s]; [done|]. inv Ha.
  unfold starts_with in Hs. simpl in Hs. unfold is_hyphen in *. by rewrite H1 in Hs.
Qed.

Lemma slug_inv_label s :
  slug_inv s -> s <> [] -> vlen s <= 63 -> ends_with "-" s = false -> dns_label s = true.
Proof.
  intros (Hc & Hs & _) Hne Hl He. unfold dns_label. rewrite Hs, He.
  rewrite (proj2 (forallb_Forall _ _) Hc), (proj2 (is_empty_false s) Hne). simpl.
  rewrite !andb_true_r. by apply N.leb_le.
Qed.

Lemma slug_fold_empty raw s :
  foldl slug_step s raw = [] <-> s = [] /\ Forall (fun c => is_ascii_alphanumeric c = false) raw.
Proof.
  revert s; induction raw as [|c raw IH]; intros s; simpl; [naive_solver|].
  rewrite IH, Forall_cons. unfold slug_step.
  destruct (is_ascii_alphanumeric c) eqn:E.
  - split; [intros [H _]; by destruct s|]. naive_solver.
  - destruct s as [|d s]; simpl; [naive_solver|].
    destruct (negb (ends_with "-" (d :: s))); split; intros [H _]; done.
Qed.

Lemma slugify_spec raw :
  match slugify_site_name raw with
  | Some s => dns_label s = true /\ no_double s
  | None => Forall (fun c => is_ascii_alphanumeric c = false) raw
  end.
Proof.
  unfold slugify_site_name. set (f := foldl slug_step [] raw).
  assert (slug_inv f) as Hf by apply slug_fold_inv, slug_inv_nil.
  destruct (decide (f = [])) as [E|Hne].
  { rewrite E. simpl. by apply slug_fold_empty in E as [_ E]. }
  assert (pop_hyphens f <> []) as Hp by (apply pop_hyphens_ne; [done|apply Hf]).
  rewrite (proj2 (is_empty_false _) Hp).
  destruct (pop_hyphens_spec f) as (h & Hh & _ & He).
  assert (slug_inv (pop_hyphens f)) as Hi by (rewrite Hh in Hf; by apply slug_inv_prefix in Hf).
  destruct (63 <? vlen (pop_hyphens f)) eqn:El; bprop.
  - set (p := pop_hyphens f) in *. set (t := take 63 p).
    assert (slug_inv t) as Ht.
    { apply (slug_inv_prefix t (drop 63 p)). unfold t. by rewrite take_drop. }
    assert (t <> []) as Htn.
    { unfold t. destruct p; [done|]. done. }
    assert (pop_hyphens t <> []) as Hpt by (apply pop_hyphens_ne; [done|apply Ht]).
    rewrite (proj2 (is_empty_false _) Hpt).
    destruct (pop_hyphens_spec t) as (h' & Hh' & _ & He').
    assert (slug_inv (pop_hyphens t)) as Hit by (rewrite Hh' in Ht; by apply slug_inv_prefix in Ht).
    split; [|apply Hit]. apply slug_inv_label; try done.
    assert (length (pop_hyphens t) <= length t)%nat by (rewrite Hh' at 2; rewrite length_app; lia).
    unfold t in *. rewrite length_take in *. unfold vlen. lia.
  - rewrite (proj2 (is_empty_false _) Hp). split; [by apply slug_inv_label|apply Hi].
Qed.

(** A site name is accepted exactly when its lowercase form is one DNS label,
    and that form is what is stored. *)
Theorem site_name_accepts_exactly raw n :
  validate_and_lowercase_name raw = Ok n <-> dns_label n = true /\ to_ascii_lowercase raw = n.
Proof. apply validate_name_spec. Qed.

(** Auto-naming: the slug of any text is a DNS label without doubled hyphens
    that the strict validator accepts unchanged, and there is no slug only when
    the text has no ASCII letter or digit at all; normalising keeps a name the
    validator accepts and otherwise gives the slug. *)
Theorem slugify_is_valid_name raw :
  match slugify_site_name raw with
  | Some s => dns_label s = true /\ no_double s /\ validate_and_lowercase_name s = Ok s
  | None => Forall (fun c => is_ascii_alphanumeric c = false) raw
  end /\
  match normalize_site_name raw with
  | Some n => dns_label n = true /\
      (validate_and_lowercase_name raw = Ok n \/ slugify_site_name raw = Some n)
  | None => Forall (fun c => is_ascii_alphanumeric c = false) raw
  end.
Proof.
  pose proof (slugify_spec raw) as Hs. split.
  - destruct (slugify_site_name raw); [|done]. destruct Hs. auto using validate_name_stable.
  - unfold normalize_site_name. destruct (validate_and_lowercase_name raw) as [n|e] eqn:E.
    + apply validate_name_spec in E as [E <-]. auto.
    + destruct (slugify_site_name raw); [|done]. destruct Hs. auto.
Qed.

Lemma normalize_label raw n : normalize_site_name raw = Some n -> dns_label n = true.
Proof.
  unfold normalize_site_name. destruct (validate_and_lowercase_name raw) as [m|] eqn:E.
  - intros [= <-]. by apply validate_name_spec in E as [? _].
  - intros H. pose proof (slugify_spec raw) as Hs. rewrite H in Hs. by destruct Hs.
Qed.

Lemma normalize_label_id n : dns_label n = true -> normalize_site_name n = Some n.
Proof. intros H. unfold normalize_site_name. by rewrite validate_name_stable. Qed.

(** ** Containment of the served root *)

Lemma safe_relative_segments p :
  is_safe_relative p = true ->
  is_absolute p = false /\
  Forall (fun c => exists n, c = Normal n) (omap segment_component (split_char slash p)).
Proof.
  unfold is_safe_relative, components. rewrite forallb_app. intros H. bprop. split.
  - unfold is_absolute. by destruct (starts_with "/" p).
  - rewrite forallb_Forall in H0. revert H0. generalize (split_char slash p). intros l.
    induction l as [|w l IH]; [done|]. simpl.
    assert (forall c, segment_component w = Some c -> c = ParentDir \/ exists n, c = Normal n) as Hc.
    { intros c. unfold segment_component. repeat case_match; naive_solver. }
    destruct (segment_component w) as [c|]; [|exact IH]. rewrite !Forall_cons. intros [Hw Hl].
    split; [|by apply IH]. destruct (Hc c eq_refl) as [->|?]; done.
Qed.

(** The served root never escapes the document root, whatever the stored
    subpath: its components are those of the document root followed only by
    plain names (no [..] and no second root). *)
Theorem served_root_contained s :
  exists rest, components (served_root s) = components (site_document_root s) ++ rest /\
    Forall (fun c => exists n, c = Normal n \/ c = CurDir) rest.
Proof.
  unfold served_root. destruct (is_empty (site_web_subpath s)) eqn:E0; simpl.
  { exists []. rewrite app_nil_r. by split. }
  destruct (is_safe_relative (site_web_subpath s)) eqn:E1; simpl.
  2:{ exists []. rewrite app_nil_r. by split. }
  pose proof (safe_relative_segments _ E1) as [Habs Hseg].
  destruct (decide (site_document_root s = [])) as [Hd|Hd].
  - rewrite Hd. unfold path_join. rewrite Habs. simpl. exists (components (site_web_subpath s)).
    split; [done|]. unfold is_safe_relative in E1. rewrite forallb_Forall in E1.
    eapply Forall_impl; [exact E1|]. intros [| | |n]; try done; intros _; [by exists []; right|].
    exists n. by left.
  - rewrite components_join by done. eexists. split; [done|].
    eapply Forall_impl; [exact Hseg|]. intros c (n & ->). exists n. by left.
Qed.
