(* ===== verification/Proxy.v ===== *)
(** * Reverse-proxy targets, rules and whole-host proxies

    [src/crates/orcker-core/src/proxy.rs]: the validated upstream, path-prefix
    rules with their longest-prefix match, and the whole-host proxy.  The twin
    matcher for local routing rules ([route_rule.rs] and
    [src/crates/orcker-proxy/src/pure/route_rules.rs]) is here too: the source
    keeps both copies, and so does the model. *)

From S2P Require Import Prelude RustStr RustText RustPath CoreError DnsLabel Tld Domain Net Site.

Open Scope N_scope.

Record UpstreamTarget := mkTarget { target_secure : bool; target_host : str; target_port : N }.
#[export] Instance UpstreamTarget_eq_dec : EqDecision UpstreamTarget.
Proof. solve_decision. Defined.

Definition split_host_port (rest : str) (default_port : N) : option (str * N) :=
  match strip_prefix "[" rest with
  | Some inner =>
      '(host, after) ← split_once "]" inner;
      port ← (if is_empty after then Some default_port
              else p ← strip_prefix ":" after; parse_uint u16_max p);
      Some (host, port)
  | None =>
      let n := count_char ":" rest in
      if n =? 0 then Some (rest, default_port)
      else if n =? 1 then
        '(host, p) ← rsplit_once ":" rest;
        port ← parse_uint u16_max p;
        Some (host, port)
      else None
  end.

Definition host_char (b : N) : bool :=
  is_ascii_alphanumeric b || (b =? "-"%ch) || (b =? "."%ch) || (b =? "_"%ch).

Definition is_valid_host (host : str) : bool :=
  if match parse_ip host with Some _ => true | None => false end then true
  else if is_empty host || starts_with "." host || ends_with "." host then false
  else forallb host_char host.

Definition from_url_str (input : str) : result CoreError UpstreamTarget :=
  let raw := trim input in
  let reason r := InvalidUpstreamTarget input r in
  if is_empty raw then Err (reason UpstreamEmpty)
  else
    '(scheme, rest) ← ok_or (reason UpstreamMissingScheme) (split_once_str "://" raw);
    secure ← (if str_eqb (to_ascii_lowercase scheme) "http" then Ok false
              else if str_eqb (to_ascii_lowercase scheme) "https" then Ok true
              else Err (reason UpstreamUnsupportedScheme));
    if contains_char "@" rest then Err (reason UpstreamHasCredentials)
    else if contains_char "/" rest || contains_char "?" rest || contains_char "#" rest
    then Err (reason UpstreamHasPathOrQuery)
    else
      let default_port := if (secure : bool) then 443 else 80 in
      '(host, port) ← ok_or (reason UpstreamInvalidPort) (split_host_port rest default_port);
      if is_empty host then Err (reason UpstreamMissingHost)
      else if negb (is_valid_host host) then Err (reason UpstreamInvalidHost)
      else if port =? 0 then Err (reason UpstreamInvalidPort)
      else Ok (mkTarget secure (to_ascii_lowercase host) port).

Definition server_name (t : UpstreamTarget) : str := target_host t.

Definition is_local (t : UpstreamTarget) (tld : str) : bool :=
  if str_eqb (target_host t) "localhost" then true
  else if str_eqb (target_host t) tld
          || match strip_suffix tld (target_host t) with
             | Some prefix => ends_with "." prefix
             | None => false
             end
  then true
  else match parse_ip (target_host t) with
       | Some (V4 v4) => v4_is_loopback v4 || v4_is_private v4 || v4_is_link_local v4
       | Some (V6 v6) =>
           if v6_is_loopback v6 then true
           else
             let seg0 := default 0 (head (v6_segments v6)) in
             let unique_local := N.land seg0 0xfe00 =? 0xfc00 in
             let link_local := N.land seg0 0xffc0 =? 0xfe80 in
             unique_local || link_local
       | None => false
       end.

Definition UpstreamTarget_fmt (t : UpstreamTarget) : str :=
  let scheme := if target_secure t then "https"%str else "http"%str in
  if contains_char ":" (target_host t)
  then scheme ++ "://["%str ++ target_host t ++ "]:"%str ++ show_uint (target_port t)
  else scheme ++ "://"%str ++ target_host t ++ ":"%str ++ show_uint (target_port t).
#[export] Instance UpstreamTarget_display : Display UpstreamTarget := UpstreamTarget_fmt.

(** ** Rules *)

(** [while normalized.len() > 1 && normalized.ends_with('/') { pop }] *)
Fixpoint pop_slashes (rev_s : str) : str :=
  match rev_s with
  | c :: ((_ :: _) as r) => if c =? "/"%ch then pop_slashes r else rev_s
  | _ => rev_s
  end.
Definition normalize_prefix (prefix : str) : str := rev (pop_slashes (rev prefix)).

Definition prefix_bad_char (c : N) : bool :=
  is_control c || (c =? " "%ch) || (c =? "?"%ch) || (c =? "#"%ch).

Record ProxyRule := mkRule { rule_prefix : str; rule_target : UpstreamTarget }.
#[export] Instance ProxyRule_eq_dec : EqDecision ProxyRule.
Proof. solve_decision. Defined.

Definition ProxyRule_new (prefix : str) (target : UpstreamTarget) : result CoreError ProxyRule :=
  let reason r := InvalidProxyRule prefix r in
  if is_empty prefix then Err (reason RuleEmpty)
  else if negb (starts_with "/" prefix) then Err (reason RuleNotAbsolute)
  else if existsb prefix_bad_char prefix then Err (reason RuleContainsControl)
  else if existsb (fun seg => str_eqb seg "..") (split_char "/" prefix)
  then Err (reason RuleContainsDotDot)
  else Ok (mkRule (normalize_prefix prefix) target).

(** The body both rule types share in the source. *)
Definition prefix_matches (prefix path : str) : bool :=
  if str_eqb prefix "/" then starts_with "/" path
  else str_eqb path prefix
       || match strip_prefix prefix path with Some rest => starts_with "/" rest | None => false end.

Definition rule_matches_path (r : ProxyRule) (path : str) : bool :=
  prefix_matches (rule_prefix r) path.

Definition match_rule (rules : list ProxyRule) (path : str) : option ProxyRule :=
  max_by_key (fun r => len (rule_prefix r)) (bfilter (fun r => rule_matches_path r path) rules).

Record RouteRule := mkRouteRule { route_prefix : str; route_target : str }.
#[export] Instance RouteRule_eq_dec : EqDecision RouteRule.
Proof. solve_decision. Defined.

Definition RouteRule_new (prefix target : str) : result CoreError RouteRule :=
  let prefix_err r := InvalidRouteRule prefix r in
  let target_err r := InvalidRouteRule target r in
  if is_empty prefix then Err (prefix_err RouteEmptyPrefix)
  else if negb (starts_with "/" prefix) then Err (prefix_err RoutePrefixNotAbsolute)
  else if existsb prefix_bad_char prefix then Err (prefix_err RoutePrefixContainsControl)
  else if existsb (fun seg => str_eqb seg "..") (split_char "/" prefix)
  then Err (prefix_err RoutePrefixContainsDotDot)
  else if is_empty target then Err (target_err RouteEmptyTarget)
  else if existsb is_control target || negb (is_safe_relative target)
  then Err (target_err RouteInvalidTarget)
  else Ok (mkRouteRule (normalize_prefix prefix) target).

Definition route_matches_path (r : RouteRule) (path : str) : bool :=
  prefix_matches (route_prefix r) path.

Definition match_route (rules : list RouteRule) (path : str) : option RouteRule :=
  max_by_key (fun r => len (route_prefix r)) (bfilter (fun r => route_matches_path r path) rules).

(** ** Whole-host proxies *)

Definition validate_proxy_name (raw : str) : result CoreError str :=
  let name reason := InvalidProxyName raw reason in
  parsed ← map_err (fun e => match e with
                             | InvalidDomain _ reason => name (ProxyNameShape reason)
                             | other => other
                             end) (Domain_parse_subpart raw);
  if is_wildcard parsed then Err (name ProxyNameWildcard)
  else Ok (Domain_as_str parsed).

Record ProxySite := mkProxySite { proxy_name : str; proxy_target : UpstreamTarget; proxy_secure : bool }.
#[export] Instance ProxySite_eq_dec : EqDecision ProxySite.
Proof. solve_decision. Defined.

Definition ProxySite_new (name : str) (target : UpstreamTarget) : result CoreError ProxySite :=
  name ← validate_proxy_name name;
  Ok (mkProxySite name target false).

Definition proxy_set_secure (secure : bool) (p : ProxySite) : ProxySite :=
  mkProxySite (proxy_name p) (proxy_target p) secure.

(** ** Lemmas on upstream targets *)

Lemma count_char_0 c s : c ∉ s -> count_char c s = 0.
Proof.
  unfold count_char. intros H. replace (bfilter (N.eqb c) s) with (@nil N); [done|].
  induction s as [|d s IH]; simpl; [done|]. destruct (c =? d) eqn:E; bprop; [set_solver|].
  apply IH. set_solver.
Qed.

Lemma count_char_app c a b : count_char c (a ++ b) = count_char c a + count_char c b.
Proof.
  unfold count_char. rewrite <- vlen_app. f_equal.
  induction a as [|d a IH]; simpl; [done|]. destruct (c =? d); by rewrite IH.
Qed.

Lemma show_uint_no_char n c : is_ascii_digit c = false -> c ∉ show_uint n.
Proof.
  intros Hc Hin. pose proof (show_uint_digits n) as Hd. rewrite Forall_forall in Hd.
  apply Hd in Hin. congruence.
Qed.

(** A stored host: lowercase, valid, non-empty. *)
Definition host_ok (h : str) : Prop :=
  h <> [] /\ is_valid_host h = true /\ to_ascii_lowercase h = h.

Lemma ip_char_class c : ip_char c = true -> is_ascii_alphanumeric c = true \/ c = ":"%ch \/ c = "."%ch.
Proof.
  unfold ip_char, hex_digit. intros H.
  destruct (is_ascii_digit c) eqn:E1; [left; char_unfold; lia|].
  destruct (in_range "a"%ch "f"%ch c) eqn:E2; [left; char_unfold; lia|].
  destruct (in_range "A"%ch "F"%ch c) eqn:E3; [left; char_unfold; lia|]. right. lia.
Qed.

Lemma host_ok_chars h :
  is_valid_host h = true ->
  Forall (fun c => host_char c = true \/ c = ":"%ch) h.
Proof.
  unfold is_valid_host. destruct (parse_ip h) as [a|] eqn:E.
  - intros _. apply parse_ip_chars in E. eapply Forall_impl; [exact E|].
    intros c [Hc|[->| ->]]%ip_char_class; [left|by right|by left].
    unfold host_char. by rewrite Hc.
  - destruct (_ || _); [done|]. rewrite forallb_Forall. intros H.
    eapply Forall_impl; [exact H|]. by left.
Qed.

Lemma host_ok_no_char h c :
  is_valid_host h = true -> host_char c = false -> c <> ":"%ch -> c ∉ h.
Proof.
  intros H%host_ok_chars Hc Hn Hin. rewrite Forall_forall in H. apply H in Hin.
  destruct Hin; congruence.
Qed.

Lemma host_char_lower c : host_char (lower_char c) = host_char c.
Proof. unfold host_char. char_cases. Qed.

Lemma is_valid_host_lower h : is_valid_host (to_ascii_lowercase h) = is_valid_host h.
Proof.
  unfold is_valid_host. rewrite parse_ip_lower. destruct (parse_ip h); [done|].
  destruct (lower_dot_edges h) as [-> ->].
  replace (is_empty (to_ascii_lowercase h)) with (is_empty h) by by destruct h.
  destruct (_ || _); [done|]. induction h as [|c h IH]; simpl; [done|].
  by rewrite host_char_lower, IH.
Qed.

Lemma from_url_str_ok s t :
  from_url_str s = Ok t -> host_ok (target_host t) /\ 0 < target_port t <= u16_max.
Proof.
  unfold from_url_str. intros H. destruct (is_empty (trim s)); [done|].
  destruct (split_once_str "://" (trim s)) as [[scheme rest]|]; simpl in H; [|done].
  destruct (if str_eqb _ "http" then _ else _) as [secure|]; simpl in H; [|done].
  destruct (contains_char "@" rest); [done|]. destruct (_ || _); [done|].
  destruct (split_host_port rest _) as [[host port]|] eqn:Ep; simpl in H; [|done].
  destruct (is_empty host) eqn:E1; [done|]. destruct (is_valid_host host) eqn:E2; simpl in H; [|done].
  destruct (port =? 0) eqn:E3; [done|]. bprop. injection H as <-. simpl. split; [split; [|split]|].
  - by destruct host.
  - by rewrite is_valid_host_lower.
  - apply lower_idem.
  - split; [lia|]. unfold split_host_port in Ep.
    destruct (strip_prefix "[" rest) as [inner|].
    + destruct (split_once "]" inner) as [[h af]|]; cbn [mbind option_bind] in Ep; [|discriminate Ep].
      destruct (is_empty af); cbn [mbind option_bind] in Ep.
      * injection Ep as _ <-. destruct secure; vm_compute; discriminate.
      * destruct (strip_prefix ":" af) as [p|]; cbn [mbind option_bind] in Ep; [|discriminate Ep].
        destruct (parse_uint u16_max p) eqn:Epp; cbn [mbind option_bind] in Ep; [|discriminate Ep].
        injection Ep as _ <-. by apply parse_uint_bound in Epp.
    + destruct (count_char ":" rest =? 0).
      * injection Ep as _ <-. destruct secure; vm_compute; discriminate.
      * destruct (count_char ":" rest =? 1); [|discriminate Ep].
        destruct (rsplit_once ":" rest) as [[h p]|]; cbn [mbind option_bind] in Ep; [|discriminate Ep].
        destruct (parse_uint u16_max p) eqn:Epp; cbn [mbind option_bind] in Ep; [|discriminate Ep].
        injection Ep as _ <-. by apply parse_uint_bound in Epp.
Qed.

(** Splitting a printed authority gives back the host and the port. *)
Lemma split_host_port_fmt h port dp :
  is_valid_host h = true -> port <= u16_max ->
  split_host_port (if contains_char ":" h then "["%str ++ h ++ "]:"%str ++ show_uint port
                   else h ++ ":"%str ++ show_uint port) dp = Some (h, port).
Proof.
  intros Hv Hp. unfold split_host_port. destruct (contains_char ":" h) eqn:E.
  - simpl strip_prefix. cbv iota.
    change ("]:"%str ++ show_uint port) with ("]"%ch :: ":"%ch :: show_uint port).
    rewrite split_once_complete by (by eapply host_ok_no_char). simpl.
    by rewrite parse_show_uint.
  - apply contains_char_false in E.
    replace (strip_prefix "[" (h ++ ":"%str ++ show_uint port)) with (@None str); last first.
    { symmetry. destruct (strip_prefix "[" _) eqn:E'; [|done]. apply strip_prefix_Some in E'.
      destruct h as [|c h]; [done|]. injection E' as -> _.
      exfalso. apply (host_ok_no_char _ "["%ch Hv); [done|done|set_solver]. }
    assert (count_char ":" (h ++ ":"%str ++ show_uint port) = 1) as ->.
    { rewrite !count_char_app, (count_char_0 _ h), (count_char_0 _ (show_uint port));
        [done|by apply show_uint_no_char|done]. }
    simpl. change (":"%str ++ show_uint port) with (":"%ch :: show_uint port).
    rewrite rsplit_once_complete by by apply show_uint_no_char. simpl. by rewrite parse_show_uint.
Qed.

Lemma split_once_str_scheme sch rest :
  Forall (fun c => is_ascii_lowercase c = true) sch ->
  split_once_str "://" (sch ++ "://"%str ++ rest) = Some (sch, rest).
Proof.
  induction sch as [|c sch IH]; intros Hs; [done|]. inv Hs. rewrite <- app_comm_cons.
  assert (strip_prefix "://" (c :: sch ++ "://"%str ++ rest) = None) as Hn.
  { simpl. destruct (58 =? c) eqn:E; [|done]. bprop. subst. discriminate. }
  cbn [split_once_str]. by rewrite Hn, IH.
Qed.

(** The printed target, as scheme and authority. *)
Lemma UpstreamTarget_fmt_eq t :
  fmt t = (if target_secure t then "https"%str else "http"%str) ++ "://"%str ++
    (if contains_char ":" (target_host t)
     then "["%str ++ target_host t ++ "]:"%str ++ show_uint (target_port t)
     else target_host t ++ ":"%str ++ show_uint (target_port t)).
Proof.
  unfold fmt, UpstreamTarget_display, UpstreamTarget_fmt.
  by destruct (contains_char ":" (target_host t)), (target_secure t).
Qed.

Lemma authority_no_char h port c :
  is_valid_host h = true -> host_char c = false -> c <> ":"%ch -> c <> "["%ch -> c <> "]"%ch ->
  contains_char c (if contains_char ":" h then "["%str ++ h ++ "]:"%str ++ show_uint port
                   else h ++ ":"%str ++ show_uint port) = false.
Proof.
  intros Hv Hc H1 H2 H3. apply contains_char_false.
  assert (c ∉ h) by by apply host_ok_no_char.
  assert (c ∉ show_uint port).
  { apply show_uint_no_char. unfold host_char in Hc. char_unfold. lia. }
  destruct (contains_char ":" h); set_solver.
Qed.

Lemma from_url_str_fmt t :
  host_ok (target_host t) -> 0 < target_port t <= u16_max -> from_url_str (fmt t) = Ok t.
Proof.
  intros (Hne & Hv & Hl) [Hp0 Hp]. unfold from_url_str. rewrite UpstreamTarget_fmt_eq.
  set (auth := if contains_char ":" (target_host t) then _ else _).
  set (sch := if target_secure t then "https"%str else "http"%str).
  assert (trim (sch ++ "://"%str ++ auth) = sch ++ "://"%str ++ auth) as ->.
  { apply trim_no_space.
    - intros c r. unfold sch. destruct (target_secure t); by intros [= <- _].
    - intros r c H.
      assert (exists q, sch ++ "://"%str ++ auth = q ++ show_uint (target_port t)) as (q & Hq).
      { unfold auth. destruct (contains_char ":" _); rewrite !app_assoc; eauto. }
      rewrite Hq in H. pose proof (show_uint_digits (target_port t)) as Hd.
      destruct (exists_last (show_uint_ne (target_port t))) as (u & d & Hu).
      rewrite Hu in H, Hd. rewrite app_assoc in H. apply app_inj_tail in H as [_ ->].
      apply Forall_app in Hd as [_ Hd]. inv Hd.
      revert H1. unfold is_whitespace. char_unfold. lia. }
  assert (is_empty (sch ++ "://"%str ++ auth) = false) as -> by (unfold sch; by destruct (target_secure t)).
  rewrite split_once_str_scheme by (unfold sch; destruct (target_secure t); by repeat constructor).
  cbn [ok_or mbind result_bind].
  assert ((if str_eqb (to_ascii_lowercase sch) "http" then Ok false
     else if str_eqb (to_ascii_lowercase sch) "https" then Ok true
     else Err (InvalidUpstreamTarget (sch ++ "://"%str ++ auth) UpstreamUnsupportedScheme))
     = Ok (target_secure t)) as -> by (unfold sch; by destruct (target_secure t)).
  cbn [ok_or mbind result_bind].
  assert (forall c, host_char c = false -> c <> ":"%ch -> c <> "["%ch -> c <> "]"%ch ->
    contains_char c auth = false) as Hno by (intros; by apply authority_no_char).
  rewrite !Hno by done. cbn [orb]. unfold auth. rewrite split_host_port_fmt by done. cbn [ok_or mbind result_bind].
  rewrite (proj2 (is_empty_false _) Hne), Hv. simpl.
  destruct (target_port t =? 0) eqn:E0; bprop; [lia|]. rewrite Hl. by destruct t.
Qed.

(** Printing an accepted upstream target and parsing it again gives the same
    target, IPv6 hosts included: the printed form is canonical, the port is in
    1..65535 and the host is a lowercase, valid, unbracketed host. *)
Theorem upstream_target_roundtrip s t (H : from_url_str s = Ok t) :
  from_url_str (fmt t) = Ok t /\ 1 <= target_port t <= 65535 /\
  target_host t <> [] /\ is_valid_host (target_host t) = true /\
  to_ascii_lowercase (target_host t) = target_host t.
Proof.
  destruct (from_url_str_ok _ _ H) as [Hh Hp]. split; [by apply from_url_str_fmt|].
  split; [unfold u16_max in *; lia|]. apply Hh.
Qed.

Lemma upstream_target_roundtrip_witness :
  from_url_str "https://[fe80::1]:443"%str = Ok (mkTarget true "fe80::1"%str 443).
Proof.
  apply (upstream_target_roundtrip " HTTPS://[FE80::1] "%str (mkTarget true "fe80::1"%str 443)).
  vm_compute. reflexivity.
Defined.

(** ** Lemmas on prefix rules *)

Lemma join_char_app sep a b :
  a <> [] -> b <> [] -> join_char sep (a ++ b) = join_char sep a ++ sep :: join_char sep b.
Proof.
  intros Ha Hb. induction a as [|w a IH]; [done|]. destruct a as [|v a].
  - simpl. by destruct b.
  - change ((w :: v :: a) ++ b) with (w :: v :: (a ++ b)). rewrite !join_char_cons, <- app_assoc.
    f_equal. change (v :: a ++ b) with ((v :: a) ++ b). rewrite IH by done. done.
Qed.

(** The segments a rule's prefix names; the root names none. *)
Definition prefix_segments (prefix : str) : list str :=
  if str_eqb prefix "/" then [[]] else split_char "/" prefix.

Lemma split_prefix_iff sep p s :
  list_prefixb (split_char sep p) (split_char sep s) = true <-> s = p \/ exists r, s = p ++ sep :: r.
Proof.
  rewrite list_prefixb_spec. split.
  - intros (ws & Hs). destruct ws as [|w ws].
    + rewrite app_nil_r in Hs. left. rewrite <- (join_split sep s), Hs. apply join_split.
    + right. exists (join_char sep (w :: ws)). rewrite <- (join_split sep s), Hs.
      rewrite join_char_app; [by rewrite join_split|apply split_char_ne|done].
  - intros [->|(r & ->)]; [by exists []; rewrite app_nil_r|].
    rewrite split_char_app_all. eauto.
Qed.

Lemma prefix_matches_segments prefix path :
  starts_with "/" prefix = true ->
  prefix_matches prefix path =
  starts_with "/" path && list_prefixb (prefix_segments prefix) (split_char "/" path).
Proof.
  intros Hp. unfold prefix_matches, prefix_segments. apply Bool.eq_iff_eq_true.
  destruct (str_eqb prefix "/") eqn:E.
  - rewrite andb_true_iff. split; [|tauto]. intros H. split; [done|].
    apply starts_with_spec in H as (r & ->). done.
  - rewrite andb_true_iff, split_prefix_iff, orb_true_iff. unfold str_eqb.
    rewrite bool_decide_eq_true. apply starts_with_spec in Hp as (q & Hq).
    assert (match strip_prefix prefix path with Some rest => starts_with "/" rest | None => false end
      = true <-> exists r, path = prefix ++ "/"%ch :: r) as ->.
    { destruct (strip_prefix prefix path) as [rest|] eqn:Es.
      - apply strip_prefix_Some in Es. rewrite starts_with_spec, Es. split.
        + intros (r & ->). by exists r.
        + intros (r & Hr). apply app_inv_head in Hr. by exists r.
      - split; [done|]. intros (r & Hr). apply strip_prefix_Some in Hr. congruence. }
    split; [|tauto]. intros H. split; [|done]. apply starts_with_spec. subst prefix.
    destruct H as [->|(r & ->)]; rewrite <- ?app_assoc; eauto.
Qed.

Lemma pop_slashes_spec s :
  exists k, s = k ++ pop_slashes s /\ Forall (fun c => c = "/"%ch) k /\
    (s <> [] -> pop_slashes s <> []) /\
    forall c r, pop_slashes s = c :: r -> r <> [] -> c <> "/"%ch.
Proof.
  induction s as [|c s IH]; [by exists []|]. destruct s as [|d s].
  { exists []. split; [done|]. split; [done|]. split; [done|]. by intros ? ? [= <- <-]. }
  assert (pop_slashes (c :: d :: s) =
    if c =? "/"%ch then pop_slashes (d :: s) else c :: d :: s) as -> by reflexivity.
  destruct (c =? "/"%ch) eqn:E; bprop.
  - destruct IH as (k & Hk & Ha & Hn & Hl). exists (c :: k). rewrite <- app_comm_cons, <- Hk.
    split; [done|]. split; [by constructor|]. split; [|done]. intros _. by apply Hn.
  - exists []. split; [done|]. split; [done|]. split; [done|]. by intros ? ? [= <- <-].
Qed.

(** A normalised prefix is the prefix less its trailing slashes, the root kept. *)
Lemma normalize_prefix_spec prefix :
  exists k, prefix = normalize_prefix prefix ++ k /\ Forall (fun c => c = "/"%ch) k /\
    (starts_with "/" prefix = true -> starts_with "/" (normalize_prefix prefix) = true /\
      (normalize_prefix prefix = "/"%str \/ ends_with "/" (normalize_prefix prefix) = false)).
Proof.
  unfold normalize_prefix. destruct (pop_slashes_spec (rev prefix)) as (k & Hk & Ha & Hn & Hl).
  exists (rev k). set (p := pop_slashes (rev prefix)) in *.
  assert (prefix = rev p ++ rev k) as Hp.
  { rewrite <- rev_app_distr, <- Hk. by rewrite rev_involutive. }
  split; [done|]. split; [by apply Forall_rev|]. intros Hs.
  assert (p <> []) as Hne.
  { apply Hn. destruct prefix as [|x q]; [done|]. simpl. by destruct (rev q). }
  destruct p as [|c p]; [done|]. simpl in *. split.
  - destruct (rev p ++ [c]) as [|d q] eqn:E; [by destruct (rev p)|].
    rewrite Hp in Hs. unfold starts_with in *. simpl in *. by destruct (47 =? d).
  - destruct p as [|d p]; [left|right].
    + simpl in *. f_equal. rewrite Hp in Hs. unfold starts_with in Hs. simpl in Hs.
      destruct (47 =? c) eqn:E; [by bprop|done].
    + unfold ends_with, strip_suffix. rewrite rev_app_distr. cbn [rev app strip_prefix].
      destruct ("/"%ch =? c) eqn:E; [|done]. bprop. subst.
      exfalso. by apply (Hl _ _ eq_refl).
Qed.

(** An accepted proxy rule's prefix is the given prefix without its trailing
    slashes (the root stays [/]) and matches a request path exactly when the
    path is absolute and the prefix's segments are the path's first segments:
    [/app] matches [/app] and [/app/x] but never [/apple], and [/] matches
    everything; the same holds of an accepted routing rule. *)
Theorem rule_matches_whole_segments prefix target rtarget :
  match ProxyRule_new prefix target with
  | Ok r =>
      (rule_prefix r = "/"%str \/ ends_with "/" (rule_prefix r) = false) /\
      (exists k, prefix = rule_prefix r ++ k /\ Forall (fun c => c = "/"%ch) k) /\
      forall path, rule_matches_path r path =
        starts_with "/" path && list_prefixb (prefix_segments (rule_prefix r)) (split_char "/" path)
  | Err _ => True
  end /\
  match RouteRule_new prefix rtarget with
  | Ok r => forall path, route_matches_path r path =
      starts_with "/" path && list_prefixb (prefix_segments (route_prefix r)) (split_char "/" path)
  | Err _ => True
  end.
Proof.
  destruct (normalize_prefix_spec prefix) as (k & Hk & Ha & Hn).
  split; [unfold ProxyRule_new|unfold RouteRule_new];
    (destruct (is_empty prefix); [done|]); (destruct (starts_with "/" prefix); simpl; [|done]);
    repeat (case_match; try done); simplify_eq/=; destruct (Hn eq_refl) as [Hs Hr].
  - split; [done|]. split; [eauto|]. intros path. by apply prefix_matches_segments.
  - intros path. by apply prefix_matches_segments.
Qed.

Section LongestMatch.
Context {R : Type} (prefix : R -> str) (matches : R -> bool).

Definition longest_match (rules : list R) (o : option R) : Prop :=
  match o with
  | Some r => r ∈ rules /\ matches r = true /\
      forall r', r' ∈ rules -> matches r' = true -> len (prefix r') <= len (prefix r)
  | None => forall r', r' ∈ rules -> matches r' = false
  end.

Lemma longest_match_ok rules :
  longest_match rules (max_by_key (fun r => len (prefix r)) (bfilter matches rules)).
Proof.
  destruct (max_by_key _ _) as [r|] eqn:E; simpl.
  - apply max_by_key_Some in E as [Hin Hmax]. apply elem_of_bfilter in Hin as [Hm Hin].
    split; [done|]. split; [done|]. intros r' Hr' Hm'. apply Hmax. by apply elem_of_bfilter.
  - apply max_by_key_None in E. intros r' Hr'. destruct (matches r') eqn:Em; [|done].
    assert (r' ∈ bfilter matches rules) as Hf by by apply elem_of_bfilter. rewrite E in Hf. set_solver.
Qed.
End LongestMatch.

(** Rule lookup is longest-prefix match: the rule returned is one of the
    site's rules, matches the path, and no other matching rule has a longer
    prefix; nothing is returned only when no rule matches. The same holds of the
    routing-rule lookup. *)
Theorem match_rule_longest rules routes path :
  longest_match rule_prefix (fun r => rule_matches_path r path) rules (match_rule rules path) /\
  longest_match route_prefix (fun r => route_matches_path r path) routes (match_route routes path).
Proof. split; apply longest_match_ok. Qed.

(** ** Whole-host proxy names *)

Lemma valid_subpart_exact d :
  valid_subpart d = true -> is_wildcard (mkDomain d) = false -> dns_name d = true.
Proof.
  unfold valid_subpart, subpart_shape, is_wildcard, starts_with. cbn [Domain_str]. intros H Hw. bprop. destruct (strip_prefix "*." d); [done|].
  by rewrite orb_false_r in H.
Qed.

Lemma validate_proxy_name_spec raw n :
  validate_proxy_name raw = Ok n <->
  dns_name n = true /\ len n <= 253 /\ to_ascii_lowercase raw = n.
Proof.
  unfold validate_proxy_name. split.
  - intros H. destruct (Domain_parse_subpart raw) as [d|e] eqn:E; [|by destruct e].
    apply Domain_parse_subpart_spec in E as [Hv Hl]. simpl in H.
    destruct (is_wildcard d) eqn:Ew; [done|]. injection H as <-. destruct d as [d]. simpl in *.
    split; [by apply valid_subpart_exact|]. split; [|done]. unfold valid_subpart in Hv. by bprop.
  - intros (Hn & Hl & Hr).
    assert (Domain_parse_subpart raw = Ok (mkDomain n)) as ->.
    { apply Domain_parse_subpart_spec. split; [|done]. unfold valid_subpart, subpart_shape. simpl.
      rewrite Hn. by apply N.leb_le. }
    simpl. by rewrite dns_name_not_wildcard.
Qed.
