(* ===== verification/Router.v ===== *)
(** * The host router

    [src/crates/orcker-core/src/router.rs]: the two identity maps (sites and
    whole-host proxies), the two domain indices built from each claimant's
    effective domain set, and host resolution.

    - [SiteRouter] is the source's record; one definition per method.
    - [wf] is the invariant tying the indices to the identity maps; [step] lists
      every mutation the type offers and [reachable] its closure from [new].
    - [Spec] is the contract: a map from claimant name to its route and domain
      set.  The methods refine it, errors included ([run_refines]). *)

From S2P Require Import Prelude RustStr RustPath CoreError DnsLabel Tld Domain Host Php Site Proxy.

Open Scope N_scope.

(** ** Data *)

Record RouterConfig := mkConfig { cfg_tld : Tld; cfg_dotted_tld : str }.

Definition with_tld (t : Tld) : RouterConfig := mkConfig t ("."%str ++ Tld_str t).
Definition RouterConfig_new (tld : str) : result CoreError RouterConfig :=
  t ← Tld_new tld; Ok (with_tld t).
Definition RouterConfig_default : RouterConfig := with_tld Tld_default.

Inductive Route :=
| RoutePhp (site : Site)
| RouteProxy (proxy : ProxySite).
#[export] Instance Route_eq_dec : EqDecision Route.
Proof. solve_decision. Defined.

Record SiteRouter := mkRouter {
  r_config : RouterConfig;
  r_sites : gmap str Site;
  r_domains : gmap str (list Domain);
  r_primaries : gmap str Domain;
  r_exact : gmap str str;
  r_wildcards : gmap str str;
  r_proxy_sites : gmap str ProxySite;
  r_proxy_rules : gmap str (list ProxyRule);
  r_route_rules : gmap str (list RouteRule);
}.

(** ** Operations *)

Definition SiteRouter_new (config : RouterConfig) : SiteRouter :=
  mkRouter config ∅ ∅ ∅ ∅ ∅ ∅ ∅ ∅.

(** The index a domain lives in. *)
Definition index_of (r : SiteRouter) (d : Domain) : gmap str str :=
  if is_wildcard d then r_wildcards r else r_exact r.

Definition name_taken (r : SiteRouter) (name : str) : bool :=
  bool_decide (is_Some (r_sites r !! name)) || bool_decide (is_Some (r_proxy_sites r !! name)).

Definition index_conflict (r : SiteRouter) (effective : list Domain) : option Domain :=
  find_first (fun d => bool_decide (is_Some (index_of r d !! Domain_str d))) effective.

(** The insertion loop over the effective set, on the exact and wildcard
    indices. *)
Notation indices := (gmap str str * gmap str str)%type.
Definition index_step (name : str) (idx : indices) (d : Domain) : indices :=
  if is_wildcard d then (idx.1, <[Domain_str d := name]> idx.2)
  else (<[Domain_str d := name]> idx.1, idx.2).
Definition index_all (name : str) (effective : list Domain) (idx : indices) : indices :=
  foldl (index_step name) idx effective.

(** The removal loop: an entry goes only when this claimant owns it. *)
Definition delete_owned (name : str) (d : Domain) (m : gmap str str) : gmap str str :=
  match m !! Domain_str d with
  | Some owner => if str_eqb owner name then delete (Domain_str d) m else m
  | None => m
  end.
Definition unindex_step (name : str) (idx : indices) (d : Domain) : indices :=
  if is_wildcard d then (idx.1, delete_owned name d idx.2)
  else (delete_owned name d idx.1, idx.2).
Definition unindex_all (name : str) (domains : list Domain) (idx : indices) : indices :=
  foldl (unindex_step name) idx domains.

(** A mutation returns its result and the router it leaves. *)
Definition insert_with_domains (site : Site) (effective : list Domain) (primary : Domain)
  (r : SiteRouter) : result CoreError unit * SiteRouter :=
  let name := site_name site in
  if name_taken r name then (Err (DuplicateSite name), r)
  else match index_conflict r effective with
  | Some d => (Err (DuplicateDomain (Domain_str d)), r)
  | None =>
      let idx := index_all name effective (r_exact r, r_wildcards r) in
      (Ok tt,
       mkRouter (r_config r) (<[name := site]> (r_sites r)) (<[name := effective]> (r_domains r))
         (<[name := primary]> (r_primaries r))
         idx.1 idx.2
         (r_proxy_sites r) (r_proxy_rules r) (r_route_rules r))
  end.

Definition insert (site : Site) (r : SiteRouter) : result CoreError unit * SiteRouter :=
  let apex := Domain_apex (site_name site) in
  insert_with_domains site [apex] apex r.

Fixpoint insert_sites (sites : list Site) (r : SiteRouter) : result CoreError SiteRouter :=
  match sites with
  | [] => Ok r
  | s :: rest => match insert s r with
                 | (Ok _, r') => insert_sites rest r'
                 | (Err e, _) => Err e
                 end
  end.
Definition from_sites (config : RouterConfig) (sites : list Site) : result CoreError SiteRouter :=
  insert_sites sites (SiteRouter_new config).

Definition remove (name : str) (r : SiteRouter) : result CoreError Site * SiteRouter :=
  match r_sites r !! name with
  | None => (Err (SiteNotFound name), r)
  | Some site =>
      let ds := default [] (r_domains r !! name) in
      let idx := unindex_all name ds (r_exact r, r_wildcards r) in
      (Ok site,
       mkRouter (r_config r) (delete name (r_sites r)) (delete name (r_domains r))
         (delete name (r_primaries r))
         idx.1 idx.2
         (r_proxy_sites r) (delete name (r_proxy_rules r)) (delete name (r_route_rules r)))
  end.

Definition get (r : SiteRouter) (name : str) : option Site := r_sites r !! name.

(** What a caller can do through [get_mut]: one of the setters. *)
Inductive setter :=
| SetDocumentRoot (p : str)
| SetWebSubpath (p : str)
| SetPhp (v : Php.PhpVersion)
| SetSecure (b : bool)
| SetKind (k : SiteKind)
| SetWpAutoLogin (b : bool)
| SetWpAutoLoginUser (u : option str)
| SetFrontController (f : option bool).

Definition apply_setter (f : setter) : Site -> Site :=
  match f with
  | SetDocumentRoot p => set_document_root p
  | SetWebSubpath p => set_web_subpath p
  | SetPhp v => set_php v
  | SetSecure b => set_secure b
  | SetKind k => set_kind k
  | SetWpAutoLogin b => set_wp_auto_login b
  | SetWpAutoLoginUser u => set_wp_auto_login_user u
  | SetFrontController v => set_front_controller v
  end.

Definition get_mut (name : str) (f : setter) (r : SiteRouter) : SiteRouter :=
  mkRouter (r_config r) (alter (apply_setter f) name (r_sites r)) (r_domains r) (r_primaries r)
    (r_exact r) (r_wildcards r) (r_proxy_sites r) (r_proxy_rules r) (r_route_rules r).

Definition router_proxy (r : SiteRouter) (name : str) : option ProxySite := r_proxy_sites r !! name.
Definition primary_domain (r : SiteRouter) (name : str) : option Domain := r_primaries r !! name.

Definition primary_fqdn (r : SiteRouter) (name : str) : str :=
  let tld := Tld_str (cfg_tld (r_config r)) in
  match primary_domain r name with
  | Some d => to_fqdn d tld
  | None => name ++ "."%str ++ tld
  end.

Definition router_effective_domains (r : SiteRouter) (name : str) : option (list Domain) :=
  r_domains r !! name.

Definition domain_owner (r : SiteRouter) (d : Domain) : option str := index_of r d !! Domain_str d.

Definition apex_shadowed_by (r : SiteRouter) (name : str) : option str :=
  match r_exact r !! name with
  | Some owner => if str_eqb owner name then None else Some owner
  | None => None
  end.

Definition route_for (r : SiteRouter) (name : str) : option Route :=
  match r_sites r !! name with
  | Some site => Some (RoutePhp site)
  | None => RouteProxy <$> r_proxy_sites r !! name
  end.

Definition resolve_route (r : SiteRouter) (host : str) : option Route :=
  match normalise host with
  | Unroutable => None
  | Hostname host =>
      let tld := Tld_str (cfg_tld (r_config r)) in
      let dotted := cfg_dotted_tld (r_config r) in
      if str_eqb host tld then None
      else
        sub ← strip_suffix dotted host;
        if is_empty sub then None
        else match r_exact r !! sub with
        | Some name => route_for r name
        | None =>
            match split_once "." sub with
            | Some (_, rest) =>
                match r_wildcards r !! ("*."%str ++ rest) with
                | Some name => route_for r name
                | None => None
                end
            | None => None
            end
        end
  end.

Definition resolve (r : SiteRouter) (host : str) : option Site :=
  match resolve_route r host with
  | Some (RoutePhp site) => Some site
  | Some (RouteProxy _) | None => None
  end.

Definition insert_proxy_with_domains (proxy : ProxySite) (effective : list Domain) (primary : Domain)
  (r : SiteRouter) : result CoreError unit * SiteRouter :=
  let name := proxy_name proxy in
  if name_taken r name then (Err (DuplicateSite name), r)
  else match index_conflict r effective with
  | Some d => (Err (DuplicateDomain (Domain_str d)), r)
  | None =>
      let idx := index_all name effective (r_exact r, r_wildcards r) in
      (Ok tt,
       mkRouter (r_config r) (r_sites r) (<[name := effective]> (r_domains r))
         (<[name := primary]> (r_primaries r))
         idx.1 idx.2
         (<[name := proxy]> (r_proxy_sites r)) (r_proxy_rules r) (r_route_rules r))
  end.

Definition insert_proxy (proxy : ProxySite) (r : SiteRouter) : result CoreError unit * SiteRouter :=
  let apex := Domain_apex (proxy_name proxy) in
  insert_proxy_with_domains proxy [apex] apex r.

Definition remove_proxy (name : str) (r : SiteRouter) : result CoreError ProxySite * SiteRouter :=
  match r_proxy_sites r !! name with
  | None => (Err (SiteNotFound name), r)
  | Some proxy =>
      let ds := default [] (r_domains r !! name) in
      let idx := unindex_all name ds (r_exact r, r_wildcards r) in
      (Ok proxy,
       mkRouter (r_config r) (r_sites r) (delete name (r_domains r))
         (delete name (r_primaries r))
         idx.1 idx.2
         (delete name (r_proxy_sites r)) (r_proxy_rules r) (r_route_rules r))
  end.

Definition rules_for (r : SiteRouter) (site : str) : list ProxyRule :=
  default [] (r_proxy_rules r !! site).
Definition route_rules_for (r : SiteRouter) (site : str) : list RouteRule :=
  default [] (r_route_rules r !! site).

Definition set_proxy_rules (site : str) (rules : list ProxyRule) (r : SiteRouter) : SiteRouter :=
  mkRouter (r_config r) (r_sites r) (r_domains r) (r_primaries r) (r_exact r) (r_wildcards r)
    (r_proxy_sites r)
    (if is_empty rules then delete site (r_proxy_rules r) else <[site := rules]> (r_proxy_rules r))
    (r_route_rules r).

Definition set_route_rules (site : str) (rules : list RouteRule) (r : SiteRouter) : SiteRouter :=
  mkRouter (r_config r) (r_sites r) (r_domains r) (r_primaries r) (r_exact r) (r_wildcards r)
    (r_proxy_sites r) (r_proxy_rules r)
    (if is_empty rules then delete site (r_route_rules r) else <[site := rules]> (r_route_rules r)).

(** ** The contract *)

Module Spec.

(** Each claimant, with what it routes to and the domains it answers. *)
Notation t := (gmap str (Route * list Domain)).

Definition holder (st : t) (d : Domain) : option Route :=
  find_map (fun kv : str * (Route * list Domain) =>
              if bool_decide (d ∈ kv.2.2) then Some kv.2.1 else None) (map_to_list st).

Definition held (st : t) (d : Domain) : bool := match holder st d with Some _ => true | None => false end.

Definition spec_insert (name : str) (rt : Route) (effective : list Domain) (st : t)
  : result CoreError unit * t :=
  if bool_decide (is_Some (st !! name)) then (Err (DuplicateSite name), st)
  else match find_first (held st) effective with
       | Some d => (Err (DuplicateDomain (Domain_str d)), st)
       | None => (Ok tt, <[name := (rt, effective)]> st)
       end.

(** An exact domain first, then the host with its first label starred. *)
Definition spec_resolve (st : t) (sub : str) : option Route :=
  match (if is_wildcard (mkDomain sub) then None else holder st (mkDomain sub)) with
  | Some rt => Some rt
  | None =>
      match split_once "." sub with
      | Some (_, rest) => holder st (mkDomain ("*."%str ++ rest))
      | None => None
      end
  end.

Definition spec_resolve_host (st : t) (tld host : str) : option Route :=
  match normalise host with
  | Unroutable => None
  | Hostname h => match strip_suffix ("."%str ++ tld) h with
                  | Some [] | None => None
                  | Some sub => spec_resolve st sub
                  end
  end.

End Spec.

(** What a router promises: its claimants. *)
Definition claims (r : SiteRouter) : Spec.t :=
  map_zip_with pair ((RoutePhp <$> r_sites r) ∪ (RouteProxy <$> r_proxy_sites r)) (r_domains r).

(** ** Steps, runs and the invariant *)

Inductive op :=
| OpInsert (site : Site) (effective : list Domain) (primary : Domain)
| OpRemove (name : str)
| OpGetMut (name : str) (f : setter)
| OpInsertProxy (proxy : ProxySite) (effective : list Domain) (primary : Domain)
| OpRemoveProxy (name : str)
| OpSetProxyRules (site : str) (rules : list ProxyRule)
| OpSetRouteRules (site : str) (rules : list RouteRule).

Inductive outcome :=
| OutUnit (o : result CoreError unit)
| OutSite (o : result CoreError Site)
| OutProxy (o : result CoreError ProxySite).

Definition apply_op (o : op) (r : SiteRouter) : outcome * SiteRouter :=
  match o with
  | OpInsert s eff p => let '(x, r') := insert_with_domains s eff p r in (OutUnit x, r')
  | OpRemove n => let '(x, r') := remove n r in (OutSite x, r')
  | OpGetMut n f => (OutUnit (Ok tt), get_mut n f r)
  | OpInsertProxy s eff p => let '(x, r') := insert_proxy_with_domains s eff p r in (OutUnit x, r')
  | OpRemoveProxy n => let '(x, r') := remove_proxy n r in (OutProxy x, r')
  | OpSetProxyRules n rules => (OutUnit (Ok tt), set_proxy_rules n rules r)
  | OpSetRouteRules n rules => (OutUnit (Ok tt), set_route_rules n rules r)
  end.

Inductive step : SiteRouter -> SiteRouter -> Prop :=
| step_op o r : step r (apply_op o r).2.

Definition reachable (r : SiteRouter) : Prop :=
  exists t, rtc step (SiteRouter_new (with_tld t)) r.

Fixpoint run (ops : list op) (r : SiteRouter) : list outcome * SiteRouter :=
  match ops with
  | [] => ([], r)
  | o :: rest =>
      let '(x, r') := apply_op o r in
      let '(xs, r'') := run rest r' in (x :: xs, r'')
  end.

(** The same operations on the contract. *)
Definition spec_op (o : op) (st : Spec.t) : outcome * Spec.t :=
  match o with
  | OpInsert s eff _ =>
      let '(x, st') := Spec.spec_insert (site_name s) (RoutePhp s) eff st in (OutUnit x, st')
  | OpInsertProxy p eff _ =>
      let '(x, st') := Spec.spec_insert (proxy_name p) (RouteProxy p) eff st in (OutUnit x, st')
  | OpRemove n => match st !! n with
                  | Some (RoutePhp s, _) => (OutSite (Ok s), delete n st)
                  | _ => (OutSite (Err (SiteNotFound n)), st)
                  end
  | OpRemoveProxy n => match st !! n with
                       | Some (RouteProxy p, _) => (OutProxy (Ok p), delete n st)
                       | _ => (OutProxy (Err (SiteNotFound n)), st)
                       end
  | OpGetMut n f =>
      (OutUnit (Ok tt),
       alter (fun c : Route * list Domain => match c with
                      | (RoutePhp s, ds) => (RoutePhp (apply_setter f s), ds)
                      | (RouteProxy _, _) => c
                      end) n st)
  | OpSetProxyRules _ _ | OpSetRouteRules _ _ => (OutUnit (Ok tt), st)
  end.

Fixpoint spec_run (ops : list op) (st : Spec.t) : list outcome * Spec.t :=
  match ops with
  | [] => ([], st)
  | o :: rest =>
      let '(x, st') := spec_op o st in
      let '(xs, st'') := spec_run rest st' in (x :: xs, st'')
  end.

Record wf (r : SiteRouter) : Prop := mkWf {
  wf_config : cfg_dotted_tld (r_config r) = "."%str ++ Tld_str (cfg_tld (r_config r));
  wf_site_names n s : r_sites r !! n = Some s -> site_name s = n;
  wf_proxy_names n p : r_proxy_sites r !! n = Some p -> proxy_name p = n;
  wf_disjoint n s : r_sites r !! n = Some s -> r_proxy_sites r !! n = None;
  wf_domains n : is_Some (r_domains r !! n) <-> is_Some (route_for r n);
  wf_primaries n : is_Some (r_primaries r !! n) <-> is_Some (route_for r n);
  wf_owner d n : domain_owner r d = Some n <-> exists ds, r_domains r !! n = Some ds /\ d ∈ ds;
  wf_exact k : is_wildcard (mkDomain k) = true -> r_exact r !! k = None;
  wf_wildcards k : is_wildcard (mkDomain k) = false -> r_wildcards r !! k = None;
}.

(** ** Index lemmas *)

(** Look a domain up in the index it belongs to. *)
Definition idx_lookup (idx : indices) (d : Domain) : option str :=
  (if is_wildcard d then idx.2 else idx.1) !! Domain_str d.

Lemma domain_owner_idx r d : domain_owner r d = idx_lookup (r_exact r, r_wildcards r) d.
Proof. done. Qed.

Lemma Domain_str_inj d d' : Domain_str d = Domain_str d' -> d = d'.
Proof. destruct d, d'; simpl; congruence. Qed.

Lemma idx_lookup_step name idx d d' :
  idx_lookup (index_step name idx d) d' = if decide (d = d') then Some name else idx_lookup idx d'.
Proof.
  unfold idx_lookup, index_step. case_decide as E.
  - subst. destruct (is_wildcard d'); simpl; by rewrite lookup_insert_eq.
  - assert (Domain_str d <> Domain_str d') by (intros ?%Domain_str_inj; done).
    destruct (is_wildcard d), (is_wildcard d'); simpl; by rewrite ?lookup_insert_ne.
Qed.

Lemma idx_lookup_all name eff idx d :
  idx_lookup (index_all name eff idx) d = if decide (d ∈ eff) then Some name else idx_lookup idx d.
Proof.
  unfold index_all. revert idx; induction eff as [|e eff IH]; intros idx.
  - rewrite decide_False by set_solver. done.
  - cbn [foldl]. rewrite IH, idx_lookup_step. repeat case_decide; set_solver.
Qed.

Lemma delete_owned_lookup name d m k :
  delete_owned name d m !! k =
  if decide (k = Domain_str d /\ m !! k = Some name) then None else m !! k.
Proof.
  unfold delete_owned, str_eqb. case_decide as E.
  - destruct E as [-> E]. rewrite E, bool_decide_true by done. apply lookup_delete_eq.
  - destruct (m !! Domain_str d) as [o|] eqn:Eo; [|done]. case_bool_decide; [|done]. subst.
    rewrite lookup_delete_ne; [done|]. intros <-. naive_solver.
Qed.

Lemma idx_lookup_unstep name idx d d' :
  idx_lookup (unindex_step name idx d) d' =
  if decide (d = d' /\ idx_lookup idx d' = Some name) then None else idx_lookup idx d'.
Proof.
  unfold idx_lookup, unindex_step.
  destruct (is_wildcard d) eqn:Ed, (is_wildcard d') eqn:Ed'; simpl;
    rewrite ?delete_owned_lookup; repeat case_decide; try done; destruct_and?; subst; try congruence.
  all: exfalso; naive_solver eauto using Domain_str_inj.
Qed.

Lemma idx_lookup_unall name ds idx d :
  idx_lookup (unindex_all name ds idx) d =
  if decide (d ∈ ds /\ idx_lookup idx d = Some name) then None else idx_lookup idx d.
Proof.
  unfold unindex_all. revert idx; induction ds as [|e ds IH]; intros idx.
  - rewrite decide_False; [done|]. set_solver.
  - cbn [foldl]. rewrite IH, idx_lookup_unstep. repeat case_decide; try done; set_solver.
Qed.

(** Keys of the wrong shape are never touched. *)
Lemma index_all_shape name eff idx k :
  (is_wildcard (mkDomain k) = true -> (index_all name eff idx).1 !! k = idx.1 !! k) /\
  (is_wildcard (mkDomain k) = false -> (index_all name eff idx).2 !! k = idx.2 !! k).
Proof.
  unfold index_all. revert idx; induction eff as [|e eff IH]; intros idx; simpl; [done|].
  destruct (IH (index_step name idx e)) as [H1 H2].
  split; intros Hk; [rewrite H1 by done|rewrite H2 by done]; unfold index_step;
    destruct (is_wildcard e) eqn:Ee; simpl; try done; apply lookup_insert_ne;
    intros <-; destruct e; simpl in *; congruence.
Qed.

Lemma unindex_all_shape name ds idx k :
  (idx.1 !! k = None -> (unindex_all name ds idx).1 !! k = None) /\
  (idx.2 !! k = None -> (unindex_all name ds idx).2 !! k = None).
Proof.
  unfold unindex_all. revert idx; induction ds as [|e ds IH]; intros idx; simpl; [done|].
  destruct (IH (unindex_step name idx e)) as [H1 H2]. unfold unindex_step in *.
  split; intros Hk; [apply H1|apply H2]; destruct (is_wildcard e); simpl; try done;
    rewrite delete_owned_lookup; by case_decide.
Qed.

(** ** The claimants of a router *)

Lemma claims_lookup r n :
  claims r !! n = match route_for r n, r_domains r !! n with
                  | Some rt, Some ds => Some (rt, ds)
                  | _, _ => None
                  end.
Proof.
  unfold claims, route_for. rewrite map_lookup_zip_with, lookup_union, !lookup_fmap.
  by destruct (r_sites r !! n), (r_proxy_sites r !! n), (r_domains r !! n).
Qed.

Lemma claims_lookup_Some r n rt ds :
  claims r !! n = Some (rt, ds) <-> route_for r n = Some rt /\ r_domains r !! n = Some ds.
Proof.
  rewrite claims_lookup. destruct (route_for r n), (r_domains r !! n); naive_solver.
Qed.

Section WithWf.
Context (r : SiteRouter) (Hwf : wf r).

Lemma domains_route n ds : r_domains r !! n = Some ds -> exists rt, route_for r n = Some rt.
Proof using Hwf. intros H. apply (wf_domains r Hwf n). by rewrite H. Qed.

Lemma claims_dom n : is_Some (claims r !! n) <-> is_Some (route_for r n).
Proof using Hwf.
  rewrite claims_lookup. pose proof (wf_domains r Hwf n) as Hd.
  destruct (route_for r n), (r_domains r !! n); split; intros H; try done.
  - destruct Hd as [_ Hd]. destruct (Hd (mk_is_Some _ _ eq_refl)). done.
Qed.

Lemma name_taken_claims n : name_taken r n = bool_decide (is_Some (claims r !! n)).
Proof using Hwf.
  rewrite (bool_decide_ext _ _ (claims_dom n)). unfold name_taken, route_for.
  by destruct (r_sites r !! n), (r_proxy_sites r !! n).
Qed.

Lemma holder_owner d :
  Spec.holder (claims r) d =
  match domain_owner r d with Some n => route_for r n | None => None end.
Proof using Hwf.
  unfold Spec.holder. destruct (find_map _ _) as [rt|] eqn:E.
  - apply find_map_Some in E as ([n [rt' ds]] & Hin & Hf). case_bool_decide; [|done].
    injection Hf as ->. apply elem_of_map_to_list, claims_lookup_Some in Hin as [Hr Hd].
    assert (domain_owner r d = Some n) as Ho by (apply (wf_owner r Hwf); by exists ds).
    by rewrite Ho.
  - destruct (domain_owner r d) as [n|] eqn:Eo; [|done].
    apply (wf_owner r Hwf) in Eo as (ds & Hd & Hin).
    destruct (domains_route n ds Hd) as (rt & Hr).
    assert ((n, (rt, ds)) ∈ map_to_list (claims r)) as Hm by by apply elem_of_map_to_list, claims_lookup_Some.
    rewrite find_map_None in E. specialize (E _ Hm). cbn beta iota in E. by rewrite bool_decide_true in E.
Qed.

Lemma owner_route d n : domain_owner r d = Some n -> exists rt, route_for r n = Some rt.
Proof using Hwf. intros (ds & Hd & _)%(wf_owner r Hwf). by eapply domains_route. Qed.

Lemma held_owner d : Spec.held (claims r) d = bool_decide (is_Some (domain_owner r d)).
Proof using Hwf.
  unfold Spec.held. rewrite holder_owner. destruct (domain_owner r d) as [n|] eqn:E.
  - destruct (owner_route d n E) as (rt & ->). by rewrite bool_decide_true by eauto.
  - by rewrite bool_decide_false by by intros [].
Qed.

Lemma index_conflict_held eff : index_conflict r eff = find_first (Spec.held (claims r)) eff.
Proof using Hwf.
  unfold index_conflict. induction eff as [|d eff IH]; simpl; [done|].
  rewrite held_owner, IH. done.
Qed.

(** Resolution is the contract's. *)
Lemma resolve_route_spec host :
  resolve_route r host =
  Spec.spec_resolve_host (claims r) (Tld_str (cfg_tld (r_config r))) host.
Proof using Hwf.
  unfold resolve_route, Spec.spec_resolve_host. destruct (normalise host) as [h|]; [|done].
  rewrite (wf_config r Hwf). unfold str_eqb. case_bool_decide as Eh.
  { subst h. destruct (strip_suffix _ _) as [sub|] eqn:E; [|done].
    apply strip_suffix_Some in E. apply (f_equal length) in E. rewrite !length_app in E. simpl in E. lia. }
  destruct (strip_suffix _ h) as [sub|]; [|done]. simpl.
  destruct sub as [|c sub']; [done|]. simpl is_empty. cbv iota. set (sub := c :: sub').
  unfold Spec.spec_resolve.
  assert (r_exact r !! sub = if is_wildcard (mkDomain sub) then None else domain_owner r (mkDomain sub)) as ->.
  { destruct (is_wildcard (mkDomain sub)) eqn:Ew; [by apply (wf_exact r Hwf)|].
    unfold domain_owner, index_of. by rewrite Ew. }
  assert (forall rest, r_wildcards r !! ("*."%str ++ rest) = domain_owner r (mkDomain ("*."%str ++ rest))) as Hw
    by done.
  destruct (split_once _ sub) as [[l rest]|]; rewrite ?Hw, ?holder_owner.
  all: destruct (is_wildcard (mkDomain sub)); [done|].
  all: destruct (domain_owner r (mkDomain sub)) as [n|] eqn:Eo; [|done].
  all: by destruct (owner_route _ _ Eo) as (rt & ->).
Qed.

(** What every mutation that adds a claimant leaves. *)
Lemma wf_add r' name rt eff prim :
  route_for r name = None -> (forall d, d ∈ eff -> domain_owner r d = None) ->
  r_config r' = r_config r ->
  (forall n, route_for r' n = if decide (n = name) then Some rt else route_for r n) ->
  r_domains r' = <[name := eff]> (r_domains r) ->
  r_primaries r' = <[name := prim]> (r_primaries r) ->
  (r_exact r', r_wildcards r') = index_all name eff (r_exact r, r_wildcards r) ->
  (forall n s, r_sites r' !! n = Some s -> site_name s = n) ->
  (forall n p, r_proxy_sites r' !! n = Some p -> proxy_name p = n) ->
  (forall n s, r_sites r' !! n = Some s -> r_proxy_sites r' !! n = None) ->
  wf r' /\ claims r' = <[name := (rt, eff)]> (claims r).
Proof using Hwf.
  intros Hnone Hfree Hcfg Hroute Hdom Hprim Hidx Hs Hp Hdis.
  assert (r_domains r !! name = None) as Hdn.
  { destruct (r_domains r !! name) eqn:E; [|done]. apply domains_route in E as (? & ?). congruence. }
  split; [split; try done|].
  - by rewrite Hcfg; apply (wf_config r Hwf).
  - intros n. rewrite Hdom, Hroute, lookup_insert. repeat case_decide; subst; try done.
    apply (wf_domains r Hwf).
  - intros n. rewrite Hprim, Hroute, lookup_insert. repeat case_decide; subst; try done.
    apply (wf_primaries r Hwf).
  - intros d n. rewrite domain_owner_idx, Hidx, idx_lookup_all, <- domain_owner_idx, Hdom.
    setoid_rewrite lookup_insert. case_decide as Hd.
    + split.
      * intros [= <-]. exists eff. by rewrite decide_True.
      * intros (ds & Hds & Hin). case_decide; [by subst|]. exfalso.
        assert (domain_owner r d = Some n) as Ho by (apply (wf_owner r Hwf); eauto).
        rewrite (Hfree d Hd) in Ho. done.
    + rewrite (wf_owner r Hwf). split; intros (ds & Hds & Hin); exists ds; (split; [|done]).
      * rewrite decide_False; [done|]. intros ->. congruence.
      * case_decide; [|done]. by simplify_eq.
  - intros k Hk. destruct (index_all_shape name eff (r_exact r, r_wildcards r) k) as [H1 _].
    rewrite <- Hidx in H1. simpl in H1. rewrite H1 by done. by apply (wf_exact r Hwf).
  - intros k Hk. destruct (index_all_shape name eff (r_exact r, r_wildcards r) k) as [_ H2].
    rewrite <- Hidx in H2. simpl in H2. rewrite H2 by done. by apply (wf_wildcards r Hwf).
  - apply map_eq. intros n. rewrite claims_lookup, Hroute, Hdom, !lookup_insert, claims_lookup.
    repeat case_decide; subst; done.
Qed.

(** What every mutation that drops a claimant leaves. *)
Lemma wf_del r' name ds :
  r_domains r !! name = Some ds ->
  r_config r' = r_config r ->
  (forall n, route_for r' n = if decide (n = name) then None else route_for r n) ->
  r_domains r' = delete name (r_domains r) ->
  r_primaries r' = delete name (r_primaries r) ->
  (r_exact r', r_wildcards r') = unindex_all name ds (r_exact r, r_wildcards r) ->
  (forall n s, r_sites r' !! n = Some s -> r_sites r !! n = Some s) ->
  (forall n p, r_proxy_sites r' !! n = Some p -> r_proxy_sites r !! n = Some p) ->
  wf r' /\ claims r' = delete name (claims r).
Proof using Hwf.
  intros Hds Hcfg Hroute Hdom Hprim Hidx Hs Hp.
  split; [split|].
  - by rewrite Hcfg; apply (wf_config r Hwf).
  - intros n s ?%Hs. by eapply (wf_site_names r Hwf).
  - intros n p ?%Hp. by eapply (wf_proxy_names r Hwf).
  - intros n s ?%Hs. destruct (r_proxy_sites r' !! n) as [p|] eqn:E; [|done].
    apply Hp in E. by rewrite (wf_disjoint r Hwf n s) in E.
  - intros n. rewrite Hdom, Hroute, lookup_delete. repeat case_decide; subst; try done.
    apply (wf_domains r Hwf).
  - intros n. rewrite Hprim, Hroute, lookup_delete. repeat case_decide; subst; try done.
    apply (wf_primaries r Hwf).
  - intros d n. rewrite domain_owner_idx, Hidx, idx_lookup_unall, <- domain_owner_idx, Hdom.
    setoid_rewrite lookup_delete. case_decide as Hd.
    + split; [done|]. intros (ds' & Hd' & Hin). case_decide; [done|].
      assert (domain_owner r d = Some n) as Ho by (apply (wf_owner r Hwf); eauto).
      destruct Hd. congruence.
    + rewrite (wf_owner r Hwf). split; intros (ds' & Hd' & Hin); exists ds'; (split; [|done]).
      * rewrite decide_False; [done|]. intros <-. apply Hd. split; [congruence|].
        apply (wf_owner r Hwf). eauto.
      * by case_decide.
  - intros k Hk. destruct (unindex_all_shape name ds (r_exact r, r_wildcards r) k) as [H1 _].
    rewrite <- Hidx in H1. apply H1. by apply (wf_exact r Hwf).
  - intros k Hk. destruct (unindex_all_shape name ds (r_exact r, r_wildcards r) k) as [_ H2].
    rewrite <- Hidx in H2. apply H2. by apply (wf_wildcards r Hwf).
  - apply map_eq. intros n. rewrite claims_lookup, Hroute, Hdom, !lookup_delete, claims_lookup.
    repeat case_decide; subst; done.
Qed.

End WithWf.

(** ** Each operation preserves the invariant and refines the contract *)

Lemma wf_new c :
  cfg_dotted_tld c = "."%str ++ Tld_str (cfg_tld c) ->
  wf (SiteRouter_new c) /\ claims (SiteRouter_new c) = ∅.
Proof.
  intros Hc. assert (forall n, route_for (SiteRouter_new c) n = None) as Hr.
  { intros n. unfold route_for. simpl. by rewrite !lookup_empty. }
  split; [split; simpl; try done|].
  - intros n. rewrite Hr. by rewrite lookup_empty.
  - intros n. rewrite Hr. by rewrite lookup_empty.
  - intros d n. unfold domain_owner, index_of. destruct (is_wildcard d); simpl; split.
    all: try (intros (ds & Hd & _); by rewrite lookup_empty in Hd). all: by rewrite lookup_empty.
  - apply map_eq. intros n. by rewrite claims_lookup, Hr, lookup_empty.
Qed.

(** An operation from a well-formed router: the invariant again, and the
    contract's outcome and claimants. *)
Definition refines (o : op) (r : SiteRouter) : Prop :=
  wf (apply_op o r).2 /\
  spec_op o (claims r) = ((apply_op o r).1, claims (apply_op o r).2).

Section Ops.
Context (r : SiteRouter) (Hwf : wf r).

Lemma index_conflict_None eff :
  index_conflict r eff = None -> forall d, d ∈ eff -> domain_owner r d = None.
Proof using.
  unfold index_conflict. rewrite find_first_None, Forall_forall. intros H d Hd.
  pose proof (H d Hd) as Hn.
  simpl in Hn. bprop. unfold domain_owner. by apply eq_None_not_Some.
Qed.

Lemma name_free_route n : name_taken r n = false -> route_for r n = None.
Proof using. unfold name_taken, route_for. by destruct (r_sites r !! n), (r_proxy_sites r !! n). Qed.

Lemma refines_insert s eff p : refines (OpInsert s eff p) r.
Proof using Hwf.
  unfold refines. simpl. unfold insert_with_domains, Spec.spec_insert.
  rewrite <- (name_taken_claims r Hwf), <- (index_conflict_held r Hwf).
  destruct (name_taken r _) eqn:En; [done|].
  destruct (index_conflict r eff) eqn:Ec; [done|]. simpl.
  pose proof (name_free_route _ En) as Hfree.
  match goal with |- wf ?r' /\ _ =>
    destruct (wf_add r Hwf r' (site_name s) (RoutePhp s) eff p Hfree (index_conflict_None eff Ec))
      as [Hw ->]; try done end.
  - intros n. unfold route_for. simpl. rewrite lookup_insert. repeat case_decide; congruence.
  - symmetry. apply surjective_pairing.
  - intros n s'. simpl. rewrite lookup_insert. case_decide; [naive_solver|apply (wf_site_names r Hwf)].
  - apply (wf_proxy_names r Hwf).
  - intros n s'. simpl. rewrite lookup_insert. case_decide; [|apply (wf_disjoint r Hwf)].
    subst n. unfold route_for in Hfree. destruct (r_sites r !! _); [done|].
    by destruct (r_proxy_sites r !! _).
Qed.

Lemma refines_insert_proxy s eff p : refines (OpInsertProxy s eff p) r.
Proof using Hwf.
  unfold refines. simpl. unfold insert_proxy_with_domains, Spec.spec_insert.
  rewrite <- (name_taken_claims r Hwf), <- (index_conflict_held r Hwf).
  destruct (name_taken r _) eqn:En; [done|].
  destruct (index_conflict r eff) eqn:Ec; [done|]. simpl.
  pose proof (name_free_route _ En) as Hfree.
  assert (r_sites r !! proxy_name s = None) as Hsn.
  { unfold route_for in Hfree. by destruct (r_sites r !! _). }
  match goal with |- wf ?r' /\ _ =>
    destruct (wf_add r Hwf r' (proxy_name s) (RouteProxy s) eff p Hfree (index_conflict_None eff Ec))
      as [Hw ->]; try done end.
  - intros n. unfold route_for. simpl. rewrite lookup_insert. repeat case_decide; subst; try congruence.
    by rewrite Hsn.
  - symmetry. apply surjective_pairing.
  - apply (wf_site_names r Hwf).
  - intros n s'. simpl. rewrite lookup_insert. case_decide; [naive_solver|apply (wf_proxy_names r Hwf)].
  - intros n s' Hs. simpl in *. rewrite lookup_insert_ne; [by eapply (wf_disjoint r Hwf)|].
    intros <-. congruence.
Qed.

Lemma claimant_domains n rt : route_for r n = Some rt -> exists ds, r_domains r !! n = Some ds.
Proof using Hwf. intros H. apply (wf_domains r Hwf n). by rewrite H. Qed.

Lemma refines_remove n : refines (OpRemove n) r.
Proof using Hwf.
  unfold refines. simpl. unfold remove. rewrite claims_lookup.
  destruct (r_sites r !! n) as [s|] eqn:Es.
  - assert (route_for r n = Some (RoutePhp s)) as Hr by (unfold route_for; by rewrite Es).
    destruct (claimant_domains n _ Hr) as (ds & Hds). rewrite Hr, Hds. simpl.
    match goal with |- wf ?r' /\ _ => destruct (wf_del r Hwf r' n ds) as [Hw ->]; try done end.
    + intros k. unfold route_for. simpl. rewrite lookup_delete. repeat case_decide; subst; try congruence.
      by rewrite (wf_disjoint r Hwf k s Es).
    + symmetry. apply surjective_pairing.
    + intros k s'. simpl. rewrite lookup_delete. by case_decide.
  - simpl. unfold route_for. rewrite Es. destruct (r_proxy_sites r !! n); simpl; [|done].
    by destruct (r_domains r !! n).
Qed.

Lemma refines_remove_proxy n : refines (OpRemoveProxy n) r.
Proof using Hwf.
  unfold refines. simpl. unfold remove_proxy. rewrite claims_lookup.
  destruct (r_proxy_sites r !! n) as [s|] eqn:Es.
  - assert (r_sites r !! n = None) as Hsn.
    { destruct (r_sites r !! n) eqn:E; [|done]. by rewrite (wf_disjoint r Hwf n _ E) in Es. }
    assert (route_for r n = Some (RouteProxy s)) as Hr by (unfold route_for; by rewrite Hsn, Es).
    destruct (claimant_domains n _ Hr) as (ds & Hds). rewrite Hr, Hds. simpl.
    match goal with |- wf ?r' /\ _ => destruct (wf_del r Hwf r' n ds) as [Hw ->]; try done end.
    + intros k. unfold route_for. simpl. rewrite lookup_delete. repeat case_decide; subst; try congruence.
      by rewrite Hsn.
    + symmetry. apply surjective_pairing.
    + intros k s'. simpl. rewrite lookup_delete. by case_decide.
  - simpl. unfold route_for. rewrite Es. destruct (r_sites r !! n); simpl; [|done].
    by destruct (r_domains r !! n).
Qed.

Lemma refines_rules o :
  match o with OpSetProxyRules _ _ | OpSetRouteRules _ _ => refines o r | _ => True end.
Proof using Hwf.
  destruct o; try done; (split; [by destruct Hwf|done]).
Qed.

Lemma apply_setter_name f s : site_name (apply_setter f s) = site_name s.
Proof using. by destruct f. Qed.

Lemma refines_get_mut n f : refines (OpGetMut n f) r.
Proof using Hwf.
  assert (forall k, route_for (get_mut n f r) k =
    if decide (k = n) then match route_for r k with
                           | Some (RoutePhp s) => Some (RoutePhp (apply_setter f s))
                           | x => x
                           end else route_for r k) as Hr.
  { intros k. unfold route_for. simpl. case_decide as E.
    - subst. rewrite lookup_alter_eq. destruct (r_sites r !! n); simpl; [done|].
      by destruct (r_proxy_sites r !! n).
    - by rewrite lookup_alter_ne by done. }
  split; simpl.
  - pose proof Hwf as [H1 H2 H3 H4 H5 H6 H7 H8 H9].
    assert (forall k, is_Some (route_for (get_mut n f r) k) <-> is_Some (route_for r k)) as Hi.
    { intros k. rewrite Hr. case_decide; [|done].
      destruct (route_for r k) as [[]|]; [done|done|done]. }
    split; try done; simpl.
    + intros k s. rewrite lookup_alter. case_decide; [|apply H2]. subst.
      destruct (r_sites r !! k) eqn:E; simpl; [|done]. intros [= <-].
      rewrite apply_setter_name. by apply H2.
    + intros k s. rewrite lookup_alter. case_decide; [|apply H4]. subst.
      destruct (r_sites r !! k) eqn:E; simpl; [|done]. intros _. by eapply H4.
    + intros k. rewrite Hi. apply H5.
    + intros k. rewrite Hi. apply H6.
  - f_equal. apply map_eq. intros k. rewrite lookup_alter, !claims_lookup, Hr. simpl.
    repeat case_decide; subst; try done.
    destruct (route_for r k) as [[]|]; simpl; by destruct (r_domains r !! k).
Qed.

Lemma refines_all o : refines o r.
Proof using Hwf.
  destruct o.
  - apply refines_insert.
  - apply refines_remove.
  - apply refines_get_mut.
  - apply refines_insert_proxy.
  - apply refines_remove_proxy.
  - apply (refines_rules (OpSetProxyRules _ _)).
  - apply (refines_rules (OpSetRouteRules _ _)).
Qed.

End Ops.

Lemma apply_op_config r o : r_config (apply_op o r).2 = r_config r.
Proof.
  destruct o; simpl; try done;
    unfold insert_with_domains, insert_proxy_with_domains, remove, remove_proxy;
    repeat case_match; simplify_eq; done.
Qed.

(** ** Runs and reachability *)

Lemma run_refines_from ops r :
  wf r ->
  let '(outs, r') := run ops r in
  wf r' /\ r_config r' = r_config r /\ spec_run ops (claims r) = (outs, claims r').
Proof.
  revert r; induction ops as [|o ops IH]; intros r Hwf; simpl; [done|].
  destruct (refines_all r Hwf o) as [Hw Hs]. pose proof (apply_op_config r o) as Hc.
  destruct (apply_op o r) as [x r1]. simpl in *.
  specialize (IH r1 Hw). destruct (run ops r1) as [xs r2]. destruct IH as (H1 & H2 & H3).
  split; [done|]. split; [congruence|]. by rewrite Hs, H3.
Qed.

Lemma reachable_inv r : reachable r -> wf r.
Proof.
  intros (t & Hr). assert (wf (SiteRouter_new (with_tld t))) as H0 by by apply wf_new.
  remember (SiteRouter_new (with_tld t)) as r0 eqn:E. clear E.
  induction Hr as [|r0 r1 r2 Hs Hr IH]; [done|]. apply IH. destruct Hs as [o r0].
  by destruct (refines_all r0 H0 o).
Qed.

(** C12. The router refines its contract: for every suffix and every sequence of
    insertions, removals, in-place edits and rule updates from the empty router,
    the results and errors are those of a plain map from claimant name to its
    route and domain set, and every host resolves as the contract says: strip
    the suffix, look for the claimant of that exact domain, otherwise for the
    claimant of the same name with its first label replaced by a star. *)
Theorem run_refines t ops :
  let '(outs, r) := run ops (SiteRouter_new (with_tld t)) in
  spec_run ops ∅ = (outs, claims r) /\
  forall host, resolve_route r host = Spec.spec_resolve_host (claims r) (Tld_str t) host.
Proof.
  destruct (wf_new (with_tld t) eq_refl) as [Hw Hc].
  pose proof (run_refines_from ops _ Hw) as H. rewrite Hc in H.
  destruct (run ops _) as [outs r]. destruct H as (H1 & H2 & H3). split; [done|].
  intros host. by rewrite (resolve_route_spec r H1), H2.
Qed.

(** The invariant of every reachable router: names key their own entries,
    no name is both a site and a proxy, domain sets and primaries exist for
    exactly the claimants, an index entry for a domain names the one claimant
    whose set holds it (so no two claimants share a domain), and each index
    holds only keys of its own kind. *)
Theorem reachable_wf r (Hr : reachable r) : wf r.
Proof. by apply reachable_inv. Qed.

(** A small router the witnesses run on: one site with an exact and a wildcard
    domain. *)
Definition demo_site : Site :=
  mkSite "blog"%str "/srv/blog"%str [] (mkPhp 8 3) false Linked false None None.
Definition demo_domains : list Domain := [mkDomain "blog"%str; mkDomain "*.blog"%str].
Definition demo_router : SiteRouter :=
  (insert_with_domains demo_site demo_domains (mkDomain "blog"%str)
     (SiteRouter_new (with_tld (mkTld "test"%str)))).2.

Lemma demo_reachable : reachable demo_router.
Proof.
  exists (mkTld "test"%str). apply rtc_once.
  apply (step_op (OpInsert demo_site demo_domains (mkDomain "blog"%str))).
Qed.

Lemma reachable_wf_witness : wf demo_router.
Proof. apply reachable_wf. apply demo_reachable. Defined.

(** ** Removing what was inserted *)

Lemma indices_ext idx idx' :
  (forall d, idx_lookup idx d = idx_lookup idx' d) ->
  (forall k, is_wildcard (mkDomain k) = true -> idx.1 !! k = idx'.1 !! k) ->
  (forall k, is_wildcard (mkDomain k) = false -> idx.2 !! k = idx'.2 !! k) ->
  idx = idx'.
Proof.
  destruct idx as [a b], idx' as [a' b']. simpl. intros H H1 H2.
  f_equal; apply map_eq; intros k; destruct (is_wildcard (mkDomain k)) eqn:E; auto;
    specialize (H (mkDomain k)); unfold idx_lookup in H; by rewrite E in H.
Qed.

Lemma unindex_index name eff idx :
  (forall d, d ∈ eff -> idx_lookup idx d = None) ->
  (forall k, is_wildcard (mkDomain k) = true -> idx.1 !! k = None) ->
  (forall k, is_wildcard (mkDomain k) = false -> idx.2 !! k = None) ->
  unindex_all name eff (index_all name eff idx) = idx.
Proof.
  intros Hfree H1 H2. apply indices_ext.
  - intros d. rewrite idx_lookup_unall, idx_lookup_all. repeat case_decide; naive_solver.
  - intros k Hk. rewrite (H1 k Hk). apply unindex_all_shape.
    by rewrite (proj1 (index_all_shape name eff idx k) Hk), H1.
  - intros k Hk. rewrite (H2 k Hk). apply unindex_all_shape.
    by rewrite (proj2 (index_all_shape name eff idx k) Hk), H2.
Qed.

(** From a reachable router, a rejected insertion changes nothing, and a
    successful one followed by the removal of the same name returns the inserted
    site and restores the router exactly (identity maps, primaries and both
    indices), provided the name had no stale forwarding rules. *)
Theorem insert_remove_roundtrip r s eff p (Hr : reachable r) :
  match insert_with_domains s eff p r with
  | (Err _, r') => r' = r
  | (Ok _, r') =>
      r_proxy_rules r !! site_name s = None -> r_route_rules r !! site_name s = None ->
      remove (site_name s) r' = (Ok s, r)
  end.
Proof.
  apply reachable_inv in Hr as Hwf. unfold insert_with_domains.
  destruct (name_taken r _) eqn:En; [done|].
  destruct (index_conflict r eff) eqn:Ec; [done|].
  pose proof (name_free_route r _ En) as Hfree.
  intros Hp Hrr. unfold remove. simpl. rewrite !lookup_insert_eq. simpl.
  rewrite <- surjective_pairing, unindex_index; simpl.
  - unfold route_for in Hfree.
    destruct (r_sites r !! site_name s) eqn:Es; [done|].
    assert (r_domains r !! site_name s = None) as Hd.
    { destruct (r_domains r !! _) eqn:E; [|done]. apply (domains_route r Hwf) in E as (rt & E).
      unfold route_for in E. rewrite Es in E. congruence. }
    assert (r_primaries r !! site_name s = None) as Hpr.
    { apply eq_None_not_Some. rewrite (wf_primaries r Hwf). unfold route_for. rewrite Es, Hfree.
      by intros []. }
    rewrite !delete_insert_id by done.
    rewrite (delete_id (r_proxy_rules r)), (delete_id (r_route_rules r)) by done.
    by destruct r.
  - intros d Hd. rewrite <- domain_owner_idx. by eapply index_conflict_None.
  - apply (wf_exact r Hwf).
  - apply (wf_wildcards r Hwf).
Qed.

Lemma empty_reachable t : reachable (SiteRouter_new (with_tld t)).
Proof. exists t. apply rtc_refl. Qed.

Lemma insert_remove_roundtrip_witness :
  remove "blog"%str demo_router = (Ok demo_site, SiteRouter_new (with_tld (mkTld "test"%str))).
Proof.
  exact (insert_remove_roundtrip (SiteRouter_new (with_tld (mkTld "test"%str))) demo_site
    demo_domains (mkDomain "blog"%str) (empty_reachable _) eq_refl eq_refl).
Defined.

(** ** An inserted domain answers *)

Lemma dns_name_app a b : dns_name a = true -> dns_name b = true -> dns_name (a ++ "."%ch :: b) = true.
Proof.
  unfold dns_name. intros Ha Hb. rewrite split_char_app_all, forallb_app. by rewrite Ha, Hb.
Qed.

Lemma resolve_exact r d n :
  wf r -> dns_name (Tld_str (cfg_tld (r_config r))) = true -> dns_name (Domain_str d) = true ->
  domain_owner r d = Some n ->
  resolve_route r (to_fqdn d (Tld_str (cfg_tld (r_config r)))) = route_for r n.
Proof.
  intros Hwf Ht Hd Ho. rewrite resolve_route_spec by done. unfold Spec.spec_resolve_host, to_fqdn.
  rewrite normalise_dns_name by by apply dns_name_app.
  rewrite (proj2 (strip_suffix_Some _ _ (Domain_str d))) by done.
  pose proof (dns_name_ne _ Hd) as Hne. destruct (Domain_str d) as [|c s] eqn:Es; [done|].
  rewrite <- Es in *. unfold Spec.spec_resolve. rewrite dns_name_not_wildcard by done.
  destruct d as [d]. simpl in *. rewrite holder_owner, Ho by done.
  by destruct (owner_route r Hwf _ _ Ho) as (rt & ->).
Qed.

(** After a successful insertion into a reachable router under a valid
    suffix, every exact domain of the site resolves to that site at its full
    host name. *)
Theorem inserted_domain_resolves r s eff p d (Hr : reachable r)
  (Ht : dns_name (Tld_str (cfg_tld (r_config r))) = true)
  (Hok : (insert_with_domains s eff p r).1 = Ok tt)
  (Hd : d ∈ eff) (Hn : dns_name (Domain_str d) = true) :
  resolve_route (insert_with_domains s eff p r).2 (to_fqdn d (Tld_str (cfg_tld (r_config r))))
  = Some (RoutePhp s).
Proof.
  apply reachable_inv in Hr as Hwf.
  destruct (refines_all r Hwf (OpInsert s eff p)) as [Hw Hs].
  pose proof (apply_op_config r (OpInsert s eff p)) as Hc. simpl in Hw, Hs, Hc.
  destruct (insert_with_domains s eff p r) as [o r'] eqn:E. simpl in *. subst o.
  rewrite <- Hc in *. unfold Spec.spec_insert in Hs.
  case_bool_decide; [done|]. destruct (find_first _ _); [done|]. injection Hs as Hcl.
  assert (route_for r' (site_name s) = Some (RoutePhp s) /\ r_domains r' !! site_name s = Some eff) as [H1 H2].
  { apply claims_lookup_Some. by rewrite <- Hcl, lookup_insert_eq. }
  rewrite (resolve_exact r' d (site_name s)); try done. apply (wf_owner r' Hw). by exists eff.
Qed.

Lemma inserted_domain_resolves_witness :
  resolve_route demo_router "blog.test"%str = Some (RoutePhp demo_site).
Proof.
  apply (inserted_domain_resolves (SiteRouter_new (with_tld (mkTld "test"%str))) demo_site demo_domains
    (mkDomain "blog"%str) (mkDomain "blog"%str) (empty_reachable _)).
  - vm_compute. reflexivity.
  - vm_compute. reflexivity.
  - by left.
  - vm_compute. reflexivity.
Defined.
