(* ===== verification/Project.v ===== *)
(** * Container projects and web-root detection

    [src/crates/orcker-core/src/ports.rs] (the loopback port range and the
    choice of a port), [project.rs] (a project and the whole-host proxy it
    contributes) and [detect.rs] (which sub-directory of a PHP project to
    serve).  The question "is this port free right now?" is the source's
    [PortProbe] trait, a type class here. *)

From S2P Require Import Prelude RustStr RustPath CoreError DnsLabel Tld Domain Site Proxy.

Open Scope N_scope.

(** ** Port allocation *)

Definition FIRST_PROJECT_PORT : N := 20000.
Definition LAST_PROJECT_PORT : N := 29999.

Class PortProbe (P : Type) := is_free : P -> N -> bool.

(** The range [FIRST_PROJECT_PORT..=LAST_PROJECT_PORT]. *)
Definition port_range (first last : N) : list N :=
  (fun i => first + N.of_nat i) <$> seq 0 (N.to_nat (last + 1 - first)).

Definition allocate_port `{PortProbe P} (taken : gset N) (probe : P) : result CoreError N :=
  ok_or (PortRangeExhausted FIRST_PROJECT_PORT LAST_PROJECT_PORT)
    (find_first (fun port => negb (bool_decide (port ∈ taken)) && is_free probe port)
       (port_range FIRST_PROJECT_PORT LAST_PROJECT_PORT)).

(** ** Container projects *)

Record ContainerProject := mkProject {
  project_name : str;
  project_root : str;
  project_port : N;
  project_secure : bool;
}.
#[export] Instance ContainerProject_eq_dec : EqDecision ContainerProject.
Proof. solve_decision. Defined.

Definition ContainerProject_new (name root : str) (port : N) : result CoreError ContainerProject :=
  name ← validate_and_lowercase_name name;
  Ok (mkProject name root port false).

Definition project_set_secure (secure : bool) (p : ContainerProject) : ContainerProject :=
  mkProject (project_name p) (project_root p) (project_port p) secure.

Definition upstream (p : ContainerProject) : result CoreError UpstreamTarget :=
  from_url_str ("http://127.0.0.1:"%str ++ show_uint (project_port p)).

Definition proxy_site (p : ContainerProject) : result CoreError ProxySite :=
  target ← upstream p;
  proxy ← ProxySite_new (project_name p) target;
  Ok (proxy_set_secure (project_secure p) proxy).

(** ** Web-root detection *)

Definition WEB_DIR_CANDIDATES : list str := ["public"%str; "web"%str; "webroot"%str; "pub"%str].

Definition ROOT_MARKERS : list str :=
  ["artisan"%str; "wp-config.php"%str; "wp-load.php"%str; "bin/console"%str; "spark"%str;
   "bin/cake"%str; "bin/magento"%str; "yii"%str; "index.php"%str; "core"%str].

Record ProjectSignals := mkSignals {
  composer_requires : gset str;
  markers : gset str;
  web_dirs_with_index : gset str;
}.

Record Detection := mkDetection { subpath : str; resolved : bool }.
Definition Detection_sub (dir : str) : Detection := mkDetection dir true.
Definition Detection_root : Detection := mkDetection [] true.
Definition Detection_unresolved : Detection := mkDetection [] false.

Record FrameworkRule := mkFramework { package : str; marker : str; web_dir : str }.

Definition PUBLIC_FRAMEWORKS : list FrameworkRule :=
  [mkFramework "laravel/framework"%str "artisan"%str "public"%str;
   mkFramework "symfony/framework-bundle"%str "bin/console"%str "public"%str;
   mkFramework "codeigniter4/framework"%str "spark"%str "public"%str;
   mkFramework "cakephp/cakephp"%str "bin/cake"%str "webroot"%str].

Definition OTHER_FRAMEWORKS : list FrameworkRule :=
  [mkFramework "yiisoft/yii2"%str [] "web"%str;
   mkFramework "magento/product-community-edition"%str "bin/magento"%str "pub"%str].

(** [BTreeSet::contains] *)
Definition has (s : gset str) (k : str) : bool := bool_decide (k ∈ s).

Definition match_framework (sig : ProjectSignals) (rules : list FrameworkRule) : option Detection :=
  find_map (fun r =>
    let by_package := has (composer_requires sig) (package r) in
    let by_marker := negb (is_empty (marker r)) && has (markers sig) (marker r) in
    if (by_package || by_marker) && has (web_dirs_with_index sig) (web_dir r)
    then Some (Detection_sub (web_dir r)) else None) rules.

Definition detect_drupal (sig : ProjectSignals) : option Detection :=
  if negb (existsb (starts_with "drupal/core") (elements (composer_requires sig))) then None
  else if has (web_dirs_with_index sig) "web"%str then Some (Detection_sub "web"%str)
  else if has (markers sig) "index.php"%str && has (markers sig) "core"%str then Some Detection_root
  else None.

Definition detect (sig : ProjectSignals) : Detection :=
  match match_framework sig PUBLIC_FRAMEWORKS with
  | Some d => d
  | None =>
  match detect_drupal sig with
  | Some d => d
  | None =>
  match match_framework sig OTHER_FRAMEWORKS with
  | Some d => d
  | None =>
    if has (markers sig) "wp-config.php"%str || has (markers sig) "wp-load.php"%str
    then Detection_root
    else match find_first (has (web_dirs_with_index sig)) WEB_DIR_CANDIDATES with
         | Some cand => Detection_sub cand
         | None => if has (markers sig) "index.php"%str then Detection_root else Detection_unresolved
         end
  end end end.

(** ** Lemmas *)

Lemma elem_of_port_range first last p : first <= last -> p ∈ port_range first last <-> first <= p <= last.
Proof.
  intros Hf. unfold port_range. rewrite list_elem_of_fmap. setoid_rewrite elem_of_seq. split.
  - intros (i & -> & Hi). lia.
  - intros Hp. exists (N.to_nat (p - first)). lia.
Qed.

(** What is before a port in the range is below it. *)
Lemma port_range_split first last l1 p l2 q :
  port_range first last = l1 ++ p :: l2 -> first <= q -> q < p -> q ∈ l1.
Proof.
  unfold port_range. intros H Hq Hlt.
  assert (p = first + N.of_nat (length l1)) as ->.
  { pose proof (list_lookup_middle l1 l2 p _ eq_refl) as Hl. rewrite <- H, list_lookup_fmap in Hl.
    destruct (seq 0 _ !! length l1) as [i|] eqn:E; [|done]. simpl in Hl.
    apply lookup_seq in E as [-> _]. injection Hl as <-. lia. }
  pose proof (f_equal (fun l => l !! N.to_nat (q - first)) H) as Hl. simpl in Hl.
  rewrite list_lookup_fmap, (lookup_app_l l1) in Hl by lia.
  assert (is_Some (l1 !! N.to_nat (q - first))) as [x Hx] by (apply lookup_lt_is_Some; lia).
  rewrite Hx in Hl. destruct (seq 0 _ !! _) as [i|] eqn:E; [|done]. simpl in Hl.
  apply lookup_seq in E as [-> _]. injection Hl as Hl.
  assert (x = q) as -> by lia. by apply list_elem_of_lookup_2 in Hx.
Qed.

Lemma allocate_port_spec `{PortProbe P} (taken : gset N) (probe : P) :
  let usable p := 20000 <= p <= 29999 /\ p ∉ taken /\ is_free probe p = true in
  match allocate_port taken probe with
  | Ok p => usable p /\ forall q, q < p -> ~ usable q
  | Err e => e = PortRangeExhausted 20000 29999 /\ forall q, ~ usable q
  end.
Proof.
  unfold allocate_port. destruct (find_first _ _) as [p|] eqn:E; simpl.
  - apply find_first_Some in E as (l1 & l2 & Hl & Hp & Hbefore). bprop.
    assert (p ∈ port_range FIRST_PROJECT_PORT LAST_PROJECT_PORT) as Hin by (rewrite Hl; set_solver).
    apply elem_of_port_range in Hin; [|by vm_compute]. split; [done|].
    intros q Hq (Hr & Ht & Hf). rewrite Forall_forall in Hbefore.
    assert (q ∈ l1) as Hq1 by (eapply port_range_split; [exact Hl| |done]; apply Hr).
    apply Hbefore in Hq1. by rewrite Hf, bool_decide_false in Hq1.
  - split; [done|]. intros q (Hr & Ht & Hf). rewrite find_first_None, Forall_forall in E.
    assert (q ∈ port_range FIRST_PROJECT_PORT LAST_PROJECT_PORT) as Hin by (by apply elem_of_port_range).
    apply E in Hin. by rewrite Hf, bool_decide_false in Hin.
Qed.

(** Port allocation returns the lowest port of 20000..=29999 that is neither
    reserved nor busy, and fails with [PortRangeExhausted] exactly when there is
    none. *)
Theorem allocate_port_lowest `{PortProbe P} (taken : gset N) (probe : P) :
  let usable p := 20000 <= p <= 29999 /\ p ∉ taken /\ is_free probe p = true in
  match allocate_port taken probe with
  | Ok p => usable p /\ forall q, q < p -> ~ usable q
  | Err e => e = PortRangeExhausted 20000 29999 /\ forall q, ~ usable q
  end.
Proof. exact (allocate_port_spec taken probe). Qed.

(** A registered project always contributes a routable proxy: for every
    accepted name and every port but 0 the proxy entry exists, carries the
    validated name, forwards to plain HTTP on 127.0.0.1 at the project's port
    and keeps its HTTPS flag; port 0 is the one port that is refused. *)
Theorem project_proxy_site name root port secure :
  match ContainerProject_new name root port with
  | Err e => exists r, e = InvalidSiteName name r
  | Ok p =>
      port <= u16_max ->
      match proxy_site (project_set_secure secure p) with
      | Ok px => 0 < port /\ px = mkProxySite (to_ascii_lowercase name) (mkTarget false "127.0.0.1"%str port) secure
      | Err e => port = 0 /\ e = InvalidUpstreamTarget "http://127.0.0.1:0"%str UpstreamInvalidPort
      end
  end.
Proof.
  unfold ContainerProject_new. destruct (validate_and_lowercase_name name) as [n|e] eqn:En;
    cbn [mbind result_bind].
  - intros Hp. apply validate_name_spec in En as [Hn Hl]. unfold proxy_site, upstream.
    cbn [project_port project_set_secure].
    destruct (N.eq_dec port 0) as [->|H0]; [vm_compute; done|].
    pose proof (from_url_str_fmt (mkTarget false "127.0.0.1"%str port)) as Hf.
    change (fmt (mkTarget false "127.0.0.1"%str port)) with ("http://127.0.0.1:"%str ++ show_uint port) in Hf.
    rewrite Hf; [|split; [done|split; vm_compute; reflexivity]|simpl; lia].
    assert (validate_proxy_name n = Ok n) as Hv.
    { apply validate_proxy_name_spec. split; [by apply dns_label_name|].
      pose proof (dns_label_len _ Hn). split; [lia|by apply dns_label_lower]. }
    cbn [mbind result_bind project_set_secure project_name project_secure]. unfold ProxySite_new. rewrite Hv.
    cbn [mbind result_bind]. subst n.
    split; [lia|done].
  - unfold validate_and_lowercase_name, site_err in En. steps_in En; injection En as <-; eauto.
Qed.

Lemma project_proxy_site_witness :
  proxy_site (project_set_secure true (mkProject "shop"%str "/srv/shop"%str 20000 false))
  = Ok (mkProxySite "shop"%str (mkTarget false "127.0.0.1"%str 20000) true).
Proof.
  pose proof (project_proxy_site "Shop"%str "/srv/shop"%str 20000 true) as H.
  specialize (H ltac:(vm_compute; discriminate)). vm_compute in H. destruct H as [_ H].
  vm_compute. by f_equal.
Defined.

(** ** Detection *)

Lemma match_framework_Some sig rules d :
  match_framework sig rules = Some d ->
  exists r, r ∈ rules /\ d = Detection_sub (web_dir r) /\ web_dir r ∈ web_dirs_with_index sig.
Proof.
  unfold match_framework. intros (r & Hr & Hf)%find_map_Some. exists r. split; [done|].
  destruct (_ && _) eqn:E; [|done]. apply andb_true_iff in E as [_ E]. unfold has in E. bprop.
  by injection Hf as <-.
Qed.

Lemma detect_drupal_Some sig d :
  detect_drupal sig = Some d ->
  (d = Detection_sub "web"%str /\ "web"%str ∈ web_dirs_with_index sig) \/
  (d = Detection_root /\ "index.php"%str ∈ markers sig).
Proof.
  unfold detect_drupal, has. intros H. repeat step_in H; bprop; injection H as <-; auto.
Qed.

Lemma framework_candidate r :
  r ∈ PUBLIC_FRAMEWORKS ++ OTHER_FRAMEWORKS -> web_dir r ∈ WEB_DIR_CANDIDATES.
Proof. revert r. apply Forall_forall. repeat constructor; apply (bool_decide_unpack _); vm_compute; done. Qed.

(** The detected web root is the project root or one of the four candidate
    directories that really has an [index.php]; detection stays unresolved (and
    serves the root) exactly when no candidate has one, the root has none and
    no WordPress marker is there. *)
Theorem detect_sound sig :
  let d := detect sig in
  (subpath d = [] \/ subpath d ∈ WEB_DIR_CANDIDATES /\ subpath d ∈ web_dirs_with_index sig) /\
  (resolved d = false <->
    (forall c, c ∈ WEB_DIR_CANDIDATES -> c ∉ web_dirs_with_index sig) /\
    "index.php"%str ∉ markers sig /\ "wp-config.php"%str ∉ markers sig /\ "wp-load.php"%str ∉ markers sig).
Proof.
  assert (forall c, c ∈ WEB_DIR_CANDIDATES -> c ∈ web_dirs_with_index sig ->
    let d := Detection_sub c in
    (subpath d = [] \/ subpath d ∈ WEB_DIR_CANDIDATES /\ subpath d ∈ web_dirs_with_index sig) /\
    (resolved d = false <->
    (forall c, c ∈ WEB_DIR_CANDIDATES -> c ∉ web_dirs_with_index sig) /\
    "index.php"%str ∉ markers sig /\ "wp-config.php"%str ∉ markers sig /\ "wp-load.php"%str ∉ markers sig))
    as Hsub by naive_solver.
  unfold detect. destruct (match_framework sig PUBLIC_FRAMEWORKS) as [d|] eqn:E1.
  { apply match_framework_Some in E1 as (r & Hr & -> & Hw). apply Hsub; [|done].
    apply framework_candidate, elem_of_app. by left. }
  destruct (detect_drupal sig) as [d|] eqn:E2.
  { apply detect_drupal_Some in E2 as [[-> Hw]|[-> Hi]]; [by apply Hsub; [set_solver|]|naive_solver]. }
  destruct (match_framework sig OTHER_FRAMEWORKS) as [d|] eqn:E3.
  { apply match_framework_Some in E3 as (r & Hr & -> & Hw). apply Hsub; [|done].
    apply framework_candidate, elem_of_app. by right. }
  unfold has. destruct (_ || _) eqn:E4.
  { apply orb_true_iff in E4 as [?|?]; bprop; naive_solver. }
  destruct (find_first _ _) as [c|] eqn:E5.
  { apply find_first_Some in E5 as (l1 & l2 & Hl & Hc & _). bprop. apply Hsub; [|done].
    rewrite Hl. apply elem_of_app. right. by left. }
  rewrite find_first_None, Forall_forall in E5. bprop.
  case_bool_decide; simpl; [naive_solver|]. split; [by left|]. split; [|done]. intros _.
  split; [|done]. intros c Hc%E5. by bprop.
Qed.
