(* ===== verification/Settings.v ===== *)
(** * Configuration text that reaches generated files

    [src/crates/orcker-core/src/php_settings.rs] (the managed PHP settings),
    [php_directives.rs] (free-form ini directives), [php_extensions.rs]
    (registered extensions) and [service_directives.rs] (service override
    files).  Each has validators, which are the injection boundary, and
    renderers, which re-check before writing a line. *)

From S2P Require Import Prelude RustStr RustText RustMap RustPath CoreError.

Open Scope N_scope.

(** A line feed, and a [BTreeMap<String, String>]. *)
Notation smap := (gmap str str).

(** ** Managed PHP settings *)

Definition PHP_MAX_VALUE_LEN : N := 256.

Inductive Kind :=
| KindBytes (allow_unlimited : bool)
| KindInt
| KindFlag
| KindErrorReporting.

Record Spec := mkSpec { spec_name : str; spec_kind : Kind; spec_default : str; spec_cli : bool }.

Definition SETTINGS : list Spec :=
  [mkSpec "memory_limit"%str (KindBytes true) "512M"%str true;
   mkSpec "max_execution_time"%str KindInt "60"%str true;
   mkSpec "max_input_time"%str KindInt "60"%str false;
   mkSpec "max_file_uploads"%str KindInt "20"%str false;
   mkSpec "upload_max_filesize"%str (KindBytes false) "100M"%str false;
   mkSpec "post_max_size"%str (KindBytes false) "100M"%str false;
   mkSpec "display_errors"%str KindFlag "On"%str true;
   mkSpec "error_reporting"%str KindErrorReporting "E_ALL"%str true].

Definition spec (name : str) : option Spec := find_first (fun s => str_eqb (spec_name s) name) SETTINGS.
Definition is_supported (name : str) : bool := match spec name with Some _ => true | None => false end.
Definition supported_names : list str := map spec_name SETTINGS.
Definition default_settings : list (str * str) := map (fun s => (spec_name s, spec_default s)) SETTINGS.
Definition applies_to_cli (name : str) : bool :=
  match spec name with Some s => spec_cli s | None => false end.

Inductive ValueErrorReason :=
| ValueEmpty | ValueTooLong | ValueIllegalCharacter | NotAByteSize | NotAnInteger | NotABoolean
| NotErrorReporting.

Definition ValueErrorReason_fmt (r : ValueErrorReason) : str :=
  match r with
  | ValueEmpty => "value must not be empty"%str
  | ValueTooLong => "value is too long"%str
  | ValueIllegalCharacter => "value contains a control or reserved character ([ ] = ; #)"%str
  | NotAByteSize => "expected a byte size like 256M, 1G, or -1"%str
  | NotAnInteger => "expected a non-negative integer"%str
  | NotABoolean => "expected On or Off"%str
  | NotErrorReporting => "expected an integer or a constant like E_ALL & ~E_DEPRECATED"%str
  end.

Inductive PhpSettingError :=
| SettingUnsupported (name : str)
| SettingInvalidValue (name : str) (reason : ValueErrorReason).

Definition is_uint (s : str) : bool := negb (is_empty s) && forallb is_ascii_digit s.

(** [s.strip_suffix(['K', 'M', 'G', 'k', 'm', 'g'])] *)
Definition is_size_suffix (c : N) : bool :=
  (c =? "K"%ch) || (c =? "M"%ch) || (c =? "G"%ch) || (c =? "k"%ch) || (c =? "m"%ch) || (c =? "g"%ch).
Definition strip_size_suffix (s : str) : str :=
  match rev s with c :: r => if is_size_suffix c then rev r else s | [] => s end.

Definition is_byte_size (s : str) (allow_unlimited : bool) : bool :=
  if allow_unlimited && str_eqb s "-1" then true
  else
    let digits := strip_size_suffix s in
    negb (is_empty digits) && forallb is_ascii_digit digits.

Definition parse_flag (s : str) : option bool :=
  let l := to_ascii_lowercase s in
  if str_eqb l "on" || str_eqb l "1" || str_eqb l "true" then Some true
  else if str_eqb l "off" || str_eqb l "0" || str_eqb l "false" then Some false
  else None.

Definition is_error_reporting (s : str) : bool :=
  existsb (fun c => negb (is_whitespace c)) s
  && forallb (fun c => is_ascii_alphanumeric c || (c =? "_"%ch) || (c =? " "%ch) || (c =? "&"%ch)
       || (c =? "|"%ch) || (c =? "~"%ch) || (c =? "^"%ch) || (c =? "("%ch) || (c =? ")"%ch)
       || (c =? "-"%ch)) s.

(** A control character or an FPM/ini metacharacter. *)
Definition ini_meta (c : N) : bool :=
  is_control c || (c =? "["%ch) || (c =? "]"%ch) || (c =? "="%ch) || (c =? ";"%ch) || (c =? "#"%ch).

Definition php_validate_value (name value : str) : result PhpSettingError unit :=
  sp ← ok_or (SettingUnsupported name) (spec name);
  let err r := SettingInvalidValue name r in
  if is_empty value || forallb is_whitespace value then Err (err ValueEmpty)
  else if PHP_MAX_VALUE_LEN <? len value then Err (err ValueTooLong)
  else if existsb ini_meta value then Err (err ValueIllegalCharacter)
  else
    let t := trim value in
    let ok := match spec_kind sp with
              | KindBytes allow_unlimited => is_byte_size t allow_unlimited
              | KindInt => is_uint t
              | KindFlag => match parse_flag t with Some _ => true | None => false end
              | KindErrorReporting => is_error_reporting t
              end in
    if ok then Ok tt
    else Err (err (match spec_kind sp with
                   | KindBytes _ => NotAByteSize
                   | KindInt => NotAnInteger
                   | KindFlag => NotABoolean
                   | KindErrorReporting => NotErrorReporting
                   end)).

Definition canonical_value (name value : str) : str :=
  match spec_kind <$> spec name with
  | Some KindFlag => match parse_flag (trim value) with
                     | Some true => "On"%str
                     | Some false => "Off"%str
                     | None => trim value
                     end
  | _ => trim value
  end.

Definition directive (name : str) : option str :=
  match spec name with
  | Some s => Some (match spec_kind s with KindFlag => "php_flag"%str | _ => "php_value"%str end)
  | None => None
  end.

(** One [name = value] line. *)
Definition ini_line (name value : str) : str := name ++ " = "%str ++ value.

Definition render_cli_ini (settings : smap) : str :=
  foldl (fun out s =>
    match settings !! spec_name s with
    | Some raw =>
        if is_ok (php_validate_value (spec_name s) raw)
        then out ++ ini_line (spec_name s) (canonical_value (spec_name s) raw) ++ [NL]
        else out
    | None => out
    end) [] (bfilter spec_cli SETTINGS).

Definition quote : N := 34.
Definition render_cli_ini_with_ext (settings : smap) (extensions : list (str * bool)) : str :=
  foldl (fun out (e : str * bool) =>
    if existsb (fun c => is_control c || (c =? quote) || (c =? 0)) e.1 then out
    else out ++ (if e.2 then "zend_extension"%str else "extension"%str)
             ++ " = "%str ++ [quote] ++ e.1 ++ [quote] ++ [NL])
    (render_cli_ini settings) extensions.

Definition sanitize_ca_bundle_path (path : str) : option str :=
  if existsb (fun c => is_control c || (c =? ";"%ch) || (c =? "#"%ch)) path then None else Some path.

Definition render_cover_ini (base pcov_so : str) : option str :=
  path ← sanitize_ca_bundle_path pcov_so;
  let out := if negb (is_empty base) && negb (ends_with [NL] base) then base ++ [NL] else base in
  Some (out ++ "extension = "%str ++ path ++ [NL] ++ "pcov.enabled = 1"%str ++ [NL]).

Definition merge_effective (global overrides : smap) : smap :=
  foldl (fun (m : smap) (kv : str * str) => if is_supported kv.1 then <[kv.1 := kv.2]> m else m)
    ∅ (btree_iter global ++ btree_iter overrides).

(** ** Free-form directives *)

Definition DIRECTIVE_MAX_NAME_LEN : N := 128.
Definition DIRECTIVE_MAX_VALUE_LEN : N := 256.

Definition RESERVED : list (str * str) :=
  [("extension"%str, "extensions are managed with `orcker php ext` (or the GUI extensions panel)"%str);
   ("zend_extension"%str, "extensions are managed with `orcker php ext` (or the GUI extensions panel)"%str);
   ("openssl.cafile"%str, "Orcker manages the CA bundle for this"%str);
   ("curl.cainfo"%str, "Orcker manages the CA bundle for this"%str)].

Definition directive_reserved (name : str) : option str :=
  if is_supported name then
    Some "this setting is managed with `orcker set php` (add --only <version> for a per-version value)"%str
  else if starts_with "pm." name then
    Some "pm.* settings are FPM pool-block directives, not php.ini directives, and cannot be set this way"%str
  else snd <$> find_first (fun e => str_eqb (fst e) name) RESERVED.

Inductive DirectiveNameErrorReason :=
| DirNameEmpty | DirNameTooLong | DirNameIllegalStart | DirNameIllegalCharacter.

Definition DirectiveNameErrorReason_fmt (r : DirectiveNameErrorReason) : str :=
  match r with
  | DirNameEmpty => "name must not be empty"%str
  | DirNameTooLong => "name is too long"%str
  | DirNameIllegalStart => "name must start with a letter or '_'"%str
  | DirNameIllegalCharacter => "name may only contain letters, digits, '.', '_' and '-'"%str
  end.

Inductive DirectiveError :=
| DirectiveName (reason : DirectiveNameErrorReason)
| DirectiveValue (reason : ValueErrorReason).

Definition name_char (b : N) : bool :=
  is_ascii_alphanumeric b || (b =? "."%ch) || (b =? "_"%ch) || (b =? "-"%ch).

Definition directive_validate_name (name : str) : result DirectiveError unit :=
  let err r := Err (DirectiveName r) in
  match name with
  | [] => err DirNameEmpty
  | first :: _ =>
      if DIRECTIVE_MAX_NAME_LEN <? len name then err DirNameTooLong
      else if negb (is_ascii_alphabetic first || (first =? "_"%ch)) then err DirNameIllegalStart
      else if negb (forallb name_char name) then err DirNameIllegalCharacter
      else Ok tt
  end.

Definition directive_validate_value (value : str) : result DirectiveError unit :=
  let err r := Err (DirectiveValue r) in
  if is_empty value || forallb is_whitespace value then err ValueEmpty
  else if DIRECTIVE_MAX_VALUE_LEN <? len value then err ValueTooLong
  else if existsb ini_meta value then err ValueIllegalCharacter
  else Ok tt.

Definition directive_ok (name value : str) : bool :=
  negb (negb (is_ok (directive_validate_name name))
        || negb (is_ok (directive_validate_value value))
        || match directive_reserved name with Some _ => true | None => false end).

Definition render_ini_lines (directives : smap) : str :=
  foldl (fun out (kv : str * str) =>
    if negb (directive_ok kv.1 kv.2) then out
    else out ++ kv.1 ++ " = "%str ++ trim kv.2 ++ [NL]) [] (btree_iter directives).

(** ** Registered extensions *)

Definition EXT_MAX_PATH_LEN : N := 4096.
Definition EXT_MAX_NAME_LEN : N := 64.

Inductive NameErrorReason := ExtNameEmpty | ExtNameTooLong | ExtNameIllegalCharacter.

Definition NameErrorReason_fmt (r : NameErrorReason) : str :=
  match r with
  | ExtNameEmpty => "name must not be empty"%str
  | ExtNameTooLong => "name is too long"%str
  | ExtNameIllegalCharacter => "name may only contain letters, digits, '_' and '-'"%str
  end.

Inductive PathErrorReason :=
| PathEmpty | PathTooLong | PathNotAbsolute | PathNotSharedObject | PathIllegalCharacter.

Definition PathErrorReason_fmt (r : PathErrorReason) : str :=
  match r with
  | PathEmpty => "path must not be empty"%str
  | PathTooLong => "path is too long"%str
  | PathNotAbsolute => "path must be absolute"%str
  | PathNotSharedObject => "path must end in .so"%str
  | PathIllegalCharacter => "path contains an illegal character"%str
  end.

Inductive ExtError :=
| ExtName (reason : NameErrorReason)
| ExtPath (reason : PathErrorReason).

Definition validate_ext_name (name : str) : result ExtError unit :=
  if is_empty name then Err (ExtName ExtNameEmpty)
  else if EXT_MAX_NAME_LEN <? len name then Err (ExtName ExtNameTooLong)
  else if negb (forallb (fun b => is_ascii_alphanumeric b || (b =? "_"%ch) || (b =? "-"%ch)) name)
  then Err (ExtName ExtNameIllegalCharacter)
  else Ok tt.

Definition validate_ext_path (path : str) : result ExtError unit :=
  if is_empty path then Err (ExtPath PathEmpty)
  else if EXT_MAX_PATH_LEN <? len path then Err (ExtPath PathTooLong)
  else if negb (starts_with "/" path) then Err (ExtPath PathNotAbsolute)
  else if negb (bool_decide (extension path = Some "so"%str)) then Err (ExtPath PathNotSharedObject)
  else if existsb (fun c => is_control c || (c =? quote) || (c =? 0) || (c =? "$"%ch)) path
  then Err (ExtPath PathIllegalCharacter)
  else Ok tt.

Definition validate_entry (name path : str) (zend : bool) : result ExtError unit :=
  _ ← validate_ext_path path;
  _ ← validate_ext_name name;
  Ok tt.

Definition default_name_from_path (path : str) : option str :=
  stem ← file_name path;
  let stem := default stem (strip_suffix ".so" stem) in
  if is_empty stem then None else Some stem.

(** ** Service overrides *)

Definition OVERRIDE_MAX_NAME_LEN : N := 128.
Definition OVERRIDE_MAX_VALUE_LEN : N := 512.

Inductive OverrideDialect := MyCnf | PostgresConf | RedisConf.
#[export] Instance OverrideDialect_eq_dec : EqDecision OverrideDialect.
Proof. solve_decision. Defined.

Definition dialect_for (type_id : str) : option OverrideDialect :=
  if str_eqb type_id "mysql" || str_eqb type_id "mariadb" then Some MyCnf
  else if str_eqb type_id "postgres" then Some PostgresConf
  else if str_eqb type_id "redis" then Some RedisConf
  else None.

Definition file_ext (d : OverrideDialect) : str :=
  match d with MyCnf => "cnf"%str | PostgresConf | RedisConf => "conf"%str end.

Definition INCLUDE_HINT : str :=
  "overrides may not load other config files; put hand edits in the 50-local file instead"%str.

Definition RESERVED_MY_CNF : list (str * str) :=
  [("port"%str, "the port is managed with `orcker service set-port <service>`"%str);
   ("datadir"%str, "Orcker owns this service's data directory"%str);
   ("socket"%str, "Orcker owns this service's socket path"%str);
   ("pid-file"%str, "Orcker owns this service's pid file"%str);
   ("log-error"%str, "Orcker owns the log path: read it with `orcker service logs <service>`"%str);
   ("init-file"%str, "Orcker runs its own bootstrap SQL from this file (passwordless root over loopback)"%str);
   ("bind-address"%str, "Orcker pins this service to loopback"%str);
   ("skip-name-resolve"%str, "Orcker pins this service to loopback"%str)].

Definition RESERVED_POSTGRES_CONF : list (str * str) :=
  [("port"%str, "the port is managed with `orcker service set-port <service>`"%str);
   ("listen_addresses"%str, "Orcker pins this service to loopback"%str);
   ("unix_socket_directories"%str, "Orcker owns this service's socket configuration"%str);
   ("logging_collector"%str, "Orcker owns the log path: read it with `orcker service logs <service>`"%str);
   ("hba_file"%str, "Orcker pins authentication to the data directory it initialised"%str);
   ("ident_file"%str, "Orcker pins authentication to the data directory it initialised"%str);
   ("shared_preload_libraries"%str, "Orcker resolves preloaded libraries from the install tree"%str);
   ("data_directory"%str, "Orcker owns this service's data directory"%str);
   ("config_file"%str, "Orcker owns this service's config file"%str);
   ("include"%str, INCLUDE_HINT);
   ("include_dir"%str, INCLUDE_HINT);
   ("include_if_exists"%str, INCLUDE_HINT)].

Definition RESERVED_REDIS_CONF : list (str * str) :=
  [("port"%str, "the port is managed with `orcker service set-port <service>`"%str);
   ("bind"%str, "Orcker pins this service to loopback"%str);
   ("protected-mode"%str, "Orcker pins this service to loopback"%str);
   ("dir"%str, "Orcker owns this service's data directory"%str);
   ("logfile"%str, "Orcker owns the log path: read it with `orcker service logs <service>`"%str);
   ("daemonize"%str, "Orcker supervises this service in the foreground"%str);
   ("include"%str, INCLUDE_HINT);
   ("unixsocket"%str, "Orcker owns this service's socket path"%str)].

(** [name.replace('-', "_")] *)
Definition underscore (s : str) : str := map (fun c => if c =? "-"%ch then "_"%ch else c) s.

Definition override_reserved (d : OverrideDialect) (name : str) : option str :=
  let table := match d with
               | MyCnf => RESERVED_MY_CNF
               | PostgresConf => RESERVED_POSTGRES_CONF
               | RedisConf => RESERVED_REDIS_CONF
               end in
  let needle := match d with MyCnf => underscore name | PostgresConf | RedisConf => name end in
  snd <$> find_first (fun e => match d with
                               | MyCnf => eq_ignore_ascii_case (underscore (fst e)) needle
                               | PostgresConf | RedisConf => eq_ignore_ascii_case (fst e) needle
                               end) table.

Inductive OverrideNameErrorReason :=
| OvNameEmpty | OvNameTooLong | OvNameIllegalStart | OvNameIllegalCharacter.

Definition OverrideNameErrorReason_fmt (r : OverrideNameErrorReason) : str :=
  match r with
  | OvNameEmpty => "name must not be empty"%str
  | OvNameTooLong => "name is too long"%str
  | OvNameIllegalStart => "name must start with a letter or '_'"%str
  | OvNameIllegalCharacter => "name may only contain letters, digits, '.', '_' and '-'"%str
  end.

Inductive OverrideValueErrorReason :=
| OvValueEmpty | OvValueTooLong | OvValueIllegalCharacter | OvValueQuote.

Definition OverrideValueErrorReason_fmt (r : OverrideValueErrorReason) : str :=
  match r with
  | OvValueEmpty => "value must not be empty"%str
  | OvValueTooLong => "value is too long"%str
  | OvValueIllegalCharacter => "value may not contain control characters, ';' or '#'"%str
  | OvValueQuote => "value may not contain quote characters"%str
  end.

Inductive OverrideError :=
| OverrideName (reason : OverrideNameErrorReason)
| OverrideValue (reason : OverrideValueErrorReason).

Definition override_validate_name (name : str) : result OverrideError unit :=
  let err r := Err (OverrideName r) in
  match name with
  | [] => err OvNameEmpty
  | first :: _ =>
      if OVERRIDE_MAX_NAME_LEN <? len name then err OvNameTooLong
      else if negb (is_ascii_alphabetic first || (first =? "_"%ch)) then err OvNameIllegalStart
      else if negb (forallb name_char name) then err OvNameIllegalCharacter
      else Ok tt
  end.

Definition apostrophe : N := 39.

Definition override_validate_value (d : OverrideDialect) (value : str) : result OverrideError unit :=
  let err r := Err (OverrideValue r) in
  if is_empty value || forallb is_whitespace value then err OvValueEmpty
  else if OVERRIDE_MAX_VALUE_LEN <? len value then err OvValueTooLong
  else if existsb (fun c => is_control c || (c =? ";"%ch) || (c =? "#"%ch)) value
  then err OvValueIllegalCharacter
  else
    let quoted := match d with
                  | MyCnf | RedisConf => existsb (fun c => (c =? apostrophe) || (c =? quote)) value
                  | PostgresConf => false
                  end in
    if quoted then err OvValueQuote else Ok tt.

(** [value.replace('\'', "''")] *)
Fixpoint double_quotes (s : str) : str :=
  match s with
  | [] => []
  | c :: r => if c =? apostrophe then apostrophe :: apostrophe :: double_quotes r else c :: double_quotes r
  end.

Definition managed_header (ext : str) : str :=
  "# Managed by Orcker "%str ++ [8212] ++ " regenerated on every start; do not edit by hand."%str ++ [NL]
  ++ "# Set these with `orcker service set <service> <key> <value>`."%str ++ [NL]
  ++ "# Your own edits belong in 50-local."%str ++ ext ++ " beside this file."%str ++ [NL].

Definition override_ok (d : OverrideDialect) (name value : str) : bool :=
  negb (negb (is_ok (override_validate_name name))
        || negb (is_ok (override_validate_value d value))
        || match override_reserved d name with Some _ => true | None => false end).

(** The text of one accepted override, after its name. *)
Definition override_tail (d : OverrideDialect) (value : str) : str :=
  match d with
  | MyCnf => " = "%str ++ value
  | PostgresConf => " = '"%str ++ double_quotes value ++ "'"%str
  | RedisConf => " "%str ++ value
  end.

Definition render_managed (d : OverrideDialect) (overrides : smap) : str :=
  let out := managed_header (file_ext d) in
  let out := if bool_decide (d = MyCnf) then out ++ "[mysqld]"%str ++ [NL] else out in
  foldl (fun out (kv : str * str) =>
    if negb (override_ok d kv.1 kv.2) then out
    else out ++ kv.1 ++ override_tail d (trim kv.2) ++ [NL]) out (btree_iter overrides).

(** ** The hand-edited override file *)

Inductive LocalOverrideProblem := ProblemReserved (hint : str) | ProblemMalformed.
Record LocalOverrideIssue := mkIssue { issue_line : N; issue_key : option str; issue_problem : LocalOverrideProblem }.

(** [split_once(char::is_whitespace)] *)
Fixpoint split_once_ws (s : str) : option (str * str) :=
  match s with
  | [] => None
  | c :: r => if is_whitespace c then Some ([], r)
              else match split_once_ws r with Some (a, b) => Some (c :: a, b) | None => None end
  end.

Definition local_line_key (d : OverrideDialect) (line : str) : option str :=
  '(key, value) ← match d with
    | MyCnf => match split_once "=" line with
               | Some (k, v) => Some (trim k, trim v)
               | None => Some (line, [])
               end
    | PostgresConf =>
        '(k, v) ← match split_once "=" line with Some kv => Some kv | None => split_once_ws line end;
        Some (trim k, trim v)
    | RedisConf => '(k, v) ← split_once_ws line; Some (trim k, trim v)
    end;
  if negb (is_ok (override_validate_name key)) then None
  else if is_empty value && negb (bool_decide (d = MyCnf)) then None
  else Some key.

Definition scan_line (d : OverrideDialect) (line_number : N) (raw : str) : option LocalOverrideIssue :=
  let line := trim raw in
  if is_empty line || starts_with "#" line then None
  else if bool_decide (d = MyCnf) && (starts_with ";" line || starts_with "[" line || starts_with "!" line)
  then None
  else match local_line_key d line with
       | None => Some (mkIssue line_number None ProblemMalformed)
       | Some key => match override_reserved d key with
                     | Some hint => Some (mkIssue line_number (Some key) (ProblemReserved hint))
                     | None => None
                     end
       end.

Fixpoint scan_lines (d : OverrideDialect) (index : N) (ls : list str) : list LocalOverrideIssue :=
  match ls with
  | [] => []
  | l :: r => match scan_line d (index + 1) l with
              | Some i => i :: scan_lines d (index + 1) r
              | None => scan_lines d (index + 1) r
              end
  end.
Definition scan_local (d : OverrideDialect) (content : str) : list LocalOverrideIssue :=
  scan_lines d 0 (str_lines content).

(** ** Lemmas on trimming *)

Lemma drop_while_head {A} (p : A -> bool) s c r : drop_while p s = c :: r -> p c = false.
Proof.
  induction s as [|d s IH]; simpl; [done|]. destruct (p d) eqn:E; [done|]. by intros [= <- <-].
Qed.

Lemma trim_infix s : exists a b, s = a ++ trim s ++ b.
Proof.
  unfold trim, trim_end_matches. destruct (drop_while_suffix is_whitespace s) as (a & Ha).
  destruct (drop_while_suffix is_whitespace (rev (drop_while is_whitespace s))) as (b & Hb).
  exists a, (rev b). rewrite <- rev_app_distr, <- Hb, rev_involutive. done.
Qed.

Lemma trim_incl s c : c ∈ trim s -> c ∈ s.
Proof. intros H. destruct (trim_infix s) as (a & b & E). rewrite E. set_solver. Qed.

Lemma trim_len s : len (trim s) <= len s.
Proof. destruct (trim_infix s) as (a & b & E). rewrite E at 2. rewrite !len_app. lia. Qed.

(** A trimmed text has no whitespace at either end. *)
Lemma trim_ends s :
  (forall c r, trim s = c :: r -> is_whitespace c = false) /\
  (forall r c, trim s = r ++ [c] -> is_whitespace c = false).
Proof.
  unfold trim, trim_end_matches. set (t := drop_while is_whitespace s). split.
  - intros c r H. destruct (drop_while_suffix is_whitespace (rev t)) as (k & Hk).
    apply (f_equal (@rev N)) in Hk. rewrite rev_involutive, rev_app_distr, H in Hk.
    unfold t in Hk. by apply drop_while_head in Hk.
  - intros r c H. apply (f_equal (@rev N)) in H. rewrite rev_involutive, rev_app_distr in H.
    by apply drop_while_head in H.
Qed.

Lemma trim_idem s : trim (trim s) = trim s.
Proof. destruct (trim_ends s) as [H1 H2]. by apply trim_no_space. Qed.

Lemma drop_while_nil {A} (p : A -> bool) s : drop_while p s = [] -> forallb p s = true.
Proof. induction s as [|c s IH]; simpl; [done|]. destruct (p c); [apply IH|done]. Qed.

Lemma trim_nonempty s : forallb is_whitespace s = false -> trim s <> [].
Proof.
  intros Hs H. unfold trim, trim_end_matches in H.
  destruct (drop_while is_whitespace s) as [|c r] eqn:E.
  - by rewrite (drop_while_nil _ _ E) in Hs.
  - apply (f_equal (@rev N)) in H as H'. rewrite rev_involutive in H'.
    apply drop_while_nil in H'. rewrite forallb_forall in H'.
    assert (is_whitespace c = true) by (apply H'; apply in_rev; rewrite rev_involutive; by left).
    apply drop_while_head in E. congruence.
Qed.

Lemma trim_not_blank s : forallb is_whitespace s = false -> forallb is_whitespace (trim s) = false.
Proof.
  intros H. pose proof (trim_nonempty s H) as Hne. destruct (trim_ends s) as [Hh _].
  destruct (trim s) as [|c r] eqn:E; [done|]. simpl. by rewrite (Hh c r eq_refl).
Qed.

(** ** Lemmas on rendering by lines *)

Lemma foldl_lines {A} (step : str -> A -> str) (keep : A -> bool) (line : A -> str) l out :
  (forall out x, step out x = if keep x then out ++ line x ++ [NL] else out) ->
  foldl step out l = out ++ mjoin ((fun x => line x ++ [NL]) <$> bfilter keep l).
Proof.
  intros Hs. revert out; induction l as [|x l IH]; intros out; simpl; [by rewrite app_nil_r|].
  rewrite IH, Hs. destruct (keep x); simpl; by rewrite ?app_assoc.
Qed.

Lemma control_nl c : is_control c = false -> c <> NL.
Proof. intros H ->. done. Qed.

(** ** PHP settings *)

Lemma php_validate_value_ok name v :
  php_validate_value name v = Ok tt ->
  is_supported name = true /\ forallb is_whitespace v = false /\ len v <= PHP_MAX_VALUE_LEN /\
  existsb ini_meta v = false.
Proof.
  unfold php_validate_value, is_supported. destruct (spec name) as [sp|]; simpl; [|done].
  intros H. destruct (is_empty v || forallb is_whitespace v) eqn:E1; [done|].
  destruct (PHP_MAX_VALUE_LEN <? len v) eqn:E2; [done|]. destruct (existsb ini_meta v) eqn:E3; [done|].
  bprop. done.
Qed.

Lemma ini_meta_trim v : existsb ini_meta v = false -> existsb ini_meta (trim v) = false.
Proof. rewrite !existsb_none. intros H c Hc%trim_incl. by apply H. Qed.

Lemma php_validate_value_trim name v :
  php_validate_value name v = Ok tt -> php_validate_value name (trim v) = Ok tt.
Proof.
  intros Hv. pose proof (php_validate_value_ok _ _ Hv) as (_ & H1 & H2 & H3).
  revert Hv. unfold php_validate_value. destruct (spec name) as [sp|]; [|done].
  cbn [ok_or mbind result_bind]. rewrite trim_idem, (trim_not_blank _ H1), (ini_meta_trim _ H3).
  pose proof (trim_len v). pose proof (trim_nonempty v H1).
  assert (is_empty (trim v) = false) as -> by by apply is_empty_false.
  assert (PHP_MAX_VALUE_LEN <? len (trim v) = false) as -> by (apply N.ltb_ge; lia).
  rewrite H1, H3. assert (PHP_MAX_VALUE_LEN <? len v = false) as -> by (apply N.ltb_ge; lia).
  destruct (is_empty v); [done|]. done.
Qed.

(** A value accepted for a managed PHP setting stays acceptable in its
    canonical form, canonicalisation is idempotent, and what is written to the
    generated files is short and free of line breaks, control characters and ini
    metacharacters. *)
Theorem php_setting_canonical name v (Hv : php_validate_value name v = Ok tt) :
  let c := canonical_value name v in
  php_validate_value name c = Ok tt /\ canonical_value name c = c /\
  len c <= 256 /\ Forall (fun ch => ini_meta ch = false) c.
Proof.
  intros c.
  assert (c = trim v \/ (c = "On"%str \/ c = "Off"%str) /\ spec_kind <$> spec name = Some KindFlag) as Hc.
  { unfold c, canonical_value. destruct (spec_kind <$> spec name) as [[]|]; auto.
    destruct (parse_flag (trim v)) as [[]|]; auto. }
  assert (php_validate_value name c = Ok tt) as Hok.
  { destruct Hc as [->|[Hc Hk]]; [by apply php_validate_value_trim|].
    unfold php_validate_value. destruct (spec name) as [sp|]; [|done]. simpl in Hk. injection Hk as Hk.
    cbn [ok_or mbind result_bind]. rewrite Hk. by destruct Hc as [-> | ->]. }
  split; [done|]. pose proof (php_validate_value_ok _ _ Hok) as (_ & _ & Hl & Hm).
  split; [|split; [done|]].
  - destruct Hc as [Hc|[Hc Hk]].
    + unfold c, canonical_value. destruct (spec_kind <$> spec name) as [[]|]; rewrite ?trim_idem; try done.
      destruct (parse_flag (trim v)) as [[]|] eqn:E; rewrite ?trim_idem, ?E; done.
    + unfold canonical_value at 1. rewrite Hk. by destruct Hc as [-> | ->].
  - rewrite existsb_none in Hm. by apply Forall_forall.
Qed.

Lemma php_setting_canonical_witness :
  php_validate_value "display_errors"%str (canonical_value "display_errors"%str " TRUE "%str) = Ok tt.
Proof. apply php_setting_canonical. vm_compute. reflexivity. Defined.

(** The shipped defaults are all valid and canonical. *)
Lemma default_settings_valid :
  Forall (fun e => php_validate_value e.1 e.2 = Ok tt /\ canonical_value e.1 e.2 = e.2) default_settings.
Proof. repeat constructor; vm_compute; reflexivity. Qed.

Lemma merge_step_lookup (l : list (str * str)) (m : smap) (k : str) :
  foldl (fun (m : smap) (kv : str * str) => if is_supported kv.1 then <[kv.1 := kv.2]> m else m) m l !! k =
  if is_supported k then match find_first (fun kv => str_eqb kv.1 k) (rev l) with
                         | Some kv => Some kv.2
                         | None => m !! k
                         end
  else m !! k.
Proof.
  revert m; induction l as [|[k' v'] l IH] using rev_ind; intros m; [by destruct (is_supported k)|].
  rewrite foldl_app, rev_app_distr. simpl. unfold str_eqb.
  destruct (is_supported k') eqn:E; simpl; case_bool_decide as Ek; subst; rewrite ?IH; try done.
  - by rewrite lookup_insert_eq, E.
  - by rewrite lookup_insert_ne, IH.
  - by rewrite E.
Qed.

Lemma find_first_app {A} (p : A -> bool) l1 l2 :
  find_first p (l1 ++ l2) = match find_first p l1 with Some x => Some x | None => find_first p l2 end.
Proof. induction l1 as [|x l1 IH]; simpl; [done|]. by destruct (p x). Qed.

Lemma find_key (m : smap) l k :
  (forall k v, (k, v) ∈ l <-> m !! k = Some v) ->
  snd <$> find_first (fun kv => str_eqb kv.1 k) l = m !! k.
Proof.
  intros Hl. destruct (find_first _ l) as [[k' v]|] eqn:E; simpl.
  - apply find_first_Some in E as (l1 & l2 & -> & Hk & _). unfold str_eqb in Hk. simpl in Hk. bprop. subst.
    symmetry. apply Hl. set_solver.
  - destruct (m !! k) as [v|] eqn:Em; [|done]. apply Hl in Em.
    rewrite find_first_None, Forall_forall in E. apply E in Em. unfold str_eqb in Em. simpl in Em.
    by rewrite bool_decide_true in Em.
Qed.

(** The effective settings of a version are the per-version override where
    there is one, the global value otherwise, and only for managed settings. *)
Theorem merge_effective_lookup global overrides k :
  merge_effective global overrides !! k =
  if is_supported k then match overrides !! k with Some v => Some v | None => global !! k end
  else None.
Proof.
  unfold merge_effective. rewrite merge_step_lookup, lookup_empty. destruct (is_supported k); [|done].
  rewrite rev_app_distr, find_first_app.
  assert (forall m : smap, snd <$> find_first (fun kv => str_eqb kv.1 k) (rev (btree_iter m)) = m !! k) as H.
  { intros m. apply find_key. intros k' v. by rewrite elem_of_rev, elem_of_btree_iter. }
  rewrite <- (H overrides), <- (H global).
  destruct (find_first _ (rev (btree_iter overrides))); simpl; [done|].
  by destruct (find_first _ _).
Qed.

(** ** Directives *)

Lemma name_ok_chars name :
  directive_validate_name name = Ok tt -> Forall (fun c => name_char c = true) name.
Proof.
  unfold directive_validate_name. intros H. destruct name as [|first r]; [done|].
  repeat step_in H. bprop. by apply forallb_Forall.
Qed.

Lemma name_char_props c : name_char c = true ->
  is_control c = false /\ is_whitespace c = false /\ c <> "="%ch /\ c <> "#"%ch /\ c <> ";"%ch
  /\ c <> "["%ch /\ c <> "!"%ch.
Proof. unfold name_char, is_control, is_whitespace. intros H. char_unfold. lia. Qed.

Lemma directive_value_ok v :
  directive_validate_value v = Ok tt ->
  forallb is_whitespace v = false /\ existsb ini_meta v = false.
Proof.
  unfold directive_validate_value. intros H. repeat step_in H. bprop. done.
Qed.

Lemma ini_meta_control c : ini_meta c = false -> is_control c = false.
Proof. unfold ini_meta. intros H. by bprop. Qed.

Lemma directive_ok_spec n v :
  directive_ok n v = true <->
  directive_validate_name n = Ok tt /\ directive_validate_value v = Ok tt /\ directive_reserved n = None.
Proof.
  unfold directive_ok. destruct (directive_validate_name n) as [[]|], (directive_validate_value v) as [[]|],
    (directive_reserved n); simpl; naive_solver.
Qed.

Lemma elem_of_name_nl n : Forall (fun c => name_char c = true) n -> NL ∉ n.
Proof. rewrite Forall_forall. by intros H ?%H. Qed.

(** Rendering free-form directives cannot be used to inject a line: the
    rendered text is exactly one [name = value] line per accepted entry, in key
    order, where the name has only letters, digits, dot, underscore and hyphen
    and is not one of the managed names, and the value is trimmed, non-blank and
    has no control or ini metacharacter. *)
Theorem render_ini_lines_exact m :
  let kept := bfilter (fun kv => directive_ok kv.1 kv.2) (btree_iter m) in
  split_char NL (render_ini_lines m) = ((fun kv => ini_line kv.1 (trim kv.2)) <$> kept) ++ [[]] /\
  Forall (fun kv => m !! kv.1 = Some kv.2 /\
    Forall (fun c => name_char c = true) kv.1 /\ kv.1 <> [] /\ directive_reserved kv.1 = None /\
    trim kv.2 <> [] /\ Forall (fun c => ini_meta c = false) (trim kv.2)) kept.
Proof.
  intros kept.
  assert (Forall (fun kv => m !! kv.1 = Some kv.2 /\
    Forall (fun c => name_char c = true) kv.1 /\ kv.1 <> [] /\ directive_reserved kv.1 = None /\
    trim kv.2 <> [] /\ Forall (fun c => ini_meta c = false) (trim kv.2)) kept) as Hk.
  { apply Forall_forall. intros [n v] [Hok Hin]%elem_of_bfilter. simpl in Hok.
    apply elem_of_btree_iter in Hin. apply directive_ok_spec in Hok as (Hn & Hv & Hr).
    apply directive_value_ok in Hv as [Hb Hm]. simpl.
    split; [done|]. split; [by apply name_ok_chars|]. split; [by intros ->|]. split; [done|].
    split; [by apply trim_nonempty|]. apply Forall_forall. apply existsb_none. by apply ini_meta_trim. }
  split; [|done]. unfold render_ini_lines.
  rewrite (foldl_lines _ (fun kv => directive_ok kv.1 kv.2) (fun kv => ini_line kv.1 (trim kv.2))); last first.
  { intros out kv. unfold ini_line. destruct (directive_ok _ _); simpl; by rewrite <- ?app_assoc. }
  simpl. rewrite split_lines; [done|]. intros [n v] Hin. rewrite Forall_forall in Hk.
  destruct (Hk _ Hin) as (_ & Hn & _ & _ & _ & Hv). simpl in *. unfold ini_line.
  rewrite !not_elem_of_app. split; [by apply elem_of_name_nl|]. split; [set_solver|].
  intros H. rewrite Forall_forall in Hv. by apply Hv in H.
Qed.

(** ** Service overrides *)

Lemma override_name_ok n :
  override_validate_name n = Ok tt ->
  Forall (fun c => name_char c = true) n /\ n <> [].
Proof.
  unfold override_validate_name. intros H. destruct n as [|first r]; [done|]. split; [|done].
  repeat step_in H. bprop. by apply forallb_Forall.
Qed.

Lemma override_value_ok d v :
  override_validate_value d v = Ok tt ->
  forallb is_whitespace v = false /\ Forall (fun c => is_control c = false) v /\
  (d <> PostgresConf -> apostrophe ∉ v).
Proof.
  unfold override_validate_value. intros H.
  destruct (is_empty v || forallb is_whitespace v) eqn:E1; [done|].
  destruct (_ <? len v); [done|]. destruct (existsb _ v) eqn:E2; [done|]. bprop.
  split; [done|]. rewrite existsb_none in E2. split.
  - apply Forall_forall. intros c Hc%E2. by bprop.
  - intros Hd Hin. assert (existsb (fun c => (c =? apostrophe) || (c =? quote)) v = true) as Hq.
    { apply existsb_elem. by exists apostrophe. }
    destruct d; [|done|]; by rewrite Hq in H.
Qed.

Lemma override_ok_spec d n v :
  override_ok d n v = true <->
  override_validate_name n = Ok tt /\ override_validate_value d v = Ok tt /\ override_reserved d n = None.
Proof.
  unfold override_ok. destruct (override_validate_name n) as [[]|], (override_validate_value d v) as [[]|],
    (override_reserved d n); simpl; naive_solver.
Qed.

(** What the renderer may write for one entry. *)
Record safe_override (d : OverrideDialect) (n v : str) : Prop := mkSafe {
  so_name : override_validate_name n = Ok tt;
  so_chars : Forall (fun c => name_char c = true) n;
  so_ne : n <> [];
  so_free : override_reserved d n = None;
  so_value : v <> [];
  so_trim : trim v = v;
  so_ctrl : Forall (fun c => is_control c = false) v;
  so_quote : d <> PostgresConf -> apostrophe ∉ v;
}.

Lemma override_ok_safe d n v : override_ok d n v = true -> safe_override d n (trim v).
Proof.
  intros (Hn & Hv & Hr)%override_ok_spec. apply override_name_ok in Hn as Hn'.
  apply override_value_ok in Hv as (Hb & Hc & Hq). destruct Hn' as [Hch Hne].
  split; try done; [by apply trim_nonempty|apply trim_idem| |].
  - rewrite Forall_forall in *. intros c ?%trim_incl. auto.
  - intros Hd ?%trim_incl. by apply Hq.
Qed.

Definition managed_head (d : OverrideDialect) : list str :=
  removelast (split_char NL (managed_header (file_ext d)))
  ++ (if bool_decide (d = MyCnf) then ["[mysqld]"%str] else []).

Definition override_line (d : OverrideDialect) (kv : str * str) : str := kv.1 ++ override_tail d (trim kv.2).

Lemma double_quotes_elem s c : c ∈ double_quotes s -> c ∈ s.
Proof.
  induction s as [|x s IH]; simpl; [done|]. destruct (x =? apostrophe) eqn:E; bprop; [subst|]; set_solver.
Qed.

Lemma override_line_ctrl d n v :
  safe_override d n v -> Forall (fun c => is_control c = false) (n ++ override_tail d v).
Proof.
  intros Hs. apply Forall_app. split.
  - eapply Forall_impl; [apply (so_chars _ _ _ Hs)|]. intros c H. apply name_char_props in H. tauto.
  - pose proof (so_ctrl _ _ _ Hs) as Hc. destruct d; simpl; repeat constructor; try done.
    apply Forall_app. split; [|by repeat constructor].
    rewrite Forall_forall in *. intros c ?%double_quotes_elem. auto.
Qed.

Lemma no_control_nl s : Forall (fun c => is_control c = false) s -> NL ∉ s /\ 13 ∉ s.
Proof. rewrite Forall_forall. intros H. by split; intros ?%H. Qed.

Lemma kept_safe d m kv :
  kv ∈ bfilter (fun kv => override_ok d kv.1 kv.2) (btree_iter m) ->
  m !! kv.1 = Some kv.2 /\ safe_override d kv.1 (trim kv.2).
Proof.
  destruct kv as [n v]. intros [Hok Hin]%elem_of_bfilter. split; [by apply elem_of_btree_iter|].
  by apply override_ok_safe.
Qed.

(** The rendered file, line by line. *)
Lemma render_managed_lines d m :
  split_char NL (render_managed d m) =
  managed_head d ++ (override_line d <$> bfilter (fun kv => override_ok d kv.1 kv.2) (btree_iter m)) ++ [[]].
Proof.
  unfold render_managed.
  rewrite (foldl_lines _ (fun kv => override_ok d kv.1 kv.2) (override_line d)); last first.
  { intros out kv. unfold override_line. destruct (override_ok _ _ _); simpl; by rewrite <- ?app_assoc. }
  set (body := mjoin _).
  assert (split_char NL body = (override_line d <$> bfilter (fun kv => override_ok d kv.1 kv.2) (btree_iter m)) ++ [[]]) as Hb.
  { apply split_lines. intros kv Hin%kept_safe. destruct Hin as [_ Hs].
    by apply override_line_ctrl, no_control_nl in Hs as [? _]. }
  rewrite <- Hb. clearbody body. destruct d; reflexivity.
Qed.

Lemma trim_snoc_space s : s <> [] -> trim s = s -> trim (s ++ " "%str) = s.
Proof.
  intros Hne Ht. destruct (trim_ends s) as [Hh _]. rewrite Ht in Hh.
  unfold trim, trim_end_matches in *. destruct s as [|c s]; [done|].
  assert (drop_while is_whitespace (c :: s) = c :: s) as Hd by (simpl; by rewrite (Hh c s)).
  assert (drop_while is_whitespace ((c :: s) ++ " "%str) = (c :: s) ++ " "%str) as ->.
  { simpl. by rewrite (Hh c s). }
  rewrite Hd in Ht. rewrite rev_app_distr. done.
Qed.

Lemma trim_name n : Forall (fun c => name_char c = true) n -> trim n = n.
Proof.
  intros H. apply trim_no_space.
  - intros c r ->. inv H. by apply name_char_props in H2 as (_ & ? & _).
  - intros r c ->. apply Forall_app in H as [_ H]. inv H. by apply name_char_props in H2 as (_ & ? & _).
Qed.

Lemma split_once_ws_name n s :
  Forall (fun c => name_char c = true) n -> split_once_ws (n ++ " "%ch :: s) = Some (n, s).
Proof.
  induction n as [|c n IH]; intros H; [done|]. inv H. simpl. rewrite (IH H3).
  apply name_char_props in H2 as (_ & -> & _). done.
Qed.

Lemma name_not_elem n c : Forall (fun c => name_char c = true) n -> name_char c = false -> c ∉ n.
Proof. rewrite Forall_forall. intros H Hc ?%H. congruence. Qed.

(** The key of a rendered line is the entry's name. *)
Lemma local_line_key_rendered d n v :
  safe_override d n v -> local_line_key d (n ++ override_tail d v) = Some n.
Proof.
  intros [Hn Hc Hne Hr Hv Ht _ _]. unfold local_line_key.
  assert (trim (n ++ " "%str) = n) as Htn by (apply trim_snoc_space; [done|by apply trim_name]).
  assert (forall t, split_once "=" (n ++ " = "%str ++ t) = Some (n ++ " "%str, " "%str ++ t)) as Hs.
  { intros t. replace (n ++ " = "%str ++ t) with ((n ++ " "%str) ++ "="%ch :: (" "%str ++ t))
      by (by rewrite <- app_assoc).
    apply split_once_complete. rewrite not_elem_of_app. split; [by apply name_not_elem|set_solver]. }
  destruct d; cbn [override_tail].
  - rewrite Hs. cbn [mbind option_bind]. rewrite Htn, Hn. by destruct (is_empty _).
  - change (" = '"%str ++ ?x) with (" = "%str ++ ("'"%str ++ x)). rewrite Hs.
    cbn [mbind option_bind]. rewrite Htn, Hn.
    assert (trim (" "%str ++ "'"%str ++ double_quotes v ++ "'"%str) <> []) as Hq by by apply trim_nonempty.
    apply is_empty_false in Hq. by rewrite Hq.
  - change (" "%str ++ v) with (" "%ch :: v). rewrite split_once_ws_name by done.
    cbn [mbind option_bind]. rewrite trim_name, Hn by done. rewrite Ht.
    apply is_empty_false in Hv. by rewrite Hv.
Qed.

Lemma override_line_trim d n v : safe_override d n v -> trim (n ++ override_tail d v) = n ++ override_tail d v.
Proof.
  intros [_ Hc Hne _ Hv Ht _ _]. destruct (trim_ends v) as [_ Hl]. rewrite Ht in Hl. apply trim_no_space.
  - intros c r E. destruct n as [|x n]; [done|]. injection E as -> _. inv Hc.
    by apply name_char_props in H1 as (_ & ? & _).
  - intros r c E. destruct (exists_last Hv) as (v' & x & ->). specialize (Hl v' x eq_refl).
    destruct d; cbn [override_tail] in E; rewrite !app_assoc in E; apply app_inj_tail in E as [_ <-]; done.
Qed.

Lemma scan_rendered d n v i : safe_override d n v -> scan_line d i (n ++ override_tail d v) = None.
Proof.
  intros Hs. unfold scan_line. rewrite override_line_trim by done.
  rewrite local_line_key_rendered, (so_free _ _ _ Hs) by done.
  destruct (_ || _); [done|]. by destruct (_ && _).
Qed.

Lemma scan_lines_none d i ls : (forall l j, l ∈ ls -> scan_line d j l = None) -> scan_lines d i ls = [].
Proof.
  revert i; induction ls as [|l ls IH]; intros i H; simpl; [done|].
  rewrite H by set_solver. apply IH. set_solver.
Qed.

Lemma scan_line_index d i j l : scan_line d i l = None -> scan_line d j l = None.
Proof.
  unfold scan_line. destruct (_ || _); [done|]. destruct (_ && _); [done|].
  destruct (local_line_key d (trim l)) as [k|]; [|done]. by destruct (override_reserved d k).
Qed.

Lemma managed_head_safe d l :
  l ∈ managed_head d -> 13 ∉ l /\ forall j, scan_line d j l = None.
Proof.
  assert (forallb (fun l => negb (contains_char 13 l) && match scan_line d 0 l with None => true | _ => false end)
    (managed_head d) = true) as H by (destruct d; vm_compute; reflexivity).
  rewrite forallb_elem in H. intros Hl%H. bprop. split; [by apply contains_char_false|].
  intros j. apply (scan_line_index d 0 j). by destruct (scan_line d 0 l).
Qed.

(** The generated override file of a service is its header followed by
    exactly one line per accepted override, in key order, and nothing else: each
    written name is well formed and not managed by the program, each value is
    trimmed, non-empty and free of control characters (and of apostrophes where
    values are written bare).  The checker of hand-edited files finds nothing to
    report in it. *)
Theorem render_managed_safe d m :
  let kept := bfilter (fun kv => override_ok d kv.1 kv.2) (btree_iter m) in
  split_char NL (render_managed d m) = managed_head d ++ (override_line d <$> kept) ++ [[]] /\
  Forall (fun kv => m !! kv.1 = Some kv.2 /\ safe_override d kv.1 (trim kv.2)) kept /\
  scan_local d (render_managed d m) = [].
Proof.
  intros kept. split; [apply render_managed_lines|]. split.
  - apply Forall_forall. intros kv. apply kept_safe.
  - unfold scan_local, str_lines. rewrite render_managed_lines, app_assoc, lines_of_clean.
    + apply scan_lines_none. intros l j. rewrite elem_of_app, list_elem_of_fmap.
      intros [H|(kv & -> & Hkv)]; [by apply managed_head_safe|].
      apply scan_rendered. by apply kept_safe in Hkv as [_ ?].
    + intros l. rewrite elem_of_app, list_elem_of_fmap.
      intros [H|(kv & -> & Hkv)]; [by apply managed_head_safe in H as [? _]|].
      apply kept_safe in Hkv as [_ Hs]. by apply override_line_ctrl, no_control_nl in Hs as [_ ?].
Qed.

(** Names that the engine reads as the same option. *)
Definition option_fold (d : OverrideDialect) (name : str) : str :=
  to_ascii_lowercase (match d with MyCnf => underscore name | _ => name end).

(** A managed option cannot be overridden by spelling it differently: the
    denylist gives the same answer for all names the engine reads as one option
    (same letters up to ASCII case, and for MySQL up to hyphen and underscore). *)
Theorem override_reserved_fold d a b (Hf : option_fold d a = option_fold d b) :
  override_reserved d a = override_reserved d b.
Proof.
  unfold override_reserved, option_fold in *. f_equal.
  assert (forall (p q : str * str -> bool) l, (forall e, p e = q e) -> find_first p l = find_first q l) as Hext.
  { intros p q l H. induction l as [|e l IH]; simpl; [done|]. by rewrite H, IH. }
  apply Hext. intros e. destruct d; unfold eq_ignore_ascii_case; by rewrite Hf.
Qed.

Lemma override_reserved_fold_witness :
  override_reserved MyCnf "Bind_Address"%str = override_reserved MyCnf "bind-address"%str /\
  override_reserved MyCnf "bind-address"%str <> None.
Proof.
  split; [apply override_reserved_fold; vm_compute; reflexivity|vm_compute; discriminate].
Defined.
