(* ===== verification/Config.v ===== *)
(** * The persisted configuration

    [src/crates/orcker-config/src/schema.rs] (the typed configuration),
    the errors, and the cross-field validation of [parse.rs].

    [valid_config] states what a loaded configuration guarantees; [validate]
    accepts exactly those. *)

From stdpp Require Import sorting.
From S2P Require Import Prelude RustStr RustMap RustPath CoreError DnsLabel Tld Domain Php Site Proxy Project Settings.

Open Scope N_scope.

Definition CURRENT_VERSION : N := 24.

#[export] Instance PhpVersion_countable : Countable PhpVersion.
Proof.
  apply (inj_countable' (fun v => (php_major v, php_minor v)) (fun p => mkPhp p.1 p.2)). by intros [].
Defined.

(** ** Errors *)

Inductive ValidateErrorReason :=
| DuplicateLinkedSite | HttpHttpsPortsEqual | HttpPortZero | HttpsPortZero | MailPortZero
| DumpsPortZero | UnknownService | ParkedPathEmpty | OverridePathEmpty | InvalidPhpSetting
| WebRootEscapes | InvalidUpdateChannel | FallbackPortPrivileged | FallbackPortsEqual
| LanSetupPortPrivileged | TunnelEntryEmpty | TunnelHostnameInvalid | TunnelKeyInvalid
| TunnelMultipleNamed | TunnelDuplicateHostname | GroupNameEmpty | GroupNameReserved
| GroupDuplicate | GroupMemberDangling | InvalidPhpExtension | DuplicateExtensionName
| DomainAddedDuplicate | DomainAddedSuppressedOverlap | DomainPrimaryWildcard
| ProxyNameCollision | ProxyRuleDuplicatePrefix | ProxyTargetLoop | ProxyRuleUnknownSite
| RouteRuleDuplicatePrefix | RouteRuleUnknownSite | ProjectNameCollision | ProjectPortCollision
| ProjectPortZero.

Inductive MigrationErrorReason :=
| MissingVersion
| NonIntegerVersion
| MissingStep (from : N).

Inductive OrckerYmlErrorReason :=
| Malformed (line : N)
| MissingKey (key : str)
| DuplicateKey (key : str)
| UnsupportedSchemaVersion (found : N)
| InvalidValue (key value : str).

(** The variants loading and reading descriptors can produce; a TOML error is
    kept as its message. *)
Inductive ConfigError :=
| ConfigOrckerYml (reason : OrckerYmlErrorReason)
| ConfigParse (message : str)
| ConfigSerialize (message : str)
| ConfigIo (path : str) (source : io_kind)
| ConfigValidate (reason : ValidateErrorReason)
| ConfigCore (e : CoreError)
| ConfigUnsupportedVersion (found current : N)
| ConfigMigration (reason : MigrationErrorReason).

Definition ve {A} (reason : ValidateErrorReason) : result ConfigError A := Err (ConfigValidate reason).

(** ** Schema *)

Record Ports := mkPorts { http : N; https : N; fallback_http : N; fallback_https : N }.
Definition Ports_well_known : Ports := mkPorts 80 443 8080 8443.
Definition Ports_unprivileged : Ports := mkPorts 8080 8443 8080 8443.
Definition Ports_default : Ports := Ports_well_known.

Record ExtEntry := mkExt { ext_name : str; ext_path : str; ext_zend : bool }.

Record PhpSection := mkPhpSection {
  php_default : PhpVersion;
  php_settings : smap;
  php_extensions : gmap PhpVersion (list ExtEntry);
  php_version_settings : gmap PhpVersion smap;
  php_directives : gmap PhpVersion smap;
}.

Record SiteOverride := mkOverride {
  ov_php : option PhpVersion;
  ov_secure : option bool;
  ov_web_root : option str;
  ov_wp_auto_login : option bool;
  ov_wp_auto_login_user : option str;
  ov_front_controller : option bool;
}.

Record ServiceInstance := mkInstance {
  inst_version : option str;
  inst_port : option N;
  inst_site : option str;
  inst_enabled : bool;
  inst_overrides : smap;
}.

Record MailSection := mkMail { mail_enabled : bool; mail_port : N }.
Record DumpsSection := mkDumps {
  dumps_enabled : bool; dumps_port : N; dumps_persist : bool; dumps_features : gmap str bool }.
Record TunnelSection := mkTunnel { tunnel_named : smap; tunnel_sites : smap }.
Record GroupsSection := mkGroups { groups_order : list str; groups_members : smap }.
Record DomainDelta := mkDelta { added : list Domain; suppressed : list Domain; primary : option Domain }.
Record DomainsSection := mkDomains {
  domains_linked : gmap str DomainDelta;
  domains_parked : gmap str DomainDelta;
  domains_proxy : gmap str DomainDelta;
}.
Record ProxyRulesSection := mkProxyRules {
  proxy_rules_linked : gmap str (list ProxyRule); proxy_rules_parked : gmap str (list ProxyRule) }.
Record RouteRulesSection := mkRouteRules {
  route_rules_linked : gmap str (list RouteRule); route_rules_parked : gmap str (list RouteRule) }.

Record Config := mkConf {
  cf_version : N;
  cf_tld : Tld;
  cf_dns_port : N;
  cf_update_channel : str;
  cf_symlink_protection : bool;
  cf_mcp_enabled : bool;
  cf_lan_enabled : bool;
  cf_lan_setup_port : N;
  cf_ports : Ports;
  cf_php : PhpSection;
  cf_parked : gset str;
  cf_linked : list Site;
  cf_projects : list ContainerProject;
  cf_overrides : gmap str SiteOverride;
  cf_services : gmap str ServiceInstance;
  cf_mail : MailSection;
  cf_dumps : DumpsSection;
  cf_tunnel : TunnelSection;
  cf_groups : GroupsSection;
  cf_domains : DomainsSection;
  cf_proxies : list ProxySite;
  cf_proxy_rules : ProxyRulesSection;
  cf_route_rules : RouteRulesSection;
}.

Definition DEFAULT_DNS_PORT : N := 1053.
Definition DEFAULT_UPDATE_CHANNEL : str := "stable"%str.
Definition UPDATE_CHANNELS : list str := ["stable"%str; "edge"%str].
Definition DEFAULT_SYMLINK_PROTECTION : bool := true.
Definition DEFAULT_MCP_ENABLED : bool := false.
Definition DEFAULT_LAN_ENABLED : bool := false.
Definition DEFAULT_LAN_SETUP_PORT : N := 7073.
Definition FIRST_UNPRIVILEGED_PORT : N := 1024.
Definition DEFAULT_MAIL_PORT : N := 2525.
Definition DEFAULT_DUMP_PORT : N := 2304.
Definition RESERVED_GROUP_NAME : str := "Unallocated"%str.

Definition PhpSection_default : PhpSection :=
  mkPhpSection (mkPhp 8 3) (list_to_map default_settings) ∅ ∅ ∅.
Definition ServiceInstance_default : ServiceInstance := mkInstance None None None true ∅.
Definition MailSection_default : MailSection := mkMail true DEFAULT_MAIL_PORT.
Definition DumpsSection_default : DumpsSection := mkDumps false DEFAULT_DUMP_PORT false ∅.

Definition Config_default : Config :=
  mkConf CURRENT_VERSION Tld_default DEFAULT_DNS_PORT DEFAULT_UPDATE_CHANNEL DEFAULT_SYMLINK_PROTECTION
    DEFAULT_MCP_ENABLED DEFAULT_LAN_ENABLED DEFAULT_LAN_SETUP_PORT Ports_default PhpSection_default
    ∅ [] [] ∅ ∅ MailSection_default DumpsSection_default (mkTunnel ∅ ∅) (mkGroups [] ∅)
    (mkDomains ∅ ∅ ∅) [] (mkProxyRules ∅ ∅) (mkRouteRules ∅ ∅).

Definition ProxyRulesSection_is_empty (s : ProxyRulesSection) : bool :=
  forallb (fun e => is_empty e.2) (btree_iter (proxy_rules_linked s) ++ btree_iter (proxy_rules_parked s)).
Definition RouteRulesSection_is_empty (s : RouteRulesSection) : bool :=
  forallb (fun e => is_empty e.2) (btree_iter (route_rules_linked s) ++ btree_iter (route_rules_parked s)).
Definition DomainsSection_is_empty (s : DomainsSection) : bool :=
  is_empty (btree_iter (domains_linked s)) && is_empty (btree_iter (domains_parked s))
  && is_empty (btree_iter (domains_proxy s)).
Definition DomainDelta_is_empty (d : DomainDelta) : bool :=
  is_empty (added d) && is_empty (suppressed d)
  && match primary d with None => true | Some _ => false end.
Definition GroupsSection_is_empty (g : GroupsSection) : bool :=
  is_empty (groups_order g) && is_empty (btree_iter (groups_members g)).

(** ** Validation *)

Definition KNOWN_SINGLE_SERVICES : list str :=
  ["mysql"%str; "mariadb"%str; "meilisearch"%str; "postgres"%str; "redis"%str].
Definition KNOWN_PER_SITE_SERVICES : list str := ["reverb"%str].

(** [slice.contains(&x)] *)
Definition contains (l : list str) (x : str) : bool := existsb (str_eqb x) l.

Definition split_wire_id (key : str) : str * option str :=
  match split_once ":" key with
  | Some (ty, site) => (ty, Some site)
  | None => (key, None)
  end.

Definition default_autostart_for_key (key : str) : bool :=
  negb (contains KNOWN_PER_SITE_SERVICES (split_wire_id key).1).

Definition is_valid_site_label (s : str) : bool :=
  negb (is_empty s) && (len s <=? 63) && negb (starts_with "-" s) && negb (ends_with "-" s)
  && forallb (fun c => is_ascii_lowercase c || is_ascii_digit c || (c =? "-"%ch)) s.

Definition is_safe_key (s : str) : bool :=
  negb (is_empty s) && (len s <=? 64) && negb (str_eqb s ".") && negb (str_eqb s "..")
  && forallb (fun b => is_ascii_alphanumeric b || (b =? "-"%ch) || (b =? "_"%ch) || (b =? "."%ch)) s.

Definition is_hostname_label (label : str) : bool :=
  negb (is_empty label) && (len label <=? 63) && negb (starts_with "-" label)
  && negb (ends_with "-" label)
  && forallb (fun b => is_ascii_alphanumeric b || (b =? "-"%ch)) label.

Definition is_plausible_hostname (host : str) : bool :=
  if is_empty host || (253 <? len host) then false
  else
    let labels := split_char "." host in
    if negb (forallb is_hostname_label labels) then false
    else 2 <=? vlen labels.

Definition web_root_escapes (p : str) : bool :=
  existsb (fun c => negb (match c with Normal _ | CurDir => true | _ => false end)) (components p).

Definition validate_ports (c : Config) : result ConfigError unit :=
  let p := cf_ports c in
  if http p =? 0 then ve HttpPortZero
  else if https p =? 0 then ve HttpsPortZero
  else if http p =? https p then ve HttpHttpsPortsEqual
  else if (fallback_http p <? FIRST_UNPRIVILEGED_PORT) || (fallback_https p <? FIRST_UNPRIVILEGED_PORT)
  then ve FallbackPortPrivileged
  else if fallback_http p =? fallback_https p then ve FallbackPortsEqual
  else if mail_port (cf_mail c) =? 0 then ve MailPortZero
  else if dumps_port (cf_dumps c) =? 0 then ve DumpsPortZero
  else if cf_lan_setup_port c <? FIRST_UNPRIVILEGED_PORT then ve LanSetupPortPrivileged
  else Ok tt.

(** [if !seen.insert(key) { return Err(...) }] *)
Definition insert_seen {K} `{Countable K} (r : ValidateErrorReason) (key : K) (seen : gset K)
  : result ConfigError (gset K) :=
  if bool_decide (key ∈ seen) then ve r else Ok ({[key]} ∪ seen).

Definition validate_unique_linked (c : Config) : result ConfigError unit :=
  _ ← for_fold (fun seen s => insert_seen DuplicateLinkedSite (site_name s) seen) ∅ (cf_linked c);
  Ok tt.

Definition validate_nonempty_paths (c : Config) : result ConfigError unit :=
  _ ← for_each (fun p => if is_empty p then ve ParkedPathEmpty else Ok tt) (elements (cf_parked c));
  for_each (fun e => if is_empty e.1 then ve OverridePathEmpty else Ok tt) (btree_iter (cf_overrides c)).

Definition validate_web_roots (c : Config) : result ConfigError unit :=
  _ ← for_each (fun s => if web_root_escapes (site_web_subpath s) then ve WebRootEscapes else Ok tt)
        (cf_linked c);
  for_each (fun e => match ov_web_root e.2 with
                     | Some w => if web_root_escapes w then ve WebRootEscapes else Ok tt
                     | None => Ok tt
                     end) (btree_iter (cf_overrides c)).

Definition validate_service (e : str * ServiceInstance) : result ConfigError unit :=
  let '(ty, site) := split_wire_id e.1 in
  _ ← (if contains KNOWN_SINGLE_SERVICES ty then
         match site with Some _ => ve UnknownService | None => Ok tt end
       else if contains KNOWN_PER_SITE_SERVICES ty then
         match site with
         | Some s => if is_valid_site_label s then Ok tt else ve UnknownService
         | None => ve UnknownService
         end
       else ve UnknownService);
  match inst_site e.2 with
  | Some field => if bool_decide (Some field = site) then Ok tt else ve UnknownService
  | None => Ok tt
  end.
Definition validate_known_services (c : Config) : result ConfigError unit :=
  for_each validate_service (btree_iter (cf_services c)).

Definition validate_php_settings (c : Config) : result ConfigError unit :=
  for_each (fun e => if is_ok (php_validate_value e.1 e.2) then Ok tt else ve InvalidPhpSetting)
    (btree_iter (php_settings (cf_php c))).

Definition validate_extension_list (entries : list ExtEntry) : result ConfigError unit :=
  _ ← for_fold (fun seen e =>
        if is_ok (validate_entry (ext_name e) (ext_path e) (ext_zend e))
        then insert_seen DuplicateExtensionName (ext_name e) seen
        else ve InvalidPhpExtension) ∅ entries;
  Ok tt.
(** [BTreeMap::values] over versions, in version order. *)
Definition ver_leb (a b : PhpVersion) : bool :=
  (php_major a <? php_major b) || ((php_major a =? php_major b) && (php_minor a <=? php_minor b)).
Definition ver_le {A} (p q : PhpVersion * A) : Prop := ver_leb p.1 q.1 = true.
#[export] Instance ver_le_dec {A} (p q : PhpVersion * A) : Decision (ver_le p q).
Proof. unfold ver_le. apply _. Defined.
Definition ver_iter {A} (m : gmap PhpVersion A) : list (PhpVersion * A) :=
  merge_sort ver_le (map_to_list m).
Definition validate_php_extensions (c : Config) : result ConfigError unit :=
  for_each (fun e => validate_extension_list e.2) (ver_iter (php_extensions (cf_php c))).

Definition validate_update_channel (c : Config) : result ConfigError unit :=
  if negb (contains UPDATE_CHANNELS (cf_update_channel c)) then ve InvalidUpdateChannel else Ok tt.

Definition validate_tunnel (c : Config) : result ConfigError unit :=
  let t := cf_tunnel c in
  if 1 <? vlen (btree_iter (tunnel_named t)) then ve TunnelMultipleNamed
  else
    _ ← for_each (fun e =>
          if is_empty e.1 || is_empty e.2 then ve TunnelEntryEmpty
          else if negb (is_safe_key e.1) || negb (is_safe_key e.2) then ve TunnelKeyInvalid
          else Ok tt) (btree_iter (tunnel_named t));
    _ ← for_fold (fun seen e =>
          if is_empty e.1 || is_empty e.2 then ve TunnelEntryEmpty
          else if negb (is_safe_key e.1) then ve TunnelKeyInvalid
          else if negb (is_plausible_hostname e.2) then ve TunnelHostnameInvalid
          else insert_seen TunnelDuplicateHostname e.2 seen) ∅ (btree_iter (tunnel_sites t));
    Ok tt.

Definition validate_groups (c : Config) : result ConfigError unit :=
  seen ← for_fold (fun seen name =>
          if is_empty name then ve GroupNameEmpty
          else if eq_ignore_ascii_case name RESERVED_GROUP_NAME then ve GroupNameReserved
          else insert_seen GroupDuplicate (to_ascii_lowercase name) seen) ∅ (groups_order (cf_groups c));
  for_each (fun e : str * str =>
    if bool_decide (to_ascii_lowercase e.2 ∈ (seen : gset str)) then Ok tt else ve GroupMemberDangling)
    (btree_iter (groups_members (cf_groups c))).

Definition validate_delta (delta : DomainDelta) : result ConfigError unit :=
  seen ← for_fold (fun seen d => insert_seen DomainAddedDuplicate (Domain_str d) seen) ∅ (added delta);
  _ ← for_each (fun s : Domain =>
        if bool_decide (Domain_str s ∈ (seen : gset str)) then ve DomainAddedSuppressedOverlap else Ok tt)
        (suppressed delta);
  match primary delta with
  | Some p => if is_wildcard p then ve DomainPrimaryWildcard else Ok tt
  | None => Ok tt
  end.
Definition validate_domains (c : Config) : result ConfigError unit :=
  for_each (fun e => validate_delta e.2)
    (btree_iter (domains_linked (cf_domains c)) ++ btree_iter (domains_parked (cf_domains c))
     ++ btree_iter (domains_proxy (cf_domains c))).

(** A target that points back at a host the proxy itself serves. *)
Definition targets_loop (c : Config) (t : UpstreamTarget) : bool :=
  str_eqb (target_host t) (Tld_str (cf_tld c))
  || ends_with ("."%str ++ Tld_str (cf_tld c)) (target_host t).

Definition validate_rule_set (c : Config) (rules : list ProxyRule) : result ConfigError unit :=
  _ ← for_fold (fun seen r =>
        seen' ← insert_seen ProxyRuleDuplicatePrefix (rule_prefix r) seen;
        if targets_loop c (rule_target r) then ve ProxyTargetLoop else Ok seen') ∅ rules;
  Ok tt.

Definition validate_route_rule_set (rules : list RouteRule) : result ConfigError unit :=
  _ ← for_fold (fun seen r => insert_seen RouteRuleDuplicatePrefix (route_prefix r) seen) ∅ rules;
  Ok tt.

Definition linked_names (c : Config) : gset str := list_to_set (site_name <$> cf_linked c).

Definition validate_proxies (c : Config) : result ConfigError unit :=
  _ ← for_fold (fun seen p =>
        if bool_decide (proxy_name p ∈ linked_names c) || bool_decide (proxy_name p ∈ (seen : gset str))
        then ve ProxyNameCollision
        else if targets_loop c (proxy_target p) then ve ProxyTargetLoop
        else Ok ({[proxy_name p]} ∪ seen)) ∅ (cf_proxies c);
  _ ← for_each (fun e : str * list ProxyRule =>
        if negb (bool_decide (e.1 ∈ linked_names c)) then ve ProxyRuleUnknownSite
        else validate_rule_set c e.2) (btree_iter (proxy_rules_linked (cf_proxy_rules c)));
  for_each (fun e => validate_rule_set c e.2) (btree_iter (proxy_rules_parked (cf_proxy_rules c))).

Definition validate_route_rules (c : Config) : result ConfigError unit :=
  _ ← for_each (fun e : str * list RouteRule =>
        if negb (bool_decide (e.1 ∈ linked_names c)) then ve RouteRuleUnknownSite
        else validate_route_rule_set e.2) (btree_iter (route_rules_linked (cf_route_rules c)));
  for_each (fun e => validate_route_rule_set e.2) (btree_iter (route_rules_parked (cf_route_rules c))).

Definition validate_projects (c : Config) : result ConfigError unit :=
  let taken : gset str := linked_names c ∪ list_to_set (proxy_name <$> cf_proxies c) in
  _ ← for_fold (fun (seen : gset str * gset N) p =>
        if bool_decide (project_name p ∈ taken) || bool_decide (project_name p ∈ seen.1)
        then ve ProjectNameCollision
        else if project_port p =? 0 then ve ProjectPortZero
        else if bool_decide (project_port p ∈ seen.2) then ve ProjectPortCollision
        else Ok ({[project_name p]} ∪ seen.1, {[project_port p]} ∪ seen.2)) (∅, ∅) (cf_projects c);
  Ok tt.

Definition validate (c : Config) : result ConfigError unit :=
  _ ← validate_ports c;
  _ ← validate_unique_linked c;
  _ ← validate_nonempty_paths c;
  _ ← validate_web_roots c;
  _ ← validate_known_services c;
  _ ← validate_php_settings c;
  _ ← validate_php_extensions c;
  _ ← validate_update_channel c;
  _ ← validate_tunnel c;
  _ ← validate_groups c;
  _ ← validate_domains c;
  _ ← validate_proxies c;
  _ ← validate_projects c;
  _ ← validate_route_rules c;
  Ok tt.

(** ** What a loaded configuration guarantees *)

Definition rule_set_ok (c : Config) (rules : list ProxyRule) : Prop :=
  NoDup (rule_prefix <$> rules) /\ forall r, r ∈ rules -> targets_loop c (rule_target r) = false.

Definition delta_ok (d : DomainDelta) : Prop :=
  NoDup (added d) /\ (forall s, s ∈ suppressed d -> s ∉ added d) /\
  (forall p, primary d = Some p -> is_wildcard p = false).

Definition service_key_ok (key : str) (i : ServiceInstance) : Prop :=
  ((key ∈ KNOWN_SINGLE_SERVICES /\ inst_site i = None) \/
   (exists site, key = "reverb:"%str ++ site /\ dns_label site = true /\
      (inst_site i = None \/ inst_site i = Some site))).

Record valid_config (c : Config) : Prop := mkValid {
  vc_http : http (cf_ports c) <> 0 /\ https (cf_ports c) <> 0 /\ http (cf_ports c) <> https (cf_ports c);
  vc_fallback : 1024 <= fallback_http (cf_ports c) /\ 1024 <= fallback_https (cf_ports c) /\
    fallback_http (cf_ports c) <> fallback_https (cf_ports c);
  vc_other_ports : mail_port (cf_mail c) <> 0 /\ dumps_port (cf_dumps c) <> 0 /\ 1024 <= cf_lan_setup_port c;
  vc_linked : NoDup (site_name <$> cf_linked c);
  vc_parked : [] ∉ cf_parked c;
  vc_overrides : cf_overrides c !! [] = None;
  vc_web_roots : forall s, s ∈ cf_linked c -> is_safe_relative (site_web_subpath s) = true;
  vc_override_roots : forall k o w, cf_overrides c !! k = Some o -> ov_web_root o = Some w ->
    is_safe_relative w = true;
  vc_services : forall k i, cf_services c !! k = Some i -> service_key_ok k i;
  vc_settings : forall k v, php_settings (cf_php c) !! k = Some v -> php_validate_value k v = Ok tt;
  vc_extensions : forall v es, php_extensions (cf_php c) !! v = Some es ->
    NoDup (ext_name <$> es) /\ forall e, e ∈ es -> validate_entry (ext_name e) (ext_path e) (ext_zend e) = Ok tt;
  vc_channel : cf_update_channel c = "stable"%str \/ cf_update_channel c = "edge"%str;
  vc_tunnel_named : (size (tunnel_named (cf_tunnel c)) <= 1)%nat /\
    forall k v, tunnel_named (cf_tunnel c) !! k = Some v -> is_safe_key k = true /\ is_safe_key v = true;
  vc_tunnel_sites : forall k h, tunnel_sites (cf_tunnel c) !! k = Some h ->
    is_safe_key k = true /\ is_plausible_hostname h = true /\
    forall k', tunnel_sites (cf_tunnel c) !! k' = Some h -> k' = k;
  vc_groups : NoDup (to_ascii_lowercase <$> groups_order (cf_groups c)) /\
    forall g, g ∈ groups_order (cf_groups c) -> g <> [] /\ eq_ignore_ascii_case g RESERVED_GROUP_NAME = false;
  vc_members : forall s g, groups_members (cf_groups c) !! s = Some g ->
    exists g', g' ∈ groups_order (cf_groups c) /\ eq_ignore_ascii_case g g' = true;
  vc_domains : forall k d, domains_linked (cf_domains c) !! k = Some d \/ domains_parked (cf_domains c) !! k = Some d
    \/ domains_proxy (cf_domains c) !! k = Some d -> delta_ok d;
  vc_proxies : NoDup (proxy_name <$> cf_proxies c) /\
    forall p, p ∈ cf_proxies c -> proxy_name p ∉ linked_names c /\ targets_loop c (proxy_target p) = false;
  vc_proxy_rules : (forall k rs, proxy_rules_linked (cf_proxy_rules c) !! k = Some rs ->
      k ∈ linked_names c /\ rule_set_ok c rs) /\
    (forall k rs, proxy_rules_parked (cf_proxy_rules c) !! k = Some rs -> rule_set_ok c rs);
  vc_projects : NoDup (project_name <$> cf_projects c) /\ NoDup (project_port <$> cf_projects c) /\
    forall p, p ∈ cf_projects c -> project_port p <> 0 /\
      project_name p ∉ linked_names c /\ project_name p ∉ proxy_name <$> cf_proxies c;
  vc_route_rules : (forall k rs, route_rules_linked (cf_route_rules c) !! k = Some rs ->
      k ∈ linked_names c /\ NoDup (route_prefix <$> rs)) /\
    (forall k rs, route_rules_parked (cf_route_rules c) !! k = Some rs -> NoDup (route_prefix <$> rs));
}.

(** ** The checks, one by one *)

Lemma bind_ok {E A B} (m : result E A) (f : A -> result E B) y :
  (x ← m; f x) = Ok y <-> exists x, m = Ok x /\ f x = Ok y.
Proof. destruct m; simpl; naive_solver. Qed.

Lemma seq_ok {E A} (m : result E unit) (k : result E A) y :
  (_ ← m; k) = Ok y <-> m = Ok tt /\ k = Ok y.
Proof. destruct m as [[]|]; simpl; naive_solver. Qed.

Lemma guard_ok (b : bool) (r : ValidateErrorReason) (k : result ConfigError unit) :
  (if b then ve r else k) = Ok tt <-> b = false /\ k = Ok tt.
Proof. destruct b; naive_solver. Qed.

Lemma guard_ok' (b : bool) (r : ValidateErrorReason) (k : result ConfigError unit) :
  (if b then k else ve r) = Ok tt <-> b = true /\ k = Ok tt.
Proof. destruct b; naive_solver. Qed.

Lemma is_ok_unit {E} (r : result E unit) : is_ok r = true <-> r = Ok tt.
Proof. destruct r as [[]|]; naive_solver. Qed.

Lemma insert_seen_ok {K} `{Countable K} r (key : K) seen s' :
  insert_seen r key seen = Ok s' <-> key ∉ seen /\ s' = {[key]} ∪ seen.
Proof. unfold insert_seen. case_bool_decide; naive_solver. Qed.

(** A loop that only looks for repeated keys. *)
Lemma unique_loop {A K} `{Countable K} r (key : A -> K) l s' :
  for_fold (fun seen x => insert_seen r (key x) seen) ∅ l = Ok s' <->
  NoDup (key <$> l) /\ s' = list_to_set (key <$> l).
Proof.
  rewrite (for_fold_unique _ key (fun _ => True)).
  - rewrite union_empty_r_L. split; [naive_solver|]. intros [? ->]. split; [set_solver|done].
  - intros. rewrite insert_seen_ok. naive_solver.
Qed.

(** A loop that also checks each element. *)
Lemma checked_unique_loop {A K} `{Countable K} (body : gset K -> A -> result ConfigError (gset K))
    (key : A -> K) (good : A -> Prop) l :
  (forall seen x s', body seen x = Ok s' <-> good x /\ key x ∉ seen /\ s' = {[key x]} ∪ seen) ->
  (exists s', for_fold body ∅ l = Ok s') <-> (forall x, x ∈ l -> good x) /\ NoDup (key <$> l).
Proof.
  intros Hb. setoid_rewrite (for_fold_unique body key good); [|done]. split.
  - intros (s' & H1 & H2 & _). naive_solver.
  - intros [H1 H2]. eexists. split; [|done]. split; [auto|set_solver].
Qed.

Lemma discard_ok {E A} (m : result E A) : (_ ← m; Ok tt) = @Ok E unit tt <-> exists x, m = Ok x.
Proof. destruct m; naive_solver. Qed.

Lemma drop_ok {E A B} (m : result E A) (k : result E B) y :
  (_ ← m; k) = Ok y <-> (exists x, m = Ok x) /\ k = Ok y.
Proof. destruct m; simpl; naive_solver. Qed.

Lemma forall_btree {A} (m : gmap str A) (P : str * A -> Prop) :
  (forall e, e ∈ btree_iter m -> P e) <-> forall k v, m !! k = Some v -> P (k, v).
Proof.
  split.
  - intros H k v Hk. apply H. by apply elem_of_btree_iter.
  - intros H [k v] Hk. apply H. by apply elem_of_btree_iter.
Qed.

Lemma elem_of_ver_iter {A} (m : gmap PhpVersion A) e : e ∈ ver_iter m <-> m !! e.1 = Some e.2.
Proof.
  unfold ver_iter. rewrite merge_sort_Permutation. destruct e as [k v]. apply elem_of_map_to_list.
Qed.

Lemma validate_ports_ok c :
  validate_ports c = Ok tt <->
  (http (cf_ports c) <> 0 /\ https (cf_ports c) <> 0 /\ http (cf_ports c) <> https (cf_ports c)) /\
  (1024 <= fallback_http (cf_ports c) /\ 1024 <= fallback_https (cf_ports c) /\
    fallback_http (cf_ports c) <> fallback_https (cf_ports c)) /\
  (mail_port (cf_mail c) <> 0 /\ dumps_port (cf_dumps c) <> 0 /\ 1024 <= cf_lan_setup_port c).
Proof.
  unfold validate_ports, FIRST_UNPRIVILEGED_PORT. rewrite !guard_ok, orb_false_iff, !N.eqb_neq, !N.ltb_ge.
  tauto.
Qed.

Lemma validate_unique_linked_ok c :
  validate_unique_linked c = Ok tt <-> NoDup (site_name <$> cf_linked c).
Proof.
  unfold validate_unique_linked. rewrite discard_ok. setoid_rewrite unique_loop. naive_solver.
Qed.

Lemma validate_nonempty_paths_ok c :
  validate_nonempty_paths c = Ok tt <-> [] ∉ cf_parked c /\ cf_overrides c !! [] = None.
Proof.
  unfold validate_nonempty_paths. rewrite seq_ok, !for_each_ok, forall_btree.
  setoid_rewrite guard_ok. setoid_rewrite elem_of_elements. setoid_rewrite is_empty_false. simpl. split.
  - intros [H1 H2]. split; [naive_solver|]. apply eq_None_not_Some. intros [o Ho]. naive_solver.
  - intros [H1 H2]. split; naive_solver.
Qed.

Lemma web_root_escapes_safe p : web_root_escapes p = false <-> is_safe_relative p = true.
Proof.
  unfold web_root_escapes, is_safe_relative. rewrite existsb_none, forallb_elem.
  split; intros H x Hx; specialize (H x Hx); by destruct x.
Qed.

Lemma validate_web_roots_ok c :
  validate_web_roots c = Ok tt <->
  (forall s, s ∈ cf_linked c -> is_safe_relative (site_web_subpath s) = true) /\
  (forall k o w, cf_overrides c !! k = Some o -> ov_web_root o = Some w -> is_safe_relative w = true).
Proof.
  unfold validate_web_roots. rewrite seq_ok, !for_each_ok, forall_btree. setoid_rewrite <- web_root_escapes_safe.
  setoid_rewrite guard_ok. simpl. split; intros [H1 H2]; (split; [naive_solver|]).
  - intros k o w Ho Hw. specialize (H2 k o Ho). rewrite Hw in H2. by destruct (web_root_escapes w).
  - intros k o Ho. destruct (ov_web_root o) as [w|] eqn:Ew; [|done]. by rewrite (H2 k o w Ho Ew).
Qed.

Lemma contains_spec l x : contains l x = true <-> x ∈ l.
Proof.
  unfold contains. rewrite existsb_elem. unfold str_eqb. split.
  - intros (y & Hy & E). bprop. by subst.
  - intros H. exists x. by rewrite bool_decide_true.
Qed.

Lemma is_valid_site_label_dns s : is_valid_site_label s = dns_label s.
Proof.
  apply eq_true_iff_eq. unfold is_valid_site_label, dns_label, label_char.
  rewrite !andb_true_iff, !negb_true_iff, !N.leb_le, orb_false_iff.
  assert (forallb (fun c => is_ascii_lowercase c || is_ascii_digit c || (c =? "-"%ch)) s = true -> len s = vlen s) as Hl.
  { intros H. apply len_ascii. apply forallb_Forall in H. eapply Forall_impl; [exact H|].
    intros c Hc. char_unfold. lia. }
  split.
  - intros ((((H1 & H2) & H3) & H4) & H5). rewrite (Hl H5) in H2. tauto.
  - intros (((H1 & H2) & H3) & H4 & H5). rewrite (Hl H3). tauto.
Qed.

Lemma split_wire_id_spec key ty site :
  split_wire_id key = (ty, site) <->
  match site with
  | Some s => key = ty ++ ":"%ch :: s /\ ":"%ch ∉ ty
  | None => ty = key /\ ":"%ch ∉ key
  end.
Proof.
  unfold split_wire_id. destruct (split_once ":" key) as [[a b]|] eqn:E.
  - apply split_once_Some in E as [-> Ha]. destruct site as [s|].
    + split; [by intros [= -> ->]|]. intros [H Ht].
      assert (split_once ":" (a ++ ":"%ch :: b) = Some (ty, s)) as Hs by (rewrite H; by apply split_once_complete).
      rewrite split_once_complete in Hs by done. by injection Hs as -> ->.
    + split; [done|]. intros [-> H]. exfalso. apply H. set_solver.
  - apply split_once_None in E. destruct site as [s|].
    + split; [done|]. intros [-> _]. exfalso. apply E. set_solver.
    + split; [by intros [= ->]|by intros [-> _]].
Qed.

Lemma known_single_no_colon ty : ty ∈ KNOWN_SINGLE_SERVICES -> ":"%ch ∉ ty.
Proof.
  intros H. apply contains_char_false. revert ty H. apply Forall_forall. repeat constructor.
Qed.

Lemma known_per_site ty : contains KNOWN_PER_SITE_SERVICES ty = true <-> ty = "reverb"%str.
Proof. rewrite contains_spec. unfold KNOWN_PER_SITE_SERVICES. set_solver. Qed.

Lemma validate_service_ok k i : validate_service (k, i) = Ok tt <-> service_key_ok k i.
Proof.
  unfold validate_service, service_key_ok. simpl fst. simpl snd.
  destruct (split_wire_id k) as [ty site] eqn:E. apply split_wire_id_spec in E. rewrite seq_ok.
  destruct (contains KNOWN_SINGLE_SERVICES ty) eqn:E1.
  - apply contains_spec in E1. destruct site as [s|].
    + split; [by intros [? _]|]. destruct E as [-> Hc]. intros [[H _]|(x & H & _)].
      * apply known_single_no_colon in H. set_solver.
      * exfalso. assert (ty = "reverb"%str) as ->.
        { assert (split_once ":" (ty ++ ":"%ch :: s) = Some ("reverb"%str, x)) as Hs by by rewrite H.
          rewrite split_once_complete in Hs by done. by injection Hs. }
        revert E1. apply (bool_decide_unpack _). vm_compute. done.
    + destruct E as [-> Hc]. split.
      * intros [_ H]. left. split; [done|]. by destruct (inst_site i).
      * intros [[_ ->]|(x & -> & _)]; [done|]. set_solver.
  - assert (ty ∉ KNOWN_SINGLE_SERVICES) as Hns by (rewrite <- contains_spec; congruence).
    destruct (contains KNOWN_PER_SITE_SERVICES ty) eqn:E2.
    + apply known_per_site in E2 as ->. destruct site as [s|].
      * destruct E as [-> Hc]. rewrite guard_ok', is_valid_site_label_dns. split.
        -- intros [[Hs _] Hi]. right. exists s. split; [done|]. split; [done|].
           destruct (inst_site i) as [f|]; [|by left]. right. by case_bool_decide.
        -- intros [[H _]|(x & H & Hd & Hi)]; [by apply known_single_no_colon in H; set_solver|].
           injection H as <-. split; [done|]. destruct Hi as [-> | ->]; [done|]. by rewrite bool_decide_true.
      * destruct E as [<- Hc]. split; [by intros [? _]|]. intros [[H _]|(x & H & _)]; [|done]. by apply Hns in H.
    + split; [by intros [? _]|]. intros [[H _]|(x & -> & _)].
      * destruct site as [s|]; destruct E as [E Hc]; [|by subst].
        subst k. apply known_single_no_colon in H. set_solver.
      * exfalso. assert (ty = "reverb"%str) as ->; [|by rewrite (proj2 (known_per_site _) eq_refl) in E2].
        destruct site as [s|]; destruct E as [E Hc].
        -- assert (split_once ":" (ty ++ ":"%ch :: s) = Some ("reverb"%str, x)) as Hs by by rewrite <- E.
           rewrite split_once_complete in Hs by done. by injection Hs.
        -- subst. set_solver.
Qed.

Lemma validate_known_services_ok c :
  validate_known_services c = Ok tt <-> forall k i, cf_services c !! k = Some i -> service_key_ok k i.
Proof.
  unfold validate_known_services. rewrite for_each_ok, forall_btree. by setoid_rewrite validate_service_ok.
Qed.

Lemma validate_php_settings_ok c :
  validate_php_settings c = Ok tt <->
  forall k v, php_settings (cf_php c) !! k = Some v -> php_validate_value k v = Ok tt.
Proof.
  unfold validate_php_settings. rewrite for_each_ok, forall_btree. setoid_rewrite guard_ok'.
  setoid_rewrite is_ok_unit. naive_solver.
Qed.

Lemma validate_extension_list_ok es :
  validate_extension_list es = Ok tt <->
  NoDup (ext_name <$> es) /\ forall e, e ∈ es -> validate_entry (ext_name e) (ext_path e) (ext_zend e) = Ok tt.
Proof.
  unfold validate_extension_list. rewrite discard_ok.
  rewrite (checked_unique_loop _ ext_name (fun e => validate_entry (ext_name e) (ext_path e) (ext_zend e) = Ok tt)).
  - tauto.
  - intros seen e s'. rewrite <- is_ok_unit.
    destruct (is_ok _); [rewrite insert_seen_ok|]; naive_solver.
Qed.

Lemma validate_php_extensions_ok c :
  validate_php_extensions c = Ok tt <->
  forall v es, php_extensions (cf_php c) !! v = Some es ->
    NoDup (ext_name <$> es) /\ forall e, e ∈ es -> validate_entry (ext_name e) (ext_path e) (ext_zend e) = Ok tt.
Proof.
  unfold validate_php_extensions. rewrite for_each_ok. setoid_rewrite elem_of_ver_iter.
  setoid_rewrite validate_extension_list_ok. split; [|naive_solver].
  intros H v es Hv. by apply (H (v, es)).
Qed.

Lemma validate_update_channel_ok c :
  validate_update_channel c = Ok tt <->
  cf_update_channel c = "stable"%str \/ cf_update_channel c = "edge"%str.
Proof.
  unfold validate_update_channel. rewrite guard_ok, negb_false_iff, contains_spec.
  unfold UPDATE_CHANNELS. rewrite !list_elem_of_In. simpl. naive_solver.
Qed.

(** Distinct values of a map, seen through its iteration. *)
Lemma NoDup_values (m : smap) :
  NoDup (snd <$> btree_iter m) <-> forall k k' v, m !! k = Some v -> m !! k' = Some v -> k' = k.
Proof.
  destruct (btree_iter_sorted m) as [_ Hnd]. setoid_rewrite <- elem_of_btree_iter.
  induction (btree_iter m) as [|[k0 v0] l IH]; simpl in *.
  - split; [|constructor]. intros _ k k' v H. by apply elem_of_nil in H.
  - apply NoDup_cons in Hnd as [Hk0 Hnd]. rewrite NoDup_cons, (IH Hnd). split.
    + intros [H1 H2] k k' v. rewrite !elem_of_cons.
      assert (forall k1, (k1, v0) ∉ l) as Hn.
      { intros k1 Hin. apply H1. apply list_elem_of_fmap. by exists (k1, v0). }
      intros [[= -> ->]|Hk] [[= ->]|Hk']; subst; try done; [by apply Hn in Hk'|by apply Hn in Hk|eauto].
    + intros H. split.
      * intros ([k1 v1] & Hv & Hin)%list_elem_of_fmap. simpl in Hv. subst v1.
        assert (k1 = k0) as -> by (apply (H k0 k1 v0); set_solver).
        apply Hk0. apply list_elem_of_fmap. by exists (k0, v0).
      * intros k k' v Hk Hk'. apply (H k k' v); set_solver.
Qed.

Lemma is_safe_key_ne k : is_safe_key k = true -> is_empty k = false.
Proof. unfold is_safe_key. intros H. by bprop. Qed.

Lemma is_plausible_hostname_ne h : is_plausible_hostname h = true -> is_empty h = false.
Proof. unfold is_plausible_hostname. by destruct (is_empty h). Qed.

Lemma validate_tunnel_ok c :
  validate_tunnel c = Ok tt <->
  ((size (tunnel_named (cf_tunnel c)) <= 1)%nat /\
    forall k v, tunnel_named (cf_tunnel c) !! k = Some v -> is_safe_key k = true /\ is_safe_key v = true) /\
  (forall k h, tunnel_sites (cf_tunnel c) !! k = Some h ->
    is_safe_key k = true /\ is_plausible_hostname h = true /\
    forall k', tunnel_sites (cf_tunnel c) !! k' = Some h -> k' = k).
Proof.
  unfold validate_tunnel. rewrite guard_ok, seq_ok, discard_ok, for_each_ok, forall_btree.
  rewrite (checked_unique_loop _ snd (fun e : str * str => is_safe_key e.1 = true /\ is_plausible_hostname e.2 = true)).
  - rewrite forall_btree, NoDup_values, N.ltb_ge. unfold vlen. rewrite btree_iter_perm, length_map_to_list.
    setoid_rewrite guard_ok. setoid_rewrite guard_ok. simpl. split.
    + intros (H1 & H2 & H3 & H4). split; [split; [lia|]|].
      * intros k v (_ & Hs & _)%H2. by bprop.
      * intros k h Hk. destruct (H3 k h Hk). naive_solver.
    + intros [[H1 H2] H3]. split; [lia|]. split; [|split; naive_solver].
      intros k v Hk. destruct (H2 k v Hk) as [Ha Hb].
      by rewrite (is_safe_key_ne k), (is_safe_key_ne v), Ha, Hb.
  - intros seen [k h] s'. simpl. split.
    + intros H. destruct (is_empty k || is_empty h); [done|].
      destruct (is_safe_key k); [|done]. destruct (is_plausible_hostname h); [|done].
      by apply insert_seen_ok in H.
    + intros ([Ha Hb] & H). rewrite (is_safe_key_ne k), (is_plausible_hostname_ne h), Ha, Hb by done.
      by apply insert_seen_ok.
Qed.

Lemma eq_ignore_case_true a b :
  eq_ignore_ascii_case a b = true <-> to_ascii_lowercase a = to_ascii_lowercase b.
Proof. unfold eq_ignore_ascii_case. apply bool_decide_eq_true. Qed.

Lemma validate_groups_ok c :
  validate_groups c = Ok tt <->
  (NoDup (to_ascii_lowercase <$> groups_order (cf_groups c)) /\
    forall g, g ∈ groups_order (cf_groups c) -> g <> [] /\ eq_ignore_ascii_case g RESERVED_GROUP_NAME = false) /\
  (forall s g, groups_members (cf_groups c) !! s = Some g ->
    exists g', g' ∈ groups_order (cf_groups c) /\ eq_ignore_ascii_case g g' = true).
Proof.
  unfold validate_groups. rewrite bind_ok.
  setoid_rewrite (for_fold_unique _ to_ascii_lowercase
    (fun g => g <> [] /\ eq_ignore_ascii_case g RESERVED_GROUP_NAME = false)); last first.
  { intros seen g s'. rewrite <- is_empty_false. destruct (is_empty g); [naive_solver|].
    destruct (eq_ignore_ascii_case g _); [naive_solver|]. rewrite insert_seen_ok. naive_solver. }
  setoid_rewrite for_each_ok. setoid_rewrite forall_btree. setoid_rewrite guard_ok'. simpl.
  assert (forall g, (to_ascii_lowercase g ∈ (list_to_set (to_ascii_lowercase <$> groups_order (cf_groups c)) ∪ ∅ : gset str)) <->
    exists g', g' ∈ groups_order (cf_groups c) /\ eq_ignore_ascii_case g g' = true) as Hin.
  { intros g. rewrite union_empty_r_L, elem_of_list_to_set, list_elem_of_fmap.
    setoid_rewrite eq_ignore_case_true. naive_solver. }
  split.
  - intros (seen & (H1 & H2 & ->) & H3). split; [split; [done|naive_solver]|].
    intros s g Hg. destruct (H3 s g Hg) as [Hd _]. bprop. by apply Hin.
  - intros [[H1 H2] H3]. eexists. split; [split; [|split; [exact H1|done]]|].
    + intros g Hg. split; [auto|set_solver].
    + intros s g Hg. split; [|done]. apply bool_decide_eq_true, Hin. eauto.
Qed.

Lemma Domain_str_NoDup ds : NoDup (Domain_str <$> ds) <-> NoDup ds.
Proof.
  split; [apply NoDup_fmap_1|]. apply NoDup_fmap_2. intros [] []. simpl. congruence.
Qed.

Lemma elem_of_Domain_str (ds : list Domain) d :
  Domain_str d ∈ (list_to_set (Domain_str <$> ds) : gset str) <-> d ∈ ds.
Proof.
  rewrite elem_of_list_to_set, list_elem_of_fmap. split; [|eauto].
  intros ([x] & E & Hin). destruct d. simpl in E. by subst.
Qed.

Lemma validate_delta_ok d : validate_delta d = Ok tt <-> delta_ok d.
Proof.
  unfold validate_delta, delta_ok. rewrite bind_ok. setoid_rewrite unique_loop.
  setoid_rewrite seq_ok. setoid_rewrite for_each_ok. setoid_rewrite guard_ok.
  setoid_rewrite bool_decide_eq_false. rewrite <- Domain_str_NoDup.
  assert (match primary d with Some p => if is_wildcard p then ve DomainPrimaryWildcard else Ok tt
                             | None => Ok tt end = Ok tt <->
          forall p, primary d = Some p -> is_wildcard p = false) as Hp.
  { destruct (primary d) as [p|]; [|done]. destruct (is_wildcard p) eqn:E.
    - split; [done|]. intros H. by rewrite (H p eq_refl) in E.
    - split; [by intros _ p' [= <-]|done]. }
  split.
  - intros (seen & (H1 & ->) & H2 & H3). split; [done|]. split; [|by apply Hp].
    intros s Hs. destruct (H2 s Hs) as [Hn _]. by rewrite elem_of_Domain_str in Hn.
  - intros (H1 & H2 & H3). eexists. split; [by split|]. split; [|by apply Hp].
    intros s Hs. split; [|done]. rewrite elem_of_Domain_str. auto.
Qed.

Lemma validate_domains_ok c :
  validate_domains c = Ok tt <->
  forall k d, domains_linked (cf_domains c) !! k = Some d \/ domains_parked (cf_domains c) !! k = Some d
    \/ domains_proxy (cf_domains c) !! k = Some d -> delta_ok d.
Proof.
  unfold validate_domains. rewrite for_each_ok. setoid_rewrite elem_of_app. setoid_rewrite elem_of_app.
  setoid_rewrite validate_delta_ok. setoid_rewrite <- elem_of_btree_iter. split.
  - intros H k d Hk. apply (H (k, d)). tauto.
  - intros H [k d] Hk. apply (H k d). tauto.
Qed.

Lemma validate_rule_set_ok c rs : validate_rule_set c rs = Ok tt <-> rule_set_ok c rs.
Proof.
  unfold validate_rule_set, rule_set_ok. rewrite discard_ok.
  rewrite (checked_unique_loop _ rule_prefix (fun r => targets_loop c (rule_target r) = false)); [tauto|].
  intros seen r s'. rewrite bind_ok. setoid_rewrite insert_seen_ok.
  destruct (targets_loop c (rule_target r)); naive_solver.
Qed.

Lemma validate_route_rule_set_ok rs : validate_route_rule_set rs = Ok tt <-> NoDup (route_prefix <$> rs).
Proof.
  unfold validate_route_rule_set. rewrite discard_ok. setoid_rewrite unique_loop. naive_solver.
Qed.

Lemma validate_proxies_ok c :
  validate_proxies c = Ok tt <->
  (NoDup (proxy_name <$> cf_proxies c) /\
    forall p, p ∈ cf_proxies c -> proxy_name p ∉ linked_names c /\ targets_loop c (proxy_target p) = false) /\
  ((forall k rs, proxy_rules_linked (cf_proxy_rules c) !! k = Some rs ->
      k ∈ linked_names c /\ rule_set_ok c rs) /\
    (forall k rs, proxy_rules_parked (cf_proxy_rules c) !! k = Some rs -> rule_set_ok c rs)).
Proof.
  unfold validate_proxies. rewrite drop_ok, seq_ok, !for_each_ok, !forall_btree.
  rewrite (checked_unique_loop _ proxy_name
    (fun p => proxy_name p ∉ linked_names c /\ targets_loop c (proxy_target p) = false)).
  - setoid_rewrite guard_ok. setoid_rewrite validate_rule_set_ok.
    setoid_rewrite negb_false_iff. setoid_rewrite bool_decide_eq_true. naive_solver.
  - intros seen p s'. repeat case_bool_decide; simpl; [naive_solver..|].
    destruct (targets_loop c (proxy_target p)); naive_solver.
Qed.

Lemma validate_route_rules_ok c :
  validate_route_rules c = Ok tt <->
  (forall k rs, route_rules_linked (cf_route_rules c) !! k = Some rs ->
      k ∈ linked_names c /\ NoDup (route_prefix <$> rs)) /\
  (forall k rs, route_rules_parked (cf_route_rules c) !! k = Some rs -> NoDup (route_prefix <$> rs)).
Proof.
  unfold validate_route_rules. rewrite seq_ok, !for_each_ok, !forall_btree.
  setoid_rewrite guard_ok. setoid_rewrite validate_route_rule_set_ok.
  setoid_rewrite negb_false_iff. setoid_rewrite bool_decide_eq_true. naive_solver.
Qed.

(** The project loop keeps two sets, names and ports. *)
Lemma project_loop taken seen l s' :
  for_fold (fun (seen : gset str * gset N) p =>
        if bool_decide (project_name p ∈ (taken : gset str)) || bool_decide (project_name p ∈ seen.1)
        then ve ProjectNameCollision
        else if project_port p =? 0 then ve ProjectPortZero
        else if bool_decide (project_port p ∈ seen.2) then ve ProjectPortCollision
        else Ok ({[project_name p]} ∪ seen.1, {[project_port p]} ∪ seen.2)) seen l = Ok s' ->
  (forall p, p ∈ l -> project_port p <> 0 /\ project_name p ∉ taken /\
     project_name p ∉ seen.1 /\ project_port p ∉ seen.2) /\
  NoDup (project_name <$> l) /\ NoDup (project_port <$> l).
Proof.
  revert seen; induction l as [|p l IH]; intros seen; simpl.
  { intros _. split; [|split; constructor]. intros p Hp. by apply elem_of_nil in Hp. }
  destruct (_ || _) eqn:E1; [done|]. destruct (project_port p =? 0) eqn:E0; [done|].
  destruct (bool_decide (project_port p ∈ seen.2)) eqn:E2; [done|].
  intros (H1 & H2 & H3)%IH. bprop. simpl in H1. rewrite !NoDup_cons. repeat split; set_solver.
Qed.

Lemma project_loop_ok taken seen l :
  (forall p, p ∈ l -> project_port p <> 0 /\ project_name p ∉ taken /\
     project_name p ∉ seen.1 /\ project_port p ∉ seen.2) ->
  NoDup (project_name <$> l) -> NoDup (project_port <$> l) ->
  exists s', for_fold (fun (seen : gset str * gset N) p =>
        if bool_decide (project_name p ∈ (taken : gset str)) || bool_decide (project_name p ∈ seen.1)
        then ve ProjectNameCollision
        else if project_port p =? 0 then ve ProjectPortZero
        else if bool_decide (project_port p ∈ seen.2) then ve ProjectPortCollision
        else Ok ({[project_name p]} ∪ seen.1, {[project_port p]} ∪ seen.2)) seen l = Ok s'.
Proof.
  revert seen; induction l as [|p l IH]; intros seen H; simpl; [eauto|].
  rewrite !NoDup_cons. intros [Hn1 Hn2] [Hp1 Hp2].
  destruct (H p) as (Ha & Hb & Hc & Hd); [set_solver|].
  rewrite !bool_decide_false by done. simpl. rewrite (proj2 (N.eqb_neq _ _) Ha). apply IH; try done.
  intros q Hq. destruct (H q) as (Ha' & Hb' & Hc' & Hd'); [set_solver|]. simpl. set_solver.
Qed.

Lemma validate_projects_ok c :
  validate_projects c = Ok tt <->
  NoDup (project_name <$> cf_projects c) /\ NoDup (project_port <$> cf_projects c) /\
    forall p, p ∈ cf_projects c -> project_port p <> 0 /\
      project_name p ∉ linked_names c /\ project_name p ∉ proxy_name <$> cf_proxies c.
Proof.
  unfold validate_projects. rewrite discard_ok. split.
  - intros (s' & (H1 & H2 & H3)%project_loop). split; [done|]. split; [done|].
    intros p (Ha & Hb & _)%H1. rewrite not_elem_of_union, not_elem_of_list_to_set in Hb. tauto.
  - intros (H1 & H2 & H3). apply project_loop_ok; try done. intros p (Ha & Hb & Hc)%H3.
    rewrite not_elem_of_union, not_elem_of_list_to_set. simpl. set_solver.
Qed.

Lemma validate_spec c : validate c = Ok tt <-> valid_config c.
Proof.
  unfold validate. rewrite !seq_ok, validate_ports_ok, validate_unique_linked_ok, validate_nonempty_paths_ok,
    validate_web_roots_ok, validate_known_services_ok, validate_php_settings_ok, validate_php_extensions_ok,
    validate_update_channel_ok, validate_tunnel_ok, validate_groups_ok, validate_domains_ok,
    validate_proxies_ok, validate_projects_ok, validate_route_rules_ok.
  split.
  - intros H. destruct_and! H. split; assumption || (split; assumption) || (split; [|split]; assumption).
  - intros []. tauto.
Qed.

(** Validation accepts exactly the configurations with the stated
    guarantees: bindable, distinct ports, the rootless ones unprivileged; unique
    site, proxy and project names with no name shared between the kinds; unique
    non-zero project ports; web roots that stay below their directory; known
    service ids; accepted PHP settings and extensions; at most one named tunnel
    with file-name-safe keys and distinct plausible host names; consistent
    groups; domain deltas without repetition or overlap; proxy targets that do
    not loop back; rules that name existing sites with distinct prefixes. *)
Theorem validate_exact c : validate c = Ok tt <-> valid_config c.
Proof. apply validate_spec. Qed.

(** The shipped default configuration is valid. *)
Lemma Config_default_valid : validate Config_default = Ok tt.
Proof. vm_compute. reflexivity. Qed.
