(* ===== verification/Migrate.v ===== *)
(** * Schema migrations

    [src/crates/orcker-config/src/migrate.rs]: reading the [version] key of a
    parsed document and walking the forward steps.  A [Value] is a TOML value as
    the steps inspect it; floats and dates are never looked at. *)

From S2P Require Import Prelude RustStr RustMap CoreError Config.

Open Scope N_scope.

Inductive Value :=
| VString (s : str)
| VInteger (n : Z)
| VBoolean (b : bool)
| VOther (text : str)
| VArray (l : list Value)
| VTable (t : gmap str Value).

Definition as_table (v : Value) : option (gmap str Value) :=
  match v with VTable t => Some t | _ => None end.

Definition set_version (value : Value) (n : Z) : result ConfigError Value :=
  t ← ok_or (ConfigMigration MissingVersion) (as_table value);
  Ok (VTable (<["version"%str := VInteger n]> t)).

(** [u32::try_from(i64)] *)
Definition u32_try_from (n : Z) : option N :=
  if ((0 <=? n)%Z && (n <=? Z.of_N u32_max)%Z)%bool then Some (Z.to_N n) else None.

Definition read_version (value : Value) : result ConfigError N :=
  t ← ok_or (ConfigMigration MissingVersion) (as_table value);
  v ← ok_or (ConfigMigration MissingVersion) (t !! "version"%str);
  n ← ok_or (ConfigMigration NonIntegerVersion) (match v with VInteger n => Some n | _ => None end);
  ok_or (ConfigMigration NonIntegerVersion) (u32_try_from n).

(** A change of the table under a top-level key, when there is one. *)
Definition modify_table (key : str) (f : gmap str Value -> gmap str Value) (value : Value) : Value :=
  match value with
  | VTable t => match t !! key with
                | Some (VTable s) => VTable (<[key := VTable (f s)]> t)
                | _ => value
                end
  | _ => value
  end.

Definition enabled_table : gmap str Value := {["enabled"%str := VBoolean true]}.

(** [enabled = ["redis", ...]] becomes one table per service. *)
Definition services_v3 (services : gmap str Value) : gmap str Value :=
  match services !! "enabled"%str with
  | Some (VArray enabled) =>
      foldl (fun s entry => match entry with
                            | VString name => <[name := VTable enabled_table]> s
                            | _ => s
                            end) (delete "enabled"%str services) enabled
  | _ => delete "enabled"%str services
  end.

(** Every single-instance service is marked enabled. *)
Definition services_v15 (services : gmap str Value) : gmap str Value :=
  map_imap (fun key inst =>
    Some (if contains_char ":" key then inst
          else match inst with
               | VTable t => VTable (<["enabled"%str := VBoolean true]> t)
               | _ => inst
               end)) services.

Definition migrate_v2_to_v3 (value : Value) : result ConfigError Value :=
  set_version (modify_table "services"%str services_v3 value) 3.
Definition migrate_v14_to_v15 (value : Value) : result ConfigError Value :=
  set_version (modify_table "services"%str services_v15 value) 15.

(** The other steps only bump the version. *)
Definition bump (n : Z) (value : Value) : result ConfigError Value := set_version value n.

Definition STEPS : list (Value -> result ConfigError Value) :=
  [bump 1; bump 2; migrate_v2_to_v3; bump 4; bump 5; bump 6; bump 7; bump 8; bump 9; bump 10; bump 11;
   bump 12; bump 13; bump 14; migrate_v14_to_v15; bump 16; bump 17; bump 18; bump 19; bump 20; bump 21;
   bump 22; bump 23; bump 24].

(** [while current < CURRENT_VERSION]; the distance left is the fuel. *)
Fixpoint up_loop (fuel : nat) (value : Value) (current : N) : result ConfigError Value :=
  match fuel with
  | O => Ok value
  | S f =>
      if current <? CURRENT_VERSION then
        step ← ok_or (ConfigMigration (MissingStep current)) (STEPS !! N.to_nat current);
        value ← step value;
        current ← ok_or (ConfigMigration (MissingStep current))
                    (if current =? u32_max then None else Some (current + 1));
        up_loop f value current
      else Ok value
  end.
Definition up (value : Value) (found : N) : result ConfigError Value :=
  up_loop (N.to_nat (CURRENT_VERSION - found)) value found.

(** ** Lemmas *)

(** What one step may touch. *)
Definition step_ok (n : Z) (t t' : gmap str Value) : Prop :=
  t' !! "version"%str = Some (VInteger n) /\
  forall k, k <> "version"%str -> k <> "services"%str -> t' !! k = t !! k.

Lemma bump_ok n t : exists t', bump n (VTable t) = Ok (VTable t') /\ step_ok n t t' /\
  t' !! "services"%str = t !! "services"%str.
Proof.
  eexists. split; [reflexivity|]. split; [split; [by rewrite lookup_insert_eq|]|by rewrite lookup_insert_ne].
  intros k H1 H2. by rewrite lookup_insert_ne.
Qed.

Lemma modify_table_ok key f t n :
  key <> "version"%str ->
  exists t', set_version (modify_table key f (VTable t)) n = Ok (VTable t') /\
    t' !! "version"%str = Some (VInteger n) /\
    (forall k, k <> "version"%str -> k <> key -> t' !! k = t !! k).
Proof.
  intros Hk. unfold modify_table.
  destruct (t !! key) as [[]|]; (eexists; split; [reflexivity|]; split; [by rewrite lookup_insert_eq|]);
    intros k H1 H2; rewrite !lookup_insert_ne by done; done.
Qed.

Lemma steps_ok i step t :
  STEPS !! i = Some step -> exists t', step (VTable t) = Ok (VTable t') /\ step_ok (Z.of_nat i + 1) t t'.
Proof.
  intros Hi. do 24 (destruct i as [|i]; [injection Hi as <-;
    first [destruct (bump_ok 1 t) as (t' & _ & _);
           eexists; split; [reflexivity|split; [apply lookup_insert_eq|intros; by rewrite lookup_insert_ne]]
          |destruct (modify_table_ok "services"%str services_v3 t 3) as (t' & H1 & H2 & H3); [done|];
           exists t'; split; [exact H1|split; [exact H2|exact H3]]
          |destruct (modify_table_ok "services"%str services_v15 t 15) as (t' & H1 & H2 & H3); [done|];
           exists t'; split; [exact H1|split; [exact H2|exact H3]]]|]).
  done.
Qed.

Lemma up_loop_ok fuel t current :
  N.to_nat (CURRENT_VERSION - current) = fuel -> current <= CURRENT_VERSION ->
  exists t', up_loop fuel (VTable t) current = Ok (VTable t') /\
    (current < CURRENT_VERSION -> t' !! "version"%str = Some (VInteger 24)) /\
    (forall k, k <> "version"%str -> k <> "services"%str -> t' !! k = t !! k).
Proof.
  revert t current; induction fuel as [|f IH]; intros t current Hf Hc; cbn [up_loop].
  { exists t. split; [done|]. split; [lia|done]. }
  assert (current <? CURRENT_VERSION = true) as Hlt by (apply N.ltb_lt; lia). rewrite Hlt.
  assert (is_Some (STEPS !! N.to_nat current)) as [step Hs].
  { apply lookup_lt_is_Some. apply N.ltb_lt in Hlt. unfold CURRENT_VERSION in Hlt. simpl. lia. }
  rewrite Hs. cbn [ok_or mbind result_bind].
  destruct (steps_ok _ _ t Hs) as (t1 & -> & Hv & Hk). cbn [mbind result_bind].
  apply N.ltb_lt in Hlt. unfold CURRENT_VERSION, u32_max in *.
  destruct (current =? 4294967295) eqn:E; bprop; [lia|]. cbn [ok_or mbind result_bind].
  destruct (IH t1 (current + 1)) as (t2 & H1 & H2 & H3); [lia|lia|]. exists t2. split; [done|]. split.
  - intros _. destruct (decide (current + 1 = 24)) as [Ec|]; [|apply H2; lia].
    assert (f = O) as -> by lia. simpl in H1. injection H1 as <-.
    rewrite Hv. repeat f_equal. lia.
  - intros k Hk1 Hk2. by rewrite H3, Hk.
Qed.

(** Migrating a document of any older version always succeeds, ends at the
    current version, and leaves every top-level section other than [services]
    exactly as it was. *)
Theorem up_reaches_current t found (Hf : found < CURRENT_VERSION) :
  exists t', up (VTable t) found = Ok (VTable t') /\ read_version (VTable t') = Ok 24 /\
    forall k, k <> "version"%str -> k <> "services"%str -> t' !! k = t !! k.
Proof.
  destruct (up_loop_ok _ t found eq_refl) as (t' & H1 & H2 & H3); [lia|].
  exists t'. split; [done|]. split; [|done]. unfold read_version. simpl. by rewrite (H2 Hf).
Qed.

Lemma up_reaches_current_witness :
  exists t', up (VTable {["version"%str := VInteger 2]}) 2 = Ok (VTable t') /\
    read_version (VTable t') = Ok 24.
Proof.
  destruct (up_reaches_current {["version"%str := VInteger 2]} 2 eq_refl) as (t' & H1 & H2 & _). by exists t'.
Defined.
