(* ===== verification/Wire.v ===== *)
(** * From the wire mirror to the typed configuration

    The raw-typed records of [src/crates/orcker-config/src/parse.rs] that
    deserialisation fills, and [TryFrom<Wire> for Config] with its converters:
    every typed value goes through the core validators, whose error is the
    first failing field's, while per-version settings, directives and service
    overrides are filtered instead of failing the load.  [parse_toml] is the
    whole pipeline. *)

From S2P Require Import Prelude RustStr RustMap RustPath CoreError DnsLabel Tld Domain Php Net Site Proxy Project Settings Config Migrate.

Open Scope N_scope.

(** ** The wire records *)

Record PortsWire := mkPortsWire {
  pw_http : N; pw_https : N; pw_fallback_http : N; pw_fallback_https : N }.
Record ExtEntryWire := mkExtWire { ew_name : option str; ew_path : str; ew_zend : bool }.
Record PhpSectionWire := mkPhpWire {
  phw_default : str;
  phw_settings : smap;
  phw_extensions : gmap str (list ExtEntryWire);
  phw_version_settings : gmap str smap;
  phw_directives : gmap str smap;
}.
Record ServiceInstanceWire := mkInstWire {
  iw_version : option str; iw_port : option N; iw_site : option str; iw_enabled : option bool;
  iw_overrides : smap }.
Record SiteWire := mkSiteWire {
  sw_name : str;
  sw_document_root : str;
  sw_web_subpath : str;
  sw_php : str;
  sw_secure : bool;
  sw_kind : SiteKind;
  sw_wp_auto_login : bool;
  sw_wp_auto_login_user : option str;
  sw_front_controller : option bool;
}.
Record OverrideWire := mkOvWire {
  ow_path : str;
  ow_php : option str;
  ow_secure : option bool;
  ow_web_root : option str;
  ow_wp_auto_login : option bool;
  ow_wp_auto_login_user : option str;
  ow_front_controller : option bool;
}.
Record ProjectWire := mkProjWire { prw_name : str; prw_root : str; prw_port : N; prw_secure : bool }.
Record ProxyWire := mkProxyWire { pxw_name : str; pxw_target : str; pxw_secure : bool }.
Record ProxyRuleWire := mkProxyRuleWire { rw_prefix : str; rw_target : str }.
Record RouteRuleWire := mkRouteRuleWire { rrw_prefix : str; rrw_target : str }.
Record DomainDeltaWire := mkDeltaWire {
  dw_added : list str; dw_suppressed : list str; dw_primary : option str }.

Record Wire := mkWire {
  w_version : N;
  w_tld : str;
  w_dns_port : N;
  w_update_channel : str;
  w_symlink_protection : bool;
  w_mcp_enabled : bool;
  w_lan_enabled : bool;
  w_lan_setup_port : N;
  w_ports : PortsWire;
  w_php : PhpSectionWire;
  w_parked : gset str;
  w_linked : list SiteWire;
  w_overrides : list OverrideWire;
  w_services : gmap str ServiceInstanceWire;
  w_mail : MailSection;
  w_dumps : DumpsSection;
  w_tunnel : TunnelSection;
  w_groups : GroupsSection;
  w_domains_linked : gmap str DomainDeltaWire;
  w_domains_parked : gmap str DomainDeltaWire;
  w_domains_proxy : gmap str DomainDeltaWire;
  w_proxies : list ProxyWire;
  w_proxy_rules_linked : gmap str (list ProxyRuleWire);
  w_proxy_rules_parked : gmap str (list ProxyRuleWire);
  w_route_rules_linked : gmap str (list RouteRuleWire);
  w_route_rules_parked : gmap str (list RouteRuleWire);
  w_projects : list ProjectWire;
}.

(** ** Converters *)

(** [?] on a core result: [From<CoreError> for ConfigError]. *)
Definition core {A} (r : result CoreError A) : result ConfigError A := map_err ConfigCore r.

(** [opt.map(f).transpose()] *)
Definition transpose {A B E} (f : A -> result E B) (o : option A) : result E (option B) :=
  match o with None => Ok None | Some x => y ← f x; Ok (Some y) end.

(** A map converted value by value, in key order, collected into a map. *)
Definition convert_map {A B} (f : str -> A -> result ConfigError B) (wire : gmap str A)
  : result ConfigError (gmap str B) :=
  for_fold (fun (out : gmap str B) (e : str * A) => v ← f e.1 e.2; Ok (<[e.1 := v]> out)) ∅ (btree_iter wire).

Definition convert_projects (wire : list ProjectWire) : result ConfigError (list ContainerProject) :=
  collect_ok (fun p =>
    project ← core (ContainerProject_new (prw_name p) (prw_root p) (prw_port p));
    Ok (project_set_secure (prw_secure p) project)) wire.

Definition convert_proxies (wire : list ProxyWire) : result ConfigError (list ProxySite) :=
  collect_ok (fun p =>
    target ← core (from_url_str (pxw_target p));
    proxy ← core (ProxySite_new (pxw_name p) target);
    Ok (proxy_set_secure (pxw_secure p) proxy)) wire.

Definition convert_proxy_rules (wire : gmap str (list ProxyRuleWire))
  : result ConfigError (gmap str (list ProxyRule)) :=
  convert_map (fun _ rules =>
    collect_ok (fun r =>
      target ← core (from_url_str (rw_target r));
      core (ProxyRule_new (rw_prefix r) target)) rules) wire.

Definition convert_route_rules (wire : gmap str (list RouteRuleWire))
  : result ConfigError (gmap str (list RouteRule)) :=
  convert_map (fun _ rules => collect_ok (fun r => core (RouteRule_new (rrw_prefix r) (rrw_target r))) rules) wire.

Definition parse_domain_list (subs : list str) : result ConfigError (list Domain) :=
  collect_ok (fun s => core (Domain_parse_subpart s)) subs.

Definition convert_domain_deltas (wire : gmap str DomainDeltaWire) : result ConfigError (gmap str DomainDelta) :=
  convert_map (fun _ delta =>
    a ← parse_domain_list (dw_added delta);
    s ← parse_domain_list (dw_suppressed delta);
    p ← transpose (fun s => core (Domain_parse_subpart s)) (dw_primary delta);
    Ok (mkDelta a s p)) wire.

Definition convert_site (sw : SiteWire) : result ConfigError Site :=
  php_v ← core (PhpVersion_from_str (sw_php sw));
  s ← core (match sw_kind sw with
            | Linked => Site_linked (sw_name sw) (sw_document_root sw) php_v
            | Parked => Site_parked (sw_name sw) (sw_document_root sw) php_v
            end);
  let s := set_secure (sw_secure sw) s in
  let s := set_web_subpath (sw_web_subpath sw) s in
  let s := set_wp_auto_login (sw_wp_auto_login sw) s in
  let s := set_wp_auto_login_user (sw_wp_auto_login_user sw) s in
  let s := set_front_controller (sw_front_controller sw) s in
  Ok s.
Definition convert_linked (wire : list SiteWire) : result ConfigError (list Site) := collect_ok convert_site wire.

(** The per-version maps: keys parse to versions, later keys win. *)
Definition convert_extensions (wire : gmap str (list ExtEntryWire))
  : result ConfigError (gmap PhpVersion (list ExtEntry)) :=
  for_fold (fun (out : gmap PhpVersion (list ExtEntry)) (e : str * list ExtEntryWire) =>
    v ← core (PhpVersion_from_str e.1);
    let converted := map (fun x =>
      mkExt (default [] (match ew_name x with
                         | Some n => Some n
                         | None => default_name_from_path (ew_path x)
                         end)) (ew_path x) (ew_zend x)) e.2 in
    Ok (<[v := converted]> out)) ∅ (btree_iter wire).

(** [entries.into_iter().filter(p).collect::<BTreeMap<_, _>>()] *)
Definition keep (p : str -> str -> bool) (m : smap) : smap := filter (fun kv => p kv.1 kv.2 = true) m.

Definition convert_filtered (p : str -> str -> bool) (wire : gmap str smap)
  : result ConfigError (gmap PhpVersion smap) :=
  for_fold (fun (out : gmap PhpVersion smap) (e : str * smap) =>
    v ← core (PhpVersion_from_str e.1);
    let kept := keep p e.2 in
    Ok (if bool_decide (kept = ∅) then out else <[v := kept]> out)) ∅ (btree_iter wire).

Definition convert_version_settings := convert_filtered (fun k v => is_ok (php_validate_value k v)).
Definition convert_directives := convert_filtered (fun k v =>
  is_ok (directive_validate_name k) && is_ok (directive_validate_value v)
  && match directive_reserved k with None => true | Some _ => false end).

Definition convert_service_overrides (key : str) (wire : smap) : smap :=
  match dialect_for (split_wire_id key).1 with
  | None => ∅
  | Some d => keep (fun k v => is_ok (override_validate_name k) && is_ok (override_validate_value d v)
                && match override_reserved d k with None => true | Some _ => false end) wire
  end.

Definition convert_service (name : str) (inst : ServiceInstanceWire) : ServiceInstance :=
  mkInstance (iw_version inst) (iw_port inst) (iw_site inst)
    (default (default_autostart_for_key name) (iw_enabled inst))
    (convert_service_overrides name (iw_overrides inst)).

Definition convert_overrides (wire : list OverrideWire) : result ConfigError (gmap str SiteOverride) :=
  for_fold (fun (out : gmap str SiteOverride) o =>
    php ← transpose (fun s => core (PhpVersion_from_str s)) (ow_php o);
    Ok (<[ow_path o := mkOverride php (ow_secure o) (ow_web_root o) (ow_wp_auto_login o)
            (ow_wp_auto_login_user o) (ow_front_controller o)]> out)) ∅ wire.

Definition Config_try_from (w : Wire) : result ConfigError Config :=
  if negb (w_version w =? CURRENT_VERSION) then Err (ConfigUnsupportedVersion (w_version w) CURRENT_VERSION)
  else
    tld ← core (Tld_new (w_tld w));
    default_php ← core (PhpVersion_from_str (phw_default (w_php w)));
    extensions ← convert_extensions (phw_extensions (w_php w));
    version_settings ← convert_version_settings (phw_version_settings (w_php w));
    directives ← convert_directives (phw_directives (w_php w));
    let php := mkPhpSection default_php (phw_settings (w_php w)) extensions version_settings directives in
    let ports := mkPorts (pw_http (w_ports w)) (pw_https (w_ports w)) (pw_fallback_http (w_ports w))
                   (pw_fallback_https (w_ports w)) in
    overrides ← convert_overrides (w_overrides w);
    let services := map_imap (fun name inst => Some (convert_service name inst)) (w_services w) in
    linked ← convert_linked (w_linked w);
    domains_linked ← convert_domain_deltas (w_domains_linked w);
    domains_parked ← convert_domain_deltas (w_domains_parked w);
    domains_proxy ← convert_domain_deltas (w_domains_proxy w);
    proxies ← convert_proxies (w_proxies w);
    projects ← convert_projects (w_projects w);
    proxy_rules_linked ← convert_proxy_rules (w_proxy_rules_linked w);
    proxy_rules_parked ← convert_proxy_rules (w_proxy_rules_parked w);
    route_rules_linked ← convert_route_rules (w_route_rules_linked w);
    route_rules_parked ← convert_route_rules (w_route_rules_parked w);
    Ok (mkConf CURRENT_VERSION tld (w_dns_port w) (w_update_channel w) (w_symlink_protection w)
          (w_mcp_enabled w) (w_lan_enabled w) (w_lan_setup_port w) ports php (w_parked w) linked projects
          overrides services (w_mail w) (w_dumps w) (w_tunnel w) (w_groups w)
          (mkDomains domains_linked domains_parked domains_proxy) proxies
          (mkProxyRules proxy_rules_linked proxy_rules_parked)
          (mkRouteRules route_rules_linked route_rules_parked)).

(** ** Loading a file

    Reading TOML text into a document and a document into the wire records is
    the work of the [toml] and [serde] crates: two parameters. *)
Section Load.
Context (toml_from_str : str -> result str Value) (try_into : Value -> result str Wire).

Definition parse_toml (s : str) : result ConfigError Config :=
  value ← map_err ConfigParse (toml_from_str s);
  found ← read_version value;
  if CURRENT_VERSION <? found then Err (ConfigUnsupportedVersion found CURRENT_VERSION)
  else
    value ← (if found <? CURRENT_VERSION then up value found else Ok value);
    wire ← map_err ConfigParse (try_into value);
    cfg ← Config_try_from wire;
    _ ← validate cfg;
    Ok cfg.
End Load.

(** ** What conversion guarantees *)

Definition delta_typed (d : DomainDelta) : Prop :=
  (forall x, x ∈ added d \/ x ∈ suppressed d \/ primary d = Some x -> valid_subpart (Domain_str x) = true).
Definition target_typed (t : UpstreamTarget) : Prop :=
  host_ok (target_host t) /\ 0 < target_port t <= u16_max.

Record typed_config (c : Config) : Prop := mkTyped {
  tc_version : cf_version c = 24;
  tc_tld : valid_tld (Tld_str (cf_tld c)) = true;
  tc_php : php_in_range (php_default (cf_php c));
  tc_linked : forall s, s ∈ cf_linked c -> dns_label (site_name s) = true /\ php_in_range (site_php s);
  tc_projects : forall p, p ∈ cf_projects c -> dns_label (project_name p) = true;
  tc_proxies : forall p, p ∈ cf_proxies c -> dns_name (proxy_name p) = true /\ target_typed (proxy_target p);
  tc_domains : forall k d, domains_linked (cf_domains c) !! k = Some d \/
    domains_parked (cf_domains c) !! k = Some d \/ domains_proxy (cf_domains c) !! k = Some d -> delta_typed d;
  tc_proxy_rules : forall k rs r, proxy_rules_linked (cf_proxy_rules c) !! k = Some rs \/
    proxy_rules_parked (cf_proxy_rules c) !! k = Some rs -> r ∈ rs -> target_typed (rule_target r);
  tc_route_rules : forall k rs r, route_rules_linked (cf_route_rules c) !! k = Some rs \/
    route_rules_parked (cf_route_rules c) !! k = Some rs -> r ∈ rs -> is_safe_relative (route_target r) = true;
  tc_version_settings : forall v m k x, php_version_settings (cf_php c) !! v = Some m -> m !! k = Some x ->
    php_validate_value k x = Ok tt;
  tc_directives : forall v m k x, php_directives (cf_php c) !! v = Some m -> m !! k = Some x ->
    directive_ok k x = true;
  tc_services : forall key i k x, cf_services c !! key = Some i -> inst_overrides i !! k = Some x ->
    exists d, dialect_for (split_wire_id key).1 = Some d /\ override_ok d k x = true;
}.

(** ** Lemmas *)

Lemma core_ok {A} (r : result CoreError A) x : core r = Ok x <-> r = Ok x.
Proof. destruct r; unfold core; simpl; naive_solver. Qed.

Lemma for_fold_inv {E A S} (P : S -> Prop) (body : S -> A -> result E S) l s s' :
  (forall s x s', x ∈ l -> P s -> body s x = Ok s' -> P s') -> P s -> for_fold body s l = Ok s' -> P s'.
Proof.
  revert s; induction l as [|x l IH]; intros s Hb Hs; simpl; [by intros [= <-]|].
  destruct (body s x) as [s1|] eqn:E1; [|done]. apply IH; [set_solver|].
  eapply Hb; [by left|exact Hs|done].
Qed.

Lemma convert_map_ok {A B} (f : str -> A -> result ConfigError B) wire out k v :
  convert_map f wire = Ok out -> out !! k = Some v -> exists x, wire !! k = Some x /\ f k x = Ok v.
Proof.
  unfold convert_map. intros H. revert k v.
  refine (for_fold_inv (fun out => forall k v, out !! k = Some v -> exists x, wire !! k = Some x /\ f k x = Ok v)
    _ _ _ _ _ _ H); [|by intros ? ?; rewrite lookup_empty].
  intros s [k x] s' Hin%elem_of_btree_iter Hs Hf k' v'. simpl in Hf. apply bind_ok in Hf as (y & Hy & [= <-]).
  rewrite lookup_insert. case_decide; [intros [= <-]; subst; eauto|apply Hs].
Qed.

Lemma collect_ok_elem {E A B} (f : A -> result E B) l ys y :
  collect_ok f l = Ok ys -> y ∈ ys -> exists x, x ∈ l /\ f x = Ok y.
Proof.
  intros H%collect_ok_Forall2 Hy. apply list_elem_of_lookup in Hy as (i & Hi).
  destruct (Forall2_lookup_r _ _ _ _ _ H Hi) as (x & Hx & Hf). exists x.
  split; [by eapply list_elem_of_lookup_2|done].
Qed.

Lemma convert_projects_typed w l p :
  convert_projects w = Ok l -> p ∈ l -> dns_label (project_name p) = true.
Proof.
  intros H Hp. destruct (collect_ok_elem _ _ _ _ H Hp) as (x & _ & Hx).
  apply bind_ok in Hx as (q & Hq%core_ok & [= <-]). unfold ContainerProject_new in Hq.
  apply bind_ok in Hq as (n & Hn%validate_name_spec & [= <-]). apply Hn.
Qed.

Lemma convert_proxies_typed w l p :
  convert_proxies w = Ok l -> p ∈ l -> dns_name (proxy_name p) = true /\ target_typed (proxy_target p).
Proof.
  intros H Hp. destruct (collect_ok_elem _ _ _ _ H Hp) as (x & _ & Hx).
  apply bind_ok in Hx as (t & Ht%core_ok & Hx). apply bind_ok in Hx as (q & Hq%core_ok & [= <-]).
  unfold ProxySite_new in Hq. apply bind_ok in Hq as (n & Hn%validate_proxy_name_spec & [= <-]). simpl.
  split; [apply Hn|]. by apply from_url_str_ok in Ht.
Qed.

Lemma convert_site_typed w s :
  convert_site w = Ok s -> dns_label (site_name s) = true /\ php_in_range (site_php s).
Proof.
  unfold convert_site. intros H. apply bind_ok in H as (v & Hv%core_ok & H).
  apply bind_ok in H as (s0 & H0%core_ok & [= <-]). simpl.
  assert (dns_label (site_name s0) = true /\ site_php s0 = v) as [H1 H2].
  { unfold Site_linked, Site_parked, site_with_kind in H0.
    destruct (sw_kind w); apply bind_ok in H0 as (n & Hn%validate_name_spec & [= <-]); simpl; tauto. }
  split; [done|]. rewrite H2. by eapply php_from_str_range.
Qed.

Lemma parse_domain_list_typed l ds d : parse_domain_list l = Ok ds -> d ∈ ds -> valid_subpart (Domain_str d) = true.
Proof.
  intros H Hd. destruct (collect_ok_elem _ _ _ _ H Hd) as (x & _ & Hx%core_ok).
  by apply Domain_parse_subpart_spec in Hx as [? _].
Qed.

Lemma convert_deltas_typed w m k d : convert_domain_deltas w = Ok m -> m !! k = Some d -> delta_typed d.
Proof.
  intros H Hk. destruct (convert_map_ok _ _ _ _ _ H Hk) as (x & _ & Hx).
  apply bind_ok in Hx as (a & Ha & Hx). apply bind_ok in Hx as (s & Hs & Hx).
  apply bind_ok in Hx as (p & Hp & [= <-]). intros y [Hy|[Hy|Hy]]; simpl in Hy.
  - exact (parse_domain_list_typed _ _ _ Ha Hy).
  - exact (parse_domain_list_typed _ _ _ Hs Hy).
  - subst p. unfold transpose in Hp. destruct (dw_primary x); [|done].
    apply bind_ok in Hp as (z & Hz%core_ok & [= ->]). by apply Domain_parse_subpart_spec in Hz as [? _].
Qed.

Lemma convert_proxy_rules_typed w m k rs r :
  convert_proxy_rules w = Ok m -> m !! k = Some rs -> r ∈ rs -> target_typed (rule_target r).
Proof.
  intros H Hk Hr. destruct (convert_map_ok _ _ _ _ _ H Hk) as (x & _ & Hx).
  destruct (collect_ok_elem _ _ _ _ Hx Hr) as (y & _ & Hy).
  apply bind_ok in Hy as (t & Ht%core_ok & Hn%core_ok). apply from_url_str_ok in Ht.
  unfold ProxyRule_new in Hn. repeat step_in Hn. injection Hn as <-. done.
Qed.

Lemma convert_route_rules_typed w m k rs r :
  convert_route_rules w = Ok m -> m !! k = Some rs -> r ∈ rs -> is_safe_relative (route_target r) = true.
Proof.
  intros H Hk Hr. destruct (convert_map_ok _ _ _ _ _ H Hk) as (x & _ & Hx).
  destruct (collect_ok_elem _ _ _ _ Hx Hr) as (y & _ & Hn%core_ok).
  unfold RouteRule_new in Hn. repeat step_in Hn. injection Hn as <-. simpl. bprop. done.
Qed.

Lemma convert_filtered_typed p w m v s k x :
  convert_filtered p w = Ok m -> m !! v = Some s -> s !! k = Some x -> p k x = true.
Proof.
  unfold convert_filtered. intros H. revert v s.
  refine (for_fold_inv (fun out => forall v s, out !! v = Some s -> s !! k = Some x -> p k x = true)
    _ _ _ _ _ _ H); [|by intros ? ?; rewrite lookup_empty].
  intros out [key e] out' _ Hout Hf v s. simpl in Hf. apply bind_ok in Hf as (v' & _ & [= <-]).
  case_bool_decide; [apply Hout|]. rewrite lookup_insert. case_decide; [|apply Hout].
  intros [= <-]. unfold keep. by intros [_ ?]%map_lookup_filter_Some.
Qed.

Lemma convert_service_overrides_typed key w k x :
  convert_service_overrides key w !! k = Some x ->
  exists d, dialect_for (split_wire_id key).1 = Some d /\ override_ok d k x = true.
Proof.
  unfold convert_service_overrides. destruct (dialect_for _) as [d|]; [|by rewrite lookup_empty].
  unfold keep. intros [_ H]%map_lookup_filter_Some. exists d. split; [done|]. simpl in H. bprop.
  apply override_ok_spec. rewrite <- !is_ok_unit. by destruct (override_reserved d k).
Qed.

Lemma try_from_version w c : Config_try_from w = Ok c -> w_version w = 24.
Proof. unfold Config_try_from. destruct (w_version w =? CURRENT_VERSION) eqn:E; [by bprop|done]. Qed.

Lemma try_from_typed w c : Config_try_from w = Ok c -> typed_config c.
Proof.
  unfold Config_try_from. destruct (negb _); [done|]. intros H.
  apply bind_ok in H as (tld & Htld%core_ok & H). apply bind_ok in H as (dphp & Hdphp%core_ok & H).
  apply bind_ok in H as (exts & _ & H). apply bind_ok in H as (vs & Hvs & H).
  apply bind_ok in H as (dirs & Hdirs & H). apply bind_ok in H as (ovs & _ & H).
  apply bind_ok in H as (linked & Hlinked & H). apply bind_ok in H as (dl & Hdl & H).
  apply bind_ok in H as (dpk & Hdpk & H). apply bind_ok in H as (dpx & Hdpx & H).
  apply bind_ok in H as (pxs & Hpxs & H). apply bind_ok in H as (prs & Hprs & H).
  apply bind_ok in H as (prl & Hprl & H). apply bind_ok in H as (prp & Hprp & H).
  apply bind_ok in H as (rrl & Hrrl & H). apply bind_ok in H as (rrp & Hrrp & H).
  injection H as <-. split; simpl.
  - done.
  - by apply Tld_new_spec in Htld as [? _].
  - by eapply php_from_str_range.
  - intros s Hs. destruct (collect_ok_elem _ _ _ _ Hlinked Hs) as (x & _ & Hx). by eapply convert_site_typed.
  - intros p. by eapply convert_projects_typed.
  - intros p. by eapply convert_proxies_typed.
  - intros k d [H|[H|H]].
    + exact (convert_deltas_typed _ _ _ _ Hdl H).
    + exact (convert_deltas_typed _ _ _ _ Hdpk H).
    + exact (convert_deltas_typed _ _ _ _ Hdpx H).
  - intros k rs r [H|H] Hr.
    + exact (convert_proxy_rules_typed _ _ _ _ _ Hprl H Hr).
    + exact (convert_proxy_rules_typed _ _ _ _ _ Hprp H Hr).
  - intros k rs r [H|H] Hr.
    + exact (convert_route_rules_typed _ _ _ _ _ Hrrl H Hr).
    + exact (convert_route_rules_typed _ _ _ _ _ Hrrp H Hr).
  - intros v m k x Hv Hk. apply is_ok_unit. exact (convert_filtered_typed _ _ _ _ _ _ _ Hvs Hv Hk).
  - intros v m k x Hv Hk. pose proof (convert_filtered_typed _ _ _ _ _ _ _ Hdirs Hv Hk) as Hp.
    simpl in Hp. bprop. apply directive_ok_spec. rewrite <- !is_ok_unit. by destruct (directive_reserved k).
  - intros key i k x Hi Hk. rewrite map_lookup_imap in Hi. destruct (w_services w !! key) as [iw|]; [|done].
    injection Hi as <-. exact (convert_service_overrides_typed _ _ _ _ Hk).
Qed.

Lemma parse_toml_valid toml_from_str try_into s c : parse_toml toml_from_str try_into s = Ok c -> validate c = Ok tt.
Proof.
  unfold parse_toml. intros (value & _ & Hv)%bind_ok. apply bind_ok in Hv as (found & _ & Hv).
  destruct (CURRENT_VERSION <? found); [done|]. apply bind_ok in Hv as (v & _ & Hv).
  apply bind_ok in Hv as (w & _ & Hv). apply bind_ok in Hv as (cfg & _ & Hv). apply bind_ok in Hv as ([] & Hv & [= <-]).
  done.
Qed.

(** Loading a file either fails or yields a configuration that is fully typed
    and valid: current version, valid suffix, every site, proxy and project name
    a DNS label or name, every added or suppressed domain well formed, every
    upstream a valid host and port, every routing target confined to its site,
    every stored PHP directive and service override one the renderers will
    write, and all cross-field guarantees of [valid_config].  A file of a newer
    version is refused as unsupported before anything else is looked at. *)
Theorem parse_toml_typed toml_from_str try_into s :
  match parse_toml toml_from_str try_into s with
  | Ok c => typed_config c /\ valid_config c
  | Err e => forall value found, toml_from_str s = Ok value -> read_version value = Ok found ->
      24 < found -> e = ConfigUnsupportedVersion found 24
  end.
Proof.
  unfold parse_toml. destruct (toml_from_str s) as [value|e] eqn:E1; cbn [map_err mbind result_bind]; [|done].
  destruct (read_version value) as [found|e] eqn:E2; cbn [mbind result_bind];
    [|by intros v f [= <-] Hf; rewrite E2 in Hf].
  destruct (CURRENT_VERSION <? found) eqn:E3.
  { intros v f [= <-] Hf _. rewrite E2 in Hf. by injection Hf as <-. } apply N.ltb_ge in E3.
  assert (forall e : ConfigError, forall value' found', Ok value = @Ok str Value value' -> read_version value' = Ok found' ->
    24 < found' -> e = ConfigUnsupportedVersion found' 24) as Herr.
  { intros e v' f' [= <-] Hf Hlt. rewrite E2 in Hf. injection Hf as <-. unfold CURRENT_VERSION in E3. lia. }
  destruct (if found <? CURRENT_VERSION then up value found else Ok value) as [value'|e]; cbn [mbind result_bind]; [|apply Herr].
  destruct (try_into value') as [w|e]; cbn [map_err mbind result_bind]; [|apply Herr].
  destruct (Config_try_from w) as [c|e] eqn:E; cbn [mbind result_bind]; [|apply Herr].
  destruct (validate c) as [[]|e] eqn:Ev; cbn [mbind result_bind]; [|apply Herr].
  split; [by eapply try_from_typed|]. by apply validate_spec.
Qed.
