(* ===== verification/Serialize.v ===== *)
(** * Writing the configuration

    [src/crates/orcker-config/src/serialize.rs]: the records the daemon hands to
    the TOML writer, with what it leaves out; [Config::to_toml].  [reads_as] is
    what deserialisation fills the wire records of [Wire] with from such
    records: an emitted field as it is, a skipped one with its serde default.

    [storable] says that every value of a configuration is one its own
    constructor accepts and returns; such a configuration survives a save and a
    load, up to entries that say nothing. *)

From S2P Require Import Prelude RustStr RustMap RustPath CoreError DnsLabel Tld Domain Php Net Site Proxy Project Settings Config Migrate Wire.

Open Scope N_scope.

(** ** The emitted records *)

Record PhpSectionSer := mkPhpSer {
  phs_default : PhpVersion;
  phs_settings : smap;
  phs_version_settings : gmap str smap;
  phs_directives : gmap str smap;
  phs_extensions : gmap str (list ExtEntry);
}.
Record ServiceInstanceSer := mkInstSer {
  is_version : option str; is_port : option N; is_site : option str; is_enabled : bool; is_overrides : smap }.
Record OverrideSer := mkOvSer {
  os_path : str; os_php : option PhpVersion; os_secure : option bool; os_web_root : option str;
  os_wp_auto_login : option bool; os_wp_auto_login_user : option str; os_front_controller : option bool }.
Record DomainDeltaSer := mkDeltaSer { ds_added : list str; ds_suppressed : list str; ds_primary : option str }.
Record DomainsSectionSer := mkDomainsSer {
  dss_linked : gmap str DomainDeltaSer; dss_parked : gmap str DomainDeltaSer; dss_proxy : gmap str DomainDeltaSer }.
Record ProjectSer := mkProjSer { prs_name : str; prs_root : str; prs_port : N; prs_secure : bool }.
Record ProxySer := mkProxySer { pxs_name : str; pxs_target : str; pxs_secure : bool }.
Record ProxyRuleSer := mkProxyRuleSer { rs_prefix : str; rs_target : str }.
Record RouteRuleSer := mkRouteRuleSer { rrs_prefix : str; rrs_target : str }.
Record ProxyRulesSectionSer := mkProxyRulesSer {
  prss_linked : gmap str (list ProxyRuleSer); prss_parked : gmap str (list ProxyRuleSer) }.
Record RouteRulesSectionSer := mkRouteRulesSer {
  rrss_linked : gmap str (list RouteRuleSer); rrss_parked : gmap str (list RouteRuleSer) }.

Record WireSer := mkSer {
  ws_version : N;
  ws_tld : Tld;
  ws_dns_port : N;
  ws_update_channel : str;
  ws_symlink_protection : bool;
  ws_mcp_enabled : bool;
  ws_lan_enabled : bool;
  ws_lan_setup_port : N;
  ws_ports : Ports;
  ws_php : PhpSectionSer;
  ws_parked : gset str;
  ws_linked : list Site;
  ws_overrides : list OverrideSer;
  ws_services : gmap str ServiceInstanceSer;
  ws_mail : option MailSection;
  ws_dumps : option DumpsSection;
  ws_tunnel : option TunnelSection;
  ws_groups : option GroupsSection;
  ws_domains : option DomainsSectionSer;
  ws_proxies : list ProxySer;
  ws_proxy_rules : option ProxyRulesSectionSer;
  ws_route_rules : option RouteRulesSectionSer;
  ws_projects : list ProjectSer;
}.

#[export] Instance MailSection_eq_dec : EqDecision MailSection.
Proof. solve_decision. Defined.
#[export] Instance DumpsSection_eq_dec : EqDecision DumpsSection.
Proof. solve_decision. Defined.
#[export] Instance TunnelSection_eq_dec : EqDecision TunnelSection.
Proof. solve_decision. Defined.

(** ** What is emitted *)

(** [iter().map(|(v, m)| (v.to_string(), m)).collect()] *)
Definition by_version {A} (m : gmap PhpVersion A) : gmap str A := kmap PhpVersion_fmt m.

(** [iter().filter(|(_, x)| keep(x)).map(|(k, x)| (k, f(x))).collect()] *)
Definition kept_map {A B} (keep : A -> bool) (f : A -> B) (m : gmap str A) : gmap str B :=
  f <$> filter (fun e : str * A => keep e.2 = true) m.

Definition domain_delta_map (src : gmap str DomainDelta) : gmap str DomainDeltaSer :=
  kept_map (fun d => negb (DomainDelta_is_empty d))
    (fun d => mkDeltaSer (Domain_str <$> added d) (Domain_str <$> suppressed d) (Domain_str <$> primary d)) src.

Definition proxy_rule_map (src : gmap str (list ProxyRule)) : gmap str (list ProxyRuleSer) :=
  kept_map (fun rules => negb (is_empty rules))
    (fun rules => (fun r => mkProxyRuleSer (rule_prefix r) (fmt (rule_target r))) <$> rules) src.

Definition route_rule_map (src : gmap str (list RouteRule)) : gmap str (list RouteRuleSer) :=
  kept_map (fun rules => negb (is_empty rules))
    (fun rules => (fun r => mkRouteRuleSer (route_prefix r) (route_target r)) <$> rules) src.

(** [BTreeMap::is_empty] *)
Definition map_is_empty {A} (m : gmap str A) : bool := is_empty (btree_iter m).

Definition override_ser (e : str * SiteOverride) : OverrideSer :=
  mkOvSer e.1 (ov_php e.2) (ov_secure e.2) (ov_web_root e.2) (ov_wp_auto_login e.2) (ov_wp_auto_login_user e.2)
    (ov_front_controller e.2).

Definition service_ser (inst : ServiceInstance) : ServiceInstanceSer :=
  mkInstSer (inst_version inst) (inst_port inst) (inst_site inst) (inst_enabled inst) (inst_overrides inst).

Definition to_ser (c : Config) : WireSer :=
  let p := cf_php c in
  let d := cf_domains c in
  mkSer CURRENT_VERSION (cf_tld c) (cf_dns_port c) (cf_update_channel c) (cf_symlink_protection c) (cf_mcp_enabled c)
    (cf_lan_enabled c) (cf_lan_setup_port c) (cf_ports c)
    (mkPhpSer (php_default p) (php_settings p) (by_version (php_version_settings p)) (by_version (php_directives p))
       (by_version (php_extensions p)))
    (cf_parked c) (cf_linked c)
    (override_ser <$> btree_iter (cf_overrides c))
    (service_ser <$> cf_services c)
    (if bool_decide (cf_mail c = MailSection_default) then None else Some (cf_mail c))
    (if bool_decide (cf_dumps c = DumpsSection_default) then None else Some (cf_dumps c))
    (if bool_decide (cf_tunnel c = mkTunnel ∅ ∅) then None else Some (cf_tunnel c))
    (if GroupsSection_is_empty (cf_groups c) then None else Some (cf_groups c))
    (if forallb (fun e => DomainDelta_is_empty e.2)
          (btree_iter (domains_linked d) ++ btree_iter (domains_parked d) ++ btree_iter (domains_proxy d))
     then None
     else Some (mkDomainsSer (domain_delta_map (domains_linked d)) (domain_delta_map (domains_parked d))
                  (domain_delta_map (domains_proxy d))))
    ((fun p => mkProxySer (proxy_name p) (fmt (proxy_target p)) (proxy_secure p)) <$> cf_proxies c)
    (let linked := proxy_rule_map (proxy_rules_linked (cf_proxy_rules c)) in
     let parked := proxy_rule_map (proxy_rules_parked (cf_proxy_rules c)) in
     if map_is_empty linked && map_is_empty parked then None else Some (mkProxyRulesSer linked parked))
    (let linked := route_rule_map (route_rules_linked (cf_route_rules c)) in
     let parked := route_rule_map (route_rules_parked (cf_route_rules c)) in
     if map_is_empty linked && map_is_empty parked then None else Some (mkRouteRulesSer linked parked))
    ((fun p => mkProjSer (project_name p) (project_root p) (project_port p) (project_secure p)) <$> cf_projects c).

(** [Config::to_toml]: the writer is the [toml] crate's. *)
Definition to_toml (to_string_pretty : WireSer -> result str str) (c : Config) : result ConfigError str :=
  map_err ConfigSerialize (to_string_pretty (to_ser c)).

(** ** What is read back *)

Definition site_reads_as (s : Site) : SiteWire :=
  mkSiteWire (site_name s) (site_document_root s) (site_web_subpath s) (fmt (site_php s)) (site_secure s)
    (site_kind s) (site_wp_auto_login s) (site_wp_auto_login_user s) (site_front_controller s).

Definition delta_reads_as (d : DomainDeltaSer) : DomainDeltaWire :=
  mkDeltaWire (ds_added d) (ds_suppressed d) (ds_primary d).

Definition proxy_rules_read_as (m : gmap str (list ProxyRuleSer)) : gmap str (list ProxyRuleWire) :=
  (fun rules : list ProxyRuleSer => (fun r => mkProxyRuleWire (rs_prefix r) (rs_target r)) <$> rules) <$> m.
Definition route_rules_read_as (m : gmap str (list RouteRuleSer)) : gmap str (list RouteRuleWire) :=
  (fun rules : list RouteRuleSer => (fun r => mkRouteRuleWire (rrs_prefix r) (rrs_target r)) <$> rules) <$> m.

Definition reads_as (w : WireSer) : Wire :=
  let p := ws_php w in
  let d := default (mkDomainsSer ∅ ∅ ∅) (ws_domains w) in
  let px := default (mkProxyRulesSer ∅ ∅) (ws_proxy_rules w) in
  let rr := default (mkRouteRulesSer ∅ ∅) (ws_route_rules w) in
  mkWire (ws_version w) (fmt (ws_tld w)) (ws_dns_port w) (ws_update_channel w) (ws_symlink_protection w)
    (ws_mcp_enabled w) (ws_lan_enabled w) (ws_lan_setup_port w)
    (mkPortsWire (http (ws_ports w)) (https (ws_ports w)) (fallback_http (ws_ports w)) (fallback_https (ws_ports w)))
    (mkPhpWire (fmt (phs_default p)) (phs_settings p)
       ((fun l : list ExtEntry => (fun e => mkExtWire (Some (ext_name e)) (ext_path e) (ext_zend e)) <$> l) <$> phs_extensions p)
       (phs_version_settings p) (phs_directives p))
    (ws_parked w) (site_reads_as <$> ws_linked w)
    ((fun o => mkOvWire (os_path o) (fmt <$> os_php o) (os_secure o) (os_web_root o) (os_wp_auto_login o)
                 (os_wp_auto_login_user o) (os_front_controller o)) <$> ws_overrides w)
    ((fun i => mkInstWire (is_version i) (is_port i) (is_site i) (Some (is_enabled i)) (is_overrides i)) <$> ws_services w)
    (default MailSection_default (ws_mail w)) (default DumpsSection_default (ws_dumps w))
    (default (mkTunnel ∅ ∅) (ws_tunnel w)) (default (mkGroups [] ∅) (ws_groups w))
    (delta_reads_as <$> dss_linked d) (delta_reads_as <$> dss_parked d) (delta_reads_as <$> dss_proxy d)
    ((fun p => mkProxyWire (pxs_name p) (pxs_target p) (pxs_secure p)) <$> ws_proxies w)
    (proxy_rules_read_as (prss_linked px)) (proxy_rules_read_as (prss_parked px))
    (route_rules_read_as (rrss_linked rr)) (route_rules_read_as (rrss_parked rr))
    ((fun p => mkProjWire (prs_name p) (prs_root p) (prs_port p) (prs_secure p)) <$> ws_projects w).

(** ** The normal form

    What a save and a load keep: everything but the entries that say nothing. *)
Definition nonempty_map {A} (keep : A -> bool) (m : gmap str A) : gmap str A := filter (fun e : str * A => keep e.2 = true) m.
Definition nonempty_versions (m : gmap PhpVersion smap) : gmap PhpVersion smap :=
  filter (fun e : PhpVersion * smap => e.2 <> ∅) m.
Definition normalised (c : Config) : Config :=
  let p := cf_php c in
  let d := cf_domains c in
  let deltas := nonempty_map (fun d => negb (DomainDelta_is_empty d)) in
  mkConf CURRENT_VERSION (cf_tld c) (cf_dns_port c) (cf_update_channel c) (cf_symlink_protection c) (cf_mcp_enabled c)
    (cf_lan_enabled c) (cf_lan_setup_port c) (cf_ports c)
    (mkPhpSection (php_default p) (php_settings p) (php_extensions p) (nonempty_versions (php_version_settings p))
       (nonempty_versions (php_directives p)))
    (cf_parked c) (cf_linked c) (cf_projects c) (cf_overrides c) (cf_services c) (cf_mail c) (cf_dumps c) (cf_tunnel c)
    (cf_groups c) (mkDomains (deltas (domains_linked d)) (deltas (domains_parked d)) (deltas (domains_proxy d)))
    (cf_proxies c)
    (mkProxyRules (nonempty_map (fun r => negb (is_empty r)) (proxy_rules_linked (cf_proxy_rules c)))
       (nonempty_map (fun r => negb (is_empty r)) (proxy_rules_parked (cf_proxy_rules c))))
    (mkRouteRules (nonempty_map (fun r => negb (is_empty r)) (route_rules_linked (cf_route_rules c)))
       (nonempty_map (fun r => negb (is_empty r)) (route_rules_parked (cf_route_rules c)))).

(** ** Values their own constructors return *)

Definition php_stable (v : PhpVersion) : Prop := PhpVersion_from_str (fmt v) = Ok v.
Definition domain_stable (d : Domain) : Prop := Domain_parse_subpart (Domain_str d) = Ok d.
Definition target_stable (t : UpstreamTarget) : Prop := from_url_str (fmt t) = Ok t.

Record storable (c : Config) : Prop := mkStorable {
  so_version : cf_version c = CURRENT_VERSION;
  so_tld : Tld_new (fmt (cf_tld c)) = Ok (cf_tld c);
  so_php : php_stable (php_default (cf_php c));
  so_extensions : forall v l, php_extensions (cf_php c) !! v = Some l -> php_stable v;
  so_version_settings : forall v m, php_version_settings (cf_php c) !! v = Some m ->
    php_stable v /\ forall k x, m !! k = Some x -> php_validate_value k x = Ok tt;
  so_directives : forall v m, php_directives (cf_php c) !! v = Some m ->
    php_stable v /\ forall k x, m !! k = Some x -> directive_ok k x = true;
  so_linked : forall s, s ∈ cf_linked c ->
    validate_and_lowercase_name (site_name s) = Ok (site_name s) /\ php_stable (site_php s);
  so_projects : forall p, p ∈ cf_projects c -> validate_and_lowercase_name (project_name p) = Ok (project_name p);
  so_overrides : forall k o v, cf_overrides c !! k = Some o -> ov_php o = Some v -> php_stable v;
  so_services : forall key i k x, cf_services c !! key = Some i -> inst_overrides i !! k = Some x ->
    exists d, dialect_for (split_wire_id key).1 = Some d /\ override_ok d k x = true;
  so_domains : forall k d x, domains_linked (cf_domains c) !! k = Some d \/
    domains_parked (cf_domains c) !! k = Some d \/ domains_proxy (cf_domains c) !! k = Some d ->
    x ∈ added d \/ x ∈ suppressed d \/ primary d = Some x -> domain_stable x;
  so_proxies : forall p, p ∈ cf_proxies c ->
    validate_proxy_name (proxy_name p) = Ok (proxy_name p) /\ target_stable (proxy_target p);
  so_proxy_rules : forall k rs r, proxy_rules_linked (cf_proxy_rules c) !! k = Some rs \/
    proxy_rules_parked (cf_proxy_rules c) !! k = Some rs -> r ∈ rs ->
    ProxyRule_new (rule_prefix r) (rule_target r) = Ok r /\ target_stable (rule_target r);
  so_route_rules : forall k rs r, route_rules_linked (cf_route_rules c) !! k = Some rs \/
    route_rules_parked (cf_route_rules c) !! k = Some rs -> r ∈ rs -> RouteRule_new (route_prefix r) (route_target r) = Ok r;
}.

(** ** Lemmas *)

#[export] Instance PhpVersion_fmt_inj : Inj (=) (=) PhpVersion_fmt.
Proof.
  intros [a b] [c d] H. unfold PhpVersion_fmt in H. cbn [php_major php_minor] in H.
  assert (forall n, "."%ch ∉ show_uint n) as Hdot.
  { intros n Hin. pose proof (show_uint_digits n) as Hd. rewrite Forall_forall in Hd. by apply Hd in Hin. }
  apply (f_equal (split_once "."%ch)) in H. cbn [app] in H. change ("."%str ++ ?x) with ("."%ch :: x) in H.
  rewrite !split_once_complete in H by apply Hdot. injection H as H1%show_uint_inj H2%show_uint_inj. by subst.
Qed.

Lemma for_fold_fill {E A B} `{Countable K} (body : gmap K B -> A -> result E (gmap K B)) (l : list A) (src : gmap K B)
    (key : A -> K) :
  (forall x m, x ∈ l -> body m x = Ok match src !! key x with Some y => <[key x := y]> m | None => m end) ->
  (forall k, is_Some (src !! k) -> k ∈ key <$> l) -> for_fold body ∅ l = Ok src.
Proof.
  intros Hb Hk.
  assert (forall out, (forall k y, out !! k = Some y -> src !! k = Some y) -> exists m, for_fold body out l = Ok m /\
    (forall k y, m !! k = Some y -> src !! k = Some y) /\
    (forall k, k ∈ key <$> l \/ out !! k = src !! k -> m !! k = src !! k)) as Hfold.
  { clear Hk. induction l as [|x l IH]; intros out Ho; simpl.
    { exists out. split; [done|]. split; [done|]. intros k [Hk|Hk]; [by apply elem_of_nil in Hk|done]. }
    rewrite Hb by left.
    set (out' := match src !! key x with Some y => <[key x := y]> out | None => out end).
    assert (forall k, out' !! k = if decide (k = key x) then src !! k else out !! k) as Hl.
    { intros k. subst out'. destruct (src !! key x) as [y|] eqn:Es; case_decide as Hd; subst;
        rewrite ?lookup_insert_eq, ?lookup_insert_ne by done; try done.
      rewrite Es. destruct (out !! key x) eqn:Eo; [|done]. apply Ho in Eo. congruence. }
    destruct (IH (fun y m Hy => Hb y m (list_elem_of_further _ _ _ Hy)) out') as (m & -> & Hm1 & Hm2).
    { intros k y. rewrite Hl. case_decide; [done|]. apply Ho. }
    exists m. split; [done|]. split; [done|]. intros k [[->|Hin]%elem_of_cons|Hin]; apply Hm2.
    - right. rewrite Hl. by case_decide.
    - by left.
    - right. rewrite Hl. by case_decide. }
  destruct (Hfold ∅) as (m & -> & H1 & H2); [by intros k y; rewrite lookup_empty|]. f_equal. apply map_eq. intros k.
  destruct (src !! k) as [y|] eqn:Es.
  - rewrite <- Es. apply H2. left. apply Hk. by rewrite Es.
  - destruct (m !! k) eqn:Em; [|done]. apply H1 in Em. congruence.
Qed.

Lemma convert_map_back {A B} (f : str -> A -> result ConfigError B) (wire : gmap str A) (src : gmap str B) :
  (forall k x, wire !! k = Some x -> exists y, src !! k = Some y /\ f k x = Ok y) ->
  (forall k, is_Some (src !! k) -> is_Some (wire !! k)) -> convert_map f wire = Ok src.
Proof.
  intros Hf Hk. unfold convert_map. apply for_fold_fill with (key := fst).
  - intros [k x] m Hx%elem_of_btree_iter. cbn. destruct (Hf k x Hx) as (y & -> & ->). done.
  - intros k [x Hx]%Hk. apply list_elem_of_fmap. exists (k, x). by rewrite elem_of_btree_iter.
Qed.

Lemma convert_back {A B} (f : str -> A -> result ConfigError B) (h : B -> A) (keep : B -> bool) (src : gmap str B) :
  (forall k y, src !! k = Some y -> f k (h y) = Ok y) -> convert_map f (kept_map keep h src) = Ok (nonempty_map keep src).
Proof.
  intros Hf. unfold kept_map, nonempty_map. apply convert_map_back; intros k; rewrite lookup_fmap.
  - intros x. destruct (filter _ src !! k) as [y|] eqn:E; [|done]. cbn. intros [= <-]. exists y. split; [done|].
    apply map_lookup_filter_Some in E as [E _]. by apply Hf.
  - intros [y ->]. by eexists.
Qed.

Lemma collect_back {E A B} (f : A -> result E B) (h : B -> A) (l : list B) :
  (forall y, y ∈ l -> f (h y) = Ok y) -> collect_ok f (h <$> l) = Ok l.
Proof.
  intros Hf. apply collect_ok_Forall2. rewrite Forall2_fmap_l. apply Forall_Forall2_diag. by apply Forall_forall.
Qed.

(** *** Per section *)

Lemma by_version_elem {A} (m : gmap PhpVersion A) k x :
  by_version m !! k = Some x <-> exists v, k = fmt v /\ m !! v = Some x.
Proof. unfold by_version. by rewrite lookup_kmap_Some by apply _. Qed.

Lemma filtered_back (p : str -> str -> bool) (src : gmap PhpVersion smap) :
  (forall v m, src !! v = Some m -> php_stable v /\ forall k x, m !! k = Some x -> p k x = true) ->
  convert_filtered p (by_version src) = Ok (nonempty_versions src).
Proof.
  intros Hs. unfold convert_filtered, nonempty_versions.
  apply for_fold_fill with (key := fun e => default (mkPhp 0 0) (result_ok (PhpVersion_from_str e.1))).
  - intros [k x] m Hx%elem_of_btree_iter. apply by_version_elem in Hx as (v & -> & Hv). destruct (Hs v x Hv) as [Hp Hk].
    unfold php_stable in Hp. cbn [fst snd]. unfold core. rewrite Hp. cbn [map_err mbind result_bind result_ok default].
    assert (keep p x = x) as ->.
    { unfold keep. apply map_filter_id. intros i y Hi. by apply Hk. }
    change (id v) with v. case_bool_decide as He.
    + assert (filter (fun e : PhpVersion * smap => e.2 <> ∅) src !! v = None) as ->; [|done].
      apply map_lookup_filter_None. right. intros y Hy. cbn. intros Hne. congruence.
    + by rewrite (map_lookup_filter_Some_2 _ src v x).
  - intros v [x [Hx Hne]%map_lookup_filter_Some]. destruct (Hs v x Hx) as [Hp _]. apply list_elem_of_fmap.
    exists (fmt v, x). cbn [fst]. unfold php_stable in Hp. rewrite Hp. split; [done|].
    apply elem_of_btree_iter, by_version_elem. eauto.
Qed.

Lemma extensions_back (src : gmap PhpVersion (list ExtEntry)) :
  (forall v l, src !! v = Some l -> php_stable v) ->
  convert_extensions ((fun l : list ExtEntry => (fun e => mkExtWire (Some (ext_name e)) (ext_path e) (ext_zend e)) <$> l)
    <$> by_version src) = Ok src.
Proof.
  intros Hs. unfold convert_extensions.
  apply for_fold_fill with (key := fun e => default (mkPhp 0 0) (result_ok (PhpVersion_from_str e.1))).
  - intros [k x] m Hx%elem_of_btree_iter. rewrite lookup_fmap in Hx.
    destruct (by_version src !! k) as [l|] eqn:Ek; [|done]. injection Hx as <-.
    apply by_version_elem in Ek as (v & -> & Hv). pose proof (Hs v l Hv) as Hp. unfold php_stable in Hp.
    cbn [fst snd]. unfold core. rewrite Hp. cbn [map_err mbind result_bind result_ok default].
    change (id v) with v. rewrite Hv.
    do 2 f_equal. rewrite map_map. rewrite <- (map_id l) at 2. apply map_ext. by intros [].
  - intros v [l Hl]. pose proof (Hs v l Hl) as Hp. unfold php_stable in Hp. apply list_elem_of_fmap.
    eexists (fmt v, _). cbn [fst]. rewrite Hp. split; [done|]. apply elem_of_btree_iter. rewrite lookup_fmap.
    assert (by_version src !! fmt v = Some l) as -> by (apply by_version_elem; eauto). done.
Qed.

Lemma projects_back l :
  (forall p, p ∈ l -> validate_and_lowercase_name (project_name p) = Ok (project_name p)) ->
  convert_projects ((fun p => mkProjWire (prs_name p) (prs_root p) (prs_port p) (prs_secure p)) <$>
    ((fun p => mkProjSer (project_name p) (project_root p) (project_port p) (project_secure p)) <$> l)) = Ok l.
Proof.
  intros Hs. rewrite <- list_fmap_compose. apply collect_back. intros p Hp. cbn. unfold ContainerProject_new.
  rewrite (Hs p Hp). by destruct p.
Qed.

Lemma proxies_back l :
  (forall p, p ∈ l -> validate_proxy_name (proxy_name p) = Ok (proxy_name p) /\ target_stable (proxy_target p)) ->
  convert_proxies ((fun p => mkProxyWire (pxs_name p) (pxs_target p) (pxs_secure p)) <$>
    ((fun p => mkProxySer (proxy_name p) (fmt (proxy_target p)) (proxy_secure p)) <$> l)) = Ok l.
Proof.
  intros Hs. rewrite <- list_fmap_compose. apply collect_back. intros p Hp. destruct (Hs p Hp) as [Hn Ht].
  unfold target_stable in Ht. cbn. rewrite Ht. cbn. unfold ProxySite_new. rewrite Hn. by destruct p.
Qed.

Lemma linked_back l :
  (forall s, s ∈ l -> validate_and_lowercase_name (site_name s) = Ok (site_name s) /\ php_stable (site_php s)) ->
  convert_linked (site_reads_as <$> l) = Ok l.
Proof.
  intros Hs. apply collect_back. intros s Hp. destruct (Hs s Hp) as [Hn Ht]. unfold php_stable in Ht.
  unfold convert_site. cbn [site_reads_as sw_php sw_kind sw_name sw_document_root]. rewrite Ht.
  cbn [core map_err mbind result_bind]. unfold Site_linked, Site_parked, site_with_kind. rewrite Hn.
  destruct s as [? ? ? ? ? [] ? ? ?]; done.
Qed.

Lemma overrides_back (src : gmap str SiteOverride) :
  (forall k o v, src !! k = Some o -> ov_php o = Some v -> php_stable v) ->
  convert_overrides ((fun o => mkOvWire (os_path o) (fmt <$> os_php o) (os_secure o) (os_web_root o) (os_wp_auto_login o)
                 (os_wp_auto_login_user o) (os_front_controller o)) <$> (override_ser <$> btree_iter src)) = Ok src.
Proof.
  intros Hs. rewrite <- list_fmap_compose. unfold convert_overrides.
  apply for_fold_fill with (key := ow_path).
  - intros o m Ho. apply list_elem_of_fmap in Ho as ([k x] & -> & Hk%elem_of_btree_iter).
    assert (transpose (fun s => core (PhpVersion_from_str s)) (fmt <$> ov_php x) = Ok (ov_php x)) as E.
    { destruct (ov_php x) as [v|] eqn:Ev; [|done]. specialize (Hs k x v Hk Ev). unfold php_stable in Hs.
      cbn [fmap option_fmap option_map transpose]. unfold core. by rewrite Hs. }
    unfold compose. cbn [override_ser os_path os_php os_secure os_web_root os_wp_auto_login os_wp_auto_login_user
      os_front_controller ow_php ow_path fst snd]. rewrite E, Hk. by destruct x.
  - intros k [x Hx]. apply list_elem_of_fmap. eexists. split; [|apply list_elem_of_fmap; eexists (k, x); split; [done|]].
    + done.
    + by apply elem_of_btree_iter.
Qed.

Lemma services_back (src : gmap str ServiceInstance) :
  (forall key i k x, src !! key = Some i -> inst_overrides i !! k = Some x ->
    exists d, dialect_for (split_wire_id key).1 = Some d /\ override_ok d k x = true) ->
  map_imap (fun name inst => Some (convert_service name inst))
    ((fun i => mkInstWire (is_version i) (is_port i) (is_site i) (Some (is_enabled i)) (is_overrides i)) <$>
      (service_ser <$> src)) = src.
Proof.
  intros Hs. apply map_eq. intros key. rewrite map_lookup_imap, !lookup_fmap.
  specialize (Hs key). destruct (src !! key) as [i|]; [|done]. cbn. f_equal.
  unfold convert_service. cbn. specialize (Hs i). destruct i as [? ? ? ? ov]. cbn in *. f_equal.
  unfold convert_service_overrides. destruct (dialect_for _) as [d|] eqn:Ed.
  - apply map_filter_id. intros k x Hx. cbn. destruct (Hs k x eq_refl Hx) as (d' & [= <-] & Ho).
    apply override_ok_spec in Ho as (-> & -> & ->). done.
  - symmetry. apply map_eq. intros k. rewrite lookup_empty. destruct (ov !! k) as [x|] eqn:E; [|done].
    by destruct (Hs k x eq_refl E) as (d & ? & _).
Qed.

Lemma kept_map_empty {A B} (keep : A -> bool) (f : A -> B) (m : gmap str A) :
  (forall k x, m !! k = Some x -> keep x = false) -> kept_map keep f m = ∅.
Proof.
  intros Hk. unfold kept_map. apply fmap_empty_iff, map_eq. intros k. rewrite lookup_empty.
  apply map_lookup_filter_None. right. intros x Hx. cbn. by rewrite (Hk k x Hx).
Qed.

Lemma map_is_empty_true {A} (m : gmap str A) : map_is_empty m = true <-> m = ∅.
Proof.
  unfold map_is_empty. rewrite is_empty_true. split; [|intros ->; by vm_compute].
  intros He. apply map_eq. intros k. rewrite lookup_empty. destruct (m !! k) as [x|] eqn:E; [|done].
  apply elem_of_btree_iter in E. rewrite He in E. by apply elem_of_nil in E.
Qed.

(** A skipped section reads back as the sections it would have held. *)
Lemma domains_emitted c :
  default (mkDomainsSer ∅ ∅ ∅) (ws_domains (to_ser c)) =
    mkDomainsSer (domain_delta_map (domains_linked (cf_domains c))) (domain_delta_map (domains_parked (cf_domains c)))
      (domain_delta_map (domains_proxy (cf_domains c))).
Proof.
  cbn [to_ser ws_domains]. destruct (forallb _ _) eqn:E; [|done]. cbn [default].
  rewrite forallb_elem in E. unfold domain_delta_map.
  rewrite !kept_map_empty; [done|..]; intros k x Hx%elem_of_btree_iter; apply negb_false_iff, (E (k, x)); set_solver.
Qed.

Lemma proxy_rules_emitted c :
  default (mkProxyRulesSer ∅ ∅) (ws_proxy_rules (to_ser c)) =
    mkProxyRulesSer (proxy_rule_map (proxy_rules_linked (cf_proxy_rules c)))
      (proxy_rule_map (proxy_rules_parked (cf_proxy_rules c))).
Proof.
  cbn [to_ser ws_proxy_rules]. destruct (_ && _) eqn:E; [|done].
  apply andb_true_iff in E as [->%map_is_empty_true ->%map_is_empty_true]. done.
Qed.

Lemma route_rules_emitted c :
  default (mkRouteRulesSer ∅ ∅) (ws_route_rules (to_ser c)) =
    mkRouteRulesSer (route_rule_map (route_rules_linked (cf_route_rules c)))
      (route_rule_map (route_rules_parked (cf_route_rules c))).
Proof.
  cbn [to_ser ws_route_rules]. destruct (_ && _) eqn:E; [|done].
  apply andb_true_iff in E as [->%map_is_empty_true ->%map_is_empty_true]. done.
Qed.

Lemma mapped_kept {A B C} (g : B -> C) (keep : A -> bool) (f : A -> B) (m : gmap str A) :
  g <$> kept_map keep f m = kept_map keep (g ∘ f) m.
Proof. unfold kept_map. by rewrite map_fmap_compose. Qed.

Lemma domain_list_back l : (forall x, x ∈ l -> domain_stable x) -> parse_domain_list (Domain_str <$> l) = Ok l.
Proof.
  intros Hs. apply collect_back. intros x Hx. specialize (Hs x Hx). unfold domain_stable in Hs. by rewrite Hs.
Qed.

Lemma deltas_back (src : gmap str DomainDelta) :
  (forall k d x, src !! k = Some d -> x ∈ added d \/ x ∈ suppressed d \/ primary d = Some x -> domain_stable x) ->
  convert_domain_deltas (delta_reads_as <$> domain_delta_map src)
    = Ok (nonempty_map (fun d => negb (DomainDelta_is_empty d)) src).
Proof.
  intros Hs. unfold domain_delta_map, convert_domain_deltas. rewrite mapped_kept. apply convert_back.
  intros k d Hd. cbn. rewrite !domain_list_back by (intros x Hx; eapply Hs; [exact Hd|tauto]). cbn.
  destruct d as [a s [p|]]; [|done]. specialize (Hs k _ p Hd). cbn in *. unfold domain_stable in Hs.
  by rewrite Hs by auto.
Qed.

Lemma proxy_rules_back (src : gmap str (list ProxyRule)) :
  (forall k rs r, src !! k = Some rs -> r ∈ rs ->
     ProxyRule_new (rule_prefix r) (rule_target r) = Ok r /\ target_stable (rule_target r)) ->
  convert_proxy_rules (proxy_rules_read_as (proxy_rule_map src)) = Ok (nonempty_map (fun r => negb (is_empty r)) src).
Proof.
  intros Hs. unfold proxy_rules_read_as, proxy_rule_map, convert_proxy_rules. rewrite mapped_kept. apply convert_back.
  intros k rs Hk. unfold compose. rewrite <- list_fmap_compose. apply collect_back. intros r Hr.
  destruct (Hs k rs r Hk Hr) as [Hn Ht]. unfold target_stable in Ht. unfold compose.
  cbn [rs_target rs_prefix rw_target rw_prefix]. rewrite Ht. cbn. by rewrite Hn.
Qed.

Lemma route_rules_back (src : gmap str (list RouteRule)) :
  (forall k rs r, src !! k = Some rs -> r ∈ rs -> RouteRule_new (route_prefix r) (route_target r) = Ok r) ->
  convert_route_rules (route_rules_read_as (route_rule_map src)) = Ok (nonempty_map (fun r => negb (is_empty r)) src).
Proof.
  intros Hs. unfold route_rules_read_as, route_rule_map, convert_route_rules. rewrite mapped_kept. apply convert_back.
  intros k rs Hk. unfold compose. rewrite <- list_fmap_compose. apply collect_back. intros r Hr.
  unfold compose. cbn. by rewrite (Hs k rs r Hk Hr).
Qed.

Lemma skipped_back {A} `{EqDecision A} (d x : A) : default d (if bool_decide (x = d) then None else Some x) = x.
Proof. case_bool_decide; by subst. Qed.

Lemma groups_back g : default (mkGroups [] ∅) (if GroupsSection_is_empty g then None else Some g) = g.
Proof.
  destruct (GroupsSection_is_empty g) eqn:E; [|done]. destruct g as [o m]. unfold GroupsSection_is_empty in E. cbn in E.
  apply andb_true_iff in E as [->%is_empty_true Hm]. fold (map_is_empty m) in Hm. by apply map_is_empty_true in Hm as ->.
Qed.

(** What is emitted is read back. *)
Lemma reads_back c : storable c -> Config_try_from (reads_as (to_ser c)) = Ok (normalised c).
Proof.
  intros [_ S2 S3 S4 S5 S6 S7 S8 S9 S10 S11 S12 S13 S14]. unfold Config_try_from, reads_as.
  rewrite domains_emitted, proxy_rules_emitted, route_rules_emitted.
  cbn [w_version w_tld w_php w_overrides w_services w_linked w_domains_linked w_domains_parked w_domains_proxy w_proxies
    w_projects w_proxy_rules_linked w_proxy_rules_parked w_route_rules_linked w_route_rules_parked w_mail w_dumps w_tunnel
    w_groups w_ports pw_http pw_https pw_fallback_http pw_fallback_https w_dns_port w_update_channel
    w_symlink_protection w_mcp_enabled w_lan_enabled w_lan_setup_port w_parked
    dss_linked dss_parked dss_proxy prss_linked prss_parked rrss_linked rrss_parked].
  cbn [to_ser ws_version ws_tld ws_php ws_overrides ws_services ws_linked ws_proxies ws_projects ws_mail ws_dumps ws_tunnel
    ws_groups ws_ports ws_dns_port ws_update_channel ws_symlink_protection ws_mcp_enabled ws_lan_enabled
    ws_lan_setup_port ws_parked phs_default phs_settings phs_version_settings phs_directives phs_extensions
    phw_default phw_settings phw_extensions phw_version_settings phw_directives].
  rewrite N.eqb_refl. cbn [negb]. unfold php_stable in S3. unfold core at 1 2. rewrite S2, S3.
  cbn [map_err mbind result_bind].
  rewrite extensions_back by exact S4. cbn [map_err mbind result_bind].
  unfold convert_version_settings, convert_directives.
  rewrite (filtered_back (fun k v => is_ok (php_validate_value k v)))
    by (intros v m Hm; destruct (S5 v m Hm) as [H1 H2]; split; [done|]; intros k x Hx; by rewrite (H2 k x Hx)).
  cbn [map_err mbind result_bind].
  rewrite filtered_back
    by (intros v m Hm; destruct (S6 v m Hm) as [H1 H2]; split; [done|]; intros k x Hx;
        apply H2, directive_ok_spec in Hx as (-> & -> & ->); done).
  cbn [map_err mbind result_bind].
  rewrite overrides_back by exact S9. cbn [map_err mbind result_bind].
  rewrite linked_back by exact S7. cbn [map_err mbind result_bind].
  rewrite !deltas_back by (intros k d x Hd; apply (S11 k d x); auto). cbn [map_err mbind result_bind].
  rewrite proxies_back by exact S12. cbn [map_err mbind result_bind].
  rewrite projects_back by exact S8. cbn [map_err mbind result_bind].
  rewrite !proxy_rules_back by (intros k rs r Hk; apply (S13 k rs r); auto). cbn [map_err mbind result_bind].
  rewrite !route_rules_back by (intros k rs r Hk; apply (S14 k rs r); auto). cbn [map_err mbind result_bind].
  rewrite services_back by exact S10. rewrite !skipped_back, groups_back. unfold normalised. do 2 f_equal.
  by destruct (cf_ports c).
Qed.

(** ** Constructors give storable values *)

Lemma php_from_str_stable s v : PhpVersion_from_str s = Ok v -> php_stable v.
Proof. intros H%php_from_str_range. by apply php_fmt_parse. Qed.

Lemma domain_stable_iff d : domain_stable d <-> valid_subpart (Domain_str d) = true.
Proof.
  unfold domain_stable. rewrite Domain_parse_subpart_spec. split; [tauto|]. intros H. split; [done|].
  by apply valid_subpart_lower.
Qed.

Lemma target_stable_iff t : target_stable t <-> target_typed t.
Proof. split; [apply from_url_str_ok|]. intros [H1 H2]. by apply from_url_str_fmt. Qed.

Lemma prefix_kept prefix (P : N -> Prop) : Forall P prefix -> Forall P (normalize_prefix prefix).
Proof.
  destruct (normalize_prefix_spec prefix) as (k & Hk & _ & _). rewrite Hk at 1. by intros [H _]%Forall_app.
Qed.

Lemma pop_slashes_done s : (s = ["/"%ch] \/ forall c r, s = c :: r -> c <> "/"%ch) -> pop_slashes s = s.
Proof.
  destruct s as [|c [|d s]]; [done..|]. intros [H|H]; [done|]. cbn [pop_slashes].
  destruct (c =? "/"%ch) eqn:E; [|done]. apply N.eqb_eq in E. by apply (H c (d :: s)) in E.
Qed.

Lemma normalize_prefix_idem prefix : starts_with "/" prefix = true ->
  normalize_prefix (normalize_prefix prefix) = normalize_prefix prefix.
Proof.
  intros Hs. destruct (normalize_prefix_spec prefix) as (k & _ & _ & Hn). destruct (Hn Hs) as [_ Hd].
  unfold normalize_prefix at 1. rewrite pop_slashes_done; [apply rev_involutive|].
  destruct Hd as [->|Hd]; [by left|right]. intros c r Hc ->. unfold ends_with, strip_suffix in Hd. cbn [rev app] in Hd.
  rewrite Hc in Hd. done.
Qed.

(** A segment of the prefix is one of the whole. *)
Lemma split_app_elem sep a b w : w ∈ split_char sep a -> (forall c, c ∈ b -> c = sep) -> w ∈ split_char sep (a ++ b).
Proof.
  intros Hw Hb. destruct b as [|c b]; [by rewrite app_nil_r|].
  assert (c = sep) as -> by (apply Hb; left). rewrite split_char_app_all. set_solver.
Qed.

Lemma prefix_stable prefix : starts_with "/" prefix = true -> existsb prefix_bad_char prefix = false ->
  existsb (fun seg => str_eqb seg "..") (split_char "/" prefix) = false ->
  let p := normalize_prefix prefix in
  is_empty p = false /\ starts_with "/" p = true /\ existsb prefix_bad_char p = false /\
  existsb (fun seg => str_eqb seg "..") (split_char "/" p) = false /\ normalize_prefix p = p.
Proof.
  intros Hs Hb Hd p. destruct (normalize_prefix_spec prefix) as (k & Hk & Ha & Hn). destruct (Hn Hs) as [Hsp _].
  fold p in Hk, Hsp. rewrite existsb_none in Hb. rewrite existsb_none in Hd.
  split; [by destruct p|]. split; [done|]. split; [|split].
  - apply existsb_none. intros c Hc. apply Hb. rewrite Hk. set_solver.
  - apply existsb_none. intros w Hw. apply Hd. rewrite Hk. apply split_app_elem; [done|]. by apply Forall_forall.
  - by apply normalize_prefix_idem.
Qed.

Lemma proxy_rule_stable prefix t r : ProxyRule_new prefix t = Ok r ->
  ProxyRule_new (rule_prefix r) (rule_target r) = Ok r /\ rule_target r = t.
Proof.
  unfold ProxyRule_new at 1. destruct (is_empty prefix); [done|]. destruct (starts_with "/" prefix) eqn:Hs; [|done].
  cbn [negb]. destruct (existsb prefix_bad_char prefix) eqn:Hb; [done|].
  destruct (existsb _ (split_char _ _)) eqn:Hd; [done|]. intros [= <-]. cbn [rule_prefix rule_target]. split; [|done].
  destruct (prefix_stable prefix Hs Hb Hd) as (H1 & H2 & H3 & H4 & H5). unfold ProxyRule_new.
  by rewrite H1, H2, H3, H4, H5.
Qed.

Lemma route_rule_stable prefix t r : RouteRule_new prefix t = Ok r -> RouteRule_new (route_prefix r) (route_target r) = Ok r.
Proof.
  unfold RouteRule_new at 1. destruct (is_empty prefix); [done|]. destruct (starts_with "/" prefix) eqn:Hs; [|done].
  cbn [negb]. destruct (existsb prefix_bad_char prefix) eqn:Hb; [done|].
  destruct (existsb _ (split_char _ _)) eqn:Hd; [done|]. destruct (is_empty t) eqn:Ht; [done|].
  destruct (existsb is_control t || negb (is_safe_relative t)) eqn:Hc; [done|].
  intros [= <-]. cbn [route_prefix route_target].
  destruct (prefix_stable prefix Hs Hb Hd) as (H1 & H2 & H3 & H4 & H5). unfold RouteRule_new.
  by rewrite H1, H2, H3, H4, H5, Ht, Hc.
Qed.

Lemma site_name_stable raw n : validate_and_lowercase_name raw = Ok n -> validate_and_lowercase_name n = Ok n.
Proof. intros [H _]%validate_name_spec. by apply validate_name_stable. Qed.

Lemma proxy_name_stable raw n : validate_proxy_name raw = Ok n -> validate_proxy_name n = Ok n.
Proof.
  intros (H1 & H2 & _)%validate_proxy_name_spec. apply validate_proxy_name_spec. split; [done|]. split; [done|].
  by apply dns_name_lower.
Qed.

(** ** What loading gives is storable *)

Lemma convert_extensions_stable w m v l : convert_extensions w = Ok m -> m !! v = Some l -> php_stable v.
Proof.
  unfold convert_extensions. intros H. revert v l.
  refine (for_fold_inv (fun out => forall v l, out !! v = Some l -> php_stable v) _ _ _ _ _ _ H);
    [|by intros ? ?; rewrite lookup_empty].
  intros out e out' _ Hout Hf v l. apply bind_ok in Hf as (v' & Hv'%core_ok & [= <-]).
  rewrite lookup_insert. case_decide; [|apply Hout]. subst. intros _. by eapply php_from_str_stable.
Qed.

Lemma convert_filtered_stable p w m v s : convert_filtered p w = Ok m -> m !! v = Some s -> php_stable v.
Proof.
  unfold convert_filtered. intros H. revert v s.
  refine (for_fold_inv (fun out => forall v l, out !! v = Some l -> php_stable v) _ _ _ _ _ _ H);
    [|by intros ? ?; rewrite lookup_empty].
  intros out e out' _ Hout Hf v l. apply bind_ok in Hf as (v' & Hv'%core_ok & [= <-]).
  case_bool_decide; [apply Hout|]. rewrite lookup_insert. case_decide; [|apply Hout]. subst. intros _.
  by eapply php_from_str_stable.
Qed.

Lemma convert_overrides_stable w m k o v : convert_overrides w = Ok m -> m !! k = Some o -> ov_php o = Some v -> php_stable v.
Proof.
  unfold convert_overrides. intros H. revert k o v.
  refine (for_fold_inv (fun out => forall k o v, out !! k = Some o -> ov_php o = Some v -> php_stable v) _ _ _ _ _ _ H);
    [|by intros ? ? ?; rewrite lookup_empty].
  intros out e out' _ Hout Hf k o v. apply bind_ok in Hf as (php & Hp & [= <-]).
  rewrite lookup_insert. case_decide; [|apply Hout]. intros [= <-]. cbn. intros ->.
  unfold transpose in Hp. destruct (ow_php e) as [x|]; [|done]. apply bind_ok in Hp as (y & Hy%core_ok & [= ->]).
  by eapply php_from_str_stable.
Qed.

Lemma convert_rules_stable w m k rs r : convert_proxy_rules w = Ok m -> m !! k = Some rs -> r ∈ rs ->
  ProxyRule_new (rule_prefix r) (rule_target r) = Ok r /\ target_stable (rule_target r).
Proof.
  intros H Hk Hr. destruct (convert_map_ok _ _ _ _ _ H Hk) as (x & _ & Hx).
  destruct (collect_ok_elem _ _ _ _ Hx Hr) as (y & _ & Hy).
  apply bind_ok in Hy as (t & Ht%core_ok & Hn%core_ok). apply proxy_rule_stable in Hn as [Hn <-].
  split; [done|]. apply target_stable_iff. by eapply from_url_str_ok.
Qed.

Lemma convert_routes_stable w m k rs r : convert_route_rules w = Ok m -> m !! k = Some rs -> r ∈ rs ->
  RouteRule_new (route_prefix r) (route_target r) = Ok r.
Proof.
  intros H Hk Hr. destruct (convert_map_ok _ _ _ _ _ H Hk) as (x & _ & Hx).
  destruct (collect_ok_elem _ _ _ _ Hx Hr) as (y & _ & Hn%core_ok). by eapply route_rule_stable.
Qed.

Lemma convert_projects_stable w l p : convert_projects w = Ok l -> p ∈ l ->
  validate_and_lowercase_name (project_name p) = Ok (project_name p).
Proof.
  intros H Hp. destruct (collect_ok_elem _ _ _ _ H Hp) as (x & _ & Hx).
  apply bind_ok in Hx as (q & Hq%core_ok & [= <-]). unfold ContainerProject_new in Hq.
  apply bind_ok in Hq as (n & Hn & [= <-]). by eapply site_name_stable.
Qed.

Lemma convert_proxies_stable w l p : convert_proxies w = Ok l -> p ∈ l ->
  validate_proxy_name (proxy_name p) = Ok (proxy_name p) /\ target_stable (proxy_target p).
Proof.
  intros H Hp. destruct (collect_ok_elem _ _ _ _ H Hp) as (x & _ & Hx).
  apply bind_ok in Hx as (t & Ht%core_ok & Hx). apply bind_ok in Hx as (q & Hq%core_ok & [= <-]).
  unfold ProxySite_new in Hq. apply bind_ok in Hq as (n & Hn & [= <-]). cbn.
  split; [by eapply proxy_name_stable|]. apply target_stable_iff. by eapply from_url_str_ok.
Qed.

Lemma convert_site_stable w s : convert_site w = Ok s ->
  validate_and_lowercase_name (site_name s) = Ok (site_name s) /\ php_stable (site_php s).
Proof.
  intros [H1 H2]%convert_site_typed. split; [by apply validate_name_stable|]. by apply php_fmt_parse.
Qed.

Lemma try_from_storable w c : Config_try_from w = Ok c -> storable c.
Proof.
  intros H0. pose proof (try_from_typed w c H0) as T. revert H0.
  unfold Config_try_from. destruct (negb _); [done|]. intros H.
  apply bind_ok in H as (tld & Htld%core_ok & H). apply bind_ok in H as (dphp & Hdphp%core_ok & H).
  apply bind_ok in H as (exts & Hexts & H). apply bind_ok in H as (vs & Hvs & H).
  apply bind_ok in H as (dirs & Hdirs & H). apply bind_ok in H as (ovs & Hovs & H).
  apply bind_ok in H as (linked & Hlinked & H). apply bind_ok in H as (dl & Hdl & H).
  apply bind_ok in H as (dpk & Hdpk & H). apply bind_ok in H as (dpx & Hdpx & H).
  apply bind_ok in H as (pxs & Hpxs & H). apply bind_ok in H as (prs & Hprs & H).
  apply bind_ok in H as (prl & Hprl & H). apply bind_ok in H as (prp & Hprp & H).
  apply bind_ok in H as (rrl & Hrrl & H). apply bind_ok in H as (rrp & Hrrp & H).
  injection H as <-. split; cbn -[fmt validate_and_lowercase_name validate_proxy_name].
  - done.
  - by apply Tld_new_stable, (tc_tld _ T).
  - by eapply php_from_str_stable.
  - intros v l. by eapply convert_extensions_stable.
  - intros v m Hm. split; [exact (convert_filtered_stable _ _ _ _ _ Hvs Hm)|]. intros k x. exact (tc_version_settings _ T v m k x Hm).
  - intros v m Hm. split; [exact (convert_filtered_stable _ _ _ _ _ Hdirs Hm)|]. intros k x. exact (tc_directives _ T v m k x Hm).
  - intros s Hs. destruct (collect_ok_elem _ _ _ _ Hlinked Hs) as (x & _ & Hx). by eapply convert_site_stable.
  - intros p. by eapply convert_projects_stable.
  - intros k o v. by eapply convert_overrides_stable.
  - exact (tc_services _ T).
  - intros k d x Hd Hx. apply domain_stable_iff. exact (tc_domains _ T k d Hd x Hx).
  - intros p. by eapply convert_proxies_stable.
  - intros k rs r [Hk|Hk]; [exact (convert_rules_stable _ _ _ _ _ Hprl Hk)|exact (convert_rules_stable _ _ _ _ _ Hprp Hk)].
  - intros k rs r [Hk|Hk]; [exact (convert_routes_stable _ _ _ _ _ Hrrl Hk)|exact (convert_routes_stable _ _ _ _ _ Hrrp Hk)].
Qed.

Lemma parse_toml_storable toml_from_str try_into s c : parse_toml toml_from_str try_into s = Ok c -> storable c.
Proof.
  unfold parse_toml. intros (value & _ & Hv)%bind_ok. apply bind_ok in Hv as (found & _ & Hv).
  destruct (CURRENT_VERSION <? found); [done|]. apply bind_ok in Hv as (v & _ & Hv).
  apply bind_ok in Hv as (w & _ & Hv). apply bind_ok in Hv as (cfg & Hw & Hv). apply bind_ok in Hv as ([] & _ & [= <-]).
  by eapply try_from_storable.
Qed.

(** ** The normal form *)

Lemma nonempty_lookup {A} (keep : A -> bool) (m : gmap str A) k x :
  nonempty_map keep m !! k = Some x <-> m !! k = Some x /\ keep x = true.
Proof. unfold nonempty_map. by rewrite map_lookup_filter_Some. Qed.

Lemma versions_lookup m v x : nonempty_versions m !! v = Some x <-> m !! v = Some x /\ x <> ∅.
Proof. unfold nonempty_versions. by rewrite map_lookup_filter_Some. Qed.

Lemma normalised_valid c : valid_config c -> valid_config (normalised c).
Proof.
  intros V. destruct V. constructor; try done.
  - intros k d. cbn. rewrite !nonempty_lookup. intros H. apply (vc_domains k). tauto.
  - destruct vc_proxy_rules as [H1 H2]. split; intros k rs; cbn; rewrite nonempty_lookup; intros [Hk _]; eauto.
  - destruct vc_route_rules as [H1 H2]. split; intros k rs; cbn; rewrite nonempty_lookup; intros [Hk _]; eauto.
Qed.

Lemma normalised_storable c : storable c -> storable (normalised c).
Proof.
  intros [S1 S2 S3 S4 S5 S6 S7 S8 S9 S10 S11 S12 S13 S14].
  constructor; cbn -[fmt validate_and_lowercase_name validate_proxy_name]; try assumption; try done.
  - intros v m [Hm _]%versions_lookup. by apply S5.
  - intros v m [Hm _]%versions_lookup. by apply S6.
  - intros k d x. rewrite !nonempty_lookup. intros H. apply (S11 k). tauto.
  - intros k rs r. rewrite !nonempty_lookup. intros H. apply (S13 k). tauto.
  - intros k rs r. rewrite !nonempty_lookup. intros H. apply (S14 k). tauto.
Qed.

(** A second save and load changes nothing. *)
Lemma normalised_idem c : normalised (normalised c) = normalised c.
Proof.
  assert (forall A (keep : A -> bool) (m : gmap str A), nonempty_map keep (nonempty_map keep m) = nonempty_map keep m) as Hn.
  { intros A keep m. apply map_filter_id. by intros k x [_ Hx]%map_lookup_filter_Some. }
  assert (forall m, nonempty_versions (nonempty_versions m) = nonempty_versions m) as Hv.
  { intros m. apply map_filter_id. by intros k x [_ Hx]%map_lookup_filter_Some. }
  unfold normalised. cbn [cf_php cf_domains cf_proxy_rules cf_route_rules php_default php_settings php_extensions
    php_version_settings php_directives domains_linked domains_parked domains_proxy proxy_rules_linked proxy_rules_parked
    route_rules_linked route_rules_parked cf_tld cf_dns_port cf_update_channel cf_symlink_protection cf_mcp_enabled
    cf_lan_enabled cf_lan_setup_port cf_ports cf_parked cf_linked cf_projects cf_overrides cf_services cf_mail cf_dumps
    cf_tunnel cf_groups cf_proxies].
  by rewrite !Hn, !Hv.
Qed.

Lemma saved_reloads to_string_pretty toml_from_str try_into c s :
  (forall w text, to_string_pretty w = Ok text -> exists value, toml_from_str text = Ok value /\
     read_version value = Ok (ws_version w) /\ try_into value = Ok (reads_as w)) ->
  to_toml to_string_pretty c = Ok s -> storable c -> validate c = Ok tt ->
  parse_toml toml_from_str try_into s = Ok (normalised c).
Proof.
  intros L W S V. assert (to_string_pretty (to_ser c) = Ok s) as W'.
  { unfold to_toml in W. destruct (to_string_pretty (to_ser c)); [by injection W as ->|done]. }
  destruct (L _ _ W') as (value & T1 & T2 & T3).
  unfold parse_toml. rewrite T1. cbn [map_err mbind result_bind]. rewrite T2.
  cbn [mbind result_bind to_ser ws_version]. rewrite N.ltb_irrefl. cbn [mbind result_bind].
  rewrite T3. cbn [map_err mbind result_bind]. rewrite reads_back by done. cbn [mbind result_bind].
  apply validate_spec, normalised_valid, validate_spec in V. by rewrite V.
Qed.

(** C8. A configuration survives being saved and loaded.  If every value in it is
    one its own constructor returns, and it validates, then whatever text the
    TOML writer makes of it loads again: the result is the configuration without
    the entries that say nothing (empty domain deltas, rule lists and
    per-version tables), which validates, and which a further save and load give
    back unchanged.  Every configuration that loads is such a one. *)
Theorem saved_config_reloads to_string_pretty toml_from_str try_into c s
    (L : forall w text, to_string_pretty w = Ok text -> exists value, toml_from_str text = Ok value /\
           read_version value = Ok (ws_version w) /\ try_into value = Ok (reads_as w))
    (W : to_toml to_string_pretty c = Ok s) (S : storable c) (V : validate c = Ok tt) :
  parse_toml toml_from_str try_into s = Ok (normalised c) /\ storable (normalised c) /\
  normalised (normalised c) = normalised c /\
  forall s' c', parse_toml toml_from_str try_into s' = Ok c' -> storable c' /\ validate c' = Ok tt.
Proof.
  split; [by eapply saved_reloads|]. split; [by apply normalised_storable|]. split; [apply normalised_idem|].
  intros s' c' Hp. split; [by eapply parse_toml_storable|by eapply parse_toml_valid].
Qed.

(** *** A witness, with a writer that knows one document *)

#[export] Instance Ports_eq_dec : EqDecision Ports.
Proof. solve_decision. Defined.
#[export] Instance ExtEntry_eq_dec : EqDecision ExtEntry.
Proof. solve_decision. Defined.
#[export] Instance PhpSectionSer_eq_dec : EqDecision PhpSectionSer.
Proof. solve_decision. Defined.
#[export] Instance OverrideSer_eq_dec : EqDecision OverrideSer.
Proof. solve_decision. Defined.
#[export] Instance ServiceInstanceSer_eq_dec : EqDecision ServiceInstanceSer.
Proof. solve_decision. Defined.
#[export] Instance GroupsSection_eq_dec : EqDecision GroupsSection.
Proof. solve_decision. Defined.
#[export] Instance DomainDeltaSer_eq_dec : EqDecision DomainDeltaSer.
Proof. solve_decision. Defined.
#[export] Instance DomainsSectionSer_eq_dec : EqDecision DomainsSectionSer.
Proof. solve_decision. Defined.
#[export] Instance ProxySer_eq_dec : EqDecision ProxySer.
Proof. solve_decision. Defined.
#[export] Instance ProxyRuleSer_eq_dec : EqDecision ProxyRuleSer.
Proof. solve_decision. Defined.
#[export] Instance RouteRuleSer_eq_dec : EqDecision RouteRuleSer.
Proof. solve_decision. Defined.
#[export] Instance ProxyRulesSectionSer_eq_dec : EqDecision ProxyRulesSectionSer.
Proof. solve_decision. Defined.
#[export] Instance RouteRulesSectionSer_eq_dec : EqDecision RouteRulesSectionSer.
Proof. solve_decision. Defined.
#[export] Instance ProjectSer_eq_dec : EqDecision ProjectSer.
Proof. solve_decision. Defined.
#[export] Instance WireSer_eq_dec : EqDecision WireSer.
Proof. solve_decision. Defined.

Definition demo_writer (w : WireSer) : result str str :=
  if decide (w = to_ser Config_default) then Ok "document"%str else Err "unknown"%str.
Definition demo_value : Value := VTable {["version"%str := VInteger 24]}.

Lemma Config_default_storable : storable Config_default.
Proof.
  constructor; try (intros; cbn in *; set_solver).
Qed.

Lemma demo_writer_reads w text : demo_writer w = Ok text -> exists value, @Ok str Value demo_value = Ok value /\
  read_version value = Ok (ws_version w) /\ @Ok str Wire (reads_as (to_ser Config_default)) = Ok (reads_as w).
Proof.
  unfold demo_writer. destruct (decide (w = to_ser Config_default)) as [->|]; [|discriminate].
  intros _. exists demo_value. split; [reflexivity|]. split; [vm_compute; reflexivity|reflexivity].
Qed.

Lemma saved_config_reloads_witness :
  to_toml demo_writer Config_default = Ok "document"%str /\
  parse_toml (fun _ => Ok demo_value) (fun _ => Ok (reads_as (to_ser Config_default))) "document"%str
    = Ok (normalised Config_default).
Proof.
  assert (to_toml demo_writer Config_default = Ok "document"%str) as W.
  { unfold to_toml, demo_writer. by rewrite decide_True. }
  split; [exact W|]. apply (saved_config_reloads demo_writer _ _ Config_default "document"%str); [|exact W| |].
  - exact demo_writer_reads.
  - exact Config_default_storable.
  - vm_compute. reflexivity.
Defined.
