(* ===== verification/SiteDomains.v ===== *)
(** * Building the router from the configuration

    [src/bin/orckerd/src/site_domains.rs]: the claimant sequence (scanned sites,
    then configured proxies, then container projects), the claim of every
    domain key, the router built from it and the collision report.

    [claim_spec] is the collision rule stated directly: the first eligible
    claimant that added the domain explicitly, otherwise the first eligible one
    whose own apex it is.  [build_exact] shows that the built router is exactly
    the outcome of that rule and that no insertion is ever refused. *)

From S2P Require Import Prelude RustStr RustMap RustPath CoreError DnsLabel Tld Domain Host Php Site Proxy Router Project Settings Config.

Open Scope N_scope.

(** ** Plans *)

Record SitePlan := mkSitePlan { sp_site : Site; sp_effective : list Domain; sp_primary : Domain }.
Record ProxyPlan := mkProxyPlan {
  pp_proxy : ProxySite; pp_effective : list Domain; pp_primary : Domain; pp_shadowed : bool }.

Definition delta_for (cfg : Config) (site : Site) : option DomainDelta :=
  match site_kind site with
  | Linked => domains_linked (cf_domains cfg) !! site_name site
  | Parked => domains_parked (cf_domains cfg) !! site_document_root site
  end.

(** The three parts of an optional delta. *)
Definition delta_parts (d : option DomainDelta) : list Domain * list Domain * option Domain :=
  match d with
  | Some d => (added d, suppressed d, primary d)
  | None => ([], [], None)
  end.

Definition plan_site (cfg : Config) (site : Site) : SitePlan :=
  let '(a, s, stored) := delta_parts (delta_for cfg site) in
  let effective := effective_domains (site_name site) a s in
  mkSitePlan site effective (choose_primary (site_name site) effective stored).

Definition plan_sites (cfg : Config) (sites : list Site) : list SitePlan :=
  (foldl (fun (acc : gset str * list SitePlan) site =>
     let '(seen, plans) := acc in
     if bool_decide (site_name site ∈ seen) then acc
     else ({[site_name site]} ∪ seen, plans ++ [plan_site cfg site])) (∅, []) sites).2.

Definition project_proxies (projects : list ContainerProject) : list ProxySite :=
  omap (fun p => result_ok (proxy_site p)) projects.

Definition plan_proxy (cfg : Config) (site_names : gset str) (proxy : ProxySite) : ProxyPlan :=
  let '(a, s, stored) := delta_parts (domains_proxy (cf_domains cfg) !! proxy_name proxy) in
  let effective := effective_domains (proxy_name proxy) a s in
  mkProxyPlan proxy effective (choose_primary (proxy_name proxy) effective stored)
    (bool_decide (proxy_name proxy ∈ site_names)).

Definition plan_proxies (cfg : Config) (site_plans : list SitePlan) : list ProxyPlan :=
  let site_names : gset str := list_to_set ((fun p => site_name (sp_site p)) <$> site_plans) in
  (foldl (fun (acc : gset str * list ProxyPlan) proxy =>
     let '(seen, plans) := acc in
     if bool_decide (proxy_name proxy ∈ seen) then acc
     else ({[proxy_name proxy]} ∪ seen, plans ++ [plan_proxy cfg site_names proxy])) (∅, [])
     (cf_proxies cfg ++ project_proxies (cf_projects cfg))).2.

(** ** Claims *)

Record Claimant := mkClaimant {
  c_label : str; c_apex : Domain; c_effective : list Domain; c_eligible : bool }.

Definition site_claimant (p : SitePlan) : Claimant :=
  mkClaimant (site_name (sp_site p)) (Domain_apex (site_name (sp_site p))) (sp_effective p) true.
Definition proxy_claimant (p : ProxyPlan) : Claimant :=
  mkClaimant ("proxy:"%str ++ proxy_name (pp_proxy p)) (Domain_apex (proxy_name (pp_proxy p)))
    (pp_effective p) (negb (pp_shadowed p)).
Definition claimants (site_plans : list SitePlan) (proxy_plans : list ProxyPlan) : list Claimant :=
  (site_claimant <$> site_plans) ++ (proxy_claimant <$> proxy_plans).

(** [iter().enumerate()] *)
Definition enumerate {A} (l : list A) : list (nat * A) := zip (seq 0 (length l)) l.

(** A claim: the claimant's index and whether it is explicit. *)
Notation Claim := (nat * bool)%type.

Definition claim_domain (idx : nat) (apex : Domain) (claims : gmap str Claim) (d : Domain) : gmap str Claim :=
  let explicit := negb (bool_decide (d = apex)) in
  match claims !! Domain_str d with
  | Some existing => if existing.2 || negb explicit then claims
                     else <[Domain_str d := (idx, explicit)]> claims
  | None => <[Domain_str d := (idx, explicit)]> claims
  end.

Definition claim_step (claims : gmap str Claim) (e : nat * Claimant) : gmap str Claim :=
  if negb (c_eligible e.2) then claims
  else foldl (claim_domain e.1 (c_apex e.2)) claims (c_effective e.2).

Definition build_claims (cs : list Claimant) : gmap str nat :=
  fst <$> foldl claim_step ∅ (enumerate cs).

(** ** The router *)

Definition won (claims : gmap str nat) (idx : nat) (effective : list Domain) : list Domain :=
  bfilter (fun d => bool_decide (claims !! Domain_str d = Some idx)) effective.

Definition insert_site_plan (claims : gmap str nat) (router : SiteRouter) (e : nat * SitePlan) : SiteRouter :=
  let plan := e.2 in
  let w := won claims e.1 (sp_effective plan) in
  let primary := choose_primary (site_name (sp_site plan)) w (Some (sp_primary plan)) in
  (insert_with_domains (sp_site plan) w primary router).2.

Definition insert_proxy_plan (claims : gmap str nat) (offset : nat) (router : SiteRouter) (e : nat * ProxyPlan)
  : SiteRouter :=
  let plan := e.2 in
  if pp_shadowed plan then router
  else
    let w := won claims (offset + e.1)%nat (pp_effective plan) in
    let primary := choose_primary (proxy_name (pp_proxy plan)) w (Some (pp_primary plan)) in
    (insert_proxy_with_domains (pp_proxy plan) w primary router).2.

Definition attach_rules (cfg : Config) (router : SiteRouter) (plan : SitePlan) : SiteRouter :=
  let site := sp_site plan in
  let rules := match site_kind site with
               | Linked => proxy_rules_linked (cf_proxy_rules cfg) !! site_name site
               | Parked => proxy_rules_parked (cf_proxy_rules cfg) !! site_document_root site
               end in
  let router := match rules with Some rs => set_proxy_rules (site_name site) rs router | None => router end in
  let route_rules := match site_kind site with
                     | Linked => route_rules_linked (cf_route_rules cfg) !! site_name site
                     | Parked => route_rules_parked (cf_route_rules cfg) !! site_document_root site
                     end in
  match route_rules with Some rs => set_route_rules (site_name site) rs router | None => router end.

Definition build (cfg : Config) (sites : list Site) : SiteRouter :=
  let plans := plan_sites cfg sites in
  let proxy_plans := plan_proxies cfg plans in
  let claims := build_claims (claimants plans proxy_plans) in
  let router := SiteRouter_new (with_tld (cf_tld cfg)) in
  let router := foldl (insert_site_plan claims) router (enumerate plans) in
  let router := foldl (insert_proxy_plan claims (length plans)) router (enumerate proxy_plans) in
  foldl (attach_rules cfg) router plans.

(** ** The collision report *)

Record DomainCollision := mkCollision { col_winner : str; col_losers : list str }.

Definition wanted (cs : list Claimant) : gmap str (list nat) :=
  foldl (fun (m : gmap str (list nat)) (e : nat * Claimant) =>
    foldl (fun (m : gmap str (list nat)) d => <[Domain_str d := default [] (m !! Domain_str d) ++ [e.1]]> m)
      m (c_effective e.2)) ∅ (enumerate cs).

Definition collision_of (cs : list Claimant) (claims : gmap str nat) (e : str * list nat)
  : option DomainCollision :=
  let '(domain, idxs) := e in
  if (length idxs <? 2)%nat then None
  else
    winner_idx ← claims !! domain;
    winner ← c_label <$> cs !! winner_idx;
    let losers := omap (fun i => c_label <$> cs !! i) (bfilter (fun i => negb (i =? winner_idx)%nat) idxs) in
    if is_empty losers then None else Some (mkCollision winner losers).

Definition collisions (cfg : Config) (sites : list Site) : list DomainCollision :=
  let plans := plan_sites cfg sites in
  let proxy_plans := plan_proxies cfg plans in
  let cs := claimants plans proxy_plans in
  omap (collision_of cs (build_claims cs)) (btree_iter (wanted cs)).

(** ** The rule, directly *)

Definition wants (c : Claimant) (k : str) : bool := existsb (fun d => str_eqb (Domain_str d) k) (c_effective c).
Definition wants_explicitly (k : str) (c : Claimant) : bool :=
  c_eligible c && wants c k && negb (str_eqb (Domain_str (c_apex c)) k).
Definition wants_eligibly (k : str) (c : Claimant) : bool := c_eligible c && wants c k.

(** [Iterator::position] *)
Fixpoint position {A} (p : A -> bool) (l : list A) : option nat :=
  match l with
  | [] => None
  | x :: r => if p x then Some O else S <$> position p r
  end.

Definition claim_spec (cs : list Claimant) (k : str) : option nat :=
  match position (wants_explicitly k) cs with
  | Some i => Some i
  | None => position (wants_eligibly k) cs
  end.

(** ** Lemmas on positions and enumeration *)

Lemma position_snoc {A} (p : A -> bool) l x :
  position p (l ++ [x]) = match position p l with
                          | Some i => Some i
                          | None => if p x then Some (length l) else None
                          end.
Proof.
  induction l as [|y l IH]; simpl; [by destruct (p x)|]. destruct (p y); [done|]. rewrite IH.
  destruct (position p l); simpl; [done|]. by destruct (p x).
Qed.

Lemma position_Some {A} (p : A -> bool) l i :
  position p l = Some i -> exists x, l !! i = Some x /\ p x = true.
Proof.
  revert i; induction l as [|y l IH]; intros i; simpl; [done|]. destruct (p y) eqn:E.
  - intros [= <-]. by exists y.
  - destruct (position p l) as [j|]; simpl; [|done]. intros [= <-]. simpl. by apply IH.
Qed.

Lemma position_None {A} (p : A -> bool) l x : position p l = None -> x ∈ l -> p x = false.
Proof.
  induction l as [|y l IH]; simpl; [by intros _ ?%elem_of_nil|]. destruct (p y) eqn:E; [done|].
  destruct (position p l); [done|]. intros _ [->|Hx]%elem_of_cons; [done|auto].
Qed.

Lemma enumerate_snoc {A} (l : list A) x : enumerate (l ++ [x]) = enumerate l ++ [(length l, x)].
Proof.
  unfold enumerate. rewrite length_app, seq_app. simpl.
  rewrite zip_with_app by by rewrite length_seq. done.
Qed.

Lemma enumerate_fmap_snd {A} (l : list A) : (enumerate l).*2 = l.
Proof. unfold enumerate. apply snd_zip. by rewrite length_seq. Qed.

Lemma elem_of_enumerate {A} (l : list A) i x : (i, x) ∈ enumerate l <-> l !! i = Some x.
Proof.
  unfold enumerate. rewrite list_elem_of_lookup. setoid_rewrite lookup_zip_with_Some.
  split.
  - intros (j & a & b & [= -> ->] & [-> _]%lookup_seq & Hx). done.
  - intros H. exists i, i, x. split; [done|]. split; [|done]. apply lookup_seq.
    split; [lia|]. by apply lookup_lt_Some in H.
Qed.

(** ** The claims are the rule's *)

(** What one claimant leaves for a key. *)
Lemma claim_domains_lookup idx apex m ds k :
  foldl (claim_domain idx apex) m ds !! k =
  if existsb (fun d => str_eqb (Domain_str d) k) ds then
    let explicit := negb (str_eqb (Domain_str apex) k) in
    match m !! k with
    | Some e => if e.2 || negb explicit then Some e else Some (idx, explicit)
    | None => Some (idx, explicit)
    end
  else m !! k.
Proof.
  revert m; induction ds as [|d ds IH]; intros m; [done|]. cbn [foldl existsb]. rewrite IH. clear IH.
  assert (forall k, k = Domain_str d -> bool_decide (d = apex) = str_eqb (Domain_str apex) k) as Hx.
  { intros k' ->. unfold str_eqb. apply bool_decide_ext. split; [by intros ->|].
    intros E. symmetry. by apply Domain_str_inj. }
  unfold claim_domain. destruct (str_eqb (Domain_str d) k) eqn:Ek.
  - unfold str_eqb in Ek. bprop. subst k. rewrite (Hx _ eq_refl). cbn [orb].
    destruct (m !! Domain_str d) as [[i e]|] eqn:Em; simpl.
    + destruct (e || _) eqn:E; [rewrite Em; simpl; rewrite E; by destruct (existsb _ _)|].
      rewrite lookup_insert_eq. simpl. bprop. rewrite H0. simpl. by destruct (existsb _ _).
    + rewrite lookup_insert_eq. simpl. destruct (str_eqb _ _); simpl; by destruct (existsb _ _).
  - unfold str_eqb in Ek. bprop. cbn [orb].
    destruct (m !! Domain_str d) as [[i e]|]; simpl; [destruct (e || _)|]; by rewrite ?lookup_insert_ne.
Qed.

Definition explicit_at (cs : list Claimant) (k : str) (i : nat) : bool :=
  match cs !! i with Some c => negb (str_eqb (Domain_str (c_apex c)) k) | None => false end.

Lemma claim_steps cs k :
  foldl claim_step ∅ (enumerate cs) !! k = (fun i => (i, explicit_at cs k i)) <$> claim_spec cs k.
Proof.
  induction cs as [|c cs IH] using rev_ind; [done|].
  rewrite enumerate_snoc, foldl_app. cbn [foldl]. unfold claim_step at 1. cbn [fst snd].
  assert (forall i, is_Some (cs !! i) -> explicit_at (cs ++ [c]) k i = explicit_at cs k i) as Hat.
  { intros i [x Hx]. unfold explicit_at. by rewrite (lookup_app_l_Some _ _ _ _ Hx), Hx. }
  assert (explicit_at (cs ++ [c]) k (length cs) = negb (str_eqb (Domain_str (c_apex c)) k)) as Hlast.
  { unfold explicit_at. by rewrite list_lookup_middle. }
  unfold claim_spec in *. rewrite !position_snoc.
  destruct (position (wants_explicitly k) cs) as [i|] eqn:E1; simpl in IH |- *.
  - apply position_Some in E1 as (x & Hx & Hw). unfold wants_explicitly in Hw. bprop.
    rewrite Hat by eauto.
    assert (explicit_at cs k i = true) as Hi by (unfold explicit_at; by rewrite Hx, H0).
    rewrite Hi in *. destruct (c_eligible c); simpl; [|done].
    rewrite claim_domains_lookup, IH. simpl. by destruct (existsb _ _).
  - unfold wants_explicitly at 1, wants_eligibly at 2, wants.
    destruct (c_eligible c); simpl.
    2: { rewrite IH. destruct (position (wants_eligibly k) cs) as [i|] eqn:E2; [|done]. simpl.
         apply position_Some in E2 as (x & Hx & _). by rewrite Hat by eauto. }
    rewrite claim_domains_lookup, IH.
    destruct (position (wants_eligibly k) cs) as [i|] eqn:E2; simpl.
    + apply position_Some in E2 as (x & Hx & Hw). pose proof (Hat i (mk_is_Some _ _ Hx)) as Hai.
      assert (explicit_at cs k i = false) as Hi.
      { pose proof (position_None _ _ x E1 (list_elem_of_lookup_2 _ _ _ Hx)) as Hn.
        unfold wants_explicitly, wants_eligibly, explicit_at in *. rewrite Hx. by rewrite Hw in Hn. }
      rewrite Hi in *. simpl. destruct (existsb _ _); simpl; [|by rewrite Hai].
      destruct (str_eqb _ _); simpl; [by rewrite Hai|by rewrite Hlast].
    + destruct (existsb _ _); simpl; [|done]. destruct (str_eqb _ _); simpl; by rewrite Hlast.
Qed.

Lemma build_claims_spec cs k : build_claims cs !! k = claim_spec cs k.
Proof.
  unfold build_claims. rewrite lookup_fmap, claim_steps. by destruct (claim_spec cs k).
Qed.

(** The claim computed for every domain key follows the collision rule: it
    goes to the first eligible claimant that added the domain explicitly, and
    when no one did, to the first eligible claimant that wants it at all (whose
    apex it is); ineligible claimants never win. *)
Theorem build_claims_exact cs k :
  build_claims cs !! k =
  match position (fun c => c_eligible c && wants c k && negb (str_eqb (Domain_str (c_apex c)) k)) cs with
  | Some i => Some i
  | None => position (fun c => c_eligible c && wants c k) cs
  end.
Proof. apply build_claims_spec. Qed.

(** ** Inserting claimants whose domains are already settled *)

(** Every domain in the map belongs to the claimant [own] names. *)
Definition owned_by (own : Domain -> option str) (st : Spec.t) : Prop :=
  forall n rt ds d, st !! n = Some (rt, ds) -> d ∈ ds -> own d = Some n.

Lemma spec_insert_fresh (own : Domain -> option str) (st : Spec.t) (n : str) (rt : Route) (ds : list Domain) :
  owned_by own st -> st !! n = None -> (forall d, d ∈ ds -> own d = Some n) ->
  Spec.spec_insert n rt ds st = (Ok tt, <[n := (rt, ds)]> st).
Proof.
  intros Ho Hn Hd. unfold Spec.spec_insert. rewrite Hn.
  rewrite (bool_decide_false (is_Some None)) by by intros [].
  destruct (find_first (Spec.held st) ds) as [d|] eqn:E; [|done]. exfalso.
  apply find_first_Some in E as (l1 & l2 & -> & Hh & _). unfold Spec.held, Spec.holder in Hh.
  destruct (find_map _ _) as [x|] eqn:Ef; [|done]. apply find_map_Some in Ef as ([n' [rt' ds']] & Hin & Hf).
  simpl in Hf. case_bool_decide as Hd'; [|done]. apply elem_of_map_to_list in Hin.
  pose proof (Ho _ _ _ _ Hin Hd') as H1. rewrite Hd in H1 by set_solver. congruence.
Qed.

Section Fold.
Context {X : Type} (step : SiteRouter -> X -> SiteRouter) (entry : X -> option (str * (Route * list Domain))).
Context (own : Domain -> option str).

(** A step is a refinement of inserting its entry, or nothing. *)
Definition step_inserts : Prop := forall r x, wf r ->
  match entry x with
  | None => step r x = r
  | Some (n, (rt, ds)) =>
      wf (step r x) /\ r_config (step r x) = r_config r /\
      claims (step r x) = (Spec.spec_insert n rt ds (claims r)).2
  end.

Lemma fold_inserts l r :
  step_inserts -> wf r -> owned_by own (claims r) ->
  NoDup (omap entry l).*1 ->
  (forall e, e ∈ omap entry l -> claims r !! e.1 = None /\ forall d, d ∈ e.2.2 -> own d = Some e.1) ->
  wf (foldl step r l) /\ r_config (foldl step r l) = r_config r /\ owned_by own (claims (foldl step r l)) /\
  claims (foldl step r l) = list_to_map (omap entry l) ∪ claims r.
Proof.
  intros Hstep. revert r; induction l as [|x l IH]; intros r Hwf Ho Hnd Hes; simpl.
  { split; [done|]. split; [done|]. split; [done|]. by rewrite map_empty_union. }
  pose proof (Hstep r x Hwf) as Hx. simpl in Hnd, Hes.
  destruct (entry x) as [[n [rt ds]]|].
  - destruct Hx as (Hw & Hc & Hcl). destruct (Hes (n, (rt, ds))) as [Hn Hd]; [by left|]. simpl in Hn, Hd.
    rewrite (spec_insert_fresh own) in Hcl by done. simpl in Hcl, Hnd. apply NoDup_cons in Hnd as [Hn1 Hnd].
    destruct (IH (step r x)) as (H1 & H2 & H3 & H4); try done.
    + intros n' rt' ds' d. rewrite Hcl, lookup_insert. case_decide; [|apply Ho].
      intros [= <- <-] Hin. subst. by apply Hd.
    + intros e He. rewrite Hcl, lookup_insert_ne.
      * apply Hes. by right.
      * intros ->. apply Hn1. by apply list_elem_of_fmap_2.
    + split; [done|]. split; [congruence|]. split; [done|]. rewrite H4, Hcl. simpl.
      rewrite <- insert_union_l. symmetry. apply insert_union_r.
      apply not_elem_of_list_to_map_1. done.
  - rewrite Hx. by apply IH.
Qed.
End Fold.

(** ** Plans *)

Lemma plan_sites_fold cfg sites seen plans seen' plans' :
  foldl (fun (acc : gset str * list SitePlan) site =>
     let '(seen, plans) := acc in
     if bool_decide (site_name site ∈ seen) then acc
     else ({[site_name site]} ∪ seen, plans ++ [plan_site cfg site])) (seen, plans) sites = (seen', plans') ->
  seen = list_to_set ((fun p => site_name (sp_site p)) <$> plans) ->
  NoDup ((fun p => site_name (sp_site p)) <$> plans) ->
  NoDup ((fun p => site_name (sp_site p)) <$> plans').
Proof.
  revert seen plans; induction sites as [|s sites IH]; intros seen plans; simpl; [by intros [= <- <-]|].
  intros H Hs Hnd. assert (sp_site (plan_site cfg s) = s) as Hp.
  { unfold plan_site. by destruct (delta_parts _) as [[] ?]. }
  case_bool_decide as Hin; [by eapply IH|].
  eapply IH; [exact H| |]; rewrite fmap_app; simpl; rewrite Hp.
  - subst. rewrite list_to_set_app_L. set_solver.
  - apply NoDup_app. split; [done|]. split; [|apply NoDup_singleton]. set_solver.
Qed.

Lemma plan_sites_NoDup cfg sites : NoDup ((fun p => site_name (sp_site p)) <$> plan_sites cfg sites).
Proof.
  unfold plan_sites. destruct (foldl _ _ _) as [seen plans] eqn:E. simpl.
  eapply plan_sites_fold; [exact E|done|constructor].
Qed.

(** Every site name is planned once, with the first site of the name. *)
Lemma plan_sites_elem cfg sites :
  (forall p, p ∈ plan_sites cfg sites -> sp_site p ∈ sites) /\
  (forall s, s ∈ sites -> exists p, p ∈ plan_sites cfg sites /\ site_name (sp_site p) = site_name s).
Proof.
  unfold plan_sites.
  set (f := fun (acc : gset str * list SitePlan) site => _).
  assert (forall sites seen plans, let '(seen', plans') := foldl f (seen, plans) sites in
    (forall n, n ∈ seen -> exists p, p ∈ plans /\ site_name (sp_site p) = n) ->
    (forall p, p ∈ plans -> p ∈ plans') /\
    (forall p, p ∈ plans' -> p ∈ plans \/ sp_site p ∈ sites) /\
    (forall s, s ∈ sites -> exists p, p ∈ plans' /\ site_name (sp_site p) = site_name s)) as H.
  { clear sites. induction sites as [|s sites IH]; intros seen plans; cbn [foldl].
    { intros _. split; [done|]. split; [tauto|]. by intros s ?%elem_of_nil. }
    assert (sp_site (plan_site cfg s) = s) as Hp by (unfold plan_site; by destruct (delta_parts _) as [[] ?]).
    unfold f at 2. destruct (bool_decide (site_name s ∈ seen)) eqn:Hin; bprop.
    - specialize (IH seen plans). destruct (foldl f _ sites) as [seen' plans']. intros Hs.
      destruct (IH Hs) as (H1 & H2 & H3). split; [done|]. split; [set_solver|].
      intros x [->|Hx]%elem_of_cons; [|auto]. destruct (Hs _ Hin) as (p & ? & ?). eauto.
    - specialize (IH ({[site_name s]} ∪ seen) (plans ++ [plan_site cfg s])).
      destruct (foldl f _ sites) as [seen' plans']. intros Hs. destruct IH as (H1 & H2 & H3).
      { intros n [->%elem_of_singleton|Hn]%elem_of_union; [exists (plan_site cfg s); by rewrite Hp; set_solver|].
        destruct (Hs n Hn) as (p & ? & ?). exists p. set_solver. }
      split; [intros p ?; apply H1; set_solver|]. split.
      + intros p [[Hp'|Hp']%elem_of_app|?]%H2; [tauto| |right; set_solver].
        apply list_elem_of_singleton in Hp' as ->. rewrite Hp. right. by left.
      + intros x [->|Hx]%elem_of_cons; [|auto]. exists (plan_site cfg s). split; [apply H1; set_solver|by rewrite Hp]. }
  specialize (H sites ∅ []). destruct (foldl f _ sites) as [seen' plans']. cbn [snd].
  destruct H as (_ & H2 & H3); [set_solver|]. split; [|done].
  intros p Hp. by destruct (H2 p Hp) as [?%elem_of_nil|].
Qed.

Lemma plan_proxies_fold cfg names proxies seen plans seen' plans' :
  foldl (fun (acc : gset str * list ProxyPlan) proxy =>
     let '(seen, plans) := acc in
     if bool_decide (proxy_name proxy ∈ seen) then acc
     else ({[proxy_name proxy]} ∪ seen, plans ++ [plan_proxy cfg names proxy])) (seen, plans) proxies
    = (seen', plans') ->
  let shadow_ok := Forall (fun p => pp_shadowed p = bool_decide (proxy_name (pp_proxy p) ∈ names)) in
  seen = list_to_set ((fun p => proxy_name (pp_proxy p)) <$> plans) ->
  NoDup ((fun p => proxy_name (pp_proxy p)) <$> plans) -> shadow_ok plans ->
  NoDup ((fun p => proxy_name (pp_proxy p)) <$> plans') /\ shadow_ok plans'.
Proof.
  intros H shadow_ok. revert seen plans H; induction proxies as [|s sites IH]; intros seen plans; simpl;
    [by intros [= <- <-]|].
  intros H Hs Hnd Hsh. assert (pp_proxy (plan_proxy cfg names s) = s /\
    pp_shadowed (plan_proxy cfg names s) = bool_decide (proxy_name s ∈ names)) as [Hp Hp'].
  { unfold plan_proxy. by destruct (delta_parts _) as [[] ?]. }
  destruct (bool_decide (proxy_name s ∈ seen)) eqn:Hin; [by apply (IH seen plans)|]. bprop.
  eapply IH; [exact H| | |]; rewrite ?fmap_app; simpl; rewrite ?Hp.
  - subst. rewrite list_to_set_app_L. set_solver.
  - apply NoDup_app. split; [done|]. split; [|apply NoDup_singleton]. set_solver.
  - apply Forall_app. split; [done|]. constructor; [|constructor]. by rewrite Hp, Hp'.
Qed.

Lemma plan_proxies_ok cfg plans :
  NoDup ((fun p => proxy_name (pp_proxy p)) <$> plan_proxies cfg plans) /\
  forall p, p ∈ plan_proxies cfg plans -> pp_shadowed p = false ->
    proxy_name (pp_proxy p) ∉ (fun p => site_name (sp_site p)) <$> plans.
Proof.
  unfold plan_proxies. destruct (foldl _ _ _) as [seen pps] eqn:E. simpl.
  apply plan_proxies_fold in E as [H1 H2]; [|done|constructor|constructor]. split; [done|].
  intros p Hp Hs. rewrite Forall_forall in H2. specialize (H2 p Hp). rewrite Hs in H2.
  symmetry in H2. bprop. by rewrite elem_of_list_to_set in H2.
Qed.

(** ** The built router *)

(** The claimants' names, in claimant order. *)
Definition names_of (plans : list SitePlan) (proxies : list ProxyPlan) : list str :=
  ((fun p => site_name (sp_site p)) <$> plans) ++ ((fun p => proxy_name (pp_proxy p)) <$> proxies).

Definition owner_name (plans : list SitePlan) (proxies : list ProxyPlan) (d : Domain) : option str :=
  i ← claim_spec (claimants plans proxies) (Domain_str d);
  names_of plans proxies !! i.

Definition site_entry (claims : gmap str nat) (e : nat * SitePlan) : option (str * (Route * list Domain)) :=
  Some (site_name (sp_site e.2), (RoutePhp (sp_site e.2), won claims e.1 (sp_effective e.2))).
Definition proxy_entry (claims : gmap str nat) (offset : nat) (e : nat * ProxyPlan)
  : option (str * (Route * list Domain)) :=
  if pp_shadowed e.2 then None
  else Some (proxy_name (pp_proxy e.2),
             (RouteProxy (pp_proxy e.2), won claims (offset + e.1)%nat (pp_effective e.2))).

Lemma insert_site_plan_inserts claims : step_inserts (insert_site_plan claims) (site_entry claims).
Proof.
  intros r [i p] Hwf. simpl. unfold insert_site_plan. cbn [fst snd].
  set (w := won _ _ _). set (prim := choose_primary _ _ _).
  destruct (refines_all r Hwf (OpInsert (sp_site p) w prim)) as [H1 H2].
  pose proof (apply_op_config r (OpInsert (sp_site p) w prim)) as H3. simpl in *.
  destruct (insert_with_domains _ _ _ _) as [o r']. simpl in *.
  destruct (Spec.spec_insert _ _ _ _) as [o' st]. split; [done|]. split; [done|]. simpl. congruence.
Qed.

Lemma insert_proxy_plan_inserts claims n :
  step_inserts (insert_proxy_plan claims n) (proxy_entry claims n).
Proof.
  intros r [i p] Hwf. unfold insert_proxy_plan, proxy_entry. cbn [fst snd].
  destruct (pp_shadowed p); [done|]. set (w := won _ _ _). set (prim := choose_primary _ _ _).
  destruct (refines_all r Hwf (OpInsertProxy (pp_proxy p) w prim)) as [H1 H2].
  pose proof (apply_op_config r (OpInsertProxy (pp_proxy p) w prim)) as H3. simpl in *.
  destruct (insert_proxy_with_domains _ _ _ _) as [o r']. simpl in *.
  destruct (Spec.spec_insert _ _ _ _) as [o' st]. split; [done|]. split; [done|]. simpl. congruence.
Qed.

Lemma elem_of_won claims i eff d : d ∈ won claims i eff <-> d ∈ eff /\ claims !! Domain_str d = Some i.
Proof.
  unfold won. rewrite elem_of_bfilter, bool_decide_eq_true. tauto.
Qed.

Lemma won_owner plans proxies i n eff d :
  names_of plans proxies !! i = Some n -> d ∈ won (build_claims (claimants plans proxies)) i eff ->
  owner_name plans proxies d = Some n.
Proof.
  intros Hn [_ Hd]%elem_of_won. rewrite build_claims_spec in Hd. unfold owner_name. by rewrite Hd.
Qed.

Lemma names_of_site plans proxies i p :
  plans !! i = Some p -> names_of plans proxies !! i = Some (site_name (sp_site p)).
Proof.
  intros H. unfold names_of. apply lookup_app_l_Some. by rewrite list_lookup_fmap, H.
Qed.

Lemma names_of_proxy plans proxies j p :
  proxies !! j = Some p -> names_of plans proxies !! (length plans + j)%nat = Some (proxy_name (pp_proxy p)).
Proof.
  intros H. unfold names_of. rewrite lookup_app_r by (rewrite length_fmap; lia).
  rewrite length_fmap, list_lookup_fmap. replace (length plans + j - length plans)%nat with j by lia.
  by rewrite H.
Qed.

Lemma omap_site_names claims plans :
  (omap (site_entry claims) (enumerate plans)).*1 = (fun p => site_name (sp_site p)) <$> plans.
Proof.
  rewrite <- (enumerate_fmap_snd plans) at 2. induction (enumerate plans) as [|e l IH]; [done|].
  simpl. by f_equal.
Qed.

Lemma elem_of_proxy_names claims n l x :
  x ∈ (omap (proxy_entry claims n) l).*1 ->
  exists p, p ∈ l.*2 /\ pp_shadowed p = false /\ x = proxy_name (pp_proxy p).
Proof.
  rewrite list_elem_of_fmap. intros ([k v] & -> & ([i p] & Hin & He)%list_elem_of_omap).
  unfold proxy_entry in He. simpl in He. destruct (pp_shadowed p) eqn:Es; [done|]. injection He as <- <-.
  exists p. split; [|done]. apply list_elem_of_fmap. by exists (i, p).
Qed.

Lemma omap_proxy_names claims n l :
  NoDup ((fun p => proxy_name (pp_proxy p)) <$> l.*2) -> NoDup (omap (proxy_entry claims n) l).*1.
Proof.
  induction l as [|[i p] l IH]; [constructor|]. simpl. intros [Hn Hnd]%NoDup_cons.
  unfold proxy_entry at 1. simpl. destruct (pp_shadowed p); [by apply IH|]. simpl. apply NoDup_cons.
  split; [|by apply IH]. intros (q & Hq & _ & Hx)%elem_of_proxy_names.
  apply Hn. apply list_elem_of_fmap. by exists q.
Qed.

Section Build.
Context (cfg : Config) (sites : list Site).

Let plans := plan_sites cfg sites.
Let proxies := plan_proxies cfg plans.
Let cl := build_claims (claimants plans proxies).

(** The claimants the router ends with. *)
Definition planned : Spec.t :=
  list_to_map (omap (proxy_entry cl (length plans)) (enumerate proxies))
  ∪ list_to_map (omap (site_entry cl) (enumerate plans)).

Lemma attach_rules_claims r l :
  wf r -> wf (foldl (attach_rules cfg) r l) /\ claims (foldl (attach_rules cfg) r l) = claims r /\
  r_config (foldl (attach_rules cfg) r l) = r_config r.
Proof using.
  revert r; induction l as [|p l IH]; intros r Hwf; [done|]. cbn [foldl].
  assert (wf (attach_rules cfg r p) /\ claims (attach_rules cfg r p) = claims r /\
    r_config (attach_rules cfg r p) = r_config r) as (H1 & H2 & H3).
  { unfold attach_rules. repeat case_match; (split; [by destruct Hwf|done]). }
  destruct (IH _ H1) as (H4 & H5 & H6). by rewrite H5, H6.
Qed.

Lemma build_planned :
  wf (build cfg sites) /\ claims (build cfg sites) = planned /\ cfg_tld (r_config (build cfg sites)) = cf_tld cfg.
Proof using.
  unfold build. fold plans. fold proxies. fold cl.
  destruct (wf_new (with_tld (cf_tld cfg)) eq_refl) as [Hw0 Hc0].
  destruct (fold_inserts (insert_site_plan cl) (site_entry cl) (owner_name plans proxies) (enumerate plans)
    _ (insert_site_plan_inserts cl) Hw0) as (Hw1 & Hg1 & Ho1 & Hc1).
  { rewrite Hc0. intros n rt ds d Hn. by rewrite lookup_empty in Hn. }
  { rewrite omap_site_names. apply plan_sites_NoDup. }
  { intros e ([i p] & Hin & [= <-])%list_elem_of_omap. apply elem_of_enumerate in Hin. simpl.
    split; [by rewrite Hc0, lookup_empty|]. intros d. apply won_owner. by apply names_of_site. }
  rewrite Hc0, map_union_empty in Hc1.
  destruct (plan_proxies_ok cfg plans) as [Hnd Hsh].
  destruct (fold_inserts (insert_proxy_plan cl (length plans)) (proxy_entry cl (length plans))
    (owner_name plans proxies) (enumerate proxies) _ (insert_proxy_plan_inserts cl (length plans)) Hw1 Ho1)
    as (Hw2 & Hg2 & _ & Hc2).
  { apply omap_proxy_names. by rewrite enumerate_fmap_snd. }
  { intros e ([i p] & Hin & He)%list_elem_of_omap. apply elem_of_enumerate in Hin as Hi.
    unfold proxy_entry in He. simpl in He. destruct (pp_shadowed p) eqn:Es; [done|]. injection He as <-. simpl. split.
    - rewrite Hc1. apply not_elem_of_list_to_map_1. rewrite omap_site_names. apply Hsh; [|done].
      by eapply list_elem_of_lookup_2.
    - intros d. apply won_owner. by apply names_of_proxy. }
  destruct (attach_rules_claims _ plans Hw2) as (Hw3 & Hc3 & Hg3).
  split; [done|]. split; [by rewrite Hc3, Hc2, Hc1|]. by rewrite Hg3, Hg2, Hg1.
Qed.

Lemma planned_site i p :
  plans !! i = Some p ->
  planned !! site_name (sp_site p) = Some (RoutePhp (sp_site p), won cl i (sp_effective p)).
Proof using.
  intros Hi. unfold planned. rewrite lookup_union_r.
  - apply elem_of_list_to_map_1; [rewrite omap_site_names; apply plan_sites_NoDup|].
    apply list_elem_of_omap. exists (i, p). split; [by apply elem_of_enumerate|done].
  - apply not_elem_of_list_to_map_1. intros (q & Hq & Hs & Hx)%elem_of_proxy_names.
    rewrite enumerate_fmap_snd in Hq. destruct (plan_proxies_ok cfg plans) as [_ Hsh].
    apply (Hsh q Hq Hs). rewrite <- Hx. apply list_elem_of_fmap. exists p. split; [done|].
    by eapply list_elem_of_lookup_2.
Qed.

Lemma planned_proxy j p :
  proxies !! j = Some p -> pp_shadowed p = false ->
  planned !! proxy_name (pp_proxy p) =
  Some (RouteProxy (pp_proxy p), won cl (length plans + j) (pp_effective p)).
Proof using.
  intros Hj Hs. unfold planned. apply lookup_union_Some_l. apply elem_of_list_to_map_1.
  - apply omap_proxy_names. rewrite enumerate_fmap_snd. apply plan_proxies_ok.
  - apply list_elem_of_omap. exists (j, p). split; [by apply elem_of_enumerate|].
    unfold proxy_entry. simpl. by rewrite Hs.
Qed.

(** Every domain a claimant ends with is one the rule gave it. *)
Lemma planned_owner n rt ds d :
  planned !! n = Some (rt, ds) -> d ∈ ds -> owner_name plans proxies d = Some n.
Proof using.
  unfold planned. rewrite lookup_union_Some_raw. intros [H|[_ H]] Hd.
  - apply elem_of_list_to_map_2 in H. apply list_elem_of_omap in H as ([j p] & Hin & He).
    apply elem_of_enumerate in Hin. unfold proxy_entry in He. simpl in He.
    destruct (pp_shadowed p); [done|]. injection He as <- <- <-.
    eapply won_owner; [by apply names_of_proxy|exact Hd].
  - apply elem_of_list_to_map_2 in H. apply list_elem_of_omap in H as ([i p] & Hin & [= <- <- <-]).
    apply elem_of_enumerate in Hin. eapply won_owner; [by apply names_of_site|exact Hd].
Qed.

Lemma claim_spec_wants cs k i :
  claim_spec cs k = Some i -> exists c, cs !! i = Some c /\ c_eligible c = true /\ wants c k = true.
Proof using.
  unfold claim_spec. destruct (position (wants_explicitly k) cs) as [j|] eqn:E.
  - intros [= <-]. apply position_Some in E as (c & Hc & Hw). unfold wants_explicitly in Hw. bprop. eauto.
  - intros H. apply position_Some in H as (c & Hc & Hw). unfold wants_eligibly in Hw. bprop. eauto.
Qed.

Lemma wants_elem c d : wants c (Domain_str d) = true <-> d ∈ c_effective c.
Proof using.
  unfold wants. rewrite existsb_elem. unfold str_eqb. split.
  - intros (x & Hx & E). bprop. by apply Domain_str_inj in E as ->.
  - intros H. exists d. by rewrite bool_decide_true.
Qed.

Lemma owner_planned d n :
  owner_name plans proxies d = Some n -> exists rt ds, planned !! n = Some (rt, ds) /\ d ∈ ds.
Proof using.
  unfold owner_name. destruct (claim_spec (claimants plans proxies) (Domain_str d)) as [i|] eqn:E; [|done]. simpl.
  intros Hn. assert (cl !! Domain_str d = Some i) as Hcl by (unfold cl; by rewrite build_claims_spec).
  apply claim_spec_wants in E as (c & Hc & He & Hw). apply wants_elem in Hw.
  unfold claimants in Hc. apply lookup_app_Some in Hc as [Hc|[Hlen Hc]].
  - rewrite list_lookup_fmap in Hc. destruct (plans !! i) as [p|] eqn:Ep; [|done]. injection Hc as <-.
    rewrite (names_of_site _ _ _ _ Ep) in Hn. injection Hn as <-.
    exists (RoutePhp (sp_site p)), (won cl i (sp_effective p)). split; [by apply planned_site|].
    by apply elem_of_won.
  - rewrite length_fmap in Hlen, Hc. rewrite list_lookup_fmap in Hc.
    destruct (proxies !! (i - length plans)%nat) as [p|] eqn:Ep; [|done]. injection Hc as <-. simpl in He.
    apply negb_true_iff in He. pose proof (names_of_proxy plans proxies _ _ Ep) as Hn'.
    replace (length plans + (i - length plans))%nat with i in Hn' by lia. rewrite Hn' in Hn. injection Hn as <-.
    exists (RouteProxy (pp_proxy p)), (won cl i (pp_effective p)). split.
    + rewrite (planned_proxy _ _ Ep He). by replace (length plans + (i - length plans))%nat with i by lia.
    + by apply elem_of_won.
Qed.

Lemma build_owner d : domain_owner (build cfg sites) d = owner_name plans proxies d.
Proof using.
  destruct build_planned as (Hw & Hc & _). apply option_eq. intros n. rewrite (wf_owner _ Hw). split.
  - intros (ds & Hds & Hd). destruct (domains_route _ Hw _ _ Hds) as (rt & Hr).
    apply (planned_owner n rt ds); [|done]. rewrite <- Hc. by apply claims_lookup_Some.
  - intros (rt & ds & Hp & Hd)%owner_planned. rewrite <- Hc in Hp.
    apply claims_lookup_Some in Hp as [_ Hds]. eauto.
Qed.

Lemma build_route n : route_for (build cfg sites) n = fst <$> planned !! n.
Proof using.
  destruct build_planned as (Hw & Hc & _). rewrite <- Hc, claims_lookup.
  pose proof (claimant_domains _ Hw n) as Hd. destruct (route_for _ n) as [rt|]; [|done].
  destruct (Hd rt eq_refl) as (ds & ->). done.
Qed.

(** The sites of the router are the planned ones. *)
Lemma build_get n s : get (build cfg sites) n = Some s <-> exists p, p ∈ plans /\ sp_site p = s /\ site_name s = n.
Proof using.
  unfold get. split.
  - intros Hg. assert (route_for (build cfg sites) n = Some (RoutePhp s)) as Hr by (unfold route_for; by rewrite Hg).
    rewrite build_route in Hr. destruct (planned !! n) as [[rt ds]|] eqn:Hp; [|done]. injection Hr as ->.
    unfold planned in Hp. apply lookup_union_Some_raw in Hp as [Hp|[_ Hp]];
      apply elem_of_list_to_map_2, list_elem_of_omap in Hp as ([i p] & Hin & He); apply elem_of_enumerate in Hin.
    + unfold proxy_entry in He. simpl in He. by destruct (pp_shadowed p).
    + injection He as <- <- _. exists p. split; [by eapply list_elem_of_lookup_2|done].
  - intros (p & Hp & <- & <-). apply list_elem_of_lookup in Hp as [i Hi]. apply planned_site in Hi.
    pose proof (build_route (site_name (sp_site p))) as Hr. rewrite Hi in Hr. unfold route_for in Hr.
    destruct (r_sites _ !! _) as [x|]; [by injection Hr as ->|].
    by destruct (r_proxy_sites _ !! _).
Qed.

End Build.

(** C13. Building the router never refuses a claimant: every planned site and
    every proxy or project whose name no site has is routable, and each domain
    is owned by exactly the claimant the collision rule names; every host
    resolves through that ownership. *)
Theorem build_exact cfg sites :
  let plans := plan_sites cfg sites in
  let proxies := plan_proxies cfg plans in
  let r := build cfg sites in
  (forall p, p ∈ plans -> route_for r (site_name (sp_site p)) = Some (RoutePhp (sp_site p))) /\
  (forall p, p ∈ proxies -> pp_shadowed p = false ->
     route_for r (proxy_name (pp_proxy p)) = Some (RouteProxy (pp_proxy p))) /\
  (forall d, domain_owner r d =
     i ← claim_spec (claimants plans proxies) (Domain_str d); names_of plans proxies !! i) /\
  (forall host, resolve_route r host = Spec.spec_resolve_host (claims r) (Tld_str (cf_tld cfg)) host).
Proof.
  intros plans proxies r. split; [|split; [|split]].
  - intros p (i & Hi)%list_elem_of_lookup. unfold r. rewrite build_route. by rewrite (planned_site _ _ i).
  - intros p (j & Hj)%list_elem_of_lookup Hs. unfold r. rewrite build_route. by rewrite (planned_proxy _ _ j).
  - apply build_owner.
  - intros host. destruct (build_planned cfg sites) as (Hw & _ & Ht). rewrite <- Ht. by apply resolve_route_spec.
Qed.

(** ** Collisions *)

Lemma wanted_inner (idx : nat) (ds : list Domain) (m : gmap str (list nat)) (k : str) (i : nat) :
  i ∈ default [] (foldl (fun (m : gmap str (list nat)) d => <[Domain_str d := default [] (m !! Domain_str d) ++ [idx]]> m)
    m ds !! k) <->
  i ∈ default [] (m !! k) \/ (i = idx /\ exists d, d ∈ ds /\ Domain_str d = k).
Proof.
  revert m; induction ds as [|d ds IH]; intros m; simpl; [set_solver|]. rewrite IH, lookup_insert.
  case_decide as E; simpl; [subst|]; set_solver.
Qed.

Lemma wanted_spec cs k i :
  i ∈ default [] (wanted cs !! k) <-> exists c, cs !! i = Some c /\ wants c k = true.
Proof.
  unfold wanted. induction cs as [|c cs IH] using rev_ind.
  { simpl. rewrite lookup_empty. simpl. split; [by intros ?%elem_of_nil|by intros (c & Hc & _)]. }
  rewrite enumerate_snoc, foldl_app. cbn [foldl fst snd]. rewrite wanted_inner, IH. split.
  - intros [(x & Hx & Hw)|(-> & d & Hd & <-)].
    + exists x. split; [by apply lookup_app_l_Some|done].
    + exists c. split; [by rewrite list_lookup_middle|by apply wants_elem].
  - intros (x & [Hx|[Hlen Hx]]%lookup_app_Some & Hw); [left; eauto|]. right.
    destruct (i - length cs)%nat eqn:E; [|done]. injection Hx as <-. split; [lia|].
    unfold wants in Hw. apply existsb_elem in Hw as (d & Hd & Ek). unfold str_eqb in Ek. bprop. eauto.
Qed.

(** The collision report is sound: a reported collision is about one domain
    that its winner and every loser want, the winner is the claimant the rule
    gives that domain to, there is at least one loser, and no loser is that
    winning claimant. *)
Theorem collisions_sound cfg sites col (Hc : col ∈ collisions cfg sites) :
  let plans := plan_sites cfg sites in
  let cs := claimants plans (plan_proxies cfg plans) in
  col_losers col <> [] /\
  exists k w cw, claim_spec cs k = Some w /\ cs !! w = Some cw /\ c_label cw = col_winner col /\
    wants cw k = true /\
    forall l, l ∈ col_losers col -> exists i c, i <> w /\ cs !! i = Some c /\ c_label c = l /\ wants c k = true.
Proof.
  intros plans cs. unfold collisions in Hc. fold plans in Hc. fold cs in Hc.
  apply list_elem_of_omap in Hc as ([k idxs] & Hin%elem_of_btree_iter & He).
  unfold collision_of in He. destruct (length idxs <? 2)%nat; [done|].
  destruct (build_claims cs !! k) as [w|] eqn:Ew; cbn [mbind option_bind] in He; [|done].
  destruct (cs !! w) as [cw|] eqn:Ecw; cbn [fmap option_fmap option_map mbind option_bind] in He; [|done].
  destruct (is_empty _) eqn:El in He; [done|]. injection He as <-. simpl.
  apply is_empty_false in El. split; [done|]. rewrite build_claims_spec in Ew.
  exists k, w, cw. split; [done|]. split; [done|]. split; [done|]. split.
  - apply claim_spec_wants in Ew as (c & Hc' & _ & Hw). congruence.
  - intros l (i & Hi & Hl)%list_elem_of_omap. apply elem_of_bfilter in Hi as [Hne Hi].
    destruct (cs !! i) as [c|] eqn:Eci; [|done]. injection Hl as <-. exists i, c.
    apply negb_true_iff, Nat.eqb_neq in Hne. split; [done|]. split; [done|]. split; [done|].
    assert (i ∈ default [] (wanted cs !! k)) as Hw by by rewrite Hin.
    apply wanted_spec in Hw as (c' & Hc' & Hw). congruence.
Qed.

(** Two linked sites, the first of which adds the second one's apex. *)
Definition demo_conf : Config :=
  mkConf CURRENT_VERSION Tld_default DEFAULT_DNS_PORT DEFAULT_UPDATE_CHANNEL true false false
    DEFAULT_LAN_SETUP_PORT Ports_default PhpSection_default ∅ [] [] ∅ ∅ MailSection_default
    DumpsSection_default (mkTunnel ∅ ∅) (mkGroups [] ∅)
    (mkDomains {["blog"%str := mkDelta [mkDomain "shop"%str] [] None]} ∅ ∅) []
    (mkProxyRules ∅ ∅) (mkRouteRules ∅ ∅).
Definition demo_sites : list Site :=
  [demo_site; mkSite "shop"%str "/srv/shop"%str [] (mkPhp 8 3) false Linked false None None].

Lemma collisions_sound_witness :
  exists k w, claim_spec (claimants (plan_sites demo_conf demo_sites)
    (plan_proxies demo_conf (plan_sites demo_conf demo_sites))) k = Some w.
Proof.
  destruct (collisions_sound demo_conf demo_sites (mkCollision "blog"%str ["shop"%str]))
    as (_ & k & w & cw & H & _); [vm_compute; constructor|]. exists k, w. exact H.
Defined.
