(* ===== verification/Descriptor.v ===== *)
(** * The project descriptor [orcker.yml]

    [src/crates/orcker-config/src/orcker_yml.rs]: the strict reader of the flat
    v1 schema and its renderer.

    [well_formed] is what a descriptor in memory guarantees.  Reading gives only
    such descriptors, and reading a file whose significant lines are a
    descriptor's own gives it back, whatever unknown keys, comments, nested
    blocks and blank lines a newer version added around them. *)

From S2P Require Import Prelude RustStr RustText RustMap CoreError DnsLabel Php Site Settings Config SiteDomains.

Open Scope N_scope.

Definition FILE_NAME : str := "orcker.yml"%str.
Definition SCHEMA_VERSION : N := 1.
Definition KNOWN_DB_ENGINES : list str := ["postgres"%str; "mysql"%str].
Definition KNOWN_PRESETS : list str := ["reference"%str; "minimal"%str].
Definition KNOWN_KEYS : list str :=
  ["schema_version"%str; "site"%str; "php"%str; "db"%str; "preset"%str].

Record OrckerYml := mkYml {
  schema_version : N;
  yml_site : str;
  yml_php : PhpVersion;
  yml_db : str;
  yml_preset : str;
}.

Definition yml_err {A} (r : OrckerYmlErrorReason) : result ConfigError A := Err (ConfigOrckerYml r).
Definition invalid {A} (key value : str) : result ConfigError A := yml_err (InvalidValue key value).

Definition one_of (key value : str) (allowed : list str) : result ConfigError str :=
  if contains allowed value then Ok value else invalid key value.

Definition validated_site (site : str) : result ConfigError str :=
  match normalize_site_name site with Some s => Ok s | None => invalid "site"%str site end.

Definition OrckerYml_new (site : str) (php : PhpVersion) (db preset : str) : result ConfigError OrckerYml :=
  site ← validated_site site;
  db ← one_of "db"%str db KNOWN_DB_ENGINES;
  preset ← one_of "preset"%str preset KNOWN_PRESETS;
  Ok (mkYml SCHEMA_VERSION site php db preset).

Definition QUOTE : str := [34].
Definition APOS : str := [39].
(** One pair of enclosing quotes removed. *)
Definition strip_quotes (q value : str) : option str := v ← strip_prefix q value; strip_suffix q v.
Definition unquote (value : str) : str :=
  let value := trim value in
  match strip_quotes QUOTE value with
  | Some v => v
  | None => default value (strip_quotes APOS value)
  end.

(** One iteration of the reading loop, at a 0-based index. *)
Definition parse_line (found : smap) (e : nat * str) : result ConfigError smap :=
  let '(index, raw) := e in
  let trimmed := trim raw in
  if is_empty trimmed || starts_with "#" trimmed || starts_with "-" trimmed then Ok found
  else if starts_with " " raw || starts_with [9] raw then Ok found
  else match split_once ":" trimmed with
  | None => yml_err (Malformed (N.of_nat index + 1))
  | Some (key, value) =>
      let key := trim key in
      if negb (contains KNOWN_KEYS key) then Ok found
      else match found !! key with
      | Some _ => yml_err (DuplicateKey key)
      | None => Ok (<[key := unquote value]> found)
      end
  end.

Definition required (found : smap) (key : str) : result ConfigError str :=
  match found !! key with Some v => Ok v | None => yml_err (MissingKey key) end.

Definition parse (input : str) : result ConfigError OrckerYml :=
  found ← for_fold parse_line ∅ (enumerate (str_lines input));
  version_raw ← required found "schema_version"%str;
  version ← match parse_uint u32_max version_raw with
            | Some v => Ok v
            | None => invalid "schema_version"%str version_raw
            end;
  _ ← (if negb (version =? SCHEMA_VERSION) then yml_err (UnsupportedSchemaVersion version) else Ok tt);
  php_raw ← required found "php"%str;
  site_raw ← required found "site"%str;
  site ← validated_site site_raw;
  php ← match PhpVersion_from_str php_raw with Ok v => Ok v | Err _ => invalid "php"%str php_raw end;
  db_raw ← required found "db"%str;
  db ← one_of "db"%str db_raw KNOWN_DB_ENGINES;
  preset_raw ← required found "preset"%str;
  preset ← one_of "preset"%str preset_raw KNOWN_PRESETS;
  Ok (mkYml version site php db preset).

Definition render (y : OrckerYml) : str :=
  "schema_version: "%str ++ show_uint (schema_version y) ++ [NL] ++
  "site: "%str ++ yml_site y ++ [NL] ++
  "php: "%str ++ QUOTE ++ fmt (yml_php y) ++ QUOTE ++ [NL] ++
  "db: "%str ++ yml_db y ++ [NL] ++
  "preset: "%str ++ yml_preset y ++ [NL].

(** ** What a descriptor guarantees *)

Record well_formed (y : OrckerYml) : Prop := mkYmlOk {
  yo_version : schema_version y = SCHEMA_VERSION;
  yo_site : dns_label (yml_site y) = true;
  yo_php : php_in_range (yml_php y);
  yo_db : yml_db y ∈ KNOWN_DB_ENGINES;
  yo_preset : yml_preset y ∈ KNOWN_PRESETS;
}.

(** The lines a reader of v1 must not look at. *)
Definition ignorable (raw : str) : bool :=
  let trimmed := trim raw in
  is_empty trimmed || starts_with "#" trimmed || starts_with "-" trimmed
  || starts_with " " raw || starts_with [9] raw
  || match split_once ":" trimmed with
     | Some (key, _) => negb (contains KNOWN_KEYS (trim key))
     | None => false
     end.

(** The significant lines of a descriptor. *)
Definition yml_lines (y : OrckerYml) : list str :=
  ["schema_version: "%str ++ show_uint (schema_version y);
   "site: "%str ++ yml_site y;
   "php: "%str ++ QUOTE ++ fmt (yml_php y) ++ QUOTE;
   "db: "%str ++ yml_db y;
   "preset: "%str ++ yml_preset y].

(** ** Reading *)

Lemma ignorable_skips found e : ignorable e.2 = true -> parse_line found e = Ok found.
Proof.
  destruct e as [i raw]. unfold ignorable, parse_line. cbn [snd].
  destruct (is_empty _); [done|]. destruct (starts_with "#" _); [done|]. destruct (starts_with "-" _); [done|].
  destruct (starts_with " " raw); [done|]. destruct (starts_with [9] raw); [done|]. cbn [orb].
  destruct (split_once ":" _) as [[key value]|]; [|done]. by intros ->.
Qed.

Lemma fold_significant found l :
  for_fold parse_line found l = for_fold parse_line found (bfilter (fun e => negb (ignorable e.2)) l).
Proof.
  revert found; induction l as [|e l IH]; intros found; [done|]. cbn [bfilter for_fold].
  destruct (ignorable e.2) eqn:E; cbn [negb for_fold].
  - by rewrite ignorable_skips.
  - destruct (parse_line found e); [apply IH|done].
Qed.

(** A value the renderer writes: no whitespace at its ends. *)
Definition solid (v : str) : Prop := v <> [] /\ Forall (fun c => is_whitespace c = false) v.

Lemma solid_trim v : Forall (fun c => is_whitespace c = false) v -> trim v = v.
Proof.
  intros H. rewrite Forall_forall in H. apply trim_no_space; intros; subst; apply H; set_solver.
Qed.

Lemma trim_space_solid v : solid v -> trim (" "%str ++ v) = v.
Proof.
  intros [_ Hv]. unfold trim. change (drop_while is_whitespace (" "%str ++ v)) with (drop_while is_whitespace v).
  by apply solid_trim.
Qed.

Lemma parse_key_line found i key v :
  key ∈ KNOWN_KEYS -> solid v -> found !! key = None ->
  ignorable (key ++ ": "%str ++ v) = false /\
  parse_line found (i, key ++ ": "%str ++ v) = Ok (<[key := unquote (" "%str ++ v)]> found).
Proof.
  intros Hk [Hne Hv] Hf. set (raw := key ++ ": "%str ++ v).
  assert (exists c r, key = c :: r /\ is_whitespace c = false /\ c <> "#"%ch /\ c <> "-"%ch /\ c <> 9 /\
    ":"%ch ∉ key /\ trim key = key) as (c & r & Ec & Hc & H1 & H2 & H3 & Hcol & Htk).
  { unfold KNOWN_KEYS in Hk.
    repeat (apply elem_of_cons in Hk as [->|Hk];
      [eexists _, _; split; [reflexivity|]; repeat (split; [done|]); split;
       [apply (bool_decide_unpack _); vm_compute; exact I|reflexivity]|]).
    by apply elem_of_nil in Hk. }
  assert (trim raw = raw) as Ht.
  { apply trim_no_space; unfold raw.
    - rewrite Ec. by intros ? ? [= <- _].
    - intros r' c' E. rewrite Forall_forall in Hv. apply Hv.
      destruct (exists_last Hne) as (v' & x & ->). rewrite !app_assoc in E. apply app_inj_tail in E as [_ ->].
      set_solver. }
  assert (split_once ":" raw = Some (key, " "%str ++ v)) as Hs by (by apply split_once_complete).
  assert (contains KNOWN_KEYS key = true) as Hck by (by apply contains_spec).
  assert (forall d, d <> c -> starts_with [d] raw = false) as Hst.
  { intros d Hd. apply not_true_is_false. intros (t & Et)%starts_with_spec. unfold raw in Et. rewrite Ec in Et.
    by injection Et as -> _. }
  assert (is_empty raw = false) as He by (unfold raw; by rewrite Ec).
  split.
  - unfold ignorable. rewrite Ht, He, Hs, Htk, Hck, !Hst; [done|..]; try congruence.
    intros <-. done.
  - unfold parse_line. rewrite Ht, He, Hs, Htk, Hck, Hf, !Hst; [done|..]; try congruence.
    intros <-. done.
Qed.

Lemma quote_solid v : Forall (fun c => is_whitespace c = false) v -> solid (QUOTE ++ v ++ QUOTE).
Proof. intros H. split; [done|]. constructor; [done|]. apply Forall_app. split; [done|]. by repeat constructor. Qed.

Lemma unquote_quoted v :
  Forall (fun c => is_whitespace c = false) v -> unquote (" "%str ++ QUOTE ++ v ++ QUOTE) = v.
Proof.
  intros H. unfold unquote. rewrite trim_space_solid by by apply quote_solid.
  unfold strip_quotes. rewrite (proj2 (strip_prefix_Some QUOTE _ (v ++ QUOTE))) by done.
  cbn [mbind option_bind]. by rewrite (proj2 (strip_suffix_Some QUOTE _ v)).
Qed.

Lemma unquote_plain v : solid v -> 34 ∉ v -> 39 ∉ v -> unquote (" "%str ++ v) = v.
Proof.
  intros Hv Hq Ha. unfold unquote. rewrite trim_space_solid by done. unfold strip_quotes.
  assert (forall q, q ∉ v -> strip_prefix [q] v = None) as Hn.
  { intros q Hin. destruct (strip_prefix [q] v) as [r|] eqn:E; [|done]. apply strip_prefix_Some in E. set_solver. }
  unfold QUOTE, APOS. by rewrite !Hn.
Qed.

Lemma label_solid v : dns_label v = true -> solid v /\ 34 ∉ v /\ 39 ∉ v.
Proof.
  intros H. split; [split; [by apply dns_label_ne|]|by split; eapply dns_label_no_char].
  apply dns_label_chars in H. eapply Forall_impl; [exact H|]. intros c Hc. unfold label_char in Hc.
  unfold is_whitespace. char_unfold. lia.
Qed.

Lemma fmt_php_solid v : Forall (fun c => is_whitespace c = false) (fmt v : str).
Proof.
  assert (forall n, Forall (fun c => is_whitespace c = false) (show_uint n)) as Hd.
  { intros n. eapply Forall_impl; [apply show_uint_digits|]. intros c Hc. unfold is_whitespace. char_unfold. lia. }
  apply Forall_app. split; [apply Hd|]. apply Forall_app. split; [by repeat constructor|apply Hd].
Qed.

(** Reading the significant lines of a descriptor, at whatever line numbers. *)
Lemma read_yml_lines y l :
  well_formed y -> l.*2 = yml_lines y ->
  exists found, for_fold parse_line ∅ l = Ok found /\
    found !! "schema_version"%str = Some (show_uint (schema_version y)) /\
    found !! "site"%str = Some (yml_site y) /\ found !! "php"%str = Some (fmt (yml_php y)) /\
    found !! "db"%str = Some (yml_db y) /\ found !! "preset"%str = Some (yml_preset y).
Proof.
  intros [Hv Hs Hp Hd Hr] Hl.
  destruct l as [|[i1 l1] [|[i2 l2] [|[i3 l3] [|[i4 l4] [|[i5 l5] [|? ?]]]]]]; try discriminate Hl.
  assert (l1 = "schema_version"%str ++ ": "%str ++ show_uint (schema_version y)) as ->
    by exact (f_equal (fun l => nth 0 l []) Hl).
  assert (l2 = "site"%str ++ ": "%str ++ yml_site y) as -> by exact (f_equal (fun l => nth 1 l []) Hl).
  assert (l3 = "php"%str ++ ": "%str ++ (QUOTE ++ fmt (yml_php y) ++ QUOTE)) as ->
    by exact (f_equal (fun l => nth 2 l []) Hl).
  assert (l4 = "db"%str ++ ": "%str ++ yml_db y) as -> by exact (f_equal (fun l => nth 3 l []) Hl).
  assert (l5 = "preset"%str ++ ": "%str ++ yml_preset y) as -> by exact (f_equal (fun l => nth 4 l []) Hl).
  clear Hl. destruct (label_solid _ Hs) as (Hs1 & Hs2 & Hs3).
  assert (solid (yml_db y) /\ 34 ∉ yml_db y /\ 39 ∉ yml_db y) as (Hd1 & Hd2 & Hd3).
  { apply label_solid. unfold KNOWN_DB_ENGINES in Hd.
    repeat (apply elem_of_cons in Hd as [->|Hd]; [reflexivity|]). by apply elem_of_nil in Hd. }
  assert (solid (yml_preset y) /\ 34 ∉ yml_preset y /\ 39 ∉ yml_preset y) as (Hr1 & Hr2 & Hr3).
  { apply label_solid. unfold KNOWN_PRESETS in Hr.
    repeat (apply elem_of_cons in Hr as [->|Hr]; [reflexivity|]). by apply elem_of_nil in Hr. }
  pose proof (fmt_php_solid (yml_php y)) as Hf.
  rewrite Hv.
  cbn [for_fold].
  destruct (parse_key_line ∅ i1 "schema_version"%str (show_uint SCHEMA_VERSION)) as [_ E1];
    [by left|by split; [|repeat constructor]|done|].
  rewrite E1. clear E1. change (unquote (" "%str ++ show_uint SCHEMA_VERSION)) with (show_uint SCHEMA_VERSION).
  destruct (parse_key_line (<["schema_version"%str := show_uint SCHEMA_VERSION]> ∅) i2 "site"%str (yml_site y)) as [_ E2];
    [unfold KNOWN_KEYS; set_solver|done|by vm_compute|].
  rewrite E2, unquote_plain by done. clear E2. set (m2 := <["site"%str := yml_site y]> _).
  destruct (parse_key_line m2 i3 "php"%str (QUOTE ++ fmt (yml_php y) ++ QUOTE)) as [_ E3];
    [unfold KNOWN_KEYS; set_solver|by apply quote_solid|by unfold m2; rewrite !lookup_insert_ne by done|].
  rewrite E3, unquote_quoted by done. clear E3. set (m3 := <["php"%str := _]> m2).
  destruct (parse_key_line m3 i4 "db"%str (yml_db y)) as [_ E4];
    [unfold KNOWN_KEYS; set_solver|done|by unfold m3, m2; rewrite !lookup_insert_ne by done|].
  rewrite E4, unquote_plain by done. clear E4. set (m4 := <["db"%str := _]> m3).
  destruct (parse_key_line m4 i5 "preset"%str (yml_preset y)) as [_ E5];
    [unfold KNOWN_KEYS; set_solver|done|by unfold m4, m3, m2; rewrite !lookup_insert_ne by done|].
  rewrite E5, unquote_plain by done. clear E5. eexists. split; [reflexivity|].
  unfold m4, m3, m2. repeat split; repeat (rewrite lookup_insert_eq || rewrite lookup_insert_ne by done); done.
Qed.

(** ** The whole file *)

Lemma one_of_ok key v allowed w : one_of key v allowed = Ok w <-> w = v /\ v ∈ allowed.
Proof.
  unfold one_of. destruct (contains allowed v) eqn:E.
  - apply contains_spec in E. split; [by intros [= <-]|by intros [-> _]].
  - split; [done|]. intros [_ H]. apply contains_spec in H. congruence.
Qed.

Lemma validated_site_ok s n : validated_site s = Ok n -> dns_label n = true.
Proof.
  unfold validated_site. destruct (normalize_site_name s) eqn:E; [|done]. intros [= <-]. by eapply normalize_label.
Qed.

Lemma new_well_formed site php db preset y :
  php_in_range php -> OrckerYml_new site php db preset = Ok y -> well_formed y.
Proof.
  unfold OrckerYml_new. intros Hp. rewrite bind_ok. intros (s & Hs & H). rewrite bind_ok in H.
  destruct H as (d & Hd & H). rewrite bind_ok in H. destruct H as (r & Hr & [= <-]).
  apply validated_site_ok in Hs. apply one_of_ok in Hd as [-> Hd], Hr as [-> Hr]. by constructor.
Qed.

Lemma parse_well_formed input y : parse input = Ok y -> well_formed y.
Proof.
  unfold parse. rewrite bind_ok. intros (found & _ & H).
  rewrite bind_ok in H. destruct H as (vr & _ & H).
  rewrite bind_ok in H. destruct H as (v & _ & H).
  rewrite seq_ok in H. destruct H as [Hv H].
  rewrite bind_ok in H. destruct H as (pr & _ & H).
  rewrite bind_ok in H. destruct H as (sr & _ & H).
  rewrite bind_ok in H. destruct H as (s & Hs & H).
  rewrite bind_ok in H. destruct H as (p & Hp & H).
  rewrite bind_ok in H. destruct H as (dr & _ & H).
  rewrite bind_ok in H. destruct H as (d & Hd & H).
  rewrite bind_ok in H. destruct H as (rr & _ & H).
  rewrite bind_ok in H. destruct H as (r & Hr & [= <-]).
  destruct (v =? SCHEMA_VERSION) eqn:Ev; [|done]. apply N.eqb_eq in Ev.
  apply validated_site_ok in Hs. apply one_of_ok in Hd as [-> Hd], Hr as [-> Hr].
  destruct (PhpVersion_from_str pr) as [p'|] eqn:Ep; [|done]. injection Hp as ->.
  apply php_from_str_range in Ep. by constructor.
Qed.

Lemma bfilter_enumerate {A} (p : A -> bool) (l : list A) :
  (bfilter (fun e : nat * A => p e.2) (enumerate l)).*2 = bfilter p l.
Proof.
  rewrite <- (enumerate_fmap_snd l) at 2. induction (enumerate l) as [|[i x] r IH]; [done|].
  csimpl. destruct (p x); csimpl; by rewrite IH.
Qed.

Lemma parse_significant y input :
  well_formed y -> bfilter (fun l => negb (ignorable l)) (str_lines input) = yml_lines y -> parse input = Ok y.
Proof.
  intros Hy Hl. rewrite <- bfilter_enumerate in Hl.
  destruct (read_yml_lines y _ Hy Hl) as (found & Hf & H1 & H2 & H3 & H4 & H5).
  destruct Hy as [Hv Hs Hp Hd Hr].
  unfold parse. rewrite fold_significant, Hf. cbn [mbind result_bind]. unfold required.
  rewrite H1. cbn [mbind result_bind]. rewrite Hv, parse_show_uint by done. cbn [mbind result_bind].
  rewrite N.eqb_refl. cbn [negb mbind result_bind]. rewrite H3, H2. cbn [mbind result_bind].
  unfold validated_site. rewrite normalize_label_id by done. cbn [mbind result_bind].
  rewrite php_fmt_parse by done. cbn [mbind result_bind]. rewrite H4. cbn [mbind result_bind].
  rewrite (proj2 (one_of_ok _ _ _ _)) by done. cbn [mbind result_bind]. rewrite H5. cbn [mbind result_bind].
  rewrite (proj2 (one_of_ok _ _ _ (yml_preset y))) by done. cbn [mbind result_bind].
  rewrite <- Hv. by destruct y.
Qed.

Lemma known_key_solid key : key ∈ KNOWN_KEYS -> solid key.
Proof.
  intros Hk. unfold KNOWN_KEYS in Hk.
  repeat (apply elem_of_cons in Hk as [->|Hk]; [by split; [|repeat constructor]|]). by apply elem_of_nil in Hk.
Qed.

(** The lines the renderer writes are the descriptor's, and all significant. *)
Lemma render_lines y :
  well_formed y -> bfilter (fun l => negb (ignorable l)) (str_lines (render y)) = yml_lines y.
Proof.
  intros [Hv Hs Hp Hd Hr]. destruct (label_solid _ Hs) as (Hs1 & _ & _).
  assert (solid (yml_db y)) as Hd1.
  { unfold KNOWN_DB_ENGINES in Hd. repeat (apply elem_of_cons in Hd as [->|Hd]; [by repeat constructor|]).
    by apply elem_of_nil in Hd. }
  assert (solid (yml_preset y)) as Hr1.
  { unfold KNOWN_PRESETS in Hr. repeat (apply elem_of_cons in Hr as [->|Hr]; [by repeat constructor|]).
    by apply elem_of_nil in Hr. }
  pose proof (quote_solid _ (fmt_php_solid (yml_php y))) as Hf.
  assert (forall v c, solid v -> is_whitespace c = true -> c ∉ v) as Hws.
  { intros v c [_ H] Hc Hin. rewrite Forall_forall in H. apply H in Hin. congruence. }
  assert (solid (show_uint (schema_version y))) as Hv1 by (rewrite Hv; by repeat constructor).
  assert (forall l, l ∈ yml_lines y -> exists key v, l = key ++ ": "%str ++ v /\ key ∈ KNOWN_KEYS /\ solid v) as Hk.
  { unfold yml_lines. intros l Hl. repeat (apply elem_of_cons in Hl as [->|Hl]).
    - exists "schema_version"%str, (show_uint (schema_version y)). split; [done|]. split; [by left|done].
    - exists "site"%str, (yml_site y). split; [done|]. split; [unfold KNOWN_KEYS; set_solver|done].
    - exists "php"%str, (QUOTE ++ fmt (yml_php y) ++ QUOTE). split; [done|]. split; [unfold KNOWN_KEYS; set_solver|done].
    - exists "db"%str, (yml_db y). split; [done|]. split; [unfold KNOWN_KEYS; set_solver|done].
    - exists "preset"%str, (yml_preset y). split; [done|]. split; [unfold KNOWN_KEYS; set_solver|done].
    - by apply elem_of_nil in Hl. }
  assert (forall l c, l ∈ yml_lines y -> is_whitespace c = true -> c <> 32 -> c ∉ l) as Hclean.
  { intros l c (key & v & -> & Hkey & Hsol)%Hk Hc Hne. rewrite !not_elem_of_app. split; [|split].
    - apply known_key_solid in Hkey. by apply Hws.
    - intros Hin. repeat (apply elem_of_cons in Hin as [->|Hin]; [done|]). by apply elem_of_nil in Hin.
    - by apply Hws. }
  assert (render y = mjoin ((fun x => x ++ [NL]) <$> yml_lines y)) as ->.
  { unfold render, yml_lines. cbn [fmap list_fmap mjoin list_join]. by rewrite <- !app_assoc, app_nil_r. }
  unfold str_lines. rewrite (split_lines (fun x => x)), list_fmap_id.
  - rewrite lines_of_clean.
    + assert (forall ls, (forall l, l ∈ ls -> ignorable l = false) ->
        bfilter (fun l => negb (ignorable l)) ls = ls) as Hall.
      { induction ls as [|l ls IH]; intros H; [done|]. cbn [bfilter]. rewrite H by by left. cbn [negb].
        rewrite IH; [done|]. intros x Hx. apply H. by right. }
      apply Hall. intros l (key & v & -> & Hkey & Hsol)%Hk. by apply (parse_key_line ∅ 0%nat key v).
    + intros l Hl. by apply Hclean.
  - intros l Hl. by apply Hclean.
Qed.

(** The descriptor file: every descriptor built or read is well formed; a
    well-formed one, written, reads back as it was; and reading sees only the
    significant lines, so unknown keys, nested blocks, comments and blank lines
    anywhere in the file change nothing. *)
Theorem descriptor_roundtrip :
  (forall input y, parse input = Ok y -> well_formed y) /\
  (forall site php db preset y, php_in_range php -> OrckerYml_new site php db preset = Ok y -> well_formed y) /\
  (forall y, well_formed y <-> parse (render y) = Ok y) /\
  (forall y input, well_formed y ->
     bfilter (fun l => negb (ignorable l)) (str_lines input) = yml_lines y -> parse input = Ok y).
Proof.
  split; [exact parse_well_formed|]. split; [exact new_well_formed|]. split.
  - intros y. split; [|apply parse_well_formed]. intros H. apply parse_significant; [done|]. by apply render_lines.
  - intros y input. apply parse_significant.
Qed.

Lemma descriptor_roundtrip_witness :
  let input := "# made by orcker"%str ++ [NL] ++ "schema_version: 1"%str ++ [NL; NL] ++ "db: mysql"%str ++ [NL] ++
    "site: 'Blog'"%str ++ [NL] ++ "hooks:"%str ++ [NL] ++ "  - migrate"%str ++ [NL] ++
    "php: 8.4"%str ++ [NL] ++ "preset: minimal"%str in
  is_ok (parse input) = true /\ (forall y, parse input = Ok y -> well_formed y).
Proof. intros input. split; [by vm_compute|]. intros y. exact (proj1 descriptor_roundtrip input y). Defined.
