(* ===== verification/Frame.v ===== *)
(** * Length-prefixed frames

    [src/crates/orcker-ipc/src/frame.rs] (the codec and the stateful decoder)
    and the reading loop of [transport.rs] over it.  A byte is an [N] below
    256; payload bytes are opaque to the codec.

    - [FrameDecoder] is the source's record, poisoning included.
    - A reader is the list of what its successive [read] calls return; an
      exhausted list is end of file.
    - [Stream] is the contract: what a peer's whole byte stream means, stated
      without chunks or buffers.  [session_refines] shows that the decoder
      delivers exactly that however the bytes are split. *)

From S2P Require Import Prelude.

Open Scope N_scope.

Notation byte := N (only parsing).
Notation bytes := (list N).

Definition usize_max : N := u64_max.

Definition DEFAULT_MAX_FRAME : N := 16 * 1024 * 1024.
Definition HEADER_LEN : N := 4.

Inductive FrameError :=
| TooLarge (size max : N)
| PayloadOverflowsLengthPrefix (size : N).
#[export] Instance FrameError_eq_dec : EqDecision FrameError.
Proof. solve_decision. Defined.

(** The variants the reading loop can produce. *)
Inductive IpcError :=
| IpcFrame (e : FrameError)
| UnexpectedEof (buffered : N)
| IpcIo (kind : N).

(** [u32::to_be_bytes] and [u32::from_be_bytes] *)
Definition to_be_bytes (n : N) : bytes :=
  [N.shiftr n 24 mod 256; N.shiftr n 16 mod 256; N.shiftr n 8 mod 256; n mod 256].
Definition from_be_bytes (a b c d : byte) : N := a * 2 ^ 24 + b * 2 ^ 16 + c * 2 ^ 8 + d.

Definition check_payload_length (len max : N) : result FrameError N :=
  if max <? len then Err (TooLarge len max)
  else if u32_max <? len then Err (PayloadOverflowsLengthPrefix len) else Ok len.

Definition encode_frame (payload : bytes) (max : N) : result FrameError bytes :=
  len_u32 ← check_payload_length (vlen payload) max;
  Ok (to_be_bytes len_u32 ++ payload).

Record FrameDecoder := mkDecoder { d_buf : bytes; d_max : N; d_poisoned : option FrameError }.

Definition with_max (max : N) : FrameDecoder := mkDecoder [] max None.
Definition FrameDecoder_new : FrameDecoder := with_max DEFAULT_MAX_FRAME.
Definition buffered (d : FrameDecoder) : N := vlen (d_buf d).

Definition extend_from_slice (chunk : bytes) (d : FrameDecoder) : FrameDecoder :=
  match d_poisoned d with
  | Some _ => d
  | None => mkDecoder (d_buf d ++ chunk) (d_max d) None
  end.

(** [usize::saturating_add] *)
Definition saturating_add (a b : N) : N := N.min usize_max (a + b).

Definition next_frame (d : FrameDecoder) : result FrameError (option bytes) * FrameDecoder :=
  match d_poisoned d with
  | Some err => (Err err, d)
  | None =>
      match d_buf d with
      | a :: b :: c :: e :: _ =>
          let declared := from_be_bytes a b c e in
          if d_max d <? declared then
            let err := TooLarge declared (d_max d) in
            (Err err, mkDecoder [] (d_max d) (Some err))
          else
            let total := saturating_add HEADER_LEN declared in
            if vlen (d_buf d) <? total then (Ok None, d)
            else
              let consumed := take (N.to_nat total) (d_buf d) in
              let payload := drop (N.to_nat HEADER_LEN) consumed in
              (Ok (Some payload), mkDecoder (drop (N.to_nat total) (d_buf d)) (d_max d) None)
      | _ => (Ok None, d)
      end
  end.

(** ** The reading loop *)

Inductive read_result :=
| ReadData (chunk : bytes)
| ReadFailed (kind : N).

(** One [read_frame] call: what it returns, the reads left and the decoder. *)
Fixpoint read_frame (reads : list read_result) (d : FrameDecoder)
  : result IpcError (option bytes) * list read_result * FrameDecoder :=
  match next_frame d with
  | (Err e, d') => (Err (IpcFrame e), reads, d')
  | (Ok (Some payload), d') => (Ok (Some payload), reads, d')
  | (Ok None, d') =>
      let at_eof := (if buffered d' =? 0 then Ok None else Err (UnexpectedEof (buffered d'))) in
      match reads with
      | [] => (at_eof, [], d')
      | ReadFailed kind :: rest => (Err (IpcIo kind), rest, d')
      | ReadData chunk :: rest =>
          if vlen chunk =? 0 then (at_eof, rest, d')
          else read_frame rest (extend_from_slice chunk d')
      end
  end.

(** A connection reads frames until the stream ends or fails. *)
Fixpoint session (fuel : nat) (reads : list read_result) (d : FrameDecoder)
  : list bytes * option (result IpcError unit) :=
  match fuel with
  | O => ([], None)
  | S fuel =>
      match read_frame reads d with
      | (Ok (Some payload), reads', d') =>
          let '(ps, o) := session fuel reads' d' in (payload :: ps, o)
      | (Ok None, _, _) => ([], Some (Ok tt))
      | (Err e, _, _) => ([], Some (Err e))
      end
  end.

(** ** The contract *)

Module Stream.

(** The first frame of a byte stream that will not grow any more. *)
Definition first (max : N) (s : bytes) : result IpcError (option (bytes * bytes)) :=
  match s with
  | [] => Ok None
  | a :: b :: c :: e :: body =>
      let n := from_be_bytes a b c e in
      if max <? n then Err (IpcFrame (TooLarge n max))
      else if vlen body <? n then Err (UnexpectedEof (vlen s))
      else Ok (Some (take (N.to_nat n) body, drop (N.to_nat n) body))
  | _ => Err (UnexpectedEof (vlen s))
  end.

Fixpoint frames (fuel : nat) (max : N) (s : bytes) : list bytes * option (result IpcError unit) :=
  match fuel with
  | O => ([], None)
  | S fuel =>
      match first max s with
      | Ok (Some (p, rest)) => let '(ps, o) := frames fuel max rest in (p :: ps, o)
      | Ok None => ([], Some (Ok tt))
      | Err e => ([], Some (Err e))
      end
  end.

End Stream.

(** What the reads that succeed carry, when none fails or is empty. *)
Definition data_reads (chunks : list bytes) : list read_result := ReadData <$> chunks.

(** ** Headers *)

Lemma from_to_be n : n <= u32_max ->
  match to_be_bytes n with [a; b; c; d] => from_be_bytes a b c d = n | _ => False end.
Proof.
  unfold u32_max, from_be_bytes. intros Hn. cbn [to_be_bytes].
  rewrite !N.shiftr_div_pow2. change (2 ^ 24) with 16777216. change (2 ^ 16) with 65536. change (2 ^ 8) with 256.
  lia.
Qed.

Lemma from_be_bound a b c d :
  a < 256 -> b < 256 -> c < 256 -> d < 256 -> from_be_bytes a b c d <= u32_max.
Proof.
  unfold from_be_bytes, u32_max. change (2 ^ 24) with 16777216. change (2 ^ 16) with 65536.
  change (2 ^ 8) with 256. lia.
Qed.

Definition is_byte (b : N) : Prop := b < 256.
Notation all_bytes s := (Forall is_byte s).

(** ** One frame *)

Section Decoder.
Context (max : N).

(** An unpoisoned decoder holding [buf]. *)
Definition holding (buf : bytes) : FrameDecoder := mkDecoder buf max None.

Lemma extend_holding buf chunk : extend_from_slice chunk (holding buf) = holding (buf ++ chunk).
Proof using. done. Qed.

(** The decoder's answer is the stream's, whatever bytes are still to come. *)
Lemma next_frame_stream buf more :
  all_bytes buf ->
  match next_frame (holding buf) with
  | (Ok (Some p), d') => exists rest, d' = holding rest /\ all_bytes rest /\
      (length rest < length buf)%nat /\
      Stream.first max (buf ++ more) = Ok (Some (p, rest ++ more))
  | (Err e, _) => Stream.first max (buf ++ more) = Err (IpcFrame e)
  | (Ok None, d') => d' = holding buf /\
      Stream.first max buf = if buffered d' =? 0 then Ok None else Err (UnexpectedEof (buffered d'))
  end.
Proof using.
  intros Hb. unfold next_frame, holding, buffered. cbn [d_poisoned d_buf d_max].
  destruct buf as [|a [|b [|c [|e body]]]]; [done..|].
  cbn [app Stream.first]. inv Hb as [|? ? Ha Hb']. inv Hb' as [|? ? Hb Hb'']. inv Hb'' as [|? ? Hc Hb'].
  inv Hb' as [|? ? He Hbody].
  pose proof (from_be_bound a b c e Ha Hb Hc He) as Hn. set (n := from_be_bytes a b c e) in *.
  destruct (max <? n) eqn:Em; [done|].
  unfold saturating_add, HEADER_LEN, usize_max, u64_max. unfold u32_max in Hn.
  rewrite N.min_r by lia. rewrite !vlen_cons.
  destruct (1 + (1 + (1 + (1 + vlen body))) <? 4 + n) eqn:El.
  - split; [done|]. replace (vlen body <? n) with true by lia.
    cbn [d_buf]. rewrite !vlen_cons. by replace (1 + (1 + (1 + (1 + vlen body))) =? 0) with false by lia.
  - replace (N.to_nat (4 + n)) with (4 + N.to_nat n)%nat by lia. cbn [Nat.add take drop N.to_nat Pos.to_nat Pos.iter_op].
    exists (drop (N.to_nat n) body). split; [done|]. split; [by apply Forall_drop|].
    split; [rewrite length_drop; simpl; lia|].
    assert (N.to_nat n <= length body)%nat by (unfold vlen in El; lia).
    replace (vlen (body ++ more) <? n) with false by (rewrite vlen_app; unfold vlen; lia).
    do 3 f_equal; [by rewrite take_app_le|by rewrite drop_app_le].
Qed.

(** A call of the reading loop against the whole stream. *)
Lemma read_frame_stream chunks buf :
  all_bytes buf -> Forall (fun c => c <> [] /\ all_bytes c) chunks ->
  match read_frame (data_reads chunks) (holding buf) with
  | (Ok (Some p), reads', d') => exists chunks' rest, reads' = data_reads chunks' /\ d' = holding rest /\
      all_bytes rest /\ Forall (fun c => c <> [] /\ all_bytes c) chunks' /\
      Stream.first max (buf ++ concat chunks) = Ok (Some (p, rest ++ concat chunks')) /\
      (length (rest ++ concat chunks') < length (buf ++ concat chunks))%nat
  | (Ok None, _, _) => Stream.first max (buf ++ concat chunks) = Ok None
  | (Err e, _, _) => Stream.first max (buf ++ concat chunks) = Err e
  end.
Proof using.
  revert buf; induction chunks as [|c chunks IH]; intros buf Hb Hc; cbn [data_reads fmap list_fmap read_frame].
  - pose proof (next_frame_stream buf [] Hb) as H. destruct (next_frame _) as [[[p|]|e] d']; simpl in *.
    + destruct H as (rest & -> & Hr & Hl & Hf). exists [], rest. simpl. rewrite !app_nil_r in *. naive_solver.
    + destruct H as [-> H]. rewrite app_nil_r. destruct (buffered _ =? 0); done.
    + done.
  - pose proof (next_frame_stream buf (concat (c :: chunks)) Hb) as H.
    destruct (next_frame _) as [[[p|]|e] d'].
    + destruct H as (rest & -> & Hr & Hl & Hf). exists (c :: chunks), rest. split; [done|].
      split; [done|]. split; [done|]. split; [done|]. split; [done|]. rewrite !length_app. lia.
    + destruct H as [-> _]. apply Forall_cons in Hc as [[Hne Hcb] Hc].
      destruct (vlen c =? 0) eqn:E0; [by apply vlen_0 in E0|].
      rewrite extend_holding. cbn [concat]. rewrite app_assoc. apply IH; [|done].
      by apply Forall_app.
    + done.
Qed.

Lemma session_stream fuel chunks buf :
  all_bytes buf -> Forall (fun c => c <> [] /\ all_bytes c) chunks ->
  session fuel (data_reads chunks) (holding buf) = Stream.frames fuel max (buf ++ concat chunks).
Proof using.
  revert chunks buf; induction fuel as [|fuel IH]; intros chunks buf Hb Hc; [done|].
  cbn [session Stream.frames]. pose proof (read_frame_stream chunks buf Hb Hc) as H.
  destruct (read_frame _ _) as [[[[p|]|e] reads'] d'].
  - destruct H as (chunks' & rest & -> & -> & Hr & Hc' & -> & _). by rewrite IH.
  - by rewrite H.
  - by rewrite H.
Qed.

End Decoder.

(** ** The stream of a sender *)

Lemma first_encode max p s rest :
  encode_frame p max = Ok s -> Stream.first max (s ++ rest) = Ok (Some (p, rest)).
Proof.
  unfold encode_frame, check_payload_length.
  destruct (max <? vlen p) eqn:Em; [done|]. destruct (u32_max <? vlen p) eqn:Eu; [done|].
  cbn [mbind result_bind]. intros [= <-]. assert (vlen p <= u32_max) as Hu by lia.
  pose proof (from_to_be _ Hu) as Hn. unfold to_be_bytes in *. cbn [app Stream.first]. rewrite Hn, Em.
  replace (vlen (p ++ rest) <? vlen p) with false by (rewrite vlen_app; lia).
  unfold vlen. rewrite Nat2N.id, take_app_length, drop_app_length. done.
Qed.

Lemma first_shrinks max s p rest : Stream.first max s = Ok (Some (p, rest)) ->
  (length rest + 4 <= length s)%nat /\ vlen p <= max.
Proof.
  destruct s as [|a [|b [|c [|e body]]]]; [done..|]. cbn [Stream.first].
  set (n := from_be_bytes a b c e). destruct (max <? n) eqn:Em; [done|].
  destruct (vlen body <? n) eqn:El; [done|]. intros [= <- <-].
  unfold vlen in *. rewrite length_drop, length_take. simpl. lia.
Qed.

(** Enough fuel decides every stream. *)
Lemma frames_total max fuel s : (length s < fuel)%nat -> exists ps o, Stream.frames fuel max s = (ps, Some o).
Proof.
  revert s; induction fuel as [|fuel IH]; intros s Hl; [lia|]. cbn [Stream.frames].
  destruct (Stream.first max s) as [[[p rest]|]|e] eqn:E; [|eauto..].
  apply first_shrinks in E as [E _]. destruct (IH rest) as (ps & o & ->); [lia|]. eauto.
Qed.

Lemma frames_bounded max fuel s ps o : Stream.frames fuel max s = (ps, o) -> Forall (fun p => vlen p <= max) ps.
Proof.
  revert s ps; induction fuel as [|fuel IH]; intros s ps; cbn [Stream.frames]; [by intros [= <- _]|].
  destruct (Stream.first max s) as [[[p rest]|]|e] eqn:E; [|by intros [= <- _]..].
  apply first_shrinks in E as [_ E]. destruct (Stream.frames fuel max rest) as [ps' o'] eqn:Ef.
  intros [= <- <-]. constructor; [done|]. by eapply IH.
Qed.

Lemma frames_encoded max fuel ps ss rest :
  Forall2 (fun p s => encode_frame p max = Ok s) ps ss ->
  Stream.frames (length ps + fuel) max (concat ss ++ rest) =
  (ps ++ (Stream.frames fuel max rest).1, (Stream.frames fuel max rest).2).
Proof.
  induction 1 as [|p s ps ss Hp Hps IH]; [simpl; by destruct (Stream.frames _ _ _)|].
  cbn [length Nat.add Stream.frames concat]. rewrite <- app_assoc, (first_encode _ _ _ _ Hp), IH. done.
Qed.

Lemma encode_bytes max p s : encode_frame p max = Ok s -> all_bytes p -> all_bytes s.
Proof.
  unfold encode_frame. destruct (check_payload_length _ _) as [n|]; [|done]. cbn [mbind result_bind].
  intros [= <-] Hp. unfold to_be_bytes. repeat (constructor; [apply N.mod_lt; done|]). done.
Qed.

Lemma first_partial max p s partial missing :
  encode_frame p max = Ok s -> s = partial ++ missing -> missing <> [] ->
  Stream.first max partial = if vlen partial =? 0 then Ok None else Err (UnexpectedEof (vlen partial)).
Proof.
  unfold encode_frame, check_payload_length.
  destruct (max <? vlen p) eqn:Em; [done|]. destruct (u32_max <? vlen p) eqn:Eu; [done|].
  cbn [mbind result_bind]. intros [= <-] Hs Hne. assert (vlen p <= u32_max) as Hu by lia.
  pose proof (from_to_be _ Hu) as Hn. unfold to_be_bytes in *.
  destruct partial as [|a [|b [|c [|e body]]]]; [done..|]. injection Hs as <- <- <- <- Hp.
  cbn [Stream.first]. rewrite Hn, Em. rewrite Hp.
  replace (vlen body <? vlen (body ++ missing)) with true.
  - by rewrite !vlen_cons, (proj2 (N.eqb_neq _ 0)) by lia.
  - rewrite vlen_app. destruct missing; [done|]. rewrite vlen_cons. lia.
Qed.

Lemma concat_bytes chunks : all_bytes (concat chunks) -> Forall (fun c => c <> []) chunks ->
  Forall (fun c => c <> [] /\ all_bytes c) chunks.
Proof.
  induction chunks as [|c chunks IH]; intros H Hne; [constructor|]. simpl in H.
  apply Forall_app in H as [H1 H2]. inv Hne. constructor; [done|]. by apply IH.
Qed.

(** C38. However a byte stream is split into reads, a connection delivers the
    frames of the whole stream, in order, and then its end, truncation or
    oversized header; it always terminates and never delivers a frame above the
    cap. *)
Theorem session_refines max chunks
    (Hb : all_bytes (concat chunks)) (Hne : Forall (fun c => c <> []) chunks) :
  let s := concat chunks in
  exists ps o, session (S (length s)) (data_reads chunks) (with_max max) = (ps, Some o) /\
    Stream.frames (S (length s)) max s = (ps, Some o) /\ Forall (fun p => vlen p <= max) ps.
Proof.
  intros s. destruct (frames_total max (S (length s)) s) as (ps & o & Hf); [lia|].
  exists ps, o. split; [|split; [done|by eapply frames_bounded]].
  rewrite <- Hf. exact (session_stream max _ chunks [] (Forall_nil_2 _) (concat_bytes _ Hb Hne)).
Qed.

Lemma session_refines_witness :
  exists ps o, session 13 (data_reads [[0; 0]; [0; 2; 7]; [8; 0; 0; 0; 9; 1; 1]]) (with_max 8) = (ps, Some o) /\
    Stream.frames 13 8 [0; 0; 0; 2; 7; 8; 0; 0; 0; 9; 1; 1] = (ps, Some o) /\ Forall (fun p => vlen p <= 8) ps.
Proof.
  apply (session_refines 8 [[0; 0]; [0; 2; 7]; [8; 0; 0; 0; 9; 1; 1]]).
  - repeat constructor; done.
  - repeat constructor; done.
Defined.

(** Frames survive the wire: a sender's frames arrive as sent whatever the
    reads, and a stream cut inside a further frame is reported as truncated with
    the bytes already held. *)
Theorem frames_roundtrip max ps ss p s partial missing chunks
    (Hs : Forall2 (fun p s => encode_frame p max = Ok s) ps ss) (Hp : encode_frame p max = Ok s)
    (Hcut : s = partial ++ missing) (Hm : missing <> [])
    (Hb : Forall (fun p => all_bytes p) (p :: ps))
    (Hc : concat chunks = concat ss ++ partial) (Hne : Forall (fun c => c <> []) chunks) :
  session (S (length ps)) (data_reads chunks) (with_max max) =
  (ps, Some (if vlen partial =? 0 then Ok tt else Err (UnexpectedEof (vlen partial)))).
Proof.
  apply Forall_cons in Hb as [Hbp Hbs].
  assert (all_bytes (concat chunks)) as Hall.
  { rewrite Hc. apply Forall_app. split.
    - apply Forall_concat. clear -Hs Hbs. induction Hs; [constructor|]. inv Hbs.
      constructor; [by eapply encode_bytes|auto].
    - pose proof (encode_bytes _ _ _ Hp Hbp) as H. rewrite Hcut in H. by apply Forall_app in H as [H _]. }
  rewrite (session_stream max _ chunks [] (Forall_nil_2 _) (concat_bytes _ Hall Hne)). cbn [app].
  rewrite Hc. replace (S (length ps)) with (length ps + 1)%nat by lia.
  rewrite (frames_encoded _ _ _ _ _ Hs). cbn [Stream.frames].
  rewrite (first_partial _ _ _ _ _ Hp Hcut Hm). destruct (vlen partial =? 0); simpl; by rewrite app_nil_r.
Qed.

Lemma frames_roundtrip_witness :
  session 2 (data_reads [[0; 0; 0]; [2; 7; 8; 0]; [0; 0]]) (with_max 8) =
  ([[7; 8]], Some (Err (UnexpectedEof 3))).
Proof.
  apply (frames_roundtrip 8 [[7; 8]] [[0; 0; 0; 2; 7; 8]] [5] [0; 0; 0; 1; 5] [0; 0; 0] [1; 5]).
  - repeat constructor.
  - done.
  - done.
  - done.
  - repeat constructor; done.
  - done.
  - repeat constructor; done.
Defined.
