(* ===== verification/Ipc.v ===== *)
(** * The IPC messages the daemon acts on

    [src/crates/orcker-ipc/src/request.rs] (the client request envelope, every
    variant), the error codes of [response.rs] and the release channel of
    [update.rs].  The wire encoding (serde, JSON) is not modelled. *)

From S2P Require Import Prelude RustStr.

Open Scope N_scope.

Inductive Channel := Stable | Edge.

Notation JobId := str (only parsing).
Notation PathBuf := str (only parsing).

Inductive Request :=
| Ping
| ListSites
| Park (path : PathBuf)
| Link (name : str) (path : PathBuf)
| ListProjects
| LinkProject (path : PathBuf) (name : option str) (port : option N)
| Unlink (name : str)
| ListParked
| Unpark (path : str)
| ReqSetSecure (name : str) (secure : bool)
| SetWebRoot (name : str) (path : option str)
| AddDomain (name domain : str)
| RemoveDomain (name domain : str)
| SetPrimaryDomain (name domain : str)
| ResetDomains (name : str)
| AddProxy (name url : str)
| RemoveProxy (name : str)
| AddProxyRule (site prefix url : str)
| RemoveProxyRule (site prefix : str)
| ListProxies
| DaemonInfo
| Status
| EngineStatus
| Diagnose
| DoctorFix
| RestartDaemon
| ListMails
| GetMail (id : str)
| ClearMails
| DeleteMails (ids : list str)
| MarkMailsRead (ids : list str)
| SetMailPort (port : N)
| SetFallbackPorts (http https : N)
| SetDnsPort (port : N)
| SetMailEnabled (enabled : bool)
| ListTools
| InstallTool (tool : str)
| UninstallTool (tool : str)
| InstallToolStreamed (tool : str)
| JobStatus (job_id : JobId) (cursor : N)
| JobCancel (job_id : JobId)
| CheckUpdate (channel : option Channel)
| CachedUpdateStatus
| SetUpdateChannel (channel : Channel)
| StageUpdate (channel : option Channel)
| InstallCloudflaredStreamed
| StartQuickTunnel (site : str)
| StopTunnel (site : str)
| TunnelStatus
| CloudflaredLogin
| CreateNamedTunnel (name : str)
| ListNamedTunnels
| RouteTunnelDns (tunnel hostname : str)
| SetSiteTunnel (site : str) (hostname : option str)
| StartNamedTunnel
| StopNamedTunnel
| DeleteNamedTunnel (name : str)
| ListGroups
| CreateGroup (name : str)
| DeleteGroup (name : str)
| SetGroupOrder (order : list str)
| SetSiteGroup (site : str) (group : option str)
| RenameGroup (from to : str)
| SetSymlinkProtection (enabled : bool)
| ReqSetFrontController (name : str) (enabled : bool)
| SetMcpEnabled (enabled : bool)
| SetLanEnabled (enabled : bool)
| MintRemoteSetupCode
| TrustBrowsers (uninstall : bool)
| AddRouteRule (site prefix target : str)
| RemoveRouteRule (site prefix : str)
| ListRoutes
| Hello (version : N).

Inductive ErrorCode :=
| ErrNotFound
| ErrAlreadyExists
| ErrInvalidPath
| ErrPortInUse
| ErrExtensionLoadFailed
| ErrPortReserved
| ErrPortRangeExhausted
| ErrSiteNotFound
| ErrSiteNotLaravel
| ErrUnknownServiceType
| ErrInstanceAlreadyExists
| ErrLanNotReady
| ErrLegacyRestricted
| ErrInternal
| ErrVersionMismatch.
#[export] Instance ErrorCode_eq_dec : EqDecision ErrorCode.
Proof. solve_decision. Defined.
