(* ===== verification/Mutate.v ===== *)
(** * Configuration mutations

    [src/bin/orckerd/src/mutate.rs]: how each mutation request changes the
    configuration.  A handler is a function from the configuration to its result
    and the configuration it leaves, also on the error paths; the pre-mutation
    router is an argument, as in the source.

    An error message is modelled by its format and its arguments ([Message]);
    the summaries are the source's strings. *)

From stdpp Require Import sorting.
From S2P Require Import Prelude RustStr RustMap RustPath CoreError DnsLabel Tld Domain Php Site Proxy Router Project Settings Config Ipc SiteDomains.

Open Scope N_scope.

(** ** Assigning one field of a configuration *)

Definition put_dns_port (x : N) (c : Config) : Config :=
  mkConf (cf_version c) (cf_tld c) x (cf_update_channel c) (cf_symlink_protection c) (cf_mcp_enabled c)
    (cf_lan_enabled c) (cf_lan_setup_port c) (cf_ports c) (cf_php c) (cf_parked c) (cf_linked c)
    (cf_projects c) (cf_overrides c) (cf_services c) (cf_mail c) (cf_dumps c) (cf_tunnel c) (cf_groups
    c) (cf_domains c) (cf_proxies c) (cf_proxy_rules c) (cf_route_rules c).
Definition put_update_channel (x : str) (c : Config) : Config :=
  mkConf (cf_version c) (cf_tld c) (cf_dns_port c) x (cf_symlink_protection c) (cf_mcp_enabled c)
    (cf_lan_enabled c) (cf_lan_setup_port c) (cf_ports c) (cf_php c) (cf_parked c) (cf_linked c)
    (cf_projects c) (cf_overrides c) (cf_services c) (cf_mail c) (cf_dumps c) (cf_tunnel c) (cf_groups
    c) (cf_domains c) (cf_proxies c) (cf_proxy_rules c) (cf_route_rules c).
Definition put_symlink_protection (x : bool) (c : Config) : Config :=
  mkConf (cf_version c) (cf_tld c) (cf_dns_port c) (cf_update_channel c) x (cf_mcp_enabled c)
    (cf_lan_enabled c) (cf_lan_setup_port c) (cf_ports c) (cf_php c) (cf_parked c) (cf_linked c)
    (cf_projects c) (cf_overrides c) (cf_services c) (cf_mail c) (cf_dumps c) (cf_tunnel c) (cf_groups
    c) (cf_domains c) (cf_proxies c) (cf_proxy_rules c) (cf_route_rules c).
Definition put_mcp_enabled (x : bool) (c : Config) : Config :=
  mkConf (cf_version c) (cf_tld c) (cf_dns_port c) (cf_update_channel c) (cf_symlink_protection c) x
    (cf_lan_enabled c) (cf_lan_setup_port c) (cf_ports c) (cf_php c) (cf_parked c) (cf_linked c)
    (cf_projects c) (cf_overrides c) (cf_services c) (cf_mail c) (cf_dumps c) (cf_tunnel c) (cf_groups
    c) (cf_domains c) (cf_proxies c) (cf_proxy_rules c) (cf_route_rules c).
Definition put_lan_enabled (x : bool) (c : Config) : Config :=
  mkConf (cf_version c) (cf_tld c) (cf_dns_port c) (cf_update_channel c) (cf_symlink_protection c)
    (cf_mcp_enabled c) x (cf_lan_setup_port c) (cf_ports c) (cf_php c) (cf_parked c) (cf_linked c)
    (cf_projects c) (cf_overrides c) (cf_services c) (cf_mail c) (cf_dumps c) (cf_tunnel c) (cf_groups
    c) (cf_domains c) (cf_proxies c) (cf_proxy_rules c) (cf_route_rules c).
Definition put_ports (x : Ports) (c : Config) : Config :=
  mkConf (cf_version c) (cf_tld c) (cf_dns_port c) (cf_update_channel c) (cf_symlink_protection c)
    (cf_mcp_enabled c) (cf_lan_enabled c) (cf_lan_setup_port c) x (cf_php c) (cf_parked c) (cf_linked c)
    (cf_projects c) (cf_overrides c) (cf_services c) (cf_mail c) (cf_dumps c) (cf_tunnel c) (cf_groups
    c) (cf_domains c) (cf_proxies c) (cf_proxy_rules c) (cf_route_rules c).
Definition put_parked (x : gset str) (c : Config) : Config :=
  mkConf (cf_version c) (cf_tld c) (cf_dns_port c) (cf_update_channel c) (cf_symlink_protection c)
    (cf_mcp_enabled c) (cf_lan_enabled c) (cf_lan_setup_port c) (cf_ports c) (cf_php c) x (cf_linked c)
    (cf_projects c) (cf_overrides c) (cf_services c) (cf_mail c) (cf_dumps c) (cf_tunnel c) (cf_groups
    c) (cf_domains c) (cf_proxies c) (cf_proxy_rules c) (cf_route_rules c).
Definition put_linked (x : list Site) (c : Config) : Config :=
  mkConf (cf_version c) (cf_tld c) (cf_dns_port c) (cf_update_channel c) (cf_symlink_protection c)
    (cf_mcp_enabled c) (cf_lan_enabled c) (cf_lan_setup_port c) (cf_ports c) (cf_php c) (cf_parked c) x
    (cf_projects c) (cf_overrides c) (cf_services c) (cf_mail c) (cf_dumps c) (cf_tunnel c) (cf_groups
    c) (cf_domains c) (cf_proxies c) (cf_proxy_rules c) (cf_route_rules c).
Definition put_projects (x : list ContainerProject) (c : Config) : Config :=
  mkConf (cf_version c) (cf_tld c) (cf_dns_port c) (cf_update_channel c) (cf_symlink_protection c)
    (cf_mcp_enabled c) (cf_lan_enabled c) (cf_lan_setup_port c) (cf_ports c) (cf_php c) (cf_parked c)
    (cf_linked c) x (cf_overrides c) (cf_services c) (cf_mail c) (cf_dumps c) (cf_tunnel c) (cf_groups
    c) (cf_domains c) (cf_proxies c) (cf_proxy_rules c) (cf_route_rules c).
Definition put_overrides (x : gmap str SiteOverride) (c : Config) : Config :=
  mkConf (cf_version c) (cf_tld c) (cf_dns_port c) (cf_update_channel c) (cf_symlink_protection c)
    (cf_mcp_enabled c) (cf_lan_enabled c) (cf_lan_setup_port c) (cf_ports c) (cf_php c) (cf_parked c)
    (cf_linked c) (cf_projects c) x (cf_services c) (cf_mail c) (cf_dumps c) (cf_tunnel c) (cf_groups c)
    (cf_domains c) (cf_proxies c) (cf_proxy_rules c) (cf_route_rules c).
Definition put_mail (x : MailSection) (c : Config) : Config :=
  mkConf (cf_version c) (cf_tld c) (cf_dns_port c) (cf_update_channel c) (cf_symlink_protection c)
    (cf_mcp_enabled c) (cf_lan_enabled c) (cf_lan_setup_port c) (cf_ports c) (cf_php c) (cf_parked c)
    (cf_linked c) (cf_projects c) (cf_overrides c) (cf_services c) x (cf_dumps c) (cf_tunnel c)
    (cf_groups c) (cf_domains c) (cf_proxies c) (cf_proxy_rules c) (cf_route_rules c).
Definition put_tunnel (x : TunnelSection) (c : Config) : Config :=
  mkConf (cf_version c) (cf_tld c) (cf_dns_port c) (cf_update_channel c) (cf_symlink_protection c)
    (cf_mcp_enabled c) (cf_lan_enabled c) (cf_lan_setup_port c) (cf_ports c) (cf_php c) (cf_parked c)
    (cf_linked c) (cf_projects c) (cf_overrides c) (cf_services c) (cf_mail c) (cf_dumps c) x (cf_groups
    c) (cf_domains c) (cf_proxies c) (cf_proxy_rules c) (cf_route_rules c).
Definition put_groups (x : GroupsSection) (c : Config) : Config :=
  mkConf (cf_version c) (cf_tld c) (cf_dns_port c) (cf_update_channel c) (cf_symlink_protection c)
    (cf_mcp_enabled c) (cf_lan_enabled c) (cf_lan_setup_port c) (cf_ports c) (cf_php c) (cf_parked c)
    (cf_linked c) (cf_projects c) (cf_overrides c) (cf_services c) (cf_mail c) (cf_dumps c) (cf_tunnel
    c) x (cf_domains c) (cf_proxies c) (cf_proxy_rules c) (cf_route_rules c).
Definition put_domains (x : DomainsSection) (c : Config) : Config :=
  mkConf (cf_version c) (cf_tld c) (cf_dns_port c) (cf_update_channel c) (cf_symlink_protection c)
    (cf_mcp_enabled c) (cf_lan_enabled c) (cf_lan_setup_port c) (cf_ports c) (cf_php c) (cf_parked c)
    (cf_linked c) (cf_projects c) (cf_overrides c) (cf_services c) (cf_mail c) (cf_dumps c) (cf_tunnel
    c) (cf_groups c) x (cf_proxies c) (cf_proxy_rules c) (cf_route_rules c).
Definition put_proxies (x : list ProxySite) (c : Config) : Config :=
  mkConf (cf_version c) (cf_tld c) (cf_dns_port c) (cf_update_channel c) (cf_symlink_protection c)
    (cf_mcp_enabled c) (cf_lan_enabled c) (cf_lan_setup_port c) (cf_ports c) (cf_php c) (cf_parked c)
    (cf_linked c) (cf_projects c) (cf_overrides c) (cf_services c) (cf_mail c) (cf_dumps c) (cf_tunnel
    c) (cf_groups c) (cf_domains c) x (cf_proxy_rules c) (cf_route_rules c).
Definition put_proxy_rules (x : ProxyRulesSection) (c : Config) : Config :=
  mkConf (cf_version c) (cf_tld c) (cf_dns_port c) (cf_update_channel c) (cf_symlink_protection c)
    (cf_mcp_enabled c) (cf_lan_enabled c) (cf_lan_setup_port c) (cf_ports c) (cf_php c) (cf_parked c)
    (cf_linked c) (cf_projects c) (cf_overrides c) (cf_services c) (cf_mail c) (cf_dumps c) (cf_tunnel
    c) (cf_groups c) (cf_domains c) (cf_proxies c) x (cf_route_rules c).
Definition put_route_rules (x : RouteRulesSection) (c : Config) : Config :=
  mkConf (cf_version c) (cf_tld c) (cf_dns_port c) (cf_update_channel c) (cf_symlink_protection c)
    (cf_mcp_enabled c) (cf_lan_enabled c) (cf_lan_setup_port c) (cf_ports c) (cf_php c) (cf_parked c)
    (cf_linked c) (cf_projects c) (cf_overrides c) (cf_services c) (cf_mail c) (cf_dumps c) (cf_tunnel
    c) (cf_groups c) (cf_domains c) (cf_proxies c) (cf_proxy_rules c) x.

(** ** Errors *)

Inductive Message :=
| MsgNoSite (name : str)                      (* no site named {} *)
| MsgNoSiteButProxy (name : str)              (* no site named {} ({} is a proxy - ...) *)
| MsgUnsupported
| MsgRequiresPath (command : str)             (* {} requires a path *)
| MsgInvalidSiteName (e : CoreError)
| MsgAlreadyLinked (name : str)
| MsgParkedNotLinked (name : str)
| MsgRoutingLoop (tld : str)
| MsgInvalidTarget (e : CoreError)
| MsgCore (e : CoreError)                     (* {} *)
| MsgSiteOrProxyExists (name : str)
| MsgAlreadyRoutes (fqdn owner : str)         (* {} already routes to {} *)
| MsgNoProxy (name : str)
| MsgInvalidPrefix (e : CoreError)
| MsgRuleExists (name prefix : str)
| MsgNoRule (name prefix : str)
| MsgInvalidRoute (e : CoreError)
| MsgRouteExists (name prefix : str)
| MsgNoRoute (name prefix : str)
| MsgInvalidDomain (e : CoreError)
| MsgNotADomain (fqdn name : str)             (* {} is not a domain of {} *)
| MsgKeepOneExact (name : str)
| MsgPrimaryWildcard
| MsgGroupEmpty
| MsgGroupReserved
| MsgGroupExists (name : str)
| MsgGroupOrder
| MsgNoGroup (name : str).

Inductive MutateError :=
| NotFound (m : Message)
| AlreadyExists (m : Message)
| Invalid (m : Message).

Record Applied := mkApplied { summary : str }.

Definition error_code (e : MutateError) : ErrorCode :=
  match e with
  | NotFound _ => ErrNotFound
  | AlreadyExists _ => ErrAlreadyExists
  | Invalid _ => ErrInvalidPath
  end.

(** A handler's result and the configuration it leaves. *)
Notation outcome := (result MutateError Applied * Config)%type.
Definition applied (s : str) (c : Config) : outcome := (Ok (mkApplied s), c).

(** [{}] of a [bool] *)
Definition show_bool (b : bool) : str := if b then "true"%str else "false"%str.

(** [iter_mut().find(p)] and an assignment through it. *)
Fixpoint update_first {A} (p : A -> bool) (f : A -> A) (l : list A) : list A :=
  match l with
  | [] => []
  | x :: r => if p x then f x :: r else x :: update_first p f r
  end.

Definition override_key (s : Site) : str := site_document_root s.

Definition has_linked (c : Config) (name : str) : bool :=
  existsb (fun s => str_eqb (site_name s) name) (cf_linked c).
Definition has_proxy (c : Config) (name : str) : bool :=
  existsb (fun p => str_eqb (proxy_name p) name) (cf_proxies c).

Definition not_found_site (c : Config) (name_lc : str) : MutateError :=
  if has_proxy c name_lc then NotFound (MsgNoSiteButProxy name_lc) else NotFound (MsgNoSite name_lc).

(** ** Parking and linking *)

Definition apply_park (canonical : option str) (c : Config) : outcome :=
  match canonical with
  | None => (Err (Invalid (MsgRequiresPath "park"%str)), c)
  | Some stored =>
      applied (if bool_decide (stored ∈ cf_parked c) then "already parked "%str ++ stored
               else "parked "%str ++ stored)
        (put_parked ({[stored]} ∪ cf_parked c) c)
  end.

(** [if let Some(v) = from.remove(k) { to.insert(k', v); }] *)
Definition move_entry {A} (k k' : str) (from to : gmap str A) : gmap str A * gmap str A :=
  match from !! k with
  | Some v => (delete k from, <[k' := v]> to)
  | None => (from, to)
  end.

Definition promote (docroot name : str) (c : Config) : Config :=
  let d := cf_domains c in
  let md := move_entry docroot name (domains_parked d) (domains_linked d) in
  let c := put_domains (mkDomains md.2 md.1 (domains_proxy d)) c in
  let p := cf_proxy_rules c in
  let mp := move_entry docroot name (proxy_rules_parked p) (proxy_rules_linked p) in
  let c := put_proxy_rules (mkProxyRules mp.2 mp.1) c in
  let u := cf_route_rules c in
  let mu := move_entry docroot name (route_rules_parked u) (route_rules_linked u) in
  put_route_rules (mkRouteRules mu.2 mu.1) c.

Definition apply_link (name : str) (canonical : option str) (default_php : PhpVersion) (c : Config) : outcome :=
  match canonical with
  | None => (Err (Invalid (MsgRequiresPath "link"%str)), c)
  | Some path =>
      match Site_linked name path default_php with
      | Err e => (Err (Invalid (MsgInvalidSiteName e)), c)
      | Ok site =>
          let name_lc := site_name site in
          if has_linked c name_lc then (Err (AlreadyExists (MsgAlreadyLinked name_lc)), c)
          else
            let c := promote (override_key site) name_lc c in
            applied ("linked "%str ++ name_lc) (put_linked (cf_linked c ++ [site]) c)
      end
  end.

Definition is_under_root (docroot root : str) : bool :=
  if str_eqb docroot root then true
  else match strip_prefix root docroot with Some rest => starts_with "/" rest | None => false end.

(** [map.retain(|k, _| keep(k))] *)
Definition retain_keys {A} (keep : str -> bool) (m : gmap str A) : gmap str A :=
  filter (fun e : str * A => keep e.1 = true) m.

Definition apply_unpark (path : str) (c : Config) : outcome :=
  let removed := bool_decide (path ∈ cf_parked c) in
  let keep := fun docroot => negb (is_under_root docroot path) in
  let c := put_parked (cf_parked c ∖ {[path]}) c in
  let d := cf_domains c in
  let c := put_domains (mkDomains (domains_linked d) (retain_keys keep (domains_parked d)) (domains_proxy d)) c in
  let p := cf_proxy_rules c in
  let c := put_proxy_rules (mkProxyRules (proxy_rules_linked p) (retain_keys keep (proxy_rules_parked p))) c in
  let r := cf_route_rules c in
  let c := put_route_rules (mkRouteRules (route_rules_linked r) (retain_keys keep (route_rules_parked r))) c in
  applied (if removed then "un-parked "%str ++ path else path ++ " was not parked"%str) c.

Definition parent_is_parked_root (c : Config) (docroot : str) : bool :=
  match path_parent docroot with Some parent => bool_decide (parent ∈ cf_parked c) | None => false end.

(** [if let Some(v) = from.remove(k) { if reparks { to.insert(k', v); } }] *)
Definition demote_entry {A} (reparks : bool) (k k' : str) (from to : gmap str A) : gmap str A * gmap str A :=
  match from !! k with
  | Some v => (delete k from, if reparks then <[k' := v]> to else to)
  | None => (from, to)
  end.

Definition apply_unlink (r : SiteRouter) (name : str) (c : Config) : outcome :=
  let name_lc := to_ascii_lowercase name in
  match find_first (fun p => str_eqb (project_name p) name_lc) (cf_projects c) with
  | Some project =>
      let port := project_port project in
      let c := put_projects (bfilter (fun p => negb (str_eqb (project_name p) name_lc)) (cf_projects c)) c in
      let d := cf_domains c in
      let c := put_domains (mkDomains (domains_linked d) (domains_parked d) (delete name_lc (domains_proxy d))) c in
      applied ("unlinked project "%str ++ name_lc ++ " (freed port "%str ++ show_uint port ++ ")"%str) c
  | None =>
      match find_first (fun s => str_eqb (site_name s) name_lc) (cf_linked c) with
      | None =>
          (Err (match get r name_lc with
                | Some _ => NotFound (MsgParkedNotLinked name_lc)
                | None => not_found_site c name_lc
                end), c)
      | Some site =>
          let docroot_key := override_key site in
          let reparks := parent_is_parked_root c docroot_key in
          let c := put_linked (bfilter (fun s => negb (str_eqb (site_name s) name_lc)) (cf_linked c)) c in
          let d := cf_domains c in
          let md := demote_entry reparks name_lc docroot_key (domains_linked d) (domains_parked d) in
          let c := put_domains (mkDomains md.1 md.2 (domains_proxy d)) c in
          let p := cf_proxy_rules c in
          let mp := demote_entry reparks name_lc docroot_key (proxy_rules_linked p) (proxy_rules_parked p) in
          let c := put_proxy_rules (mkProxyRules mp.1 mp.2) c in
          let u := cf_route_rules c in
          let mu := demote_entry reparks name_lc docroot_key (route_rules_linked u) (route_rules_parked u) in
          applied ("unlinked "%str ++ name_lc) (put_route_rules (mkRouteRules mu.1 mu.2) c)
      end
  end.

(** ** Flags *)

Definition override_default : SiteOverride := mkOverride None None None None None None.
Definition ov_set_secure (b : bool) (o : SiteOverride) : SiteOverride :=
  mkOverride (ov_php o) (Some b) (ov_web_root o) (ov_wp_auto_login o) (ov_wp_auto_login_user o)
    (ov_front_controller o).
Definition ov_set_front_controller (b : bool) (o : SiteOverride) : SiteOverride :=
  mkOverride (ov_php o) (ov_secure o) (ov_web_root o) (ov_wp_auto_login o) (ov_wp_auto_login_user o) (Some b).

(** [map.entry(key).or_default()] and an assignment through it. *)
Definition override_mut (key : str) (f : SiteOverride -> SiteOverride) (c : Config) : Config :=
  put_overrides (<[key := f (default override_default (cf_overrides c !! key))]> (cf_overrides c)) c.

Definition apply_set_secure (r : SiteRouter) (name : str) (secure : bool) (c : Config) : outcome :=
  let name_lc := to_ascii_lowercase name in
  let tail := " secure="%str ++ show_bool secure in
  if has_linked c name_lc then
    applied (name_lc ++ tail)
      (put_linked (update_first (fun s => str_eqb (site_name s) name_lc) (set_secure secure) (cf_linked c)) c)
  else match get r name_lc with
  | Some parked => applied (name_lc ++ tail) (override_mut (override_key parked) (ov_set_secure secure) c)
  | None =>
      if has_proxy c name_lc then
        applied ("proxy "%str ++ name_lc ++ tail)
          (put_proxies (update_first (fun p => str_eqb (proxy_name p) name_lc) (proxy_set_secure secure)
             (cf_proxies c)) c)
      else if existsb (fun p => str_eqb (project_name p) name_lc) (cf_projects c) then
        applied ("project "%str ++ name_lc ++ tail)
          (put_projects (update_first (fun p => str_eqb (project_name p) name_lc) (project_set_secure secure)
             (cf_projects c)) c)
      else (Err (NotFound (MsgNoSite name_lc)), c)
  end.

Definition apply_set_front_controller (r : SiteRouter) (name : str) (enabled : bool) (c : Config) : outcome :=
  let name_lc := to_ascii_lowercase name in
  let s := name_lc ++ " front_controller="%str ++ show_bool enabled in
  if has_linked c name_lc then
    applied s (put_linked (update_first (fun s => str_eqb (site_name s) name_lc)
                             (set_front_controller (Some enabled)) (cf_linked c)) c)
  else match get r name_lc with
  | Some parked => applied s (override_mut (override_key parked) (ov_set_front_controller enabled) c)
  | None => (Err (not_found_site c name_lc), c)
  end.

(** ** Proxies and rules *)

Definition reject_loop_target (c : Config) (t : UpstreamTarget) : result MutateError unit :=
  let dotted := "."%str ++ Tld_str (cf_tld c) in
  if str_eqb (target_host t) (Tld_str (cf_tld c)) || ends_with dotted (target_host t)
  then Err (Invalid (MsgRoutingLoop (Tld_str (cf_tld c)))) else Ok tt.

Definition apply_add_proxy (r : SiteRouter) (name url : str) (c : Config) : outcome :=
  match (target ← map_err (fun e => Invalid (MsgInvalidTarget e)) (from_url_str url);
         _ ← reject_loop_target c target;
         map_err (fun e => Invalid (MsgCore e)) (ProxySite_new name target)) with
  | Err e => (Err e, c)
  | Ok proxy =>
      let name_lc := proxy_name proxy in
      if bool_decide (is_Some (get r name_lc)) || has_proxy c name_lc
      then (Err (AlreadyExists (MsgSiteOrProxyExists name_lc)), c)
      else
        let apex := Domain_apex name_lc in
        match domain_owner r apex with
        | Some owner => (Err (AlreadyExists (MsgAlreadyRoutes (to_fqdn apex (Tld_str (cf_tld c))) owner)), c)
        | None =>
            applied ("added proxy "%str ++ name_lc ++ " -> "%str ++ url) (put_proxies (cf_proxies c ++ [proxy]) c)
        end
  end.

Definition apply_remove_proxy (name : str) (c : Config) : outcome :=
  let name_lc := to_ascii_lowercase name in
  let before := vlen (cf_proxies c) in
  let c' := put_proxies (bfilter (fun p => negb (str_eqb (proxy_name p) name_lc)) (cf_proxies c)) c in
  if vlen (cf_proxies c') =? before then (Err (NotFound (MsgNoProxy name_lc)), c')
  else
    let d := cf_domains c' in
    applied ("removed proxy "%str ++ name_lc)
      (put_domains (mkDomains (domains_linked d) (domains_parked d) (delete name_lc (domains_proxy d))) c').

Definition site_rule_key (r : SiteRouter) (name_lc : str) : option (bool * str) :=
  site ← get r name_lc;
  match site_kind site with
  | Linked => Some (true, name_lc)
  | Parked => Some (false, override_key site)
  end.

(** The map a rule key selects, read and written. *)
Definition proxy_rules_map (linked : bool) (c : Config) : gmap str (list ProxyRule) :=
  if linked then proxy_rules_linked (cf_proxy_rules c) else proxy_rules_parked (cf_proxy_rules c).
Definition put_proxy_rules_map (linked : bool) (m : gmap str (list ProxyRule)) (c : Config) : Config :=
  put_proxy_rules (if linked then mkProxyRules m (proxy_rules_parked (cf_proxy_rules c))
                   else mkProxyRules (proxy_rules_linked (cf_proxy_rules c)) m) c.
Definition route_rules_map (linked : bool) (c : Config) : gmap str (list RouteRule) :=
  if linked then route_rules_linked (cf_route_rules c) else route_rules_parked (cf_route_rules c).
Definition put_route_rules_map (linked : bool) (m : gmap str (list RouteRule)) (c : Config) : Config :=
  put_route_rules (if linked then mkRouteRules m (route_rules_parked (cf_route_rules c))
                   else mkRouteRules (route_rules_linked (cf_route_rules c)) m) c.

Definition apply_add_proxy_rule (r : SiteRouter) (site prefix url : str) (c : Config) : outcome :=
  let name_lc := to_ascii_lowercase site in
  match (target ← map_err (fun e => Invalid (MsgInvalidTarget e)) (from_url_str url);
         _ ← reject_loop_target c target;
         rule ← map_err (fun e => Invalid (MsgInvalidPrefix e)) (ProxyRule_new prefix target);
         key ← ok_or (not_found_site c name_lc) (site_rule_key r name_lc);
         Ok (rule, key)) with
  | Err e => (Err e, c)
  | Ok (rule, (linked, key)) =>
      let m := proxy_rules_map linked c in
      let rules := default [] (m !! key) in
      if existsb (fun x => str_eqb (rule_prefix x) (rule_prefix rule)) rules
      then (Err (AlreadyExists (MsgRuleExists name_lc (rule_prefix rule))),
            put_proxy_rules_map linked (<[key := rules]> m) c)
      else applied ("added proxy rule "%str ++ name_lc ++ rule_prefix rule ++ " -> "%str ++ url)
             (put_proxy_rules_map linked (<[key := rules ++ [rule]]> m) c)
  end.

Definition apply_remove_proxy_rule (r : SiteRouter) (site prefix : str) (c : Config) : outcome :=
  let name_lc := to_ascii_lowercase site in
  let wanted := normalize_prefix prefix in
  match site_rule_key r name_lc with
  | None => (Err (not_found_site c name_lc), c)
  | Some (linked, key) =>
      let m := proxy_rules_map linked c in
      match m !! key with
      | None => (Err (NotFound (MsgNoRule name_lc wanted)), c)
      | Some rules =>
          let rules' := bfilter (fun x => negb (str_eqb (rule_prefix x) wanted)) rules in
          if vlen rules' =? vlen rules
          then (Err (NotFound (MsgNoRule name_lc wanted)), put_proxy_rules_map linked (<[key := rules']> m) c)
          else applied ("removed proxy rule "%str ++ name_lc ++ wanted)
                 (put_proxy_rules_map linked (if is_empty rules' then delete key m else <[key := rules']> m) c)
      end
  end.

Definition apply_add_route_rule (r : SiteRouter) (site prefix target : str) (c : Config) : outcome :=
  let name_lc := to_ascii_lowercase site in
  match (rule ← map_err (fun e => Invalid (MsgInvalidRoute e)) (RouteRule_new prefix target);
         key ← ok_or (not_found_site c name_lc) (site_rule_key r name_lc);
         Ok (rule, key)) with
  | Err e => (Err e, c)
  | Ok (rule, (linked, key)) =>
      let m := route_rules_map linked c in
      let rules := default [] (m !! key) in
      if existsb (fun x => str_eqb (route_prefix x) (route_prefix rule)) rules
      then (Err (AlreadyExists (MsgRouteExists name_lc (route_prefix rule))),
            put_route_rules_map linked (<[key := rules]> m) c)
      else applied ("added route "%str ++ name_lc ++ route_prefix rule ++ " -> "%str ++ target)
             (put_route_rules_map linked (<[key := rules ++ [rule]]> m) c)
  end.

Definition apply_remove_route_rule (r : SiteRouter) (site prefix : str) (c : Config) : outcome :=
  let name_lc := to_ascii_lowercase site in
  let wanted := normalize_prefix prefix in
  match site_rule_key r name_lc with
  | None => (Err (not_found_site c name_lc), c)
  | Some (linked, key) =>
      let m := route_rules_map linked c in
      match m !! key with
      | None => (Err (NotFound (MsgNoRoute name_lc wanted)), c)
      | Some rules =>
          let rules' := bfilter (fun x => negb (str_eqb (route_prefix x) wanted)) rules in
          if vlen rules' =? vlen rules
          then (Err (NotFound (MsgNoRoute name_lc wanted)), put_route_rules_map linked (<[key := rules']> m) c)
          else applied ("removed route "%str ++ name_lc ++ wanted)
                 (put_route_rules_map linked (if is_empty rules' then delete key m else <[key := rules']> m) c)
      end
  end.

(** ** Domains *)

Inductive DomainTarget :=
| TLinked (name : str)
| TParked (key : str)
| TProxy (name : str).
#[export] Instance DomainTarget_eq_dec : EqDecision DomainTarget.
Proof. solve_decision. Defined.

Definition resolve_domain_target (c : Config) (r : SiteRouter) (name_lc : str) : result MutateError DomainTarget :=
  if has_linked c name_lc then Ok (TLinked name_lc)
  else match get r name_lc with
  | Some parked => Ok (TParked (override_key parked))
  | None => if has_proxy c name_lc then Ok (TProxy name_lc) else Err (NotFound (MsgNoSite name_lc))
  end.

(** The delta stored for a target, read and written. *)
Definition delta_get (c : Config) (t : DomainTarget) : option DomainDelta :=
  match t with
  | TLinked n => domains_linked (cf_domains c) !! n
  | TParked k => domains_parked (cf_domains c) !! k
  | TProxy n => domains_proxy (cf_domains c) !! n
  end.
Definition delta_put (t : DomainTarget) (o : option DomainDelta) (c : Config) : Config :=
  let d := cf_domains c in
  put_domains
    match t with
    | TLinked n => mkDomains (partial_alter (fun _ => o) n (domains_linked d)) (domains_parked d) (domains_proxy d)
    | TParked k => mkDomains (domains_linked d) (partial_alter (fun _ => o) k (domains_parked d)) (domains_proxy d)
    | TProxy n => mkDomains (domains_linked d) (domains_parked d) (partial_alter (fun _ => o) n (domains_proxy d))
    end c.

Definition delta_default : DomainDelta := mkDelta [] [] None.

(** [entry(..).or_default()]: the delta, present from then on. *)
Definition delta_mut (c : Config) (t : DomainTarget) : DomainDelta * Config :=
  let d := default delta_default (delta_get c t) in (d, delta_put t (Some d) c).

Definition prune_delta (t : DomainTarget) (c : Config) : Config :=
  match delta_get c t with
  | Some d => if DomainDelta_is_empty d then delta_put t None c else c
  | None => c
  end.

Definition parse_domain (c : Config) (domain : str) : result MutateError Domain :=
  map_err (fun e => Invalid (MsgInvalidDomain e)) (Domain_parse domain (Tld_str (cf_tld c))).

Definition reject_if_claimed_elsewhere (r : SiteRouter) (name_lc : str) (dom : Domain) (tld : str)
  : result MutateError unit :=
  match domain_owner r dom with
  | Some owner => if negb (str_eqb owner name_lc)
                  then Err (AlreadyExists (MsgAlreadyRoutes (to_fqdn dom tld) owner)) else Ok tt
  | None => Ok tt
  end.

Definition exact_count (name_lc : str) (added suppressed : list Domain) : N :=
  let apex := Domain_apex name_lc in
  (if bool_decide (apex ∈ suppressed) then 0 else 1) + vlen (bfilter (fun d => negb (is_wildcard d)) added).

(** [retain(|d| d != x)] *)
Definition without (x : Domain) (l : list Domain) : list Domain := bfilter (fun d => negb (bool_decide (d = x))) l.

Definition apply_add_domain (r : SiteRouter) (name domain : str) (c : Config) : outcome :=
  let name_lc := to_ascii_lowercase name in
  match (target ← resolve_domain_target c r name_lc;
         dom ← parse_domain c domain;
         _ ← reject_if_claimed_elsewhere r name_lc dom (Tld_str (cf_tld c));
         Ok (target, dom)) with
  | Err e => (Err e, c)
  | Ok (target, dom) =>
      let apex := Domain_apex name_lc in
      let fqdn := to_fqdn dom (Tld_str (cf_tld c)) in
      let '(delta, c) := delta_mut c target in
      let delta :=
        if bool_decide (dom = apex) then mkDelta (added delta) (without apex (suppressed delta)) (primary delta)
        else if bool_decide (dom ∈ added delta) then delta
        else mkDelta (added delta ++ [dom]) (suppressed delta) (primary delta) in
      applied ("added "%str ++ fqdn ++ " to "%str ++ name_lc) (prune_delta target (delta_put target (Some delta) c))
  end.

Definition apply_remove_domain (r : SiteRouter) (name domain : str) (c : Config) : outcome :=
  let name_lc := to_ascii_lowercase name in
  match (target ← resolve_domain_target c r name_lc; dom ← parse_domain c domain; Ok (target, dom)) with
  | Err e => (Err e, c)
  | Ok (target, dom) =>
      let apex := Domain_apex name_lc in
      let fqdn := to_fqdn dom (Tld_str (cf_tld c)) in
      let '(delta, c) := delta_mut c target in
      let parts :=
        if bool_decide (dom ∈ added delta) then Ok (without dom (added delta), suppressed delta)
        else if bool_decide (dom = apex) then
          Ok (added delta, if bool_decide (apex ∈ suppressed delta) then suppressed delta
                           else suppressed delta ++ [apex])
        else Err (Invalid (MsgNotADomain fqdn name_lc)) in
      match parts with
      | Err e => (Err e, c)
      | Ok (a, s) =>
          if exact_count name_lc a s =? 0 then (Err (Invalid (MsgKeepOneExact name_lc)), c)
          else
            let p := if bool_decide (primary delta = Some dom) then None else primary delta in
            applied ("removed "%str ++ fqdn ++ " from "%str ++ name_lc)
              (prune_delta target (delta_put target (Some (mkDelta a s p)) c))
      end
  end.

Definition apply_set_primary_domain (r : SiteRouter) (name domain : str) (c : Config) : outcome :=
  let name_lc := to_ascii_lowercase name in
  match (target ← resolve_domain_target c r name_lc;
         dom ← parse_domain c domain;
         _ ← (if is_wildcard dom then Err (Invalid MsgPrimaryWildcard) else Ok tt);
         _ ← reject_if_claimed_elsewhere r name_lc dom (Tld_str (cf_tld c));
         Ok (target, dom)) with
  | Err e => (Err e, c)
  | Ok (target, dom) =>
      let apex := Domain_apex name_lc in
      let fqdn := to_fqdn dom (Tld_str (cf_tld c)) in
      let '(delta, c) := delta_mut c target in
      let delta :=
        if bool_decide (dom = apex) then mkDelta (added delta) (without apex (suppressed delta)) None
        else mkDelta (if bool_decide (dom ∈ added delta) then added delta else added delta ++ [dom])
               (suppressed delta) (Some dom) in
      applied (name_lc ++ " primary domain is "%str ++ fqdn)
        (prune_delta target (delta_put target (Some delta) c))
  end.

Definition apply_reset_domains (r : SiteRouter) (name : str) (c : Config) : outcome :=
  let name_lc := to_ascii_lowercase name in
  match resolve_domain_target c r name_lc with
  | Err e => (Err e, c)
  | Ok target => applied (name_lc ++ " domains reset to default"%str) (delta_put target None c)
  end.

(** ** Groups *)

Definition put_order (order : list str) (c : Config) : Config :=
  put_groups (mkGroups order (groups_members (cf_groups c))) c.
Definition put_members (members : smap) (c : Config) : Config :=
  put_groups (mkGroups (groups_order (cf_groups c)) members) c.
Definition has_group (c : Config) (name : str) : bool :=
  existsb (fun g => eq_ignore_ascii_case g name) (groups_order (cf_groups c)).

Definition apply_create_group (name : str) (c : Config) : outcome :=
  let name := trim name in
  if is_empty name then (Err (Invalid MsgGroupEmpty), c)
  else if eq_ignore_ascii_case name RESERVED_GROUP_NAME then (Err (Invalid MsgGroupReserved), c)
  else if has_group c name then (Err (AlreadyExists (MsgGroupExists name)), c)
  else applied ("created group "%str ++ name) (put_order (groups_order (cf_groups c) ++ [name]) c).

Definition apply_delete_group (name : str) (c : Config) : outcome :=
  let existed := has_group c name in
  let keep := fun g => negb (eq_ignore_ascii_case g name) in
  let c := put_order (bfilter keep (groups_order (cf_groups c))) c in
  let c := put_members (filter (fun e : str * str => keep e.2 = true) (groups_members (cf_groups c))) c in
  applied (if existed then "deleted group "%str ++ name else name ++ " was not a group"%str) c.

Definition apply_set_group_order (order : list str) (c : Config) : outcome :=
  let want := merge_sort str_le order in
  let have := merge_sort str_le (groups_order (cf_groups c)) in
  if negb (bool_decide (want = have)) then (Err (Invalid MsgGroupOrder), c)
  else applied "reordered groups"%str (put_order order c).

Definition apply_set_site_group (site : str) (group : option str) (c : Config) : outcome :=
  let site_lc := to_ascii_lowercase site in
  match group with
  | Some g =>
      match find_first (fun existing => eq_ignore_ascii_case existing g) (groups_order (cf_groups c)) with
      | None => (Err (NotFound (MsgNoGroup g)), c)
      | Some canonical =>
          applied (site_lc ++ " added to "%str ++ canonical)
            (put_members (<[site_lc := canonical]> (groups_members (cf_groups c))) c)
      end
  | None => applied (site_lc ++ " ungrouped"%str) (put_members (delete site_lc (groups_members (cf_groups c))) c)
  end.

Definition apply_rename_group (from to : str) (c : Config) : outcome :=
  let to := trim to in
  if is_empty to then (Err (Invalid MsgGroupEmpty), c)
  else if eq_ignore_ascii_case to RESERVED_GROUP_NAME then (Err (Invalid MsgGroupReserved), c)
  else
    let order := groups_order (cf_groups c) in
    match position (fun g => eq_ignore_ascii_case g from) order with
    | None => (Err (NotFound (MsgNoGroup from)), c)
    | Some idx =>
        if existsb (fun e => negb (e.1 =? idx)%nat && eq_ignore_ascii_case e.2 to) (enumerate order)
        then (Err (AlreadyExists (MsgGroupExists to)), c)
        else
          match order !! idx with
          | None => (Err (NotFound (MsgNoGroup from)), c)
          | Some _ =>
              let c := put_order (<[idx := to]> order) c in
              applied ("renamed group "%str ++ from ++ " to "%str ++ to)
                (put_members ((fun g => if eq_ignore_ascii_case g from then to else g) <$>
                                groups_members (cf_groups c)) c)
          end
    end.

(** ** Dispatch *)

Definition apply (r : SiteRouter) (req : Request) (canonical : option str) (default_php : PhpVersion)
  (c : Config) : outcome :=
  match req with
  | Park _ => apply_park canonical c
  | Link name _ => apply_link name canonical default_php c
  | Unpark path => apply_unpark path c
  | Unlink name => apply_unlink r name c
  | ReqSetSecure name secure => apply_set_secure r name secure c
  | ReqSetFrontController name enabled => apply_set_front_controller r name enabled c
  | AddDomain name domain => apply_add_domain r name domain c
  | RemoveDomain name domain => apply_remove_domain r name domain c
  | SetPrimaryDomain name domain => apply_set_primary_domain r name domain c
  | ResetDomains name => apply_reset_domains r name c
  | AddProxy name url => apply_add_proxy r name url c
  | RemoveProxy name => apply_remove_proxy name c
  | AddProxyRule site prefix url => apply_add_proxy_rule r site prefix url c
  | RemoveProxyRule site prefix => apply_remove_proxy_rule r site prefix c
  | AddRouteRule site prefix target => apply_add_route_rule r site prefix target c
  | RemoveRouteRule site prefix => apply_remove_route_rule r site prefix c
  | CreateGroup name => apply_create_group name c
  | DeleteGroup name => apply_delete_group name c
  | SetGroupOrder order => apply_set_group_order order c
  | SetSiteGroup site group => apply_set_site_group site group c
  | RenameGroup from to => apply_rename_group from to c
  | _ => (Err (Invalid MsgUnsupported), c)
  end.
