(* ===== verification/MutateValid.v ===== *)
(** * Mutations keep the configuration valid

    Every handler of [Mutate] against the validation of [Config]: what each
    command leaves validates unless the request clashes with a claimant of
    another kind ([clash]); the group commands also keep their section
    consistent ([groups_step]). *)

From stdpp Require Import sorting.
From S2P Require Import Prelude RustStr RustMap RustPath CoreError DnsLabel Tld Domain Php Site Proxy Router Project Settings Config Ipc SiteDomains Mutate.

Open Scope N_scope.

(** ** Assignments that keep a configuration valid *)

Section Assignments.
Context (c : Config) (V : valid_config c).

Ltac keep := destruct V; constructor; try assumption; repeat (split; try assumption); eauto.

Lemma valid_parked x : [] ∉ x -> valid_config (put_parked x c).
Proof using V. intros. keep. Qed.

Lemma valid_overrides x : x !! [] = None ->
  (forall k o w, x !! k = Some o -> ov_web_root o = Some w -> is_safe_relative w = true) ->
  valid_config (put_overrides x c).
Proof using V. intros. keep. Qed.

Lemma valid_groups x :
  NoDup (to_ascii_lowercase <$> groups_order x) ->
  (forall g, g ∈ groups_order x -> g <> [] /\ eq_ignore_ascii_case g RESERVED_GROUP_NAME = false) ->
  (forall s g, groups_members x !! s = Some g ->
     exists g', g' ∈ groups_order x /\ eq_ignore_ascii_case g g' = true) ->
  valid_config (put_groups x c).
Proof using V. intros. keep. Qed.

Lemma valid_domains x :
  (forall k d, domains_linked x !! k = Some d \/ domains_parked x !! k = Some d \/
     domains_proxy x !! k = Some d -> delta_ok d) ->
  valid_config (put_domains x c).
Proof using V. intros. keep. Qed.

Lemma valid_proxies x :
  NoDup (proxy_name <$> x) ->
  (forall p, p ∈ x -> proxy_name p ∉ linked_names c /\ targets_loop c (proxy_target p) = false) ->
  (forall p, p ∈ cf_projects c -> project_name p ∉ proxy_name <$> x) ->
  valid_config (put_proxies x c).
Proof using V.
  intros ? ? Hn. destruct (vc_projects c V) as (P1 & P2 & P3). keep; by apply P3.
Qed.

Lemma valid_projects x :
  NoDup (project_name <$> x) -> NoDup (project_port <$> x) ->
  (forall p, p ∈ x -> project_port p <> 0 /\ project_name p ∉ linked_names c /\
     project_name p ∉ proxy_name <$> cf_proxies c) ->
  valid_config (put_projects x c).
Proof using V. intros. keep. Qed.

Lemma valid_proxy_rules x :
  (forall k rs, proxy_rules_linked x !! k = Some rs -> k ∈ linked_names c /\ rule_set_ok c rs) ->
  (forall k rs, proxy_rules_parked x !! k = Some rs -> rule_set_ok c rs) ->
  valid_config (put_proxy_rules x c).
Proof using V. intros. keep. Qed.

Lemma valid_route_rules x :
  (forall k rs, route_rules_linked x !! k = Some rs -> k ∈ linked_names c /\ NoDup (route_prefix <$> rs)) ->
  (forall k rs, route_rules_parked x !! k = Some rs -> NoDup (route_prefix <$> rs)) ->
  valid_config (put_route_rules x c).
Proof using V. intros. keep. Qed.

(** Changing the linked sites together with the sections keyed by them. *)
Lemma valid_sites sites d p r :
  let names : gset str := list_to_set (site_name <$> sites) in
  NoDup (site_name <$> sites) ->
  (forall s, s ∈ sites -> is_safe_relative (site_web_subpath s) = true) ->
  (forall x, x ∈ cf_proxies c -> proxy_name x ∉ names) ->
  (forall x, x ∈ cf_projects c -> project_name x ∉ names) ->
  (forall k x, domains_linked d !! k = Some x \/ domains_parked d !! k = Some x \/
     domains_proxy d !! k = Some x -> delta_ok x) ->
  (forall k rs, proxy_rules_linked p !! k = Some rs -> k ∈ names /\ rule_set_ok c rs) ->
  (forall k rs, proxy_rules_parked p !! k = Some rs -> rule_set_ok c rs) ->
  (forall k rs, route_rules_linked r !! k = Some rs -> k ∈ names /\ NoDup (route_prefix <$> rs)) ->
  (forall k rs, route_rules_parked r !! k = Some rs -> NoDup (route_prefix <$> rs)) ->
  valid_config (put_route_rules r (put_proxy_rules p (put_domains d (put_linked sites c)))).
Proof using V.
  intros. destruct (vc_projects c V) as (P1 & P2 & P3), (vc_proxies c V) as [Q1 Q2]. keep; solve [by apply Q2 | by apply P3].
Qed.

End Assignments.

(** ** Lists and maps the handlers go through *)

Lemma update_first_fmap {A B} (g : A -> B) p f (l : list A) :
  (forall x, g (f x) = g x) -> g <$> update_first p f l = g <$> l.
Proof. intros Hg. induction l as [|x l IH]; [done|]. simpl. destruct (p x); csimpl; [by rewrite Hg|by rewrite IH]. Qed.

Lemma elem_of_update_first {A} p f (l : list A) x :
  x ∈ update_first p f l -> exists y, y ∈ l /\ (x = y \/ x = f y).
Proof.
  induction l as [|y l IH]; simpl; [by intros ?%elem_of_nil|].
  destruct (p y); intros [->|Hx]%elem_of_cons; try (exists y; set_solver).
  - exists x. set_solver.
  - destruct (IH Hx) as (z & Hz & ?). exists z. set_solver.
Qed.

Lemma has_linked_spec c n : has_linked c n = true <-> n ∈ linked_names c.
Proof.
  unfold has_linked, linked_names, str_eqb. rewrite existsb_elem, elem_of_list_to_set, list_elem_of_fmap.
  split; intros (s & H); exists s; [|destruct H as [-> ?]]; rewrite ?bool_decide_eq_true in *; naive_solver.
Qed.

Lemma has_proxy_spec c n : has_proxy c n = true <-> n ∈ proxy_name <$> cf_proxies c.
Proof.
  unfold has_proxy, str_eqb. rewrite existsb_elem, list_elem_of_fmap.
  split; intros (s & H); exists s; [|destruct H as [-> ?]]; rewrite ?bool_decide_eq_true in *; naive_solver.
Qed.

Lemma elem_of_linked_names c n : n ∈ linked_names c <-> exists s, s ∈ cf_linked c /\ site_name s = n.
Proof. unfold linked_names. rewrite elem_of_list_to_set, list_elem_of_fmap. naive_solver. Qed.

Lemma bfilter_fmap_NoDup {A B} (g : A -> B) p (l : list A) : NoDup (g <$> l) -> NoDup (g <$> bfilter p l).
Proof.
  induction l as [|x l IH]; [done|]. simpl. intros [Hn Hd]%NoDup_cons. destruct (p x); simpl; [|auto].
  apply NoDup_cons. split; [|auto]. intros (y & Hg & Hy)%list_elem_of_fmap. apply elem_of_bfilter in Hy as [_ Hy].
  apply Hn. rewrite Hg. apply list_elem_of_fmap. eauto.
Qed.

Lemma retain_keys_Some {A} (keep : str -> bool) (m : gmap str A) (k : str) (v : A) :
  retain_keys keep m !! k = Some v <-> m !! k = Some v /\ keep k = true.
Proof. unfold retain_keys. rewrite map_lookup_filter_Some. done. Qed.

(** What [move_entry] and [demote_entry] leave in the two maps. *)
Lemma move_entry_values {A} (P : A -> Prop) (k k' : str) (from to : gmap str A) :
  (forall x v, from !! x = Some v -> P v) -> (forall x v, to !! x = Some v -> P v) ->
  (forall x v, (move_entry k k' from to).1 !! x = Some v -> P v) /\
  (forall x v, (move_entry k k' from to).2 !! x = Some v -> (x = k' \/ is_Some (to !! x)) /\ P v).
Proof.
  intros Hf Ht. unfold move_entry. destruct (from !! k) as [w|] eqn:E; simpl.
  - split; intros x v; [intros [? ?]%lookup_delete_Some; eauto|].
    intros [[-> ->]|[? ?]]%lookup_insert_Some; eauto.
  - split; intros x v Hx; eauto.
Qed.

Lemma demote_entry_values {A} (P : A -> Prop) (b : bool) (k k' : str) (from to : gmap str A) :
  (forall x v, from !! x = Some v -> P v) -> (forall x v, to !! x = Some v -> P v) ->
  (forall x v, (demote_entry b k k' from to).1 !! x = Some v -> (x <> k /\ is_Some (from !! x)) /\ P v) /\
  (forall x v, (demote_entry b k k' from to).2 !! x = Some v -> P v).
Proof.
  intros Hf Ht. unfold demote_entry. destruct (from !! k) as [w|] eqn:E; simpl.
  - split; intros x v; [intros [? ?]%lookup_delete_Some; eauto|]. destruct b; [|eauto].
    intros [[-> ->]|[? ?]]%lookup_insert_Some; eauto.
  - split; intros x v Hx; [|eauto]. split; [split; [|eauto]|eauto]. intros ->. congruence.
Qed.

Lemma linked_site_spec name path php s :
  Site_linked name path php = Ok s ->
  site_name s = to_ascii_lowercase name /\ site_document_root s = path /\ site_web_subpath s = [] /\
  dns_label (site_name s) = true.
Proof.
  unfold Site_linked, site_with_kind. destruct (validate_and_lowercase_name name) as [n|] eqn:E; [|done].
  cbn [mbind result_bind]. intros [= <-]. simpl. pose proof (proj1 (validate_name_spec _ _) E). naive_solver.
Qed.

(** ** A router that belongs to the configuration *)

Record router_matches (c : Config) (r : SiteRouter) : Prop := mkMatches {
  rm_linked n s : get r n = Some s -> site_kind s = Linked -> n ∈ linked_names c;
  rm_parked n s : get r n = Some s -> n ∉ linked_names c -> site_document_root s <> [];
  rm_names n : n ∈ linked_names c -> is_Some (get r n);
}.

(** The requests whose outcome the validation after it refuses: a name another
    kind of claimant has, a domain listed as suppressed, an empty path. *)
Definition clash (r : SiteRouter) (req : Request) (canonical : option str) (c : Config) : Prop :=
  match req with
  | Park _ => canonical = Some []
  | Link name _ => to_ascii_lowercase name ∈ proxy_name <$> cf_proxies c \/
                   to_ascii_lowercase name ∈ project_name <$> cf_projects c
  | AddProxy name _ => to_ascii_lowercase name ∈ project_name <$> cf_projects c
  | AddDomain name domain | SetPrimaryDomain name domain =>
      exists t d, resolve_domain_target c r (to_ascii_lowercase name) = Ok t /\ parse_domain c domain = Ok d /\
        d <> Domain_apex (to_ascii_lowercase name) /\
        d ∈ suppressed (default delta_default (delta_get c t))
  | _ => False
  end.

(** ** Reading and writing deltas *)

Lemma delta_get_put c t o : delta_get (delta_put t o c) t = o.
Proof. destruct t; cbn; by rewrite lookup_partial_alter_eq. Qed.

Lemma delta_get_put_ne c t t' o : t <> t' -> delta_get (delta_put t o c) t' = delta_get c t'.
Proof.
  intros Hne. destruct t, t'; cbn; try done; (rewrite lookup_partial_alter_ne; [done|congruence]).
Qed.

Lemma delta_put_put c t o o' : delta_put t o (delta_put t o' c) = delta_put t o c.
Proof. destruct t; cbn; unfold delta_put; cbn; by rewrite partial_alter_partial_alter_eq. Qed.

(** What is stored for a delta: nothing when it is empty. *)
Definition stored (d : DomainDelta) : option DomainDelta := if DomainDelta_is_empty d then None else Some d.

Lemma prune_put c t d : prune_delta t (delta_put t (Some d) c) = delta_put t (stored d) c.
Proof.
  unfold prune_delta, stored. rewrite delta_get_put. destruct (DomainDelta_is_empty d); [|done].
  apply delta_put_put.
Qed.

Lemma stored_default d : default delta_default (stored d) = d.
Proof. unfold stored. by destruct d as [[] [] []]. Qed.

Lemma elem_of_without x y l : y ∈ without x l <-> y ∈ l /\ y <> x.
Proof. unfold without. rewrite elem_of_bfilter, negb_true_iff, bool_decide_eq_false. tauto. Qed.

(** ** Which mutations validate *)

(** The request's outcome is valid exactly when the request does not clash. *)
Definition valid_unless (clashes : Prop) (o : outcome) : Prop :=
  match o with
  | (Ok _, c') => valid_config c' <-> ~ clashes
  | (Err _, _) => True
  end.

Lemma valid_unless_never o : (match o with (Ok _, c') => valid_config c' | _ => True end) -> valid_unless False o.
Proof. unfold valid_unless. destruct o as [[a|e] c']; tauto. Qed.

Section Validity.
Context (c : Config) (r : SiteRouter) (V : valid_config c).

Lemma park_valid canonical path : valid_unless (clash r (Park path) canonical c) (apply_park canonical c).
Proof using V.
  destruct canonical as [p|]; [|done]. cbn. split.
  - intros V' [= ->]. apply (vc_parked _ V'). cbn. set_solver.
  - intros Hne. apply valid_parked; [done|]. intros [Hp%elem_of_singleton|Hp]%elem_of_union; [congruence|].
    by apply (vc_parked c V).
Qed.

Lemma delta_section_ok k d :
  domains_linked (cf_domains c) !! k = Some d \/ domains_parked (cf_domains c) !! k = Some d \/
  domains_proxy (cf_domains c) !! k = Some d -> delta_ok d.
Proof using V. apply (vc_domains c V). Qed.

Lemma unpark_valid path : valid_unless False (apply_unpark path c).
Proof using V.
  apply valid_unless_never. cbn. apply valid_route_rules; [apply valid_proxy_rules; [apply valid_domains;
    [apply valid_parked; [done|]|]|..]|..]; cbn.
  - intros [H _]%elem_of_difference. by apply (vc_parked c V).
  - intros k d. rewrite retain_keys_Some. intros H. apply (delta_section_ok k). naive_solver.
  - apply (vc_proxy_rules c V).
  - intros k rs [H _]%retain_keys_Some. by apply (vc_proxy_rules c V) in H.
  - apply (vc_route_rules c V).
  - intros k rs [H _]%retain_keys_Some. by apply (vc_route_rules c V) in H.
Qed.

Lemma rules_moved k k' :
  let m := move_entry k k' (proxy_rules_parked (cf_proxy_rules c)) (proxy_rules_linked (cf_proxy_rules c)) in
  (forall x rs, m.1 !! x = Some rs -> rule_set_ok c rs) /\
  (forall x rs, m.2 !! x = Some rs ->
     (x = k' \/ is_Some (proxy_rules_linked (cf_proxy_rules c) !! x)) /\ rule_set_ok c rs).
Proof using V.
  apply (move_entry_values (rule_set_ok c)); intros ? ? H; apply (vc_proxy_rules c V) in H; tauto.
Qed.

Lemma routes_moved k k' :
  let m := move_entry k k' (route_rules_parked (cf_route_rules c)) (route_rules_linked (cf_route_rules c)) in
  (forall x rs, m.1 !! x = Some rs -> NoDup (route_prefix <$> rs)) /\
  (forall x rs, m.2 !! x = Some rs ->
     (x = k' \/ is_Some (route_rules_linked (cf_route_rules c) !! x)) /\ NoDup (route_prefix <$> rs)).
Proof using V.
  apply (move_entry_values (fun rs => NoDup (route_prefix <$> rs))); intros ? ? H;
    apply (vc_route_rules c V) in H; tauto.
Qed.

Lemma link_valid name path canonical php :
  valid_unless (clash r (Link name path) canonical c) (apply_link name canonical php c).
Proof using V.
  destruct canonical as [p|]; [|done]. cbn. destruct (Site_linked name p php) as [s|] eqn:Es; [|done].
  apply linked_site_spec in Es as (Hn & Hd & Hw & _).
  destruct (has_linked c (site_name s)) eqn:Eh; [done|]. cbn [applied valid_unless].
  assert (site_name s ∉ linked_names c) as Hnew by (rewrite <- has_linked_spec; congruence).
  change (cf_linked (promote _ _ c)) with (cf_linked c). rewrite <- Hn. split.
  - intros V' [H|H].
    + apply list_elem_of_fmap in H as (x & Hx & Hin). apply (vc_proxies _ V') in Hin as [Hin _].
      apply Hin, elem_of_linked_names. exists s. cbn. set_solver.
    + apply list_elem_of_fmap in H as (x & Hx & Hin). apply (vc_projects _ V') in Hin as (_ & Hin & _).
      apply Hin, elem_of_linked_names. exists s. cbn. set_solver.
  - intros Hc. pose proof (vc_proxies c V) as [_ P]. pose proof (vc_projects c V) as (_ & _ & Q).
    pose proof (vc_linked c V) as L. pose proof (vc_web_roots c V) as W.
    assert (forall n, n ∈ (list_to_set (site_name <$> cf_linked c ++ [s]) : gset str) <->
      n ∈ linked_names c \/ n = site_name s) as Hnames.
    { intros n. unfold linked_names. rewrite fmap_app. set_solver. }
    change (put_linked ?l (promote ?k ?n c)) with
      (let d := cf_domains c in
       let md := move_entry k n (domains_parked d) (domains_linked d) in
       let mp := move_entry k n (proxy_rules_parked (cf_proxy_rules c)) (proxy_rules_linked (cf_proxy_rules c)) in
       let mu := move_entry k n (route_rules_parked (cf_route_rules c)) (route_rules_linked (cf_route_rules c)) in
       put_route_rules (mkRouteRules mu.2 mu.1) (put_proxy_rules (mkProxyRules mp.2 mp.1)
         (put_domains (mkDomains md.2 md.1 (domains_proxy d)) (put_linked l c)))).
    cbn zeta. apply valid_sites; [done|..]; cbn.
    + rewrite fmap_app. apply NoDup_app. split; [done|]. split; [|apply NoDup_singleton].
      intros n Hn1 Hn2%list_elem_of_singleton. subst n. apply Hnew. unfold linked_names. set_solver.
    + intros x [Hx|Hx]%elem_of_app; [auto|]. apply list_elem_of_singleton in Hx as ->. by rewrite Hw.
    + intros x Hx [H|H]%Hnames; [by apply (P x Hx)|]. apply Hc. left. rewrite <- H. by apply list_elem_of_fmap_2.
    + intros x Hx [H|H]%Hnames; [by destruct (Q x Hx) as (_ & Q' & _)|]. apply Hc. right. rewrite <- H. by apply list_elem_of_fmap_2.
    + destruct (move_entry_values delta_ok (override_key s) (site_name s) (domains_parked (cf_domains c))
        (domains_linked (cf_domains c))) as [H1 H2]; [intros ? ? ?; eapply delta_section_ok; eauto..|].
      intros k x [H|[H|H]]; [by apply H2 in H as [_ H]|by apply H1 in H|eapply delta_section_ok; eauto].
    + intros k rs H. apply rules_moved in H as [H1 H2]. split; [|done]. apply Hnames.
      destruct H1 as [->|[? H1]]; [by right|]. left. apply (vc_proxy_rules c V) in H1. tauto.
    + apply rules_moved.
    + intros k rs H. apply routes_moved in H as [H1 H2]. split; [|done]. apply Hnames.
      destruct H1 as [->|[? H1]]; [by right|]. left. apply (vc_route_rules c V) in H1. tauto.
    + apply routes_moved.
Qed.

Lemma rules_demoted b k k' :
  let m := demote_entry b k k' (proxy_rules_linked (cf_proxy_rules c)) (proxy_rules_parked (cf_proxy_rules c)) in
  (forall x rs, m.1 !! x = Some rs -> (x <> k /\ x ∈ linked_names c) /\ rule_set_ok c rs) /\
  (forall x rs, m.2 !! x = Some rs -> rule_set_ok c rs).
Proof using V.
  destruct (demote_entry_values (rule_set_ok c) b k k' (proxy_rules_linked (cf_proxy_rules c))
    (proxy_rules_parked (cf_proxy_rules c))) as [H1 H2];
    [intros ? ? H; apply (vc_proxy_rules c V) in H; tauto..|]. split; [|exact H2].
  intros x rs [[Hx [? H]] Hr]%H1. apply (vc_proxy_rules c V) in H. tauto.
Qed.

Lemma routes_demoted b k k' :
  let m := demote_entry b k k' (route_rules_linked (cf_route_rules c)) (route_rules_parked (cf_route_rules c)) in
  (forall x rs, m.1 !! x = Some rs -> (x <> k /\ x ∈ linked_names c) /\ NoDup (route_prefix <$> rs)) /\
  (forall x rs, m.2 !! x = Some rs -> NoDup (route_prefix <$> rs)).
Proof using V.
  destruct (demote_entry_values (fun rs => NoDup (route_prefix <$> rs)) b k k'
    (route_rules_linked (cf_route_rules c)) (route_rules_parked (cf_route_rules c))) as [H1 H2];
    [intros ? ? H; apply (vc_route_rules c V) in H; tauto..|]. split; [|exact H2].
  intros x rs [[Hx [? H]] Hr]%H1. apply (vc_route_rules c V) in H. tauto.
Qed.

Lemma unlink_valid name : valid_unless False (apply_unlink r name c).
Proof using V.
  apply valid_unless_never. unfold apply_unlink. set (n := to_ascii_lowercase name).
  destruct (find_first _ (cf_projects c)) as [p|].
  - cbn. destruct (vc_projects c V) as (P1 & P2 & P3). apply valid_domains; [apply valid_projects; [done|..]|]; cbn.
    + by apply bfilter_fmap_NoDup.
    + by apply bfilter_fmap_NoDup.
    + intros x [_ Hx]%elem_of_bfilter. auto.
    + intros k d [H|[H|H]]; [..|apply lookup_delete_Some in H as [_ H]]; eapply delta_section_ok; eauto.
  - destruct (find_first _ (cf_linked c)) as [s|]; [|done]. cbn [applied].
    pose proof (vc_proxies c V) as [_ P]. pose proof (vc_projects c V) as (_ & _ & Q).
    set (keep := fun s => negb (str_eqb (site_name s) n)).
    assert (forall x, x ∈ (list_to_set (site_name <$> bfilter keep (cf_linked c)) : gset str) <->
      x ∈ linked_names c /\ x <> n) as Hn.
    { intros x. rewrite elem_of_list_to_set, list_elem_of_fmap, elem_of_linked_names.
      setoid_rewrite elem_of_bfilter. unfold keep, str_eqb. setoid_rewrite negb_true_iff.
      setoid_rewrite bool_decide_eq_false. naive_solver. }
    apply valid_sites; [done|..]; cbn.
    + apply bfilter_fmap_NoDup, V.
    + intros x [_ Hx]%elem_of_bfilter. by apply (vc_web_roots c V).
    + intros x Hx [H _]%Hn. by apply (P x Hx).
    + intros x Hx [H _]%Hn. destruct (Q x Hx) as (_ & Q' & _). done.
    + destruct (demote_entry_values delta_ok (parent_is_parked_root c (override_key s)) n (override_key s)
        (domains_linked (cf_domains c)) (domains_parked (cf_domains c))) as [H1 H2];
        [intros ? ? ?; eapply delta_section_ok; eauto..|].
      intros k x [H|[H|H]]; [by apply H1 in H as [_ H]|by apply H2 in H|eapply delta_section_ok; eauto].
    + intros k rs H. apply rules_demoted in H as [H1 H2]. split; [|done]. apply Hn. tauto.
    + apply rules_demoted.
    + intros k rs H. apply routes_demoted in H as [H1 H2]. split; [|done]. apply Hn. tauto.
    + apply routes_demoted.
Qed.

(** Setting a flag of one linked site. *)
Lemma linked_update_valid p f :
  (forall s, site_name (f s) = site_name s /\ site_web_subpath (f s) = site_web_subpath s) ->
  valid_config (put_linked (update_first p f (cf_linked c)) c).
Proof using V.
  intros Hf. assert (site_name <$> update_first p f (cf_linked c) = site_name <$> cf_linked c) as En
    by (apply update_first_fmap; apply Hf).
  change (put_linked ?l c) with (put_route_rules (cf_route_rules c) (put_proxy_rules (cf_proxy_rules c)
    (put_domains (cf_domains c) (put_linked l c)))).
  apply valid_sites; rewrite ?En; try done; try apply V.
  intros s Hs. apply elem_of_update_first in Hs as (y & Hy & [->| ->]);
    rewrite ?(proj2 (Hf _)); by apply (vc_web_roots c V).
Qed.

Lemma override_mut_valid key f :
  key <> [] -> (forall o, ov_web_root (f o) = ov_web_root o) -> valid_config (override_mut key f c).
Proof using V.
  intros Hk Hf. apply valid_overrides; [done|..].
  - rewrite lookup_insert_ne by done. apply (vc_overrides c V).
  - intros k o w [[<- <-]|[Hne Ho]]%lookup_insert_Some Hw.
    + rewrite Hf in Hw. destruct (cf_overrides c !! key) as [o|] eqn:E; [|done].
      by apply (vc_override_roots c V key o).
    + by apply (vc_override_roots c V k o).
Qed.

Context (M : router_matches c r).

(** What the router knows and the linked sites do not is parked. *)
Lemma parked_key n s : get r n = Some s -> has_linked c n = false -> override_key s <> [].
Proof using M.
  intros Hg Hl. apply (rm_parked c r M n); [done|]. rewrite <- has_linked_spec. congruence.
Qed.

Lemma secure_valid name b : valid_unless False (apply_set_secure r name b c).
Proof using M V.
  apply valid_unless_never. unfold apply_set_secure. set (n := to_ascii_lowercase name).
  destruct (has_linked c n) eqn:El; [by apply linked_update_valid|].
  destruct (get r n) as [s|] eqn:Eg; [apply override_mut_valid; [by eapply parked_key|done]|].
  destruct (has_proxy c n); [|destruct (existsb _ _); [|done]]; cbn [applied].
  - pose proof (vc_proxies c V) as [P1 P2]. pose proof (vc_projects c V) as (_ & _ & Q).
    assert (forall p f l, (forall x, proxy_name (f x) = proxy_name x) ->
      proxy_name <$> update_first p f l = proxy_name <$> l) as En by (intros; by apply update_first_fmap).
    apply valid_proxies; rewrite ?En; try done.
    + intros x Hx. apply elem_of_update_first in Hx as (y & Hy & [->| ->]); simpl; by apply P2.
    + intros x Hx. by destruct (Q x Hx) as (_ & _ & Q').
  - pose proof (vc_projects c V) as (Q1 & Q2 & Q3).
    apply valid_projects; rewrite ?update_first_fmap; try done.
    intros x Hx. apply elem_of_update_first in Hx as (y & Hy & [->| ->]); simpl; by apply Q3.
Qed.

Lemma front_controller_valid name b : valid_unless False (apply_set_front_controller r name b c).
Proof using M V.
  apply valid_unless_never. unfold apply_set_front_controller. set (n := to_ascii_lowercase name).
  destruct (has_linked c n) eqn:El; [by apply linked_update_valid|].
  destruct (get r n) as [s|] eqn:Eg; [apply override_mut_valid; [by eapply parked_key|done]|done].
Qed.

Lemma add_proxy_valid name url : valid_unless (clash r (AddProxy name url) None c) (apply_add_proxy r name url c).
Proof using M V.
  unfold apply_add_proxy. destruct (from_url_str url) as [t|]; [|done]. cbn [map_err mbind result_bind].
  unfold reject_loop_target. fold (targets_loop c t).
  destruct (targets_loop c t) eqn:Et; [done|]. cbn [mbind result_bind].
  destruct (ProxySite_new name t) as [p|] eqn:Ep; [|done]. cbn [map_err].
  assert (proxy_name p = to_ascii_lowercase name /\ proxy_target p = t) as [Hn Ht].
  { unfold ProxySite_new in Ep. destruct (validate_proxy_name name) as [n|] eqn:E; [|done].
    cbn in Ep. injection Ep as <-. by apply validate_proxy_name_spec in E as (_ & _ & <-). }
  destruct (bool_decide (is_Some (get r (proxy_name p))) || has_proxy c (proxy_name p)) eqn:Eb; [done|].
  apply orb_false_iff in Eb as [Eg Eh]. apply bool_decide_eq_false in Eg.
  destruct (domain_owner r _); [done|]. cbn [applied valid_unless clash]. rewrite <- Hn.
  pose proof (vc_proxies c V) as [P1 P2]. pose proof (vc_projects c V) as (_ & _ & Q). split.
  - intros V' H. apply list_elem_of_fmap in H as (x & Hx & Hin). apply (vc_projects _ V') in Hin as (_ & _ & Hin).
    apply Hin. cbn. rewrite <- Hx, fmap_app. set_solver.
  - intros Hc. assert (proxy_name p ∉ proxy_name <$> cf_proxies c) by (rewrite <- has_proxy_spec; congruence).
    apply valid_proxies; [done|..].
    + rewrite fmap_app. apply NoDup_app. split; [done|]. split; [set_solver|apply NoDup_singleton].
    + intros x [Hx|Hx]%elem_of_app; [by apply P2|]. apply list_elem_of_singleton in Hx as ->.
      rewrite Ht. split; [|done]. intros Hl. by apply Eg, (rm_names c r M).
    + intros x Hx. rewrite fmap_app. intros [H'|H']%elem_of_app.
      * by destruct (Q x Hx) as (_ & _ & Q').
      * apply list_elem_of_singleton in H'. apply Hc. simpl in H'. rewrite <- H'. by apply list_elem_of_fmap_2.
Qed.

Lemma remove_proxy_valid name : valid_unless False (apply_remove_proxy name c).
Proof using V.
  apply valid_unless_never. unfold apply_remove_proxy. destruct (_ =? _); [done|]. cbn [applied].
  pose proof (vc_proxies c V) as [P1 P2]. pose proof (vc_projects c V) as (_ & _ & Q).
  apply valid_domains; [apply valid_proxies; [done|..]|]; cbn.
  - by apply bfilter_fmap_NoDup.
  - intros x [_ Hx]%elem_of_bfilter. by apply P2.
  - intros x Hx (y & Hy & [_ Hin]%elem_of_bfilter)%list_elem_of_fmap. destruct (Q x Hx) as (_ & _ & Q').
    apply Q'. rewrite Hy. by apply list_elem_of_fmap_2.
  - intros k d [H|[H|H]]; [..|apply lookup_delete_Some in H as [_ H]]; eapply delta_section_ok; eauto.
Qed.

Lemma site_rule_key_linked n linked key :
  site_rule_key r n = Some (linked, key) -> linked = true -> key ∈ linked_names c.
Proof using M.
  unfold site_rule_key. destruct (get r n) as [s|] eqn:E; [|done]. cbn [mbind option_bind].
  destruct (site_kind s) eqn:Ek; intros [= <- <-] Hl; [done|]. by apply (rm_linked c r M n s).
Qed.

Definition rules_ok (linked : bool) (m : gmap str (list ProxyRule)) : Prop :=
  forall k rs, m !! k = Some rs -> rule_set_ok c rs /\ (linked = true -> k ∈ linked_names c).
Definition routes_ok (linked : bool) (m : gmap str (list RouteRule)) : Prop :=
  forall k rs, m !! k = Some rs -> NoDup (route_prefix <$> rs) /\ (linked = true -> k ∈ linked_names c).

Lemma proxy_rules_map_ok linked : rules_ok linked (proxy_rules_map linked c).
Proof using V. destruct linked; intros k rs H; apply (vc_proxy_rules c V) in H; naive_solver. Qed.
Lemma route_rules_map_ok linked : routes_ok linked (route_rules_map linked c).
Proof using V. destruct linked; intros k rs H; apply (vc_route_rules c V) in H; naive_solver. Qed.

Lemma put_rules_valid linked m : rules_ok linked m -> valid_config (put_proxy_rules_map linked m c).
Proof using V.
  intros H. pose proof (vc_proxy_rules c V) as [R1 R2].
  destruct linked; apply valid_proxy_rules; cbn; try done; intros k rs Hk; destruct (H k rs Hk); auto.
Qed.
Lemma put_routes_valid linked m : routes_ok linked m -> valid_config (put_route_rules_map linked m c).
Proof using V.
  intros H. pose proof (vc_route_rules c V) as [R1 R2].
  destruct linked; apply valid_route_rules; cbn; try done; intros k rs Hk; destruct (H k rs Hk); auto.
Qed.

Lemma existsb_prefix_fresh {R} (pfx : R -> str) x (rs : list R) :
  existsb (fun y => str_eqb (pfx y) x) rs = false -> x ∉ pfx <$> rs.
Proof using.
  rewrite existsb_none. intros H (y & -> & Hy)%list_elem_of_fmap. specialize (H y Hy).
  unfold str_eqb in H. by rewrite bool_decide_true in H.
Qed.

Lemma add_rule_valid site prefix url : valid_unless False (apply_add_proxy_rule r site prefix url c).
Proof using M V.
  apply valid_unless_never. unfold apply_add_proxy_rule. set (n := to_ascii_lowercase site).
  destruct (from_url_str url) as [t|]; [|done]. cbn [map_err mbind result_bind].
  unfold reject_loop_target. fold (targets_loop c t).
  destruct (targets_loop c t) eqn:Et; [done|]. cbn [mbind result_bind].
  destruct (ProxyRule_new prefix t) as [rule|] eqn:Er; [|done]. cbn [map_err mbind result_bind].
  destruct (site_rule_key r n) as [[linked key]|] eqn:Ek; [|done]. cbn [ok_or mbind result_bind].
  destruct (existsb _ _) eqn:Ee; [done|]. apply existsb_prefix_fresh in Ee. cbn [applied].
  apply put_rules_valid. intros k rs [[<- <-]|[_ Hk]]%lookup_insert_Some; [|by apply proxy_rules_map_ok].
  split; [|by eapply site_rule_key_linked].
  assert (rule_target rule = t) as Ht.
  { unfold ProxyRule_new in Er. repeat case_match; try done. by injection Er as <-. }
  assert (rule_set_ok c (default [] (proxy_rules_map linked c !! key))) as [R1 R2].
  { destruct (_ !! key) as [rs|] eqn:E; [by apply proxy_rules_map_ok in E as [? _]|].
    split; [constructor|]. by intros ? ?%elem_of_nil. }
  split.
  - rewrite fmap_app. apply NoDup_app. split; [done|]. split; [set_solver|apply NoDup_singleton].
  - intros x [Hx|Hx]%elem_of_app; [auto|]. apply list_elem_of_singleton in Hx as ->. by rewrite Ht.
Qed.

Lemma remove_rule_valid site prefix : valid_unless False (apply_remove_proxy_rule r site prefix c).
Proof using M V.
  apply valid_unless_never. unfold apply_remove_proxy_rule.
  destruct (site_rule_key r _) as [[linked key]|] eqn:Ek; [|done].
  destruct (proxy_rules_map linked c !! key) as [rs|] eqn:Em; [|done].
  destruct (_ =? _); [done|]. cbn [applied]. apply put_rules_valid. intros k rs'.
  destruct (is_empty _); [intros [_ H]%lookup_delete_Some; by apply proxy_rules_map_ok|].
  intros [[<- <-]|[_ H]]%lookup_insert_Some; [|by apply proxy_rules_map_ok].
  apply proxy_rules_map_ok in Em as [[R1 R2] R3]. split; [split|done]; [by apply bfilter_fmap_NoDup|].
  intros x [_ Hx]%elem_of_bfilter. auto.
Qed.

Lemma add_route_valid site prefix target : valid_unless False (apply_add_route_rule r site prefix target c).
Proof using M V.
  apply valid_unless_never. unfold apply_add_route_rule. set (n := to_ascii_lowercase site).
  destruct (RouteRule_new prefix target) as [rule|]; [|done]. cbn [map_err mbind result_bind].
  destruct (site_rule_key r n) as [[linked key]|] eqn:Ek; [|done]. cbn [ok_or mbind result_bind].
  destruct (existsb _ _) eqn:Ee; [done|]. apply existsb_prefix_fresh in Ee. cbn [applied].
  apply put_routes_valid. intros k rs [[<- <-]|[_ Hk]]%lookup_insert_Some; [|by apply route_rules_map_ok].
  split; [|by eapply site_rule_key_linked]. rewrite fmap_app. apply NoDup_app.
  split; [|split; [set_solver|apply NoDup_singleton]].
  destruct (_ !! key) as [rs|] eqn:E; [by apply route_rules_map_ok in E as [? _]|constructor].
Qed.

Lemma remove_route_valid site prefix : valid_unless False (apply_remove_route_rule r site prefix c).
Proof using M V.
  apply valid_unless_never. unfold apply_remove_route_rule.
  destruct (site_rule_key r _) as [[linked key]|] eqn:Ek; [|done].
  destruct (route_rules_map linked c !! key) as [rs|] eqn:Em; [|done].
  destruct (_ =? _); [done|]. cbn [applied]. apply put_routes_valid. intros k rs'.
  destruct (is_empty _); [intros [_ H]%lookup_delete_Some; by apply route_rules_map_ok|].
  intros [[<- <-]|[_ H]]%lookup_insert_Some; [|by apply route_rules_map_ok].
  apply route_rules_map_ok in Em as [R1 R3]. split; [by apply bfilter_fmap_NoDup|done].
Qed.

End Validity.

(** The two shapes a domain command leaves a delta in. *)
Lemma delta_unsuppress (d : DomainDelta) apex p :
  delta_ok d -> (forall q, p = Some q -> is_wildcard q = false) ->
  delta_ok (mkDelta (added d) (without apex (suppressed d)) p).
Proof.
  intros (D1 & D2 & D3) Hp. split; [done|]. split; [|done]. intros s [Hs _]%elem_of_without. auto.
Qed.

Lemma delta_add (d : DomainDelta) dom p :
  delta_ok d -> (forall q, p = Some q -> is_wildcard q = false) ->
  let a := if bool_decide (dom ∈ added d) then added d else added d ++ [dom] in
  delta_ok (mkDelta a (suppressed d) p) <-> dom ∉ suppressed d.
Proof.
  intros (D1 & D2 & D3) Hp a. unfold delta_ok. cbn. split.
  - intros (_ & H & _) Hs. apply (H _ Hs). unfold a. case_bool_decide; set_solver.
  - intros Hs. unfold a. case_bool_decide as Ha; [done|]. split; [|split; [|done]].
    + apply NoDup_app. split; [done|]. split; [set_solver|apply NoDup_singleton].
    + intros s Hin [H|H]%elem_of_app; [by eapply D2|]. apply list_elem_of_singleton in H as ->. done.
Qed.

Section DomainValidity.
Context (c : Config) (r : SiteRouter) (V : valid_config c).

Lemma delta_put_valid t o : (forall d, o = Some d -> delta_ok d) -> valid_config (delta_put t o c).
Proof using V.
  intros Ho. apply valid_domains; [done|]. intros k d.
  destruct t as [n|n|n]; cbn; intros [H|[H|H]];
    try (eapply (delta_section_ok c); by eauto); destruct (decide (n = k)) as [->|];
    try (rewrite lookup_partial_alter_eq in H; by apply Ho);
    rewrite lookup_partial_alter_ne in H by done; eapply (delta_section_ok c); eauto.
Qed.

Lemma stored_valid t d : delta_ok d -> valid_config (delta_put t (stored d) c).
Proof using V. intros H. apply delta_put_valid. unfold stored. case_match; intros; [done|by simplify_eq]. Qed.

Lemma stored_invalid t d : ~ delta_ok d -> DomainDelta_is_empty d = false -> ~ valid_config (delta_put t (stored d) c).
Proof using V.
  intros Hd He V'. apply Hd. pose proof (delta_get_put c t (stored d)) as Hg. unfold stored in *. rewrite He in *.
  destruct t as [n|n|n]; cbn in Hg; apply (vc_domains _ V' n); auto.
Qed.

Lemma delta_current t : delta_ok (default delta_default (delta_get c t)).
Proof using V.
  destruct (delta_get c t) as [d|] eqn:E.
  - destruct t; cbn in E; eapply (delta_section_ok c); eauto.
  - split; [constructor|]. split; [by intros ? ?%elem_of_nil|done].
Qed.

(** The outcome of an addition, with or without making it the primary. *)
Lemma added_valid t dom (p : option Domain) :
  let d := default delta_default (delta_get c t) in
  (forall q, p = Some q -> is_wildcard q = false) ->
  let a := if bool_decide (dom ∈ added d) then added d else added d ++ [dom] in
  valid_config (delta_put t (stored (mkDelta a (suppressed d) p)) c) <-> dom ∉ suppressed d.
Proof using V.
  intros d Hp a. pose proof (delta_add d dom p (delta_current t) Hp) as Ha. fold a in Ha.
  destruct (decide (dom ∈ suppressed d)) as [Hs|Hs].
  - split; [|done]. intros V'. exfalso. eapply stored_invalid; [| |exact V'].
    + rewrite Ha. tauto.
    + unfold DomainDelta_is_empty. cbn. destruct (suppressed d); [by apply elem_of_nil in Hs|].
      by rewrite andb_false_r.
  - split; [done|]. intros _. apply stored_valid. by apply Ha.
Qed.

Lemma add_domain_valid name domain :
  valid_unless (clash r (AddDomain name domain) None c) (apply_add_domain r name domain c).
Proof using V.
  unfold apply_add_domain, clash. set (n := to_ascii_lowercase name).
  destruct (resolve_domain_target c r n) as [t|] eqn:Et; [|done]. cbn [mbind result_bind].
  destruct (parse_domain c domain) as [dom|] eqn:Ed; [|done]. cbn [mbind result_bind].
  destruct (reject_if_claimed_elsewhere _ _ _ _); [|done]. cbn [mbind result_bind delta_mut applied valid_unless].
  rewrite prune_put, delta_put_put. pose proof (delta_current t) as Hd. set (d := default _ _) in *.
  destruct (bool_decide (dom = Domain_apex n)) eqn:Ea.
  - apply bool_decide_eq_true in Ea. split; [naive_solver|]. intros _. apply stored_valid.
    apply delta_unsuppress; [done|]. apply Hd.
  - apply bool_decide_eq_false in Ea.
    assert ((if bool_decide (dom ∈ added d) then d else mkDelta (added d ++ [dom]) (suppressed d) (primary d)) =
      mkDelta (if bool_decide (dom ∈ added d) then added d else added d ++ [dom]) (suppressed d) (primary d)) as ->
      by (destruct (bool_decide _); by destruct d).
    pose proof (added_valid t dom (primary d)) as Ha. cbn zeta in Ha. fold d in Ha. rewrite Ha by apply Hd.
    naive_solver.
Qed.

Lemma set_primary_valid name domain :
  valid_unless (clash r (SetPrimaryDomain name domain) None c) (apply_set_primary_domain r name domain c).
Proof using V.
  unfold apply_set_primary_domain, clash. set (n := to_ascii_lowercase name).
  destruct (resolve_domain_target c r n) as [t|] eqn:Et; [|done]. cbn [mbind result_bind].
  destruct (parse_domain c domain) as [dom|] eqn:Ed; [|done]. cbn [mbind result_bind].
  destruct (is_wildcard dom) eqn:Ew; [done|]. cbn [mbind result_bind].
  destruct (reject_if_claimed_elsewhere _ _ _ _); [|done]. cbn [mbind result_bind delta_mut applied valid_unless].
  rewrite prune_put, delta_put_put. pose proof (delta_current t) as Hd. set (d := default _ _) in *.
  destruct (bool_decide (dom = Domain_apex n)) eqn:Ea.
  - apply bool_decide_eq_true in Ea. split; [naive_solver|]. intros _. apply stored_valid. by apply delta_unsuppress.
  - apply bool_decide_eq_false in Ea.
    pose proof (added_valid t dom (Some dom)) as Ha. cbn zeta in Ha. fold d in Ha. rewrite Ha by congruence.
    naive_solver.
Qed.

Lemma remove_domain_valid name domain : valid_unless False (apply_remove_domain r name domain c).
Proof using V.
  apply valid_unless_never. unfold apply_remove_domain. set (n := to_ascii_lowercase name).
  destruct (resolve_domain_target c r n) as [t|] eqn:Et; [|done]. cbn [mbind result_bind].
  destruct (parse_domain c domain) as [dom|] eqn:Ed; [|done]. cbn [mbind result_bind delta_mut].
  destruct (delta_current t) as (D1 & D2 & D3). set (d := default _ _) in *.
  assert (forall q, (if bool_decide (primary d = Some dom) then None else primary d) = Some q ->
    is_wildcard q = false) as Hp by (intros q; case_bool_decide; [done|apply D3]).
  destruct (bool_decide (dom ∈ added d)) eqn:Ea; [|destruct (bool_decide (dom = Domain_apex n)) eqn:Eb; [|done]];
    (destruct (_ =? 0); [done|]); cbn [applied]; rewrite prune_put, delta_put_put; apply stored_valid.
  - split; [by apply bfilter_NoDup|]. split; [|done]. intros s Hs [Hin _]%elem_of_without. by eapply D2.
  - apply bool_decide_eq_false in Ea. apply bool_decide_eq_true in Eb. subst dom. split; [done|]. split; [|done].
    cbn. intros s. destruct (bool_decide (_ ∈ suppressed d)); [apply D2|]. intros [Hs|Hs]%elem_of_app; [by apply D2|].
    by apply list_elem_of_singleton in Hs as ->.
Qed.

Lemma reset_domains_valid name : valid_unless False (apply_reset_domains r name c).
Proof using V.
  apply valid_unless_never. unfold apply_reset_domains. destruct (resolve_domain_target _ _ _); [|done].
  by apply delta_put_valid.
Qed.

End DomainValidity.

(** ** Groups *)

Record groups_ok (g : GroupsSection) : Prop := mkGroupsOk {
  go_unique : NoDup (to_ascii_lowercase <$> groups_order g);
  go_names : forall x, x ∈ groups_order g -> x <> [] /\ eq_ignore_ascii_case x RESERVED_GROUP_NAME = false;
  go_members : forall s v, groups_members g !! s = Some v ->
    exists x, x ∈ groups_order g /\ eq_ignore_ascii_case v x = true;
}.

(** Every member names its group with the stored casing. *)
Definition members_exact (g : GroupsSection) : Prop :=
  forall s v, groups_members g !! s = Some v -> v ∈ groups_order g.

Definition groups_good (g : GroupsSection) : Prop := groups_ok g /\ members_exact g.

Lemma valid_groups_ok c : valid_config c -> groups_ok (cf_groups c).
Proof. intros V. destruct (vc_groups c V). constructor; [done..|]. apply (vc_members c V). Qed.

Lemma put_groups_valid c g : valid_config c -> groups_ok g -> valid_config (put_groups g c).
Proof. intros V []. by apply valid_groups. Qed.

Lemma eq_ignore_false a b : eq_ignore_ascii_case a b = false <-> to_ascii_lowercase a <> to_ascii_lowercase b.
Proof. rewrite <- not_true_iff_false, eq_ignore_case_true. done. Qed.

Lemma elem_of_lowered (l : list str) x :
  to_ascii_lowercase x ∈ to_ascii_lowercase <$> l <-> existsb (fun g => eq_ignore_ascii_case g x) l = true.
Proof.
  rewrite existsb_elem, list_elem_of_fmap. setoid_rewrite eq_ignore_case_true. naive_solver.
Qed.

(** What a group command does to the section when it succeeds. *)
Definition groups_step (c : Config) (o : outcome) : Prop :=
  match o with
  | (Ok _, c') => exists g', c' = put_groups g' c /\
      (groups_ok (cf_groups c) -> groups_ok g') /\ (groups_good (cf_groups c) -> members_exact g')
  | (Err _, c') => c' = c
  end.

Lemma create_group_step c name : groups_step c (apply_create_group name c).
Proof.
  unfold apply_create_group. set (n := trim name). destruct (is_empty n) eqn:Ee; [done|].
  destruct (eq_ignore_ascii_case n _) eqn:Er; [done|]. destruct (has_group c n) eqn:Eh; [done|].
  eexists. split; [reflexivity|]. apply is_empty_false in Ee. split.
  - intros [G1 G2 G3]. constructor; cbn.
    + rewrite fmap_app. apply NoDup_app. split; [done|]. split; [|apply NoDup_singleton].
      intros x Hx Hn%list_elem_of_singleton. subst x. apply elem_of_lowered in Hx. unfold has_group in Eh. congruence.
    + intros x [Hx|Hx]%elem_of_app; [auto|]. by apply list_elem_of_singleton in Hx as ->.
    + intros s v (x & Hx & Hv)%G3. exists x. set_solver.
  - intros [_ H] s v Hv. cbn in *. apply elem_of_app. left. by eapply H.
Qed.

Lemma delete_group_step c name : groups_step c (apply_delete_group name c).
Proof.
  unfold apply_delete_group. cbn [applied groups_step]. eexists. split; [reflexivity|].
  assert (forall v x, eq_ignore_ascii_case v x = true -> negb (eq_ignore_ascii_case v name) = true ->
    negb (eq_ignore_ascii_case x name) = true) as Hk.
  { intros v x. rewrite !negb_true_iff, !eq_ignore_false, eq_ignore_case_true. congruence. }
  split.
  - intros [G1 G2 G3]. constructor; cbn.
    + by apply bfilter_fmap_NoDup.
    + intros x [_ Hx]%elem_of_bfilter. auto.
    + intros s v [Hv Hn]%map_lookup_filter_Some. destruct (G3 s v Hv) as (x & Hx & He).
      exists x. split; [|done]. apply elem_of_bfilter. eauto.
  - intros [_ H] s v [Hv Hn]%map_lookup_filter_Some. apply elem_of_bfilter. split; [done|]. by eapply H.
Qed.

Lemma merge_sort_perm (a b : list str) : merge_sort str_le a = merge_sort str_le b <-> a ≡ₚ b.
Proof.
  split.
  - intros H. by rewrite <- (merge_sort_Permutation str_le a), H, merge_sort_Permutation.
  - intros H. apply (StronglySorted_unique str_le); [apply StronglySorted_merge_sort; apply _..|].
    by rewrite !merge_sort_Permutation.
Qed.

Lemma set_group_order_step c order : groups_step c (apply_set_group_order order c).
Proof.
  unfold apply_set_group_order. destruct (bool_decide _) eqn:Eb; [|done]. apply bool_decide_eq_true in Eb.
  apply merge_sort_perm in Eb. cbn [negb applied groups_step]. eexists. split; [reflexivity|]. split.
  - intros [G1 G2 G3]. constructor; cbn.
    + by rewrite Eb.
    + intros x. rewrite Eb. apply G2.
    + intros s v Hv. setoid_rewrite Eb. by eapply G3.
  - intros [_ H] s v Hv. cbn in *. rewrite Eb. by eapply H.
Qed.

Lemma set_site_group_step c site group : groups_step c (apply_set_site_group site group c).
Proof.
  unfold apply_set_site_group. destruct group as [g|].
  - destruct (find_first _ _) as [x|] eqn:Ef; [|done]. apply find_first_elem in Ef as [Hx He].
    eexists. split; [reflexivity|]. split.
    + intros [G1 G2 G3]. constructor; cbn; [done..|]. intros s v [[_ <-]|[_ Hv]]%lookup_insert_Some; [|eauto].
      exists x. split; [done|]. by apply eq_ignore_case_true.
    + intros [_ H] s v. cbn. intros [[_ <-]|[_ Hv]]%lookup_insert_Some; [done|]. by eapply H.
  - eexists. split; [reflexivity|]. split.
    + intros [G1 G2 G3]. constructor; cbn; [done..|]. intros s v [_ Hv]%lookup_delete_Some. eauto.
    + intros [_ H] s v. cbn. intros [_ Hv]%lookup_delete_Some. by eapply H.
Qed.

(** The names left at other positions. *)
Lemma elem_of_insert_list {A} (l : list A) i x y :
  y ∈ <[i := x]> l -> y = x \/ exists j, j <> i /\ l !! j = Some y.
Proof.
  intros (j & Hj)%list_elem_of_lookup. destruct (decide (i = j)) as [<-|Hne].
  - destruct (decide (i < length l)%nat) as [Hl|Hl].
    + rewrite list_lookup_insert_eq in Hj by done. left. congruence.
    + rewrite list_insert_ge in Hj by lia. apply lookup_lt_Some in Hj. lia.
  - rewrite list_lookup_insert_ne in Hj by done. right. eauto.
Qed.

Lemma renamed_order_ok (l : list str) idx old new :
  l !! idx = Some old -> NoDup (to_ascii_lowercase <$> l) ->
  existsb (fun e => negb (e.1 =? idx)%nat && eq_ignore_ascii_case e.2 new) (enumerate l) = false ->
  NoDup (to_ascii_lowercase <$> <[idx := new]> l) /\
  (forall j x, l !! j = Some x -> j <> idx -> to_ascii_lowercase x <> to_ascii_lowercase new).
Proof.
  intros Hi Hnd He. assert (forall j x, l !! j = Some x -> j <> idx ->
    to_ascii_lowercase x <> to_ascii_lowercase new) as Hfree.
  { intros j x Hj Hne. rewrite existsb_none in He. specialize (He (j, x)). cbn in He.
    rewrite (proj2 (Nat.eqb_neq _ _) Hne) in He. apply eq_ignore_false, He. by apply elem_of_enumerate. }
  split; [|done]. apply NoDup_alt. intros a b x Ha Hb.
  rewrite list_lookup_fmap in Ha, Hb. pose proof (lookup_lt_Some _ _ _ Hi) as Hlen.
  destruct (decide (a = idx)) as [->|Hna], (decide (b = idx)) as [->|Hnb]; try done;
    rewrite ?list_lookup_insert_eq, ?list_lookup_insert_ne in Ha by done;
    rewrite ?list_lookup_insert_eq, ?list_lookup_insert_ne in Hb by done; cbn in Ha, Hb.
  - destruct (l !! b) as [y|] eqn:Eb; [|done]. cbn in Hb. exfalso. apply (Hfree b y Eb Hnb). congruence.
  - destruct (l !! a) as [y|] eqn:Ea; [|done]. cbn in Ha. exfalso. apply (Hfree a y Ea Hna). congruence.
  - rewrite NoDup_alt in Hnd. apply (Hnd a b x); by rewrite list_lookup_fmap.
Qed.

Lemma rename_group_step c from to : groups_step c (apply_rename_group from to c).
Proof.
  unfold apply_rename_group. set (n := trim to). destruct (is_empty n) eqn:Ee; [done|].
  destruct (eq_ignore_ascii_case n _) eqn:Er; [done|].
  destruct (position _ _) as [idx|] eqn:Ep; [|done].
  destruct (existsb _ (enumerate _)) eqn:Ex; [done|]. apply is_empty_false in Ee.
  apply position_Some in Ep as (old & Ho & Hf). rewrite Ho. cbn [applied groups_step].
  apply eq_ignore_case_true in Hf.
  set (order := groups_order (cf_groups c)) in *.
  assert (forall x, x ∈ order -> eq_ignore_ascii_case x from = false -> x ∈ <[idx := n]> order) as Hkeep.
  { intros x (j & Hj)%list_elem_of_lookup Hx. apply list_elem_of_lookup. exists j.
    rewrite list_lookup_insert_ne; [done|]. intros <-. apply eq_ignore_false in Hx. congruence. }
  assert (n ∈ <[idx := n]> order) as Hnew.
  { apply list_elem_of_lookup. exists idx. apply list_lookup_insert_eq. by eapply lookup_lt_Some. }
  eexists. split; [reflexivity|]. split.
  - intros [G1 G2 G3]. destruct (renamed_order_ok order idx old n Ho G1 Ex) as [H1 _].
    constructor; cbn; [done|..].
    + intros x [->|(j & _ & Hj)]%elem_of_insert_list; [done|]. apply G2. by eapply list_elem_of_lookup_2.
    + intros s v. rewrite lookup_fmap. destruct (groups_members (cf_groups c) !! s) as [w|] eqn:Ew; [|done].
      cbn. intros [= <-]. destruct (eq_ignore_ascii_case w from) eqn:Ef.
      * exists n. split; [done|]. by apply eq_ignore_case_true.
      * destruct (G3 s w Ew) as (x & Hx & He). exists x. split; [|done]. apply Hkeep; [done|].
        apply eq_ignore_false in Ef. apply eq_ignore_case_true in He. apply eq_ignore_false. congruence.
  - intros [_ H] s v. cbn. rewrite lookup_fmap.
    destruct (groups_members (cf_groups c) !! s) as [w|] eqn:Ew; [|done]. cbn. intros [= <-].
    destruct (eq_ignore_ascii_case w from) eqn:Ef; [done|]. apply Hkeep; [by eapply H|done].
Qed.

(** ** All commands *)

Lemma groups_step_valid c o : valid_config c -> groups_step c o -> valid_unless False o.
Proof.
  intros V H. apply valid_unless_never. destruct o as [[a|e] c']; [|done].
  destruct H as (g & -> & Hg & _). by apply put_groups_valid, Hg, valid_groups_ok.
Qed.

Lemma apply_valid_spec c r req canonical php :
  valid_config c -> router_matches c r -> valid_unless (clash r req canonical c) (apply r req canonical php c).
Proof.
  intros V M. destruct req; try exact I; cbn [apply clash].
  - exact (park_valid c r V canonical path).
  - exact (link_valid c r V name path canonical php).
  - by apply unlink_valid.
  - by apply unpark_valid.
  - by apply secure_valid.
  - by apply add_domain_valid.
  - by apply remove_domain_valid.
  - by apply set_primary_valid.
  - by apply reset_domains_valid.
  - by apply add_proxy_valid.
  - by apply remove_proxy_valid.
  - by apply add_rule_valid.
  - by apply remove_rule_valid.
  - eapply groups_step_valid; [done|apply create_group_step].
  - eapply groups_step_valid; [done|apply delete_group_step].
  - eapply groups_step_valid; [done|apply set_group_order_step].
  - eapply groups_step_valid; [done|apply set_site_group_step].
  - eapply groups_step_valid; [done|apply rename_group_step].
  - by apply front_controller_valid.
  - by apply add_route_valid.
  - by apply remove_route_valid.
Qed.

(** C10. A mutation that succeeds on a valid configuration leaves one that
    validates, for every command; the only exceptions are the clashes named by
    [clash] (a name another kind of claimant holds, a domain listed as
    suppressed, an empty path), and those are always refused. *)
Theorem apply_validates_exactly c r req canonical php a c'
    (V : validate c = Ok tt) (M : router_matches c r) (H : apply r req canonical php c = (Ok a, c')) :
  validate c' = Ok tt <-> ~ clash r req canonical c.
Proof.
  rewrite validate_spec in *. pose proof (apply_valid_spec c r req canonical php V M) as Hv. by rewrite H in Hv.
Qed.

Definition demo_router0 : SiteRouter := SiteRouter_new (with_tld Tld_default).
Lemma demo_matches : router_matches Config_default demo_router0.
Proof.
  constructor.
  - intros n s Hg _. unfold get in Hg. cbn in Hg. by rewrite lookup_empty in Hg.
  - intros n s Hg _. unfold get in Hg. cbn in Hg. by rewrite lookup_empty in Hg.
  - intros n Hn. unfold linked_names in Hn. cbn in Hn. set_solver.
Qed.

Lemma apply_validates_exactly_witness :
  let c' := (apply demo_router0 (AddProxy "api"%str "http://127.0.0.1:3000"%str) None (mkPhp 8 3) Config_default).2 in
  validate c' = Ok tt <-> ~ clash demo_router0 (AddProxy "api"%str "http://127.0.0.1:3000"%str) None Config_default.
Proof.
  apply (apply_validates_exactly Config_default demo_router0
    (AddProxy "api"%str "http://127.0.0.1:3000"%str) None (mkPhp 8 3)
    (mkApplied "added proxy api -> http://127.0.0.1:3000"%str)).
  - vm_compute. reflexivity.
  - exact demo_matches.
  - vm_compute. reflexivity.
Defined.
