(* ===== verification/Storable.v ===== *)
(** * Commands keep configurations storable

    Every value of a configuration stays one its own constructor returns
    ([storable] of [Serialize]) under every configuration command, so what the
    daemon saves is always a file it can load again. *)

From S2P Require Import Prelude RustStr RustMap RustPath CoreError DnsLabel Tld Domain Php Site Proxy Router Project Settings Config Migrate Wire Serialize SiteDomains Ipc Mutate MutateValid.

Open Scope N_scope.

(** ** Per value *)

Definition site_stable (s : Site) : Prop :=
  validate_and_lowercase_name (site_name s) = Ok (site_name s) /\ php_stable (site_php s).
Definition project_stable (p : ContainerProject) : Prop :=
  validate_and_lowercase_name (project_name p) = Ok (project_name p).
Definition override_stable (o : SiteOverride) : Prop := forall v, ov_php o = Some v -> php_stable v.
Definition proxy_stable (p : ProxySite) : Prop :=
  validate_proxy_name (proxy_name p) = Ok (proxy_name p) /\ target_stable (proxy_target p).
Definition delta_stable (d : DomainDelta) : Prop :=
  forall x, x ∈ added d \/ x ∈ suppressed d \/ primary d = Some x -> domain_stable x.
Definition rules_stable (rs : list ProxyRule) : Prop :=
  forall r, r ∈ rs -> ProxyRule_new (rule_prefix r) (rule_target r) = Ok r /\ target_stable (rule_target r).
Definition routes_stable (rs : list RouteRule) : Prop :=
  forall r, r ∈ rs -> RouteRule_new (route_prefix r) (route_target r) = Ok r.

Definition all_values {A} (P : A -> Prop) (m : gmap str A) : Prop := forall k x, m !! k = Some x -> P x.

Record domains_stable (d : DomainsSection) : Prop := mkDomStable {
  dst_linked : all_values delta_stable (domains_linked d);
  dst_parked : all_values delta_stable (domains_parked d);
  dst_proxy : all_values delta_stable (domains_proxy d);
}.

Lemma storable_parts c : storable c ->
  (forall s, s ∈ cf_linked c -> site_stable s) /\ (forall p, p ∈ cf_projects c -> project_stable p) /\
  all_values override_stable (cf_overrides c) /\ (forall p, p ∈ cf_proxies c -> proxy_stable p) /\
  domains_stable (cf_domains c) /\
  all_values rules_stable (proxy_rules_linked (cf_proxy_rules c)) /\
  all_values rules_stable (proxy_rules_parked (cf_proxy_rules c)) /\
  all_values routes_stable (route_rules_linked (cf_route_rules c)) /\
  all_values routes_stable (route_rules_parked (cf_route_rules c)).
Proof.
  intros [S1 S2 S3 S4 S5 S6 S7 S8 S9 S10 S11 S12 S13 S14].
  split; [done|]. split; [done|]. split; [intros k o Ho v; by apply (S9 k)|]. split; [done|].
  split; [split; intros k d Hd x; apply (S11 k d); auto|].
  split; [intros k rs Hk r; apply (S13 k rs); auto|]. split; [intros k rs Hk r; apply (S13 k rs); auto|].
  split; intros k rs Hk r; apply (S14 k rs); auto.
Qed.

(** ** Per section *)

(** A change of sections no value of which is restricted. *)
Ltac storable_same := let S := fresh in intros S; destruct S; constructor; assumption.

Lemma storable_linked c l : storable c -> (forall s, s ∈ l -> site_stable s) -> storable (put_linked l c).
Proof. intros [] Hl. constructor; assumption. Qed.
Lemma storable_projects c l : storable c -> (forall p, p ∈ l -> project_stable p) -> storable (put_projects l c).
Proof. intros [] Hl. constructor; assumption. Qed.
Lemma storable_proxies c l : storable c -> (forall p, p ∈ l -> proxy_stable p) -> storable (put_proxies l c).
Proof. intros [] Hl. constructor; assumption. Qed.
Lemma storable_overrides c m : storable c -> all_values override_stable m -> storable (put_overrides m c).
Proof. intros [] Hl. constructor; try assumption. intros k o v Ho. by apply (Hl k). Qed.
Lemma storable_domains c d : storable c -> domains_stable d -> storable (put_domains d c).
Proof.
  intros [] [H1 H2 H3]. constructor; try assumption.
  intros k x y [Hk|[Hk|Hk]]; [by apply (H1 k)|by apply (H2 k)|by apply (H3 k)].
Qed.
Lemma storable_proxy_rules c a b : storable c -> all_values rules_stable a -> all_values rules_stable b ->
  storable (put_proxy_rules (mkProxyRules a b) c).
Proof. intros [] Ha Hb. constructor; try assumption. intros k rs r [Hk|Hk]; [by apply (Ha k)|by apply (Hb k)]. Qed.
Lemma storable_route_rules c a b : storable c -> all_values routes_stable a -> all_values routes_stable b ->
  storable (put_route_rules (mkRouteRules a b) c).
Proof. intros [] Ha Hb. constructor; try assumption. intros k rs r [Hk|Hk]; [by apply (Ha k)|by apply (Hb k)]. Qed.

Lemma all_insert {A} (P : A -> Prop) (m : gmap str A) (k : str) (x : A) : all_values P m -> P x -> all_values P (<[k := x]> m).
Proof. intros Hm Hx j y. rewrite lookup_insert. case_decide; [by intros [= <-]|apply Hm]. Qed.
Lemma all_delete {A} (P : A -> Prop) (m : gmap str A) (k : str) : all_values P m -> all_values P (delete k m).
Proof. intros Hm j y [_ H]%lookup_delete_Some. by eapply Hm. Qed.
Lemma all_retain {A} (P : A -> Prop) (keep : str -> bool) (m : gmap str A) : all_values P m -> all_values P (retain_keys keep m).
Proof. intros Hm j y [H _]%retain_keys_Some. by eapply Hm. Qed.
Lemma all_move {A} (P : A -> Prop) (k k' : str) (from to : gmap str A) : all_values P from -> all_values P to ->
  all_values P (move_entry k k' from to).1 /\ all_values P (move_entry k k' from to).2.
Proof.
  intros Hf Ht. destruct (move_entry_values P k k' from to) as [H1 H2]; [exact Hf|exact Ht|].
  split; [exact H1|]. intros x v Hv. by apply (H2 x v Hv).
Qed.
Lemma all_demote {A} (P : A -> Prop) (b : bool) (k k' : str) (from to : gmap str A) : all_values P from -> all_values P to ->
  all_values P (demote_entry b k k' from to).1 /\ all_values P (demote_entry b k k' from to).2.
Proof.
  intros Hf Ht. destruct (demote_entry_values P b k k' from to) as [H1 H2]; [exact Hf|exact Ht|].
  split; [|exact H2]. intros x v Hv. by apply (H1 x v Hv).
Qed.

Lemma update_first_all {A} (P : A -> Prop) p f (l : list A) :
  (forall x, x ∈ l -> P x) -> (forall x, P x -> P (f x)) -> forall x, x ∈ update_first p f l -> P x.
Proof. intros Hl Hf x (y & Hy & [->| ->])%elem_of_update_first; auto. Qed.

Lemma bfilter_all {A} (P : A -> Prop) p (l : list A) : (forall x, x ∈ l -> P x) -> forall x, x ∈ bfilter p l -> P x.
Proof. intros Hl x [_ Hx]%elem_of_bfilter. auto. Qed.

Lemma snoc_all {A} (P : A -> Prop) (l : list A) y : (forall x, x ∈ l -> P x) -> P y -> forall x, x ∈ l ++ [y] -> P x.
Proof. intros Hl Hy x [Hx| ->%list_elem_of_singleton]%elem_of_app; auto. Qed.

Create HintDb storable_db.
#[export] Hint Resolve storable_linked storable_projects storable_proxies storable_overrides storable_domains
  storable_proxy_rules storable_route_rules all_insert all_delete all_retain
  : storable_db.

(** ** Domains *)

Lemma delta_default_stable : delta_stable delta_default.
Proof. intros x [H|[H|H]]; [by apply elem_of_nil in H|by apply elem_of_nil in H|done]. Qed.

Lemma delta_get_stable c t d : domains_stable (cf_domains c) -> delta_get c t = Some d -> delta_stable d.
Proof. intros [H1 H2 H3]. destruct t; cbn; [apply H1|apply H2|apply H3]. Qed.

Lemma all_alter {A} (P : A -> Prop) (m : gmap str A) (k : str) (o : option A) :
  all_values P m -> (forall x, o = Some x -> P x) -> all_values P (partial_alter (fun _ => o) k m).
Proof.
  intros Hm Ho j x. destruct (decide (j = k)) as [->|Hne].
  - rewrite lookup_partial_alter_eq. apply Ho.
  - rewrite lookup_partial_alter_ne by done. apply Hm.
Qed.

Lemma delta_put_storable t o c : storable c -> (forall d, o = Some d -> delta_stable d) -> storable (delta_put t o c).
Proof.
  intros S Ho. destruct (storable_parts c S) as (_ & _ & _ & _ & [H1 H2 H3] & _).
  apply storable_domains; [done|]. destruct t; constructor; cbn; try done; by apply all_alter.
Qed.

Lemma prune_storable t c : storable c -> storable (prune_delta t c).
Proof.
  intros S. unfold prune_delta. destruct (delta_get c t) as [d|]; [|done].
  destruct (DomainDelta_is_empty d); [|done]. by apply delta_put_storable.
Qed.

Lemma current_stable c t : storable c -> delta_stable (default delta_default (delta_get c t)).
Proof.
  intros S. destruct (storable_parts c S) as (_ & _ & _ & _ & Hd & _).
  destruct (delta_get c t) as [d|] eqn:E; [|apply delta_default_stable]. by eapply delta_get_stable.
Qed.

Lemma delta_written t d c : storable c -> delta_stable d ->
  storable (prune_delta t (delta_put t (Some d) (delta_mut c t).2)).
Proof.
  intros S Hd. apply prune_storable, delta_put_storable; [|by intros ? [= <-]].
  apply delta_put_storable; [done|]. intros ? [= <-]. by apply current_stable.
Qed.

Lemma parse_domain_stable c domain d : storable c -> Mutate.parse_domain c domain = Ok d -> domain_stable d.
Proof.
  unfold Mutate.parse_domain. destruct (Domain_parse domain (Tld_str (cf_tld c))) as [x|] eqn:E; [|done].
  intros S [= ->]. apply domain_stable_iff. apply Domain_parse_ok_iff in E as (sub & _ & _ & E).
  by apply domain_validate_steps_spec in E as [? _].
Qed.

Lemma without_subset x y l : x ∈ without y l -> x ∈ l.
Proof. unfold without. by intros [_ H]%elem_of_bfilter. Qed.

Lemma add_domain_storable r name domain c : storable c -> storable (apply_add_domain r name domain c).2.
Proof.
  intros S. unfold apply_add_domain. destruct (resolve_domain_target _ _ _) as [t|]; [|done]. cbn [mbind result_bind].
  destruct (Mutate.parse_domain c domain) as [d|] eqn:Ed; [|done]. cbn [mbind result_bind].
  destruct (reject_if_claimed_elsewhere _ _ _ _); [|done]. cbn [mbind result_bind]. cbn zeta.
  destruct (delta_mut c t) as [delta c'] eqn:Em. assert (c' = (delta_mut c t).2) as -> by by rewrite Em.
  assert (delta = default delta_default (delta_get c t)) as -> by (unfold delta_mut in Em; congruence).
  cbn [applied snd]. apply delta_written; [done|]. pose proof (current_stable c t S) as Hc.
  apply parse_domain_stable in Ed; [|done]. set (cur := default _ _) in *.
  case_bool_decide; [|case_bool_decide; [done|]]; intros x [Hx|[Hx|Hx]]; cbn in Hx;
    try (apply Hc; tauto).
  - apply Hc. right. left. by eapply without_subset.
  - apply elem_of_app in Hx as [Hx| ->%list_elem_of_singleton]; [apply Hc; tauto|done].
Qed.

(** The parts of a domain command on the delta it found. *)
Ltac with_delta S t c :=
  cbn zeta; destruct (delta_mut c t) as [delta c'] eqn:Em;
  assert (c' = (delta_mut c t).2) as -> by (by rewrite Em);
  assert (delta = default delta_default (delta_get c t)) as -> by (unfold delta_mut in Em; congruence);
  pose proof (current_stable c t S) as Hc; set (cur := default delta_default (delta_get c t)) in *.

Lemma delta_mut_storable c t : storable c -> storable (delta_mut c t).2.
Proof. intros S. apply delta_put_storable; [done|]. intros ? [= <-]. by apply current_stable. Qed.

Lemma remove_domain_storable r name domain c : storable c -> storable (apply_remove_domain r name domain c).2.
Proof.
  intros S. unfold apply_remove_domain. destruct (resolve_domain_target _ _ _) as [t|]; [|done]. cbn [mbind result_bind].
  destruct (Mutate.parse_domain c domain) as [d|] eqn:Ed; [|done]. cbn [mbind result_bind]. with_delta S t c.
  apply parse_domain_stable in Ed; [|done]. set (n := to_ascii_lowercase name).
  assert (forall a s, (forall x, x ∈ a -> domain_stable x) -> (forall x, x ∈ s -> domain_stable x) ->
    storable (if exact_count n a s =? 0 then (Err (Invalid (MsgKeepOneExact n)), (delta_mut c t).2)
              else applied ("removed "%str ++ to_fqdn d (Tld_str (cf_tld c)) ++ " from "%str ++ n)
                (prune_delta t (delta_put t
                  (Some (mkDelta a s (if bool_decide (primary cur = Some d) then None else primary cur))) (delta_mut c t).2))).2)
    as Hk.
  { intros a s Ha Hs. destruct (_ =? 0); [by apply delta_mut_storable|]. apply delta_written; [done|].
    intros x [Hx|[Hx|Hx]]; cbn in Hx; [auto|auto|]. case_bool_decide; [done|]. apply Hc. auto. }
  destruct (bool_decide (d ∈ added cur)); [|destruct (bool_decide (d = Domain_apex n)) eqn:Hd];
    [| |by apply delta_mut_storable]; apply Hk.
  - intros x Hx%without_subset. apply Hc. auto.
  - intros x Hx. apply Hc. auto.
  - intros x Hx. apply Hc. auto.
  - intros x. destruct (bool_decide (Domain_apex n ∈ suppressed cur)); [intros Hin; apply Hc; auto|].
    intros [Hin| ->%list_elem_of_singleton]%elem_of_app; [apply Hc; auto|].
    apply bool_decide_eq_true in Hd. by rewrite <- Hd.
Qed.

Lemma set_primary_storable r name domain c : storable c -> storable (apply_set_primary_domain r name domain c).2.
Proof.
  intros S. unfold apply_set_primary_domain. destruct (resolve_domain_target _ _ _) as [t|]; [|done].
  cbn [mbind result_bind]. destruct (Mutate.parse_domain c domain) as [d|] eqn:Ed; [|done]. cbn [mbind result_bind].
  destruct (is_wildcard d); [done|]. cbn [mbind result_bind].
  destruct (reject_if_claimed_elsewhere _ _ _ _); [|done]. cbn [mbind result_bind]. with_delta S t c.
  cbn [applied snd]. apply delta_written; [done|]. apply parse_domain_stable in Ed; [|done].
  case_bool_decide; intros x [Hx|[Hx|Hx]]; cbn in Hx; try (apply Hc; tauto); try done.
  - apply Hc. right. left. by eapply without_subset.
  - revert Hx. destruct (bool_decide (d ∈ added cur)); [intros Hin; apply Hc; auto|].
    intros [Hin| ->%list_elem_of_singleton]%elem_of_app; [apply Hc; auto|done].
  - by injection Hx as <-.
Qed.

Lemma reset_domains_storable r name c : storable c -> storable (apply_reset_domains r name c).2.
Proof.
  intros S. unfold apply_reset_domains. destruct (resolve_domain_target _ _ _) as [t|]; [|done].
  by apply delta_put_storable.
Qed.

(** ** Parking and linking *)

Lemma link_storable name canonical php c : storable c -> php_stable php -> storable (apply_link name canonical php c).2.
Proof.
  intros S Hp. unfold apply_link. destruct canonical as [path|]; [|done].
  destruct (Site_linked name path php) as [site|] eqn:Es; [|done]. cbn zeta.
  destruct (has_linked c _); [done|]. cbn [applied snd].
  destruct (storable_parts c S) as (Hl & _ & _ & _ & [D1 D2 D3] & R1 & R2 & U1 & U2).
  apply storable_linked.
  - unfold promote. cbn zeta. apply storable_route_rules; [|by apply all_move|by apply all_move].
    apply storable_proxy_rules; [|by apply all_move|by apply all_move].
    apply storable_domains; [done|]. constructor; cbn; [by apply all_move|by apply all_move|done].
  - apply snoc_all; [exact Hl|]. unfold Site_linked, site_with_kind in Es.
    apply bind_ok in Es as (n & Hn & [= <-]). split; cbn -[validate_and_lowercase_name]; [by eapply site_name_stable|done].
Qed.

Lemma unlink_storable r name c : storable c -> storable (apply_unlink r name c).2.
Proof.
  intros S. destruct (storable_parts c S) as (Hl & Hj & _ & _ & [D1 D2 D3] & R1 & R2 & U1 & U2).
  unfold apply_unlink. destruct (find_first _ (cf_projects c)) as [x|]; cbn zeta.
  { cbn [applied snd]. apply storable_domains; [apply storable_projects; [done|by apply bfilter_all]|].
    constructor; cbn; [done..|by apply all_delete]. }
  destruct (find_first _ (cf_linked c)) as [s|]; [|done]. cbn [applied snd].
  apply storable_route_rules; [|by apply all_demote|by apply all_demote].
  apply storable_proxy_rules; [|by apply all_demote|by apply all_demote].
  apply storable_domains; [apply storable_linked; [done|by apply bfilter_all]|].
  constructor; cbn; [by apply all_demote|by apply all_demote|done].
Qed.

Lemma unpark_storable path c : storable c -> storable (apply_unpark path c).2.
Proof.
  intros S. destruct (storable_parts c S) as (_ & _ & _ & _ & [D1 D2 D3] & R1 & R2 & U1 & U2).
  unfold apply_unpark. cbn zeta. cbn [applied snd].
  apply storable_route_rules; [|done|by apply all_retain]. apply storable_proxy_rules; [|done|by apply all_retain].
  apply storable_domains; [|constructor; cbn; [done|by apply all_retain|done]]. revert S. storable_same.
Qed.

Lemma override_storable key f c : storable c -> (forall o, ov_php (f o) = ov_php o) -> storable (override_mut key f c).
Proof.
  intros S Hf. destruct (storable_parts c S) as (_ & _ & Ho & _). apply storable_overrides; [done|].
  apply all_insert; [done|]. intros v. rewrite Hf. destruct (cf_overrides c !! key) as [o|] eqn:E; [|done].
  by apply (Ho key).
Qed.

Lemma secure_storable r name b c : storable c -> storable (apply_set_secure r name b c).2.
Proof.
  intros S. destruct (storable_parts c S) as (Hl & Hj & _ & Hx & _). unfold apply_set_secure. cbn zeta.
  destruct (has_linked c _); [apply storable_linked; [done|]; apply update_first_all; [done|by intros [] ]|].
  destruct (get r _); [by apply override_storable|].
  destruct (has_proxy c _); [apply storable_proxies; [done|]; apply update_first_all; [done|by intros [] ]|].
  destruct (existsb _ _); [|done]. apply storable_projects; [done|]. apply update_first_all; [done|by intros []].
Qed.

Lemma front_storable r name b c : storable c -> storable (apply_set_front_controller r name b c).2.
Proof.
  intros S. destruct (storable_parts c S) as (Hl & _). unfold apply_set_front_controller. cbn zeta.
  destruct (has_linked c _); [apply storable_linked; [done|]; apply update_first_all; [done|by intros [] ]|].
  destruct (get r _); [by apply override_storable|done].
Qed.

(** ** Proxies and rules *)

Lemma add_proxy_storable r name url c : storable c -> storable (apply_add_proxy r name url c).2.
Proof.
  intros S. destruct (storable_parts c S) as (_ & _ & _ & Hx & _). unfold apply_add_proxy.
  destruct (from_url_str url) as [t|] eqn:Et; [|done]. cbn [map_err mbind result_bind].
  destruct (reject_loop_target c t); [|done]. cbn [map_err mbind result_bind].
  unfold ProxySite_new. destruct (validate_proxy_name name) as [n|] eqn:En; [|done]. cbn [map_err mbind result_bind].
  cbn zeta. destruct (_ || _); [done|]. destruct (domain_owner r _); [done|]. cbn [applied snd].
  apply storable_proxies; [done|]. apply snoc_all; [done|]. split; cbn -[validate_proxy_name].
  - by eapply proxy_name_stable.
  - apply target_stable_iff. by eapply from_url_str_ok.
Qed.

Lemma remove_proxy_storable name c : storable c -> storable (apply_remove_proxy name c).2.
Proof.
  intros S. destruct (storable_parts c S) as (_ & _ & _ & Hx & [D1 D2 D3] & _). unfold apply_remove_proxy. cbn zeta.
  set (l := bfilter _ _). assert (storable (put_proxies l c)) as S' by (apply storable_proxies; [done|by apply bfilter_all]).
  destruct (_ =? _); [done|]. cbn [applied snd]. apply storable_domains; [done|].
  constructor; cbn; [done..|by apply all_delete].
Qed.

Lemma proxy_rules_map_storable linked m c : storable c -> all_values rules_stable m ->
  storable (put_proxy_rules_map linked m c).
Proof.
  intros S Hm. destruct (storable_parts c S) as (_ & _ & _ & _ & _ & R1 & R2 & _).
  unfold put_proxy_rules_map. destruct linked; by apply storable_proxy_rules.
Qed.
Lemma route_rules_map_storable linked m c : storable c -> all_values routes_stable m ->
  storable (put_route_rules_map linked m c).
Proof.
  intros S Hm. destruct (storable_parts c S) as (_ & _ & _ & _ & _ & _ & _ & U1 & U2).
  unfold put_route_rules_map. destruct linked; by apply storable_route_rules.
Qed.
Lemma proxy_rules_stable linked c : storable c -> all_values rules_stable (proxy_rules_map linked c).
Proof. intros S. destruct (storable_parts c S) as (_ & _ & _ & _ & _ & R1 & R2 & _). by destruct linked. Qed.
Lemma route_rules_stable linked c : storable c -> all_values routes_stable (route_rules_map linked c).
Proof. intros S. destruct (storable_parts c S) as (_ & _ & _ & _ & _ & _ & _ & U1 & U2). by destruct linked. Qed.

(** The list stored under a key, or the one a fresh entry holds. *)
Lemma stored_rules {A} (P : list A -> Prop) (m : gmap str (list A)) (k : str) :
  all_values P m -> P [] -> P (default [] (m !! k)).
Proof. intros Hm Hn. destruct (m !! k) as [l|] eqn:E; [by apply (Hm k)|done]. Qed.

Lemma rules_nil : rules_stable [].
Proof. intros r H. by apply elem_of_nil in H. Qed.
Lemma routes_nil : routes_stable [].
Proof. intros r H. by apply elem_of_nil in H. Qed.

Lemma add_rule_storable r site prefix url c : storable c -> storable (apply_add_proxy_rule r site prefix url c).2.
Proof.
  intros S. unfold apply_add_proxy_rule. destruct (from_url_str url) as [t|] eqn:Et; [|done]. cbn [map_err mbind result_bind].
  destruct (reject_loop_target c t); [|done]. cbn [map_err mbind result_bind].
  destruct (ProxyRule_new prefix t) as [rule|] eqn:En; [|done]. cbn [map_err mbind result_bind].
  destruct (site_rule_key r _) as [[linked key]|]; [|done]. cbn [ok_or mbind result_bind].
  pose proof (proxy_rules_stable linked c S) as Hm. pose proof (stored_rules _ _ key Hm rules_nil) as Hr.
  destruct (existsb _ _); cbn [applied snd]; apply proxy_rules_map_storable; try done; apply all_insert; try done.
  unfold rules_stable. apply snoc_all; [exact Hr|]. apply proxy_rule_stable in En as [Hn <-]. split; [exact Hn|].
  apply target_stable_iff. by eapply from_url_str_ok.
Qed.

Lemma remove_rule_storable r site prefix c : storable c -> storable (apply_remove_proxy_rule r site prefix c).2.
Proof.
  intros S. unfold apply_remove_proxy_rule. cbn zeta. destruct (site_rule_key r _) as [[linked key]|]; [|done].
  pose proof (proxy_rules_stable linked c S) as Hm. destruct (_ !! key) as [rs|] eqn:E; [|done].
  assert (forall p, rules_stable (bfilter p rs)) as Hf by (intros p; unfold rules_stable, routes_stable; apply bfilter_all; by apply (Hm key)).
  destruct (_ =? _); cbn [applied snd]; apply proxy_rules_map_storable; try done; [by apply all_insert|].
  destruct (is_empty _); [by apply all_delete|by apply all_insert].
Qed.

Lemma add_route_storable r site prefix target c : storable c -> storable (apply_add_route_rule r site prefix target c).2.
Proof.
  intros S. unfold apply_add_route_rule. cbn zeta.
  destruct (RouteRule_new prefix target) as [rule|] eqn:En; [|done]. cbn [map_err mbind result_bind].
  destruct (site_rule_key r _) as [[linked key]|]; [|done]. cbn [ok_or mbind result_bind].
  pose proof (route_rules_stable linked c S) as Hm. pose proof (stored_rules _ _ key Hm routes_nil) as Hr.
  destruct (existsb _ _); cbn [applied snd]; apply route_rules_map_storable; try done; apply all_insert; try done.
  unfold routes_stable. apply snoc_all; [exact Hr|]. by eapply route_rule_stable.
Qed.

Lemma remove_route_storable r site prefix c : storable c -> storable (apply_remove_route_rule r site prefix c).2.
Proof.
  intros S. unfold apply_remove_route_rule. cbn zeta. destruct (site_rule_key r _) as [[linked key]|]; [|done].
  pose proof (route_rules_stable linked c S) as Hm. destruct (_ !! key) as [rs|] eqn:E; [|done].
  assert (forall p, routes_stable (bfilter p rs)) as Hf by (intros p; unfold rules_stable, routes_stable; apply bfilter_all; by apply (Hm key)).
  destruct (_ =? _); cbn [applied snd]; apply route_rules_map_storable; try done; [by apply all_insert|].
  destruct (is_empty _); [by apply all_delete|by apply all_insert].
Qed.

(** ** All commands *)

Lemma put_groups_storable g c : storable c -> storable (put_groups g c).
Proof. storable_same. Qed.

Lemma park_storable canonical c : storable c -> storable (apply_park canonical c).2.
Proof. unfold apply_park. destruct canonical; [|done]. cbn [applied snd]. storable_same. Qed.

Lemma groups_storable c o : groups_step c o -> storable c -> storable o.2.
Proof. destruct o as [[a|e] c']; cbn; [intros (g & -> & _); apply put_groups_storable|by intros ->]. Qed.

Lemma apply_storable r req canonical php c :
  storable c -> php_stable php -> storable (apply r req canonical php c).2.
Proof.
  intros S P. destruct req; try exact S; cbn [apply].
  - by apply park_storable.
  - by apply link_storable.
  - by apply unlink_storable.
  - by apply unpark_storable.
  - by apply secure_storable.
  - by apply add_domain_storable.
  - by apply remove_domain_storable.
  - by apply set_primary_storable.
  - by apply reset_domains_storable.
  - by apply add_proxy_storable.
  - by apply remove_proxy_storable.
  - by apply add_rule_storable.
  - by apply remove_rule_storable.
  - eapply groups_storable; [apply create_group_step|done].
  - eapply groups_storable; [apply delete_group_step|done].
  - eapply groups_storable; [apply set_group_order_step|done].
  - eapply groups_storable; [apply set_site_group_step|done].
  - eapply groups_storable; [apply rename_group_step|done].
  - by apply front_storable.
  - by apply add_route_storable.
  - by apply remove_route_storable.
Qed.

(** C9. A command turns a configuration whose every value is one its own
    constructor returns into another one, whether it succeeds or fails half way:
    names, versions, domains, upstreams, prefixes and routing targets it stores
    are in the form a load gives them. *)
Theorem commands_keep_storable r req canonical php c (S : storable c) (P : php_stable php) :
  storable (apply r req canonical php c).2.
Proof. by apply apply_storable. Qed.

Lemma commands_keep_storable_witness :
  let c' := (apply demo_router0 (AddProxy "Api"%str "http://localhost:3000"%str) None (mkPhp 8 3) Config_default).2 in
  proxy_name <$> cf_proxies c' = ["api"%str] /\ storable c'.
Proof.
  split; [vm_compute; reflexivity|]. apply commands_keep_storable; [exact Config_default_storable|].
  vm_compute. reflexivity.
Defined.
