(* ===== verification/MutateEffects.v ===== *)
(** * What the mutations do

    The effect of the domain commands on the domains a claimant is routed by,
    the round trip of linking and unlinking a parked directory, and the group
    commands. *)

From stdpp Require Import sorting.
From S2P Require Import Prelude RustStr RustMap RustPath CoreError DnsLabel Tld Domain Php Site Proxy Router Project Settings Config Ipc SiteDomains Mutate MutateValid.

Open Scope N_scope.

(** ** What the domain commands do to a claimant *)

(** The delta a target has, the domain set it gives the claimant and the
    primary chosen from it, as the router builder computes them. *)
Definition delta_of (c : Config) (t : DomainTarget) : DomainDelta := default delta_default (delta_get c t).
Definition claimant_domains (c : Config) (n : str) (t : DomainTarget) : list Domain :=
  effective_domains n (added (delta_of c t)) (suppressed (delta_of c t)).
Definition claimant_primary (c : Config) (n : str) (t : DomainTarget) : Domain :=
  choose_primary n (claimant_domains c n t) (primary (delta_of c t)).

(** The customisation itself names an exact domain. *)
Definition keeps_exact (n : str) (d : DomainDelta) : Prop :=
  Domain_apex n ∉ suppressed d \/ exists x, x ∈ added d /\ is_wildcard x = false.

Lemma exact_count_keeps n a s p : exact_count n a s <> 0 <-> keeps_exact n (mkDelta a s p).
Proof.
  unfold exact_count, keeps_exact. cbn.
  assert (vlen (bfilter (fun d => negb (is_wildcard d)) a) <> 0 <-> exists x, x ∈ a /\ is_wildcard x = false) as Hv.
  { rewrite <- N.eqb_neq, <- not_true_iff_false, vlen_0. split.
    - intros H. destruct (bfilter _ a) as [|x l] eqn:E; [done|]. exists x.
      assert (x ∈ bfilter (fun d => negb (is_wildcard d)) a) as Hx by (rewrite E; set_solver).
      apply elem_of_bfilter in Hx as [? ?]. by rewrite negb_true_iff in *.
    - intros (x & Hx & Hw) E. apply (elem_of_nil x). rewrite <- E. apply elem_of_bfilter. by rewrite Hw. }
  rewrite <- Hv. destruct (bool_decide (_ ∈ s)) eqn:E.
  - apply bool_decide_eq_true in E. rewrite N.add_0_l. tauto.
  - apply bool_decide_eq_false in E. split; [by left|]. intros _. lia.
Qed.

Lemma elem_of_customised n d x :
  keeps_exact n d ->
  x ∈ effective_domains n (added d) (suppressed d) <->
  x ∈ added d \/ (x = Domain_apex n /\ Domain_apex n ∉ suppressed d).
Proof.
  intros Hk. rewrite elem_of_effective. split; [|tauto]. intros [H|[-> [H|H]]]; [by left|by right|].
  destruct Hk as [Hk|(y & Hy & Hw)]; [by right|]. rewrite (H y Hy) in Hw. done.
Qed.

Lemma delta_of_put c t t' d :
  delta_of (delta_put t (stored d) c) t' = if decide (t = t') then d else delta_of c t'.
Proof.
  unfold delta_of. case_decide as E; [subst; by rewrite delta_get_put, stored_default|].
  by rewrite delta_get_put_ne.
Qed.

(** A customisation that keeps an exact domain: the default is never put back. *)
Definition base_domains (n : str) (d : DomainDelta) : list Domain :=
  if bool_decide (Domain_apex n ∈ suppressed d) then [] else [Domain_apex n].

Lemma effective_kept n d : dns_name n = true -> keeps_exact n d ->
  effective_domains n (added d) (suppressed d) = foldl push_new (base_domains n d) (added d).
Proof.
  intros Hn Hk. unfold effective_domains. fold (base_domains n d). set (out := foldl push_new _ _).
  assert (existsb (fun x => negb (is_wildcard x)) out = true) as ->; [|done].
  apply existsb_elem. unfold out. setoid_rewrite elem_of_foldl_push_new. unfold base_domains.
  destruct Hk as [Hk|(x & Hx & Hw)]; [|exists x; rewrite Hw; auto].
  exists (Domain_apex n). rewrite bool_decide_false by done. rewrite (apex_not_wildcard n Hn). split; [left; set_solver|done].
Qed.

Lemma without_push x out d : without x (push_new out d) = if bool_decide (d = x) then without x out else push_new (without x out) d.
Proof.
  unfold push_new, without. assert (d <> x -> d ∈ bfilter (fun d => negb (bool_decide (d = x))) out <-> d ∈ out) as He.
  { intros Hd. rewrite elem_of_bfilter, bool_decide_false by done. cbn. tauto. }
  destruct (decide (d = x)) as [->|Hd].
  - rewrite (bool_decide_true (x = x)) by done. destruct (bool_decide (x ∈ out)); [done|].
    rewrite bfilter_app. cbn. rewrite bool_decide_true by done. cbn. by rewrite app_nil_r.
  - rewrite (bool_decide_false (d = x)) by done. specialize (He Hd).
    destruct (decide (d ∈ out)) as [Hin|Hin].
    + rewrite !bool_decide_true by tauto. done.
    + rewrite (bool_decide_false (d ∈ out)) by done. rewrite (bool_decide_false (d ∈ _)) by tauto.
      rewrite bfilter_app. cbn. by rewrite bool_decide_false.
Qed.
Lemma without_pushes x out l : without x (foldl push_new out l) = foldl push_new (without x out) (without x l).
Proof.
  revert out; induction l as [|d l IH]; intros out; [done|]. cbn [foldl]. rewrite IH, without_push.
  change (without x (d :: l)) with (if negb (bool_decide (d = x)) then d :: without x l else without x l).
  by destruct (bool_decide (d = x)).
Qed.
Lemma without_none x l : x ∉ l -> without x l = l.
Proof.
  unfold without. induction l as [|d l IH]; intros Hx; [done|]. cbn. rewrite bool_decide_false by set_solver. cbn. f_equal. apply IH. set_solver.
Qed.

(** ** The primary when the domains change *)

(** The stored primary decides. *)
Definition in_force (stored : option Domain) (eff : list Domain) : Prop :=
  exists p, stored = Some p /\ p ∈ eff /\ is_wildcard p = false.

Lemma choose_stored n eff p : p ∈ eff -> is_wildcard p = false -> choose_primary n eff (Some p) = p.
Proof. intros Hp Hw. unfold choose_primary. rewrite Hw. cbn. by rewrite bool_decide_true. Qed.
Lemma choose_default n eff stored : ~ in_force stored eff -> choose_primary n eff stored = choose_primary n eff None.
Proof.
  intros Hf. unfold choose_primary. destruct stored as [p|]; [|done].
  destruct (negb (is_wildcard p) && bool_decide (p ∈ eff)) eqn:E; [|done]. bprop. destruct Hf. exists p. auto.
Qed.
Lemma in_force_dec stored eff : in_force stored eff \/ ~ in_force stored eff.
Proof.
  unfold in_force. destruct stored as [p|]; [|right; naive_solver]. destruct (is_wildcard p) eqn:Ew; [right; intros (? & [= <-] & _ & ?); congruence|].
  destruct (decide (p ∈ eff)); [left; eauto|right; by intros (? & [= <-] & ? & _)].
Qed.

(** A domain that is added takes over only as the restored apex, or as a stored primary that was missing. *)
Lemma primary_grows n eff eff' stored dom :
  (exists x, x ∈ eff /\ is_wildcard x = false) -> (forall x, x ∈ eff' <-> x ∈ eff \/ x = dom) ->
  dom = Domain_apex n \/ eff' = eff \/ eff' = eff ++ [dom] ->
  choose_primary n eff' stored = choose_primary n eff stored \/
  (choose_primary n eff' stored = dom /\ ~ in_force stored eff /\ (dom = Domain_apex n \/ stored = Some dom)).
Proof.
  intros (e & He & Hew) Hm Hs. destruct (in_force_dec stored eff) as [(p & -> & Hp & Hw)|Hno].
  { left. rewrite !choose_stored by (done || apply Hm; by left). done. }
  destruct (in_force_dec stored eff') as [(p & -> & Hp & Hw)|Hno'].
  { right. rewrite choose_stored by done. assert (p = dom) as ->; [|auto]. apply Hm in Hp as [Hp|?]; [|done]. destruct Hno. by exists p. }
  rewrite !(choose_default n _ stored) by done. unfold choose_primary.
  destruct (decide (Domain_apex n ∈ eff)) as [Hin|Hin].
  { left. rewrite !bool_decide_true; [done|done|apply Hm; by left]. }
  rewrite (bool_decide_false (_ ∈ eff)) by done. destruct Hs as [->|Hs].
  { right. rewrite bool_decide_true by (apply Hm; by right). auto. }
  destruct (decide (dom = Domain_apex n)) as [->|Hd]; [right; rewrite bool_decide_true by (apply Hm; by right); auto|].
  left. rewrite bool_decide_false by (rewrite Hm; naive_solver). destruct Hs as [->| ->]; [done|]. f_equal.
  rewrite find_first_app. destruct (find_first _ eff) eqn:E; [done|]. exfalso.
  apply find_first_None in E. rewrite Forall_forall in E. specialize (E e He). pose proof E as Hx. cbn in Hx. by rewrite Hew in Hx.
Qed.

Lemma find_first_without (P : Domain -> bool) l dom f :
  find_first P l = Some f -> f <> dom -> find_first P (without dom l) = Some f.
Proof.
  unfold without. induction l as [|x l IH]; [done|]. cbn. destruct (P x) eqn:Ep.
  - intros [= ->] Hf. rewrite bool_decide_false by done. cbn. by rewrite Ep.
  - intros Hl Hf. destruct (negb _); cbn; rewrite ?Ep; auto.
Qed.

(** A domain that is removed is not the primary any more, and nothing changes when it was not. *)
Lemma primary_shrinks n eff stored dom : dns_name n = true ->
  (exists x, x ∈ eff /\ x <> dom /\ is_wildcard x = false) ->
  let stored' := if bool_decide (stored = Some dom) then None else stored in
  choose_primary n (without dom eff) stored' <> dom /\
  (choose_primary n eff stored <> dom -> choose_primary n (without dom eff) stored' = choose_primary n eff stored).
Proof.
  intros Hn (e & He & Hed & Hew) stored'. assert (e ∈ without dom eff) as He' by (by apply elem_of_without).
  split.
  - destruct (choose_primary_exact n (without dom eff) stored') as [Hin _]; [eauto|by apply apex_not_wildcard|].
    apply elem_of_without in Hin as [_ ?]. done.
  - intros Hp. destruct (in_force_dec stored eff) as [(p & -> & Hin & Hw)|Hno].
    { rewrite choose_stored in Hp |- * by done. unfold stored'. rewrite bool_decide_false by congruence.
      apply choose_stored; [by apply elem_of_without|done]. }
    assert (~ in_force stored' (without dom eff)) as Hno'.
    { intros (p & Hs & [Hin _]%elem_of_without & Hw). apply Hno. unfold stored' in Hs. case_bool_decide; [done|]. by exists p. }
    rewrite (choose_default n _ stored) in Hp |- * by done. rewrite (choose_default n _ stored') by done.
    unfold choose_primary in *. destruct (decide (Domain_apex n ∈ eff)) as [Hin|Hin].
    + rewrite (bool_decide_true (_ ∈ eff)) in * by done. by rewrite bool_decide_true by by apply elem_of_without.
    + rewrite (bool_decide_false (_ ∈ eff)) in * by done. rewrite bool_decide_false by (by intros [? _]%elem_of_without).
      destruct (find_first (fun d => negb (is_wildcard d)) eff) as [f|] eqn:Ef.
      2: { exfalso. apply find_first_None in Ef. rewrite Forall_forall in Ef. specialize (Ef e He). pose proof Ef as Hx. cbn in Hx. by rewrite Hew in Hx. }
      cbn [default] in *. by rewrite (find_first_without _ _ _ _ Ef Hp).
Qed.

Section DomainCommands.
Context (c : Config) (r : SiteRouter) (name domain : str) (t : DomainTarget) (dom : Domain).
Let n := to_ascii_lowercase name.
Context (Ht : resolve_domain_target c r n = Ok t) (Hd : parse_domain c domain = Ok dom).
Context (Hn : dns_name n = true) (Hk : keeps_exact n (delta_of c t))
  (Ha : Domain_apex n ∉ added (delta_of c t)).

Lemma apex_exact : is_wildcard (Domain_apex n) = false.
Proof using Ht Hd Hn Hk Ha. exact (apex_not_wildcard n Hn). Qed.

(** The domain belongs to another claimant of the live router. *)
Definition claimed_elsewhere : Prop := exists owner, domain_owner r dom = Some owner /\ owner <> n.

Lemma reject_spec tld :
  match reject_if_claimed_elsewhere r n dom tld with Ok _ => ~ claimed_elsewhere | Err _ => claimed_elsewhere end.
Proof using Ht Hd Hn Hk Ha.
  unfold reject_if_claimed_elsewhere, claimed_elsewhere, str_eqb.
  destruct (domain_owner r dom) as [o|]; [|naive_solver]. case_bool_decide; cbn; naive_solver.
Qed.

(** After storing [d] for the target. *)
Definition gives (c' : Config) (member : Domain -> Prop) : Prop :=
  (forall x, x ∈ claimant_domains c' n t <-> member x) /\
  keeps_exact n (delta_of c' t) /\ Domain_apex n ∉ added (delta_of c' t) /\
  (forall t', t' <> t -> delta_get c' t' = delta_get c t').

Lemma gives_stored d member :
  keeps_exact n d -> Domain_apex n ∉ added d ->
  (forall x, (x ∈ added d \/ (x = Domain_apex n /\ Domain_apex n ∉ suppressed d)) <-> member x) ->
  gives (delta_put t (stored d) c) member.
Proof using Ht Hd Hn Hk Ha.
  intros Hk' Ha' Hm. unfold gives, claimant_domains. rewrite delta_of_put, decide_True by done.
  split; [|split; [done|split; [done|]]].
  - intros x. by rewrite elem_of_customised.
  - intros t' Hne. by apply delta_get_put_ne.
Qed.

Lemma old_members x :
  x ∈ claimant_domains c n t <->
  x ∈ added (delta_of c t) \/ (x = Domain_apex n /\ Domain_apex n ∉ suppressed (delta_of c t)).
Proof using Ht Hd Hn Hk Ha. by apply elem_of_customised. Qed.

Lemma add_members d :
  added d = (if bool_decide (dom = Domain_apex n) then added (delta_of c t)
             else if bool_decide (dom ∈ added (delta_of c t)) then added (delta_of c t)
             else added (delta_of c t) ++ [dom]) ->
  suppressed d = (if bool_decide (dom = Domain_apex n) then without (Domain_apex n) (suppressed (delta_of c t))
                  else suppressed (delta_of c t)) ->
  gives (delta_put t (stored d) c) (fun x => x ∈ claimant_domains c n t \/ x = dom).
Proof using Ht Hd Hn Hk Ha.
  intros Ea Hs. apply gives_stored.
  - unfold keeps_exact. rewrite Ea, Hs. destruct (bool_decide (dom = _)).
    + left. intros [_ H]%elem_of_without. done.
    + destruct Hk as [H|(x & Hx & Hw)]; [by left|]. right. exists x. case_bool_decide; set_solver.
  - rewrite Ea. repeat case_bool_decide; set_solver.
  - intros x. rewrite old_members, Ea, Hs. destruct (bool_decide (dom = _)) eqn:E.
    + apply bool_decide_eq_true in E. rewrite elem_of_without, <- E. naive_solver.
    + apply bool_decide_eq_false in E. case_bool_decide; set_solver.
Qed.

(** The stored customisation read back. *)
Lemma domains_stored d : claimant_domains (delta_put t (stored d) c) n t = effective_domains n (added d) (suppressed d).
Proof using Ht Hd Hn Hk Ha. unfold claimant_domains. by rewrite delta_of_put, decide_True. Qed.
Lemma primary_stored d : claimant_primary (delta_put t (stored d) c) n t =
  choose_primary n (effective_domains n (added d) (suppressed d)) (primary d).
Proof using Ht Hd Hn Hk Ha. unfold claimant_primary. by rewrite domains_stored, delta_of_put, decide_True. Qed.

Lemma old_exact : exists x, x ∈ claimant_domains c n t /\ is_wildcard x = false.
Proof using Ht Hd Hn Hk Ha.
  setoid_rewrite old_members. destruct Hk as [H|(x & Hx & Hw)]; [|eauto]. exists (Domain_apex n). rewrite apex_exact. auto.
Qed.

(** Adding leaves the stored choice of the primary alone. *)
Definition primary_after_add (c' : Config) : Prop :=
  primary (delta_of c' t) = primary (delta_of c t) /\
  (claimant_primary c' n t = claimant_primary c n t \/
   (claimant_primary c' n t = dom /\ ~ in_force (primary (delta_of c t)) (claimant_domains c n t) /\
    (dom = Domain_apex n \/ primary (delta_of c t) = Some dom))).

Lemma add_primary d :
  added d = (if bool_decide (dom = Domain_apex n) then added (delta_of c t)
             else if bool_decide (dom ∈ added (delta_of c t)) then added (delta_of c t)
             else added (delta_of c t) ++ [dom]) ->
  suppressed d = (if bool_decide (dom = Domain_apex n) then without (Domain_apex n) (suppressed (delta_of c t))
                  else suppressed (delta_of c t)) ->
  primary d = primary (delta_of c t) -> primary_after_add (delta_put t (stored d) c).
Proof using Ht Hd Hn Hk Ha.
  intros Ea Es Ep. pose proof (add_members d Ea Es) as (Hm & Hk' & _). unfold primary_after_add.
  rewrite primary_stored, delta_of_put, decide_True in * by done. split; [done|]. rewrite domains_stored in Hm. rewrite Ep.
  apply primary_grows; [apply old_exact|exact Hm|]. unfold claimant_domains. rewrite !effective_kept by done.
  unfold base_domains. rewrite Ea, Es. destruct (bool_decide (dom = _)) eqn:E; [apply bool_decide_eq_true in E; by left|]. right.
  destruct (bool_decide (dom ∈ added _)); [by left|]. rewrite foldl_app. cbn [foldl].
  match goal with |- push_new ?l _ = _ \/ _ => set (eff := l) end. unfold push_new.
  destruct (bool_decide (dom ∈ eff)); [by left|by right].
Qed.

Lemma add_domain_gives :
  match apply_add_domain r name domain c with
  | (Ok _, c') => ~ claimed_elsewhere /\ gives c' (fun x => x ∈ claimant_domains c n t \/ x = dom) /\ primary_after_add c'
  | (Err _, c') => claimed_elsewhere /\ c' = c
  end.
Proof using Ht Hd Hn Hk Ha.
  unfold apply_add_domain. fold n. rewrite Ht, Hd. cbn [mbind result_bind].
  pose proof (reject_spec (Tld_str (cf_tld c))) as Hr.
  destruct (reject_if_claimed_elsewhere _ _ _ _); [|done]. cbn [mbind result_bind delta_mut applied].
  split; [done|]. rewrite prune_put, delta_put_put. fold (delta_of c t).
  split; [apply add_members|apply add_primary]; repeat case_bool_decide; done.
Qed.

Lemma set_primary_gives :
  match apply_set_primary_domain r name domain c with
  | (Ok _, c') => (~ claimed_elsewhere /\ is_wildcard dom = false) /\
      gives c' (fun x => x ∈ claimant_domains c n t \/ x = dom) /\ claimant_primary c' n t = dom /\
      primary (delta_of c' t) = (if bool_decide (dom = Domain_apex n) then None else Some dom)
  | (Err _, c') => (claimed_elsewhere \/ is_wildcard dom = true) /\ c' = c
  end.
Proof using Ht Hd Hn Hk Ha.
  unfold apply_set_primary_domain. fold n. rewrite Ht, Hd. cbn [mbind result_bind].
  destruct (is_wildcard dom) eqn:Ew; [split; [by right|done]|]. cbn [mbind result_bind].
  pose proof (reject_spec (Tld_str (cf_tld c))) as Hr.
  destruct (reject_if_claimed_elsewhere _ _ _ _); [|split; [left; exact Hr|done]]. cbn [mbind result_bind delta_mut applied].
  split; [split; [exact Hr|done]|]. rewrite prune_put, delta_put_put. fold (delta_of c t).
  match goal with |- gives (delta_put t (stored ?d) c) _ /\ _ => set (d' := d) end.
  assert (gives (delta_put t (stored d') c) (fun x => x ∈ claimant_domains c n t \/ x = dom)) as Hg
    by (apply add_members; unfold d'; repeat case_bool_decide; done).
  split; [done|]. destruct Hg as (Hg & _). unfold claimant_primary.
  set (eff := claimant_domains _ n t) in *. assert (dom ∈ eff) as Hin by (apply Hg; by right).
  rewrite delta_of_put, decide_True by done. split; [|unfold d'; by destruct (bool_decide (dom = _))]. unfold choose_primary, d'.
  destruct (bool_decide (dom = _)) eqn:E; cbn [primary].
  - apply bool_decide_eq_true in E. rewrite <- E. by rewrite bool_decide_true.
  - rewrite Ew. cbn [negb andb]. by rewrite bool_decide_true.
Qed.

(** A removed primary is forgotten; any other stays the primary. *)
Definition primary_after_remove (c' : Config) : Prop :=
  primary (delta_of c' t) = (if bool_decide (primary (delta_of c t) = Some dom) then None else primary (delta_of c t)) /\
  claimant_primary c' n t <> dom /\
  (claimant_primary c n t <> dom -> claimant_primary c' n t = claimant_primary c n t).

Lemma remove_primary d :
  keeps_exact n d -> added d = without dom (added (delta_of c t)) ->
  base_domains n d = without dom (base_domains n (delta_of c t)) ->
  primary d = (if bool_decide (primary (delta_of c t) = Some dom) then None else primary (delta_of c t)) ->
  (exists x, x ∈ claimant_domains c n t /\ x <> dom /\ is_wildcard x = false) ->
  primary_after_remove (delta_put t (stored d) c).
Proof using Ht Hd Hn Hk Ha.
  intros Hk' Ea Eb Ep Hx. unfold primary_after_remove. rewrite primary_stored, delta_of_put, decide_True by done. split; [done|].
  rewrite effective_kept, Ea, Eb, Ep, <- without_pushes, <- effective_kept by done. by apply primary_shrinks.
Qed.

Lemma remove_domain_gives :
  let removable := (dom ∈ claimant_domains c n t \/ dom = Domain_apex n) /\
    exists x, x ∈ claimant_domains c n t /\ x <> dom /\ is_wildcard x = false in
  match apply_remove_domain r name domain c with
  | (Ok _, c') => removable /\ gives c' (fun x => x ∈ claimant_domains c n t /\ x <> dom) /\ primary_after_remove c'
  | (Err _, c') => ~ removable /\ forall t', delta_of c' t' = delta_of c t'
  end.
Proof using Ht Hd Hn Hk Ha.
  intros removable. pose proof apex_exact as Hax. unfold apply_remove_domain. fold n. rewrite Ht, Hd.
  cbn [mbind result_bind delta_mut]. fold (delta_of c t).
  assert (forall t', delta_of (delta_put t (Some (delta_of c t)) c) t' = delta_of c t') as Hsame.
  { intros t'. unfold delta_of at 1. destruct (decide (t = t')) as [<-|Hne]; [by rewrite delta_get_put|].
    by rewrite delta_get_put_ne. }
  assert (removable <-> (dom ∈ added (delta_of c t) \/ dom = Domain_apex n) /\
    ((exists x, x ∈ added (delta_of c t) /\ x <> dom /\ is_wildcard x = false) \/
     (Domain_apex n ∉ suppressed (delta_of c t) /\ dom <> Domain_apex n))) as Hrem.
  { unfold removable. setoid_rewrite old_members. split.
    - intros [H1 (x & [Hx|[-> Hx]] & Hne & Hw)]; (split; [tauto|]); [left; eauto|right; auto].
    - intros [H1 [(x & Hx & Hne & Hw)|[H2 H3]]]; (split; [tauto|]); [eauto|].
      exists (Domain_apex n). auto. }
  destruct (bool_decide (dom ∈ added (delta_of c t))) eqn:Ea;
    [apply bool_decide_eq_true in Ea|apply bool_decide_eq_false in Ea; destruct (bool_decide (dom = Domain_apex n)) eqn:Eb].
  - assert (dom <> Domain_apex n) as Hda by (intros ->; done).
    destruct (exact_count _ _ _ =? 0) eqn:Ec.
    + apply N.eqb_eq in Ec. split; [|done]. rewrite Hrem. intros [_ H].
      refine (proj2 (exact_count_keeps n _ _ None) _ Ec). unfold keeps_exact. cbn. setoid_rewrite elem_of_without.
      destruct H as [(x & ? & ? & ?)|[? _]]; eauto.
    + apply N.eqb_neq, (exact_count_keeps n _ _ (if bool_decide (primary (delta_of c t) = Some dom) then None
        else primary (delta_of c t))) in Ec.
      cbn [applied]. rewrite prune_put, delta_put_put.
      assert removable as Hr by (apply Hrem; split; [by left|]; destruct Ec as [H|(x & [Hx Hne]%elem_of_without & Hw)]; [right; auto|left; eauto]).
      split; [exact Hr|split].
      * apply gives_stored; [done|cbn; by intros [? _]%elem_of_without|]. cbn. intros x. rewrite elem_of_without, old_members.
        naive_solver.
      * apply remove_primary; [done|done| |done|exact (proj2 Hr)]. unfold base_domains. cbn.
        destruct (bool_decide (_ ∈ suppressed _)); [done|]. rewrite without_none by set_solver. done.
  - apply bool_decide_eq_true in Eb. set (s := if bool_decide (Domain_apex n ∈ _) then _ else _).
    assert (Domain_apex n ∈ s) as Hs by (unfold s; case_bool_decide; set_solver).
    destruct (exact_count _ _ _ =? 0) eqn:Ec.
    + apply N.eqb_eq in Ec. split; [|done]. rewrite Hrem. intros [_ H].
      refine (proj2 (exact_count_keeps n _ _ None) _ Ec). unfold keeps_exact. cbn. naive_solver.
    + apply N.eqb_neq, (exact_count_keeps n _ _ (if bool_decide (primary (delta_of c t) = Some dom) then None
        else primary (delta_of c t))) in Ec.
      cbn [applied]. rewrite prune_put, delta_put_put.
      assert removable as Hr.
      { apply Hrem. split; [by right|]. left. destruct Ec as [H|(x & Hx & Hw)]; [done|]. cbn in Hx.
        exists x. split; [done|]. split; [|done]. intros ->. congruence. }
      split; [exact Hr|split].
      * apply gives_stored; [done|done|]. cbn. intros x. rewrite old_members, Eb. split.
        -- intros [Hx|[_ H]]; [|done]. split; [by left|]. intros ->. done.
        -- intros [[Hx|[-> _]] Hne]; [by left|done].
      * apply remove_primary; [done| | |done|exact (proj2 Hr)].
        -- cbn. by rewrite without_none.
        -- unfold base_domains. cbn. rewrite bool_decide_true by done. destruct (bool_decide _); [done|]. unfold without. cbn.
           by rewrite bool_decide_true.
  - split; [|done]. rewrite Hrem. apply bool_decide_eq_false in Eb. tauto.
Qed.

End DomainCommands.

(** The router builder plans exactly these domains for a claimant. *)
Lemma plan_site_domains c s :
  let t := match site_kind s with Linked => TLinked (site_name s) | Parked => TParked (site_document_root s) end in
  plan_site c s = mkSitePlan s (claimant_domains c (site_name s) t) (claimant_primary c (site_name s) t).
Proof.
  unfold plan_site, delta_for, claimant_primary, claimant_domains, delta_of.
  destruct (site_kind s); cbn; by destruct (_ !! _).
Qed.

(** C11. The domain commands do to a claimant's routable domains what they say, for a claimant whose stored
    customisation keeps an exact domain and does not add its own apex, as the default does and as the commands leave
    it.  Adding [d], or making it the primary, adds exactly [d] and is refused exactly when another claimant owns it
    (or, for the primary, when it is a wildcard); removing [d] removes exactly [d] and succeeds exactly when the
    claimant has it and keeps another exact domain; a reset leaves exactly the apex.  The primary: the one set is the
    primary chosen, and is stored unless it is the apex; adding leaves the stored choice alone, and the chosen primary
    too unless no stored choice was in force and [d] is the restored apex or the missing choice; removing forgets the
    stored choice exactly when it was [d], and the chosen primary changes only when it was [d]; after a reset it is the
    apex.  No command changes another claimant's customisation, and a refused one changes nobody's. *)
Theorem domain_commands_exact c r name domain t dom
    (Ht : resolve_domain_target c r (to_ascii_lowercase name) = Ok t) (Hd : parse_domain c domain = Ok dom)
    (Hn : dns_name (to_ascii_lowercase name) = true)
    (Hk : keeps_exact (to_ascii_lowercase name) (delta_of c t))
    (Ha : Domain_apex (to_ascii_lowercase name) ∉ added (delta_of c t)) :
  let n := to_ascii_lowercase name in
  let old := claimant_domains c n t in
  (match apply_add_domain r name domain c with
   | (Ok _, c') => ~ claimed_elsewhere r name dom /\ gives c name t c' (fun x => x ∈ old \/ x = dom) /\
       primary_after_add c name t dom c'
   | (Err _, c') => claimed_elsewhere r name dom /\ c' = c
   end) /\
  (match apply_set_primary_domain r name domain c with
   | (Ok _, c') => (~ claimed_elsewhere r name dom /\ is_wildcard dom = false) /\
       gives c name t c' (fun x => x ∈ old \/ x = dom) /\ claimant_primary c' n t = dom /\
       primary (delta_of c' t) = (if bool_decide (dom = Domain_apex n) then None else Some dom)
   | (Err _, c') => (claimed_elsewhere r name dom \/ is_wildcard dom = true) /\ c' = c
   end) /\
  (let removable := (dom ∈ old \/ dom = Domain_apex n) /\ exists x, x ∈ old /\ x <> dom /\ is_wildcard x = false in
   match apply_remove_domain r name domain c with
   | (Ok _, c') => removable /\ gives c name t c' (fun x => x ∈ old /\ x <> dom) /\ primary_after_remove c name t dom c'
   | (Err _, c') => ~ removable /\ forall t', delta_of c' t' = delta_of c t'
   end) /\
  (match apply_reset_domains r name c with
   | (Ok _, c') => gives c name t c' (fun x => x = Domain_apex n) /\ claimant_primary c' n t = Domain_apex n /\
       primary (delta_of c' t) = None
   | (Err _, _) => False
   end).
Proof.
  intros n old. split; [by eapply add_domain_gives|]. split; [by eapply set_primary_gives|].
  split; [by eapply remove_domain_gives|].
  unfold apply_reset_domains. rewrite Ht. cbn [applied].
  assert (delta_of (delta_put t None c) t = delta_default) as Hdel by (unfold delta_of; by rewrite delta_get_put).
  assert (claimant_domains (delta_put t None c) n t = [Domain_apex n]) as Hdom.
  { unfold claimant_domains. rewrite Hdel. unfold effective_domains. cbn [added suppressed delta_default].
    rewrite bool_decide_false by apply not_elem_of_nil. cbn [foldl existsb]. by rewrite (apex_not_wildcard n Hn). }
  unfold gives, claimant_primary. fold n. rewrite Hdom, Hdel. split_and!.
  - intros x. apply list_elem_of_singleton.
  - left. apply not_elem_of_nil.
  - apply not_elem_of_nil.
  - intros t' Hne. by apply delta_get_put_ne.
  - unfold choose_primary. cbn [primary delta_default]. by rewrite bool_decide_true by by apply list_elem_of_singleton.
  - done.
Qed.

Definition demo_config : Config :=
  put_linked [mkSite "blog"%str "/srv/blog"%str [] (mkPhp 8 3) false Linked false None None] Config_default.
Definition demo_live : SiteRouter := build demo_config (cf_linked demo_config).

Definition demo_blog : DomainTarget := TLinked "blog"%str.
Lemma domain_commands_exact_witness :
  match apply_add_domain demo_live "Blog"%str "www.blog.test"%str demo_config with
  | (Ok _, c') => gives demo_config "Blog"%str demo_blog c'
      (fun x => x ∈ claimant_domains demo_config "blog"%str demo_blog \/ x = mkDomain "www.blog"%str) /\
      primary_after_add demo_config "Blog"%str demo_blog (mkDomain "www.blog"%str) c'
  | (Err _, _) => False
  end.
Proof.
  destruct (domain_commands_exact demo_config demo_live "Blog"%str "www.blog.test"%str demo_blog
    (mkDomain "www.blog"%str)) as [H _].
  - vm_compute. reflexivity.
  - vm_compute. reflexivity.
  - vm_compute. reflexivity.
  - left. vm_compute. intros Hin. inversion Hin.
  - vm_compute. intros Hin. inversion Hin.
  - assert (is_ok (apply_add_domain demo_live "Blog"%str "www.blog.test"%str demo_config).1 = true) as Hok
      by (vm_compute; reflexivity).
    destruct (apply_add_domain demo_live "Blog"%str "www.blog.test"%str demo_config) as [[a|e] c'].
    + exact (proj2 H).
    + discriminate Hok.
Defined.

(** ** Linking and unlinking *)

Lemma move_demote {A} (b : bool) (k k' : str) (from to : gmap str A) :
  to !! k' = None ->
  let m := move_entry k k' from to in
  demote_entry b k' k m.2 m.1 = (to, if b then from else delete k from).
Proof.
  intros Hn. unfold move_entry, demote_entry. destruct (from !! k) as [v|] eqn:E; simpl.
  - rewrite lookup_insert_eq, delete_insert_id by done. destruct b; [|done].
    by rewrite insert_delete_id.
  - rewrite Hn. destruct b; [done|]. by rewrite delete_id.
Qed.

(** Linking a parked directory and unlinking it again restores the whole
    configuration, customised domains and rules included, when the directory
    is still under a parked root; otherwise exactly the directory's own
    customisations are gone. *)
Theorem link_unlink_roundtrip c r name path php a c1
    (V : validate c = Ok tt) (Hl : apply_link name (Some path) php c = (Ok a, c1))
    (Hp : to_ascii_lowercase name ∉ project_name <$> cf_projects c)
    (Hd : domains_linked (cf_domains c) !! to_ascii_lowercase name = None) :
  let keep {A} (m : gmap str A) := if parent_is_parked_root c path then m else delete path m in
  apply_unlink r name c1 =
  applied ("unlinked "%str ++ to_ascii_lowercase name)
    (put_route_rules (mkRouteRules (route_rules_linked (cf_route_rules c)) (keep (route_rules_parked (cf_route_rules c))))
      (put_proxy_rules (mkProxyRules (proxy_rules_linked (cf_proxy_rules c)) (keep (proxy_rules_parked (cf_proxy_rules c))))
        (put_domains (mkDomains (domains_linked (cf_domains c)) (keep (domains_parked (cf_domains c)))
           (domains_proxy (cf_domains c))) c))) /\
  (parent_is_parked_root c path = true -> (apply_unlink r name c1).2 = c).
Proof.
  intros keep. apply validate_spec in V. set (n := to_ascii_lowercase name) in *.
  unfold apply_link in Hl. destruct (Site_linked name path php) as [s|] eqn:Es; [|done].
  apply linked_site_spec in Es as (Hsn & Hsd & _ & _). fold n in Hsn.
  destruct (has_linked c (site_name s)) eqn:Eh; [done|]. injection Hl as _ <-. rewrite Hsn in *.
  assert (n ∉ linked_names c) as Hnew by (rewrite <- has_linked_spec; congruence).
  match goal with |- ?P /\ _ => assert P as Hu; [|split; [exact Hu|]] end.
  - unfold apply_unlink. fold n.
    destruct (find_first _ (cf_projects _)) as [p|] eqn:Ep.
    { apply find_first_elem in Ep as [Hin Hpn]. unfold str_eqb in Hpn. bprop. destruct Hp.
      apply list_elem_of_fmap. eauto. }
    cbn [cf_linked put_linked].
    assert (forall l, (forall x, x ∈ l -> site_name x <> n) ->
      find_first (fun x => str_eqb (site_name x) n) (l ++ [s]) = Some s /\
      bfilter (fun x => negb (str_eqb (site_name x) n)) (l ++ [s]) = l) as Hlist.
    { unfold str_eqb. intros l; induction l as [|x l IH]; intros Hx; simpl; [by rewrite bool_decide_true|].
      rewrite bool_decide_false by (apply Hx; set_solver). cbn [negb].
      destruct IH as [-> ->]; [|done]. intros y Hy. apply Hx. set_solver. }
    destruct (Hlist (cf_linked c)) as [Hf Hb].
    { intros x Hx Hxn. apply Hnew, elem_of_linked_names. eauto. }
    change (cf_linked (promote _ _ c)) with (cf_linked c). rewrite Hf. unfold override_key. rewrite Hsd.
    assert (proxy_rules_linked (cf_proxy_rules c) !! n = None) as Hr.
    { apply eq_None_not_Some. intros [rs Hrs]. apply (vc_proxy_rules c V) in Hrs as [? _]. done. }
    assert (route_rules_linked (cf_route_rules c) !! n = None) as Hu.
    { apply eq_None_not_Some. intros [rs Hrs]. apply (vc_route_rules c V) in Hrs as [? _]. done. }
    unfold promote. cbn -[demote_entry move_entry bfilter find_first str_eqb]. rewrite Hb.
    rewrite (move_demote _ path n _ _ Hd), (move_demote _ path n _ _ Hr), (move_demote _ path n _ _ Hu).
    done.
  - intros Hb. rewrite Hu. unfold keep. rewrite Hb. by destruct c as [? ? ? ? ? ? ? ? ? ? ? ? ? ? ? ? ? ? ? [] ? [] []].
Qed.

Definition demo_parked : Config :=
  put_parked {["/srv"%str]}
    (put_domains (mkDomains ∅ {["/srv/blog"%str := mkDelta [mkDomain "www.blog"%str] [] None]} ∅) Config_default).

Lemma link_unlink_roundtrip_witness :
  (apply_unlink demo_router0 "blog"%str (apply_link "blog"%str (Some "/srv/blog"%str) (mkPhp 8 3) demo_parked).2).2
  = demo_parked.
Proof.
  apply (link_unlink_roundtrip demo_parked demo_router0 "blog"%str "/srv/blog"%str (mkPhp 8 3)
    (mkApplied "linked blog"%str)).
  - vm_compute. reflexivity.
  - vm_compute. reflexivity.
  - vm_compute. intros H. inversion H.
  - vm_compute. reflexivity.
  - vm_compute. reflexivity.
Defined.

(** ** Group commands *)

Definition group_request (req : Request) : bool :=
  match req with
  | CreateGroup _ | DeleteGroup _ | SetGroupOrder _ | SetSiteGroup _ _ | RenameGroup _ _ => true
  | _ => false
  end.

Lemma apply_group_step r req canonical php c :
  group_request req = true -> groups_step c (apply r req canonical php c).
Proof.
  destruct req; try done; intros _; cbn [apply].
  - apply create_group_step.
  - apply delete_group_step.
  - apply set_group_order_step.
  - apply set_site_group_step.
  - apply rename_group_step.
Qed.

(** Two sites share a group after a renaming exactly when they did before. *)
Lemma rename_partition c from to a c' :
  groups_good (cf_groups c) -> apply_rename_group from to c = (Ok a, c') ->
  length (groups_order (cf_groups c')) = length (groups_order (cf_groups c)) /\
  forall s s', groups_members (cf_groups c') !! s = groups_members (cf_groups c') !! s' <->
               groups_members (cf_groups c) !! s = groups_members (cf_groups c) !! s'.
Proof.
  intros [[G1 G2 G3] Hex]. unfold apply_rename_group. set (n := trim to). destruct (is_empty n); [done|].
  destruct (eq_ignore_ascii_case n _); [done|].
  destruct (position _ _) as [idx|] eqn:Ep; [|done].
  destruct (existsb _ (enumerate _)) eqn:Ex; [done|].
  apply position_Some in Ep as (old & Ho & Hf). rewrite Ho. intros [= _ <-]. cbn.
  apply eq_ignore_case_true in Hf.
  destruct (renamed_order_ok _ idx old n Ho G1 Ex) as [_ Hfree].
  split; [apply length_insert|]. intros s s'. rewrite !lookup_fmap.
  assert (forall v w, v ∈ groups_order (cf_groups c) -> w ∈ groups_order (cf_groups c) ->
    eq_ignore_ascii_case w from = false -> v = w -> w <> n) as Hother.
  { intros v w Hv (j & Hj)%list_elem_of_lookup Hw _ ->. apply eq_ignore_false in Hw.
    apply (Hfree j n Hj); [|done]. intros ->. rewrite Ho in Hj. injection Hj as ->. done. }
  split; [|by intros ->].
  destruct (groups_members (cf_groups c) !! s) as [v|] eqn:Ev, (groups_members (cf_groups c) !! s') as [w|] eqn:Ew;
    cbn; try done. intros [= H]. f_equal. apply Hex in Ev, Ew.
  destruct (eq_ignore_ascii_case v from) eqn:E1, (eq_ignore_ascii_case w from) eqn:E2.
  - apply eq_ignore_case_true in E1, E2. apply list_elem_of_lookup in Ev as (i & Hi), Ew as (j & Hj).
    rewrite NoDup_alt in G1. assert (i = j) as ->; [|congruence].
    apply (G1 i j (to_ascii_lowercase from)); rewrite list_lookup_fmap, ?Hi, ?Hj; cbn; congruence.
  - exfalso. by apply (Hother w w Ew Ew E2).
  - exfalso. by apply (Hother v v Ev Ev E1).
  - done.
Qed.

(** Every group command keeps the group section consistent: names stay
    distinct up to case, none is empty or reserved, and every member carries the
    exact casing of an existing group; a refused command changes nothing, and no
    command touches the rest of the configuration.  Renaming keeps the number
    of groups and which sites share one. *)
Theorem group_commands_consistent r req canonical php c
    (Hr : group_request req = true) (Hg : groups_good (cf_groups c)) :
  match apply r req canonical php c with
  | (Ok _, c') => (exists g', c' = put_groups g' c /\ groups_good g') /\
      (forall from to, req = RenameGroup from to ->
         length (groups_order (cf_groups c')) = length (groups_order (cf_groups c)) /\
         forall s s', groups_members (cf_groups c') !! s = groups_members (cf_groups c') !! s' <->
                      groups_members (cf_groups c) !! s = groups_members (cf_groups c) !! s')
  | (Err _, c') => c' = c
  end.
Proof.
  pose proof (apply_group_step r req canonical php c Hr) as H.
  destruct (apply r req canonical php c) as [[a|e] c'] eqn:E; [|done].
  destruct H as (g & -> & H1 & H2). split.
  - exists g. split; [done|]. split; [by apply H1, Hg|by apply H2].
  - intros from to ->. by eapply rename_partition.
Qed.

Definition demo_groups : Config :=
  put_groups (mkGroups ["Work"%str; "Home"%str] {["blog"%str := "Work"%str]}) Config_default.
Lemma demo_groups_good : groups_good (cf_groups demo_groups).
Proof.
  assert (forall s v, groups_members (cf_groups demo_groups) !! s = Some v -> v = "Work"%str) as Hm.
  { intros s v Hv. change (({["blog"%str := "Work"%str]} : smap) !! s = Some v) in Hv.
    by apply lookup_singleton_Some in Hv as [_ <-]. }
  split; [constructor|].
  - apply (bool_decide_unpack _). vm_compute. exact I.
  - intros x [->|[->|Hx]%elem_of_cons]%elem_of_cons; [by split|by split|by apply elem_of_nil in Hx].
  - intros s v ->%Hm. exists "Work"%str. split; [by left|by vm_compute].
  - intros s v ->%Hm. by left.
Qed.

Lemma group_commands_consistent_witness :
  let o := apply demo_router0 (RenameGroup "work"%str "Jobs"%str) None (mkPhp 8 3) demo_groups in
  is_ok o.1 = true /\
  match o with
  | (Ok _, c') => (exists g', c' = put_groups g' demo_groups /\ groups_good g') /\
      (forall from to, RenameGroup "work"%str "Jobs"%str = RenameGroup from to ->
         length (groups_order (cf_groups c')) = length (groups_order (cf_groups demo_groups)) /\
         forall s s', groups_members (cf_groups c') !! s = groups_members (cf_groups c') !! s' <->
                      groups_members (cf_groups demo_groups) !! s = groups_members (cf_groups demo_groups) !! s')
  | (Err _, c') => c' = demo_groups
  end.
Proof.
  split; [vm_compute; reflexivity|].
  exact (group_commands_consistent demo_router0 (RenameGroup "work"%str "Jobs"%str) None (mkPhp 8 3) demo_groups
    eq_refl demo_groups_good).
Defined.
