(* ===== verification/Link.v ===== *)
(** * Linking a container project

    [src/bin/orckerd/src/link.rs], the pure decision of [orcker link], with the
    reserved ports of [src/crates/orcker-config/src/ports.rs].

    A plan is a registry entry on a port nobody has, or the entry the directory
    already has; registering it keeps the configuration valid, and planning
    again afterwards finds it. *)

From S2P Require Import Prelude RustStr RustMap RustPath CoreError DnsLabel Tld Domain Php Site Proxy Router Project Settings Config SiteDomains Descriptor Ipc Mutate MutateValid.

Open Scope N_scope.

(** Every loopback port the configuration reserves for a project. *)
Definition taken_ports (c : Config) : gset N := list_to_set (project_port <$> cf_projects c).

Inductive LinkPlan :=
| PlanLink (project : ContainerProject) (write_yml : option OrckerYml)
| AlreadyLinked (project : ContainerProject).

Inductive LinkError :=
| LinkCore (e : CoreError)
| LinkConfig (e : ConfigError)
| NameTaken (name : str)
| PortOutOfRange (port first last : N)
| PortTaken (port : N) (owner : str)
| NoName (root : str).

(** [impl PartialEq for Path]: component-wise. *)
Definition path_eqb (a b : str) : bool := bool_decide (components a = components b).

Definition DEFAULT_PHP : PhpVersion := PhpVersion_new 8 4.
Definition DEFAULT_DB : str := "postgres"%str.
Definition DEFAULT_PRESET : str := "reference"%str.

Definition derive_name (root : str) (requested : option str) (existing_yml : option OrckerYml) : option str :=
  match requested with
  | Some requested => normalize_site_name requested
  | None =>
      match existing_yml with
      | Some yml => normalize_site_name (yml_site yml)
      | None => f ← file_name root; slugify_site_name f
      end
  end.

Definition plan_link `{PortProbe P} (c : Config) (root : str) (requested_name : option str)
    (requested_port : option N) (existing_yml : option OrckerYml) (probe : P) : result LinkError LinkPlan :=
  name ← ok_or (NoName root) (derive_name root requested_name existing_yml);
  match find_first (fun p => str_eqb (project_name p) name) (cf_projects c) with
  | Some existing =>
      if path_eqb (project_root existing) root then Ok (AlreadyLinked existing) else Err (NameTaken name)
  | None =>
      if existsb (fun s => str_eqb (site_name s) name) (cf_linked c)
         || existsb (fun p => str_eqb (proxy_name p) name) (cf_proxies c)
      then Err (NameTaken name)
      else
        port ← match requested_port with
               | Some requested =>
                   if negb ((FIRST_PROJECT_PORT <=? requested) && (requested <=? LAST_PROJECT_PORT))
                   then Err (PortOutOfRange requested FIRST_PROJECT_PORT LAST_PROJECT_PORT)
                   else match find_first (fun p => project_port p =? requested) (cf_projects c) with
                        | Some owner => Err (PortTaken requested (project_name owner))
                        | None => Ok requested
                        end
               | None => map_err LinkCore (allocate_port (taken_ports c) probe)
               end;
        write_yml ← match existing_yml with
                    | Some _ => Ok None
                    | None => yml ← map_err LinkConfig (OrckerYml_new name DEFAULT_PHP DEFAULT_DB DEFAULT_PRESET);
                              Ok (Some yml)
                    end;
        project ← map_err LinkCore (ContainerProject_new name root port);
        Ok (PlanLink project write_yml)
  end.

(** Registering a planned project. *)
Definition push_project (p : ContainerProject) (c : Config) : Config := put_projects (cf_projects c ++ [p]) c.

(** ** Names *)

Lemma derive_name_label root requested yml n : derive_name root requested yml = Some n -> dns_label n = true.
Proof.
  unfold derive_name. destruct requested as [r|]; [apply normalize_label|].
  destruct yml as [y|]; [apply normalize_label|]. destruct (file_name root) as [f|]; [|done].
  cbn [mbind option_bind]. intros H. pose proof (slugify_spec f) as Hs. rewrite H in Hs. by destruct Hs.
Qed.

Lemma new_project_label n root port : dns_label n = true -> ContainerProject_new n root port = Ok (mkProject n root port false).
Proof. intros H. unfold ContainerProject_new. by rewrite validate_name_stable. Qed.

Lemma default_yml n : dns_label n = true ->
  OrckerYml_new n DEFAULT_PHP DEFAULT_DB DEFAULT_PRESET = Ok (mkYml SCHEMA_VERSION n DEFAULT_PHP DEFAULT_DB DEFAULT_PRESET).
Proof. intros H. unfold OrckerYml_new, validated_site. by rewrite normalize_label_id. Qed.

Lemma existsb_name {A} (g : A -> str) (l : list A) (n : str) :
  existsb (fun x => str_eqb (g x) n) l = true <-> n ∈ g <$> l.
Proof.
  unfold str_eqb. rewrite existsb_elem, list_elem_of_fmap.
  split; intros (x & H); exists x; [|destruct H as [-> ?]]; rewrite ?bool_decide_eq_true in *; naive_solver.
Qed.

Lemma find_name {A} (g : A -> str) (l : list A) (n : str) :
  find_first (fun x => str_eqb (g x) n) l = None <-> n ∉ g <$> l.
Proof.
  rewrite find_first_None, Forall_forall, list_elem_of_fmap. unfold str_eqb.
  split; [intros H (x & -> & Hx)|intros H x Hx].
  - apply H in Hx. by rewrite bool_decide_eq_false in Hx.
  - apply bool_decide_eq_false. intros <-. eauto.
Qed.

Lemma find_port (l : list ContainerProject) port :
  find_first (fun p => project_port p =? port) l = None <-> port ∉ project_port <$> l.
Proof.
  rewrite find_first_None, Forall_forall, list_elem_of_fmap.
  split; [intros H (x & -> & Hx)|intros H x Hx].
  - apply H in Hx. by rewrite N.eqb_refl in Hx.
  - apply N.eqb_neq. intros <-. eauto.
Qed.

(** ** The port of a plan *)

Section Port.
Context `{PortProbe P} (c : Config) (probe : P).

(** A port a plan may hand out. *)
Definition allocatable (port : N) : Prop :=
  FIRST_PROJECT_PORT <= port <= LAST_PROJECT_PORT /\ port ∉ project_port <$> cf_projects c.

(** The port requested, or the lowest one that is also free now. *)
Definition port_for (requested : option N) (port : N) : Prop :=
  allocatable port /\
  match requested with
  | Some r => port = r
  | None => is_free probe port = true /\
      forall q, q < port -> ~ (allocatable q /\ is_free probe q = true)
  end.

Lemma allocated_port port : allocate_port (taken_ports c) probe = Ok port -> port_for None port.
Proof.
  intros E. pose proof (allocate_port_spec (taken_ports c) probe) as A. rewrite E in A.
  destruct A as ((Hr & Ht & Hf) & Hlow). unfold port_for, allocatable.
  assert (forall q, q ∈ taken_ports c <-> q ∈ project_port <$> cf_projects c) as Hq
    by (intros q; apply elem_of_list_to_set).
  rewrite Hq in Ht. split; [done|]. split; [done|]. intros q Hlt ([Hrq Htq] & Hfq).
  apply (Hlow q Hlt). by rewrite Hq.
Qed.

End Port.

(** Registering a project of a fresh name and port keeps the configuration valid. *)
Lemma push_project_valid c p :
  valid_config c -> project_name p ∉ project_name <$> cf_projects c ->
  project_name p ∉ linked_names c -> project_name p ∉ proxy_name <$> cf_proxies c ->
  allocatable c (project_port p) -> valid_config (push_project p c).
Proof.
  intros V Hn Hl Hp [Hr Ht]. destruct (vc_projects c V) as (P1 & P2 & P3). unfold FIRST_PROJECT_PORT in Hr.
  apply valid_projects; [done|rewrite fmap_app; apply NoDup_app; split; [done|split; [set_solver|apply NoDup_singleton]]..|].
  intros x [Hx|Hx]%elem_of_app; [auto|]. apply list_elem_of_singleton in Hx as ->. split; [lia|done].
Qed.

(** ** What a plan says *)

(** Where a name is taken by another claimant. *)
Definition taken_elsewhere (c : Config) (root n : str) : Prop :=
  (exists p, p ∈ cf_projects c /\ project_name p = n /\ path_eqb (project_root p) root = false) \/
  n ∈ linked_names c \/ n ∈ proxy_name <$> cf_proxies c.

Section Plans.
Context `{PortProbe P} (c : Config) (root : str) (name : option str) (port : option N) (yml : option OrckerYml)
  (probe : P).

Definition planned (p : ContainerProject) (w : option OrckerYml) : Prop :=
  derive_name root name yml = Some (project_name p) /\
  p = mkProject (project_name p) root (project_port p) false /\
  project_name p ∉ project_name <$> cf_projects c /\
  project_name p ∉ linked_names c /\ project_name p ∉ proxy_name <$> cf_proxies c /\
  port_for c probe port (project_port p) /\
  w = match yml with
      | Some _ => None
      | None => Some (mkYml SCHEMA_VERSION (project_name p) DEFAULT_PHP DEFAULT_DB DEFAULT_PRESET)
      end.

Definition refused (e : LinkError) : Prop :=
  match e with
  | NoName r => r = root /\ derive_name root name yml = None
  | NameTaken n => derive_name root name yml = Some n /\ taken_elsewhere c root n
  | PortOutOfRange r first last =>
      port = Some r /\ first = FIRST_PROJECT_PORT /\ last = LAST_PROJECT_PORT /\ ~ first <= r <= last
  | PortTaken r owner =>
      port = Some r /\ exists p, p ∈ cf_projects c /\ project_port p = r /\ project_name p = owner
  | LinkCore e =>
      port = None /\ e = PortRangeExhausted FIRST_PROJECT_PORT LAST_PROJECT_PORT /\
      forall q, ~ (allocatable c q /\ is_free probe q = true)
  | LinkConfig _ => False
  end.

Lemma plan_link_spec :
  match plan_link c root name port yml probe with
  | Ok (PlanLink p w) => planned p w
  | Ok (AlreadyLinked p) =>
      p ∈ cf_projects c /\ derive_name root name yml = Some (project_name p) /\ path_eqb (project_root p) root = true
  | Err e => refused e
  end.
Proof.
  unfold plan_link. destruct (derive_name root name yml) as [n|] eqn:En; [|done].
  cbn [ok_or mbind result_bind]. pose proof (derive_name_label _ _ _ _ En) as Hn.
  destruct (find_first _ (cf_projects c)) as [x|] eqn:Ef.
  - apply find_first_Some in Ef as (l1 & l2 & El & Hx & _). unfold str_eqb in Hx.
    apply bool_decide_eq_true in Hx. assert (x ∈ cf_projects c) as Hin by (rewrite El; set_solver).
    destruct (path_eqb (project_root x) root) eqn:Er; [by rewrite Hx|]. split; [done|]. left. eauto.
  - apply find_name in Ef. destruct (existsb _ _ || existsb _ _) eqn:Et.
    + split; [done|]. right. apply orb_true_iff in Et as [Et|Et]; apply existsb_name in Et; [left|by right].
      by apply elem_of_list_to_set.
    + apply orb_false_iff in Et as [El Ep].
      assert (n ∉ linked_names c) as El' by
        (intros Hin; apply elem_of_list_to_set, existsb_name in Hin; congruence).
      assert (n ∉ proxy_name <$> cf_proxies c) as Ep' by (rewrite <- existsb_name; congruence).
      match goal with |- match mbind _ ?m with _ => _ end =>
        assert (match m with Ok q => port_for c probe port q | Err e => refused e end) as Hport end.
      { destruct port as [r|] eqn:Hreq.
        - destruct (negb _) eqn:Eo; [bprop; split; [done|]; repeat (split; [done|]); lia|].
          destruct (find_first _ _) as [x|] eqn:Ex.
          + apply find_first_Some in Ex as (l1 & l2 & E & Hx & _). bprop. split; [done|]. exists x.
            split; [|done]. rewrite E. set_solver.
          + apply find_port in Ex. split; [|done]. split; [|done]. bprop. lia.
        - destruct (allocate_port _ probe) as [q|e] eqn:Ea; [by apply allocated_port|].
          pose proof (allocate_port_spec (taken_ports c) probe) as A. rewrite Ea in A. destruct A as [-> A].
          split; [done|]. split; [done|]. intros q [[Hr Ht] Hf]. apply (A q). split; [done|]. split; [|done].
          intros Hin. by apply elem_of_list_to_set in Hin. }
      match goal with |- match mbind _ ?m with _ => _ end => destruct m as [q|e] end; [|done].
      cbn [mbind result_bind]. rewrite default_yml by done.
      destruct yml eqn:Hyml; cbn [map_err mbind result_bind]; rewrite new_project_label by done; unfold planned; rewrite Hyml; cbn [map_err mbind result_bind]; auto 10.
Qed.

End Plans.

Lemma find_pushed (l : list ContainerProject) p :
  project_name p ∉ project_name <$> l ->
  find_first (fun x => str_eqb (project_name x) (project_name p)) (l ++ [p]) = Some p.
Proof.
  intros H. apply find_name in H. rewrite find_first_None in H. apply find_first_Some.
  exists l, []. split; [done|]. split; [|done]. unfold str_eqb. by apply bool_decide_eq_true.
Qed.

(** Planning a link: the planned project has the derived name, nobody
    else's, sits at the directory and on a port of the range that no project
    has (the requested one, or the lowest that is also free); a descriptor is
    written exactly when there is none, and reads back as written; registering
    the plan keeps the configuration valid, and planning the same directory
    again then finds that project, whatever port is asked for.  Each refusal
    says what is wrong, and nothing else is refused. *)
Theorem plan_link_sound `{PortProbe P} (c : Config) root name port yml (probe : P) :
  match plan_link c root name port yml probe with
  | Ok (PlanLink p w) =>
      planned c root name port yml probe p w /\
      (forall y, w = Some y -> parse (render y) = Ok y) /\
      (valid_config c -> valid_config (push_project p c)) /\
      (forall port', plan_link (push_project p c) root name port' (from_option Some w yml) probe = Ok (AlreadyLinked p))
  | Ok (AlreadyLinked p) =>
      p ∈ cf_projects c /\ derive_name root name yml = Some (project_name p) /\ path_eqb (project_root p) root = true
  | Err e => refused c root name port yml probe e
  end.
Proof.
  pose proof (plan_link_spec c root name port yml probe) as H0.
  destruct (plan_link _ _ _ _ _ _) as [[p w|p]|e]; [|exact H0..]. split; [exact H0|].
  destruct H0 as (Hd & Hp & H1 & H2 & H3 & H4 & Hw). pose proof (derive_name_label _ _ _ _ Hd) as Hl.
  split; [|split].
  - intros y ->. destruct yml; [done|]. injection Hw as ->. apply parse_significant; [|apply render_lines];
      (constructor; [done|done|done|by left|by left]).
  - intros V. apply push_project_valid; [done..|apply H4].
  - intros port'. unfold plan_link.
    assert (derive_name root name (from_option Some w yml) = Some (project_name p)) as ->.
    { destruct yml as [y|]; simpl; [done|]. subst w. unfold derive_name in *. destruct name; [done|].
      simpl. by apply normalize_label_id. }
    cbn [ok_or mbind result_bind]. unfold push_project at 1. cbn [cf_projects put_projects].
    rewrite find_pushed by done. rewrite Hp at 1. cbn [project_root]. unfold path_eqb.
    by rewrite bool_decide_true.
Qed.
