(* ===== verification/Scan.v ===== *)
(** * Scanning the parked folders

    [src/bin/orckerd/src/startup.rs] (which sites a configuration gives on a
    file system), [detect_cache.rs] (the memory of web-root detections),
    [wordpress_detect.rs], [laravel_detect.rs] and the signals of
    [src/crates/orcker-platform/src/detect.rs].

    The file system is a record of answers ([Fs]); the cache is explicit state.
    [reference_sites] says, without a cache, which sites a scan finds;
    [scan_reference] shows the scan computes it whenever the cache is coherent,
    and [stale_detection] shows what its freshness stamp does not notice. *)

From stdpp Require Import sorting.
From S2P Require Import Prelude RustStr RustMap RustPath CoreError DnsLabel Tld Domain Php Site Proxy Router Project Settings Config Migrate Wire SiteDomains Mutate MutateValid.

Open Scope N_scope.

(** ** The file system *)

(** A directory entry: its name when it is UTF-8, and whether it is itself a
    directory when its metadata can be read. *)
Record DirEntry := mkEntry { entry_name : option str; entry_is_dir : option bool }.

Record Fs := mkFs {
  fs_canonicalize : str -> result io_kind str;
  fs_is_dir : str -> bool;
  fs_is_file : str -> bool;
  fs_exists : str -> bool;
  fs_read_dir : str -> result io_kind (list DirEntry);
  fs_read : str -> option (list N);
  fs_read_to_string : str -> option str;
  fs_modified : str -> option N;
}.

(** [serde_json]: a document, and the keys of one of its sections. *)
Class Json (J : Type) := {
  json_from_slice : list N -> option J;
  json_object_keys : J -> str -> option (list str);
}.

Inductive DaemonError :=
| DaemonConfig (e : ConfigError)
| DaemonCore (e : CoreError)
| DaemonIo (path : str) (source : io_kind).

#[export] Instance component_countable : Countable component.
Proof.
  refine (inj_countable'
    (fun c => match c with RootDir => inl false | CurDir => inl true | ParentDir => inr None
              | Normal s => inr (Some s) end)
    (fun x => match x with inl false => RootDir | inl true => CurDir | inr None => ParentDir
              | inr (Some s) => Normal s end) _); by intros [].
Defined.

Section Scan.
Context `{Json J} (fs : Fs).

(** ** Web-root signals *)

Definition gather_composer_requires (project_root : str) : gset str :=
  match fs_read fs (path_join project_root "composer.json"%str) with
  | None => ∅
  | Some bytes =>
      match json_from_slice bytes with
      | None => ∅
      | Some json =>
          foldl (fun (acc : gset str) section =>
            match json_object_keys json section with
            | None => acc
            | Some keys => foldl (fun (acc : gset str) key => {[to_ascii_lowercase key]} ∪ acc) acc keys
            end) ∅ ["require"%str; "require-dev"%str]
      end
  end.

Definition gather_project_signals (project_root : str) : ProjectSignals :=
  mkSignals (gather_composer_requires project_root)
    (list_to_set (bfilter (fun marker => fs_exists fs (path_join project_root marker)) ROOT_MARKERS))
    (list_to_set (bfilter (fun cand => fs_is_file fs (path_join (path_join project_root cand) "index.php"%str))
       WEB_DIR_CANDIDATES)).

Definition is_wordpress (served : str) : bool :=
  fs_is_file fs (path_join served "wp-config.php"%str) || fs_is_file fs (path_join served "wp-load.php"%str).
Definition is_laravel (document_root : str) : bool := fs_is_file fs (path_join document_root "artisan"%str).

Definition detect_web_subpath (doc_root : str) : str := subpath (detect (gather_project_signals doc_root)).

(** ** The detection cache

    A map keyed by path, whose equality is component-wise. *)
Notation DetectCache := (gmap (list component) (N * Detection)).

Definition freshness_stamp (root : str) : option N :=
  match fs_modified fs root, fs_modified fs (path_join root "composer.json"%str) with
  | Some a, Some b => Some (N.max a b)
  | Some a, None | None, Some a => Some a
  | None, None => None
  end.

Definition cache_detect (cache : DetectCache) (project_root : str) : Detection * DetectCache :=
  let fresh := detect (gather_project_signals project_root) in
  match freshness_stamp project_root with
  | None => (fresh, cache)
  | Some stamp =>
      let update := (fresh, <[components project_root := (stamp, fresh)]> cache) in
      match cache !! components project_root with
      | Some (cached_stamp, det) => if cached_stamp =? stamp then (det, cache) else update
      | None => update
      end
  end.

(** ** Parked sites *)

Definition parked_site_name (linked_names : gset str) (entry : DirEntry) : option str :=
  name ← entry_name entry;
  if starts_with "." name then None
  else
    is_dir ← entry_is_dir entry;
    if negb is_dir then None
    else
      site_name ← normalize_site_name name;
      if bool_decide (site_name ∈ linked_names) then None else Some site_name.

(** The scalar overrides of a parked site, one [if let] each. *)
Definition apply_override (ov : SiteOverride) (site : Site) : Site :=
  let site := match ov_php ov with Some php => set_php php site | None => site end in
  let site := match ov_secure ov with Some b => set_secure b site | None => site end in
  let site := match ov_wp_auto_login ov with Some b => set_wp_auto_login b site | None => site end in
  let site := match ov_wp_auto_login_user ov with Some u => set_wp_auto_login_user (Some u) site | None => site end in
  match ov_front_controller ov with Some b => set_front_controller (Some b) site | None => site end.

Record ScanState := mkScan { sc_parked : list Site; sc_watch : list str; sc_cache : DetectCache }.

Definition build_parked_site (name doc_root : str) (default_php : PhpVersion) (cfg : Config) (st : ScanState)
  : option Site * ScanState :=
  match Site_parked name doc_root default_php with
  | Err _ => (None, st)
  | Ok site =>
      let ov := cf_overrides cfg !! doc_root in
      let site := match ov with Some ov => apply_override ov site | None => site end in
      match o ← ov; ov_web_root o with
      | Some rel => (Some (set_web_subpath rel site), st)
      | None =>
          let '(det, cache) := cache_detect (sc_cache st) doc_root in
          (Some (set_web_subpath (subpath det) site),
           mkScan (sc_parked st) (if resolved det then sc_watch st else sc_watch st ++ [doc_root]) cache)
      end
  end.

Definition scan_entry (cfg : Config) (default_php : PhpVersion) (parked_root : str) (st : ScanState) (entry : DirEntry)
  : ScanState :=
  match parked_site_name (linked_names cfg) entry with
  | None => st
  | Some name =>
      match build_parked_site name (path_join parked_root (default [] (entry_name entry))) default_php cfg st with
      | (Some site, st) => mkScan (sc_parked st ++ [site]) (sc_watch st) (sc_cache st)
      | (None, st) => st
      end
  end.

Fixpoint scan_roots (cfg : Config) (default_php : PhpVersion) (roots : list str) (st : ScanState)
  : result DaemonError unit * ScanState :=
  match roots with
  | [] => (Ok tt, st)
  | parked_root :: rest =>
      match fs_read_dir fs parked_root with
      | Ok entries => scan_roots cfg default_php rest (foldl (scan_entry cfg default_php parked_root) st entries)
      | Err IoNotFound => scan_roots cfg default_php rest st
      | Err source => (Err (DaemonIo parked_root source), st)
      end
  end.

(** The parked folders come in [BTreeSet] order. *)
Definition parked_paths (cfg : Config) : list str := merge_sort str_le (elements (cf_parked cfg)).

Definition scan_sites (cfg : Config) (default_php : PhpVersion) (cache : DetectCache)
  : result DaemonError (list Site * list str) * DetectCache :=
  let '(r, st) := scan_roots cfg default_php (parked_paths cfg) (mkScan [] [] cache) in
  (_ ← r; Ok (sc_parked st ++ cf_linked cfg, sc_watch st), sc_cache st).

Record Routing := mkRouting {
  rt_router : SiteRouter; rt_wordpress : gmap str bool; rt_laravel : gmap str bool; rt_watch_roots : list str }.

Definition routing_of (cfg : Config) (sites : list Site) (watch_roots : list str) : Routing :=
  let router := build cfg sites in
  mkRouting router ((fun s => is_wordpress (served_root s)) <$> r_sites router)
    ((fun s => is_laravel (site_document_root s)) <$> r_sites router) watch_roots.

Definition build_routing (cfg : Config) (cache : DetectCache) : result DaemonError Routing * DetectCache :=
  let '(r, cache) := scan_sites cfg (php_default (cf_php cfg)) cache in
  ('(sites, watch_roots) ← r; Ok (routing_of cfg sites watch_roots), cache).

End Scan.
Notation DetectCache := (gmap (list component) (N * Detection)).

(** [Config::load]: the file's text, or the error reading it, through the loader. *)
Definition Config_load toml_from_str try_into (path : str) (read : result io_kind str) : result ConfigError Config :=
  s ← map_err (ConfigIo path) read; parse_toml toml_from_str try_into s.

(** First boot: a missing file is the default configuration, anything else that
    does not load is fatal. *)
Definition load_or_default_config (load : result ConfigError Config) : result DaemonError Config :=
  match load with
  | Ok c => Ok c
  | Err (ConfigIo _ IoNotFound) => Ok Config_default
  | Err e => Err (DaemonConfig e)
  end.

(** ** What a scan finds *)

Section Reference.
Context `{Json J} (fs : Fs) (cfg : Config) (default_php : PhpVersion).

(** A parked entry's site, and its folder when it must be watched. *)
Definition reference_site (parked_root : str) (entry : DirEntry) : option (Site * option str) :=
  name ← parked_site_name (linked_names cfg) entry;
  let doc_root := path_join parked_root (default [] (entry_name entry)) in
  let base := mkSite name doc_root [] default_php false Parked false None None in
  let ov := cf_overrides cfg !! doc_root in
  let site := from_option (fun ov => apply_override ov base) base ov in
  match o ← ov; ov_web_root o with
  | Some rel => Some (set_web_subpath rel site, None)
  | None =>
      let det := detect (gather_project_signals fs doc_root) in
      Some (set_web_subpath (subpath det) site, if resolved det then None else Some doc_root)
  end.

Fixpoint reference_sites (roots : list str) : result DaemonError (list (Site * option str)) :=
  match roots with
  | [] => Ok []
  | parked_root :: rest =>
      match fs_read_dir fs parked_root with
      | Ok entries => l ← reference_sites rest; Ok (omap (reference_site parked_root) entries ++ l)
      | Err IoNotFound => reference_sites rest
      | Err source => Err (DaemonIo parked_root source)
      end
  end.

(** What a project looks like when its freshness stamp has a value: the
    assumption the cache makes about the file system. *)
Context (look : list component -> N -> ProjectSignals).
Definition stamped : Prop :=
  forall root s, freshness_stamp fs root = Some s -> gather_project_signals fs root = look (components root) s.
Definition coherent (cache : DetectCache) : Prop :=
  forall k s det, cache !! k = Some (s, det) -> det = detect (look k s).

Context (Hs : stamped).

Lemma cache_detect_spec cache root :
  coherent cache ->
  (cache_detect fs cache root).1 = detect (gather_project_signals fs root) /\ coherent (cache_detect fs cache root).2.
Proof using Hs.
  intros Hc. unfold cache_detect. destruct (freshness_stamp fs root) as [stamp|] eqn:Es; [|done].
  apply Hs in Es.
  assert (coherent (<[components root := (stamp, detect (gather_project_signals fs root))]> cache)) as Hu.
  { intros k s det [[<- [= <- <-]]|[_ Hk]]%lookup_insert_Some; [by rewrite Es|by apply (Hc k)]. }
  destruct (cache !! components root) as [[stamp' det]|] eqn:Ec; [|done].
  destruct (stamp' =? stamp) eqn:E; [|done]. apply N.eqb_eq in E as ->. apply Hc in Ec as ->. by rewrite Es.
Qed.

Lemma parked_name_label linked e n : parked_site_name linked e = Some n -> dns_label n = true /\ n ∉ linked.
Proof using.
  unfold parked_site_name. destruct (entry_name e) as [f|]; [|done]. cbn [mbind option_bind].
  destruct (starts_with _ _); [done|]. destruct (entry_is_dir e) as [[]|]; [|done..]. cbn [mbind option_bind negb].
  destruct (normalize_site_name f) as [m|] eqn:En; [|done]. cbn [mbind option_bind].
  destruct (bool_decide _) eqn:Eb; [done|]. intros [= <-]. bprop. split; [by eapply normalize_label|done].
Qed.

Lemma scan_entry_spec root st e :
  coherent (sc_cache st) ->
  exists cache, coherent cache /\
    scan_entry fs cfg default_php root st e =
    match reference_site root e with
    | Some (s, w) => mkScan (sc_parked st ++ [s]) (sc_watch st ++ option_list w) cache
    | None => mkScan (sc_parked st) (sc_watch st) cache
    end.
Proof using Hs.
  intros Hc. unfold scan_entry, reference_site.
  destruct (parked_site_name _ e) as [n|] eqn:En; cbn [mbind option_bind]; [|exists (sc_cache st); by destruct st].
  apply parked_name_label in En as [Hn _]. unfold build_parked_site, Site_parked, site_with_kind.
  rewrite validate_name_stable by done. cbn [mbind result_bind].
  set (doc := path_join _ _). set (ov := cf_overrides cfg !! doc).
  destruct (ov ≫= ov_web_root) as [rel|] eqn:Er.
  - exists (sc_cache st). split; [done|]. cbn [sc_parked sc_watch sc_cache option_list]. rewrite app_nil_r.
    destruct st; by destruct ov.
  - pose proof (cache_detect_spec (sc_cache st) doc Hc) as [Hd Hc'].
    destruct (cache_detect fs (sc_cache st) doc) as [det cache]. cbn [fst snd] in Hd, Hc'. subst det.
    exists cache. split; [done|]. cbn [sc_parked sc_watch sc_cache].
    destruct (resolved _); cbn [option_list]; rewrite ?app_nil_r; by destruct ov.
Qed.

Lemma scan_entries_spec root entries st :
  coherent (sc_cache st) ->
  exists cache, coherent cache /\
    foldl (scan_entry fs cfg default_php root) st entries =
    let l := omap (reference_site root) entries in mkScan (sc_parked st ++ l.*1) (sc_watch st ++ omap snd l) cache.
Proof using Hs.
  revert st. induction entries as [|e entries IH]; intros st Hc; cbn [foldl].
  { exists (sc_cache st). split; [done|]. cbn. rewrite !app_nil_r. by destruct st. }
  destruct (scan_entry_spec root st e Hc) as (c1 & H1 & ->).
  cbn [omap list_omap]. destruct (reference_site root e) as [[s w]|]; match goal with |- context [foldl _ ?st _] => destruct (IH st) as (c2 & H2 & ->) end; try exact H1;
    exists c2; (split; [done|]); cbn [sc_parked sc_watch sc_cache]; csimpl; [|done].
  rewrite <- !app_assoc. f_equal. f_equal. by destruct w.
Qed.

Lemma scan_roots_spec roots st :
  coherent (sc_cache st) ->
  exists st', coherent (sc_cache st') /\
    match reference_sites roots with
    | Ok l => scan_roots fs cfg default_php roots st = (Ok tt, st') /\
        sc_parked st' = sc_parked st ++ l.*1 /\ sc_watch st' = sc_watch st ++ omap snd l
    | Err e => scan_roots fs cfg default_php roots st = (Err e, st')
    end.
Proof using Hs.
  revert st. induction roots as [|root roots IH]; intros st Hc; cbn [reference_sites scan_roots].
  { exists st. split; [done|]. cbn. by rewrite !app_nil_r. }
  destruct (fs_read_dir fs root) as [entries|k]; [|destruct k as [|k]; [by apply IH|by exists st]].
  destruct (scan_entries_spec root entries st Hc) as (c1 & H1 & ->). cbn [sc_cache] in *.
  destruct (IH (mkScan (sc_parked st ++ (omap (reference_site root) entries).*1)
    (sc_watch st ++ omap snd (omap (reference_site root) entries)) c1)) as (st' & H2 & Hr); [done|].
  exists st'. split; [exact H2|]. cbn zeta.
  destruct (reference_sites roots) as [l|e]; cbn [mbind result_bind]; [|done].
  destruct Hr as (-> & H3 & H4). split; [done|]. rewrite H3, H4. cbn [sc_parked sc_watch].
  rewrite fmap_app, omap_app, !app_assoc. done.
Qed.

End Reference.

(** C39. Scanning is the reference, cache or no cache: when the freshness stamp
    of a project determines its signals, a scan from any coherent cache finds,
    folder by folder in path order, exactly the sites of the reference before
    the linked ones, watches exactly the folders whose detection is
    unresolved, fails exactly when a parked folder cannot be read for another
    reason than being gone, and leaves a coherent cache. *)
Theorem scan_reference `{Json J} fs cfg default_php look cache
    (Hs : stamped fs look) (Hc : coherent look cache) :
  exists cache', coherent look cache' /\
    scan_sites fs cfg default_php cache =
    (l ← reference_sites fs cfg default_php (parked_paths cfg); Ok (l.*1 ++ cf_linked cfg, omap snd l), cache').
Proof.
  unfold scan_sites. destruct (scan_roots_spec fs cfg default_php look Hs (parked_paths cfg) (mkScan [] [] cache))
    as (st' & H1 & H2); [done|].
  exists (sc_cache st'). split; [done|].
  destruct (reference_sites _ _ _ _) as [l|e]; cbn [mbind result_bind].
  - destruct H2 as (-> & -> & ->). done.
  - by rewrite H2.
Qed.

(** A file system with one parked folder, for the witnesses. *)
#[export] Instance demo_json : Json unit :=
  { json_from_slice := fun _ => None; json_object_keys := fun _ _ => None }.
Definition demo_fs (index : bool) : Fs :=
  mkFs (fun p => Ok p) (fun _ => true) (fun _ => index) (fun _ => false)
    (fun p => if str_eqb p "/srv"%str
              then Ok [mkEntry (Some "My Blog"%str) (Some true); mkEntry (Some ".git"%str) (Some true);
                       mkEntry (Some "notes.txt"%str) (Some false); mkEntry None (Some true)]
              else Err IoNotFound)
    (fun _ => None) (fun _ => None) (fun _ => Some 7).
Definition demo_parked_root : Config := put_parked {["/srv"%str; "/gone"%str]} Config_default.

Lemma demo_stamped index : stamped (demo_fs index) (fun _ _ => gather_project_signals (demo_fs index) []).
Proof. intros root s _. reflexivity. Qed.

Lemma scan_reference_witness :
  let look := (fun (_ : list component) (_ : N) => gather_project_signals (demo_fs true) []) in
  (l ← reference_sites (demo_fs true) demo_parked_root (mkPhp 8 3) (parked_paths demo_parked_root); Ok (l.*1))
    = Ok [mkSite "my-blog"%str "/srv/My Blog"%str "public"%str (mkPhp 8 3) false Parked false None None] /\
  exists cache', coherent look cache' /\
    scan_sites (demo_fs true) demo_parked_root (mkPhp 8 3) ∅ =
    (l ← reference_sites (demo_fs true) demo_parked_root (mkPhp 8 3) (parked_paths demo_parked_root);
     Ok (l.*1 ++ cf_linked demo_parked_root, omap snd l), cache').
Proof.
  split; [by vm_compute|]. apply scan_reference; [exact (demo_stamped true)|].
  intros k s det Hk. by rewrite lookup_empty in Hk.
Defined.

(** The stamp is the newer modification time of the project folder and of its
    [composer.json]; a file that appears in a sub-folder changes neither.  So
    once a project without an index has been looked at, creating
    [public/index.php] in the [public] it already had goes unnoticed: the
    cached detection stays unresolved while a fresh one finds [public]. *)
Lemma stale_detection :
  let before := demo_fs false in let after := demo_fs true in
  freshness_stamp before "/srv/blog"%str = freshness_stamp after "/srv/blog"%str /\
  let cache := (cache_detect before ∅ "/srv/blog"%str).2 in
  (cache_detect after cache "/srv/blog"%str).1 = Detection_unresolved /\
  detect (gather_project_signals after "/srv/blog"%str) = Detection_sub "public"%str.
Proof. by vm_compute. Qed.

(** ** The router of a scan *)

Section Routed.
Context `{Json J} (fs : Fs) (cfg : Config).

Lemma apply_override_keeps ov s :
  site_name (apply_override ov s) = site_name s /\ site_kind (apply_override ov s) = site_kind s /\
  site_document_root (apply_override ov s) = site_document_root s.
Proof using. unfold apply_override. by repeat case_match. Qed.

(** A site a scan can find. *)
Definition scanned (s : Site) : Prop :=
  site_kind s = Parked /\ site_name s ∉ linked_names cfg /\ dns_label (site_name s) = true /\
  exists root f, root ∈ cf_parked cfg /\ site_document_root s = path_join root f.

Lemma build_parked_scanned name root f php st s st' :
  root ∈ cf_parked cfg -> dns_label name = true -> name ∉ linked_names cfg ->
  build_parked_site fs name (path_join root f) php cfg st = (Some s, st') ->
  scanned s /\ sc_parked st' = sc_parked st.
Proof using.
  intros Hr Hn Hl. unfold build_parked_site, Site_parked, site_with_kind. rewrite validate_name_stable by done.
  cbn [mbind result_bind]. set (base := {| site_name := name |}).
  set (ov := cf_overrides cfg !! _).
  set (site := match ov with Some ov => apply_override ov base | None => base end).
  assert (forall w, scanned (set_web_subpath w site)) as Hs.
  { intros w. unfold scanned. cbn [site_kind site_name site_document_root set_web_subpath].
    assert (site_name site = name /\ site_kind site = Parked /\ site_document_root site = path_join root f)
      as (-> & -> & ->) by (unfold site; destruct ov as [o|]; [apply (apply_override_keeps o base)|done]). eauto 10. }
  destruct (ov ≫= ov_web_root) as [rel|]; [by intros [= <- <-]|].
  destruct (cache_detect _ _ _) as [det cache]. by intros [= <- <-].
Qed.

Lemma scan_entry_scanned php root st e :
  root ∈ cf_parked cfg -> Forall scanned (sc_parked st) -> Forall scanned (sc_parked (scan_entry fs cfg php root st e)).
Proof using.
  intros Hr Hf. unfold scan_entry. destruct (parked_site_name _ e) as [n|] eqn:En; [|done].
  apply parked_name_label in En as [Hn Hl].
  destruct (build_parked_site _ _ _ _ _ _) as [[s|] st'] eqn:Eb.
  - apply build_parked_scanned in Eb as [Hs ->]; [|done..]. apply Forall_app. split; [done|]. by constructor.
  - revert Eb. unfold build_parked_site, Site_parked, site_with_kind. rewrite validate_name_stable by done.
    cbn [mbind result_bind]. destruct (_ ≫= ov_web_root); [done|]. by destruct (cache_detect _ _ _).
Qed.

Lemma scan_roots_scanned php roots st :
  (forall root, root ∈ roots -> root ∈ cf_parked cfg) -> Forall scanned (sc_parked st) ->
  Forall scanned (sc_parked (scan_roots fs cfg php roots st).2).
Proof using.
  revert st. induction roots as [|root roots IH]; intros st Hr Hf; cbn [scan_roots]; [done|].
  destruct (fs_read_dir fs root) as [entries|[|]]; [..|done]; (apply IH; [set_solver|]); [|done].
  assert (root ∈ cf_parked cfg) as Hr' by (apply Hr; by left). clear IH Hr.
  revert st Hf. induction entries as [|e entries IH]; intros st Hf; cbn [foldl]; [done|].
  apply IH. by apply scan_entry_scanned.
Qed.

Lemma scan_sites_split php cache sites watch cache' :
  scan_sites fs cfg php cache = (Ok (sites, watch), cache') ->
  exists parked, sites = parked ++ cf_linked cfg /\ Forall scanned parked.
Proof using.
  unfold scan_sites. pose proof (scan_roots_scanned php (parked_paths cfg) (mkScan [] [] cache)) as Hs.
  destruct (scan_roots _ _ _ _ _) as [[[]|e] st]; [|done]. intros [= <- _ _]. exists (sc_parked st).
  split; [done|]. apply Hs; [|done]. intros root. unfold parked_paths. rewrite merge_sort_Permutation.
  by rewrite elem_of_elements.
Qed.

(** The router built from a scan belongs to the configuration. *)
Lemma built_matches parked :
  valid_config cfg -> Forall scanned parked ->
  router_matches cfg (build cfg (parked ++ cf_linked cfg)).
Proof using.
  intros V Hp. rewrite Forall_forall in Hp. set (sites := parked ++ cf_linked cfg).
  destruct (plan_sites_elem cfg sites) as [H1 H2].
  assert (forall n s, get (build cfg sites) n = Some s -> site_name s = n /\ (scanned s \/ s ∈ cf_linked cfg)) as Hg.
  { intros n s (p & Hin & <- & <-)%build_get. split; [done|]. apply H1 in Hin.
    apply elem_of_app in Hin as [Hin|Hin]; auto. }
  constructor.
  - intros n s [<- [(Hk & _)|Hin]]%Hg Hl; [congruence|]. apply elem_of_linked_names. eauto.
  - intros n s [<- [(_ & _ & _ & root & f & Hr & ->)|Hin]]%Hg Hk; [|exfalso; apply Hk, elem_of_linked_names; eauto].
    unfold path_join. destruct (is_absolute f) eqn:Ea; [by intros ->|].
    assert (root <> []) as Hne by (intros ->; by apply (vc_parked cfg V)).
    destruct root; [done|]. by destruct (_ || _).
  - intros n (s & Hin & <-)%elem_of_linked_names.
    destruct (H2 s) as (p & Hp' & Hn); [unfold sites; set_solver|].
    exists (sp_site p). apply build_get. eauto.
Qed.

End Routed.
