(* ===== verification/Daemon.v ===== *)
(** * The daemon's state and the requests that change it

    [src/bin/orckerd/src/ipc_server.rs] (the handlers that change the
    configuration, the router or the remote-setup code, and the commit sequence
    they share), [state.rs], the router refresh of [fs_watch.rs], the start-up
    of [startup.rs], [set_update_channel] of [self_update.rs] and the
    configuration changes of [tunnel/named.rs].

    Every handler holds the configuration mutex from its first read of the
    configuration to its last write, so a handler is one step; what the system
    answers during it is its environment [Env]. *)

From S2P Require Import Prelude RustStr RustMap RustPath CoreError DnsLabel Tld Domain Php Net Site Proxy Router Project Settings Config SiteDomains Descriptor Ipc Mutate Link Scan.

Open Scope N_scope.

(** ** State and environment *)

Record RemoteSetupCode := mkCode { code_value : str; code_expires_at : N; code_used : bool }.

Record PortStatus := mkPortStatus { ps_requested : N; ps_bound : N; ps_fell_back : bool }.

Record DaemonState := mkState {
  ds_config : Config;
  ds_disk : option Config;          (* what the configuration file holds *)
  ds_descriptors : smap;            (* descriptor files the daemon wrote *)
  ds_router : SiteRouter;
  ds_wordpress : gmap str bool;
  ds_laravel : gmap str bool;
  ds_detect_cache : DetectCache;
  ds_http : PortStatus;
  ds_https : PortStatus;
  ds_symlink_protection : bool;
  ds_lan_ip : option Ipv4Addr;
  ds_lan_setup_bound : bool;
  ds_remote_setup_code : option RemoteSetupCode;
  ds_script_sha256 : option str;
}.

Record Env := mkEnv {
  env_fs : Fs;
  env_save : result ConfigError unit;        (* the outcome of a configuration save *)
  env_write : result io_kind unit;           (* the outcome of writing a descriptor *)
  env_port_free : N -> bool;                 (* the TCP port probe *)
  env_redirect_active : option bool;         (* the privileged-port redirect *)
  env_random : list N;                       (* sixteen random bytes *)
  env_now : N;                               (* seconds on the monotonic clock *)
}.

#[export] Instance env_probe : PortProbe (N -> bool) := fun p port => p port.

(** ** Replies *)

Inductive RespMessage :=
| RmMutate (m : Message)
| RmValidation (e : ConfigError)
| RmRebuild (e : DaemonError)
| RmSave (e : ConfigError)
| RmCannotResolve (path : str)
| RmNotDirectory (path : str)
| RmServedNotDirectory (path : str)
| RmOutsideSite (root : str)
| RmRoutingLoop
| RmCore (e : CoreError)
| RmLink (e : LinkError)
| RmDescriptor (path : str) (e : ConfigError)
| RmDescriptorWrite (path : str)
| RmWrongRequest
| RmElevated
| RmDnsPortZero
| RmLanOff
| RmListenerNotBound
| RmLanIpUnknown
| RmHashNotReady
| RmNoSite (name : str)
| RmInvalidHostname (e : ConfigError).

Record ProjectEntry := mkProjectEntry {
  pe_name : str; pe_root : str; pe_port : N; pe_secure : bool; pe_primary_domain : option str;
  pe_schema_version : option N; pe_php : option PhpVersion; pe_db : option str; pe_preset : option str }.

Inductive Response :=
| RespOk
| RespError (code : ErrorCode) (message : RespMessage)
| RespProject (project : ProjectEntry) (created wrote_descriptor : bool)
| RespRemoteSetup (code url script_sha256 : str) (expires_in_secs : N).

Definition is_error (r : Response) : bool := match r with RespError _ _ => true | _ => false end.
Definition internal (m : RespMessage) : Response := RespError ErrInternal m.
Definition invalid_path (m : RespMessage) : Response := RespError ErrInvalidPath m.
Definition lan_not_ready (m : RespMessage) : Response := RespError ErrLanNotReady m.
Definition mutate_message (e : MutateError) : Message :=
  match e with NotFound m | AlreadyExists m | Invalid m => m end.

(** ** Field setters of the state *)

Definition set_config (c : Config) (s : DaemonState) : DaemonState :=
  mkState c (ds_disk s) (ds_descriptors s) (ds_router s) (ds_wordpress s) (ds_laravel s) (ds_detect_cache s)
    (ds_http s) (ds_https s) (ds_symlink_protection s) (ds_lan_ip s) (ds_lan_setup_bound s)
    (ds_remote_setup_code s) (ds_script_sha256 s).
Definition set_disk (d : option Config) (s : DaemonState) : DaemonState :=
  mkState (ds_config s) d (ds_descriptors s) (ds_router s) (ds_wordpress s) (ds_laravel s) (ds_detect_cache s)
    (ds_http s) (ds_https s) (ds_symlink_protection s) (ds_lan_ip s) (ds_lan_setup_bound s)
    (ds_remote_setup_code s) (ds_script_sha256 s).
Definition set_descriptors (d : smap) (s : DaemonState) : DaemonState :=
  mkState (ds_config s) (ds_disk s) d (ds_router s) (ds_wordpress s) (ds_laravel s) (ds_detect_cache s)
    (ds_http s) (ds_https s) (ds_symlink_protection s) (ds_lan_ip s) (ds_lan_setup_bound s)
    (ds_remote_setup_code s) (ds_script_sha256 s).
Definition set_routing (rt : Routing) (s : DaemonState) : DaemonState :=
  mkState (ds_config s) (ds_disk s) (ds_descriptors s) (rt_router rt) (rt_wordpress rt) (rt_laravel rt)
    (ds_detect_cache s) (ds_http s) (ds_https s) (ds_symlink_protection s) (ds_lan_ip s) (ds_lan_setup_bound s)
    (ds_remote_setup_code s) (ds_script_sha256 s).
Definition set_detect_cache (c : DetectCache) (s : DaemonState) : DaemonState :=
  mkState (ds_config s) (ds_disk s) (ds_descriptors s) (ds_router s) (ds_wordpress s) (ds_laravel s) c
    (ds_http s) (ds_https s) (ds_symlink_protection s) (ds_lan_ip s) (ds_lan_setup_bound s)
    (ds_remote_setup_code s) (ds_script_sha256 s).
Definition set_live_symlink (b : bool) (s : DaemonState) : DaemonState :=
  mkState (ds_config s) (ds_disk s) (ds_descriptors s) (ds_router s) (ds_wordpress s) (ds_laravel s)
    (ds_detect_cache s) (ds_http s) (ds_https s) b (ds_lan_ip s) (ds_lan_setup_bound s)
    (ds_remote_setup_code s) (ds_script_sha256 s).
Definition set_setup (bound : bool) (code : option RemoteSetupCode) (sha : option str) (s : DaemonState) : DaemonState :=
  mkState (ds_config s) (ds_disk s) (ds_descriptors s) (ds_router s) (ds_wordpress s) (ds_laravel s)
    (ds_detect_cache s) (ds_http s) (ds_https s) (ds_symlink_protection s) (ds_lan_ip s) bound code sha.
Definition set_code (code : option RemoteSetupCode) (s : DaemonState) : DaemonState :=
  set_setup (ds_lan_setup_bound s) code (ds_script_sha256 s) s.

(** ** Paths *)

(** [Path::strip_prefix] of canonical paths, whose components are separated by
    one slash each. *)
Definition component_str (c : component) : str :=
  match c with RootDir => [] | CurDir => "."%str | ParentDir => ".."%str | Normal s => s end.
Definition path_strip_prefix (p base : str) : option str :=
  if list_prefixb (components base) (components p)
  then Some (join_char slash (component_str <$> drop (length (components base)) (components p))) else None.

Section Handlers.
Context `{Json J}.

Definition canonicalize_dir (fs : Fs) (path : str) : result Response str :=
  match fs_canonicalize fs path with
  | Ok p => if fs_is_dir fs p then Ok p else Err (invalid_path (RmNotDirectory p))
  | Err _ => Err (invalid_path (RmCannotResolve path))
  end.

Definition resolve_web_root_within (fs : Fs) (doc_root input : str) : result Response str :=
  let candidate := if is_absolute input then input else path_join doc_root input in
  canon_candidate ← map_err (fun _ => invalid_path (RmCannotResolve candidate)) (fs_canonicalize fs candidate);
  if negb (fs_is_dir fs canon_candidate) then Err (invalid_path (RmServedNotDirectory canon_candidate))
  else
    canon_root ← map_err (fun _ => invalid_path (RmCannotResolve doc_root)) (fs_canonicalize fs doc_root);
    ok_or (invalid_path (RmOutsideSite canon_root)) (path_strip_prefix canon_candidate canon_root).

Definition ov_set_web_root (w : option str) (o : SiteOverride) : SiteOverride :=
  mkOverride (ov_php o) (ov_secure o) w (ov_wp_auto_login o) (ov_wp_auto_login_user o) (ov_front_controller o).

(** Which sites a name in lower case is. *)
Definition named (name_lc : str) (s : Site) : bool := str_eqb (site_name s) name_lc.

Definition resolve_web_root_mutation (fs : Fs) (new : Config) (router : SiteRouter) (name : str) (path : option str)
  : result Response Config :=
  let name_lc := to_ascii_lowercase name in
  match find_first (named name_lc) (cf_linked new) with
  | Some site =>
      let doc_root := site_document_root site in
      rel ← match path with
            | Some p => resolve_web_root_within fs doc_root p
            | None => Ok (detect_web_subpath fs doc_root)
            end;
      Ok (put_linked (update_first (named name_lc) (set_web_subpath rel) (cf_linked new)) new)
  | None =>
      match get router name_lc with
      | Some parked =>
          let key := site_document_root parked in
          match path with
          | Some p =>
              rel ← resolve_web_root_within fs (site_document_root parked) p;
              Ok (override_mut key (ov_set_web_root (Some rel)) new)
          | None =>
              match cf_overrides new !! key with
              | None => Ok new
              | Some ov =>
                  let ov := ov_set_web_root None ov in
                  match ov_php ov, ov_secure ov with
                  | None, None => Ok (put_overrides (delete key (cf_overrides new)) new)
                  | _, _ => Ok (put_overrides (<[key := ov]> (cf_overrides new)) new)
                  end
              end
          end
      | None => Err (RespError ErrNotFound (RmMutate (mutate_message (not_found_site new name_lc))))
      end
  end.

(** ** Committing *)

(** Validate, rebuild the router, save, swap. *)
Definition commit_config (env : Env) (new : Config) (s : DaemonState) : option Response * DaemonState :=
  match validate new with
  | Err e => (Some (internal (RmValidation e)), s)
  | Ok _ =>
      let '(candidate, cache) := build_routing (env_fs env) new (ds_detect_cache s) in
      let s := set_detect_cache cache s in
      match candidate with
      | Err (DaemonCore (DuplicateSite name)) =>
          (Some (RespError ErrAlreadyExists (RmRebuild (DaemonCore (DuplicateSite name)))), s)
      | Err e => (Some (internal (RmRebuild e)), s)
      | Ok rt =>
          match env_save env with
          | Err e => (Some (internal (RmSave e)), s)
          | Ok _ => (None, set_routing rt (set_config new (set_disk (Some new) s)))
          end
      end
  end.

(** The lighter sequence without a router rebuild; some setters do not validate. *)
Definition save_config (env : Env) (check : bool) (refuse : ConfigError -> Response) (new : Config) (s : DaemonState)
  : option Response * DaemonState :=
  match (if check then validate new else Ok tt) with
  | Err e => (Some (refuse e), s)
  | Ok _ =>
      match env_save env with
      | Err e => (Some (internal (RmSave e)), s)
      | Ok _ => (None, set_config new (set_disk (Some new) s))
      end
  end.

Definition ok_reply (r : option Response * DaemonState) : Response * DaemonState :=
  match r with (Some failure, s) => (failure, s) | (None, s) => (RespOk, s) end.

(** ** Mutations *)

Definition handle_mutation (env : Env) (req : Request) (s : DaemonState) : Response * DaemonState :=
  let fs := env_fs env in
  let canonical := match req with
                   | Park path | Link _ path => p ← canonicalize_dir fs path; Ok (Some p)
                   | _ => Ok None
                   end in
  match canonical with
  | Err resp => (resp, s)
  | Ok canonical =>
      let link_web_subpath := match req with Link _ _ => detect_web_subpath fs <$> canonical | _ => None end in
      let new := ds_config s in
      let live_default := php_default (cf_php new) in
      let applied :=
        match req with
        | SetWebRoot name path => resolve_web_root_mutation fs new (ds_router s) name path
        | _ => match apply (ds_router s) req canonical live_default new with
               | (Ok _, new) => Ok new
               | (Err e, _) => Err (RespError (error_code e) (RmMutate (mutate_message e)))
               end
        end in
      match applied with
      | Err resp => (resp, s)
      | Ok new =>
          let new := match req, link_web_subpath with
                     | Link name _, Some sub =>
                         put_linked (update_first (named (to_ascii_lowercase name)) (set_web_subpath sub) (cf_linked new)) new
                     | _, _ => new
                     end in
          ok_reply (commit_config env new s)
      end
  end.

Definition handle_group_mutation (env : Env) (req : Request) (s : DaemonState) : Response * DaemonState :=
  match apply (ds_router s) req None (php_default (cf_php (ds_config s))) (ds_config s) with
  | (Err e, _) => (RespError (error_code e) (RmMutate (mutate_message e)), s)
  | (Ok _, new) => ok_reply (save_config env true (fun e => internal (RmValidation e)) new s)
  end.

(** ** Loops onto the daemon's own listeners *)

Definition is_loopback (ip : IpAddr) : bool :=
  match ip with V4 a => v4_is_loopback a | V6 a => v6_is_loopback a end.

Definition targets_bound_listener (target : UpstreamTarget) (bound_ports : list N) : bool :=
  let loopback := str_eqb (target_host target) "localhost"
                  || match parse_ip (target_host target) with Some ip => is_loopback ip | None => false end in
  loopback && existsb (N.eqb (target_port target)) bound_ports.

Definition is_self_forward (url : str) (bound_ports : list N) : bool :=
  match from_url_str url with Ok target => targets_bound_listener target bound_ports | Err _ => false end.

Definition self_forward_refusal : Response := invalid_path RmRoutingLoop.

Definition project_loop_refusal (project : ContainerProject) (bound_ports : list N) : option Response :=
  match proxy_site project with
  | Ok proxy => if targets_bound_listener (proxy_target proxy) bound_ports then Some self_forward_refusal else None
  | Err e => Some (invalid_path (RmCore e))
  end.

Definition bound_ports (s : DaemonState) : list N := [ps_bound (ds_http s); ps_bound (ds_https s)].

(** ** Linking a project *)

Definition site_entry_domains (router : SiteRouter) (name tld : str) : option str * list str :=
  let apex := Domain_apex name in
  let effective := default [] (router_effective_domains router name) in
  let primary := primary_domain router name in
  if bool_decide (effective = [apex]) && bool_decide (primary = Some apex) then (None, [])
  else (match primary with
        | Some p => if bool_decide (p = apex) then None else Some (to_fqdn p tld)
        | None => None
        end, (fun d => to_fqdn d tld) <$> effective).

Definition project_domain (router : SiteRouter) (name tld : str) : str :=
  default (name ++ "."%str ++ tld) (site_entry_domains router name tld).1.

Definition project_entry (project : ContainerProject) (yml : option OrckerYml) (domain : str) : ProjectEntry :=
  mkProjectEntry (project_name project) (project_root project) (project_port project) (project_secure project)
    (Some domain) (schema_version <$> yml) (yml_php <$> yml) (yml_db <$> yml) (yml_preset <$> yml).

Definition link_error_code (e : LinkError) : ErrorCode :=
  match e with
  | NameTaken _ => ErrAlreadyExists
  | PortTaken _ _ => ErrPortReserved
  | LinkCore (PortRangeExhausted _ _) => ErrPortRangeExhausted
  | PortOutOfRange _ _ _ | NoName _ | LinkConfig _ | LinkCore _ => ErrInvalidPath
  end.

Definition handle_link_project (env : Env) (req : Request) (s : DaemonState) : Response * DaemonState :=
  match req with
  | LinkProject path name port =>
      let fs := env_fs env in
      match canonicalize_dir fs path with
      | Err resp => (resp, s)
      | Ok root =>
          let descriptor_path := path_join root FILE_NAME in
          let existing := match fs_read_to_string fs descriptor_path with
                          | Some raw => match parse raw with
                                        | Ok yml => Ok (Some yml)
                                        | Err e => Err (invalid_path (RmDescriptor descriptor_path e))
                                        end
                          | None => Ok None
                          end in
          match existing with
          | Err resp => (resp, s)
          | Ok existing =>
              let new := ds_config s in
              let tld := Tld_str (cf_tld new) in
              match plan_link new root name port existing (env_port_free env) with
              | Err e => (RespError (link_error_code e) (RmLink e), s)
              | Ok (AlreadyLinked project) =>
                  (RespProject (project_entry project existing (project_domain (ds_router s) (project_name project) tld))
                     false false, s)
              | Ok (PlanLink project write_yml) =>
                  match project_loop_refusal project (bound_ports s) with
                  | Some refusal => (refusal, s)
                  | None =>
                      let commit descriptor wrote_descriptor s :=
                        match commit_config env (put_projects (cf_projects new ++ [project]) new) s with
                        | (Some failure, s) => (failure, s)
                        | (None, s) =>
                            (RespProject (project_entry project descriptor
                               (project_domain (ds_router s) (project_name project) tld)) true wrote_descriptor, s)
                        end in
                      match write_yml with
                      | Some yml =>
                          match env_write env with
                          | Err _ => (internal (RmDescriptorWrite descriptor_path), s)
                          | Ok _ => commit (Some yml) true
                              (set_descriptors (<[descriptor_path := render yml]> (ds_descriptors s)) s)
                          end
                      | None => commit existing false s
                      end
                  end
              end
          end
      end
  | _ => (internal RmWrongRequest, s)
  end.

(** ** Settings *)

Definition port_setter (env : Env) (new : Config) (s : DaemonState) : Response * DaemonState :=
  ok_reply (save_config env true (fun e => internal (RmValidation e)) new s).
Definition flag_setter (env : Env) (new : Config) (s : DaemonState) : Response * DaemonState :=
  ok_reply (save_config env false (fun e => internal (RmValidation e)) new s).

Definition set_mail_port (env : Env) (port : N) (s : DaemonState) : Response * DaemonState :=
  let c := ds_config s in port_setter env (put_mail (mkMail (mail_enabled (cf_mail c)) port) c) s.

Definition set_fallback_ports (env : Env) (http_ https_ : N) (s : DaemonState) : Response * DaemonState :=
  if bool_decide (env_redirect_active env = Some true) then (internal RmElevated, s)
  else
    let c := ds_config s in
    port_setter env (put_ports (mkPorts (http (cf_ports c)) (https (cf_ports c)) http_ https_) c) s.

Definition set_dns_port (env : Env) (port : N) (s : DaemonState) : Response * DaemonState :=
  if port =? 0 then (internal RmDnsPortZero, s) else port_setter env (put_dns_port port (ds_config s)) s.

Definition set_mail_enabled (env : Env) (enabled : bool) (s : DaemonState) : Response * DaemonState :=
  let c := ds_config s in flag_setter env (put_mail (mkMail enabled (mail_port (cf_mail c))) c) s.

Definition set_symlink_protection (env : Env) (enabled : bool) (s : DaemonState) : Response * DaemonState :=
  match flag_setter env (put_symlink_protection enabled (ds_config s)) s with
  | (RespOk, s) => (RespOk, set_live_symlink enabled s)
  | r => r
  end.

Definition set_mcp_enabled (env : Env) (enabled : bool) (s : DaemonState) : Response * DaemonState :=
  flag_setter env (put_mcp_enabled enabled (ds_config s)) s.

(** Its two halves: the flag's save, then the revocation of a pending code,
    both under the configuration mutex. *)
Definition save_lan_enabled (env : Env) (enabled : bool) (s : DaemonState) : Response * DaemonState :=
  flag_setter env (put_lan_enabled enabled (ds_config s)) s.

Definition revoke_code (enabled : bool) (s : DaemonState) : DaemonState :=
  if negb enabled then set_code None s else s.

Definition set_lan_enabled (env : Env) (enabled : bool) (s : DaemonState) : Response * DaemonState :=
  match save_lan_enabled env enabled s with
  | (RespOk, s) => (RespOk, revoke_code enabled s)
  | r => r
  end.

Definition channel_str (c : Channel) : str := match c with Edge => "edge"%str | Stable => "stable"%str end.
Definition set_update_channel (env : Env) (channel : Channel) (s : DaemonState) : Response * DaemonState :=
  port_setter env (put_update_channel (channel_str channel) (ds_config s)) s.

(** ** The remote-setup code *)

Definition REMOTE_SETUP_CODE_TTL : N := 900.

(** [hex::encode] *)
Definition hex_encode (b : list N) : str := mjoin ((fun x => [hex_char (x / 16); hex_char (x mod 16)]) <$> b).

(** What the reply and the code need, once LAN mode is known to be up. *)
Definition check_mint (s : DaemonState) : result Response (N * Ipv4Addr * str) :=
  if negb (cf_lan_enabled (ds_config s)) then Err (lan_not_ready RmLanOff)
  else
    let lan_setup_port := cf_lan_setup_port (ds_config s) in
    if negb (ds_lan_setup_bound s) then Err (lan_not_ready RmListenerNotBound)
    else match ds_lan_ip s with
    | None => Err (lan_not_ready RmLanIpUnknown)
    | Some lan_ip =>
        match ds_script_sha256 s with
        | None => Err (lan_not_ready RmHashNotReady)
        | Some script_sha256 => Ok (lan_setup_port, lan_ip, script_sha256)
        end
    end.

Definition publish_code (code : str) (now : N) (s : DaemonState) : DaemonState :=
  set_code (Some (mkCode code (now + REMOTE_SETUP_CODE_TTL) false)) s.

Definition mint_remote_setup_code (env : Env) (s : DaemonState) : Response * DaemonState :=
  match check_mint s with
  | Err resp => (resp, s)
  | Ok (lan_setup_port, lan_ip, script_sha256) =>
      let code := hex_encode (env_random env) in
      let s := publish_code code (env_now env) s in
      (RespRemoteSetup code
         ("http://"%str ++ Ipv4Addr_fmt lan_ip ++ ":"%str ++ show_uint lan_setup_port
            ++ "/remote-setup?code="%str ++ code) script_sha256 REMOTE_SETUP_CODE_TTL, s)
  end.

(** ** Tunnels *)

(** The site a tunnel request names, when its primary domain really reaches it. *)
Definition resolve_site (router : SiteRouter) (site : str) : option (str * bool * str * str) :=
  s ← match resolve router site with Some s => Some s | None => get router site end;
  let host := primary_fqdn router (site_name s) in
  if bool_decide (site_name <$> resolve router host = Some (site_name s))
  then Some (site_name s, site_secure s, Tld_str (cfg_tld (r_config router)), host) else None.

Definition set_site_hostname (env : Env) (site : str) (hostname : option str) (s : DaemonState) : Response * DaemonState :=
  if bool_decide (is_Some hostname) && negb (bool_decide (is_Some (resolve_site (ds_router s) site)))
  then (RespError ErrNotFound (RmNoSite site), s)
  else
    let c := ds_config s in
    let sites := match hostname with
                 | Some h => <[site := h]> (tunnel_sites (cf_tunnel c))
                 | None => delete site (tunnel_sites (cf_tunnel c))
                 end in
    ok_reply (save_config env true (fun e => invalid_path (RmInvalidHostname e))
      (put_tunnel (mkTunnel (tunnel_named (cf_tunnel c)) sites) c) s).

(** What [create] records once cloudflared has made the tunnel. *)
Definition record_named_tunnel (env : Env) (name uuid : str) (s : DaemonState) : Response * DaemonState :=
  let c := ds_config s in
  port_setter env (put_tunnel (mkTunnel (<[name := uuid]> (tunnel_named (cf_tunnel c))) (tunnel_sites (cf_tunnel c))) c) s.

(** What [delete] records once cloudflared has deleted the tunnel. *)
Definition forget_named_tunnel (env : Env) (name : str) (s : DaemonState) : Response * DaemonState :=
  let c := ds_config s in
  port_setter env (put_tunnel (mkTunnel (delete name (tunnel_named (cf_tunnel c))) ∅) c) s.

(** ** Dispatch

    The requests that change this state; the others only read it, or change
    parts of the daemon that are not modelled. *)
Definition dispatch (env : Env) (req : Request) (s : DaemonState) : option (Response * DaemonState) :=
  match req with
  | Park _ | Link _ _ | Unlink _ | Unpark _ | ReqSetSecure _ _ | SetWebRoot _ _ | ReqSetFrontController _ _
  | AddDomain _ _ | RemoveDomain _ _ | SetPrimaryDomain _ _ | ResetDomains _ | RemoveProxy _
  | RemoveProxyRule _ _ | AddRouteRule _ _ _ | RemoveRouteRule _ _ => Some (handle_mutation env req s)
  | AddProxy _ url | AddProxyRule _ _ url =>
      Some (if is_self_forward url (bound_ports s) then (self_forward_refusal, s) else handle_mutation env req s)
  | LinkProject _ _ _ => Some (handle_link_project env req s)
  | CreateGroup _ | DeleteGroup _ | SetGroupOrder _ | SetSiteGroup _ _ | RenameGroup _ _ =>
      Some (handle_group_mutation env req s)
  | SetMailPort port => Some (set_mail_port env port s)
  | SetFallbackPorts http_ https_ => Some (set_fallback_ports env http_ https_ s)
  | SetDnsPort port => Some (set_dns_port env port s)
  | SetMailEnabled enabled => Some (set_mail_enabled env enabled s)
  | SetSymlinkProtection enabled => Some (set_symlink_protection env enabled s)
  | SetMcpEnabled enabled => Some (set_mcp_enabled env enabled s)
  | SetLanEnabled enabled => Some (set_lan_enabled env enabled s)
  | MintRemoteSetupCode => Some (mint_remote_setup_code env s)
  | SetUpdateChannel channel => Some (set_update_channel env channel s)
  | SetSiteTunnel site hostname => Some (set_site_hostname env site hostname s)
  | _ => None
  end.

(** ** The watcher and the start *)

(** The watcher's refresh of the router from the current configuration; what it
    then wants to watch. *)
Definition recompute (env : Env) (s : DaemonState) : option (gset str) * DaemonState :=
  let '(r, cache) := build_routing (env_fs env) (ds_config s) (ds_detect_cache s) in
  let s := set_detect_cache cache s in
  match r with
  | Err _ => (None, s)
  | Ok rt => (Some (list_to_set (rt_watch_roots rt) ∪ cf_parked (ds_config s)), set_routing rt s)
  end.

(** The state after start-up: the ports really bound and the LAN address come
    from the system. *)
Definition bring_up (fs : Fs) (load : result ConfigError Config) (bound_http bound_https : N) (lan_ip : option Ipv4Addr)
  : result DaemonError DaemonState :=
  config ← load_or_default_config load;
  rt ← (build_routing fs config ∅).1;
  let status requested bound := mkPortStatus requested bound (negb (bound =? requested)) in
  Ok (mkState config (result_ok load) ∅ (rt_router rt) (rt_wordpress rt) (rt_laravel rt)
        (build_routing fs config ∅).2 (status (http (cf_ports config)) bound_http)
        (status (https (cf_ports config)) bound_https) (cf_symlink_protection config)
        (if cf_lan_enabled config then lan_ip else None) false None None).

End Handlers.
