(* ===== verification/LanSetup.v ===== *)
(** * The remote-setup bootstrap endpoint

    [src/bin/orckerd/src/lan_setup.rs]: routing a request, reading its one-time
    code and redeeming it.  Rendering the installer script and HTTP itself are
    not modelled.

    [setup_step] interleaves redeeming with the two handlers of [ipc_server.rs]
    that mint and revoke codes, at the granularity of their locks: the steps of
    [Daemon.set_lan_enabled] are [save_lan_enabled] and [revoke_code], those of
    [Daemon.mint_remote_setup_code] are [check_mint] and [publish_code], and
    both hold the configuration mutex from the first to the second.  Redeeming
    only ever takes the code's own mutex, so it may come in between.
    [DaemonInv.daemon_step_setup] shows that every step of the daemon is a run
    of these. *)

From S2P Require Import Prelude RustStr RustMap CoreError Net Config Ipc Mutate Scan Daemon.

Open Scope N_scope.

(** ** One request *)

Inductive SetupRoute := SetupScript | SetupNotFound.
Inductive Decision :=
| DecisionScript
| DecisionText (status : N) (msg : str).
#[export] Instance Decision_eq_dec : EqDecision Decision.
Proof using. solve_decision. Defined.

Definition classify (path : str) : SetupRoute :=
  if str_eqb path "/remote-setup" then SetupScript else SetupNotFound.

(** The first non-empty [code=] of the query. *)
Definition extract_code (query : option str) : option str :=
  q ← query;
  find_map (fun pair => match strip_prefix "code=" pair with
                        | Some v => if is_empty v then None else Some v
                        | None => None
                        end) (split_char "&"%ch q).

(** Byte-wise equality; the early return on the length is the source's. *)
Fixpoint ct_compare (a b : list N) : bool :=
  match a, b with
  | [], [] => true
  | x :: a, y :: b => (x =? y) && ct_compare a b
  | _, _ => false
  end.
Definition ct_eq (a b : str) : bool := if negb (vlen a =? vlen b) then false else ct_compare a b.

Definition redeem (now : N) (candidate : str) (code : option RemoteSetupCode) : bool * option RemoteSetupCode :=
  match code with
  | None => (false, None)
  | Some c =>
      if code_used c || (code_expires_at c <=? now) || negb (ct_eq (code_value c) candidate) then (false, Some c)
      else (true, Some (mkCode (code_value c) (code_expires_at c) true))
  end.

Definition consume_code (now : N) (candidate : str) (s : DaemonState) : bool * DaemonState :=
  let '(ok, code) := redeem now candidate (ds_remote_setup_code s) in (ok, set_code code s).

Definition decide_setup (now : N) (is_get : bool) (path : str) (query : option str) (s : DaemonState)
  : Decision * DaemonState :=
  if negb is_get then (DecisionText 405 "GET only"%str, s)
  else match classify path with
  | SetupScript =>
      match extract_code query with
      | None => (DecisionText 403 "missing code"%str, s)
      | Some code =>
          let '(ok, s) := consume_code now code s in
          (if ok then DecisionScript else DecisionText 403 "invalid code"%str, s)
      end
  | SetupNotFound => (DecisionText 404 "not found"%str, s)
  end.

Lemma ct_eq_spec a b : ct_eq a b = true <-> a = b.
Proof using.
  unfold ct_eq. assert (forall a b, ct_compare a b = true <-> a = b) as H.
  { clear a b. induction a as [|x a IH]; intros [|y b]; simpl; try done.
    rewrite andb_true_iff, IH, N.eqb_eq. naive_solver. }
  destruct (vlen a =? vlen b) eqn:E; cbn [negb]; [apply H|]. split; [done|]. intros ->. by rewrite N.eqb_refl in E.
Qed.

Lemma redeem_true now candidate code code' :
  redeem now candidate code = (true, code') ->
  exists c, code = Some c /\ code_used c = false /\ now < code_expires_at c /\ candidate = code_value c /\
    code' = Some (mkCode (code_value c) (code_expires_at c) true).
Proof using.
  unfold redeem. destruct code as [c|]; [|done]. destruct (_ || _) eqn:E; [done|]. intros [= <-].
  rewrite !orb_false_iff, negb_false_iff, ct_eq_spec in E. destruct E as [[E1 E2] E3]. apply N.leb_gt in E2.
  exists c. auto.
Qed.

Lemma redeem_false now candidate code code' : redeem now candidate code = (false, code') -> code' = code.
Proof using. unfold redeem. destruct code as [c|]; [|congruence]. destruct (_ || _); congruence. Qed.

Lemma consume_false now candidate s s' : consume_code now candidate s = (false, s') -> s' = s.
Proof using.
  unfold consume_code. destruct (redeem _ _ _) as [ok code] eqn:E. intros [= -> <-]. apply redeem_false in E as ->.
  by destruct s.
Qed.

(** ** The operations, interleaved *)

Section Interleaving.
Context `{JJ : Json J}.

(** Where the holder of the configuration mutex is. *)
Inductive phase :=
| Switching (enabled : bool)      (* the flag is saved, the code not yet revoked *)
| Minting.                        (* LAN mode was checked, no code stored yet *)

Record Setup := mkSetup { su_state : DaemonState; su_holder : option phase }.

Inductive event :=
| EvSaved (enabled : bool)               (* the flag is saved *)
| EvSwitched (enabled : bool)            (* the switch is complete *)
| EvChecked                              (* a mint found LAN mode up *)
| EvMint (code : str) (now : N)          (* the code is stored *)
| EvRedeem (now : N) (candidate : str)   (* a code was accepted *)
| EvOther.

(** [su_other] is anything else the daemon does: it keeps the flag and the code. *)
Inductive setup_step : Setup -> event -> Setup -> Prop :=
| su_save env enabled s s' :
    save_lan_enabled env enabled s = (RespOk, s') ->
    setup_step (mkSetup s None) (EvSaved enabled) (mkSetup s' (Some (Switching enabled)))
| su_revoke enabled s :
    setup_step (mkSetup s (Some (Switching enabled))) (EvSwitched enabled) (mkSetup (revoke_code enabled s) None)
| su_check s found :
    check_mint s = Ok found ->
    setup_step (mkSetup s None) EvChecked (mkSetup s (Some Minting))
| su_publish code now s :
    setup_step (mkSetup s (Some Minting)) (EvMint code now) (mkSetup (publish_code code now s) None)
| su_consume now candidate s s' h :
    consume_code now candidate s = (true, s') ->
    setup_step (mkSetup s h) (EvRedeem now candidate) (mkSetup s' h)
| su_other s s' h :
    cf_lan_enabled (ds_config s') = cf_lan_enabled (ds_config s) ->
    ds_remote_setup_code s' = ds_remote_setup_code s ->
    setup_step (mkSetup s h) EvOther (mkSetup s' h).

Inductive setup_run (s0 : Setup) : list event -> Setup -> Prop :=
| run_refl : setup_run s0 [] s0
| run_snoc s1 s2 tr ev : setup_run s0 tr s1 -> setup_step s1 ev s2 -> setup_run s0 (tr ++ [ev]) s2.

Lemma run_one s ev s' : setup_step s ev s' -> setup_run s [ev] s'.
Proof using. intros. by apply (run_snoc s s s' []); [apply run_refl|]. Qed.

Lemma run_two s s1 s2 ev1 ev2 : setup_step s ev1 s1 -> setup_step s1 ev2 s2 -> setup_run s [ev1; ev2] s2.
Proof using. intros. by apply (run_snoc s s1 s2 [ev1]); [apply run_one|]. Qed.

Lemma run_app s1 tr1 s2 tr2 s3 : setup_run s1 tr1 s2 -> setup_run s2 tr2 s3 -> setup_run s1 (tr1 ++ tr2) s3.
Proof using.
  intros H1. induction 1 as [|s s' tr ev _ IH Hs]; [by rewrite app_nil_r|]. rewrite app_assoc. by eapply run_snoc.
Qed.

(** Events after which the code stored before is still the one stored and,
    when [fresh], not used up. *)
Definition keeps_code (fresh : bool) (ev : event) : bool :=
  match ev with
  | EvMint _ _ | EvSwitched false => false
  | EvRedeem _ _ => negb fresh
  | _ => true
  end.

(** The last code minted in a trace, not revoked since and, when [fresh], not
    redeemed since. *)
Definition last_minted (code : str) (expires : N) (fresh : bool) (tr : list event) : Prop :=
  exists before minted since, tr = before ++ EvMint code minted :: since /\
    expires = minted + REMOTE_SETUP_CODE_TTL /\ Forall (fun ev => keeps_code fresh ev = true) since.

Lemma last_minted_snoc code expires fresh fresh' tr ev :
  last_minted code expires fresh tr -> (forall ev, keeps_code fresh ev = true -> keeps_code fresh' ev = true) ->
  keeps_code fresh' ev = true -> last_minted code expires fresh' (tr ++ [ev]).
Proof using.
  intros (tr0 & m & tr1 & -> & -> & H) Hf He. exists tr0, m, (tr1 ++ [ev]).
  split; [by rewrite <- app_assoc|]. split; [done|]. apply Forall_app. split; [|by constructor].
  eapply Forall_impl; [exact H|]. auto.
Qed.

Definition redeemed_safely (tr : list event) : Prop :=
  forall tr1 now cand tr2, tr = tr1 ++ EvRedeem now cand :: tr2 ->
    exists expires, last_minted cand expires true tr1 /\ now < expires.

Record setup_inv (S : Setup) (tr : list event) : Prop := mkSetupInv {
  si_lan : is_Some (ds_remote_setup_code (su_state S)) ->
    cf_lan_enabled (ds_config (su_state S)) = true \/ su_holder S = Some (Switching false);
  si_held : su_holder S = Some Minting \/ su_holder S = Some (Switching true) ->
    cf_lan_enabled (ds_config (su_state S)) = true;
  si_code c : ds_remote_setup_code (su_state S) = Some c ->
    last_minted (code_value c) (code_expires_at c) (negb (code_used c)) tr;
  si_redeemed : redeemed_safely tr;
}.

Lemma redeemed_snoc tr ev :
  redeemed_safely tr ->
  (forall now cand, ev = EvRedeem now cand -> exists expires, last_minted cand expires true tr /\ now < expires) ->
  redeemed_safely (tr ++ [ev]).
Proof using.
  intros Hs He tr1 now cand tr2 H. destruct (exists_last (l := EvRedeem now cand :: tr2)) as (l & x & Hl); [done|].
  rewrite Hl, app_assoc in H. apply app_inj_tail in H as [-> <-]. destruct l as [|y l].
  - injection Hl as <- _. rewrite app_nil_r in *. by apply He.
  - injection Hl as <- _. by apply (Hs tr1 now cand l).
Qed.

(** A step that leaves the stored code as it was. *)
Lemma code_kept S S' tr ev :
  setup_inv S tr -> keeps_code true ev = true ->
  ds_remote_setup_code (su_state S') = ds_remote_setup_code (su_state S) \/ ds_remote_setup_code (su_state S') = None ->
  (forall c, ds_remote_setup_code (su_state S') = Some c ->
     last_minted (code_value c) (code_expires_at c) (negb (code_used c)) (tr ++ [ev])) /\ redeemed_safely (tr ++ [ev]).
Proof using.
  intros [_ _ Hc Hr] Hk He. split.
  - intros c Hs. destruct He as [He|He]; rewrite He in Hs; [|done]. eapply last_minted_snoc; [by apply Hc|auto|].
    destruct ev as [|[]| | | |], (code_used c); done.
  - apply redeemed_snoc; [done|]. by intros now cand ->.
Qed.

Lemma save_lan_enabled_ok env enabled s s' :
  save_lan_enabled env enabled s = (RespOk, s') ->
  cf_lan_enabled (ds_config s') = enabled /\ ds_remote_setup_code s' = ds_remote_setup_code s.
Proof using.
  unfold save_lan_enabled, flag_setter, save_config. destruct (env_save env); [|done]. by intros [= <-].
Qed.

Lemma save_lan_enabled_refused env enabled s r s' :
  save_lan_enabled env enabled s = (r, s') -> r = RespOk \/ s' = s.
Proof using.
  unfold save_lan_enabled, flag_setter, save_config. destruct (env_save env); intros [= <- <-]; auto.
Qed.

Lemma check_mint_ok s found : check_mint s = Ok found -> cf_lan_enabled (ds_config s) = true.
Proof using. unfold check_mint. by destruct (cf_lan_enabled _). Qed.

Lemma check_mint_err s r code url sha ttl : check_mint s = Err r -> r <> RespRemoteSetup code url sha ttl.
Proof using. unfold check_mint, lan_not_ready. repeat case_match; intros [= <-]; done. Qed.

Lemma setup_step_inv S tr ev S' : setup_inv S tr -> setup_step S ev S' -> setup_inv S' (tr ++ [ev]).
Proof using.
  intros I Hs. pose proof I as [H1 H2 H3 H4]. pose proof (code_kept S S' tr ev I) as K.
  destruct Hs as [env e s s' E|e s|s found E|code now s|now cand s s' h E|s s' h E1 E2]; cbn [su_state su_holder] in *.
  - apply save_lan_enabled_ok in E as [E1 E2]. destruct K as [K1 K2]; [done|by left|].
    constructor; cbn [su_state su_holder]; [| |done|done]; rewrite E1.
    + intros _. destruct e; [by left|by right].
    + by intros [[=]|[= ->]].
  - destruct e; unfold revoke_code; cbn [negb] in *.
    + destruct K as [K1 K2]; [done|by left|].
      constructor; cbn [su_state su_holder]; [|by intros [[=]|[=]]|done|done]. intros _. left. apply H2. by right.
    + constructor; cbn; [by intros [? [=]]|by intros [[=]|[=]]|done|]. apply redeemed_snoc; [done|done].
  - destruct K as [K1 K2]; [done|by left|]. apply check_mint_ok in E. constructor; cbn; auto.
  - constructor; cbn; [|by intros [[=]|[=]]| |].
    + intros _. left. apply H2. by left.
    + intros c [= <-]. exists tr, now, []. cbn. auto.
    + apply redeemed_snoc; [done|done].
  - unfold consume_code in E. destruct (redeem _ _ _) as [ok code'] eqn:R. injection E as -> <-.
    apply redeem_true in R as (c & Hc & Hu & Hn & -> & ->). pose proof (H3 c Hc) as Hm. rewrite Hu in Hm. constructor; cbn.
    + intros _. apply H1. by rewrite Hc.
    + exact H2.
    + intros c0 [= <-]. eapply last_minted_snoc; [exact Hm| |done]. by intros [|[]| | | |].
    + apply redeemed_snoc; [done|]. intros now' cand [= -> <-]. eauto.
  - destruct K as [K1 K2]; [done|by left|]. constructor; cbn; [rewrite E1, E2|rewrite E1| |]; auto.
Qed.

Lemma setup_run_inv S0 tr S : setup_inv S0 [] -> setup_run S0 tr S -> setup_inv S tr.
Proof using. intros I. induction 1; [done|]. by eapply setup_step_inv. Qed.

(** The endpoint at start: no code. *)
Lemma setup_inv_start fs load http https lan_ip s : bring_up fs load http https lan_ip = Ok s -> setup_inv (mkSetup s None) [].
Proof using.
  unfold bring_up. rewrite bind_ok. intros (c & _ & H). rewrite bind_ok in H. destruct H as (rt & _ & [= <-]).
  constructor; cbn; [by intros [? [=]]|by intros [[=]|[=]]|done|]. intros tr1 now cand tr2 Htr. by destruct tr1.
Qed.

(** The handlers are runs of these steps. *)
Lemma set_lan_enabled_run env enabled s r s' :
  set_lan_enabled env enabled s = (r, s') ->
  setup_run (mkSetup s None) (match r with RespOk => [EvSaved enabled; EvSwitched enabled] | _ => [] end) (mkSetup s' None).
Proof using.
  unfold set_lan_enabled. destruct (save_lan_enabled env enabled s) as [r1 s1] eqn:E.
  destruct (save_lan_enabled_refused _ _ _ _ _ E) as [->| ->].
  - intros [= <- <-]. eapply run_two; [by eapply su_save|apply su_revoke].
  - destruct r1; intros [= <- <-]; try apply run_refl. eapply run_two; [by eapply su_save|apply su_revoke].
Qed.

Lemma mint_run env s r s' :
  mint_remote_setup_code env s = (r, s') ->
  setup_run (mkSetup s None)
    (match r with RespRemoteSetup code _ _ _ => [EvChecked; EvMint code (env_now env)] | _ => [] end) (mkSetup s' None).
Proof using.
  unfold mint_remote_setup_code. destruct (check_mint s) as [[[port ip] sha]|e] eqn:E; intros [= <- <-].
  - eapply run_two; [by eapply su_check|apply su_publish].
  - destruct e; try apply run_refl. by edestruct check_mint_err.
Qed.

Lemma decide_setup_run now is_get path query s h d s' :
  decide_setup now is_get path query s = (d, s') ->
  match d with
  | DecisionScript => exists cand, extract_code query = Some cand /\
      setup_run (mkSetup s h) [EvRedeem now cand] (mkSetup s' h)
  | DecisionText _ _ => s' = s
  end.
Proof using.
  unfold decide_setup. destruct is_get; [|by intros [= <- <-]]. destruct (classify path); [|by intros [= <- <-]].
  destruct (extract_code query) as [cand|]; [|by intros [= <- <-]].
  destruct (consume_code now cand s) as [[] s1] eqn:E; intros [= <- <-].
  - exists cand. split; [done|]. by apply run_one, su_consume.
  - by apply consume_false in E.
Qed.

(** C40. The one-time code, from the daemon's start and under every
    interleaving of minting, switching LAN mode, redeeming and anything else
    the daemon does.  A stored code means that LAN mode is on, or that a
    switch-off has saved the flag and is about to revoke the code; so once a
    switch-off has completed nothing is redeemable, until LAN mode is on again
    and a code is minted.  Whatever is redeemed is the code minted last, within
    its 900 seconds, for the first time, and with no completed switch-off since
    it was minted; while one is still in progress, a code may be redeemed.
    The handlers that switch LAN mode and mint a code are exactly these steps,
    and the script is served only by a redemption. *)
Theorem setup_code_safe fs load http https lan_ip s0 tr S
    (B : bring_up fs load http https lan_ip = Ok s0) (R : setup_run (mkSetup s0 None) tr S) :
  (is_Some (ds_remote_setup_code (su_state S)) ->
     cf_lan_enabled (ds_config (su_state S)) = true \/ su_holder S = Some (Switching false)) /\
  (su_holder S = None -> cf_lan_enabled (ds_config (su_state S)) = false ->
     forall now cand, (consume_code now cand (su_state S)).1 = false) /\
  (forall tr1 now cand tr2, tr = tr1 ++ EvRedeem now cand :: tr2 ->
     exists before minted since, tr1 = before ++ EvMint cand minted :: since /\ now < minted + REMOTE_SETUP_CODE_TTL /\
       Forall (fun ev => match ev with EvMint _ _ | EvRedeem _ _ | EvSwitched false => False | _ => True end) since) /\
  (forall env enabled s,
     let '(r, s') := set_lan_enabled env enabled s in
     setup_run (mkSetup s None) (match r with RespOk => [EvSaved enabled; EvSwitched enabled] | _ => [] end)
       (mkSetup s' None)) /\
  (forall env s,
     let '(r, s') := mint_remote_setup_code env s in
     setup_run (mkSetup s None)
       (match r with RespRemoteSetup code _ _ _ => [EvChecked; EvMint code (env_now env)] | _ => [] end)
       (mkSetup s' None)) /\
  (forall now is_get path query s h,
     match decide_setup now is_get path query s with
     | (DecisionScript, s') => exists cand, extract_code query = Some cand /\
         setup_run (mkSetup s h) [EvRedeem now cand] (mkSetup s' h)
     | (DecisionText _ _, s') => s' = s
     end).
Proof using.
  pose proof (setup_inv_start fs load http https lan_ip s0 B) as I.
  destruct (setup_run_inv (mkSetup s0 None) tr S I R) as [H1 H2 _ H4].
  split; [exact H1|]. split; [|split; [|split; [|split]]].
  - intros Hh Hl now cand. unfold consume_code. destruct (ds_remote_setup_code (su_state S)) as [c|]; [|done].
    destruct H1; eauto; congruence.
  - intros tr1 now cand tr2 (x & (tr0 & m & since & -> & -> & Hs) & Hx)%H4. exists tr0, m, since.
    split; [done|]. split; [done|]. eapply Forall_impl; [exact Hs|]. by intros [|[]| | | |].
  - intros env enabled s. destruct (set_lan_enabled _ _ _) as [r s'] eqn:E. exact (set_lan_enabled_run _ _ _ _ _ E).
  - intros env s. destruct (mint_remote_setup_code _ _) as [r s'] eqn:E. exact (mint_run _ _ _ _ E).
  - intros now g path q s h. destruct (decide_setup _ _ _ _ _) as [d s'] eqn:E.
    apply (decide_setup_run _ _ _ _ _ h) in E. destruct d; exact E.
Qed.

End Interleaving.

(** LAN mode is up, a code is minted and redeemed, and LAN mode is switched off. *)
Definition demo_lan_env : Env := mkEnv (demo_fs true) (Ok tt) (Ok tt) (fun _ => true) None [171; 205] 100.
Definition demo_lan_start : result DaemonError DaemonState :=
  bring_up (demo_fs true) (Ok (put_lan_enabled true Config_default)) 8080 8443 (Some (mkV4 192 168 0 9)).
Definition demo_code : str := "abcd"%str.
Definition demo_bound (s : DaemonState) : DaemonState := set_setup true (ds_remote_setup_code s) (Some "5ha"%str) s.
Definition demo_trace : list event :=
  [EvOther; EvChecked; EvMint demo_code 100; EvRedeem 200 demo_code; EvSaved false; EvSwitched false].

Lemma setup_code_safe_witness :
  match demo_lan_start with
  | Ok s0 =>
      let s1 := (mint_remote_setup_code demo_lan_env (demo_bound s0)).2 in
      let s2 := (consume_code 200 demo_code s1).2 in
      let s3 := (set_lan_enabled demo_lan_env false s2).2 in
      setup_run (mkSetup s0 None) demo_trace (mkSetup s3 None) /\
      (consume_code 999 demo_code s1).1 = true /\ (consume_code 1000 demo_code s1).1 = false /\
      (consume_code 300 demo_code s3).1 = false
  | Err _ => False
  end.
Proof.
  assert (match demo_lan_start with
    | Ok s0 =>
        let m := mint_remote_setup_code demo_lan_env (demo_bound s0) in
        let c := consume_code 200 demo_code m.2 in
        let w := set_lan_enabled demo_lan_env false c.2 in
        match m.1, c.1, w.1 with
        | RespRemoteSetup code _ _ _, true, RespOk => bool_decide (code = demo_code)
        | _, _, _ => false
        end && (consume_code 999 demo_code m.2).1 && negb (consume_code 1000 demo_code m.2).1
            && negb (cf_lan_enabled (ds_config w.2))
    | Err _ => false end = true) as Hrun by (vm_compute; reflexivity).
  destruct demo_lan_start as [s0|] eqn:B; [|discriminate Hrun]. cbv zeta in *.
  destruct (mint_remote_setup_code demo_lan_env (demo_bound s0)) as [m s1] eqn:Em. cbn [fst snd] in *.
  destruct (consume_code 200 demo_code s1) as [c s2] eqn:Ec. cbn [fst snd] in *.
  destruct (set_lan_enabled demo_lan_env false s2) as [w s3] eqn:Ew. cbn [fst snd] in *.
  apply andb_true_iff in Hrun as [Hrun Hl]. apply andb_true_iff in Hrun as [Hrun H2]. apply andb_true_iff in Hrun as [H0 H1].
  apply negb_true_iff in Hl, H2. destruct m; try discriminate H0. destruct c, w; try discriminate H0.
  apply bool_decide_eq_true in H0. subst.
  assert (setup_run (mkSetup s0 None) demo_trace (mkSetup s3 None)) as R.
  { apply (run_app _ [EvOther] (mkSetup (demo_bound s0) None)); [by apply run_one, su_other|].
    apply (run_app _ [EvChecked; EvMint demo_code 100] (mkSetup s1 None)); [exact (mint_run _ _ _ _ Em)|].
    apply (run_app _ [EvRedeem 200 demo_code] (mkSetup s2 None)); [by apply run_one, su_consume|].
    exact (set_lan_enabled_run _ _ _ _ _ Ew). }
  split; [exact R|]. split; [exact H1|]. split; [exact H2|].
  exact (proj1 (proj2 (setup_code_safe _ _ _ _ _ _ _ _ B R)) eq_refl Hl 300 demo_code).
Defined.
