(* ===== verification/DaemonInv.v ===== *)
(** * What the daemon keeps

    The contract of [Daemon]: how every request changes the state
    ([daemon_change]), the invariant of every state the daemon can reach, and
    which commands it refuses. *)

From S2P Require Import Prelude RustStr RustMap RustPath CoreError DnsLabel Tld Domain Php Net Site Proxy Router Project Settings Config Migrate Wire Serialize SiteDomains Descriptor Ipc Mutate MutateValid Storable MutateEffects Link Scan Daemon LanSetup.

Open Scope N_scope.

(** ** The sections no mutation touches *)

Definition frame (c : Config) :=
  (cf_version c, cf_tld c, cf_dns_port c, cf_update_channel c, cf_symlink_protection c, cf_mcp_enabled c,
   cf_lan_enabled c, cf_lan_setup_port c, cf_ports c, cf_php c, cf_services c, cf_mail c, cf_dumps c, cf_tunnel c).

Ltac frames := repeat (case_match; cbn [snd]); try done.

Lemma frame_delta_put t o c : frame (delta_put t o c) = frame c.
Proof. by destruct t. Qed.
Lemma frame_prune t c : frame (prune_delta t c) = frame c.
Proof. unfold prune_delta. destruct (delta_get c t) as [d|]; [|done]. destruct (_ d); [apply frame_delta_put|done]. Qed.
Lemma frame_delta_mut t c : frame (delta_mut c t).2 = frame c.
Proof. apply frame_delta_put. Qed.

Lemma apply_frame r req canonical php c : frame (apply r req canonical php c).2 = frame c.
Proof.
  destruct req; cbn [apply]; try done.
  all: unfold apply_park, apply_link, apply_unlink, apply_unpark, apply_set_secure, apply_set_front_controller,
    apply_add_proxy, apply_remove_proxy, apply_add_proxy_rule, apply_remove_proxy_rule, apply_add_route_rule,
    apply_remove_route_rule, apply_create_group, apply_delete_group, apply_set_group_order, apply_set_site_group,
    apply_rename_group, apply_add_domain, apply_remove_domain, apply_set_primary_domain, apply_reset_domains,
    put_proxy_rules_map, put_route_rules_map, applied.
  all: frames.
  all: rewrite ?frame_prune, ?frame_delta_put;
    match goal with H : delta_mut _ _ = _ |- _ => apply (f_equal snd) in H; cbn [snd] in H; subst end;
    apply frame_delta_mut.
Qed.

(** A change that routing does not see. *)
Definition quiet (c c' : Config) : Prop :=
  (forall sites, build c' sites = build c sites) /\ cf_linked c' = cf_linked c /\ cf_parked c' = cf_parked c /\
  cf_proxies c' = cf_proxies c /\ cf_proxy_rules c' = cf_proxy_rules c /\ cf_projects c' = cf_projects c /\
  (storable c -> storable c').

(** Assigning a section of plain values is such a change. *)
Ltac quietly := unfold quiet; split_and!; [done..|by intros []; constructor].
#[export] Hint Extern 1 (quiet _ _) => quietly : core.

(** ** Commits and saves *)

Section Steps.
Context `{Json J}.

(** The configuration a mutation would commit, or its refusal, in three parts. *)
Definition canonical_of (env : Env) (req : Request) : result Response (option str) :=
  match req with
  | Park path | Link _ path => p ← canonicalize_dir (env_fs env) path; Ok (Some p)
  | _ => Ok None
  end.
Definition applied_of (env : Env) (req : Request) (canonical : option str) (s : DaemonState) : result Response Config :=
  match req with
  | SetWebRoot name path => resolve_web_root_mutation (env_fs env) (ds_config s) (ds_router s) name path
  | _ => match apply (ds_router s) req canonical (php_default (cf_php (ds_config s))) (ds_config s) with
         | (Ok _, new) => Ok new
         | (Err e, _) => Err (RespError (error_code e) (RmMutate (mutate_message e)))
         end
  end.
Definition detected_of (env : Env) (req : Request) (canonical : option str) (new : Config) : Config :=
  match req, canonical with
  | Link name _, Some p =>
      put_linked (update_first (named (to_ascii_lowercase name)) (set_web_subpath (detect_web_subpath (env_fs env) p))
        (cf_linked new)) new
  | _, _ => new
  end.
Definition mutated (env : Env) (req : Request) (s : DaemonState) : result Response Config :=
  canonical ← canonical_of env req;
  new ← applied_of env req canonical s;
  Ok (detected_of env req canonical new).

Definition is_link_project (req : Request) : bool := match req with LinkProject _ _ _ => true | _ => false end.

(** What a request may commit. *)
Definition committed_by (env : Env) (req : Request) (s : DaemonState) (new : Config) : Prop :=
  match req with
  | LinkProject _ name port =>
      exists root yml project write_yml,
        plan_link (ds_config s) root name port yml (env_port_free env) = Ok (PlanLink project write_yml) /\
        project_loop_refusal project (bound_ports s) = None /\ new = push_project project (ds_config s)
  | AddProxy _ url | AddProxyRule _ _ url =>
      is_self_forward url (bound_ports s) = false /\ mutated env req s = Ok new
  | _ => mutated env req s = Ok new
  end.

(** What a request does to the state, with its reply. *)
Inductive daemon_change (env : Env) (req : Request) (s : DaemonState) : Response -> DaemonState -> Prop :=
| dc_refused r cache files :
    is_error r = true -> (is_link_project req = false -> files = ds_descriptors s) ->
    daemon_change env req s r (set_detect_cache cache (set_descriptors files s))
| dc_unchanged r : is_error r = false -> daemon_change env req s r s
| dc_committed r new cache files parked watch :
    is_error r = false -> (is_link_project req = false -> files = ds_descriptors s) ->
    committed_by env req s new -> validate new = Ok tt -> env_save env = Ok tt -> frame new = frame (ds_config s) ->
    Forall (scanned new) parked ->
    daemon_change env req s r
      (set_routing (routing_of (env_fs env) new (parked ++ cf_linked new) watch)
         (set_config new (set_disk (Some new) (set_detect_cache cache (set_descriptors files s)))))
| dc_saved new live code :
    validate new = Ok tt \/ validate new = validate (ds_config s) -> env_save env = Ok tt ->
    quiet (ds_config s) new ->
    live = cf_symlink_protection new \/
      live = ds_symlink_protection s /\ cf_symlink_protection new = cf_symlink_protection (ds_config s) ->
    code = None \/ code = ds_remote_setup_code s /\
      (cf_lan_enabled new = cf_lan_enabled (ds_config s) \/ cf_lan_enabled new = true) ->
    daemon_change env req s RespOk (set_live_symlink live (set_code code (set_config new (set_disk (Some new) s))))
| dc_minted code r :
    is_error r = false -> cf_lan_enabled (ds_config s) = true ->
    daemon_change env req s r (set_code (Some code) s).

Lemma set_cache_same (s : DaemonState) : set_detect_cache (ds_detect_cache s) (set_descriptors (ds_descriptors s) s) = s.
Proof using. by destruct s. Qed.

Lemma refused_same env req s r : is_error r = true -> daemon_change env req s r s.
Proof using. intros Hr. rewrite <- (set_cache_same s) at 2. by apply dc_refused. Qed.

Lemma commit_change env req new s files :
  committed_by env req s new ->
  (is_link_project req = false -> files = ds_descriptors s) ->
  frame new = frame (ds_config s) ->
  match commit_config env new (set_descriptors files s) with
  | (Some failure, s') => daemon_change env req s failure s'
  | (None, s') => forall r, is_error r = false -> daemon_change env req s r s'
  end.
Proof using.
  intros Hb Hl Hf. unfold commit_config. destruct (validate new) as [[]|e] eqn:Ev.
  2: { pose proof (dc_refused env req s (internal (RmValidation e)) (ds_detect_cache s) files eq_refl Hl) as Hd. by destruct s. }
  unfold build_routing. cbn [set_descriptors ds_detect_cache].
  destruct (scan_sites (env_fs env) new (php_default (cf_php new)) (ds_detect_cache s)) as [res cache] eqn:Es.
  destruct res as [[sites watch]|e]; cbn [mbind result_bind].
  - apply scan_sites_split in Es as (parked & -> & Hp). destruct (env_save env) as [[]|e] eqn:Ee.
    + intros r Hr. by apply (dc_committed env req s r new cache files parked watch).
    + by apply (dc_refused env req s _ cache files).
  - destruct e as [e|e|p k]; [| destruct e |]; by apply (dc_refused env req s _ cache files).
Qed.

Lemma commit_reply env req new s : committed_by env req s new -> frame new = frame (ds_config s) ->
  daemon_change env req s (ok_reply (commit_config env new s)).1 (ok_reply (commit_config env new s)).2.
Proof using.
  intros Hb Hf. pose proof (commit_change env req new s (ds_descriptors s) Hb (fun _ => eq_refl) Hf) as Hc.
  replace (set_descriptors (ds_descriptors s) s) with s in Hc by by destruct s.
  destruct (commit_config env new s) as [[r|] s']; [done|]. by apply Hc.
Qed.

(** The lighter sequence, for a change routing and the live flags do not see. *)
Lemma save_reply env req check refuse new s :
  (forall e, is_error (refuse e) = true) -> check = true \/ validate new = validate (ds_config s) ->
  quiet (ds_config s) new -> cf_symlink_protection new = cf_symlink_protection (ds_config s) ->
  cf_lan_enabled new = cf_lan_enabled (ds_config s) ->
  let o := ok_reply (save_config env check refuse new s) in daemon_change env req s o.1 o.2.
Proof using.
  intros Hr Hv Hq Hs Hl. unfold save_config. cbn zeta.
  destruct (if check then validate new else Ok tt) as [[]|e] eqn:Ec; [|apply refused_same, Hr].
  destruct (env_save env) as [[]|e] eqn:Ee; [|by apply refused_same]. cbn [ok_reply fst snd].
  assert (set_config new (set_disk (Some new) s) = set_live_symlink (ds_symlink_protection s)
    (set_code (ds_remote_setup_code s) (set_config new (set_disk (Some new) s)))) as -> by by destruct s.
  apply dc_saved; [|done|done|by right|by right; auto].
  destruct Hv as [->|Hv]; [by left|by right].
Qed.

Lemma pair_parts {A B} (a : A) (b : B) p : (a, b) = p -> a = p.1 /\ b = p.2.
Proof using. by intros <-. Qed.

Lemma setter_change env s r s' req req' :
  match req with
  | SetMailPort _ | SetFallbackPorts _ _ | SetDnsPort _ | SetMailEnabled _ | SetSymlinkProtection _
  | SetMcpEnabled _ | SetLanEnabled _ | MintRemoteSetupCode | SetUpdateChannel _ | SetSiteTunnel _ _ => true
  | _ => false
  end = true ->
  dispatch env req s = Some (r, s') -> daemon_change env req' s r s'.
Proof using.
  destruct req; try done; intros _ [= E]; symmetry in E.
  all: apply pair_parts in E as [-> ->].
  - by apply save_reply; auto.
  - unfold set_fallback_ports. destruct (bool_decide _); [by apply refused_same|]. by apply save_reply; auto.
  - unfold set_dns_port. destruct (port =? 0); [by apply refused_same|]. by apply save_reply; auto.
  - by apply save_reply; auto.
  - by apply save_reply; auto.
  - unfold set_site_hostname. destruct (_ && _); [by apply refused_same|]. by apply save_reply; auto.
  - unfold set_symlink_protection, flag_setter, save_config. destruct (env_save env) as [[]|e] eqn:Ee; [|by apply refused_same].
    cbn [ok_reply fst snd].
    set (new := put_symlink_protection enabled (ds_config s)).
    change (set_live_symlink enabled ?x) with (set_live_symlink enabled (set_code (ds_remote_setup_code s)
      (set_config new (set_disk (Some new) s)))).
    apply dc_saved; [by right|done|quietly|by left|by right; auto].
  - by apply save_reply; auto.
  - unfold set_lan_enabled, save_lan_enabled, revoke_code, flag_setter, save_config.
    destruct (env_save env) as [[]|e] eqn:Ee; [|by apply refused_same].
    cbn [ok_reply fst snd]. set (new := put_lan_enabled enabled (ds_config s)).
    assert ((if negb enabled then set_code None (set_config new (set_disk (Some new) s)) else set_config new (set_disk (Some new) s))
      = set_live_symlink (ds_symlink_protection s)
      (set_code (if enabled then ds_remote_setup_code s else None) (set_config new (set_disk (Some new) s)))) as ->
      by by destruct s, enabled.
    apply dc_saved; [by right|done|quietly|by right|]. destruct enabled; [right; auto|by left].
  - unfold mint_remote_setup_code, check_mint. destruct (negb (cf_lan_enabled _)) eqn:El; [by apply refused_same|].
    destruct (negb (ds_lan_setup_bound s)); [by apply refused_same|].
    destruct (ds_lan_ip s); [|by apply refused_same]. destruct (ds_script_sha256 s); [|by apply refused_same].
    apply negb_false_iff in El. by apply dc_minted.
Qed.
Lemma web_root_frame fs c r name path c' :
  resolve_web_root_mutation fs c r name path = Ok c' -> frame c' = frame c.
Proof using.
  unfold resolve_web_root_mutation. destruct (find_first _ _) as [site|].
  - rewrite bind_ok. by intros (rel & _ & [= <-]).
  - destruct (get r _) as [p|]; [|done]. destruct path as [q|].
    + rewrite bind_ok. by intros (rel & _ & [= <-]).
    + destruct (cf_overrides c !! _) as [ov|]; [|by intros [= <-]].
      repeat case_match; by intros [= <-].
Qed.

Lemma handle_mutation_mutated env req s :
  handle_mutation env req s =
  match mutated env req s with Ok new => ok_reply (commit_config env new s) | Err resp => (resp, s) end.
Proof using.
  unfold handle_mutation, mutated. fold (canonical_of env req).
  destruct (canonical_of env req) as [canonical|resp]; cbn [mbind result_bind]; [|done].
  fold (applied_of env req canonical s).
  destruct (applied_of env req canonical s) as [new|resp]; cbn [mbind result_bind]; [|done].
  destruct req; try done. by destruct canonical.
Qed.

Lemma applied_frame env req canonical s new :
  applied_of env req canonical s = Ok new -> frame new = frame (ds_config s).
Proof using.
  unfold applied_of. set (php := php_default _).
  pose proof (apply_frame (ds_router s) req canonical php (ds_config s)) as Hf.
  destruct req; try (destruct (apply _ _ _ _ _) as [[a|e] c0]; [|done]; by intros [= <-]). apply web_root_frame.
Qed.

Lemma mutated_frame env req s new : mutated env req s = Ok new -> frame new = frame (ds_config s).
Proof using.
  unfold mutated. rewrite bind_ok. intros (canonical & _ & H'). rewrite bind_ok in H'. destruct H' as (c & Hc & [= <-]).
  apply applied_frame in Hc. destruct req; try done. by destruct canonical.
Qed.

Lemma canonicalize_error fs p r : canonicalize_dir fs p = Err r -> is_error r = true.
Proof using.
  unfold canonicalize_dir. destruct (fs_canonicalize fs p); [|by intros [= <-]].
  destruct (fs_is_dir _ _); [done|by intros [= <-]].
Qed.

Lemma web_root_within_error fs d p r : resolve_web_root_within fs d p = Err r -> is_error r = true.
Proof using.
  unfold resolve_web_root_within. cbn zeta.
  destruct (fs_canonicalize fs (if is_absolute p then p else path_join d p)) as [x|];
    cbn [map_err mbind result_bind]; [|by intros [= <-]].
  destruct (fs_is_dir fs x); cbn [negb]; [|by intros [= <-]].
  destruct (fs_canonicalize fs d) as [y|]; cbn [map_err mbind result_bind]; [|by intros [= <-]].
  destruct (path_strip_prefix x y); [done|by intros [= <-]].
Qed.

Lemma web_root_error fs c r name path resp : resolve_web_root_mutation fs c r name path = Err resp -> is_error resp = true.
Proof using.
  unfold resolve_web_root_mutation. destruct (find_first _ _) as [site|].
  - destruct path as [p|]; [|done]. destruct (resolve_web_root_within _ _ p) as [x|x] eqn:E; [done|].
    cbn [mbind result_bind]. intros [= <-]. by eapply web_root_within_error.
  - destruct (get _ _) as [p|]; [|by intros [= <-]]. destruct path as [q|].
    + destruct (resolve_web_root_within _ _ q) as [x|x] eqn:E; [done|].
      cbn [mbind result_bind]. intros [= <-]. by eapply web_root_within_error.
    + destruct (cf_overrides _ !! _) as [ov|]; [|done]. by repeat case_match.
Qed.

Lemma mutated_error env req s resp : mutated env req s = Err resp -> is_error resp = true.
Proof using.
  unfold mutated. destruct (canonical_of env req) as [canonical|r] eqn:Ec; cbn [mbind result_bind].
  - destruct (applied_of env req canonical s) as [new|r] eqn:Em; [done|]. cbn [mbind result_bind]. intros [= <-].
    revert Em. unfold applied_of.
    destruct req; try (destruct (apply _ _ _ _ _) as [[a|e] c0]; [done|]; by intros [= <-]). apply web_root_error.
  - intros [= <-]. revert Ec. unfold canonical_of. destruct req; try done;
      (destruct (canonicalize_dir _ _) as [x|x] eqn:E; [done|]; cbn [mbind result_bind]; intros [= <-];
       by eapply canonicalize_error).
Qed.

Lemma mutation_change env req s :
  (forall new, mutated env req s = Ok new -> committed_by env req s new) ->  daemon_change env req s (handle_mutation env req s).1 (handle_mutation env req s).2.
Proof using.
  intros Hm. rewrite handle_mutation_mutated. destruct (mutated env req s) as [new|resp] eqn:E.
  - apply commit_reply; [by apply Hm|by apply (mutated_frame env req)].
  - apply refused_same. by eapply mutated_error.
Qed.

Lemma group_change env req s : group_request req = true ->
  daemon_change env req s (handle_group_mutation env req s).1 (handle_group_mutation env req s).2.
Proof using.
  intros Hg. unfold handle_group_mutation.
  pose proof (apply_group_step (ds_router s) req None (php_default (cf_php (ds_config s))) (ds_config s) Hg) as Hs.
  destruct (apply _ _ _ _ _) as [[a|e] new]; [|by apply refused_same].
  destruct Hs as (g & -> & _). by apply save_reply; auto.
Qed.

Lemma link_project_change env req s :
  daemon_change env req s (handle_link_project env req s).1 (handle_link_project env req s).2.
Proof using.
  unfold handle_link_project. destruct req; try by apply refused_same.
  destruct (canonicalize_dir (env_fs env) path) as [root|r] eqn:Ec.
  2: { apply refused_same. by eapply canonicalize_error. }
  set (existing := match fs_read_to_string _ _ with Some _ => _ | None => _ end).
  destruct existing as [existing'|r] eqn:Ee.
  2: { apply refused_same. unfold existing in Ee. destruct (fs_read_to_string _ _); [|done].
       destruct (parse _); [done|by injection Ee as <-]. }
  destruct (plan_link _ _ _ _ _ _) as [[project write_yml|project]|e] eqn:Ep; [|by apply dc_unchanged|by apply refused_same].
  destruct (project_loop_refusal project (bound_ports s)) as [r|] eqn:Er.
  { apply refused_same. revert Er. unfold project_loop_refusal. destruct (proxy_site project); [|by intros [= <-]].
    destruct (targets_bound_listener _ _); [by intros [= <-]|done]. }
  assert (committed_by env (LinkProject path name port) s (push_project project (ds_config s))) as Hm
    by (exists root, existing', project, write_yml; auto).
  destruct write_yml as [yml|].
  - destruct (env_write env); [|by apply refused_same].
    match goal with |- context [commit_config env ?n (set_descriptors ?f s)] =>
      pose proof (commit_change env (LinkProject path name port) n s f Hm (fun H => False_rect _ (diff_true_false H)) (eq_refl : frame n = frame (ds_config s))) as Hc end.
    destruct (commit_config _ _ _) as [[r|] s']; [done|]. by apply Hc.
  - match goal with |- context [commit_config env ?n ?st] =>
      pose proof (commit_change env (LinkProject path name port) n s (ds_descriptors s) Hm (fun _ => eq_refl) (eq_refl : frame n = frame (ds_config s))) as Hc end.
    replace (set_descriptors (ds_descriptors s) s) with s in Hc by by destruct s.
    destruct (commit_config _ _ _) as [[r|] s']; [done|]. by apply Hc.
Qed.

(** Every request either is refused, or commits or saves a whole valid
    configuration, or only publishes a code. *)
Lemma dispatch_change env req s r s' :
  dispatch env req s = Some (r, s') -> daemon_change env req s r s'.
Proof using.
  intros E. destruct req; try done;
    try (eapply setter_change; [|exact E]; done); cbn [dispatch] in E; apply (inj Some) in E; symmetry in E;
    try (apply pair_parts in E as [-> ->]; first [by apply mutation_change | by apply group_change | apply link_project_change]).
  all: destruct (is_self_forward _ _) eqn:Ef; [injection E as -> ->; by apply refused_same|];
    apply pair_parts in E as [-> ->]; by apply mutation_change.
Qed.

(** ** States the daemon reaches *)

Inductive daemon_step (s : DaemonState) : DaemonState -> Prop :=
| st_request env req r s' : dispatch env req s = Some (r, s') -> daemon_step s s'
| st_watch env : daemon_step s (recompute env s).2
| st_tunnel_created env name uuid : daemon_step s (record_named_tunnel env name uuid s).2
| st_tunnel_deleted env name : daemon_step s (forget_named_tunnel env name s).2
| st_bootstrap sha : daemon_step s (set_setup true (ds_remote_setup_code s) (Some sha) s)
| st_setup_request now is_get path query : daemon_step s (decide_setup now is_get path query s).2.

(** What the daemon's steps do to the LAN flag and the one-time code: switching
    and minting are the steps of [LanSetup.setup_step], the rest keeps both. *)
Definition keeps_setup (s s' : DaemonState) : Prop :=
  cf_lan_enabled (ds_config s') = cf_lan_enabled (ds_config s) /\ ds_remote_setup_code s' = ds_remote_setup_code s.

Lemma frame_lan c c' : frame c' = frame c -> cf_lan_enabled c' = cf_lan_enabled c.
Proof using. unfold frame. by intros [=]. Qed.

Lemma commit_keeps env new s s0 :
  keeps_setup s0 s -> frame new = frame (ds_config s0) -> keeps_setup s0 (commit_config env new s).2.
Proof using.
  intros [K1 K2] Hf%frame_lan. unfold commit_config. destruct (validate new); [|done].
  destruct (build_routing _ _ _) as [[rt|e] cache]; [by destruct (env_save env)|].
  destruct e as [e|e|p k]; [|destruct e|]; done.
Qed.

Lemma save_keeps env check refuse new s :
  cf_lan_enabled new = cf_lan_enabled (ds_config s) -> keeps_setup s (ok_reply (save_config env check refuse new s)).2.
Proof using.
  intros Hl. unfold save_config. destruct (if check then _ else _); [|done]. by destruct (env_save env).
Qed.

Lemma ok_reply_state (r : option Response * DaemonState) : (ok_reply r).2 = r.2.
Proof using. by destruct r as [[]]. Qed.

Lemma mutation_keeps env req s : keeps_setup s (handle_mutation env req s).2.
Proof using.
  rewrite handle_mutation_mutated. destruct (mutated env req s) as [new|resp] eqn:E; [|done].
  rewrite ok_reply_state. apply commit_keeps; [done|]. by eapply mutated_frame.
Qed.

Lemma group_keeps env req s : group_request req = true -> keeps_setup s (handle_group_mutation env req s).2.
Proof using.
  intros Hg. unfold handle_group_mutation.
  pose proof (apply_group_step (ds_router s) req None (php_default (cf_php (ds_config s))) (ds_config s) Hg) as Hs.
  destruct (apply _ _ _ _ _) as [[a|e] new]; [|done]. destruct Hs as (g & -> & _). by apply save_keeps.
Qed.

Lemma link_project_keeps env req s : keeps_setup s (handle_link_project env req s).2.
Proof using.
  unfold handle_link_project. destruct req; try done. destruct (canonicalize_dir _ _); [|done].
  destruct (match fs_read_to_string _ _ with Some _ => _ | None => _ end); [|done].
  destruct (plan_link _ _ _ _ _ _) as [[project write_yml|project]|e]; [|done..].
  destruct (project_loop_refusal _ _); [done|].
  assert (forall st, keeps_setup s st ->
    keeps_setup s (commit_config env (put_projects (cf_projects (ds_config s) ++ [project]) (ds_config s)) st).2) as Hc
    by (intros st Hst; by apply commit_keeps).
  destruct write_yml as [yml|]; [destruct (env_write env); [|done]|];
    match goal with |- context [commit_config ?a ?b ?st] => specialize (Hc st); destruct (commit_config a b st) as [[r|] s'] end;
    by apply Hc.
Qed.

Definition switches_setup (req : Request) : bool :=
  match req with SetLanEnabled _ | MintRemoteSetupCode => true | _ => false end.

Lemma dispatch_keeps env req s r s' :
  switches_setup req = false -> dispatch env req s = Some (r, s') -> keeps_setup s s'.
Proof using.
  intros Hs E. destruct req; try done; cbn [dispatch] in E; apply (inj Some) in E; symmetry in E;
    apply pair_parts in E as [_ ->]; try apply mutation_keeps; try (by apply group_keeps); try apply link_project_keeps;
    try (by apply save_keeps).
  - destruct (is_self_forward _ _); [done|apply mutation_keeps].
  - destruct (is_self_forward _ _); [done|apply mutation_keeps].
  - unfold set_fallback_ports. destruct (bool_decide _); [done|by apply save_keeps].
  - unfold set_dns_port. destruct (port =? 0); [done|by apply save_keeps].
  - unfold set_site_hostname. destruct (_ && _); [done|by apply save_keeps].
  - unfold set_symlink_protection, flag_setter, save_config. by destruct (env_save env).
Qed.

(** So every step of the daemon is a run of the interleaved steps. *)
Lemma daemon_step_setup s s' : daemon_step s s' -> exists tr, setup_run (mkSetup s None) tr (mkSetup s' None).
Proof using.
  assert (forall s1 s2, keeps_setup s1 s2 -> exists tr, setup_run (mkSetup s1 None) tr (mkSetup s2 None)) as Hk.
  { intros s1 s2 [K1 K2]. eexists. by apply run_one, su_other. }
  intros [env req r s2 E|env|env name uuid|env name|sha|now g path query].
  - destruct (switches_setup req) eqn:Hr; [|by eapply Hk, dispatch_keeps].
    destruct req; try done; injection E as E; eexists; [exact (set_lan_enabled_run _ _ _ _ _ E)|exact (mint_run _ _ _ _ E)].
  - apply Hk. unfold recompute. by destruct (build_routing _ _ _) as [[rt|e] cache].
  - by apply Hk, save_keeps.
  - by apply Hk, save_keeps.
  - by apply Hk.
  - destruct (decide_setup now g path query s) as [d s2] eqn:E. apply (decide_setup_run _ _ _ _ _ None) in E.
    destruct d; [destruct E as (cand & _ & E); eauto|]. rewrite E. by apply Hk.
Qed.

Record daemon_inv (s : DaemonState) : Prop := mkInv {
  di_valid : validate (ds_config s) = Ok tt;
  di_disk : ds_disk s = Some (ds_config s) \/ (ds_disk s = None /\ ds_config s = Config_default);
  di_router : exists parked, Forall (scanned (ds_config s)) parked /\
    ds_router s = build (ds_config s) (parked ++ cf_linked (ds_config s));
  di_markers : dom (ds_wordpress s) = dom (r_sites (ds_router s)) /\ dom (ds_laravel s) = dom (r_sites (ds_router s));
  di_symlink : ds_symlink_protection s = cf_symlink_protection (ds_config s);
  di_code : is_Some (ds_remote_setup_code s) -> cf_lan_enabled (ds_config s) = true;
}.

Lemma frame_symlink c c' : frame c' = frame c ->
  cf_symlink_protection c' = cf_symlink_protection c /\ cf_lan_enabled c' = cf_lan_enabled c.
Proof using. unfold frame. intros [=]. done. Qed.

(** The router belongs to the configuration. *)
Lemma inv_matches s : daemon_inv s -> router_matches (ds_config s) (ds_router s).
Proof using.
  intros [V _ (parked & Hp & ->) _ _ _]. apply built_matches; [|done]. by apply validate_spec.
Qed.

Lemma scanned_quiet c c' s : cf_linked c' = cf_linked c -> cf_parked c' = cf_parked c -> scanned c s -> scanned c' s.
Proof using. intros Hl Hp. unfold scanned, linked_names. by rewrite Hl, Hp. Qed.

Lemma routed_markers fs c sites watch :
  dom (rt_wordpress (routing_of fs c sites watch)) = dom (r_sites (build c sites)) /\
  dom (rt_laravel (routing_of fs c sites watch)) = dom (r_sites (build c sites)).
Proof using. unfold routing_of. cbn. by rewrite !dom_fmap_L. Qed.

Lemma change_inv env req s r s' : daemon_inv s -> daemon_change env req s r s' -> daemon_inv s'.
Proof using.
  intros [V D R M L C] Hc. destruct Hc as [r cache files _ _|r _|r new cache files parked watch _ _ _ Hv _ Hf Hp
    |new live code Hv _ (Hb & Hl & Hk & _) Hs Hcode|code r _ Hlan]; [by constructor|by constructor|..].
  - apply frame_symlink in Hf as [Hf1 Hf2]. constructor; cbn; [done|by left| |exact (routed_markers (env_fs env) _ _ watch)|..].
    + by exists parked.
    + by rewrite Hf1.
    + by rewrite Hf2.
  - constructor; cbn; [|by left| |done|..].
    + by destruct Hv as [Hv|Hv]; rewrite Hv.
    + destruct R as (parked & Hp & HR). exists parked. rewrite Hb, Hl. split; [|done].
      eapply Forall_impl; [exact Hp|]. intros x. by apply scanned_quiet.
    + destruct Hs as [->|[-> ->]]; [done|exact L].
    + destruct Hcode as [->|[-> [-> | ->]]]; [by intros []|exact C|done].
  - constructor; cbn; done.
Qed.

Lemma watch_inv env s : daemon_inv s -> daemon_inv (recompute env s).2.
Proof using.
  intros [V D R M L C]. unfold recompute, build_routing.
  destruct (scan_sites _ _ _ _) as [res cache] eqn:Es. destruct res as [[sites watch]|e]; cbn [mbind result_bind snd].
  - apply scan_sites_split in Es as (parked & -> & Hp).
    constructor; cbn; [done|done| |exact (routed_markers (env_fs env) _ _ watch)|done|done]. by exists parked.
  - by constructor.
Qed.

Lemma saver_inv env new s :
  daemon_inv s -> quiet (ds_config s) new -> cf_symlink_protection new = cf_symlink_protection (ds_config s) ->
  cf_lan_enabled new = cf_lan_enabled (ds_config s) -> daemon_inv (port_setter env new s).2.
Proof using H J.
  intros I Hq Hs Hl. eapply change_inv; [exact I|]. apply (save_reply env Ping); auto.
Qed.

Lemma step_inv s s' : daemon_inv s -> daemon_step s s' -> daemon_inv s'.
Proof using.
  intros I Hs. destruct Hs as [env req r s' E|env|env name uuid|env name|sha|now g path query].
  - eapply change_inv; [exact I|]. by apply (dispatch_change env req).
  - by apply watch_inv.
  - by apply saver_inv; auto.
  - by apply saver_inv; auto.
  - destruct I as [V D R M L C]. by constructor.
  - destruct I as [V D R M L C]. unfold decide_setup, consume_code.
    destruct g; [|by constructor]. destruct (classify path); [|by constructor].
    destruct (extract_code query) as [cand|]; [|by constructor].
    destruct (redeem now cand (ds_remote_setup_code s)) as [ok code] eqn:E. cbn [snd negb].
    constructor; cbn; try done. intros Hc. apply C. destruct ok.
    + apply redeem_true in E as (c & -> & _). eauto.
    + apply redeem_false in E as <-. done.
Qed.

Lemma boot_inv toml_from_str try_into path read fs bound_http bound_https lan_ip s :
  bring_up fs (Config_load toml_from_str try_into path read) bound_http bound_https lan_ip = Ok s -> daemon_inv s.
Proof using.
  unfold bring_up. rewrite bind_ok. intros (c & Hc & Hr). rewrite bind_ok in Hr. destruct Hr as (rt & Hrt & [= <-]).
  revert Hrt. unfold build_routing. destruct (scan_sites _ _ _ _) as [res cache] eqn:Es.
  destruct res as [[sites watch]|e]; [|done]. cbn [mbind result_bind fst]. intros [= <-].
  apply scan_sites_split in Es as (parked & -> & Hp).
  assert (validate c = Ok tt /\ (result_ok (Config_load toml_from_str try_into path read) = Some c \/
    result_ok (Config_load toml_from_str try_into path read) = None /\ c = Config_default)) as [Hv Hd].
  { revert Hc. unfold load_or_default_config. destruct (Config_load _ _ _ _) as [c'|e] eqn:El.
    - intros [= <-]. split; [|by left]. unfold Config_load in El. rewrite bind_ok in El. destruct El as (t & _ & Hp').
      by apply parse_toml_valid in Hp'.
    - destruct e as [| | |? []| | | |]; try done. intros [= <-]. split; [apply Config_default_valid|by right]. }
  constructor; cbn; [done|done| |exact (routed_markers fs _ _ watch)|done|by intros [? [=]]].
  by exists parked.
Qed.

End Steps.
