(* ===== verification/DaemonClaims.v ===== *)
(** * The daemon's guarantees

    The claims about [Daemon]'s requests, from the contract of [DaemonInv]: the
    invariant of every reachable state, what a refused request may change, and
    that no request adds one of the daemon's own listeners as an upstream. *)

From S2P Require Import Prelude RustStr RustMap RustPath CoreError DnsLabel Tld Domain Php Net Site Proxy Router Project Settings Config Migrate Wire Serialize SiteDomains Descriptor Ipc Mutate MutateValid Storable MutateEffects Link Scan Daemon LanSetup DaemonInv.

Open Scope N_scope.

(** ** Upstreams *)

(** The upstreams a configuration forwards to. *)
Inductive upstream_of (c : Config) (t : UpstreamTarget) : Prop :=
| up_proxy p : p ∈ cf_proxies c -> proxy_target p = t -> upstream_of c t
| up_project p q : p ∈ cf_projects c -> proxy_site p = Ok q -> proxy_target q = t -> upstream_of c t
| up_rule (linked : bool) key rs rule :
    proxy_rules_map linked c !! key = Some rs -> rule ∈ rs -> rule_target rule = t -> upstream_of c t.

(** The sections upstreams come from. *)
Definition upstream_sections (c : Config) := (cf_proxies c, cf_projects c, cf_proxy_rules c).

Lemma upstream_same c c' t : upstream_sections c' = upstream_sections c -> upstream_of c' t -> upstream_of c t.
Proof.
  intros [= H1 H2 H3] [p Hp|p q Hp|l k rs rule Hk].
  - rewrite H1 in Hp. by eapply up_proxy.
  - rewrite H2 in Hp. by eapply up_project.
  - unfold proxy_rules_map in Hk. rewrite H3 in Hk. by eapply (up_rule _ _ l).
Qed.

(** What a command may add. *)
Definition named_target (req : Request) (t : UpstreamTarget) : Prop :=
  match req with
  | AddProxy _ url | AddProxyRule _ _ url => from_url_str url = Ok t
  | _ => False
  end.

Lemma sections_delta_put t o c : upstream_sections (delta_put t o c) = upstream_sections c.
Proof. by destruct t. Qed.
Lemma sections_prune t c : upstream_sections (prune_delta t c) = upstream_sections c.
Proof. unfold prune_delta. destruct (delta_get c t) as [d|]; [|done]. destruct (_ d); [apply sections_delta_put|done]. Qed.
Lemma sections_delta_mut t c : upstream_sections (delta_mut c t).2 = upstream_sections c.
Proof. apply sections_delta_put. Qed.

(** The commands that leave those sections alone. *)
Lemma quiet_sections r req canonical php c :
  match req with
  | Link _ _ | Unlink _ | Unpark _ | ReqSetSecure _ _ | AddProxy _ _ | RemoveProxy _ | AddProxyRule _ _ _
  | RemoveProxyRule _ _ => false
  | _ => true
  end = true ->
  upstream_sections (apply r req canonical php c).2 = upstream_sections c.
Proof.
  destruct req; cbn [apply]; try done; intros _.
  all: unfold apply_park, apply_set_front_controller, apply_add_route_rule,
    apply_remove_route_rule, apply_create_group, apply_delete_group, apply_set_group_order, apply_set_site_group,
    apply_rename_group, apply_add_domain, apply_remove_domain, apply_set_primary_domain, apply_reset_domains,
    put_route_rules_map, applied.
  all: repeat (case_match; cbn [snd]); try done.
  all: rewrite ?sections_prune, ?sections_delta_put;
    match goal with H : delta_mut _ _ = _ |- _ => apply (f_equal snd) in H; cbn [snd] in H; subst end;
    apply sections_delta_mut.
Qed.

Lemma secure_proxy_site b p q :
  proxy_site (project_set_secure b p) = Ok q -> exists q', proxy_site p = Ok q' /\ proxy_target q' = proxy_target q.
Proof.
  unfold proxy_site, upstream. cbn [project_port project_name project_set_secure].
  destruct (from_url_str _) as [t|]; [|done]. cbn [mbind result_bind].
  destruct (ProxySite_new _ t) as [x|]; [|done]. cbn [mbind result_bind]. intros [= <-]. by eexists.
Qed.

(** The same upstreams, from rule maps whose values all come from the old ones. *)
Lemma upstream_rules c c' t :
  cf_proxies c' = cf_proxies c -> cf_projects c' = cf_projects c ->
  (forall l key rs, proxy_rules_map l c' !! key = Some rs -> forall rule, rule ∈ rs ->
     upstream_of c (rule_target rule)) ->
  upstream_of c' t -> upstream_of c t.
Proof.
  intros H1 H2 H3 [p Hp <-|p q Hp Hq <-|l k rs rule Hk Hr <-]; [| |by eapply H3].
  - rewrite H1 in Hp. by eapply up_proxy.
  - rewrite H2 in Hp. by eapply up_project.
Qed.

Lemma rules_known c l key rs : proxy_rules_map l c !! key = Some rs ->
  forall rule, rule ∈ rs -> upstream_of c (rule_target rule).
Proof. intros Hk rule Hr. by eapply up_rule. Qed.

Lemma link_upstreams name canonical php c t :
  upstream_of (apply_link name canonical php c).2 t -> upstream_of c t.
Proof.
  unfold apply_link. destruct canonical as [p|]; [|done]. destruct (Site_linked _ _ _) as [s|]; [|done]. cbn zeta.
  destruct (has_linked c _); [done|]. cbn [applied snd]. apply upstream_rules; [done..|].
  destruct (move_entry_values (fun rs => forall rule, rule ∈ rs -> upstream_of c (rule_target rule))
    (override_key s) (site_name s) (proxy_rules_parked (cf_proxy_rules c)) (proxy_rules_linked (cf_proxy_rules c)))
    as [Hf Ht].
  - intros x v. exact (rules_known c false x v).
  - intros x v. exact (rules_known c true x v).
  - intros [] key rs Hk; cbn in Hk; [eapply Ht|eapply Hf]; exact Hk.
Qed.

Lemma unlink_upstreams r name c t : upstream_of (apply_unlink r name c).2 t -> upstream_of c t.
Proof.
  unfold apply_unlink. destruct (find_first _ (cf_projects c)) as [x|] eqn:Ef; cbn zeta.
  { cbn [applied snd]. intros [p Hp|p q Hp|l k rs rule Hk].
    - by eapply up_proxy.
    - cbn in Hp. apply elem_of_bfilter in Hp as [_ Hp]. by eapply up_project.
    - by eapply (up_rule _ _ l). }
  destruct (find_first _ (cf_linked c)) as [s|] eqn:El; [|done]. cbn [applied snd].
  apply upstream_rules; [done..|].
  destruct (demote_entry_values (fun rs => forall rule, rule ∈ rs -> upstream_of c (rule_target rule))
    (parent_is_parked_root c (override_key s)) (to_ascii_lowercase name) (override_key s)
    (proxy_rules_linked (cf_proxy_rules c)) (proxy_rules_parked (cf_proxy_rules c))) as [Hf Ht].
  - intros y v. exact (rules_known c true y v).
  - intros y v. exact (rules_known c false y v).
  - intros [] key rs Hk; cbn in Hk; [eapply Hf|eapply Ht]; exact Hk.
Qed.

Lemma unpark_upstreams path c t : upstream_of (apply_unpark path c).2 t -> upstream_of c t.
Proof.
  unfold apply_unpark. cbn zeta. cbn [applied snd]. apply upstream_rules; [done..|].
  intros [] key rs Hk; cbn in Hk; [exact (rules_known c true key rs Hk)|].
  apply retain_keys_Some in Hk as [Hk _]. exact (rules_known c false key rs Hk).
Qed.

Lemma secure_upstreams r name b c t : upstream_of (apply_set_secure r name b c).2 t -> upstream_of c t.
Proof.
  unfold apply_set_secure. cbn zeta. destruct (has_linked c _); [by apply upstream_same|].
  destruct (get r _) as [s|]; [by apply upstream_same|]. destruct (has_proxy c _).
  { cbn [applied snd]. intros [p Hp <-|p q Hp|l k rs rule Hk].
    - cbn in Hp. apply elem_of_update_first in Hp as (y & Hy & [->| ->]); by eapply up_proxy.
    - by eapply up_project.
    - by eapply (up_rule _ _ l). }
  destruct (existsb _ _); [|done]. cbn [applied snd]. intros [p Hp <-|p q Hp Hq <-|l k rs rule Hk].
  - by eapply up_proxy.
  - cbn in Hp. apply elem_of_update_first in Hp as (y & Hy & [->| ->]); [by eapply up_project|].
    apply secure_proxy_site in Hq as (q' & Hq & Ht). rewrite <- Ht. by eapply up_project.
  - by eapply (up_rule _ _ l).
Qed.

Lemma add_proxy_upstreams r name url c t :
  upstream_of (apply_add_proxy r name url c).2 t -> upstream_of c t \/ from_url_str url = Ok t.
Proof.
  unfold apply_add_proxy. destruct (from_url_str url) as [target|]; [|by left]. cbn [map_err mbind result_bind].
  destruct (reject_loop_target c target); [|by left]. cbn [map_err mbind result_bind].
  unfold ProxySite_new. destruct (validate_proxy_name name) as [n|]; [|by left]. cbn [map_err mbind result_bind].
  cbn zeta. destruct (_ || _); [by left|]. destruct (domain_owner r _); [by left|]. cbn [applied snd].
  intros [p Hp <-|p q Hp Hq <-|l k rs rule Hk Hr <-].
  - cbn in Hp. apply elem_of_app in Hp as [Hp|Hp%list_elem_of_singleton]; [left; by eapply up_proxy|].
    subst p. by right.
  - left. by eapply up_project.
  - left. by eapply (up_rule _ _ l).
Qed.

Lemma put_rules_upstreams linked m c t :
  (forall key rs, m !! key = Some rs -> forall rule, rule ∈ rs -> rule_target rule = t -> upstream_of c t) ->
  upstream_of (put_proxy_rules_map linked m c) t -> upstream_of c t.
Proof.
  intros Hm [p Hp Ht|p q Hp Hq Ht|l k rs rule Hk Hr Ht].
  - by eapply up_proxy.
  - by eapply up_project.
  - destruct linked, l; cbn in Hk; eauto; [by eapply (up_rule _ _ false)|by eapply (up_rule _ _ true)].
Qed.

Lemma add_rule_upstreams r site prefix url c t :
  upstream_of (apply_add_proxy_rule r site prefix url c).2 t -> upstream_of c t \/ from_url_str url = Ok t.
Proof.
  unfold apply_add_proxy_rule. destruct (from_url_str url) as [target|]; [|by left]. cbn [map_err mbind result_bind].
  destruct (reject_loop_target c target); [|by left]. cbn [map_err mbind result_bind].
  destruct (ProxyRule_new prefix target) as [rule|] eqn:En; [|by left]. cbn [map_err mbind result_bind].
  destruct (site_rule_key r _) as [[linked key]|]; [|by left]. cbn [ok_or mbind result_bind].
  assert (rule_target rule = target) as Hrt by (unfold ProxyRule_new in En; cbn zeta in En; repeat case_match; simplify_eq/=; done).
  set (m := proxy_rules_map linked c). set (rules := default [] (m !! key)).
  assert (forall x, x ∈ rules -> rule_target x = t -> upstream_of c t) as Hold.
  { intros x Hx Ht. subst rules. destruct (m !! key) as [rs|] eqn:Em; [|by apply elem_of_nil in Hx].
    by eapply (up_rule _ _ linked). }
  assert (forall k rs, m !! k = Some rs -> forall x, x ∈ rs -> rule_target x = t -> upstream_of c t) as Hm.
  { intros k rs Hk x Hx Ht. by eapply (up_rule _ _ linked). }
  destruct (existsb _ rules); cbn [applied snd].
  - intros H. left. revert H. apply put_rules_upstreams.
    intros k rs [[<- <-]|[_ Hk]]%lookup_insert_Some; [exact Hold|exact (Hm _ _ Hk)].
  - destruct (decide (target = t)) as [->|Hne]; [by right|]. intros H. left. revert H. apply put_rules_upstreams.
    intros k rs [[<- <-]|[_ Hk]]%lookup_insert_Some; [|exact (Hm _ _ Hk)].
    intros x [Hx| ->%list_elem_of_singleton]%elem_of_app; [by apply Hold|]. rewrite Hrt. congruence.
Qed.

Lemma remove_rule_upstreams r site prefix c t :
  upstream_of (apply_remove_proxy_rule r site prefix c).2 t -> upstream_of c t.
Proof.
  unfold apply_remove_proxy_rule. cbn zeta. destruct (site_rule_key r _) as [[linked key]|]; [|done].
  destruct (proxy_rules_map linked c !! key) as [rules|] eqn:Em; [|done].
  set (rules' := bfilter _ rules).
  assert (forall k rs, <[key := rules']> (proxy_rules_map linked c) !! k = Some rs ->
    forall x, x ∈ rs -> rule_target x = t -> upstream_of c t) as Hm.
  { intros k rs [[<- <-]|[_ Hk]]%lookup_insert_Some x Hx Ht.
    - apply elem_of_bfilter in Hx as [_ Hx]. by eapply (up_rule _ _ linked).
    - by eapply (up_rule _ _ linked). }
  destruct (_ =? _); cbn [applied snd]; apply put_rules_upstreams; [exact Hm|].
  destruct (is_empty rules'); [|exact Hm].
  intros k rs [_ Hk]%lookup_delete_Some x Hx Ht. by eapply (up_rule _ _ linked).
Qed.

Lemma remove_proxy_upstreams name c t : upstream_of (apply_remove_proxy name c).2 t -> upstream_of c t.
Proof.
  unfold apply_remove_proxy. cbn zeta. intros H.
  assert (upstream_of (put_proxies (bfilter (fun p => negb (str_eqb (proxy_name p) (to_ascii_lowercase name)))
    (cf_proxies c)) c) t) as [p Hp Ht|p q Hp Hq Ht|l k rs rule Hk Hr Ht].
  { revert H. destruct (_ =? _); [done|]. cbn [applied snd]. by apply upstream_same. }
  - cbn in Hp. apply elem_of_bfilter in Hp as [_ Hp]. by eapply up_proxy.
  - by eapply up_project.
  - by eapply (up_rule _ _ l).
Qed.

Lemma apply_upstreams r req canonical php c t :
  upstream_of (apply r req canonical php c).2 t -> upstream_of c t \/ named_target req t.
Proof.
  destruct req;
    try (intros H; left; revert H; apply upstream_same; by apply quiet_sections); cbn [apply named_target].
  - intros H. left. revert H. apply link_upstreams.
  - intros H. left. revert H. apply unlink_upstreams.
  - intros H. left. revert H. apply unpark_upstreams.
  - intros H. left. revert H. apply secure_upstreams.
  - apply add_proxy_upstreams.
  - intros H. left. revert H. apply remove_proxy_upstreams.
  - apply add_rule_upstreams.
  - intros H. left. revert H. apply remove_rule_upstreams.
Qed.

(** ** Claims about requests *)

Section Claims.
Context `{Json J}.

Lemma web_root_sections fs c r name path c' :
  resolve_web_root_mutation fs c r name path = Ok c' -> upstream_sections c' = upstream_sections c.
Proof using.
  unfold resolve_web_root_mutation. destruct (find_first _ _) as [site|].
  - rewrite bind_ok. by intros (rel & _ & [= <-]).
  - destruct (get r _) as [p|]; [|done]. destruct path as [q|].
    + rewrite bind_ok. by intros (rel & _ & [= <-]).
    + destruct (cf_overrides c !! _) as [ov|]; [|by intros [= <-]].
      repeat case_match; by intros [= <-].
Qed.

Lemma mutated_upstreams env req s new t :
  mutated env req s = Ok new -> upstream_of new t -> upstream_of (ds_config s) t \/ named_target req t.
Proof using.
  unfold mutated. rewrite bind_ok. intros (canonical & _ & H'). rewrite bind_ok in H'. destruct H' as (c & Hc & [= <-]).
  intros Ht0. assert (upstream_of c t) as Ht.
  { revert Ht0. apply upstream_same. destruct req; try done. by destruct canonical. }
  assert (forall a, apply (ds_router s) req canonical (php_default (cf_php (ds_config s))) (ds_config s) = (Ok a, c) ->
    upstream_of (ds_config s) t \/ named_target req t) as Ha.
  { intros a E. apply (f_equal snd) in E. cbn [snd] in E. subst c. by eapply apply_upstreams. }
  unfold applied_of in Hc.
  destruct req; try (destruct (apply _ _ _ _ _) as [[a|e] c0]; [|done]; injection Hc as <-; by eapply Ha).
  left. eapply upstream_same; [|exact Ht]. by eapply web_root_sections.
Qed.

Lemma committed_upstreams env req s new t :
  committed_by env req s new -> upstream_of new t ->
  upstream_of (ds_config s) t \/ targets_bound_listener t (bound_ports s) = false.
Proof using.
  intros Hb Ht.
  assert ((mutated env req s = Ok new /\ (named_target req t -> targets_bound_listener t (bound_ports s) = false)) \/
    is_link_project req = true) as [[Hm Hn]|Hl].
  { destruct req; cbn [named_target is_link_project committed_by] in *; try (by right); left; try done;
      destruct Hb as [Hf Hm]; (split; [done|]); unfold is_self_forward in Hf; intros E; by rewrite E in Hf. }
  - destruct (mutated_upstreams env req s new t Hm Ht); auto.
  - destruct req; try done. destruct Hb as (root & yml & project & w & _ & Hr & ->).
    destruct Ht as [p Hp Ht|p q Hp Hq Ht|l k rs rule Hk Hi Ht].
    + left. by eapply up_proxy.
    + cbn in Hp. apply elem_of_app in Hp as [Hp|Hp%list_elem_of_singleton]; [left; by eapply up_project|]. subst p t.
      right. unfold project_loop_refusal in Hr. rewrite Hq in Hr. by destruct (targets_bound_listener _ _).
    + left. by eapply (up_rule _ _ l).
Qed.

Lemma quiet_upstreams c c' t : quiet c c' -> upstream_of c' t -> upstream_of c t.
Proof using. intros (_ & _ & _ & H1 & H2 & H3 & _). apply upstream_same. unfold upstream_sections. by rewrite H1, H2, H3. Qed.

Lemma change_upstreams env req s r s' t :
  daemon_change env req s r s' -> upstream_of (ds_config s') t ->
  upstream_of (ds_config s) t \/ targets_bound_listener t (bound_ports s) = false.
Proof using.
  intros [r0 cache files _ _|r0 _|r0 new cache files parked watch _ _ Hb _ _ _ _|new live code _ _ Hq _ _|code r0 _ _] Ht;
    cbn in Ht; auto.
  - by eapply committed_upstreams.
  - left. by eapply quiet_upstreams.
Qed.

Lemma change_ports env req s r s' : daemon_change env req s r s' -> bound_ports s' = bound_ports s.
Proof using. by intros []. Qed.

Lemma saver_change env new s :
  quiet (ds_config s) new -> cf_symlink_protection new = cf_symlink_protection (ds_config s) ->
  cf_lan_enabled new = cf_lan_enabled (ds_config s) ->
  daemon_change env Ping s (port_setter env new s).1 (port_setter env new s).2.
Proof using. intros. apply (save_reply env Ping); auto. Qed.

Lemma recompute_config env s : ds_config (recompute env s).2 = ds_config s /\ bound_ports (recompute env s).2 = bound_ports s.
Proof using. unfold recompute. destruct (build_routing _ _ _) as [[rt|e] cache]; done. Qed.

Lemma step_upstreams s s' t :
  daemon_step s s' ->
  bound_ports s' = bound_ports s /\
  (upstream_of (ds_config s') t -> upstream_of (ds_config s) t \/ targets_bound_listener t (bound_ports s) = false).
Proof using.
  intros [env req r s1 E%dispatch_change|env|env name uuid|env name|sha|now g path query].
  - split; [by eapply change_ports|]. by apply (change_upstreams env req s r).
  - destruct (recompute_config env s) as [-> ->]. auto.
  - pose proof (saver_change env (put_tunnel (mkTunnel (<[name := uuid]> (tunnel_named (cf_tunnel (ds_config s))))
      (tunnel_sites (cf_tunnel (ds_config s)))) (ds_config s)) s) as Hc.
    split; [eapply change_ports, Hc; auto|]. apply (change_upstreams env Ping s (record_named_tunnel env name uuid s).1), Hc; auto.
  - pose proof (saver_change env (put_tunnel (mkTunnel (delete name (tunnel_named (cf_tunnel (ds_config s)))) ∅)
      (ds_config s)) s) as Hc.
    split; [eapply change_ports, Hc; auto|]. apply (change_upstreams env Ping s (forget_named_tunnel env name s).1), Hc; auto.
  - auto.
  - unfold decide_setup, consume_code. destruct g; [|auto]. destruct (classify path); [|auto].
    destruct (extract_code query) as [cand|]; [|auto]. destruct (redeem _ _ _) as [ok code]. destruct ok; auto.
Qed.

(** C1. In every state the daemon reaches, whatever requests, watcher refreshes,
    tunnel records and setup requests came and whatever the system answered:
    the configuration validates; the file holds exactly it, or nothing yet on a
    first boot, when it is the default; the router is the one built from it and
    from sites really found in its parked folders; every route has its
    detection markers; the live symlink switch is the configured one; and a
    remote-setup code exists only while LAN mode is on. *)
Theorem daemon_invariant toml_from_str try_into path read fs bound_http bound_https lan_ip s0 s
    (B : bring_up fs (Config_load toml_from_str try_into path read) bound_http bound_https lan_ip = Ok s0)
    (R : rtc daemon_step s0 s) :
  daemon_inv s /\ router_matches (ds_config s) (ds_router s).
Proof using.
  assert (daemon_inv s) as I; [|split; [done|by apply inv_matches]].
  apply boot_inv in B. induction R as [s|s s1 s2 Hs _ IH]; [done|]. apply IH. by eapply step_inv.
Qed.

(** C2. A request is all or nothing.  Refused, it changes neither the
    configuration nor its file, the router, the markers, the live symlink
    switch or the setup code: only the detection cache and, when a project is
    linked, the descriptor written before the refusal.  Answered otherwise, the
    configuration is unchanged with its file and router, or it validates and
    the file holds it. *)
Theorem requests_all_or_nothing env req s r s' (V : validate (ds_config s) = Ok tt)
    (D : dispatch env req s = Some (r, s')) :
  if is_error r
  then exists cache files, s' = set_detect_cache cache (set_descriptors files s) /\
         (is_link_project req = false -> files = ds_descriptors s)
  else ds_config s' = ds_config s /\ ds_disk s' = ds_disk s /\ ds_router s' = ds_router s \/
       env_save env = Ok tt /\ validate (ds_config s') = Ok tt /\ ds_disk s' = Some (ds_config s').
Proof using.
  apply dispatch_change in D.
  destruct D as [r0 cache files Hr Hf|r0 Hr|r0 new cache files parked watch Hr _ _ Hv He _ _|new live code Hv He _ _ _|code r0 Hr _].
  - rewrite Hr. eauto.
  - rewrite Hr. auto.
  - rewrite Hr. auto.
  - cbn. right. split; [done|]. split; [|done]. destruct Hv as [Hv|Hv]; [done|]. by rewrite Hv.
  - rewrite Hr. auto.
Qed.

Lemma reached_upstreams s s' t : rtc daemon_step s s' -> upstream_of (ds_config s') t ->
  upstream_of (ds_config s) t \/ targets_bound_listener t (bound_ports s) = false.
Proof using.
  intros R T. induction R as [s|s s1 s2 Hs _ IH]; [by left|]. destruct (step_upstreams s s1 t Hs) as [Hp Hu].
  destruct (IH T) as [Ht|Ht]; [auto|]. right. by rewrite <- Hp.
Qed.

(** ** The daemon's own listeners *)

(** An upstream that is one of the daemon's listeners on the loopback: one of the two bound ports, on [localhost], on
    an address that reads as 127.x.x.x, or on one that reads as ::1. *)
Definition own_listener (s : DaemonState) (t : UpstreamTarget) : Prop :=
  (target_port t = ps_bound (ds_http s) \/ target_port t = ps_bound (ds_https s)) /\
  (target_host t = "localhost"%str \/
   (exists b c d, parse_ip (target_host t) = Some (V4 (mkV4 127 b c d))) \/
   parse_ip (target_host t) = Some (V6 (mkV6 [0; 0; 0; 0; 0; 0; 0; 1]))).

Lemma loopback_host h :
  str_eqb h "localhost" || match parse_ip h with Some ip => is_loopback ip | None => false end = true <->
  h = "localhost"%str \/ (exists b c d, parse_ip h = Some (V4 (mkV4 127 b c d))) \/
  parse_ip h = Some (V6 (mkV6 [0; 0; 0; 0; 0; 0; 0; 1])).
Proof using.
  unfold str_eqb. rewrite orb_true_iff, bool_decide_eq_true. apply or_iff_compat_l.
  destruct (parse_ip h) as [[[a b c d]|[segs]]|]; cbn; [| |naive_solver].
  - unfold v4_is_loopback. cbn. rewrite N.eqb_eq. naive_solver.
  - unfold v6_is_loopback. cbn. rewrite bool_decide_eq_true. naive_solver.
Qed.

Lemma own_listener_guarded s t : own_listener s t <-> targets_bound_listener t (bound_ports s) = true.
Proof using.
  unfold own_listener, targets_bound_listener, bound_ports. cbv zeta. rewrite andb_true_iff, loopback_host. cbn [existsb].
  rewrite !orb_true_iff, !N.eqb_eq. intuition congruence.
Qed.

Lemma reached_ports s s' : rtc daemon_step s s' -> bound_ports s' = bound_ports s.
Proof using.
  induction 1 as [s|s s1 s2 Hs _ IH]; [done|]. rewrite IH. by destruct (step_upstreams s s1 (mkTarget false [] 0) Hs).
Qed.

Lemma reached_no_loops s s' t : rtc daemon_step s s' -> upstream_of (ds_config s') t -> own_listener s' t ->
  upstream_of (ds_config s) t.
Proof using.
  intros R T Ho%own_listener_guarded. rewrite (reached_ports s s' R) in Ho.
  destruct (reached_upstreams s s' t R T) as [?|Hf]; [done|congruence].
Qed.

(** C3. The daemon never learns a loop onto itself.  After any steps, an upstream of its configuration (a proxy, a
    container project or a path rule) that is one of its own listeners, by [localhost], by an address that reads as
    127.x.x.x or by one that reads as ::1, was there at the start; and a request to add a proxy or a path rule onto
    one is refused and changes nothing at all.  Other spellings of the loopback, such as an IPv4-mapped address, are
    not recognised ([mapped_loopback_unguarded]). *)
Theorem no_new_loops s s' (R : rtc daemon_step s s') :
  (forall t, upstream_of (ds_config s') t -> own_listener s' t -> upstream_of (ds_config s) t) /\
  (forall env req t, named_target req t -> own_listener s' t -> dispatch env req s' = Some (self_forward_refusal, s')).
Proof using.
  split; [intros t; by apply reached_no_loops|]. intros env req t Hn Ho%own_listener_guarded.
  destruct req; try done; cbn in Hn |- *; unfold is_self_forward; by rewrite Hn, Ho.
Qed.

End Claims.

(** ** Witnesses *)

Definition demo_env : Env := mkEnv (demo_fs true) (Ok tt) (Ok tt) (fun _ => true) None [] 0.
Definition demo_state : DaemonState :=
  mkState Config_default None ∅ demo_router0 ∅ ∅ ∅ (mkPortStatus 80 8080 true) (mkPortStatus 443 8443 true)
    true None false None None.
Definition demo_add : Request := AddProxy "api"%str "http://127.0.0.1:3000"%str.
Definition demo_loop : Request := AddProxy "api"%str "http://localhost:8080"%str.

Lemma daemon_invariant_witness :
  let load := Config_load (fun _ => Err []) (fun _ => Err []) "/etc/orcker.toml"%str (Err IoNotFound) in
  match bring_up (demo_fs true) load 8080 8443 None with
  | Ok s0 =>
      match dispatch demo_env (Park "/srv"%str) s0 with
      | Some (r, s) => r = RespOk /\ daemon_inv s /\ router_matches (ds_config s) (ds_router s) /\
                       (get (ds_router s) "my-blog"%str <> None)
      | None => False
      end
  | Err _ => False
  end.
Proof.
  intros load.
  assert (match bring_up (demo_fs true) load 8080 8443 None with
    | Ok s0 => match dispatch demo_env (Park "/srv"%str) s0 with
               | Some (RespOk, s) => bool_decide (is_Some (get (ds_router s) "my-blog"%str)) | _ => false end
    | Err _ => false end = true) as Hrun by (vm_compute; reflexivity).
  destruct (bring_up (demo_fs true) load 8080 8443 None) as [s0|] eqn:B; [|discriminate Hrun].
  destruct (dispatch demo_env (Park "/srv"%str) s0) as [[r s]|] eqn:D; [|discriminate Hrun].
  destruct r; try discriminate Hrun. split; [reflexivity|].
  destruct (daemon_invariant (fun _ => Err []) (fun _ => Err []) "/etc/orcker.toml"%str (Err IoNotFound) (demo_fs true)
    8080 8443 None s0 s B) as [I M].
  { eapply rtc_l; [|apply rtc_refl]. exact (st_request s0 demo_env _ _ s D). }
  split; [exact I|]. split; [exact M|]. apply bool_decide_eq_true in Hrun. intros E. rewrite E in Hrun.
  by destruct Hrun.
Defined.

Lemma requests_all_or_nothing_witness :
  (dispatch demo_env demo_loop demo_state = Some (self_forward_refusal, demo_state) /\
   exists cache files, demo_state = set_detect_cache cache (set_descriptors files demo_state) /\
     (is_link_project demo_loop = false -> files = ds_descriptors demo_state)) /\
  match dispatch demo_env demo_add demo_state with
  | Some (RespOk, s) => ds_config s <> ds_config demo_state /\
      (ds_config s = ds_config demo_state /\ ds_disk s = ds_disk demo_state /\ ds_router s = ds_router demo_state \/
       env_save demo_env = Ok tt /\ validate (ds_config s) = Ok tt /\ ds_disk s = Some (ds_config s))
  | _ => False
  end.
Proof.
  assert (validate (ds_config demo_state) = Ok tt) as V by (vm_compute; reflexivity).
  assert (dispatch demo_env demo_loop demo_state = Some (self_forward_refusal, demo_state)) as D1 by reflexivity.
  split; [split; [exact D1|exact (requests_all_or_nothing demo_env demo_loop demo_state _ _ V D1)]|].
  assert (match dispatch demo_env demo_add demo_state with
    | Some (RespOk, s) => has_proxy (ds_config s) "api"%str | _ => false end = true) as Hrun by (vm_compute; reflexivity).
  destruct (dispatch demo_env demo_add demo_state) as [[r s]|] eqn:D; [|discriminate Hrun].
  destruct r; try discriminate Hrun. split.
  - intros E. rewrite E in Hrun. vm_compute in Hrun. discriminate Hrun.
  - exact (requests_all_or_nothing demo_env demo_add demo_state RespOk s V D).
Defined.

(** After a proxy was added, another that points at the HTTP listener is refused. *)
Lemma no_new_loops_witness :
  match dispatch demo_env demo_add demo_state with
  | Some (_, s) =>
      own_listener s (mkTarget false "127.0.0.9"%str 8080) /\
      dispatch demo_env (AddProxy "loop"%str "HTTP://127.0.0.9:8080"%str) s = Some (self_forward_refusal, s) /\
      (upstream_of (ds_config s) (mkTarget false "127.0.0.9"%str 8080) ->
       upstream_of (ds_config demo_state) (mkTarget false "127.0.0.9"%str 8080))
  | None => False
  end.
Proof.
  assert (match dispatch demo_env demo_add demo_state with
    | Some (_, s) => bool_decide (ps_bound (ds_http s) = 8080) | None => false end = true) as Hrun by (vm_compute; reflexivity).
  destruct (dispatch demo_env demo_add demo_state) as [[r s]|] eqn:D; [|discriminate Hrun]. apply bool_decide_eq_true in Hrun.
  assert (own_listener s (mkTarget false "127.0.0.9"%str 8080)) as Ho.
  { split; [left; symmetry; exact Hrun|]. right. left. exists 0, 0, 9. reflexivity. }
  destruct (no_new_loops demo_state s (rtc_l _ _ _ _ (st_request demo_state demo_env _ _ s D) (rtc_refl _ _))) as [H1 H2].
  split; [exact Ho|]. split; [apply (H2 _ _ (mkTarget false "127.0.0.9"%str 8080)); [reflexivity|exact Ho]|].
  intros U. exact (H1 _ U Ho).
Defined.

(** What the loop guard misses: the daemon treats an IPv4-mapped loopback
    address as loopback elsewhere ([is_lan_source]), but not here. *)
Lemma mapped_loopback_unguarded :
  is_self_forward "http://[::ffff:127.0.0.1]:8080"%str [8080; 8443] = false /\
  is_self_forward "http://127.0.0.1:8080"%str [8080; 8443] = true /\
  option_map is_lan_source (parse_ip "::ffff:127.0.0.1"%str) = Some true.
Proof. by vm_compute. Qed.

(** Resetting the web root of a parked site drops its whole override when
    neither a PHP version nor a secure flag is set in it, and with it the
    front-controller and WordPress settings it still carries. *)
Lemma web_root_reset_drops fs c r name parked ov :
  find_first (named (to_ascii_lowercase name)) (cf_linked c) = None ->
  get r (to_ascii_lowercase name) = Some parked ->
  cf_overrides c !! site_document_root parked = Some ov -> ov_php ov = None -> ov_secure ov = None ->
  resolve_web_root_mutation fs c r name None =
    Ok (put_overrides (delete (site_document_root parked) (cf_overrides c)) c).
Proof.
  intros Hl Hr Ho Hp Hs. unfold resolve_web_root_mutation. rewrite Hl, Hr, Ho. cbn [ov_set_web_root ov_php ov_secure].
  by rewrite Hp, Hs.
Qed.
