(* ===== verification/Restart.v ===== *)
(** * Restarting

    What the daemon saves it can load again ([Serialize], [Storable]), and a
    restart routes as a refresh of the running daemon would: the entries a save
    leaves out say nothing to the scan or to the router. *)

From S2P Require Import Prelude RustStr RustMap RustPath CoreError DnsLabel Tld Domain Php Net Site Proxy Router Project Settings Config Migrate Wire Serialize SiteDomains Descriptor Ipc Mutate MutateValid Storable MutateEffects Link Scan Daemon LanSetup DaemonInv.

Open Scope N_scope.

(** ** The normal form routes the same *)

Lemma parts_normal (m : gmap str DomainDelta) k :
  delta_parts (nonempty_map (fun d => negb (DomainDelta_is_empty d)) m !! k) = delta_parts (m !! k).
Proof.
  destruct (m !! k) as [d|] eqn:E.
  - destruct (DomainDelta_is_empty d) eqn:Ee.
    + assert (nonempty_map (fun d => negb (DomainDelta_is_empty d)) m !! k = None) as ->.
      { unfold nonempty_map. apply map_lookup_filter_None. right. intros x Hx. cbn. rewrite E in Hx.
        injection Hx as <-. by rewrite Ee. }
      unfold DomainDelta_is_empty in Ee. destruct d as [a s [p|]]; cbn in *; [by rewrite andb_false_r in Ee|].
      apply andb_true_iff in Ee as [[->%is_empty_true ->%is_empty_true]%andb_true_iff _]. done.
    + assert (nonempty_map (fun d => negb (DomainDelta_is_empty d)) m !! k = Some d) as ->; [|done].
      apply nonempty_lookup. by rewrite Ee.
  - assert (nonempty_map (fun d => negb (DomainDelta_is_empty d)) m !! k = None) as ->; [|done].
    unfold nonempty_map. apply map_lookup_filter_None. by left.
Qed.

Lemma plan_site_normal c s : plan_site (normalised c) s = plan_site c s.
Proof.
  assert (delta_parts (delta_for (normalised c) s) = delta_parts (delta_for c s)) as E.
  { unfold delta_for. destruct (site_kind s); cbn [normalised cf_domains domains_parked domains_linked]; apply parts_normal. }
  unfold plan_site. by rewrite E.
Qed.

Lemma foldl_same {A B} (f g : B -> A -> B) (l : list A) b : (forall b x, f b x = g b x) -> foldl f b l = foldl g b l.
Proof. intros H. revert b. induction l as [|x l IH]; intros b; [done|]. cbn [foldl]. by rewrite H, IH. Qed.

Lemma plan_sites_normal c sites : plan_sites (normalised c) sites = plan_sites c sites.
Proof. unfold plan_sites. f_equal. apply foldl_same. intros [seen plans] s. by rewrite plan_site_normal. Qed.

Lemma plan_proxy_normal c names p : plan_proxy (normalised c) names p = plan_proxy c names p.
Proof. unfold plan_proxy. cbn [normalised cf_domains domains_proxy]. by rewrite parts_normal. Qed.

Lemma plan_proxies_normal c plans : plan_proxies (normalised c) plans = plan_proxies c plans.
Proof.
  unfold plan_proxies. f_equal. cbn [normalised cf_proxies cf_projects]. apply foldl_same.
  intros [seen ps] p. by rewrite plan_proxy_normal.
Qed.

(** A router without rules for a name. *)
Definition no_rules (r : SiteRouter) (n : str) : Prop := r_proxy_rules r !! n = None /\ r_route_rules r !! n = None.

Lemma set_no_proxy_rules n r : no_rules r n -> set_proxy_rules n [] r = r.
Proof. intros [H _]. unfold set_proxy_rules. cbn [is_empty]. rewrite delete_id by done. by destruct r. Qed.
Lemma set_no_route_rules n r : r_route_rules r !! n = None -> set_route_rules n [] r = r.
Proof. intros H. unfold set_route_rules. cbn [is_empty]. rewrite delete_id by done. by destruct r. Qed.

(** An optional list of rules attached, with an empty one as none. *)
Lemma rules_normal {A B} (set : list A -> B -> B) (m : gmap str (list A)) k r :
  set [] r = r ->
  match nonempty_map (fun l => negb (is_empty l)) m !! k with Some rs => set rs r | None => r end =
  match m !! k with Some rs => set rs r | None => r end.
Proof.
  intros Hs. destruct (m !! k) as [l|] eqn:E.
  - destruct l as [|x l].
    + assert (nonempty_map (fun l => negb (is_empty l)) m !! k = None) as ->; [|done].
      unfold nonempty_map. apply map_lookup_filter_None. right. intros y Hy. rewrite E in Hy. by injection Hy as <-.
    + assert (nonempty_map (fun l => negb (is_empty l)) m !! k = Some (x :: l)) as ->; [|done]. by apply nonempty_lookup.
  - assert (nonempty_map (fun l => negb (is_empty l)) m !! k = None) as ->; [|done].
    unfold nonempty_map. apply map_lookup_filter_None. by left.
Qed.

Lemma attach_normal c r p : no_rules r (site_name (sp_site p)) -> attach_rules (normalised c) r p = attach_rules c r p.
Proof.
  intros Hn. unfold attach_rules. cbn zeta. set (s := sp_site p) in *.
  pose proof (set_no_proxy_rules _ _ Hn) as H1. destruct Hn as [_ Hr].
  destruct (site_kind s); cbn [normalised cf_proxy_rules cf_route_rules proxy_rules_linked proxy_rules_parked
    route_rules_linked route_rules_parked].
  all: rewrite (rules_normal (set_proxy_rules (site_name s)) _ _ r H1).
  all: apply (rules_normal (set_route_rules (site_name s))); apply set_no_route_rules; by case_match.
Qed.

Lemma attach_others c r p n : n <> site_name (sp_site p) -> no_rules r n -> no_rules (attach_rules c r p) n.
Proof.
  intros Hne [H1 H2]. unfold attach_rules. cbn zeta.
  repeat case_match; split; cbn; try done; repeat case_match; by rewrite ?lookup_insert_ne, ?lookup_delete_ne by done.
Qed.

Lemma attach_all_normal c plans r :
  NoDup ((fun p => site_name (sp_site p)) <$> plans) ->
  (forall p, p ∈ plans -> no_rules r (site_name (sp_site p))) ->
  foldl (attach_rules (normalised c)) r plans = foldl (attach_rules c) r plans.
Proof.
  revert r. induction plans as [|p plans IH]; intros r Hd Hn; [done|]. cbn [foldl].
  apply NoDup_cons in Hd as [Hp Hd]. rewrite attach_normal by (apply Hn; left). apply IH; [done|].
  intros q Hq. apply attach_others; [|apply Hn; by right]. intros E. apply Hp. rewrite <- E.
  apply list_elem_of_fmap. eauto.
Qed.

Lemma inserts_no_rules {A} (f : SiteRouter -> A -> SiteRouter) (l : list A) r n :
  (forall r x, r_proxy_rules (f r x) = r_proxy_rules r /\ r_route_rules (f r x) = r_route_rules r) ->
  no_rules r n -> no_rules (foldl f r l) n.
Proof.
  intros Hf. revert r. induction l as [|x l IH]; intros r Hr; [done|]. apply IH. destruct (Hf r x) as [H1 H2].
  destruct Hr. split; congruence.
Qed.

Lemma build_normal c sites : build (normalised c) sites = build c sites.
Proof.
  unfold build. rewrite plan_sites_normal, plan_proxies_normal. cbn [normalised cf_tld].
  apply attach_all_normal; [apply plan_sites_NoDup|]. intros p _.
  apply inserts_no_rules; [|apply inserts_no_rules; [|done]].
  - intros r [i x]. unfold insert_proxy_plan. cbn zeta. destruct (pp_shadowed _); [done|].
    unfold insert_proxy_with_domains. cbn zeta. by repeat case_match.
  - intros r [i x]. unfold insert_site_plan, insert_with_domains. cbn zeta. by repeat case_match.
Qed.

Section Scanned.
Context `{Json J} (fs : Fs).

Lemma scan_entry_normal c php root st e : scan_entry fs (normalised c) php root st e = scan_entry fs c php root st e.
Proof using. reflexivity. Qed.

Lemma scan_roots_normal c php roots st : scan_roots fs (normalised c) php roots st = scan_roots fs c php roots st.
Proof using.
  revert st. induction roots as [|root roots IH]; intros st; [done|]. cbn [scan_roots].
  destruct (fs_read_dir fs root) as [l|[|]]; [|apply IH|done].
  rewrite (foldl_same _ (scan_entry fs c php root)) by (intros; apply scan_entry_normal). apply IH.
Qed.

Lemma build_routing_normal c cache : build_routing fs (normalised c) cache = build_routing fs c cache.
Proof using.
  unfold build_routing, scan_sites. rewrite scan_roots_normal.
  change (php_default (cf_php (normalised c))) with (php_default (cf_php c)).
  change (parked_paths (normalised c)) with (parked_paths c). change (cf_linked (normalised c)) with (cf_linked c).
  destruct (scan_roots _ _ _ _ _) as [[[]|e] st]; [|done]. cbn [mbind result_bind].
  unfold routing_of. by rewrite build_normal.
Qed.

End Scanned.

(** ** Every reachable configuration can be saved *)

Section Reachable.
Context `{Json J}.

Lemma detected_storable env req canonical c : storable c -> storable (detected_of env req canonical c).
Proof using.
  intros S. unfold detected_of. destruct req; try done. destruct canonical; [|done].
  apply storable_linked; [done|]. apply update_first_all; [by apply storable_parts|by intros []].
Qed.

Lemma web_root_storable fs c r name path c' :
  resolve_web_root_mutation fs c r name path = Ok c' -> storable c -> storable c'.
Proof using.
  unfold resolve_web_root_mutation. intros E S. pose proof (storable_parts c S) as (Hl & _ & Ho & _).
  destruct (find_first _ _) as [site|].
  { apply bind_ok in E as (rel & _ & [= <-]). apply storable_linked; [done|].
    apply update_first_all; [done|by intros []]. }
  destruct (get r _) as [p|]; [|done]. destruct path as [q|].
  { apply bind_ok in E as (rel & _ & [= <-]). by apply override_storable. }
  destruct (cf_overrides c !! _) as [ov|] eqn:Eo; [|by injection E as <-].
  assert (override_stable ov) as Hov by (by apply (Ho (site_document_root p))).
  repeat case_match; injection E as <-; apply storable_overrides; try done; try (by apply all_delete);
    by apply all_insert.
Qed.

Lemma committed_storable env req s new : storable (ds_config s) -> committed_by env req s new -> storable new.
Proof using.
  intros S Hc. assert (mutated env req s = Ok new \/ is_link_project req = true) as [Hm|Hl]
    by (destruct req; cbn [committed_by is_link_project] in *; try (by right); left; tauto).
  - unfold mutated in Hm. apply bind_ok in Hm as (canonical & _ & Hm). apply bind_ok in Hm as (c & Ha & [= <-]).
    apply detected_storable.
    assert (forall a c0, apply (ds_router s) req canonical (php_default (cf_php (ds_config s))) (ds_config s) = (Ok a, c0) ->
      storable c0) as Happ.
    { intros a c0 E. apply (f_equal snd) in E. cbn [snd] in E. subst c0. apply apply_storable; [done|apply S]. }
    unfold applied_of in Ha.
    destruct req; try (destruct (apply _ _ _ _ _) as [[a|e] c0] eqn:E; [|done]; injection Ha as <-; by eapply Happ).
    by eapply web_root_storable.
  - destruct req; try done. destruct Hc as (root & yml & project & w & Hp & _ & ->).
    pose proof (plan_link_spec (ds_config s) root name port yml (env_port_free env)) as Hs. rewrite Hp in Hs.
    destruct Hs as (Hd & _). apply storable_projects; [done|]. apply snoc_all; [by apply storable_parts|].
    unfold project_stable. apply validate_name_stable. by eapply derive_name_label.
Qed.

Lemma change_storable env req s r s' : storable (ds_config s) -> daemon_change env req s r s' -> storable (ds_config s').
Proof using.
  intros S [r0 cache files _ _|r0 _|r0 new cache files parked watch _ _ Hb _ _ _ _|new live code _ _ Hq _ _|code r0 _ _];
    cbn; try done.
  - by eapply committed_storable.
  - destruct Hq as (_ & _ & _ & _ & _ & _ & Hq). auto.
Qed.

Lemma step_storable s s' : storable (ds_config s) -> daemon_step s s' -> storable (ds_config s').
Proof using.
  intros S [env req r s1 E%dispatch_change|env|env name uuid|env name|sha|now g path query].
  - by eapply change_storable.
  - unfold recompute. by destruct (build_routing _ _ _) as [[rt|e] cache].
  - eapply (change_storable env Ping); [done|]. apply save_reply; auto.
  - eapply (change_storable env Ping); [done|]. apply save_reply; auto.
  - done.
  - unfold decide_setup, consume_code. destruct g; [|done]. destruct (classify path); [|done].
    destruct (extract_code query) as [cand|]; [|done]. by destruct (redeem _ _ _) as [[] code].
Qed.

Lemma boot_storable toml_from_str try_into path read fs bound_http bound_https lan_ip s :
  bring_up fs (Config_load toml_from_str try_into path read) bound_http bound_https lan_ip = Ok s -> storable (ds_config s).
Proof using.
  unfold bring_up. rewrite bind_ok. intros (c & Hc & Hr). rewrite bind_ok in Hr. destruct Hr as (rt & _ & [= <-]). cbn.
  unfold load_or_default_config in Hc. destruct (Config_load _ _ _ _) as [c'|e] eqn:El.
  - injection Hc as <-. unfold Config_load in El. apply bind_ok in El as (t & _ & Hp). by eapply parse_toml_storable.
  - destruct e as [| | |? []| | | |]; try done. injection Hc as <-. apply Config_default_storable.
Qed.

Lemma service_reachable_inv toml_from_str try_into path read fs bound_http bound_https lan_ip s0 s :
  bring_up fs (Config_load toml_from_str try_into path read) bound_http bound_https lan_ip = Ok s0 -> rtc daemon_step s0 s ->
  storable (ds_config s) /\ validate (ds_config s) = Ok tt.
Proof using.
  intros B R. assert (daemon_inv s0 /\ storable (ds_config s0)) as [I S]
    by (split; [by eapply boot_inv|by eapply boot_storable]). clear B.
  induction R as [s|s s1 s2 Hs _ IH]; [by split; [|apply I]|].
  apply IH; [by eapply step_inv|by eapply step_storable].
Qed.

(** C4. The daemon can always be restarted.  Whatever it was asked before, what it
    saved loads again, in the normal form of its configuration; and it comes up
    with exactly the router and the detection markers that rebuilding the
    routing of the running daemon from scratch would give it. *)
Theorem restart_restores to_string_pretty toml_from_str try_into path read fs0 http0 https0 ip0 s0 s text fs http1 https1 ip1 rt
    (L : forall w text, to_string_pretty w = Ok text -> exists value, toml_from_str text = Ok value /\
           read_version value = Ok (ws_version w) /\ try_into value = Ok (reads_as w))
    (B : bring_up fs0 (Config_load toml_from_str try_into path read) http0 https0 ip0 = Ok s0)
    (R : rtc daemon_step s0 s) (W : to_toml to_string_pretty (ds_config s) = Ok text)
    (F : (build_routing fs (ds_config s) ∅).1 = Ok rt) :
  match bring_up fs (Config_load toml_from_str try_into path (Ok text)) http1 https1 ip1 with
  | Ok s' => ds_config s' = normalised (ds_config s) /\ ds_disk s' = Some (normalised (ds_config s)) /\
      ds_router s' = rt_router rt /\ ds_wordpress s' = rt_wordpress rt /\ ds_laravel s' = rt_laravel rt
  | Err _ => False
  end.
Proof using.
  destruct (service_reachable_inv _ _ _ _ _ _ _ _ _ _ B R) as [S V].
  pose proof (saved_reloads to_string_pretty toml_from_str try_into (ds_config s) text L W S V) as Hp.
  unfold bring_up, load_or_default_config, Config_load. cbn [map_err mbind result_bind]. rewrite Hp.
  cbn [mbind result_bind]. rewrite build_routing_normal, F. done.
Qed.

End Reachable.

Lemma restart_restores_witness :
  let load := Config_load (fun _ => Ok demo_value) (fun _ => Ok (reads_as (to_ser Config_default))) "/etc/orcker.toml"%str in
  match bring_up (demo_fs true) (load (Err IoNotFound)) 8080 8443 None with
  | Ok s0 =>
      match bring_up (demo_fs false) (load (Ok "document"%str)) 80 443 None with
      | Ok s => ds_config s = normalised (ds_config s0)
      | Err _ => False
      end
  | Err _ => False
  end.
Proof.
  intros load.
  destruct (bring_up (demo_fs true) (load (Err IoNotFound)) 8080 8443 None) as [s0|e] eqn:B.
  2: { assert (is_ok (bring_up (demo_fs true) (load (Err IoNotFound)) 8080 8443 None) = true) as H
         by (vm_compute; reflexivity). rewrite B in H. discriminate H. }
  assert (ds_config s0 = Config_default) as E.
  { unfold bring_up, load, Config_load, load_or_default_config in B. cbn [map_err mbind result_bind] in B.
    destruct (build_routing (demo_fs true) Config_default ∅).1 as [rt|]; [|discriminate B]. by injection B as <-. }
  destruct (build_routing (demo_fs false) Config_default ∅).1 as [rt|] eqn:F.
  2: { assert (is_ok (build_routing (demo_fs false) Config_default ∅).1 = true) as H by (vm_compute; reflexivity).
       rewrite F in H. discriminate H. }
  assert (to_toml demo_writer (ds_config s0) = Ok "document"%str) as W
    by (rewrite E; unfold to_toml, demo_writer; by rewrite decide_True).
  rewrite <- E in F.
  pose proof (restart_restores demo_writer _ _ "/etc/orcker.toml"%str (Err IoNotFound) (demo_fs true) 8080 8443 None
    s0 s0 "document"%str (demo_fs false) 80 443 None rt demo_writer_reads B (rtc_refl _ _) W F) as H.
  fold load in H. destruct (bring_up (demo_fs false) (load (Ok "document"%str)) 80 443 None); [|exact H]. apply H.
Defined.
