(* ===== verification/HttpPath.v ===== *)
(** * Request paths of the HTTP proxy

    [src/crates/orcker-proxy/src/pure/]: [redirect.rs], [query.rs],
    [try_files.rs] and [unbound.rs] (the site picker of a [localhost] request).
    Everything is a function of strings.  A file-system path is the [str] of
    [RustPath]; a percent-decoded segment goes through UTF-8. *)

From S2P Require Import Prelude RustStr RustText Utf8 RustPath.

Open Scope N_scope.

(** ** [redirect.rs] *)

(** Also [unbound::strip_host_port], which repeats it. *)
Definition strip_port (host : str) : str :=
  match strip_prefix "[" host with
  | Some rest =>
      match split_once "]"%ch rest with
      | Some (inner, _) => "["%str ++ inner ++ "]"%str
      | None => host
      end
  | None =>
      if count_char ":"%ch host =? 1 then hd host (split_char ":"%ch host) else host
  end.

Definition build_redirect_uri (host path_and_query : str) (https_port : N) : str :=
  let host_lower := to_ascii_lowercase (strip_port host) in
  let pq := if is_empty path_and_query then "/"%str else path_and_query in
  if https_port =? 443 then "https://"%str ++ host_lower ++ pq
  else "https://"%str ++ host_lower ++ ":"%str ++ show_uint https_port ++ pq.

Definition directory_redirect_location (path_and_query : str) : str :=
  let '(path, query) := match split_once "?"%ch path_and_query with
                        | Some (path, query) => (path, Some query)
                        | None => (path_and_query, None)
                        end in
  let out := if is_empty path then "/"%str
             else if ends_with "/" path then path
             else path ++ "/"%str in
  match query with Some query => out ++ "?"%str ++ query | None => out end.

(** ** [query.rs] *)

Definition get_param (query : option str) (name : str) : option str :=
  match query with
  | None => None
  | Some query =>
      find_map (fun pair => match split_once "="%ch pair with
                            | Some (key, value) => if str_eqb key name then Some value else None
                            | None => None
                            end) (split_char "&"%ch query)
  end.

Definition param_key (pair : str) : str :=
  match split_once "="%ch pair with Some (k, _) => k | None => pair end.

Definition strip_param (path_and_query name : str) : str :=
  match split_once "?"%ch path_and_query with
  | None => path_and_query
  | Some (path, query) =>
      let kept := bfilter (fun pair => negb (str_eqb (param_key pair) name))
                    (bfilter (fun pair => negb (is_empty pair)) (split_char "&"%ch query)) in
      if is_empty kept then path else path ++ "?"%str ++ join_char "&"%ch kept
  end.

(** ** [try_files.rs] *)

Definition hex_val (b : N) : option N :=
  if in_range "0"%ch "9"%ch b then Some (b - "0"%ch)
  else if in_range "a"%ch "f"%ch b then Some (b - "a"%ch + 10)
  else if in_range "A"%ch "F"%ch b then Some (b - "A"%ch + 10)
  else None.

Fixpoint percent_bytes (bs : list N) : option (list N) :=
  match bs with
  | [] => Some []
  | b :: rest =>
      if b =? "%"%ch then
        match rest with
        | h :: l :: rest' =>
            hi ← hex_val h; lo ← hex_val l; out ← percent_bytes rest'; Some (hi * 16 + lo :: out)
        | _ => None
        end
      else out ← percent_bytes rest; Some (b :: out)
  end.

Definition percent_decode (s : str) : option str := out ← percent_bytes (as_bytes s); from_utf8 out.

Definition unsafe_byte (b : N) : bool := (b =? "/"%ch) || (b =? "\"%ch) || (b =? 0).

Fixpoint resolve_loop (rel : str) (segments : list str) : option str :=
  match segments with
  | [] => Some rel
  | raw :: rest =>
      if is_empty raw then resolve_loop rel rest
      else
        seg ← percent_decode raw;
        if is_empty seg || str_eqb seg "." || str_eqb seg ".." then None
        else if existsb unsafe_byte (as_bytes seg) then None
        else resolve_loop (path_join rel seg) rest
  end.
Definition resolve_segments (path : str) : option str := resolve_loop [] (split_char slash path).

Definition before_query (url_path : str) : str := hd url_path (split_char "?"%ch url_path).

Definition static_candidate (url_path : str) : option str :=
  let path := before_query url_path in
  if is_empty path || ends_with "/" path then None
  else
    rel ← resolve_segments path;
    if is_empty rel then None else Some rel.

Definition directory_candidate (url_path : str) : option str :=
  let path := before_query url_path in
  if negb (starts_with "/" path) || (negb (str_eqb path "/") && negb (ends_with "/" path)) then None
  else resolve_segments path.

Definition ext_lower (path : str) : option str := to_ascii_lowercase <$> extension path.

Definition is_php_source (path : str) : bool :=
  match ext_lower path with
  | Some ext => bool_decide (ext ∈ ["php"%str; "phtml"%str; "php3"%str; "php4"%str; "php5"%str; "php7"%str;
                                    "phps"%str; "pht"%str])
  | None => false
  end.

Definition CONTENT_TYPES : list (list str * str) :=
  [(["html"; "htm"], "text/html; charset=utf-8"); (["css"], "text/css; charset=utf-8");
   (["js"; "mjs"; "cjs"], "text/javascript; charset=utf-8"); (["json"; "map"], "application/json");
   (["webmanifest"], "application/manifest+json"); (["svg"], "image/svg+xml"); (["ico"], "image/x-icon");
   (["png"], "image/png"); (["jpg"; "jpeg"], "image/jpeg"); (["gif"], "image/gif"); (["webp"], "image/webp");
   (["avif"], "image/avif"); (["bmp"], "image/bmp"); (["woff"], "font/woff"); (["woff2"], "font/woff2");
   (["ttf"], "font/ttf"); (["otf"], "font/otf"); (["eot"], "application/vnd.ms-fontobject");
   (["txt"], "text/plain; charset=utf-8"); (["xml"], "application/xml"); (["pdf"], "application/pdf");
   (["wasm"], "application/wasm"); (["mp4"], "video/mp4"); (["webm"], "video/webm"); (["mp3"], "audio/mpeg");
   (["wav"], "audio/wav"); (["zip"], "application/zip")]%str.

(** The arms of the [match], in order. *)
Definition content_type_for (path : str) : str :=
  match ext_lower path with
  | Some ext =>
      match find_first (fun arm => bool_decide (ext ∈ arm.1)) CONTENT_TYPES with
      | Some arm => arm.2
      | None => "application/octet-stream"%str
      end
  | None => "application/octet-stream"%str
  end.

(** ** [unbound.rs] *)

Definition SITE_COOKIE : str := "orcker-site"%str.
Definition SITE_HEADER : str := "x-orcker-site"%str.
Definition SITE_HEADER_ALIAS : str := "x-orckersite"%str.

Definition is_loopback_host (raw_host : str) : bool :=
  let bare := strip_port raw_host in
  let bare := default bare (inner ← strip_prefix "[" bare; strip_suffix "]" inner) in
  eq_ignore_ascii_case bare "localhost" || str_eqb bare "127.0.0.1" || str_eqb bare "::1".

Record SwitchParse := mkSwitch { switch_domain : str; switch_remainder : str }.

Definition parse_switch (path : str) : option SwitchParse :=
  after ← strip_prefix "/~" path;
  let '(domain, remainder) := match split_once slash after with
                              | Some (d, r) => (d, slash :: r)
                              | None => (after, "/"%str)
                              end in
  if is_empty domain then None else Some (mkSwitch domain remainder).

Definition is_clear_switch (path : str) : bool := str_eqb path "/~" || str_eqb path "/~/".

Definition parse_cookie_site (cookie_header : str) : option str :=
  find_map (fun pair => match split_once "="%ch (trim pair) with
                        | Some (k, v) => if str_eqb k SITE_COOKIE && negb (is_empty v) then Some v else None
                        | None => None
                        end) (split_char ";"%ch cookie_header).

Definition lead_char (c : N) : bool := (c =? slash) || (c =? "\"%ch).

Definition sanitize_dest (path : str) : str :=
  let trimmed := drop_while lead_char path in
  let stripped := len path - len trimmed in
  if (stripped =? 1) && starts_with "/" path then path
  else if is_empty trimmed then "/"%str
  else slash :: trimmed.

Definition build_set_cookie (site_name : str) : str :=
  SITE_COOKIE ++ "="%str ++ site_name ++ "; Path=/; HttpOnly; SameSite=Lax"%str.
Definition build_clear_cookie : str := SITE_COOKIE ++ "=; Path=/; Max-Age=0; HttpOnly; SameSite=Lax"%str.

(** The double quote, which a string literal cannot hold. *)
Definition dq : N := 34.

Definition escape_char (c : N) : str :=
  if c =? "&"%ch then "&amp;"%str
  else if c =? "<"%ch then "&lt;"%str
  else if c =? ">"%ch then "&gt;"%str
  else if c =? dq then "&quot;"%str
  else if c =? "'"%ch then "&#39;"%str
  else [c].

Definition needs_escape (b : N) : bool :=
  (b =? "&"%ch) || (b =? "<"%ch) || (b =? ">"%ch) || (b =? dq) || (b =? "'"%ch).

Definition html_escape (s : str) : str :=
  if existsb needs_escape (as_bytes s) then mjoin (escape_char <$> s) else s.

Record PickerSite := mkPicker { pk_name : str; pk_primary : str; pk_secure : bool; pk_kind : str }.

(** [name="value"] *)
Definition attr (name value : str) : str := name ++ "="%str ++ [dq] ++ value ++ [dq].

(** The em dash. *)
Definition em : str := [8212].

Definition badge_html : str :=
  "<span "%str ++ attr "class"%str "badge"%str ++ " "%str
  ++ attr "title"%str ("configured for HTTPS "%str ++ em ++ " served over plain http here"%str)
  ++ ">secure</span>"%str.

Definition site_html (dest_e : str) (s : PickerSite) : str :=
  let primary := html_escape (pk_primary s) in
  let kind := html_escape (pk_kind s) in
  let badge := if pk_secure s then badge_html else [] in
  "<a "%str ++ attr "class"%str "site"%str ++ " "%str
  ++ attr "href"%str ("/~"%str ++ primary ++ dest_e) ++ ">"%str
  ++ "<span "%str ++ attr "class"%str "site-name"%str ++ ">"%str ++ primary ++ "</span>"%str
  ++ "<span "%str ++ attr "class"%str "site-meta"%str ++ ">"%str ++ kind ++ badge ++ "</span>"%str
  ++ "</a>"%str.

(** The page, around its two constant assets. *)
Section Picker.
Variables (PICKER_CSS PICKER_LOGO : str).

Definition render_picker (sites : list PickerSite) (dest : str) : str :=
  let dest_e := html_escape dest in
  let body :=
    if is_empty sites
    then "<p "%str ++ attr "class"%str "empty"%str ++ ">No sites yet "%str ++ em
           ++ " park or link a directory first.</p>"%str
    else "<div "%str ++ attr "class"%str "list"%str ++ ">"%str
           ++ mjoin (site_html dest_e <$> sites) ++ "</div>"%str in
  "<!doctype html><html "%str ++ attr "lang"%str "en"%str ++ "><head><meta "%str
  ++ attr "charset"%str "utf-8"%str ++ "><meta "%str ++ attr "name"%str "viewport"%str ++ " "%str
  ++ attr "content"%str "width=device-width, initial-scale=1"%str ++ "><meta "%str
  ++ attr "name"%str "color-scheme"%str ++ " "%str ++ attr "content"%str "light dark"%str
  ++ "><title>Orcker "%str ++ em ++ " choose a site</title><style>"%str ++ PICKER_CSS
  ++ "</style></head><body><main "%str ++ attr "class"%str "wrap"%str ++ "><div "%str
  ++ attr "class"%str "brand"%str ++ ">"%str ++ PICKER_LOGO ++ "<h1>Orcker</h1></div><p "%str
  ++ attr "class"%str "sub"%str ++ ">Choose a site to open.</p>"%str ++ body
  ++ "<p "%str ++ attr "class"%str "opening"%str ++ ">Opening <code>"%str ++ dest_e
  ++ "</code></p><p "%str ++ attr "class"%str "note"%str
  ++ ">Served over plain <code>http://localhost</code>. Sites that force HTTPS may not load.</p>"%str
  ++ "</main></body></html>"%str.
End Picker.

(** ** Lemmas: redirects *)

Lemma directory_redirect_slash pq :
  exists path, directory_redirect_location pq = path ++ "/"%str ++
    match split_once "?"%ch pq with Some (_, q) => "?"%str ++ q | None => [] end
  /\ "?"%ch ∉ path.
Proof.
  unfold directory_redirect_location.
  assert (forall path, "?"%ch ∉ path -> exists p,
    (if is_empty path then "/"%str else if ends_with "/" path then path else path ++ "/"%str) = p ++ "/"%str
    /\ "?"%ch ∉ p) as H.
  { intros path Hp. destruct (is_empty path) eqn:E; [exists []; split; [done|set_solver]|].
    destruct (ends_with "/" path) eqn:E2; [|by exists path].
    apply ends_with_spec in E2 as (r & ->). exists r. split; [done|]. set_solver. }
  destruct (split_once "?"%ch pq) as [[a b]|] eqn:E.
  - apply split_once_Some in E as [-> Ha]. destruct (H a Ha) as (p & -> & Hp). exists p.
    by rewrite <- app_assoc.
  - apply split_once_None in E. destruct (H pq E) as (p & -> & Hp). exists p. by rewrite app_nil_r.
Qed.

(** No second redirect: the redirected path is a directory path. *)
Lemma directory_redirect_idem pq :
  directory_redirect_location (directory_redirect_location pq) = directory_redirect_location pq.
Proof.
  destruct (directory_redirect_slash pq) as (p & E & Hp). rewrite E. unfold directory_redirect_location.
  assert ("?"%ch ∉ p ++ "/"%str) as Hp' by set_solver.
  assert (is_empty (p ++ "/"%str) = false) as He by by destruct p.
  assert (ends_with "/" (p ++ "/"%str) = true) as Hs by (apply ends_with_spec; eauto).
  destruct (split_once "?"%ch pq) as [[a q]|].
  - rewrite (app_assoc p). change ((p ++ "/"%str) ++ "?"%str ++ q) with ((p ++ "/"%str) ++ "?"%ch :: q).
    by rewrite split_once_complete, He, Hs by done.
  - rewrite app_nil_r. rewrite (proj2 (split_once_None _ _) Hp'). by rewrite He, Hs.
Qed.

(** ** Lemmas: query parameters *)

(** [Uri::query] of a path and query. *)
Definition query_of (path_and_query : str) : option str := snd <$> split_once "?"%ch path_and_query.

Lemma find_map_bfilter {A B} (f : A -> option B) (p : A -> bool) l :
  (forall x, x ∈ l -> p x = false -> f x = None) -> find_map f (bfilter p l) = find_map f l.
Proof.
  induction l as [|x l IH]; intros H; [done|]. cbn. destruct (p x) eqn:E; cbn.
  - destruct (f x); [done|]. apply IH. set_solver.
  - rewrite (H x) by (set_solver || done). apply IH. set_solver.
Qed.

Definition pair_value (name pair : str) : option str :=
  match split_once "="%ch pair with
  | Some (key, value) => if str_eqb key name then Some value else None
  | None => None
  end.

Lemma get_param_join name kept :
  kept <> [] -> (forall w, w ∈ kept -> "&"%ch ∉ w) ->
  get_param (Some (join_char "&"%ch kept)) name = find_map (pair_value name) kept.
Proof. intros Hne Hk. unfold get_param. rewrite split_join; [done|done|by apply Forall_forall]. Qed.

Definition kept_pairs (query name : str) : list str :=
  bfilter (fun pair => negb (str_eqb (param_key pair) name))
    (bfilter (fun pair => negb (is_empty pair)) (split_char "&"%ch query)).

Lemma kept_no_amp query name w : w ∈ kept_pairs query name -> "&"%ch ∉ w.
Proof. intros [_ [_ H]%elem_of_bfilter]%elem_of_bfilter. by eapply split_char_no_sep. Qed.

Lemma strip_param_query pq name n :
  get_param (query_of (strip_param pq name)) n =
  match query_of pq with Some q => find_map (pair_value n) (kept_pairs q name) | None => None end.
Proof.
  unfold strip_param, query_of. destruct (split_once "?"%ch pq) as [[path q]|] eqn:E.
  - apply split_once_Some in E as [-> Hp]. cbn. fold (kept_pairs q name).
    destruct (is_empty (kept_pairs q name)) eqn:Ek.
    + apply is_empty_true in Ek. rewrite Ek. by rewrite (proj2 (split_once_None _ _) Hp).
    + apply is_empty_false in Ek.
      change (path ++ "?"%str ++ ?x) with (path ++ "?"%ch :: x). rewrite split_once_complete by done.
      cbn [fmap option_fmap option_map snd]. apply get_param_join; [done|]. intros w. apply kept_no_amp.
  - by rewrite E.
Qed.

(** The stripped parameter is gone and every other one reads as before. *)
Lemma strip_param_exact pq name n :
  get_param (query_of (strip_param pq name)) n =
  if bool_decide (n = name) then None else get_param (query_of pq) n.
Proof.
  rewrite strip_param_query. destruct (query_of pq) as [q|]; [|by destruct (bool_decide _)].
  destruct (bool_decide (n = name)) eqn:E; bprop.
  - subst. apply find_map_None. intros w [Hw _]%elem_of_bfilter. unfold pair_value, param_key in *.
    destruct (split_once "="%ch w) as [[k v]|]; [|done]. by destruct (str_eqb k name).
  - unfold kept_pairs. rewrite !find_map_bfilter; [done| |].
    + intros w _ Hw. by destruct w.
    + intros w _ Hw. unfold pair_value, param_key, str_eqb in *.
      destruct (split_once "="%ch w) as [[k v]|]; [|done]. bprop. subst. rewrite bool_decide_false by done. done.
Qed.

Lemma strip_param_no_fragment pq name c :
  c ∉ pq -> c <> "?"%ch -> c <> "&"%ch -> c ∉ strip_param pq name.
Proof.
  intros Hc Hq Ha. unfold strip_param. destruct (split_once "?"%ch pq) as [[path query]|] eqn:E; [|done].
  apply split_once_Some in E as [-> _]. cbv zeta. fold (kept_pairs query name).
  destruct (is_empty (kept_pairs query name)); [set_solver|].
  change (path ++ "?"%str ++ ?x) with (path ++ "?"%ch :: x). rewrite elem_of_app, elem_of_cons.
  intros [Hp|[?|Hj]]; [set_solver|done|]. apply elem_of_join_char in Hj as [?|(w & [_ [_ Hw]%elem_of_bfilter]%elem_of_bfilter & Hcw)]; [done|].
  apply Hc. rewrite elem_of_app, elem_of_cons. right. right. by eapply elem_of_split_char.
Qed.

(** ** Lemmas: static candidates *)

(** One real path component. *)
Definition safe_segment (w : str) : Prop :=
  w <> [] /\ w <> "."%str /\ w <> ".."%str /\ slash ∉ w /\ "\"%ch ∉ w /\ 0 ∉ w.

Lemma unsafe_bytes_spec seg :
  existsb unsafe_byte (as_bytes seg) = false <-> slash ∉ seg /\ "\"%ch ∉ seg /\ 0 ∉ seg.
Proof.
  rewrite existsb_none. unfold unsafe_byte. split.
  - intros H. repeat split; intros Hc;
      (rewrite <- elem_of_as_bytes_ascii in Hc by (by vm_compute); apply H in Hc; vm_compute in Hc; discriminate).
  - intros (H1 & H2 & H3) b Hb.
    destruct (b =? "/"%ch) eqn:E1; bprop; [subst; rewrite elem_of_as_bytes_ascii in Hb by (by vm_compute); done|].
    destruct (b =? "\"%ch) eqn:E2; bprop; [subst; rewrite elem_of_as_bytes_ascii in Hb by (by vm_compute); done|].
    destruct (b =? 0) eqn:E3; bprop; [subst; rewrite elem_of_as_bytes_ascii in Hb by (by vm_compute); done|]. done.
Qed.

Lemma safe_segment_tests seg :
  (is_empty seg || str_eqb seg "." || str_eqb seg "..") = false /\ existsb unsafe_byte (as_bytes seg) = false
  <-> safe_segment seg.
Proof.
  rewrite unsafe_bytes_spec, !orb_false_iff, is_empty_false. unfold str_eqb.
  rewrite !bool_decide_eq_false. unfold safe_segment. tauto.
Qed.

(** Decode a list of raw segments into safe ones. *)
Definition decoded (raws ws : list str) : Prop :=
  Forall2 (fun raw w => percent_decode raw = Some w /\ safe_segment w) raws ws.
Definition raw_segments (path : str) : list str :=
  bfilter (fun raw => negb (is_empty raw)) (split_char slash path).

Lemma resolve_loop_spec rel segments r :
  resolve_loop rel segments = Some r <->
  exists ws, decoded (bfilter (fun raw => negb (is_empty raw)) segments) ws /\ r = foldl path_join rel ws.
Proof.
  revert rel; induction segments as [|raw rest IH]; intros rel; cbn.
  - split; [intros [= <-]; exists []; by repeat constructor|]. by intros (ws & H & ->); inversion H.
  - destruct (is_empty raw) eqn:E; cbn; [by rewrite IH|].
    destruct (percent_decode raw) as [seg|] eqn:D; cbn; [|split; [done|]; intros (ws & H & _); inversion H; naive_solver].
    pose proof (safe_segment_tests seg) as Hs.
    destruct (is_empty seg || str_eqb seg "." || str_eqb seg "..").
    { split; [done|]. intros (ws & H & _). inversion H; subst. destruct Hs as [_ Hs]. naive_solver. }
    destruct (existsb unsafe_byte (as_bytes seg)).
    { split; [done|]. intros (ws & H & _). inversion H; subst. destruct Hs as [_ Hs]. naive_solver. }
    rewrite IH. split.
    + intros (ws & H & ->). exists (seg :: ws). split; [|done]. constructor; [|done]. split; [done|]. by apply Hs.
    + intros (ws & H & ->). inversion H as [|? w ? ws' [Hw _] Hws]; subst. rewrite D in Hw. injection Hw as <-. eauto.
Qed.

Lemma safe_relative w : safe_segment w -> is_absolute w = false /\ ends_with "/" w = false.
Proof.
  intros (Hne & _ & _ & Hs & _). split.
  - destruct w as [|c w]; [done|]. unfold is_absolute, starts_with. cbn. destruct (47 =? c) eqn:E; [|done].
    bprop. subst. set_solver.
  - destruct (ends_with "/" w) eqn:E; [|done]. apply ends_with_spec in E as (r & ->). set_solver.
Qed.

(** Pushing safe segments one by one joins them. *)
Lemma push_segments acc ws :
  acc <> [] -> ends_with "/" acc = false -> Forall safe_segment ws ->
  foldl path_join acc ws = join_char slash (acc :: ws).
Proof.
  intros Ha He Hws. revert acc Ha He. induction Hws as [|w ws Hw Hws IH]; intros acc Ha He; [done|].
  destruct (safe_relative w Hw) as [H1 H2]. cbn [foldl].
  assert (path_join acc w = acc ++ slash :: w) as E.
  { unfold path_join. rewrite H1, He. by destruct acc. }
  rewrite E, IH.
  - destruct ws; cbn [join_char]; [done|]. by rewrite <- app_assoc.
  - by destruct acc.
  - destruct (ends_with "/" (acc ++ slash :: w)) eqn:F; [|done]. exfalso.
    apply ends_with_spec in F as (r & F). destruct Hw as (Hne & _ & _ & Hs & _).
    destruct w as [|c w'] using rev_ind; [done|]. clear IHw'.
    rewrite app_comm_cons, app_assoc in F. apply app_inj_tail in F as [_ ->]. set_solver.
Qed.

Lemma push_all ws : Forall safe_segment ws -> foldl path_join [] ws = join_char slash ws.
Proof.
  intros H. destruct H as [|w ws Hw Hws]; [done|]. cbn [foldl].
  destruct (safe_relative w Hw) as [H1 H2].
  assert (path_join [] w = w) as -> by (unfold path_join; by rewrite H1).
  apply push_segments; [by destruct Hw|done|done].
Qed.

Lemma decoded_safe raws ws : decoded raws ws -> Forall safe_segment ws.
Proof. induction 1 as [|raw w raws ws [_ Hw] _ IH]; by constructor. Qed.

Lemma resolve_segments_exact path r :
  resolve_segments path = Some r <->
  exists ws, decoded (raw_segments path) ws /\ r = join_char slash ws.
Proof.
  unfold resolve_segments. rewrite resolve_loop_spec. unfold raw_segments.
  split; intros (ws & Hd & ->); exists ws; (split; [done|]);
    [|symmetry]; by eapply push_all, decoded_safe.
Qed.

Lemma safe_components ws :
  Forall safe_segment ws -> omap segment_component (split_char slash (join_char slash ws)) = Normal <$> ws.
Proof.
  intros H. destruct (decide (ws = [])) as [->|Hne]; [done|].
  rewrite split_join; [|done|eapply Forall_impl; [done|]; by intros w (_ & _ & _ & Hs & _)].
  clear Hne. induction H as [|w ws Hw Hws IH]; [done|]. cbn. rewrite IH.
  destruct Hw as (H1 & H2 & H3 & _). unfold segment_component, str_eqb.
  by rewrite !bool_decide_false by done.
Qed.

(** Joining the safe path onto any root only adds its components. *)
Lemma safe_join_contained root ws :
  Forall safe_segment ws ->
  components (path_join root (join_char slash ws)) = components root ++ (Normal <$> ws).
Proof.
  intros H. assert (is_absolute (join_char slash ws) = false) as Habs.
  { destruct H as [|w ws Hw Hws]; [done|]. destruct (safe_relative w Hw) as [H1 _].
    destruct Hw as [Hne _]. destruct w as [|c w]; [done|]. unfold is_absolute, starts_with in *. cbn in *.
    destruct ws; cbn; by destruct (47 =? c). }
  destruct (decide (root = [])) as [->|Hr]; [|by rewrite components_join, safe_components by done].
  unfold path_join. rewrite Habs. cbn [is_empty orb app]. cbn [app]. unfold components.
  unfold is_absolute in Habs. rewrite Habs. rewrite safe_components by done.
  destruct (split_char slash (join_char slash ws)) as [|s0 rest] eqn:E; [done|].
  cbn. destruct (str_eqb s0 ".") eqn:Es; [|done]. exfalso. unfold str_eqb in Es. bprop. subst.
  destruct H as [|w ws Hw Hws]; [by vm_compute in E|].
  rewrite split_join in E; [|done|].
  - injection E as -> _. by destruct Hw as (_ & Hd & _).
  - constructor; [by destruct Hw as (_ & _ & _ & Hs & _)|].
    eapply Forall_impl; [done|]. by intros x (_ & _ & _ & Hs & _).
Qed.

Lemma resolve_segments_unique path ws ws' :
  decoded (raw_segments path) ws -> decoded (raw_segments path) ws' -> join_char slash ws = join_char slash ws'.
Proof.
  intros H1 H2. assert (resolve_segments path = Some (join_char slash ws)) as R1 by (apply resolve_segments_exact; eauto).
  assert (resolve_segments path = Some (join_char slash ws')) as R2 by (apply resolve_segments_exact; eauto).
  congruence.
Qed.

Lemma join_safe_empty ws : Forall safe_segment ws -> join_char slash ws = [] -> ws = [].
Proof.
  intros H Hj. destruct H as [|w ws [Hw _] Hws]; [done|]. exfalso. destruct w; [done|]. by destruct ws.
Qed.

Lemma static_candidate_exact url rel :
  static_candidate url = Some rel <->
  ends_with "/" (before_query url) = false /\
  exists ws, ws <> [] /\ decoded (raw_segments (before_query url)) ws /\ rel = join_char slash ws.
Proof.
  unfold static_candidate. set (p := before_query url).
  destruct (ends_with "/" p) eqn:E; [rewrite orb_true_r; naive_solver|]. rewrite orb_false_r.
  destruct (is_empty p) eqn:Ep.
  { apply is_empty_true in Ep. split; [done|]. intros (_ & ws & Hne & Hd & _). rewrite Ep in Hd.
    by inversion Hd; subst. }
  destruct (resolve_segments p) as [r|] eqn:R; cbn.
  - apply resolve_segments_exact in R as (ws & Hd & ->).
    destruct (is_empty (join_char slash ws)) eqn:Ej.
    + split; [done|]. intros (_ & ws' & Hne & Hd' & _). destruct Hne. apply is_empty_true in Ej.
      rewrite (resolve_segments_unique _ _ _ Hd Hd') in Ej.
      eapply join_safe_empty; [by eapply decoded_safe|done].
    + split.
      * intros [= <-]. split; [done|]. exists ws. split; [by intros ->|done].
      * intros (_ & ws' & _ & Hd' & ->). f_equal. by eapply resolve_segments_unique.
  - split; [done|]. intros (_ & ws & _ & Hd & ->).
    assert (resolve_segments p = Some (join_char slash ws)); [|congruence].
    apply resolve_segments_exact. eauto.
Qed.

Lemma directory_candidate_exact url rel :
  directory_candidate url = Some rel <->
  starts_with "/" (before_query url) = true /\ ends_with "/" (before_query url) = true /\
  exists ws, decoded (raw_segments (before_query url)) ws /\ rel = join_char slash ws.
Proof.
  unfold directory_candidate. set (p := before_query url).
  assert (negb (str_eqb p "/") && negb (ends_with "/" p) = negb (ends_with "/" p)) as ->.
  { unfold str_eqb. destruct (bool_decide (p = "/"%str)) eqn:E; [|done]. bprop. by rewrite E. }
  destruct (starts_with "/" p), (ends_with "/" p); cbn; rewrite ?resolve_segments_exact; naive_solver.
Qed.

Lemma candidate_contained url rel root :
  static_candidate url = Some rel \/ directory_candidate url = Some rel ->
  exists ws, Forall safe_segment ws /\ components (path_join root rel) = components root ++ (Normal <$> ws).
Proof.
  rewrite static_candidate_exact, directory_candidate_exact.
  intros [(_ & ws & _ & Hd & ->)|(_ & _ & ws & Hd & ->)]; exists ws; apply decoded_safe in Hd;
    (split; [done|]; by apply safe_join_contained).
Qed.

(** Request paths cannot leave the served directory. The static and the
    directory lookup accept exactly the paths whose non-empty segments decode to
    real names (no [.], no [..], no separator, no NUL), never both accept the
    same path, and what they return joins onto any root as that root followed by
    those names. *)
Theorem candidates_exact url root :
  (forall rel, static_candidate url = Some rel <->
     ends_with "/" (before_query url) = false /\
     exists ws, ws <> [] /\ decoded (raw_segments (before_query url)) ws /\ rel = join_char slash ws) /\
  (forall rel, directory_candidate url = Some rel <->
     starts_with "/" (before_query url) = true /\ ends_with "/" (before_query url) = true /\
     exists ws, decoded (raw_segments (before_query url)) ws /\ rel = join_char slash ws) /\
  (forall rel, static_candidate url = Some rel \/ directory_candidate url = Some rel ->
     exists ws, Forall safe_segment ws /\ components (path_join root rel) = components root ++ (Normal <$> ws)).
Proof.
  split; [intros; apply static_candidate_exact|]. split; [intros; apply directory_candidate_exact|].
  intros rel. apply candidate_contained.
Qed.

(** ** Lemmas: same-origin destinations and the picker *)

Lemma drop_while_len s : len (drop_while lead_char s) <= len s.
Proof. induction s as [|c s IH]; cbn; [done|]. destruct (lead_char c); [|done]. unfold len in *. cbn. lia. Qed.

Lemma drop_while_no_lead {A} (p : A -> bool) s c r : drop_while p s = c :: r -> p c = false.
Proof. induction s as [|d s IH]; cbn; [done|]. destruct (p d) eqn:E; [done|]. intros [= <- <-]. done. Qed.

(** One leading separator, whatever the input began with. *)
Lemma sanitize_dest_exact path : sanitize_dest path = slash :: drop_while lead_char path.
Proof.
  unfold sanitize_dest. destruct ((len path - len (drop_while lead_char path) =? 1) && starts_with "/" path) eqn:E.
  - bprop. apply starts_with_spec in H0 as (r & ->). cbn [app] in *. f_equal.
    change (drop_while lead_char (47 :: r)) with (drop_while lead_char r) in *.
    destruct r as [|c r]; [done|]. cbn [drop_while] in *. destruct (lead_char c) eqn:Ec; [exfalso|done].
    pose proof (drop_while_len r). rewrite !len_cons in H.
    unfold lead_char in Ec. apply orb_true_iff in Ec as [Ec|Ec]; bprop; subst; vm_compute (len_utf8 _) in H; lia.
  - destruct (is_empty (drop_while lead_char path)) eqn:Ed; [|done]. apply is_empty_true in Ed. by rewrite Ed.
Qed.

Lemma html_escape_map s : html_escape s = mjoin (escape_char <$> s).
Proof.
  unfold html_escape. destruct (existsb needs_escape (as_bytes s)) eqn:E; [done|].
  assert (forall c, c ∈ s -> needs_escape c = false) as H.
  { intros c Hc. rewrite existsb_none in E. destruct (needs_escape c) eqn:En; [|done].
    assert (c < 128) as Hlt.
    { unfold needs_escape in En. repeat (apply orb_true_iff in En as [En|En]; [|bprop; subst; by vm_compute]).
      bprop. subst. by vm_compute. }
    rewrite E in En; [done|]. by apply elem_of_as_bytes_ascii. }
  clear E. induction s as [|c s IH]; [done|].
  change (mjoin (escape_char <$> c :: s)) with (escape_char c ++ mjoin (escape_char <$> s)).
  rewrite <- IH by set_solver.
  assert (needs_escape c = false) as Hc by set_solver. unfold needs_escape in Hc. unfold escape_char.
  repeat (apply orb_false_iff in Hc as [Hc ?]). rewrite Hc. repeat match goal with H : _ = false |- _ => rewrite H; clear H end. done.
Qed.

(** The characters that open, close or quote markup. *)
Definition markup (s : str) : str := bfilter (fun c => (c =? "<"%ch) || (c =? ">"%ch) || (c =? dq)) s.

Lemma markup_app a b : markup (a ++ b) = markup a ++ markup b.
Proof. unfold markup. induction a as [|c a IH]; [done|]. cbn [app bfilter]. rewrite IH. by destruct (_ || _). Qed.

Lemma markup_escape s : markup (html_escape s) = [].
Proof.
  rewrite html_escape_map. induction s as [|c s IH]; [done|].
  change (markup (mjoin (escape_char <$> c :: s))) with (markup (escape_char c ++ mjoin (escape_char <$> s))).
  rewrite markup_app, IH, app_nil_r. unfold escape_char.
  destruct (c =? "&"%ch); [done|]. destruct (c =? "<"%ch) eqn:E1; [done|].
  destruct (c =? ">"%ch) eqn:E2; [done|]. destruct (c =? dq) eqn:E3; [done|].
  destruct (c =? "'"%ch); [done|]. unfold markup. cbn [bfilter]. by rewrite E1, E2, E3.
Qed.

(** A row without its texts. *)
Definition blank (s : PickerSite) : PickerSite := mkPicker [] [] (pk_secure s) [].

Lemma markup_site dest s :
  markup (site_html (html_escape dest) s) = markup (site_html (html_escape []) (blank s)).
Proof.
  unfold site_html, attr. cbv zeta. cbn [pk_primary pk_kind pk_secure blank].
  rewrite !markup_app, !markup_escape. by destruct (pk_secure s).
Qed.

(** The picker page has the markup of an empty one: no site name, kind or
    requested path can open, close or quote anything. *)
Lemma picker_markup css logo sites dest :
  markup (render_picker css logo sites dest) = markup (render_picker css logo (blank <$> sites) []).
Proof.
  assert (markup (mjoin (site_html (html_escape dest) <$> sites))
          = markup (mjoin (site_html (html_escape []) <$> (blank <$> sites)))) as H.
  { induction sites as [|s sites IH]; [done|].
    change (mjoin (?f <$> s :: sites)) with (f s ++ mjoin (f <$> sites)).
    change (mjoin (?f <$> (blank <$> s :: sites))) with (f (blank s) ++ mjoin (f <$> (blank <$> sites))).
    by rewrite !markup_app, IH, markup_site. }
  assert (is_empty (blank <$> sites) = is_empty sites) as He by by destruct sites.
  unfold render_picker. cbv zeta. rewrite He, !markup_app, !markup_escape.
  destruct (is_empty sites); [done|]. by rewrite !markup_app, H.
Qed.
