(* ===== verification/CgiHead.v ===== *)
(** * Incremental CGI heads

    [src/crates/orcker-proxy/src/pure/cgi_head.rs]: PHP-FPM delivers the header
    block of a response in pieces; the accumulator finds its end however it is
    cut.  [feed_all] folds the accumulator over the pieces, and
    [head_any_chunking] shows that the outcome is the one of the whole stream.

    [StatusCode::from_u16] of the [http] crate is a parameter. *)

From S2P Require Import Prelude RustStr Utf8.

Open Scope N_scope.

Definition MAX_HEAD_BYTES : N := 64 * 1024.
Definition TERMINATOR_OVERLAP : N := 3.

Record Head := mkHead {
  hd_status : N;
  hd_headers : list (str * str);
  body_remainder : list N;
}.

Inductive HeadFeed :=
| Pending
| Complete (h : Head)
| HeadTooLarge.

(** [HeadAccumulator]: its buffer. *)
Notation HeadAccumulator := (list N) (only parsing).

Definition crlfcrlf : list N := [13; 10; 13; 10].
Definition lflf : list N := [10; 10].

(** The loop of [find_header_terminator] over what is left from index [i]. *)
Fixpoint scan_terminator (i : N) (s : list N) : option (N * N) :=
  match s with
  | [] => None
  | _ :: r =>
      if starts_with crlfcrlf s then Some (i, 4)
      else if starts_with lflf s then Some (i, 2)
      else scan_terminator (i + 1) r
  end.
Definition find_header_terminator (buf : list N) (from : N) : option (N * N) :=
  scan_terminator from (drop (N.to_nat from) buf).

(** ** Where the block ends *)

Lemma starts_with_app p s c : (length p <= length s)%nat -> starts_with p (s ++ c) = starts_with p s.
Proof.
  unfold starts_with. revert s; induction p as [|a p IH]; intros s Hl; [done|].
  destruct s as [|b s]; cbn in *; [lia|]. destruct (a =? b); [|done]. apply IH. lia.
Qed.

(** Positions with four bytes behind them read the same in a longer buffer. *)
Lemma scan_skip i a b c :
  length b = 3%nat -> scan_terminator i (a ++ b) = None ->
  scan_terminator i (a ++ b ++ c) = scan_terminator (i + vlen a) (b ++ c).
Proof.
  intros Hb. revert i; induction a as [|x a IH]; intros i H.
  - cbn [app]. f_equal. unfold vlen. cbn. lia.
  - cbn [app scan_terminator] in *. rewrite app_assoc, app_comm_cons.
    rewrite !starts_with_app by (cbn; rewrite length_app; lia).
    destruct (starts_with crlfcrlf _); [done|]. destruct (starts_with lflf _); [done|].
    rewrite <- app_assoc, IH by done. f_equal. rewrite vlen_cons. lia.
Qed.

Lemma scan_match s i r : scan_terminator i s = Some r -> exists j, (2 <= length (drop j s))%nat /\
  (starts_with crlfcrlf (drop j s) = true \/ starts_with lflf (drop j s) = true) /\ i <= r.1.
Proof.
  revert i; induction s as [|x s IH]; intros i; [done|]. cbn [scan_terminator].
  assert (forall p, starts_with p (x :: s) = true -> (length p <= length (x :: s))%nat) as Hl.
  { intros p Hp. apply starts_with_spec in Hp as (q & ->). rewrite length_app. lia. }
  destruct (starts_with crlfcrlf (x :: s)) eqn:E1.
  { intros [= <-]. exists 0%nat. specialize (Hl _ E1). cbn in *. split; [lia|]. split; [auto|]. lia. }
  destruct (starts_with lflf (x :: s)) eqn:E2.
  { intros [= <-]. exists 0%nat. specialize (Hl _ E2). cbn in *. split; [lia|]. split; [auto|]. lia. }
  intros (j & H1 & H2 & H3)%IH. exists (S j). cbn [drop]. split; [done|]. split; [done|]. lia.
Qed.

(** A terminator that has been found stays the first one. *)
Lemma scan_app i s c r : scan_terminator i s = Some r -> scan_terminator i (s ++ c) = Some r.
Proof.
  revert i; induction s as [|x s IH]; intros i; [done|]. cbn [app scan_terminator].
  destruct (starts_with crlfcrlf (x :: s)) eqn:E1.
  { apply starts_with_spec in E1 as (q & E). rewrite app_comm_cons, E, <- app_assoc.
    by rewrite (proj2 (starts_with_spec _ _)) by eauto. }
  destruct (starts_with lflf (x :: s)) eqn:E2.
  { apply starts_with_spec in E2 as (q & E). rewrite app_comm_cons, E, <- app_assoc.
    assert (starts_with crlfcrlf (lflf ++ q ++ c) = false) as -> by done.
    by rewrite (proj2 (starts_with_spec _ _)) by eauto. }
  intros H. rewrite (IH _ H).
  assert (2 <= length s)%nat as Hs.
  { apply scan_match in H as (j & Hj & _). rewrite length_drop in Hj. lia. }
  rewrite app_comm_cons. rewrite (starts_with_app lflf) by (cbn; lia). rewrite E2.
  destruct (decide (3 <= length s)%nat) as [Hl|Hl]; [by rewrite starts_with_app, E1 by (cbn; lia)|].
  destruct s as [|y [|z [|? ?]]]; cbn in Hl, Hs; try lia.
  destruct (starts_with crlfcrlf ((x :: [y; z]) ++ c)) eqn:E3; [exfalso|done].
  apply starts_with_spec in E3 as (q & E3). cbn in E3. injection E3 as -> -> -> _. by vm_compute in H.
Qed.

Lemma scan_range i s o t : scan_terminator i s = Some (o, t) -> i <= o /\ (t = 4 \/ t = 2).
Proof.
  revert i; induction s as [|x s IH]; intros i; [done|]. cbn [scan_terminator].
  destruct (starts_with crlfcrlf (x :: s)); [intros [= <- <-]; split; [lia|auto]|].
  destruct (starts_with lflf (x :: s)); [intros [= <- <-]; split; [lia|auto]|].
  intros [? ?]%IH. split; [lia|done].
Qed.

Lemma starts_with_longer p s c : starts_with p (s ++ c) = false -> starts_with p s = false.
Proof.
  intros Hf. destruct (starts_with p s) eqn:E; [|done]. apply starts_with_spec in E as (q & ->).
  rewrite <- app_assoc in Hf. by rewrite (proj2 (starts_with_spec _ _)) in Hf by eauto.
Qed.

(** A prefix that holds the first terminator shows it. *)
Lemma scan_prefix i s c o t :
  scan_terminator i (s ++ c) = Some (o, t) -> o + t <= i + vlen s -> scan_terminator i s = Some (o, t).
Proof.
  revert i; induction s as [|x s IH]; intros i Hs Hl.
  { apply scan_range in Hs as [? [-> | ->]]; unfold vlen in Hl; cbn in Hl; lia. }
  cbn [app scan_terminator] in *. rewrite app_comm_cons in Hs. unfold vlen in Hl.
  destruct (starts_with crlfcrlf ((x :: s) ++ c)) eqn:E1.
  { injection Hs as <- <-. rewrite starts_with_app in E1 by (cbn in *; lia). by rewrite E1. }
  rewrite (starts_with_longer _ _ _ E1).
  destruct (starts_with lflf ((x :: s) ++ c)) eqn:E2.
  { injection Hs as <- <-. rewrite starts_with_app in E2 by (cbn in *; lia). by rewrite E2. }
  rewrite (starts_with_longer _ _ _ E2). apply IH; [done|]. unfold vlen. cbn in Hl. lia.
Qed.

(** Rescanning the overlap is scanning everything. *)
Lemma find_resumes buf chunk :
  scan_terminator 0 buf = None ->
  find_header_terminator (buf ++ chunk) (vlen buf - TERMINATOR_OVERLAP) = scan_terminator 0 (buf ++ chunk).
Proof.
  intros H. unfold find_header_terminator, TERMINATOR_OVERLAP. destruct (decide (3 <= length buf)%nat) as [Hl|Hl].
  - set (k := (length buf - 3)%nat). assert (vlen buf - 3 = N.of_nat k) as -> by (unfold vlen, k; lia).
    rewrite Nat2N.id. rewrite drop_app_le by (unfold k; lia).
    rewrite <- (take_drop k buf), <- app_assoc, scan_skip.
    + rewrite take_drop. f_equal. unfold vlen. rewrite length_take_le by (unfold k; lia). lia.
    + rewrite length_drop. unfold k. lia.
    + by rewrite take_drop.
  - assert (vlen buf - 3 = 0) as -> by (unfold vlen; lia). done.
Qed.

Lemma scan_bound s r : scan_terminator 0 s = Some r -> (N.to_nat (r.1 + r.2) <= length s)%nat.
Proof.
  assert (forall i, scan_terminator i s = Some r -> (N.to_nat (r.1 + r.2) <= N.to_nat i + length s)%nat) as H.
  { induction s as [|x s IH]; intros i; [done|]. cbn [scan_terminator].
    destruct (starts_with crlfcrlf (x :: s)) eqn:E1.
    { apply starts_with_spec in E1 as (q & ->). intros [= <-]. rewrite length_app. cbn. lia. }
    destruct (starts_with lflf (x :: s)) eqn:E2.
    { apply starts_with_spec in E2 as (q & ->). intros [= <-]. rewrite length_app. cbn. lia. }
    intros Hr%IH. cbn. lia. }
  intros Hs%H. done.
Qed.

Section CgiHead.
Context (status_from_u16 : N -> option N).

Definition parse_cgi_status (value : str) : option N :=
  let code := match split_once " "%ch value with Some (code, _) => code | None => value end in
  n ← parse_uint u16_max code; status_from_u16 n.

(** One line of the block. *)
Definition head_line (st : N * list (str * str)) (raw_line : list N) : N * list (str * str) :=
  let line := trim_end_matches (N.eqb 13) (from_utf8_lossy raw_line) in
  if is_empty line then st
  else match split_once ":"%ch line with
  | None => st
  | Some (name, value) =>
      let name := trim name in
      let value := trim value in
      if eq_ignore_ascii_case name "Status"
      then (default st.1 (parse_cgi_status value), st.2)
      else (st.1, st.2 ++ [(name, value)])
  end.

Definition parse_head (head : list N) : N * list (str * str) :=
  foldl head_line (200, []) (split_char 10 head).

Definition feed (buf : HeadAccumulator) (chunk : list N) : HeadFeed * HeadAccumulator :=
  let scan_from := vlen buf - TERMINATOR_OVERLAP in
  let buf := buf ++ chunk in
  match find_header_terminator buf scan_from with
  | Some (offset, terminator_len) =>
      let head := take (N.to_nat offset) buf in
      let rest := drop (N.to_nat offset) buf in
      let '(status, headers) := parse_head head in
      (Complete (mkHead status headers (drop (N.to_nat terminator_len) rest)), buf)
  | None => if MAX_HEAD_BYTES <? vlen buf then (HeadTooLarge, buf) else (Pending, buf)
  end.

Definition finish (buf : HeadAccumulator) : Head :=
  let '(status, headers) := parse_head buf in mkHead status headers [].

(** Feed pieces until the accumulator answers; what it said, its buffer and the
    pieces it has not seen. *)
Fixpoint feed_all (buf : HeadAccumulator) (chunks : list (list N)) : HeadFeed * HeadAccumulator * list (list N) :=
  match chunks with
  | [] => (Pending, buf, [])
  | chunk :: rest =>
      match feed buf chunk with
      | (Pending, buf') => feed_all buf' rest
      | (out, buf') => (out, buf', rest)
      end
  end.

(** The response a whole STDOUT stream means. *)
Definition split_stream (stream : list N) : option (Head * list N) :=
  match scan_terminator 0 stream with
  | Some (offset, terminator_len) =>
      let '(status, headers) := parse_head (take (N.to_nat offset) stream) in
      Some (mkHead status headers [], drop (N.to_nat (offset + terminator_len)) stream)
  | None => None
  end.

Definition head_only (h : Head) : Head := mkHead (hd_status h) (hd_headers h) [].

Lemma feed_all_spec chunks : forall buf,
  scan_terminator 0 buf = None -> vlen buf <= MAX_HEAD_BYTES ->
  match feed_all buf chunks with
  | (Complete h, _, rest) =>
      split_stream (buf ++ mjoin chunks) = Some (head_only h, body_remainder h ++ mjoin rest)
  | (Pending, buf', rest) =>
      buf' = buf ++ mjoin chunks /\ rest = [] /\ split_stream buf' = None /\ vlen buf' <= MAX_HEAD_BYTES
  | (HeadTooLarge, buf', rest) =>
      buf ++ mjoin chunks = buf' ++ mjoin rest /\ split_stream buf' = None /\ MAX_HEAD_BYTES < vlen buf'
  end.
Proof.
  induction chunks as [|chunk chunks IH]; intros buf Hs Hb; cbn [feed_all].
  - change (mjoin []) with (@nil N). rewrite app_nil_r. unfold split_stream. by rewrite Hs.
  - unfold feed. cbv zeta. rewrite (find_resumes _ _ Hs).
    change (mjoin (chunk :: chunks)) with (chunk ++ mjoin chunks). rewrite app_assoc.
    destruct (scan_terminator 0 (buf ++ chunk)) as [[o t]|] eqn:E.
    + destruct (parse_head (take (N.to_nat o) (buf ++ chunk))) as [st hs] eqn:P.
      unfold split_stream. rewrite (scan_app _ _ (mjoin chunks) _ E).
      pose proof (scan_bound _ _ E) as Hl. cbn [fst snd] in Hl.
      rewrite take_app_le by lia. rewrite P. unfold head_only. cbn [hd_status hd_headers body_remainder].
      rewrite drop_drop. rewrite drop_app_le by lia. do 3 f_equal. f_equal. lia.
    + destruct (MAX_HEAD_BYTES <? vlen (buf ++ chunk)) eqn:El; bprop.
      * split; [done|]. unfold split_stream. by rewrite E.
      * apply IH; [done|lia].
Qed.

(** ** Lines *)

(** What one line says. *)
Inductive said := SaysStatus (code : N) | SaysHeader (name value : str) | SaysNothing.
Definition line_says (raw_line : list N) : said :=
  let line := trim_end_matches (N.eqb 13) (from_utf8_lossy raw_line) in
  match split_once ":"%ch line with
  | Some (name, value) =>
      if eq_ignore_ascii_case (trim name) "Status" then
        match parse_cgi_status (trim value) with Some c => SaysStatus c | None => SaysNothing end
      else SaysHeader (trim name) (trim value)
  | None => SaysNothing
  end.
Definition says_status (l : list N) : option N := match line_says l with SaysStatus c => Some c | _ => None end.
Definition says_header (l : list N) : option (str * str) :=
  match line_says l with SaysHeader n v => Some (n, v) | _ => None end.

Lemma head_line_says st l :
  head_line st l = (default st.1 (says_status l), st.2 ++ option_list (says_header l)).
Proof.
  unfold head_line, says_status, says_header, line_says. cbv zeta. destruct st as [c hs]. cbn [fst snd].
  destruct (trim_end_matches (N.eqb 13) (from_utf8_lossy l)) as [|x line]; cbn [is_empty].
  { cbn. by rewrite app_nil_r. }
  destruct (split_once ":"%ch (x :: line)) as [[n v]|]; [|cbn; by rewrite app_nil_r].
  destruct (eq_ignore_ascii_case (trim n) "Status"); [|done].
  destruct (parse_cgi_status (trim v)); cbn; by rewrite app_nil_r.
Qed.

(** The block line by line: the last status wins, the headers keep their order. *)
Lemma parse_head_lines head :
  parse_head head = (default 200 (last (omap says_status (split_char 10 head))),
                     omap says_header (split_char 10 head)).
Proof.
  unfold parse_head. generalize (split_char 10 head) as ls. intros ls.
  assert (forall ls st, foldl head_line st ls =
    (default st.1 (last (omap says_status ls)), st.2 ++ omap says_header ls)) as H; [|by rewrite H].
  clear. induction ls as [|l ls IH]; intros [c hs]; cbn; [by rewrite app_nil_r|].
  rewrite IH, head_line_says. cbn [fst snd]. rewrite <- app_assoc. f_equal.
  - destruct (says_status l) as [c'|]; cbn; [|done]. destruct (omap says_status ls) as [|a r]; [done|]. 
    cbn. rewrite last_cons. by destruct (last r).
  - by destruct (says_header l).
Qed.

(** However PHP's output is cut into records, the response is the one of the
    whole stream: the accumulator answers with the status and headers of the
    bytes before the first blank line, the last [Status:] line deciding and the
    other lines in order, and hands over every byte after it; while it waits it
    holds at most 64 KiB, and it gives up only on a longer headless prefix. *)
Theorem head_any_chunking chunks :
  match feed_all [] chunks with
  | (Complete h, _, rest) =>
      split_stream (mjoin chunks) = Some (head_only h, body_remainder h ++ mjoin rest) /\
      exists o t, scan_terminator 0 (mjoin chunks) = Some (o, t) /\
        hd_status h = default 200 (last (omap says_status (split_char 10 (take (N.to_nat o) (mjoin chunks))))) /\
        hd_headers h = omap says_header (split_char 10 (take (N.to_nat o) (mjoin chunks)))
  | (Pending, buf, rest) =>
      buf = mjoin chunks /\ rest = [] /\ split_stream buf = None /\ vlen buf <= MAX_HEAD_BYTES
  | (HeadTooLarge, buf, rest) =>
      mjoin chunks = buf ++ mjoin rest /\ split_stream buf = None /\ MAX_HEAD_BYTES < vlen buf
  end.
Proof.
  assert (vlen (@nil N) <= MAX_HEAD_BYTES) as Hb by done.
  pose proof (feed_all_spec chunks [] eq_refl Hb) as H. cbn [app] in H.
  destruct (feed_all [] chunks) as [[[|h|] buf] rest]; [done| |done]. split; [done|].
  unfold split_stream in H. destruct (scan_terminator 0 (mjoin chunks)) as [[o t]|]; [|done].
  exists o, t. split; [done|]. rewrite (parse_head_lines (take _ _)) in H. injection H as <- <- _. done.
Qed.

End CgiHead.

(** A head cut in the middle of its terminator, by a status code reader that
    takes three digits. *)
Example head_split_terminator :
  feed_all (fun n => if n <? 1000 then Some n else None) []
    ["Status: 404 Not Found"%str ++ [13; 10]; "X-A: b"%str ++ [13; 10; 13]; [10; 120]; [121]]
  = (Complete (mkHead 404 [("X-A"%str, "b"%str)] [120]),
     "Status: 404 Not Found"%str ++ [13; 10] ++ "X-A: b"%str ++ [13; 10; 13; 10; 120], [[121]]).
Proof. by vm_compute. Qed.
