(* ===== verification/Http.v ===== *)
(** * The HTTP library, as the proxy uses it

    The proxy sits on the [http] crate: header maps, header values, status codes
    and URIs.  That code is not in the repository, so what the proxy calls is the
    interface [Http] and what it relies on is [HttpLaws], the documented
    behaviour.  [list_http] is an implementation by association lists, which
    shows the laws can hold and runs the examples. *)

From S2P Require Import Prelude RustStr Utf8.

Open Scope N_scope.

(** A header name is its lowercase text; a value is its bytes. *)
Class Http (H : Type) := {
  hm_empty : H;
  hm_get_all : str -> H -> list (list N);
  hm_iter : H -> list (str * list N);
  hm_insert : str -> list N -> H -> H;
  hm_append : str -> list N -> H -> H;
  hm_remove : str -> H -> H;
  hv_from_str : str -> option (list N);
  hv_from_bytes : list N -> option (list N);
  hv_to_str : list N -> option str;
  hn_from_bytes : list N -> option str;
  status_from_u16 : N -> option N;
  is_informational : N -> bool;
  is_success : N -> bool;
}.

Class HttpLaws (H : Type) `{Http H} := {
  get_all_empty : forall n, hm_get_all n hm_empty = [];
  get_all_iter : forall (h : H) n v, (n, v) ∈ hm_iter h <-> v ∈ hm_get_all n h;
  get_all_insert : forall (h : H) n m v, hm_get_all m (hm_insert n v h) = if bool_decide (m = n) then [v] else hm_get_all m h;
  get_all_append : forall (h : H) n m v,
    hm_get_all m (hm_append n v h) = if bool_decide (m = n) then hm_get_all n h ++ [v] else hm_get_all m h;
  get_all_remove : forall (h : H) n m, hm_get_all m (hm_remove n h) = if bool_decide (m = n) then [] else hm_get_all m h;
}.

(** [http::Uri] *)
Class UriOps (U : Type) := {
  uri_path : U -> str;
  uri_query : U -> option str;
  uri_path_and_query : U -> option str;
  uri_parse : str -> option U;
}.

Section Messages.
Context `{Http H, UriOps U}.

(** [HeaderMap::get] is the first value; [contains_key]. *)
Definition hm_get (n : str) (h : H) : option (list N) := head (hm_get_all n h).
Definition hm_contains_key (n : str) (h : H) : bool := negb (is_empty (hm_get_all n h)).

(** A header's text, when it is visible ASCII. *)
Definition header_str (n : str) (h : H) : option str := v ← hm_get n h; hv_to_str v.

Definition hm_from_list (l : list (str * str)) : H :=
  foldl (fun h e => hm_append e.1 (as_bytes e.2) h) hm_empty l.

(** A body: the frames the client is sent, and whether the connection is then
    aborted instead of ended. *)
Record Body := mkBody { body_frames : list (list N); body_aborted : bool }.
Definition empty_body : Body := mkBody [] false.
Definition bytes_body (b : list N) : Body := mkBody [b] false.

Record Response := mkResponse { resp_status : N; resp_headers : H; resp_body : Body }.

Record Request := mkRequest {
  rq_method : str;
  rq_uri : U;
  rq_headers : H;
  rq_body : list (list N);
}.

Definition is_get_or_head (method : str) : bool := str_eqb method "GET" || str_eqb method "HEAD".
End Messages.
Arguments Response : clear implicits.
Arguments Request : clear implicits.

(** ** Association lists *)

Definition list_headers : Type := list (str * list N).

Definition visible (b : N) : bool := in_range 32 126 b || (b =? 9).

#[export] Instance list_http : Http list_headers := {
  hm_empty := [];
  hm_get_all n h := snd <$> bfilter (fun e => str_eqb e.1 n) h;
  hm_iter h := h;
  hm_insert n v h := bfilter (fun e => negb (str_eqb e.1 n)) h ++ [(n, v)];
  hm_append n v h := h ++ [(n, v)];
  hm_remove n h := bfilter (fun e => negb (str_eqb e.1 n)) h;
  hv_from_str s := if forallb visible s then Some (as_bytes s) else None;
  hv_from_bytes b := if forallb (fun c => visible c || (128 <=? c)) b then Some b else None;
  hv_to_str v := if forallb visible v then Some v else None;
  hn_from_bytes b := if is_empty b then None
                     else if forallb (fun c => is_ascii_alphanumeric c || (c =? "-"%ch)) b
                          then Some (to_ascii_lowercase b) else None;
  status_from_u16 n := if (100 <=? n) && (n <? 1000) then Some n else None;
  is_informational n := in_range 100 199 n;
  is_success n := in_range 200 299 n;
}.

Lemma bfilter_without (n m : str) (h : list_headers) :
  snd <$> bfilter (fun e => str_eqb e.1 m) (bfilter (fun e => negb (str_eqb e.1 n)) h)
  = if bool_decide (m = n) then [] else snd <$> bfilter (fun e => str_eqb e.1 m) h.
Proof.
  unfold str_eqb. induction h as [|[k v] h IH]; cbn [bfilter fst].
  { by destruct (bool_decide (m = n)). }
  destruct (bool_decide (k = n)) eqn:E1; cbn [negb bfilter fst].
  - bprop. subst. rewrite IH. destruct (bool_decide (m = n)) eqn:E2; [done|]. bprop.
    by rewrite bool_decide_false by done.
  - destruct (bool_decide (k = m)) eqn:E3; [|done]. cbn. rewrite IH. bprop. subst.
    destruct (bool_decide (m = n)) eqn:E4; [bprop; congruence|done].
Qed.

#[export] Instance list_http_laws : HttpLaws list_headers.
Proof.
  split; cbn.
  - done.
  - intros h n v. rewrite list_elem_of_fmap. split.
    + intros Hin. exists (n, v). split; [done|]. apply elem_of_bfilter. cbn. unfold str_eqb. by rewrite bool_decide_true.
    + intros ([k w] & -> & [Hk Hin]%elem_of_bfilter). cbn in *. unfold str_eqb in Hk. bprop. by subst.
  - intros h n m v. rewrite bfilter_app, fmap_app, bfilter_without. cbn. unfold str_eqb.
    destruct (bool_decide (m = n)) eqn:E; bprop.
    + subst. by rewrite bool_decide_true.
    + rewrite bool_decide_false by done. by rewrite app_nil_r.
  - intros h n m v. rewrite bfilter_app, fmap_app. cbn. unfold str_eqb.
    destruct (bool_decide (m = n)) eqn:E; bprop.
    + subst. by rewrite bool_decide_true.
    + rewrite bool_decide_false by done. by rewrite app_nil_r.
  - intros h n m. apply bfilter_without.
Qed.
