(* ===== verification/Hop.v ===== *)
(** * Headers between client and upstream

    [src/crates/orcker-proxy/src/forward/upgrade.rs] (detecting an upgrade and
    stripping hop-by-hop headers) and the header half of
    [src/crates/orcker-proxy/src/forward/proxy.rs].  A header map is whatever
    satisfies [HttpLaws]. *)

From S2P Require Import Prelude RustStr Utf8 Net Http.

Open Scope N_scope.

Section Hop.
Context `{L : HttpLaws H}.
Implicit Types h : H.

Definition CONNECTION : str := "connection"%str.
Definition UPGRADE : str := "upgrade"%str.

(** The comma-separated tokens of a value that is text. *)
Definition value_tokens (v : list N) : list str :=
  match hv_to_str v with Some s => trim <$> split_char ","%ch s | None => [] end.
Definition conn_tokens (h : H) : list str := mjoin (value_tokens <$> hm_get_all CONNECTION h).

Definition is_upgrade (h : H) : bool :=
  hm_contains_key UPGRADE h
  && existsb (fun v => existsb (fun tok => eq_ignore_ascii_case tok UPGRADE) (value_tokens v))
       (hm_get_all CONNECTION h).

Definition HOP_BY_HOP_FIXED : list str :=
  ["connection"; "proxy-connection"; "keep-alive"; "te"; "transfer-encoding"; "trailer"]%str.

Definition hop_named (h : H) (lower : str) : bool :=
  bool_decide (lower ∈ HOP_BY_HOP_FIXED) || existsb (fun t => eq_ignore_ascii_case t lower) (conn_tokens h).

(** [for name in to_remove { headers.remove(&name); }] *)
Definition remove_all (names : list str) (h : H) : H := foldl (fun h n => hm_remove n h) h names.

Definition strip_hop_by_hop_only (h : H) : H :=
  let to_remove := omap (fun e => if str_eqb e.1 UPGRADE || hop_named h e.1 then Some e.1 else None) (hm_iter h) in
  remove_all to_remove h.

Definition strip_hop_by_hop (h : H) : H :=
  let to_remove := omap (fun e => if str_eqb e.1 UPGRADE then None
                                  else if hop_named h e.1 then Some e.1 else None) (hm_iter h) in
  hm_insert CONNECTION UPGRADE (remove_all to_remove h).

(** [proxy.rs]: the headers the upstream is told about the client with. *)
Definition insert_str (name value : str) (h : H) : H :=
  match hv_from_str value with Some v => hm_insert name v h | None => h end.

Definition add_forwarded_headers (peer : IpAddr) (https : bool) (client_host : str) (h : H) : H :=
  let proto := if https then "https"%str else "http"%str in
  let h := insert_str "x-forwarded-proto"%str proto h in
  let h := insert_str "x-forwarded-host"%str client_host h in
  match hv_from_str (IpAddr_fmt peer) with
  | Some v => hm_insert "x-forwarded-for"%str v (hm_insert "x-real-ip"%str v h)
  | None => h
  end.

(** What the plain path sends upstream. *)
Definition upstream_headers (peer : IpAddr) (https : bool) (client_host : str) (h : H) : H :=
  strip_hop_by_hop_only (add_forwarded_headers peer https client_host h).

(** ** Lemmas *)

Lemma remove_all_get names h n :
  hm_get_all n (remove_all names h) = if bool_decide (n ∈ names) then [] else hm_get_all n h.
Proof.
  unfold remove_all. revert h; induction names as [|m names IH]; intros h; [done|].
  cbn [foldl]. rewrite IH, get_all_remove.
  destruct (decide (n = m)) as [->|Hne].
  - rewrite (bool_decide_true (m = m)), (bool_decide_true (m ∈ m :: names)) by set_solver.
    by destruct (bool_decide _).
  - rewrite (bool_decide_false (n = m)) by done.
    destruct (bool_decide (n ∈ names)) eqn:E; bprop.
    + by rewrite bool_decide_true by set_solver.
    + by rewrite bool_decide_false by set_solver.
Qed.

(** Removing the names of the map that a test picks empties exactly those. *)
Lemma strip_by_get (drops : str -> bool) h n :
  hm_get_all n (remove_all (omap (fun e => if drops e.1 then Some e.1 else None) (hm_iter h)) h)
  = if drops n then [] else hm_get_all n h.
Proof.
  rewrite remove_all_get.
  assert (n ∈ omap (fun e : str * list N => if drops e.1 then Some e.1 else None) (hm_iter h) <->
          drops n = true /\ hm_get_all n h <> []) as Hin.
  { rewrite list_elem_of_omap. split.
    - intros ([m v] & Hm & E). cbn in E. destruct (drops m) eqn:D; [|done]. injection E as ->.
      split; [done|]. apply get_all_iter in Hm. destruct (hm_get_all n h); [set_solver|done].
    - intros [D Hne]. destruct (hm_get_all n h) as [|v vs] eqn:E; [done|]. exists (n, v). cbn. rewrite D.
      split; [|done]. apply get_all_iter. rewrite E. set_solver. }
  destruct (bool_decide (n ∈ _)) eqn:B; bprop.
  - apply Hin in B as [-> _]. done.
  - destruct (drops n); [|done]. destruct (hm_get_all n h) eqn:E; [done|]. destruct B. apply Hin. split; [done|]. done.
Qed.

Lemma strip_only_get h n :
  hm_get_all n (strip_hop_by_hop_only h) = if str_eqb n UPGRADE || hop_named h n then [] else hm_get_all n h.
Proof. apply (strip_by_get (fun n => str_eqb n UPGRADE || hop_named h n)). Qed.

Lemma strip_tunnel_get h n :
  hm_get_all n (strip_hop_by_hop h) =
  if bool_decide (n = CONNECTION) then [UPGRADE]
  else if negb (str_eqb n UPGRADE) && hop_named h n then [] else hm_get_all n h.
Proof.
  unfold strip_hop_by_hop. cbv zeta. rewrite get_all_insert.
  destruct (bool_decide (n = CONNECTION)); [done|].
  rewrite <- (strip_by_get (fun n => negb (str_eqb n UPGRADE) && hop_named h n) h n). do 2 f_equal.
  induction (hm_iter h) as [|e l IH]; [done|]. cbn. rewrite IH.
  by destruct (str_eqb e.1 UPGRADE), (hop_named h e.1).
Qed.

Lemma hop_named_spec h n :
  hop_named h n = true <-> n ∈ HOP_BY_HOP_FIXED \/ exists t, t ∈ conn_tokens h /\ eq_ignore_ascii_case t n = true.
Proof. unfold hop_named. by rewrite orb_true_iff, bool_decide_eq_true, existsb_elem. Qed.

Lemma insert_str_get name value h n :
  hm_get_all n (insert_str name value h) =
  match hv_from_str value with
  | Some v => if bool_decide (n = name) then [v] else hm_get_all n h
  | None => hm_get_all n h
  end.
Proof. unfold insert_str. destruct (hv_from_str value); [by rewrite get_all_insert|done]. Qed.

Definition forwarded_name (n : str) : bool :=
  bool_decide (n ∈ ["x-forwarded-proto"; "x-forwarded-host"; "x-forwarded-for"; "x-real-ip"]%str).

Lemma add_forwarded_other peer https host h n :
  forwarded_name n = false -> hm_get_all n (add_forwarded_headers peer https host h) = hm_get_all n h.
Proof.
  unfold forwarded_name, add_forwarded_headers. intros Hn. bprop. cbv zeta.
  assert (n <> "x-forwarded-proto"%str /\ n <> "x-forwarded-host"%str /\ n <> "x-forwarded-for"%str
          /\ n <> "x-real-ip"%str) as (Hn1 & Hn2 & Hn3 & Hn4) by set_solver.
  destruct (hv_from_str (IpAddr_fmt peer)); rewrite ?get_all_insert, !insert_str_get;
    rewrite ?(bool_decide_false (n = _)) by done;
    repeat match goal with |- context [match hv_from_str ?x with _ => _ end] => destruct (hv_from_str x) end; done.
Qed.

Lemma add_forwarded_peer peer https host h v n :
  hv_from_str (IpAddr_fmt peer) = Some v -> n = "x-forwarded-for"%str \/ n = "x-real-ip"%str ->
  hm_get_all n (add_forwarded_headers peer https host h) = [v].
Proof.
  intros Hv Hn. unfold add_forwarded_headers. cbv zeta. rewrite Hv, !get_all_insert.
  destruct Hn as [->| ->]; [done|]. by rewrite bool_decide_false by done.
Qed.

Lemma forwarded_tokens peer https host h : conn_tokens (add_forwarded_headers peer https host h) = conn_tokens h.
Proof. unfold conn_tokens. by rewrite add_forwarded_other. Qed.

Lemma forwarded_hop peer https host h n :
  hop_named (add_forwarded_headers peer https host h) n = hop_named h n.
Proof. unfold hop_named. by rewrite forwarded_tokens. Qed.

(** What an upstream is sent, by name. *)
Lemma upstream_headers_get peer https host h n :
  hm_get_all n (upstream_headers peer https host h) =
  if str_eqb n UPGRADE || hop_named h n then [] else hm_get_all n (add_forwarded_headers peer https host h).
Proof. unfold upstream_headers. by rewrite strip_only_get, forwarded_hop. Qed.

(** What crosses the proxy. A plain request or response loses exactly the
    hop-by-hop headers: the fixed ones, [Upgrade] and every header the client's
    own [Connection] tokens name, whatever their case; a tunnel keeps [Upgrade]
    and is re-stamped; every other header arrives with all its values, and the
    peer address the upstream reads, when it is sent, is the connection's and
    never the client's claim. *)
Theorem hop_by_hop_exact peer https host h v (Hv : hv_from_str (IpAddr_fmt peer) = Some v) :
  let drops n := n ∈ HOP_BY_HOP_FIXED \/ exists t, t ∈ conn_tokens h /\ eq_ignore_ascii_case t n = true in
  (forall n, n = UPGRADE \/ drops n -> hm_get_all n (strip_hop_by_hop_only h) = []) /\
  (forall n, n <> UPGRADE -> ~ drops n -> hm_get_all n (strip_hop_by_hop_only h) = hm_get_all n h) /\
  (forall n, n <> CONNECTION -> hm_get_all n (strip_hop_by_hop h) =
     if bool_decide (n = UPGRADE) then hm_get_all n h else hm_get_all n (strip_hop_by_hop_only h)) /\
  hm_get_all CONNECTION (strip_hop_by_hop h) = [UPGRADE] /\
  (forall n, n = "x-forwarded-for"%str \/ n = "x-real-ip"%str ->
     hm_get_all n (upstream_headers peer https host h) = if hop_named h n then [] else [v]) /\
  (forall n, forwarded_name n = false ->
     hm_get_all n (upstream_headers peer https host h) = hm_get_all n (strip_hop_by_hop_only h)).
Proof.
  cbv zeta. split; [|split; [|split; [|split; [|split]]]].
  - intros n Hn. rewrite strip_only_get. destruct Hn as [->|Hn]; [done|].
    apply hop_named_spec in Hn. by rewrite Hn, orb_true_r.
  - intros n Hu Hn. rewrite strip_only_get. rewrite <- hop_named_spec in Hn.
    unfold str_eqb. rewrite bool_decide_false by done. by destruct (hop_named h n).
  - intros n Hn. rewrite strip_tunnel_get, strip_only_get. rewrite bool_decide_false by done.
    unfold str_eqb. by destruct (bool_decide (n = UPGRADE)), (hop_named h n).
  - by rewrite strip_tunnel_get.
  - intros n Hn. rewrite upstream_headers_get, (add_forwarded_peer _ _ _ _ v) by done.
    assert (str_eqb n UPGRADE = false) as -> by (destruct Hn as [->| ->]; done). done.
  - intros n Hn. by rewrite upstream_headers_get, strip_only_get, add_forwarded_other.
Qed.

End Hop.

(** ** Examples *)

Definition demo_peer : IpAddr := V4 (mkV4 192 168 1 7).

Definition spoofing_client : list_headers :=
  [("host", "app.test"); ("connection", "keep-alive, X-Secret"); ("x-secret", "1"); ("upgrade", "h2c");
   ("x-forwarded-for", "8.8.8.8"); ("accept", "a"); ("accept", "b")]%str.

Lemma hop_by_hop_exact_witness :
  hv_from_str (IpAddr_fmt demo_peer) = Some "192.168.1.7"%str /\
  hm_get_all "x-secret"%str (strip_hop_by_hop_only spoofing_client) = [] /\
  hm_get_all "x-forwarded-for"%str (upstream_headers demo_peer false "app.test"%str spoofing_client) = ["192.168.1.7"%str] /\
  hm_get_all "accept"%str (upstream_headers demo_peer false "app.test"%str spoofing_client) = ["a"%str; "b"%str].
Proof.
  assert (hv_from_str (IpAddr_fmt demo_peer) = Some "192.168.1.7"%str) as Hv by by vm_compute.
  destruct (hop_by_hop_exact demo_peer false "app.test"%str spoofing_client _ Hv) as (H1 & _ & _ & _ & H5 & H6).
  split; [done|]. split; [|split].
  - apply H1. right. right. exists "X-Secret"%str.
    split; [apply (bool_decide_eq_true_1 _)|]; by vm_compute.
  - rewrite H5 by (by left). by vm_compute.
  - rewrite H6 by (by vm_compute). by vm_compute.
Defined.

(** A client's own [Connection] tokens also take away what the proxy set: the
    stripping runs after the forwarded headers are inserted. *)
Lemma connection_token_drops_forwarded :
  let h := [("host", "app.test"); ("connection", "x-forwarded-for, host")]%str : list_headers in
  hm_get_all "x-forwarded-for"%str (upstream_headers demo_peer false "app.test"%str h) = [] /\
  hm_get_all "host"%str (upstream_headers demo_peer false "app.test"%str h) = [].
Proof. by vm_compute. Qed.
