(* ===== verification/Fcgi.v ===== *)
(** * FastCGI

    [src/crates/orcker-proxy/src/pure/fcgi_codec.rs] (records and name-value
    pairs), [pure/cgi_params.rs] (the CGI environment of a request) and
    [forward/fcgi.rs] (what is sent to PHP-FPM and how its answer becomes the
    response).

    A backend is the bytes it will send and the error its end reads as; the
    request and the response go over separate halves of the socket, so each is a
    function.  A reading loop takes one unit of fuel per record; the bytes left
    are enough, since a record has at least eight ([forward_response_total]). *)

From S2P Require Import Prelude RustStr Utf8 RustPath Net Http CgiHead Hop.

Open Scope N_scope.

(** ** Records *)

Definition FCGI_VERSION : N := 1.
Definition FCGI_RESPONDER : N := 1.
Definition FCGI_MAX_PAYLOAD : N := 65535.

Inductive RecordType :=
| BeginRequest | AbortRequest | EndRequest | Params | Stdin | Stdout | Stderr
| GetValues | GetValuesResult | UnknownType.
#[export] Instance RecordType_eq_dec : EqDecision RecordType.
Proof. solve_decision. Defined.

Inductive FcgiError :=
| Short
| BadVersion (v : N)
| UnknownRecordType (b : N)
| LengthOverflow
| UnexpectedRequestId (id : N).

Definition RecordType_u8 (r : RecordType) : N :=
  match r with
  | BeginRequest => 1 | AbortRequest => 2 | EndRequest => 3 | Params => 4 | Stdin => 5 | Stdout => 6
  | Stderr => 7 | GetValues => 9 | GetValuesResult => 10 | UnknownType => 11
  end.
Definition from_u8 (b : N) : result FcgiError RecordType :=
  match b with
  | 1 => Ok BeginRequest | 2 => Ok AbortRequest | 3 => Ok EndRequest | 4 => Ok Params | 5 => Ok Stdin
  | 6 => Ok Stdout | 7 => Ok Stderr | 9 => Ok GetValues | 10 => Ok GetValuesResult | 11 => Ok UnknownType
  | other => Err (UnknownRecordType other)
  end.

Record Header := mkHeader {
  version : N;
  record_type : RecordType;
  request_id : N;
  content_length : N;
  padding_length : N;
}.

(** [u16] and [u32] big-endian bytes *)
Definition be16 (n : N) : list N := [n / 256 mod 256; n mod 256].
Definition be32 (n : N) : list N := [n / 16777216 mod 256; n / 65536 mod 256; n / 256 mod 256; n mod 256].
Definition of_be16 (a b : N) : N := a * 256 + b.
Definition of_be32 (a b c d : N) : N := a * 16777216 + b * 65536 + c * 256 + d.

Definition encode_header (h : Header) (out : list N) : list N :=
  out ++ [version h] ++ [RecordType_u8 (record_type h)] ++ be16 (request_id h) ++ be16 (content_length h)
  ++ [padding_length h] ++ [0].

Definition decode_header (bytes : list N) : result FcgiError Header :=
  match bytes with
  | [a0; a1; a2; a3; a4; a5; a6; _] =>
      if negb (a0 =? FCGI_VERSION) then Err (BadVersion a0)
      else
        rt ← from_u8 a1;
        Ok (mkHeader a0 rt (of_be16 a2 a3) (of_be16 a4 a5) a6)
  | _ => Err Short
  end.

Definition encode_length (len : N) (out : list N) : result FcgiError (list N) :=
  if len <=? 127 then Ok (out ++ [len])
  else if u32_max <? len then Err LengthOverflow
  else if 2147483647 <? len then Err LengthOverflow
  else Ok (out ++ be32 (N.lor len 2147483648)).

Definition encode_name_value (name value out : list N) : result FcgiError (list N) :=
  out ← encode_length (vlen name) out;
  out ← encode_length (vlen value) out;
  Ok (out ++ name ++ value).

Definition encode_begin_request_body (role : N) (keep_conn : bool) : list N :=
  be16 role ++ [if keep_conn then 1 else 0; 0; 0; 0; 0; 0].

Record EndRequestBody := mkEnd { app_status : N; protocol_status : N }.
Definition decode_end_request (bytes : list N) : result FcgiError EndRequestBody :=
  match bytes with
  | [a0; a1; a2; a3; a4; _; _; _] => Ok (mkEnd (of_be32 a0 a1 a2 a3) a4)
  | _ => Err Short
  end.

(** ** Lemmas: header and length round trips *)

Lemma be16_bytes n : n <= u16_max -> of_be16 (n / 256 mod 256) (n mod 256) = n.
Proof.
  intros Hn. unfold of_be16, u16_max in *. rewrite (N.mod_small (n / 256)).
  - pose proof (N.div_mod' n 256). lia.
  - apply N.Div0.div_lt_upper_bound. lia.
Qed.

Definition header_ok (h : Header) : Prop :=
  version h = FCGI_VERSION /\ request_id h <= u16_max /\ content_length h <= u16_max /\ padding_length h <= u8_max.

Lemma decode_encode_header h : header_ok h -> decode_header (encode_header h []) = Ok h.
Proof.
  intros (Hv & Hr & Hc & _). destruct h as [v rt id cl pad]. cbn in *. subst v.
  unfold decode_header, encode_header, be16. cbn [app version record_type request_id content_length padding_length].
  rewrite N.eqb_refl. cbn [negb]. assert (from_u8 (RecordType_u8 rt) = Ok rt) as -> by by destruct rt.
  cbn [mbind result_bind]. by rewrite !be16_bytes.
Qed.

Lemma decode_header_ok bytes h :
  Forall (fun b => b < 256) bytes -> decode_header bytes = Ok h -> header_ok h.
Proof.
  intros Hb. unfold decode_header.
  destruct bytes as [|a0 [|a1 [|a2 [|a3 [|a4 [|a5 [|a6 [|a7 [|? ?]]]]]]]]]; try done.
  destruct (a0 =? FCGI_VERSION) eqn:E; cbn [negb]; [|done]. bprop.
  destruct (from_u8 a1); cbn [mbind result_bind]; [|done]. intros [= <-].
  rewrite !Forall_cons in Hb. unfold header_ok, of_be16, u16_max, u8_max. cbn. repeat split; [done|lia..].
Qed.

(** ** The CGI environment *)

Record AutoLoginParams := mkLogin { prepend_script : str; target_user : str }.

Definition split_path_query (path_and_query : str) : str * str :=
  match split_once "?"%ch path_and_query with Some (p, q) => (p, q) | None => (path_and_query, []) end.

(** [str::replace] of a character. *)
Definition replace_char (from to : N) (s : str) : str := map (fun c => if c =? from then to else c) s.

(** The [HTTP_*] name of a header. *)
Definition http_key (name : str) : list N :=
  "HTTP_"%str ++ map (fun b => if b =? "-"%ch then "_"%ch else upper_char b) (as_bytes name).

Inductive ProxyError :=
| BackendResolverError (host source : str)
| BackendResolverBoxed (host : str) (source : ProxyError)
| BackendConnect (backend : str) (source : io_kind)
| BackendProtocol (source : io_kind)
| BackendProtocolMsg (msg : str)
| FcgiFailed (source : FcgiError).

Section Fcgi.
Context `{Http H}.

Definition opt_param (name : str) (v : option str) : list (list N * list N) :=
  match v with Some v => [(name, as_bytes v)] | None => [] end.

(** The variables the proxy computes. *)
Definition server_vars (method path_and_query : str) (document_root : str)
    (script_rel : option str) (https : bool) (remote_addr server_addr : SocketAddr)
    (auto_login : option AutoLoginParams) : list (list N * list N) :=
  let '(path, query) := split_path_query path_and_query in
  let '(script_filename, script_name) :=
    match script_rel with
    | Some rel => (path_join document_root rel, "/"%str ++ replace_char "\"%ch "/"%ch rel)
    | None => (path_join document_root "index.php"%str, "/index.php"%str)
    end in
  let push (name value : str) := (name : list N, as_bytes value) in
  [push "GATEWAY_INTERFACE"%str "CGI/1.1"%str;
   push "SERVER_PROTOCOL"%str "HTTP/1.1"%str;
   push "REQUEST_METHOD"%str method;
   push "REQUEST_URI"%str path_and_query;
   push "QUERY_STRING"%str query;
   push "SCRIPT_NAME"%str script_name;
   push "SCRIPT_FILENAME"%str script_filename;
   push "DOCUMENT_ROOT"%str document_root;
   push "PATH_INFO"%str path;
   push "REMOTE_ADDR"%str (IpAddr_fmt (addr_ip remote_addr));
   push "REMOTE_PORT"%str (show_uint (addr_port remote_addr));
   push "SERVER_ADDR"%str (IpAddr_fmt (addr_ip server_addr));
   push "SERVER_PORT"%str (show_uint (addr_port server_addr));
   push "SERVER_SOFTWARE"%str "orcker (nginx-compatible)"%str]
  ++ (if https then [push "HTTPS"%str "on"%str] else [])
  ++ match auto_login with
     | Some login => [push "PHP_VALUE"%str ("auto_prepend_file="%str ++ prepend_script login);
                      push "ORCKER_LOGIN_USER"%str (target_user login)]
     | None => []
     end.

(** The variables that come from the headers. *)
Definition header_params (headers : H) : list (list N * list N) :=
  match header_str "host"%str headers with
  | Some host => [("SERVER_NAME"%str, as_bytes host); ("HTTP_HOST"%str, as_bytes host)]
  | None => []
  end
  ++ opt_param "CONTENT_TYPE"%str (header_str "content-type"%str headers)
  ++ opt_param "CONTENT_LENGTH"%str (header_str "content-length"%str headers)
  ++ omap (fun e : str * list N =>
       if bool_decide (e.1 ∈ ["host"; "content-type"; "content-length"]%str) then None
       else Some (http_key e.1, e.2)) (hm_iter headers).

Definition build_params (method path_and_query : str) (headers : H) (document_root : str)
    (script_rel : option str) (https : bool) (remote_addr server_addr : SocketAddr)
    (auto_login : option AutoLoginParams) : list (list N * list N) :=
  server_vars method path_and_query document_root script_rel https remote_addr server_addr auto_login
  ++ header_params headers.

(** ** The request *)

Definition REQUEST_ID : N := 1.

Definition write_record (out : list N) (rt : RecordType) (content : list N) : list N :=
  let len := if vlen content <=? u16_max then vlen content else u16_max in
  encode_header (mkHeader FCGI_VERSION rt REQUEST_ID len 0) out ++ content.

(** [slice::chunks]: no piece for an empty slice. *)
Fixpoint chunks_fuel (fuel : nat) (n : N) (l : list N) : list (list N) :=
  match fuel, l with
  | _, [] => []
  | O, _ => []
  | S f, _ => take (N.to_nat n) l :: chunks_fuel f n (drop (N.to_nat n) l)
  end.
Definition chunks (n : N) (l : list N) : list (list N) := chunks_fuel (length l) n l.

Definition encode_params (params : list (list N * list N)) : result FcgiError (list N) :=
  for_fold (fun buf p => encode_name_value p.1 p.2 buf) [] params.

(** The start of a request: [BEGIN_REQUEST] and the environment. *)
Definition request_prelude (params : list (list N * list N)) : result FcgiError (list N) :=
  let prelude := write_record [] BeginRequest (encode_begin_request_body FCGI_RESPONDER false) in
  param_buf ← encode_params params;
  let prelude := foldl (fun out chunk => write_record out Params chunk) prelude (chunks FCGI_MAX_PAYLOAD param_buf) in
  Ok (write_record prelude Params []).

(** What the client's body yields. *)
Inductive ReqFrame := ReqData (data : list N) | ReqTrailers | ReqFailed.

(** [write_request] to a socket that takes everything: the bytes and whether
    the body was whole. *)
Fixpoint write_body (out : list N) (body : list ReqFrame) : list N * bool :=
  match body with
  | [] => (write_record out Stdin [], true)
  | ReqFailed :: _ => (out, false)
  | ReqTrailers :: rest => write_body out rest
  | ReqData data :: rest =>
      write_body (foldl (fun out chunk => out ++ write_record [] Stdin chunk) out (chunks FCGI_MAX_PAYLOAD data)) rest
  end.
Definition write_request (prelude : list N) (body : list ReqFrame) : list N * bool := write_body prelude body.

(** ** The response *)

(** The bytes a backend will send and the error reading past them gives. *)
Record Stream := mkStream { s_bytes : list N; s_end : io_kind }.

Definition read_exact (n : N) (s : Stream) : result ProxyError (list N * Stream) :=
  if n <=? vlen (s_bytes s)
  then Ok (take (N.to_nat n) (s_bytes s), mkStream (drop (N.to_nat n) (s_bytes s)) (s_end s))
  else Err (BackendProtocol (s_end s)).

Definition read_record (s : Stream) : result ProxyError (Header * list N * Stream) :=
  hb ← read_exact 8 s;
  header ← map_err FcgiFailed (decode_header hb.1);
  if negb (request_id header =? REQUEST_ID) then Err (FcgiFailed (UnexpectedRequestId (request_id header)))
  else
    content ← read_exact (content_length header) hb.2;
    if 0 <? padding_length header then
      pad ← read_exact (padding_length header) content.2; Ok (header, content.1, pad.2)
    else Ok (header, content.1, content.2).

(** Until the head is complete; [None] when the fuel runs out. *)
Fixpoint head_loop (fuel : nat) (acc : list N) (s : Stream)
  : option (result ProxyError (option Head * list N * Stream)) :=
  match fuel with
  | O => None
  | S fuel =>
      match read_record s with
      | Err e => Some (Err e)
      | Ok (header, content, s) =>
          match record_type header with
          | Stdout =>
              match feed status_from_u16 acc content with
              | (Pending, acc) => head_loop fuel acc s
              | (Complete h, acc) => Some (Ok (Some h, acc, s))
              | (HeadTooLarge, _) =>
                  Some (Err (BackendProtocolMsg "FPM response head exceeded the size limit"%str))
              end
          | EndRequest => Some (Ok (None, acc, s))
          | _ => head_loop fuel acc s
          end
      end
  end.

Definition MAX_DISCARDED_BYTES : N := 8 * 1024 * 1024.

Fixpoint drain_to_end_request (fuel : nat) (discarded : N) (s : Stream)
  : option (result ProxyError (option N)) :=
  match fuel with
  | O => None
  | S fuel =>
      match read_record s with
      | Err e => Some (Err e)
      | Ok (header, content, s) =>
          match record_type header with
          | Stdout =>
              let discarded := N.min u64_max (discarded + vlen content) in
              if MAX_DISCARDED_BYTES <? discarded then Some (Ok None)
              else drain_to_end_request fuel discarded s
          | EndRequest => Some (Ok (Some discarded))
          | _ => drain_to_end_request fuel discarded s
          end
      end
  end.

(** The frames relayed to a client that stays, and whether the body is cut off. *)
Fixpoint read_response (fuel : nat) (s : Stream) : option (list (list N) * bool) :=
  match fuel with
  | O => None
  | S fuel =>
      match read_record s with
      | Err _ => Some ([], true)
      | Ok (header, content, s) =>
          match record_type header with
          | Stdout =>
              if is_empty content then read_response fuel s
              else '(frames, aborted) ← read_response fuel s; Some (content :: frames, aborted)
          | EndRequest => Some ([], false)
          | _ => read_response fuel s
          end
      end
  end.

Definition can_have_content_length (method : str) (status : N) : bool :=
  if is_informational status || (str_eqb method "CONNECT" && is_success status) then false
  else negb ((status =? 204) || (status =? 304)).
Definition can_have_body (method : str) (status : N) : bool :=
  negb (str_eqb method "HEAD") && can_have_content_length method status.

Definition restore_head_content_length (head : Head) (method : str) (body_len : N) : Head :=
  if negb (str_eqb method "HEAD") || negb (can_have_content_length method (hd_status head)) then head
  else if existsb (fun e => eq_ignore_ascii_case e.1 "content-length") (hd_headers head) then head
  else mkHead (hd_status head) (hd_headers head ++ [("Content-Length"%str, show_uint body_len)]) (body_remainder head).

Definition append_header (h : H) (e : str * str) : H :=
  if eq_ignore_ascii_case e.1 "x-accel-buffering" then h
  else match hn_from_bytes (as_bytes e.1), hv_from_bytes (as_bytes e.2) with
       | Some n, Some v => hm_append n v h
       | _, _ => h
       end.

Definition synthesise_response (head : Head) (body : Body) : Response H :=
  mkResponse (hd_status head) (strip_hop_by_hop_only (foldl append_header hm_empty (hd_headers head))) body.

Definition forward_response (method : str) (s : Stream) : option (result ProxyError (Response H)) :=
  let fuel := S (length (s_bytes s)) in
  r ← head_loop fuel [] s;
  match r with
  | Err e => Some (Err e)
  | Ok (None, acc, _) => Some (Ok (synthesise_response (finish status_from_u16 acc) empty_body))
  | Ok (Some head, _, s) =>
      if negb (can_have_body method (hd_status head)) then
        d ← drain_to_end_request fuel 0 s;
        match d with
        | Err e => Some (Err e)
        | Ok drained =>
            let head := match drained with
                        | Some discarded =>
                            restore_head_content_length head method
                              (N.min u64_max (vlen (body_remainder head) + discarded))
                        | None => head
                        end in
            Some (Ok (synthesise_response head empty_body))
        end
      else
        '(frames, aborted) ← read_response fuel s;
        let frames := if is_empty (body_remainder head) then frames else body_remainder head :: frames in
        Some (Ok (synthesise_response head (mkBody frames aborted)))
  end.

End Fcgi.

(** ** Records on the wire *)

(** A record as a peer may write it: any padding. *)
Record Rec := mkRec { rec_type : RecordType; rec_content : list N; rec_padding : list N }.
Definition rec_ok (r : Rec) : Prop := vlen (rec_content r) <= u16_max /\ vlen (rec_padding r) <= u8_max.
Definition rec_bytes (r : Rec) : list N :=
  encode_header (mkHeader FCGI_VERSION (rec_type r) REQUEST_ID (vlen (rec_content r)) (vlen (rec_padding r))) []
  ++ rec_content r ++ rec_padding r.
Definition wire (rs : list Rec) : list N := mjoin (rec_bytes <$> rs).

Lemma wire_app a b : wire (a ++ b) = wire a ++ wire b.
Proof. unfold wire. by rewrite fmap_app, join_app. Qed.

Lemma read_exact_app n a rest e :
  vlen a = n -> read_exact n (mkStream (a ++ rest) e) = Ok (a, mkStream rest e).
Proof.
  intros Hn. unfold read_exact. cbn [s_bytes s_end]. rewrite vlen_app.
  assert ((n <=? vlen a + vlen rest) = true) as -> by (apply N.leb_le; lia).
  assert (N.to_nat n = length a) as -> by (unfold vlen in Hn; lia). by rewrite take_app_length, drop_app_length.
Qed.

Lemma read_rec r rest e :
  rec_ok r ->
  read_record (mkStream (rec_bytes r ++ rest) e)
  = Ok (mkHeader FCGI_VERSION (rec_type r) REQUEST_ID (vlen (rec_content r)) (vlen (rec_padding r)),
        rec_content r, mkStream rest e).
Proof.
  intros [Hc Hp]. unfold read_record, rec_bytes. rewrite <- !app_assoc.
  set (h := mkHeader _ _ _ _ _).
  assert (header_ok h) as Hh by (repeat split; [by vm_compute|done|done]).
  rewrite read_exact_app by done. cbn [mbind result_bind fst snd].
  rewrite (decode_encode_header h Hh). cbn [map_err mbind result_bind]. unfold h. cbn [request_id content_length padding_length].
  rewrite N.eqb_refl. cbn [negb]. rewrite read_exact_app by done. cbn [mbind result_bind fst snd].
  destruct (0 <? vlen (rec_padding r)) eqn:E.
  - by rewrite read_exact_app by done.
  - assert (rec_padding r = []) as -> by (apply vlen_0; bprop; apply N.eqb_eq; lia). done.
Qed.

Lemma read_record_end e : read_record (mkStream [] e) = Err (BackendProtocol e).
Proof. done. Qed.

(** Reading consumes at least a header. *)
Lemma read_record_shrinks s h c s' :
  read_record s = Ok (h, c, s') -> (length (s_bytes s') + 8 <= length (s_bytes s))%nat.
Proof.
  assert (forall n s r, read_exact n s = Ok r ->
    (length (s_bytes r.2) + N.to_nat n <= length (s_bytes s))%nat) as Hx.
  { intros n [b e] r. unfold read_exact. cbn [s_bytes s_end]. destruct (n <=? vlen b) eqn:E; [|done].
    intros [= <-]. cbn. rewrite length_drop. bprop. unfold vlen in E. lia. }
  unfold read_record. destruct (read_exact 8 s) as [r8|] eqn:E8; cbn [mbind result_bind]; [|done].
  destruct (decode_header r8.1) as [hd|]; cbn [map_err mbind result_bind]; [|done].
  destruct (negb _); [done|]. destruct (read_exact (content_length hd) r8.2) as [rc|] eqn:Ec; cbn [mbind result_bind]; [|done].
  apply Hx in E8, Ec. destruct (0 <? padding_length hd).
  - destruct (read_exact (padding_length hd) rc.2) as [rp|] eqn:Ep; cbn [mbind result_bind]; [|done].
    apply Hx in Ep. intros [= _ _ <-]. lia.
  - intros [= _ _ <-]. lia.
Qed.

Lemma write_record_rec out rt content :
  vlen content <= u16_max -> write_record out rt content = out ++ rec_bytes (mkRec rt content []).
Proof.
  intros Hc. unfold write_record, rec_bytes, encode_header. cbn [rec_content rec_padding rec_type].
  apply N.leb_le in Hc. rewrite Hc. cbn. by rewrite app_nil_r, <- app_assoc.
Qed.

Lemma chunks_spec n l : 0 < n -> mjoin (chunks n l) = l /\ Forall (fun c => c <> [] /\ vlen c <= n) (chunks n l).
Proof.
  intros Hn. unfold chunks. assert (forall fuel l, (length l <= fuel)%nat ->
    mjoin (chunks_fuel fuel n l) = l /\ Forall (fun c => c <> [] /\ vlen c <= n) (chunks_fuel fuel n l)) as Hf;
    [|by apply Hf].
  induction fuel as [|fuel IH]; intros [|x m] Hl; cbn [length] in Hl; try lia; try by repeat constructor.
  assert (0 < N.to_nat n)%nat as Hk by lia. set (k := N.to_nat n) in *.
  assert (chunks_fuel (S fuel) n (x :: m) = take k (x :: m) :: chunks_fuel fuel n (drop k (x :: m))) as -> by done.
  destruct (IH (drop k (x :: m))) as [H1 H2].
  { rewrite length_drop. cbn. lia. }
  split.
  - change (mjoin (?a :: ?b)) with (a ++ mjoin b). by rewrite H1, take_drop.
  - constructor; [|done]. split; [by destruct k; [lia|]|]. unfold vlen. rewrite length_take. lia.
Qed.

(** What a peer reads until the bytes end. *)
Fixpoint read_all (fuel : nat) (s : Stream) : list (RecordType * list N) * option ProxyError :=
  match fuel with
  | O => ([], None)
  | S fuel =>
      match read_record s with
      | Err e => ([], Some e)
      | Ok (h, c, s) => let '(rs, e) := read_all fuel s in ((record_type h, c) :: rs, e)
      end
  end.

Lemma read_all_wire rs e fuel :
  Forall rec_ok rs -> (length rs < fuel)%nat ->
  read_all fuel (mkStream (wire rs) e) = ((fun r => (rec_type r, rec_content r)) <$> rs, Some (BackendProtocol e)).
Proof.
  intros Hok. revert fuel. induction Hok as [|r rs Hr Hrs IH]; intros [|fuel] Hf; cbn [length] in Hf; try lia; [done|].
  cbn [read_all]. change (wire (r :: rs)) with (rec_bytes r ++ wire rs). rewrite read_rec by done.
  rewrite IH by lia. done.
Qed.

Lemma length_rec_bytes r : (8 <= length (rec_bytes r))%nat.
Proof. unfold rec_bytes, encode_header. rewrite length_app. cbn. lia. Qed.

Lemma length_wire rs : (length rs <= length (wire rs))%nat.
Proof.
  induction rs as [|r rs IH]; [done|]. change (wire (r :: rs)) with (rec_bytes r ++ wire rs).
  rewrite length_app. pose proof (length_rec_bytes r). cbn. lia.
Qed.

(** ** Name-value pairs *)

(** What a FastCGI application reads. *)
Definition decode_length (bs : list N) : option (N * list N) :=
  match bs with
  | b0 :: r =>
      if b0 <? 128 then Some (b0, r)
      else match r with
           | b1 :: b2 :: b3 :: r' => Some (of_be32 (b0 - 128) b1 b2 b3, r')
           | _ => None
           end
  | [] => None
  end.
Definition decode_pair (bs : list N) : option (list N * list N * list N) :=
  '(nlen, r) ← decode_length bs;
  '(vlen', r) ← decode_length r;
  if nlen + vlen' <=? vlen r
  then Some (take (N.to_nat nlen) r, take (N.to_nat vlen') (drop (N.to_nat nlen) r),
             drop (N.to_nat vlen') (drop (N.to_nat nlen) r))
  else None.
Fixpoint decode_pairs (fuel : nat) (bs : list N) : option (list (list N * list N)) :=
  match bs, fuel with
  | [], _ => Some []
  | _, O => None
  | _, S fuel => '(n, v, r) ← decode_pair bs; rest ← decode_pairs fuel r; Some ((n, v) :: rest)
  end.

Definition max_length : N := 2147483647.

Lemma lor_high_bit n : n <= max_length -> N.lor n 2147483648 = n + 2147483648.
Proof.
  intros Hn. change 2147483648 with (2 ^ 31).
  assert (N.land n (2 ^ 31) = 0) as Hl.
  { apply N.bits_inj_iff. intros k. rewrite N.land_spec, N.bits_0, N.pow2_bits_eqb.
    destruct (31 =? k) eqn:E; [|apply andb_false_r]. bprop. subst.
    rewrite N.testbit_eqb, N.div_small; [done|]. unfold max_length in Hn. change (2 ^ 31) with 2147483648. lia. }
  by rewrite N.add_nocarry_lxor, N.lxor_lor.
Qed.

Lemma be32_high n : n <= max_length ->
  be32 (n + 2147483648) = [n / 16777216 + 128; n / 65536 mod 256; n / 256 mod 256; n mod 256].
Proof.
  intros Hn. unfold be32, max_length in *.
  assert (n / 16777216 < 128) by (apply N.Div0.div_lt_upper_bound; lia).
  replace (n + 2147483648) with (n + 128 * 16777216) by lia. rewrite N.div_add by lia.
  replace (n + 128 * 16777216) with (n + 32768 * 65536) by lia. rewrite N.div_add by lia.
  replace (n + 32768 * 65536) with (n + 8388608 * 256) by lia. rewrite N.div_add by lia.
  rewrite N.Div0.mod_add. replace (n / 65536 + 32768) with (n / 65536 + 128 * 256) by lia.
  replace (n / 256 + 8388608) with (n / 256 + 32768 * 256) by lia. rewrite !N.Div0.mod_add.
  rewrite N.mod_small by lia. done.
Qed.

Lemma of_be32_digits n : of_be32 (n / 16777216) (n / 65536 mod 256) (n / 256 mod 256) (n mod 256) = n.
Proof.
  unfold of_be32. pose proof (N.div_mod' n 256) as H0. pose proof (N.div_mod' (n / 256) 256) as H1.
  pose proof (N.div_mod' (n / 65536) 256) as H2.
  assert (n / 65536 = n / 256 / 256) as E1 by by rewrite N.Div0.div_div.
  assert (n / 16777216 = n / 65536 / 256) as E2 by by rewrite N.Div0.div_div.
  rewrite E2. rewrite <- E1 in H1. lia.
Qed.

(** The length prefix round-trips exactly on the lengths it accepts. *)
Lemma encode_length_spec n out :
  if n <=? max_length
  then exists p, encode_length n out = Ok (out ++ p) /\ p <> [] /\ forall rest, decode_length (p ++ rest) = Some (n, rest)
  else encode_length n out = Err LengthOverflow.
Proof.
  unfold encode_length, u32_max. fold max_length. destruct (n <=? max_length) eqn:E; bprop.
  - destruct (n <=? 127) eqn:E1; bprop.
    + exists [n]. split; [done|]. split; [done|]. intros rest. cbn.
      assert ((n <? 128) = true) as -> by (apply N.ltb_lt; lia). done.
    + assert ((4294967295 <? n) = false) as -> by (apply N.ltb_ge; unfold max_length in *; lia).
      assert ((max_length <? n) = false) as -> by (apply N.ltb_ge; lia).
      eexists. split; [done|]. rewrite lor_high_bit, be32_high by done. split; [done|]. intros rest. cbn [app decode_length].
      assert ((n / 16777216 + 128 <? 128) = false) as -> by (apply N.ltb_ge; lia).
      replace (n / 16777216 + 128 - 128) with (n / 16777216) by lia. by rewrite of_be32_digits.
  - assert ((n <=? 127) = false) as -> by (apply N.leb_gt; unfold max_length in *; lia).
    destruct (4294967295 <? n); [done|]. assert ((max_length <? n) = true) as -> by (apply N.ltb_lt; lia). done.
Qed.

Definition pair_fits (p : list N * list N) : bool := (vlen p.1 <=? max_length) && (vlen p.2 <=? max_length).

Lemma encode_name_value_spec p out :
  if pair_fits p
  then exists b, encode_name_value p.1 p.2 out = Ok (out ++ b) /\ b <> [] /\
         forall rest, decode_pair (b ++ rest) = Some (p.1, p.2, rest)
  else encode_name_value p.1 p.2 out = Err LengthOverflow.
Proof.
  unfold encode_name_value, pair_fits. destruct p as [n v]. cbn [fst snd].
  pose proof (encode_length_spec (vlen n) out) as Hn. destruct (vlen n <=? max_length); [|by rewrite Hn].
  destruct Hn as (pn & -> & Hpn & Dn). cbn [mbind result_bind andb].
  pose proof (encode_length_spec (vlen v) (out ++ pn)) as Hv. destruct (vlen v <=? max_length); [|by rewrite Hv].
  destruct Hv as (pv & -> & _ & Dv). cbn [mbind result_bind]. exists (pn ++ pv ++ n ++ v).
  split; [by rewrite <- !app_assoc|]. split; [by destruct pn|]. intros rest. unfold decode_pair.
  rewrite <- !app_assoc, Dn. cbn [mbind option_bind]. rewrite Dv. cbn [mbind option_bind].
  rewrite !vlen_app. assert ((vlen n + vlen v <=? vlen n + (vlen v + vlen rest)) = true) as -> by (apply N.leb_le; lia).
  unfold vlen. rewrite !Nat2N.id. rewrite take_app_length, drop_app_length, take_app_length, drop_app_length. done.
Qed.

Lemma encode_params_spec params :
  if forallb pair_fits params
  then exists buf, encode_params params = Ok buf /\ forall fuel, (length buf <= fuel)%nat -> decode_pairs fuel buf = Some params
  else encode_params params = Err LengthOverflow.
Proof.
  unfold encode_params. assert (forall out, if forallb pair_fits params
    then exists b, for_fold (fun buf p => encode_name_value p.1 p.2 buf) out params = Ok (out ++ b) /\
           forall fuel, (length b <= fuel)%nat -> decode_pairs fuel b = Some params
    else for_fold (fun buf p => encode_name_value p.1 p.2 buf) out params = Err LengthOverflow) as Hg; [|exact (Hg [])].
  induction params as [|p params IH]; intros out; cbn [forallb for_fold].
  { exists []. rewrite app_nil_r. split; [done|]. by intros [|fuel]. }
  pose proof (encode_name_value_spec p out) as Hp. destruct (pair_fits p); [|by rewrite Hp].
  destruct Hp as (b & -> & Hb & Db). cbn [andb]. specialize (IH (out ++ b)).
  destruct (forallb pair_fits params); [|done]. destruct IH as (b' & -> & Db').
  exists (b ++ b'). split; [by rewrite app_assoc|]. intros fuel Hf. rewrite length_app in Hf.
  destruct b as [|x b]; [done|]. destruct fuel as [|fuel]; [cbn in Hf; lia|].
  cbn [app decode_pairs]. change (x :: b ++ b') with ((x :: b) ++ b'). rewrite Db. cbn [mbind option_bind].
  rewrite Db' by (cbn in Hf; lia). cbn. by destruct p.
Qed.

(** The codec is exact on machine widths. *)
Lemma be16_inv a b : a < 256 -> b < 256 -> be16 (of_be16 a b) = [a; b].
Proof.
  intros Ha Hb. unfold be16, of_be16. rewrite N.add_comm, N.div_add, N.div_small, N.add_0_l by lia.
  rewrite N.Div0.mod_add, !N.mod_small by lia. done.
Qed.

Lemma encode_decode_header bytes h :
  Forall (fun b => b < 256) bytes -> decode_header bytes = Ok h ->
  length bytes = 8%nat /\ take 7 (encode_header h []) = take 7 bytes.
Proof.
  intros Hb. unfold decode_header.
  destruct bytes as [|a0 [|a1 [|a2 [|a3 [|a4 [|a5 [|a6 [|a7 [|? ?]]]]]]]]]; try done.
  destruct (a0 =? FCGI_VERSION) eqn:E; cbn [negb]; [|done]. bprop.
  destruct (from_u8 a1) as [rt|] eqn:Er; cbn [mbind result_bind]; [|done]. intros [= <-]. split; [done|].
  rewrite !Forall_cons in Hb. unfold encode_header. cbn [app version record_type request_id content_length padding_length].
  rewrite !be16_inv by lia. cbn [app take].
  assert (RecordType_u8 rt = a1) as ->; [|done]. unfold from_u8 in Er.
  repeat (case_match; try done); by injection Er as <-.
Qed.

(** The FastCGI codec is exact at machine widths. A header whose fields fit
    their [u8] and [u16] survives encoding and decoding; eight bytes that decode
    give such fields and encode back to the same bytes but the reserved one; and
    a length prefix is written exactly up to [2^31 - 1], the 31 bits the format
    has, read back whole from any longer input, and refused above. *)
Theorem codec_bounds :
  (forall h, header_ok h -> decode_header (encode_header h []) = Ok h) /\
  (forall bytes h, Forall (fun b => b < 256) bytes -> decode_header bytes = Ok h ->
     header_ok h /\ length bytes = 8%nat /\ take 7 (encode_header h []) = take 7 bytes) /\
  (forall n out, if n <=? 2147483647
     then exists p, encode_length n out = Ok (out ++ p) /\ p <> [] /\
          forall rest, decode_length (p ++ rest) = Some (n, rest)
     else encode_length n out = Err LengthOverflow).
Proof.
  split; [apply decode_encode_header|]. split; [|apply encode_length_spec].
  intros bytes h Hb Hd. split; [by eapply decode_header_ok|]. by eapply encode_decode_header.
Qed.

(** ** The request on the wire *)

Notation plain rt := (fun c => mkRec rt c []).

Lemma plain_ok rt cs : Forall (fun c => c <> [] /\ vlen c <= u16_max) cs -> Forall rec_ok (plain rt <$> cs).
Proof. intros Hc. apply Forall_fmap. eapply Forall_impl; [done|]. intros c [_ Hv]. by split. Qed.

Lemma fold_records rt cs out :
  Forall (fun c => c <> [] /\ vlen c <= u16_max) cs ->
  foldl (fun out chunk => write_record out rt chunk) out cs = out ++ wire (plain rt <$> cs) /\
  foldl (fun out chunk => out ++ write_record [] rt chunk) out cs = out ++ wire (plain rt <$> cs).
Proof.
  intros Hc. revert out. induction Hc as [|c cs [_ Hc] _ IH]; intros out; [by rewrite app_nil_r|].
  cbn [foldl fmap list_fmap]. change (wire (?a :: ?b)) with (rec_bytes a ++ wire b).
  rewrite !write_record_rec by done. cbn [app]. destruct (IH (out ++ rec_bytes (mkRec rt c []))) as [-> ->].
  by rewrite <- app_assoc.
Qed.

(** The client's bytes up to the end of its body or its failure. *)
Fixpoint body_sent (body : list ReqFrame) : list N * bool :=
  match body with
  | [] => ([], true)
  | ReqFailed :: _ => ([], false)
  | ReqTrailers :: rest => body_sent rest
  | ReqData data :: rest => let '(d, whole) := body_sent rest in (data ++ d, whole)
  end.

Lemma write_body_spec body : forall out, exists ds,
  write_body out body = (out ++ wire ((plain Stdin <$> ds) ++ if (body_sent body).2 then [mkRec Stdin [] []] else []),
                         (body_sent body).2) /\
  mjoin ds = (body_sent body).1 /\ Forall (fun c => c <> [] /\ vlen c <= u16_max) ds.
Proof.
  induction body as [|[data| |] body IH]; intros out; cbn [write_body body_sent].
  - exists []. rewrite write_record_rec by done. by repeat constructor.
  - destruct (chunks_spec FCGI_MAX_PAYLOAD data) as [Hj Hc]; [done|].
    destruct (fold_records Stdin _ out Hc) as [_ ->].
    destruct (IH (out ++ wire (plain Stdin <$> chunks FCGI_MAX_PAYLOAD data))) as (ds & -> & Hd & Hok).
    destruct (body_sent body) as [d whole]. exists (chunks FCGI_MAX_PAYLOAD data ++ ds). split; [|split].
    + cbn [fst snd]. by rewrite fmap_app, !wire_app, <- !app_assoc.
    + cbn [fst] in *. rewrite join_app, Hj. by rewrite Hd.
    + by apply Forall_app.
  - apply IH.
  - exists []. rewrite app_nil_r. by repeat constructor.
Qed.

Lemma request_prelude_spec params :
  if forallb pair_fits params
  then exists buf cs, request_prelude params
         = Ok (wire (mkRec BeginRequest (encode_begin_request_body FCGI_RESPONDER false) []
                     :: (plain Params <$> cs) ++ [mkRec Params [] []])) /\
       mjoin cs = buf /\ decode_pairs (length buf) buf = Some params /\
       Forall (fun c => c <> [] /\ vlen c <= u16_max) cs
  else request_prelude params = Err LengthOverflow.
Proof.
  unfold request_prelude. pose proof (encode_params_spec params) as Hp.
  destruct (forallb pair_fits params); [|by rewrite Hp]. destruct Hp as (buf & -> & Hd). cbn [mbind result_bind].
  destruct (chunks_spec FCGI_MAX_PAYLOAD buf) as [Hj Hc]; [done|].
  exists buf, (chunks FCGI_MAX_PAYLOAD buf). split; [|split; [done|split; [by apply Hd|done]]].
  destruct (fold_records Params _ (write_record [] BeginRequest (encode_begin_request_body FCGI_RESPONDER false)) Hc) as [-> _].
  rewrite !write_record_rec by done. change (wire (?a :: ?b)) with (rec_bytes a ++ wire b).
  rewrite wire_app. cbn [app]. by rewrite <- app_assoc.
Qed.

(** C37. What PHP-FPM reads is the request. Whatever the environment and however
    the client's body is framed, an environment whose names and values fit the
    31-bit length prefix (and no other) is sent, and reading the bytes back gives
    [BEGIN_REQUEST], the environment, its empty record, then exactly the client's
    bytes as non-empty [STDIN] records: the empty one that ends the body is
    written once, last, and never when the client failed part-way. *)
Theorem request_on_the_wire params body e :
  match request_prelude params with
  | Err err => err = LengthOverflow /\ exists p, p ∈ params /\ (max_length < vlen p.1 \/ max_length < vlen p.2)
  | Ok prelude =>
      let '(bytes, whole) := write_request prelude body in
      exists cs ds,
        read_all (S (length bytes)) (mkStream bytes e)
        = ((BeginRequest, [0; 1; 0; 0; 0; 0; 0; 0]) :: (pair Params <$> cs) ++ [(Params, [])]
             ++ (pair Stdin <$> ds) ++ (if whole then [(Stdin, [])] else []), Some (BackendProtocol e)) /\
        decode_pairs (length (mjoin cs)) (mjoin cs) = Some params /\
        (mjoin ds, whole) = body_sent body /\
        Forall (fun c => c <> [] /\ vlen c <= FCGI_MAX_PAYLOAD) (cs ++ ds)
  end.
Proof.
  pose proof (request_prelude_spec params) as Hp. destruct (forallb pair_fits params) eqn:F.
  - destruct Hp as (buf & cs & -> & <- & Hd & Hc). unfold write_request.
    match goal with |- context [write_body (wire ?l)] => set (pre := l) end.
    destruct (write_body_spec body (wire pre)) as (ds & -> & Hj & Hds).
    destruct (body_sent body) as [d whole]. cbn [fst snd] in *. exists cs, ds.
    rewrite <- wire_app. set (rs := pre ++ _). split; [|split; [done|split; [by rewrite Hj|by apply Forall_app]]].
    rewrite read_all_wire.
    + f_equal. unfold rs, pre. cbn [fmap list_fmap app]. rewrite !fmap_app, <- !list_fmap_compose, <- !app_assoc.
      cbn. do 4 f_equal. by destruct whole.
    + unfold rs, pre. constructor; [by split|]. repeat apply Forall_app_2; try (by apply plain_ok).
      * by repeat constructor.
      * destruct whole; by repeat constructor.
    + pose proof (length_wire rs). lia.
  - rewrite Hp. split; [done|]. apply not_true_iff_false in F. rewrite forallb_elem in F.
    assert (exists p, p ∈ params /\ pair_fits p = false) as (p & Hin & Hf).
    { destruct (existsb (fun p => negb (pair_fits p)) params) eqn:E.
      - apply existsb_elem in E as (p & Hin & Hb). exists p. by bprop.
      - destruct F. intros p Hin. rewrite existsb_none in E. specialize (E p Hin). by bprop. }
    exists p. split; [done|]. unfold pair_fits in Hf. apply andb_false_iff in Hf as [Hf|Hf]; bprop; auto.
Qed.

(** ** The response off the wire *)

Section Relay.
Context `{Http H}.

Definition stdout_of (rs : list Rec) : list (list N) :=
  omap (fun r => if bool_decide (rec_type r = Stdout) then Some (rec_content r) else None) rs.
Definition no_end (rs : list Rec) : Prop := Forall (fun r => rec_type r <> EndRequest) rs.

Lemma wire_cons_app r rs tail : wire (r :: rs) ++ tail = rec_bytes r ++ (wire rs ++ tail).
Proof. change (wire (r :: rs)) with (rec_bytes r ++ wire rs). by rewrite <- app_assoc. Qed.

(** Reading the head off records is feeding the contents of [STDOUT]. *)
Lemma head_loop_wire rs : forall acc tail e k, Forall rec_ok rs -> no_end rs ->
  match feed_all status_from_u16 acc (stdout_of rs) with
  | (Complete h, acc', rest) => exists rs2,
      stdout_of rs2 = rest /\ Forall rec_ok rs2 /\ no_end rs2 /\ (length rs2 <= length rs)%nat /\
      head_loop (length rs + k) acc (mkStream (wire rs ++ tail) e) = Some (Ok (Some h, acc', mkStream (wire rs2 ++ tail) e))
  | (HeadTooLarge, _, _) =>
      head_loop (length rs + k) acc (mkStream (wire rs ++ tail) e)
      = Some (Err (BackendProtocolMsg "FPM response head exceeded the size limit"%str))
  | (Pending, acc', _) =>
      head_loop (length rs + k) acc (mkStream (wire rs ++ tail) e) = head_loop k acc' (mkStream tail e)
  end.
Proof.
  induction rs as [|r rs IH]; intros acc tail e k Hok Hne; [done|].
  apply Forall_cons in Hok as [Hr Hok]. apply Forall_cons in Hne as [Hr' Hne].
  cbn [length plus head_loop]. rewrite wire_cons_app, read_rec by done. cbn [record_type].
  specialize (IH acc tail e k Hok Hne) as IHacc.
  assert (forall o, match feed_all status_from_u16 acc (stdout_of rs) with
    | (Complete h, acc', rest) => exists rs2, stdout_of rs2 = rest /\ Forall rec_ok rs2 /\ no_end rs2 /\
        (length rs2 <= length rs)%nat /\ o = Some (Ok (Some h, acc', mkStream (wire rs2 ++ tail) e))
    | (HeadTooLarge, _, _) => o = Some (Err (BackendProtocolMsg "FPM response head exceeded the size limit"%str))
    | (Pending, acc', _) => o = head_loop k acc' (mkStream tail e) end ->
    match feed_all status_from_u16 acc (stdout_of rs) with
    | (Complete h, acc', rest) => exists rs2, stdout_of rs2 = rest /\ Forall rec_ok rs2 /\ no_end rs2 /\
        (length rs2 <= S (length rs))%nat /\ o = Some (Ok (Some h, acc', mkStream (wire rs2 ++ tail) e))
    | (HeadTooLarge, _, _) => o = Some (Err (BackendProtocolMsg "FPM response head exceeded the size limit"%str))
    | (Pending, acc', _) => o = head_loop k acc' (mkStream tail e) end) as Hskip.
  { intros o. destruct (feed_all _ acc (stdout_of rs)) as [[[|h|] ?] ?]; [done| |done].
    intros (rs2 & ? & ? & ? & ? & ?). exists rs2. repeat split; try done. lia. }
  destruct (rec_type r) eqn:E; try done; unfold stdout_of; cbn [omap list_omap]; rewrite E, ?bool_decide_false by done;
    try (by apply Hskip).
  rewrite bool_decide_true by done. fold (stdout_of rs). cbn [feed_all].
  destruct (feed status_from_u16 acc (rec_content r)) as [[|h|] acc'].
  - specialize (IH acc' tail e k Hok Hne). destruct (feed_all _ acc' (stdout_of rs)) as [[[|h|] ?] ?]; [done| |done].
    destruct IH as (rs2 & ? & ? & ? & ? & ?). exists rs2. repeat split; try done. cbn. lia.
  - exists rs. repeat split; try done. cbn. lia.
  - done.
Qed.

Lemma read_response_wire rs : forall tail e k, Forall rec_ok rs -> no_end rs ->
  read_response (length rs + k) (mkStream (wire rs ++ tail) e) =
  '(frames, aborted) ← read_response k (mkStream tail e);
  Some (bfilter (fun c => negb (is_empty c)) (stdout_of rs) ++ frames, aborted).
Proof.
  induction rs as [|r rs IH]; intros tail e k Hok Hne.
  { cbn [length plus stdout_of omap list_omap bfilter app wire]. cbn.
    by destruct (read_response k (mkStream tail e)) as [[? ?]|]. }
  apply Forall_cons in Hok as [Hr Hok]. apply Forall_cons in Hne as [Hr' Hne].
  cbn [length plus read_response]. rewrite wire_cons_app, read_rec by done. cbn [record_type].
  destruct (rec_type r) eqn:E; try done; unfold stdout_of; cbn [omap list_omap]; rewrite E, ?bool_decide_false by done;
    fold (stdout_of rs); try by rewrite IH.
  rewrite bool_decide_true by done. cbn [bfilter]. destruct (is_empty (rec_content r)); cbn [negb]; rewrite IH by done; [done|].
  by destruct (read_response k (mkStream tail e)) as [[? ?]|].
Qed.

Lemma drain_wire rs : forall tail e k d, Forall rec_ok rs -> no_end rs -> d <= MAX_DISCARDED_BYTES ->
  drain_to_end_request (length rs + k) d (mkStream (wire rs ++ tail) e) =
  if MAX_DISCARDED_BYTES <? d + vlen (mjoin (stdout_of rs)) then Some (Ok None)
  else drain_to_end_request k (d + vlen (mjoin (stdout_of rs))) (mkStream tail e).
Proof.
  induction rs as [|r rs IH]; intros tail e k d Hok Hne Hd.
  { change (stdout_of []) with (@nil (list N)). change (vlen (mjoin [])) with 0. rewrite N.add_0_r.
    apply N.ltb_ge in Hd. by rewrite Hd. }
  apply Forall_cons in Hok as [Hr Hok]. apply Forall_cons in Hne as [Hr' Hne].
  cbn [length plus drain_to_end_request]. rewrite wire_cons_app, read_rec by done. cbn [record_type].
  destruct (rec_type r) eqn:E; try done; unfold stdout_of; cbn [omap list_omap]; rewrite E, ?bool_decide_false by done;
    fold (stdout_of rs); try by rewrite IH.
  rewrite bool_decide_true by done. change (mjoin (?a :: ?b)) with (a ++ mjoin b). rewrite vlen_app.
  assert (N.min u64_max (d + vlen (rec_content r)) = d + vlen (rec_content r)) as ->.
  { destruct Hr as [Hr _]. unfold u16_max, u64_max, MAX_DISCARDED_BYTES in *. lia. }
  destruct (MAX_DISCARDED_BYTES <? d + vlen (rec_content r)) eqn:El; bprop.
  - assert ((MAX_DISCARDED_BYTES <? d + (vlen (rec_content r) + vlen (mjoin (stdout_of rs)))) = true) as ->
      by (apply N.ltb_lt; lia). done.
  - rewrite IH by done. by rewrite N.add_assoc.
Qed.

(** The head and the end of a whole STDOUT stream. *)
Definition head_fits (out : list N) : Prop :=
  forall o t, scan_terminator 0 out = Some (o, t) -> o + t <= MAX_HEAD_BYTES.

Lemma feed_all_complete outs h body :
  head_fits (mjoin outs) -> split_stream status_from_u16 (mjoin outs) = Some (h, body) ->
  exists h' buf rest, feed_all status_from_u16 [] outs = (Complete h', buf, rest) /\
    h = head_only h' /\ body = body_remainder h' ++ mjoin rest.
Proof.
  intros Hf Hs. assert (vlen (@nil N) <= MAX_HEAD_BYTES) as Hb by done.
  pose proof (feed_all_spec status_from_u16 outs [] eq_refl Hb) as Hg. cbn [app] in Hg.
  destruct (feed_all status_from_u16 [] outs) as [[[|h'|] buf] rest].
  - destruct Hg as (-> & _ & Hn & _). congruence.
  - rewrite Hg in Hs. injection Hs as <- <-. eauto 6.
  - exfalso. destruct Hg as (E & Hn & Hl). unfold split_stream in Hs, Hn.
    destruct (scan_terminator 0 (mjoin outs)) as [[o t]|] eqn:Eo; [|done]. specialize (Hf _ _ Eo).
    rewrite E in Eo. apply scan_prefix in Eo; [|lia]. rewrite Eo in Hn.
    by destruct (parse_head _ (take _ buf)).
Qed.

Lemma feed_all_headless outs :
  split_stream status_from_u16 (mjoin outs) = None ->
  match feed_all status_from_u16 [] outs with
  | (Pending, buf, _) => buf = mjoin outs /\ vlen buf <= MAX_HEAD_BYTES
  | (Complete _, _, _) => False
  | (HeadTooLarge, _, _) => MAX_HEAD_BYTES < vlen (mjoin outs)
  end.
Proof.
  intros Hs. assert (vlen (@nil N) <= MAX_HEAD_BYTES) as Hb by done.
  pose proof (feed_all_spec status_from_u16 outs [] eq_refl Hb) as Hg. cbn [app] in Hg.
  destruct (feed_all status_from_u16 [] outs) as [[[|h'|] buf] rest].
  - naive_solver.
  - congruence.
  - destruct Hg as (-> & _ & Hl). rewrite vlen_app. lia.
Qed.

(** What follows the records: an [END_REQUEST] and whatever the peer sends after
    it, or nothing. *)
Definition tail_of (fin : option (Rec * list N)) : list N :=
  match fin with Some (r, junk) => rec_bytes r ++ junk | None => [] end.
Definition fin_ok (fin : option (Rec * list N)) : Prop :=
  match fin with Some (r, _) => rec_ok r /\ rec_type r = EndRequest | None => True end.
Definition ended {A} (fin : option A) : bool := match fin with Some _ => true | None => false end.

Lemma tail_read fin e k : fin_ok fin ->
  (forall acc, head_loop (S k) acc (mkStream (tail_of fin) e) =
     match fin with
     | Some (_, junk) => Some (Ok (None, acc, mkStream junk e))
     | None => Some (Err (BackendProtocol e))
     end) /\
  read_response (S k) (mkStream (tail_of fin) e) = Some ([], negb (ended fin)) /\
  (forall d, drain_to_end_request (S k) d (mkStream (tail_of fin) e) =
     Some (if ended fin then Ok (Some d) else Err (BackendProtocol e))).
Proof.
  destruct fin as [[r junk]|]; [|done]. intros [Hr Ht]. cbn [tail_of head_loop read_response drain_to_end_request ended].
  rewrite read_rec by done. cbn [record_type]. rewrite Ht. done.
Qed.

Lemma nonempty_join (l : list (list N)) : mjoin (bfilter (fun c => negb (is_empty c)) l) = mjoin l.
Proof.
  induction l as [|c l IH]; [done|]. cbn [bfilter]. change (mjoin (c :: l)) with (c ++ mjoin l).
  destruct c as [|x c]; cbn [is_empty negb]; [done|]. change (mjoin (?a :: ?b)) with (a ++ mjoin b). by rewrite IH.
Qed.

Lemma restore_same h1 h2 method n body :
  hd_status h1 = hd_status h2 -> hd_headers h1 = hd_headers h2 ->
  synthesise_response (restore_head_content_length h1 method n) body
  = synthesise_response (H := H) (restore_head_content_length h2 method n) body.
Proof.
  destruct h1 as [st hs r1], h2 as [st2 hs2 r2]. cbn. intros -> ->. unfold restore_head_content_length. cbn.
  by destruct (_ || _); [|destruct (existsb _ _)].
Qed.

Lemma synth_same h1 h2 body :
  hd_status h1 = hd_status h2 -> hd_headers h1 = hd_headers h2 ->
  synthesise_response h1 body = synthesise_response (H := H) h2 body.
Proof. unfold synthesise_response. by intros -> ->. Qed.

Lemma fuel_splits rs tail e (rs2 : list Rec) :
  (length rs2 <= length rs)%nat -> exists k, S (length (s_bytes (mkStream (wire rs ++ tail) e))) = (length rs2 + S k)%nat.
Proof.
  intros Hl. exists (length (wire rs ++ tail) - length rs2)%nat. cbn [s_bytes]. rewrite length_app.
  pose proof (length_wire rs). lia.
Qed.

Lemma relayed_headless method rs fin e :
  Forall rec_ok rs -> no_end rs -> fin_ok fin ->
  split_stream status_from_u16 (mjoin (stdout_of rs)) = None ->
  let answer := forward_response (H := H) method (mkStream (wire rs ++ tail_of fin) e) in
  if MAX_HEAD_BYTES <? vlen (mjoin (stdout_of rs)) then exists err, answer = Some (Err err)
  else answer = Some (if ended fin then Ok (synthesise_response (finish status_from_u16 (mjoin (stdout_of rs))) empty_body)
                      else Err (BackendProtocol e)).
Proof.
  intros Hok Hne Hfin Es. cbv zeta. destruct (fuel_splits rs (tail_of fin) e rs) as (k & Hk); [done|].
  pose proof (head_loop_wire rs [] (tail_of fin) e (S k) Hok Hne) as Hh. pose proof (feed_all_headless _ Es) as Hf.
  unfold forward_response. cbv zeta. rewrite Hk.
  destruct (feed_all status_from_u16 [] (stdout_of rs)) as [[[|h'|] buf] rest]; [|done|].
  - destruct Hf as [-> Hl]. apply N.ltb_ge in Hl as ->. destruct (tail_read fin e k Hfin) as (Th & _).
    rewrite Hh, Th. by destruct fin as [[? ?]|].
  - apply N.ltb_lt in Hf as ->. rewrite Hh. by eexists.
Qed.

Lemma body_nonempty (b : list N) frames :
  Forall (fun f => f <> []) frames -> Forall (fun f => f <> []) (if is_empty b then frames else b :: frames) /\
  mjoin (if is_empty b then frames else b :: frames) = b ++ mjoin frames.
Proof. intros Hf. destruct b; [done|]. split; [by constructor|done]. Qed.

Lemma bfilter_nonempty (l : list (list N)) : Forall (fun f => f <> []) (bfilter (fun c => negb (is_empty c)) l).
Proof. apply Forall_forall. intros c [Hc _]%elem_of_bfilter. by destruct c. Qed.

(** C36. The client gets the response PHP wrote. For a backend that sends any
    records (padded, with [STDERR] and unknown types between) and then
    [END_REQUEST], or hangs up: with a head, the client receives its status and
    headers and, when the response may have a body, the bytes after the head in
    order, ended cleanly exactly when the backend ended the request; otherwise an
    empty body after the whole answer was read, with the length a GET would have
    had. Without a head the whole output is the head, or the request fails. *)
Theorem response_relayed method rs fin e
    (Hok : Forall rec_ok rs) (Hne : no_end rs) (Hfin : fin_ok fin) :
  let out := mjoin (stdout_of rs) in
  let answer := forward_response (H := H) method (mkStream (wire rs ++ tail_of fin) e) in
  match split_stream status_from_u16 out with
  | Some (h, body) =>
      head_fits out ->
      if can_have_body (H := H) method (hd_status h) then
        exists frames, answer = Some (Ok (synthesise_response h (mkBody frames (negb (ended fin))))) /\
          mjoin frames = body /\ Forall (fun f => f <> []) frames
      else if ended fin then vlen body <= MAX_DISCARDED_BYTES ->
        answer = Some (Ok (synthesise_response (restore_head_content_length (H := H) h method (vlen body)) empty_body))
      else vlen body <= MAX_DISCARDED_BYTES -> answer = Some (Err (BackendProtocol e))
  | None =>
      if MAX_HEAD_BYTES <? vlen out then exists err, answer = Some (Err err)
      else answer = Some (if ended fin then Ok (synthesise_response (finish status_from_u16 out) empty_body)
                          else Err (BackendProtocol e))
  end.
Proof.
  cbv zeta. destruct (split_stream status_from_u16 (mjoin (stdout_of rs))) as [[h body]|] eqn:Es;
    [|by apply relayed_headless].
  intros Hf. destruct (feed_all_complete _ _ _ Hf Es) as (h' & buf & rest & Efeed & -> & ->).
  destruct (fuel_splits rs (tail_of fin) e rs) as (k & Hk); [done|].
  pose proof (head_loop_wire rs [] (tail_of fin) e (S k) Hok Hne) as Hh. rewrite Efeed in Hh.
  destruct Hh as (rs2 & Hrest & Hok2 & Hne2 & Hl & Hh). rewrite <- Hk in Hh.
  destruct (fuel_splits rs (tail_of fin) e rs2 Hl) as (k2 & Hk2). destruct (tail_read fin e k2 Hfin) as (_ & Tr & Td).
  unfold forward_response. cbv zeta. rewrite Hh. cbn [mbind option_bind]. rewrite Hk2. cbn [head_only hd_status].
  destruct (can_have_body method (hd_status h')); cbn [negb].
  - rewrite read_response_wire, Tr by done. cbn [mbind option_bind]. rewrite app_nil_r, Hrest.
    destruct (body_nonempty (body_remainder h') _ (bfilter_nonempty rest)) as [Hn Hj].
    eexists. split; [do 2 f_equal; by apply synth_same|]. by rewrite Hj, nonempty_join.
  - rewrite vlen_app, drain_wire, Hrest, Td, !N.add_0_l by done.
    destruct (ended fin); intros Hb;
      (assert ((MAX_DISCARDED_BYTES <? vlen (mjoin rest)) = false) as -> by (apply N.ltb_ge; lia));
      cbn [mbind option_bind]; [|done].
    assert (N.min u64_max (vlen (body_remainder h') + vlen (mjoin rest))
            = vlen (body_remainder h') + vlen (mjoin rest)) as ->
      by (unfold u64_max, MAX_DISCARDED_BYTES in *; lia).
    do 2 f_equal. by apply restore_same.
Qed.

(** ** Termination *)

Lemma loops_total : forall fuel s, (length (s_bytes s) < fuel)%nat ->
  (forall acc, exists r, head_loop fuel acc s = Some r /\
     forall h acc' s', r = Ok (h, acc', s') -> (length (s_bytes s') < length (s_bytes s))%nat) /\
  (forall d, exists r, drain_to_end_request fuel d s = Some r) /\
  (exists r, read_response fuel s = Some r).
Proof.
  induction fuel as [|fuel IH]; intros s Hl; [lia|]. cbn [head_loop drain_to_end_request read_response].
  destruct (read_record s) as [[[hd c] s']|err] eqn:E; [|by split; [intros; eexists; done|eauto]].
  pose proof (read_record_shrinks _ _ _ _ E) as Hs. destruct (IH s') as (Hh & Hd & [frames aborted] & Hr); [lia|].
  assert (forall acc, exists r, head_loop fuel acc s' = Some r /\
    forall h acc' s'', r = Ok (h, acc', s'') -> (length (s_bytes s'') < length (s_bytes s))%nat) as Hh'.
  { intros acc. destruct (Hh acc) as (r & Er & Hlen). exists r. split; [done|]. intros h acc' s'' ->.
    specialize (Hlen _ _ _ eq_refl). lia. }
  split; [|split].
  - intros acc. destruct (record_type hd); try apply Hh'.
    + eexists. split; [done|]. intros ? ? ? [= _ _ <-]. lia.
    + destruct (feed status_from_u16 acc c) as [[|h|] acc']; [apply Hh'| |].
      * eexists. split; [done|]. intros ? ? ? [= _ _ <-]. lia.
      * eexists. split; [done|]. done.
  - intros d. destruct (record_type hd); eauto. destruct (_ <? _); eauto.
  - destruct (record_type hd); eauto. destruct (is_empty c); [eauto|]. rewrite Hr. cbn. eauto.
Qed.

(** A response is always produced, whatever the backend sends. *)
Lemma forward_response_total method s : exists r, forward_response (H := H) method s = Some r.
Proof.
  unfold forward_response. cbv zeta. set (fuel := S (length (s_bytes s))).
  destruct (loops_total fuel s) as (Hh & _ & _); [unfold fuel; lia|].
  destruct (Hh []) as (r & -> & Hlen). cbn [mbind option_bind].
  destruct r as [[[[head|] acc] s']|err]; [|by eauto|by eauto]. specialize (Hlen _ _ _ eq_refl).
  destruct (loops_total fuel s') as (_ & Hd & [frames aborted] & Hr); [unfold fuel; lia|].
  destruct (negb _).
  - destruct (Hd 0) as ([d|err] & ->); cbn; eauto.
  - rewrite Hr. cbn. eauto.
Qed.

(** ** The environment is not the client's *)

(** The names a header may set. *)
Definition header_derived (name : str) : bool :=
  starts_with "HTTP_" name || bool_decide (name ∈ ["SERVER_NAME"; "CONTENT_TYPE"; "CONTENT_LENGTH"]%str).

Definition server_params (ps : list (list N * list N)) : list (list N * list N) :=
  bfilter (fun p => negb (header_derived p.1)) ps.

Lemma server_params_derived ps : Forall (fun p => header_derived p.1 = true) ps -> server_params ps = [].
Proof. induction 1 as [|p ps Hp _ IH]; [done|]. unfold server_params in *. cbn [bfilter]. by rewrite Hp. Qed.

Lemma header_params_derived (h : H) : Forall (fun p => header_derived p.1 = true) (header_params h).
Proof.
  unfold header_params, opt_param. rewrite !Forall_app. repeat split.
  1-3: destruct (header_str _ h); by repeat constructor.
  induction (hm_iter h) as [|e l IH]; [constructor|]. cbn [omap list_omap].
  destruct (bool_decide (e.1 ∈ _)); [done|]. constructor; [|done]. cbn [fst]. unfold header_derived, http_key.
  by rewrite (proj2 (starts_with_spec _ _)) by eauto.
Qed.

Lemma server_vars_own method pq root script https remote server login :
  Forall (fun p => header_derived p.1 = false) (server_vars method pq root script https remote server login).
Proof.
  unfold server_vars. destruct (split_path_query pq) as [path query].
  destruct script as [rel|], https, login as [l|]; by repeat constructor.
Qed.

Lemma server_params_build method pq (h : H) root script https remote server login :
  server_params (build_params method pq h root script https remote server login)
  = server_vars method pq root script https remote server login.
Proof.
  unfold server_params, build_params. rewrite bfilter_app.
  fold (server_params (header_params h)). rewrite (server_params_derived _ (header_params_derived h)), app_nil_r.
  induction (server_vars_own method pq root script https remote server login) as [|p ps Hp _ IH]; [done|].
  cbn [bfilter]. by rewrite Hp, IH.
Qed.

(** The values a variable is sent with. *)
Definition values_of (n : str) (ps : list (list N * list N)) : list (list N) :=
  snd <$> bfilter (fun p => str_eqb p.1 n) ps.

(** A variable of the proxy's own is looked up among those it computes. *)
Lemma own_values n method pq (h : H) root script https remote server login :
  header_derived n = false ->
  values_of n (build_params method pq h root script https remote server login)
  = values_of n (server_vars method pq root script https remote server login).
Proof.
  intros Hn. unfold values_of, build_params. rewrite bfilter_app, fmap_app.
  assert (bfilter (fun p : list N * list N => str_eqb p.1 n) (header_params h) = []) as ->; [|by rewrite app_nil_r].
  induction (header_params_derived h) as [|p ps Hp _ IH]; [done|]. cbn [bfilter]. unfold str_eqb in *.
  destruct (bool_decide (p.1 = n)) eqn:E; [|done]. bprop. congruence.
Qed.

(** A client cannot forge the environment. Whatever headers it sends, every
    variable PHP receives that is not one of [HTTP_*], [SERVER_NAME],
    [CONTENT_TYPE] and [CONTENT_LENGTH] is the one the proxy computed: the script
    to run is the one under the document root it chose, [PHP_VALUE] and the login
    user are sent only with a consumed login, and [HTTPS] only on the TLS
    listener, each at most once. *)
Theorem params_not_forgeable method pq (h h' : H) root script https remote server login :
  let ps := build_params method pq h root script https remote server login in
  server_params ps = server_params (build_params method pq h' root script https remote server login) /\
  values_of "SCRIPT_FILENAME"%str ps = [as_bytes (path_join root (default "index.php"%str script))] /\
  values_of "PHP_VALUE"%str ps =
    match login with Some l => [as_bytes ("auto_prepend_file="%str ++ prepend_script l)] | None => [] end /\
  values_of "ORCKER_LOGIN_USER"%str ps = match login with Some l => [as_bytes (target_user l)] | None => [] end /\
  values_of "HTTPS"%str ps = (if https then ["on"%str] else []).
Proof.
  cbv zeta. rewrite !server_params_build, !own_values by done. split; [done|]. unfold server_vars.
  destruct (split_path_query pq) as [path query].
  by destruct script as [rel|], https, login as [l|].
Qed.

End Relay.

(** ** Example: a head cut inside its terminator, padding and an error log *)

Definition demo_records : list Rec :=
  [mkRec Stdout ("Status: 201 Created"%str ++ [13; 10; 13]) [0; 0; 0]; mkRec Stderr "warning"%str [];
   mkRec Stdout (10 :: "hel"%str) []; mkRec Stdout [] []; mkRec Stdout "lo"%str [0]].
Definition demo_fin : option (Rec * list N) := Some (mkRec EndRequest [0; 0; 0; 0; 0; 0; 0; 0] [], [7; 7]).

Lemma demo_records_ok : Forall rec_ok demo_records /\ no_end demo_records /\ fin_ok demo_fin.
Proof.
  split; [repeat (apply Forall_cons; split; [by split|]); by apply Forall_nil|].
  split; [by repeat constructor|]. by repeat split.
Qed.

Lemma response_relayed_witness :
  exists frames,
    forward_response (H := list_headers) "GET"%str (mkStream (wire demo_records ++ tail_of demo_fin) IoNotFound)
    = Some (Ok (synthesise_response (mkHead 201 [] []) (mkBody frames false))) /\
    mjoin frames = "hello"%str /\ Forall (fun f => f <> []) frames.
Proof.
  destruct demo_records_ok as (Hok & Hne & Hfin).
  pose proof (response_relayed (H := list_headers) "GET"%str demo_records demo_fin IoNotFound Hok Hne Hfin) as Hr.
  cbv zeta in Hr.
  assert (split_stream (status_from_u16 (H := list_headers)) (mjoin (stdout_of demo_records))
          = Some (mkHead 201 [] [], "hello"%str)) as Es by by vm_compute.
  rewrite Es in Hr. apply Hr. intros o t Ht. vm_compute in Ht. injection Ht as <- <-. by vm_compute.
Defined.
