(* ===== verification/FileServe.v ===== *)
(** * Files and scripts of a document root

    [src/crates/orcker-proxy/src/forward/static_file.rs] (serving a file, a
    directory index or a routing rule's document) and [script_file.rs] (which
    PHP script a request runs).  The file system is a record of answers, fixed
    during one request. *)

From S2P Require Import Prelude RustStr Utf8 RustPath HttpPath Http.

Open Scope N_scope.

Record Metadata := mkMeta { meta_is_file : bool; meta_is_dir : bool; meta_len : N }.

(** [tokio::fs]: each answer is [None] on an error. *)
Record ServeFs := mkServeFs {
  sf_canonicalize : str -> option str;
  sf_metadata : str -> option Metadata;
  sf_read : str -> option (list N);
}.

Definition PROXY_SERVER_ID : str := "orcker"%str.

Section Files.
Context `{Http H} (fs : ServeFs).

Inductive StaticOutcome :=
| Served (resp : Response H)
| StaticNotFound
| SymlinkEscape (requested_path resolved allowed_root : str).

Inductive Containment := Contained (real : str) | Escaped (real : str).

Definition canonical_within (candidate real_root : str) : option Containment :=
  real ← sf_canonicalize fs candidate;
  Some (if path_starts_with real real_root then Contained real else Escaped real).

(** [HEAD] needs the length only. *)
Definition respond_with_file (method path : str) : option (Response H) :=
  let content_type := content_type_for path in
  '(body, len) ← (if str_eqb method "HEAD"
                  then meta ← sf_metadata fs path; Some (empty_body, meta_len meta)
                  else bytes ← sf_read fs path;
                       Some (if is_empty bytes then empty_body else bytes_body bytes, vlen bytes));
  Some (mkResponse 200 (hm_from_list [("content-type"%str, content_type); ("content-length"%str, show_uint len);
                                      ("server"%str, PROXY_SERVER_ID)]) body).

(** The end of [serve_contained_file], once the real file is known. *)
Definition serve_real (method real_file : str) : StaticOutcome :=
  if is_php_source real_file then StaticNotFound
  else match sf_metadata fs real_file with
  | None => StaticNotFound
  | Some meta =>
      if negb (meta_is_file meta) then StaticNotFound
      else match respond_with_file method real_file with
           | Some resp => Served resp
           | None => StaticNotFound
           end
  end.

Definition serve_contained_file (method requested_path served_root allowed_root rel : str)
    (symlink_protection : bool) : StaticOutcome :=
  if negb (is_get_or_head method) then StaticNotFound
  else match sf_canonicalize fs allowed_root with
  | None => StaticNotFound
  | Some real_root =>
      match canonical_within (path_join served_root rel) real_root with
      | Some (Contained path) => serve_real method path
      | Some (Escaped resolved) =>
          if negb symlink_protection then serve_real method resolved
          else SymlinkEscape requested_path resolved real_root
      | None => StaticNotFound
      end
  end.

Definition try_serve (method uri_path served_root allowed_root : str) (symlink_protection : bool) : StaticOutcome :=
  match static_candidate uri_path with
  | None => StaticNotFound
  | Some rel => serve_contained_file method uri_path served_root allowed_root rel symlink_protection
  end.

(** The loop over the index files; [first_escape] is its variable. *)
Fixpoint index_loop (method real_dir real_root : str) (symlink_protection : bool)
    (first_escape : option str) (names : list str) : Response H + option str :=
  match names with
  | [] => inr first_escape
  | name :: rest =>
      let '(candidate, first_escape) :=
        match canonical_within (path_join real_dir name) real_root with
        | Some (Contained real_file) => (Some real_file, first_escape)
        | Some (Escaped resolved) =>
            if negb symlink_protection then (Some resolved, first_escape)
            else (None, match first_escape with None => Some resolved | some => some end)
        | None => (None, first_escape)
        end in
      let next := index_loop method real_dir real_root symlink_protection first_escape rest in
      match candidate with
      | None => next
      | Some real_file =>
          if is_php_source real_file then next
          else if negb (match sf_metadata fs real_file with Some meta => meta_is_file meta | None => false end) then next
          else match respond_with_file method real_file with
               | Some resp => inl resp
               | None => next
               end
      end
  end.

Definition INDEX_FILES : list str := ["index.html"%str; "index.htm"%str].

Definition try_serve_index (method uri_path served_root allowed_root : str) (symlink_protection : bool)
  : StaticOutcome :=
  if negb (is_get_or_head method) then StaticNotFound
  else match directory_candidate uri_path, sf_canonicalize fs allowed_root with
  | Some rel, Some real_root =>
      let in_dir real_dir :=
        match sf_metadata fs real_dir with
        | None => StaticNotFound
        | Some dir_meta =>
            if negb (meta_is_dir dir_meta) then StaticNotFound
            else match sf_metadata fs (path_join real_dir "index.php"%str) with
            | Some _ => StaticNotFound
            | None =>
                match index_loop method real_dir real_root symlink_protection None INDEX_FILES with
                | inl resp => Served resp
                | inr (Some resolved) => SymlinkEscape uri_path resolved real_root
                | inr None => StaticNotFound
                end
            end
        end in
      match canonical_within (path_join served_root rel) real_root with
      | Some (Contained path) => in_dir path
      | Some (Escaped resolved) =>
          if negb symlink_protection then in_dir resolved
          else SymlinkEscape uri_path resolved real_root
      | None => StaticNotFound
      end
  | _, _ => StaticNotFound
  end.

Definition serve_target_file (method requested_path served_root allowed_root target_rel : str)
    (symlink_protection : bool) : StaticOutcome :=
  serve_contained_file method requested_path served_root allowed_root target_rel symlink_protection.

Definition symlink_escape_response (requested_path : str) : Response H :=
  let body := "403 Forbidden"%str ++ [10; 10] ++ "The requested path "%str ++ [dq] ++ requested_path ++ [dq]
    ++ " resolves, via a symlink, to a location outside this site's root directory."%str ++ [10; 10]
    ++ "See the orckerd daemon log for the resolved path and the site's document root."%str ++ [10] in
  mkResponse 403 (hm_from_list [("content-type"%str, "text/plain; charset=utf-8"%str); ("server"%str, PROXY_SERVER_ID)])
    (bytes_body (as_bytes body)).

(** ** Scripts *)

Inductive ScriptResolution := Script (rel : str) | DirectoryRedirect | ScriptFallback.

(** What both probes accept of a containment check. *)
Definition existing_php_file (served_root real_root rel : str) (symlink_protection : bool) : option str :=
  if negb (is_php_source rel) then None
  else
    real_file ← match canonical_within (path_join served_root rel) real_root with
                | Some (Contained path) => Some path
                | Some (Escaped path) => if negb symlink_protection then Some path else None
                | None => None
                end;
    meta ← sf_metadata fs real_file;
    if meta_is_file meta then Some rel else None.

Definition is_existing_directory (served_root real_root rel : str) (symlink_protection : bool) : bool :=
  match canonical_within (path_join served_root rel) real_root with
  | Some (Contained path) => match sf_metadata fs path with Some meta => meta_is_dir meta | None => false end
  | Some (Escaped path) =>
      if negb symlink_protection
      then match sf_metadata fs path with Some meta => meta_is_dir meta | None => false end
      else false
  | None => false
  end.

Definition resolve_script (uri_path served_root allowed_root : str) (symlink_protection : bool) : ScriptResolution :=
  match sf_canonicalize fs allowed_root with
  | None => ScriptFallback
  | Some real_root =>
      match static_candidate uri_path with
      | Some rel =>
          match existing_php_file served_root real_root rel symlink_protection with
          | Some script => Script script
          | None =>
              if is_existing_directory served_root real_root rel symlink_protection
              then DirectoryRedirect else ScriptFallback
          end
      | None =>
          match directory_candidate uri_path with
          | None => ScriptFallback
          | Some dir_rel =>
              match existing_php_file served_root real_root (path_join dir_rel "index.php"%str) symlink_protection with
              | Some script => Script script
              | None => ScriptFallback
              end
          end
      end
  end.

Definition resolve_rule_target (served_root allowed_root target_rel : str) (symlink_protection : bool) : option str :=
  real_root ← sf_canonicalize fs allowed_root;
  existing_php_file served_root real_root target_rel symlink_protection.

(** ** What is served *)

(** A response made of a real file that is not PHP source and, under symlink
    protection, lies inside the root. *)
Definition from_file (real_root : str) (prot : bool) (method : str) (real : str) (resp : Response H) : Prop :=
  (prot = true -> exists below, components real = components real_root ++ below) /\
  is_php_source real = false /\
  (exists meta, sf_metadata fs real = Some meta /\ meta_is_file meta = true) /\
  respond_with_file method real = Some resp /\ is_get_or_head method = true.

Lemma starts_with_below p root : path_starts_with p root = true <-> exists below, components p = components root ++ below.
Proof. apply list_prefixb_spec. Qed.

Lemma canonical_within_spec candidate root c :
  canonical_within candidate root = Some c <->
  exists real, sf_canonicalize fs candidate = Some real /\
    c = if path_starts_with real root then Contained real else Escaped real.
Proof.
  unfold canonical_within. destruct (sf_canonicalize fs candidate) as [real|]; cbn; [|naive_solver].
  split; [intros [= <-]; eauto|]. by intros (? & [= <-] & ->).
Qed.

Lemma serve_real_exact method real resp :
  serve_real method real = Served resp <->
  is_php_source real = false /\ (exists meta, sf_metadata fs real = Some meta /\ meta_is_file meta = true) /\
  respond_with_file method real = Some resp.
Proof.
  unfold serve_real. destruct (is_php_source real); [naive_solver|].
  destruct (sf_metadata fs real) as [meta|]; [|split; [done|]; by intros (_ & (? & ? & _) & _)].
  destruct (meta_is_file meta) eqn:E; cbn [negb]; [|split; [done|]; intros (_ & (? & [= <-] & ?) & _); congruence].
  destruct (respond_with_file method real) as [r|]; [|split; [done|]; by intros (_ & _ & ?)].
  split; [intros [= <-]; eauto|]. by intros (_ & _ & [= <-]).
Qed.

Lemma serve_real_escape method real p r root : serve_real method real <> SymlinkEscape p r root.
Proof.
  unfold serve_real. destruct (is_php_source real); [done|]. destruct (sf_metadata fs real) as [m|]; [|done].
  destruct (negb _); [done|]. by destruct (respond_with_file method real).
Qed.

(** The outcome of serving one candidate, exactly. *)
Lemma serve_contained_exact method req sroot aroot rel prot resp :
  serve_contained_file method req sroot aroot rel prot = Served resp <->
  exists root real, sf_canonicalize fs aroot = Some root /\
    sf_canonicalize fs (path_join sroot rel) = Some real /\ from_file root prot method real resp.
Proof.
  unfold serve_contained_file, from_file.
  destruct (is_get_or_head method); cbn [negb]; [|split; [done|]; by intros (? & ? & _ & _ & _ & _ & _ & _ & ?)].
  destruct (sf_canonicalize fs aroot) as [root|]; [|naive_solver].
  unfold canonical_within. destruct (sf_canonicalize fs (path_join sroot rel)) as [real|]; cbn [mbind option_bind]; [|naive_solver].
  setoid_rewrite <- starts_with_below.
  destruct (path_starts_with real root) eqn:E; [rewrite serve_real_exact; naive_solver|].
  destruct prot; cbn [negb]; [|rewrite serve_real_exact; naive_solver].
  split; [done|]. intros (? & ? & [= <-] & [= <-] & Hp & _). rewrite Hp in E; done.
Qed.

Lemma serve_contained_escape method req sroot aroot rel prot p r root :
  serve_contained_file method req sroot aroot rel prot = SymlinkEscape p r root ->
  prot = true /\ p = req /\ path_starts_with r root = false.
Proof.
  unfold serve_contained_file. destruct (negb _); [done|].
  destruct (sf_canonicalize fs aroot) as [root'|]; [|done].
  destruct (canonical_within (path_join sroot rel) root') as [[real|real]|] eqn:Ec; [| |done].
  - intros Hs. by apply serve_real_escape in Hs.
  - destruct prot; cbn [negb]; [|intros Hs; by apply serve_real_escape in Hs].
    intros [= <- <- <-]. apply canonical_within_spec in Ec as (real' & _ & Ec).
    destruct (path_starts_with real' root') eqn:E; [done|]. injection Ec as ->. done.
Qed.

(** What the index loop answers. *)
Lemma index_loop_spec method dir root prot first names :
  is_get_or_head method = true -> (forall r, first = Some r -> prot = true /\ path_starts_with r root = false) ->
  match index_loop method dir root prot first names with
  | inl resp => exists name real, name ∈ names /\ sf_canonicalize fs (path_join dir name) = Some real /\
                  from_file root prot method real resp
  | inr (Some r) => prot = true /\ path_starts_with r root = false
  | inr None => True
  end.
Proof.
  intros Hm. revert first; induction names as [|name names IH]; intros first Hf; cbn [index_loop].
  { destruct first; [by apply Hf|done]. }
  assert (forall first', (forall r, first' = Some r -> prot = true /\ path_starts_with r root = false) ->
    match index_loop method dir root prot first' names with
    | inl resp => exists n real, n ∈ name :: names /\ sf_canonicalize fs (path_join dir n) = Some real /\
                  from_file root prot method real resp
    | inr (Some r) => prot = true /\ path_starts_with r root = false
    | inr None => True end) as Hnext.
  { intros f' Hf'. specialize (IH f' Hf'). destruct (index_loop _ _ _ _ f' names) as [resp|[r|]]; [|done|done].
    destruct IH as (n & real & Hn & ?). exists n, real. split; [set_solver|done]. }
  assert (forall real, sf_canonicalize fs (path_join dir name) = Some real ->
    (prot = true -> path_starts_with real root = true) ->
    match (if is_php_source real then index_loop method dir root prot first names
           else if negb (match sf_metadata fs real with Some meta => meta_is_file meta | None => false end)
                then index_loop method dir root prot first names
                else match respond_with_file method real with
                     | Some resp => inl resp
                     | None => index_loop method dir root prot first names end) with
    | inl resp => exists n real, n ∈ name :: names /\ sf_canonicalize fs (path_join dir n) = Some real /\
                  from_file root prot method real resp
    | inr (Some r) => prot = true /\ path_starts_with r root = false
    | inr None => True end) as Hserve.
  { intros real Hc Hp. destruct (is_php_source real) eqn:Ep; [by apply Hnext|].
    destruct (sf_metadata fs real) as [m|] eqn:Em; [|by apply Hnext].
    destruct (meta_is_file m) eqn:Ef; cbn [negb]; [|by apply Hnext].
    destruct (respond_with_file method real) eqn:Er; [|by apply Hnext].
    exists name, real. split; [set_solver|]. split; [done|]. repeat split; eauto.
    intros Hprot. apply starts_with_below. auto. }
  unfold canonical_within. destruct (sf_canonicalize fs (path_join dir name)) as [real|] eqn:Ec;
    cbn [mbind option_bind]; [|by apply Hnext].
  destruct (path_starts_with real root) eqn:Es; [apply Hserve; auto|].
  destruct prot; cbn [negb]; [|by apply Hserve]. apply Hnext.
  intros r. destruct first; [apply Hf|]. by intros [= <-].
Qed.

Lemma try_serve_index_spec method uri sroot aroot prot :
  match try_serve_index method uri sroot aroot prot with
  | Served resp => exists rel dir name root real,
      directory_candidate uri = Some rel /\ sf_canonicalize fs aroot = Some root /\
      sf_canonicalize fs (path_join sroot rel) = Some dir /\
      sf_metadata fs (path_join dir "index.php"%str) = None /\ name ∈ INDEX_FILES /\
      sf_canonicalize fs (path_join dir name) = Some real /\ from_file root prot method real resp
  | SymlinkEscape p r root => prot = true /\ p = uri /\ path_starts_with r root = false
  | StaticNotFound => True
  end.
Proof.
  unfold try_serve_index. destruct (is_get_or_head method) eqn:Em; cbn [negb]; [|done].
  destruct (directory_candidate uri) as [rel|]; [|done]. destruct (sf_canonicalize fs aroot) as [root|]; [|done].
  unfold canonical_within at 1. destruct (sf_canonicalize fs (path_join sroot rel)) as [dir|] eqn:Ed;
    cbn [mbind option_bind]; [|done].
  pose proof (index_loop_spec method dir root prot None INDEX_FILES Em) as Hloop.
  assert (match (match sf_metadata fs dir with
        | None => StaticNotFound
        | Some dir_meta =>
            if negb (meta_is_dir dir_meta) then StaticNotFound
            else match sf_metadata fs (path_join dir "index.php"%str) with
            | Some _ => StaticNotFound
            | None =>
                match index_loop method dir root prot None INDEX_FILES with
                | inl resp => Served resp
                | inr (Some resolved) => SymlinkEscape uri resolved root
                | inr None => StaticNotFound
                end
            end
        end) with
  | Served resp => exists rel' dir' name root' real,
      Some rel = Some rel' /\ Some root = Some root' /\ sf_canonicalize fs (path_join sroot rel') = Some dir' /\
      sf_metadata fs (path_join dir' "index.php"%str) = None /\ name ∈ INDEX_FILES /\
      sf_canonicalize fs (path_join dir' name) = Some real /\ from_file root' prot method real resp
  | SymlinkEscape p r root => prot = true /\ p = uri /\ path_starts_with r root = false
  | StaticNotFound => True
  end) as Hdir.
  { destruct (sf_metadata fs dir) as [dm|]; [|done]. destruct (negb (meta_is_dir dm)); [done|].
    destruct (sf_metadata fs (path_join dir "index.php"%str)) eqn:Ei; [done|].
    destruct (index_loop method dir root prot None INDEX_FILES) as [resp|[r|]]; [| |done].
    - destruct Hloop as (name & real & Hn & Hc & Hr); [done|]. exists rel, dir, name, root, real. by rewrite Ed.
    - destruct Hloop as [Hp Hs]; done. }
  destruct (path_starts_with dir root) eqn:Es; [exact Hdir|]. destruct prot; cbn [negb]; [done|exact Hdir].
Qed.

(** Whether a candidate can be served at all. *)
Lemma servable_dec root prot method cand : is_get_or_head method = true ->
  (exists real resp, sf_canonicalize fs cand = Some real /\ from_file root prot method real resp) \/
  (forall real resp, sf_canonicalize fs cand = Some real -> ~ from_file root prot method real resp).
Proof.
  intros Hm. destruct (sf_canonicalize fs cand) as [real|]; [|by right]. unfold from_file. setoid_rewrite <- starts_with_below.
  destruct (prot && negb (path_starts_with real root)) eqn:Ep; [bprop; right; intros ? r [= <-] (Hp & _); rewrite Hp in *; done|].
  destruct (is_php_source real) eqn:E1; [right; intros ? r [= <-] (_ & ? & _); congruence|].
  destruct (sf_metadata fs real) as [m|] eqn:E2; [|right; by intros ? r [= <-] (_ & _ & (? & ? & _) & _); congruence].
  destruct (meta_is_file m) eqn:E3; [|right; intros ? r [= <-] (_ & _ & (? & ? & ?) & _); congruence].
  destruct (respond_with_file method real) as [r|] eqn:E4; [|right; intros ? r [= <-] (_ & _ & _ & ? & _); congruence].
  left. exists real, r. split; [done|]. split; [intros ->; by destruct (path_starts_with real root)|]. split; [done|].
  split; [by exists m|done].
Qed.

(** The loop answers with the first index file that can be served, whatever escapes came before it. *)
Lemma index_loop_exact method dir root prot first names resp :
  is_get_or_head method = true ->
  (index_loop method dir root prot first names = inl resp <->
   exists pre name post, names = pre ++ name :: post /\
     (exists real, sf_canonicalize fs (path_join dir name) = Some real /\ from_file root prot method real resp) /\
     forall n real r, n ∈ pre -> sf_canonicalize fs (path_join dir n) = Some real -> ~ from_file root prot method real r).
Proof.
  intros Hm. revert first; induction names as [|name names IH]; intros first; cbn [index_loop].
  { split; [done|]. by intros ([|? ?] & ? & ? & ? & _). }
  destruct (servable_dec root prot method (path_join dir name) Hm) as [(real & r & Hc & Hf)|Hno].
  - assert (index_loop method dir root prot first (name :: names) = inl r) as E.
    { pose proof Hf as (Hp & Hphp & (meta & Hmeta & Hfile) & Hresp & _). cbn [index_loop]. unfold canonical_within. rewrite Hc.
      cbn [mbind option_bind]. destruct (path_starts_with real root) eqn:Es.
      - by rewrite Hphp, Hmeta, Hfile, Hresp.
      - destruct prot; [|cbn [negb]; by rewrite Hphp, Hmeta, Hfile, Hresp].
        apply starts_with_below in Hp; [congruence|done]. }
    cbn [index_loop] in E. rewrite E. split.
    + intros [= <-]. exists [], name, names. split; [done|]. split; [eauto|]. by intros ? ? ? ?%elem_of_nil.
    + intros ([|x pre] & n & post & [= <- ->] & (real' & Hc' & Hf') & Hpre).
      * assert (real' = real) as -> by congruence. destruct Hf as (_ & _ & _ & Hr & _), Hf' as (_ & _ & _ & Hr' & _). congruence.
      * exfalso. by apply (Hpre name real r); [left|..].
  - assert (exists first', index_loop method dir root prot first (name :: names) = index_loop method dir root prot first' names) as (f' & E).
    { cbn [index_loop]. unfold canonical_within. destruct (sf_canonicalize fs (path_join dir name)) as [real|] eqn:Hc; cbn [mbind option_bind]; [|by eexists].
      specialize (Hno real). unfold from_file in Hno. setoid_rewrite <- starts_with_below in Hno.
      assert (forall first', (prot = true -> path_starts_with real root = true) ->
        (if is_php_source real then index_loop method dir root prot first' names
         else if negb (match sf_metadata fs real with Some meta => meta_is_file meta | None => false end)
              then index_loop method dir root prot first' names
              else match respond_with_file method real with
                   | Some resp => inl resp
                   | None => index_loop method dir root prot first' names end) = index_loop method dir root prot first' names) as Hskip.
      { intros f Hp. destruct (is_php_source real) eqn:E1; [done|]. destruct (sf_metadata fs real) as [m|] eqn:E2; [|done].
        destruct (meta_is_file m) eqn:E3; [|done]. cbn [negb]. destruct (respond_with_file method real) as [r|] eqn:E4; [|done].
        exfalso. apply (Hno r); [done|]. eauto 10. }
      destruct (path_starts_with real root) eqn:Es; [exists first; by apply Hskip|].
      destruct prot; cbn [negb]; [by eexists|]. exists first. by apply Hskip. }
    cbn [index_loop] in E. rewrite E, IH. split.
    + intros (pre & n & post & -> & Hn & Hpre). exists (name :: pre), n, post. split; [done|]. split; [done|].
      intros m real r [->|Hm']%elem_of_cons; [apply Hno|by apply Hpre].
    + intros ([|x pre] & n & post & [= <- ->] & Hn & Hpre); [by destruct Hn as (real & Hc & Hf); destruct (Hno real resp Hc)|].
      exists pre, n, post. split; [done|]. split; [done|]. intros m real r Hin. apply Hpre. by right.
Qed.

(** A script PHP may be told to run. *)
Definition runnable (root : str) (prot : bool) (sroot rel : str) : Prop :=
  is_php_source rel = true /\ exists real, sf_canonicalize fs (path_join sroot rel) = Some real /\
  (prot = true -> exists below, components real = components root ++ below) /\
  exists meta, sf_metadata fs real = Some meta /\ meta_is_file meta = true.

Lemma existing_php_file_exact sroot root rel prot script :
  existing_php_file sroot root rel prot = Some script <-> script = rel /\ runnable root prot sroot rel.
Proof.
  unfold existing_php_file, runnable. destruct (is_php_source rel); cbn [negb]; [|split; [done|]; by intros (_ & ? & _)].
  unfold canonical_within. setoid_rewrite <- starts_with_below.
  destruct (sf_canonicalize fs (path_join sroot rel)) as [real|]; cbn [mbind option_bind];
    [|split; [done|]; by intros (_ & _ & ? & ? & _)].
  assert ((meta ← sf_metadata fs real; if meta_is_file meta then Some rel else None) = Some script <->
          script = rel /\ exists meta, sf_metadata fs real = Some meta /\ meta_is_file meta = true) as Hm.
  { destruct (sf_metadata fs real) as [m|]; cbn; [|split; [done|]; by intros (_ & ? & ? & _)].
    destruct (meta_is_file m) eqn:E; [split; [intros [= <-]; eauto|by intros [-> _]]|].
    split; [done|]. intros (_ & ? & [= <-] & ?). congruence. }
  destruct (path_starts_with real root) eqn:Es; cbn [mbind option_bind].
  - rewrite Hm. naive_solver.
  - destruct prot; cbn [negb option_bind].
    + split; [done|]. intros (_ & _ & ? & [= <-] & Hp & _). rewrite Hp in Es; done.
    + rewrite Hm. naive_solver.
Qed.

(** The first of the index files of a directory that can be served. *)
Definition first_index (root : str) (prot : bool) (method dir : str) (resp : Response H) : Prop :=
  exists pre name post, INDEX_FILES = pre ++ name :: post /\
    (exists real, sf_canonicalize fs (path_join dir name) = Some real /\ from_file root prot method real resp) /\
    forall n real r, n ∈ pre -> sf_canonicalize fs (path_join dir n) = Some real -> ~ from_file root prot method real r.

Lemma try_serve_index_exact method uri sroot aroot prot resp :
  try_serve_index method uri sroot aroot prot = Served resp <->
  is_get_or_head method = true /\
  exists rel root dir, directory_candidate uri = Some rel /\ sf_canonicalize fs aroot = Some root /\
    sf_canonicalize fs (path_join sroot rel) = Some dir /\
    (prot = true -> exists below, components dir = components root ++ below) /\
    (exists meta, sf_metadata fs dir = Some meta /\ meta_is_dir meta = true) /\
    sf_metadata fs (path_join dir "index.php"%str) = None /\ first_index root prot method dir resp.
Proof.
  unfold try_serve_index, first_index. destruct (is_get_or_head method) eqn:Em; cbn [negb]; [|split; [done|]; by intros [? _]].
  destruct (directory_candidate uri) as [rel|]; [|split; [done|]; by intros (_ & ? & ? & ? & ? & _)].
  destruct (sf_canonicalize fs aroot) as [root|]; [|split; [done|]; by intros (_ & ? & ? & ? & _ & ? & _)].
  unfold canonical_within at 1. destruct (sf_canonicalize fs (path_join sroot rel)) as [dir|] eqn:Ed;
    cbn [mbind option_bind]; [|split; [done|]; intros (_ & ? & ? & ? & [= <-] & [= <-] & ? & _); congruence].
  assert (forall P : Prop, P -> (match (match sf_metadata fs dir with
        | None => StaticNotFound
        | Some dir_meta =>
            if negb (meta_is_dir dir_meta) then StaticNotFound
            else match sf_metadata fs (path_join dir "index.php"%str) with
            | Some _ => StaticNotFound
            | None =>
                match index_loop method dir root prot None INDEX_FILES with
                | inl resp => Served resp
                | inr (Some resolved) => SymlinkEscape uri resolved root
                | inr None => StaticNotFound
                end
            end
        end) with o => o end = Served resp <->
    P /\ (exists meta, sf_metadata fs dir = Some meta /\ meta_is_dir meta = true) /\
    sf_metadata fs (path_join dir "index.php"%str) = None /\ first_index root prot method dir resp)) as Hdir.
  { intros P HP. unfold first_index. rewrite <- (index_loop_exact method dir root prot None INDEX_FILES resp Em).
    destruct (sf_metadata fs dir) as [dm|]; [|split; [done|]; by intros (_ & (? & ? & _) & _)].
    destruct (meta_is_dir dm) eqn:Edm; cbn [negb]; [|split; [done|]; intros (_ & (? & [= <-] & ?) & _); congruence].
    destruct (sf_metadata fs (path_join dir "index.php"%str)); [split; [done|]; by intros (_ & _ & ? & _)|].
    destruct (index_loop method dir root prot None INDEX_FILES) as [r|[r|]]; split;
      [intros [= <-]; eauto 6|intros (_ & _ & _ & [= ->]); done|done|by intros (_ & _ & _ & ?)|done|by intros (_ & _ & _ & ?)]. }
  setoid_rewrite <- starts_with_below. unfold first_index in Hdir. destruct (path_starts_with dir root) eqn:Es.
  - rewrite (Hdir (prot = true -> path_starts_with dir root = true)) by done. split; [intros ?; eauto 8|].
    intros (_ & ? & ? & ? & [= <-] & [= <-] & Hd & ?). simplify_eq. done.
  - destruct prot; cbn [negb].
    + split; [done|]. intros (_ & ? & ? & ? & [= <-] & [= <-] & Hd & Hp & _). simplify_eq. rewrite Hp in Es; done.
    + rewrite (Hdir (false = true -> path_starts_with dir root = true)) by done. split; [intros ?; eauto 8|].
      intros (_ & ? & ? & ? & [= <-] & [= <-] & Hd & ?). simplify_eq. done.
Qed.

(** The script a request path names: itself, or the [index.php] of the directory it ends in. *)
Definition names_script (uri script : str) : Prop :=
  static_candidate uri = Some script \/
  (static_candidate uri = None /\ exists d, directory_candidate uri = Some d /\ script = path_join d "index.php"%str).

Lemma resolve_script_exact uri sroot aroot prot script :
  resolve_script uri sroot aroot prot = Script script <->
  names_script uri script /\ exists root, sf_canonicalize fs aroot = Some root /\ runnable root prot sroot script.
Proof.
  unfold resolve_script, names_script. destruct (sf_canonicalize fs aroot) as [root|]; [|split; [done|]; by intros (_ & ? & ? & _)].
  assert (forall rel o, o <> Script script ->
    match existing_php_file sroot root rel prot with Some s => Script s | None => o end = Script script <->
    script = rel /\ runnable root prot sroot script) as Hex.
  { intros rel o Ho. pose proof (existing_php_file_exact sroot root rel prot) as He.
    destruct (existing_php_file sroot root rel prot) as [sc|].
    - split; [intros [= ->]; destruct (He script) as [Hx _]; destruct (Hx eq_refl) as [-> ?]; done|].
      intros [-> Hr]. destruct (He rel) as [_ Hx]. by injection (Hx (conj eq_refl Hr)) as ->.
    - split; [done|]. intros [-> Hr]. destruct (He rel) as [_ Hx]. by discriminate (Hx (conj eq_refl Hr)). }
  destruct (static_candidate uri) as [cand|].
  - rewrite Hex by (by destruct (is_existing_directory _ _ _ _)). naive_solver.
  - destruct (directory_candidate uri) as [d|]; [rewrite Hex by done|]; naive_solver.
Qed.

Lemma resolve_rule_target_exact sroot aroot rel prot script :
  resolve_rule_target sroot aroot rel prot = Some script <->
  script = rel /\ exists root, sf_canonicalize fs aroot = Some root /\ runnable root prot sroot script.
Proof.
  unfold resolve_rule_target. destruct (sf_canonicalize fs aroot) as [root|]; cbn [mbind option_bind]; [|naive_solver].
  rewrite existing_php_file_exact. naive_solver.
Qed.

(** C15. What is served and run, exactly.  A request is answered with a file exactly when its path (or the document of
    a routing rule) names one in the served root, or the first index file that can be served in the directory it names
    when that has no [index.php]; the file is regular, is not PHP source, and is read for GET or HEAD only.  PHP is
    handed exactly the script that the path or the rule names, a regular file.  While symlink protection is on, the
    canonical path of each of these, and of the directory of an index file, lies below the canonical document root, and
    an escape is reported as one; with protection off that condition alone is dropped, as documented. *)
Theorem document_root_contained method uri sroot aroot rel prot :
  (forall resp, try_serve method uri sroot aroot prot = Served resp <->
     exists cand root real, static_candidate uri = Some cand /\ sf_canonicalize fs aroot = Some root /\
       sf_canonicalize fs (path_join sroot cand) = Some real /\ from_file root prot method real resp) /\
  (forall resp, try_serve_index method uri sroot aroot prot = Served resp <->
     is_get_or_head method = true /\
     exists dir_rel root dir, directory_candidate uri = Some dir_rel /\ sf_canonicalize fs aroot = Some root /\
       sf_canonicalize fs (path_join sroot dir_rel) = Some dir /\
       (prot = true -> exists below, components dir = components root ++ below) /\
       (exists meta, sf_metadata fs dir = Some meta /\ meta_is_dir meta = true) /\
       sf_metadata fs (path_join dir "index.php"%str) = None /\ first_index root prot method dir resp) /\
  (forall resp, serve_target_file method uri sroot aroot rel prot = Served resp <->
     exists root real, sf_canonicalize fs aroot = Some root /\
       sf_canonicalize fs (path_join sroot rel) = Some real /\ from_file root prot method real resp) /\
  (forall p r root, In (SymlinkEscape p r root)
       [try_serve method uri sroot aroot prot; try_serve_index method uri sroot aroot prot;
        serve_target_file method uri sroot aroot rel prot] ->
     prot = true /\ p = uri /\ path_starts_with r root = false) /\
  (forall script, resolve_script uri sroot aroot prot = Script script <->
     names_script uri script /\ exists root, sf_canonicalize fs aroot = Some root /\ runnable root prot sroot script) /\
  (forall script, resolve_rule_target sroot aroot rel prot = Some script <->
     script = rel /\ exists root, sf_canonicalize fs aroot = Some root /\ runnable root prot sroot script).
Proof.
  pose proof (try_serve_index_spec method uri sroot aroot prot) as Hidx. split_and!.
  - intros resp. unfold try_serve. destruct (static_candidate uri) as [cand|]; [|split; [done|]; by intros (? & ? & ? & ? & _)].
    rewrite serve_contained_exact. split; [naive_solver|]. intros (? & root & real & [= <-] & ?). eauto.
  - intros resp. apply try_serve_index_exact.
  - intros resp. apply serve_contained_exact.
  - intros p r root [E|[E|[E|[]]]].
    + unfold try_serve in E. destruct (static_candidate uri); [|done]. by apply serve_contained_escape in E.
    + by rewrite E in Hidx.
    + by apply serve_contained_escape in E.
  - intros script. apply resolve_script_exact.
  - intros script. apply resolve_rule_target_exact.
Qed.

End Files.

(** The check that a script is PHP looks at the name it is asked by, not at the
    file behind it: a link named like a script reaches PHP whatever it leads to. *)
Lemma script_name_not_rechecked :
  let fs := mkServeFs (fun p => if bool_decide (p = "/srv/site"%str) then Some p
                                else if bool_decide (p = "/srv/site/run.php"%str) then Some "/srv/site/.env"%str else None)
              (fun p => if bool_decide (p = "/srv/site/.env"%str) then Some (mkMeta true false 10) else None)
              (fun _ => None) in
  resolve_rule_target fs "/srv/site"%str "/srv/site"%str "run.php"%str true = Some "run.php"%str /\
  is_php_source "/srv/site/.env"%str = false.
Proof. by vm_compute. Qed.
