(* ===== verification/Server.v ===== *)
(** * The request path of the proxy

    [src/crates/orcker-proxy/src/server.rs] from [dispatch] down, with the
    routing-rule matching of [pure/route_rules.rs], the seams of [traits.rs] and
    [backend.rs], and the daemon's implementations of them in
    [src/bin/orckerd/src/backend_resolver.rs].

    A request is answered with a response, or handed to one of the four
    forwarders: [Answer] says which and with what.  The router, the file system
    and the flags are read once per request; the login tokens are the state a
    request may change. *)

From S2P Require Import Prelude RustStr RustText RustMap Utf8 RustPath CoreError Tld Domain Host Net Site Proxy Router HttpPath CgiHead Http Hop Fcgi FileServe.

Open Scope N_scope.

(** [backend.rs] *)
Inductive Backend :=
| PhpFpm (socket : str)
| PhpFpmTcp (addr : SocketAddr)
| FrankenPhp (addr : SocketAddr).

Definition Backend_fmt (b : Backend) : str :=
  match b with
  | PhpFpm socket => "fpm-unix:"%str ++ socket
  | PhpFpmTcp addr => "fpm-tcp:"%str ++ SocketAddr_fmt addr
  | FrankenPhp addr => "franken:"%str ++ SocketAddr_fmt addr
  end.

(** [traits.rs]: what the daemon injects. *)
Class BackendResolver (R : Type) := {
  backend_for : R -> Site -> result ProxyError Backend;
  allows_direct_script_execution : R -> Site -> bool;
}.

(** Consuming a token answers with the user and leaves the tokens that remain. *)
Class LoginTokenConsumer (T : Type) := {
  consume : T -> str -> str -> option str * T;
}.

(** [backend_resolver.rs] *)
Inductive DaemonBackendResolver := daemon_backend_resolver.
#[export] Instance daemon_resolver : BackendResolver DaemonBackendResolver := {
  backend_for _ site := Err (BackendResolverError (site_name site)
    "no runtime is wired for document-root sites yet; register the site as a proxy entry, or wait for the Docker engine"%str);
  allows_direct_script_execution _ _ := false;
}.

Inductive NoLoginTokens := no_login_tokens.
#[export] Instance daemon_tokens : LoginTokenConsumer NoLoginTokens := {
  consume t _ _ := (None, t);
}.

Definition LOGIN_TOKEN_PARAM : str := "orcker_login_token"%str.

Inductive Listener := ListenHttp | ListenHttps.
#[export] Instance Listener_eq_dec : EqDecision Listener.
Proof. solve_decision. Defined.

Record ProxyTarget := mkProxyTarget { pt_target : UpstreamTarget; pt_tld : str }.

(** ** Unbound requests *)

Inductive UnboundDecision :=
| UServe (site : Site)
| USwitch (name location : str)
| UPicker (dest : str) (clear : bool)
| UNotFound (clear : bool)
| UClearPin.

Definition decide_picker (is_html_get : bool) (dest : str) (clear : bool) : UnboundDecision :=
  if is_html_get then UPicker dest clear else UNotFound clear.

Definition join_path_query (path : str) (query : option str) : str :=
  let path := sanitize_dest path in
  match query with
  | Some q => if is_empty q then path else path ++ "?"%str ++ q
  | None => path
  end.

(** [router.resolve(v).or_else(|| router.get(v))] *)
Definition find_site (router : SiteRouter) (v : str) : option Site :=
  match resolve router v with Some site => Some site | None => get router v end.

Definition classify_unbound (router : SiteRouter) (method path : str)
    (query site_header cookie accept : option str) : UnboundDecision :=
  let is_html_get := str_eqb method "GET" && match accept with Some a => contains_str "text/html"%str a | None => false end in
  match (v ← site_header; let v := trim v in if is_empty v then None else Some v) with
  | Some value =>
      match find_site router value with
      | Some site => UServe site
      | None => UNotFound false
      end
  | None =>
      if is_clear_switch path then UClearPin
      else match parse_switch path with
      | Some sw =>
          match find_site router (switch_domain sw) with
          | Some site => USwitch (site_name site) (join_path_query (switch_remainder sw) query)
          | None => decide_picker is_html_get (join_path_query (switch_remainder sw) query) false
          end
      | None =>
          match (c ← cookie; parse_cookie_site c) with
          | Some name =>
              match get router name with
              | Some site => UServe site
              | None => decide_picker is_html_get (join_path_query path query) true
              end
          | None => decide_picker is_html_get (join_path_query path query) false
          end
      end
  end.

Definition kind_label (k : SiteKind) : str := match k with Parked => "parked"%str | Linked => "linked"%str end.

Section Server.
Context `{Http H, UriOps U}.
Variables (PICKER_CSS PICKER_LOGO : str).

(** ** Synthetic responses *)

Definition text_plain : str * str := ("content-type"%str, "text/plain; charset=utf-8"%str).
Definition server_header : str * str := ("server"%str, PROXY_SERVER_ID).
Definition no_store : str * str := ("cache-control"%str, "no-store"%str).

Definition synthetic (status : N) (headers : list (str * str)) (body : Body) : Response H :=
  mkResponse status (hm_from_list headers) body.
Definition text (s : str) : Body := bytes_body (as_bytes (s ++ [10])).

Definition bad_request_response : Response H :=
  synthetic 400 [server_header; text_plain] (text "Missing or invalid Host header."%str).
Definition not_found_response : Response H :=
  synthetic 404 [server_header; text_plain] (text "No site matches this Host."%str).
Definition internal_error_response : Response H :=
  synthetic 500 [server_header; text_plain] (text "Proxy internal error."%str).
Definition method_not_allowed_response : Response H :=
  synthetic 405 [server_header; ("allow"%str, "GET, HEAD"%str); no_store; text_plain]
    (text ("405 Method Not Allowed"%str ++ [10; 10]
           ++ "This path is served by a static routing rule target, which only answers GET and HEAD."%str)).
Definition upgrade_not_supported : Response H :=
  synthetic 501 [text_plain] (text "WebSocket upgrade not supported on FastCGI backends."%str).

Definition synthetic_error (msg : str) : ProxyError := BackendProtocolMsg msg.

(** A header whose value is computed: refused when it is not a legal value. *)
Definition with_header (name value : str) (err : str) (h : H) : result ProxyError H :=
  match hv_from_str value with Some v => Ok (hm_append name v h) | None => Err (synthetic_error err) end.

Definition append_all (l : list (str * str)) (h : H) : H :=
  foldl (fun h e => hm_append e.1 (as_bytes e.2) h) h l.

Definition switch_response (name location : str) : result ProxyError (Response H) :=
  h ← with_header "location"%str location "invalid switch location"%str hm_empty;
  h ← with_header "set-cookie"%str (build_set_cookie name) "invalid pin cookie"%str h;
  Ok (mkResponse 303 (append_all [no_store; server_header] h) empty_body).

Definition clear_response : result ProxyError (Response H) :=
  h ← with_header "set-cookie"%str build_clear_cookie "invalid clear cookie"%str
        (hm_from_list [("location"%str, "/"%str)]);
  Ok (mkResponse 303 (append_all [no_store; server_header] h) empty_body).

Definition clearing (clear : bool) (h : H) : result ProxyError H :=
  if clear then with_header "set-cookie"%str build_clear_cookie "invalid clear cookie"%str h else Ok h.

Definition picker_response (body_html : str) (clear : bool) : result ProxyError (Response H) :=
  h ← clearing clear (hm_from_list [server_header; no_store; ("content-type"%str, "text/html; charset=utf-8"%str)]);
  Ok (mkResponse 200 h (bytes_body (as_bytes body_html))).

Definition unbound_not_found (clear : bool) : result ProxyError (Response H) :=
  h ← clearing clear (hm_from_list [server_header; no_store; text_plain]);
  Ok (mkResponse 404 h (text "No site matches this Host."%str)).

Definition moved_permanently (location : str) : result ProxyError (Response H) :=
  match hv_from_str location with
  | Some v => Ok (mkResponse 301 (hm_append "location"%str v hm_empty) empty_body)
  | None => Err (BackendProtocolMsg "invalid redirect URI"%str)
  end.

Definition path_and_query_or_root (uri : U) : str := default "/"%str (uri_path_and_query uri).

Definition https_redirect (host : str) (req : Request H U) (port : N) : result ProxyError (Response H) :=
  moved_permanently (build_redirect_uri host (path_and_query_or_root (rq_uri req)) port).

Definition trailing_slash_redirect (req : Request H U) : result ProxyError (Response H) :=
  resp ← moved_permanently (directory_redirect_location (path_and_query_or_root (rq_uri req)));
  Ok (mkResponse (resp_status resp) (hm_insert "cache-control"%str "no-store"%str (resp_headers resp)) (resp_body resp)).

(** ** Routing *)

Inductive Routed :=
| RSite (site : Site) (unbound : bool) (matched : option ProxyTarget) (route : option RouteRule)
| RProxy (forward : ProxyTarget) (secure unbound : bool)
| RRespond (resp : Response H).

Definition site_header_value (headers : H) : option str :=
  v ← (match hm_get SITE_HEADER headers with Some v => Some v | None => hm_get SITE_HEADER_ALIAS headers end);
  hv_to_str v.

(** The site half of a resolution: its path rules are matched under the lock. *)
Definition route_site (router : SiteRouter) (site : Site) (unbound : bool) (path : str) : Routed :=
  let matched := (fun rule => mkProxyTarget (rule_target rule) (Tld_str (cfg_tld (r_config router))))
                 <$> match_rule (rules_for router (site_name site)) path in
  RSite site unbound matched (match_route (route_rules_for router (site_name site)) path).

Definition picker_sites (router : SiteRouter) : list PickerSite :=
  let tld := Tld_str (cfg_tld (r_config router)) in
  (fun e : str * Site =>
     let s := e.2 in
     let primary := match primary_domain router (site_name s) with
                    | Some d => to_fqdn d tld
                    | None => site_name s ++ "."%str ++ tld
                    end in
     mkPicker (site_name s) primary (site_secure s) (kind_label (site_kind s))) <$> btree_iter (r_sites router).

Definition resolve_request (router : SiteRouter) (req : Request H U) (host : str) : result ProxyError Routed :=
  let path := uri_path (rq_uri req) in
  match resolve_route router host with
  | Some (RoutePhp site) => Ok (route_site router site false path)
  | Some (RouteProxy proxy) =>
      Ok (RProxy (mkProxyTarget (proxy_target proxy) (Tld_str (cfg_tld (r_config router)))) (proxy_secure proxy) false)
  | None =>
      if negb (is_loopback_host host) then Ok (RRespond not_found_response)
      else
        match classify_unbound router (rq_method req) path (uri_query (rq_uri req))
                (site_header_value (rq_headers req)) (header_str "cookie"%str (rq_headers req))
                (header_str "accept"%str (rq_headers req)) with
        | UServe site => Ok (route_site router site true path)
        | USwitch name location => resp ← switch_response name location; Ok (RRespond resp)
        | UPicker dest clear =>
            resp ← picker_response (render_picker PICKER_CSS PICKER_LOGO (picker_sites router) dest) clear;
            Ok (RRespond resp)
        | UNotFound clear => resp ← unbound_not_found clear; Ok (RRespond resp)
        | UClearPin => resp ← clear_response; Ok (RRespond resp)
        end
  end.

(** ** Dispatch *)

(** What a request comes to: a response, or a forwarder with what it sends. *)
Inductive Answer :=
| Respond (resp : Response H)
| ToUpstream (target : ProxyTarget) (headers : H) (tunnel : bool)
| ToFrankenPhp (addr : SocketAddr) (req : Request H U) (tunnel : bool)
| ToFpm (backend : Backend) (req : Request H U) (served : str) (script_rel : option str) (https : bool)
    (auto_login : option AutoLoginParams).

(** [proxy.rs]: the headers an upstream connection is opened with. *)
Definition forward_proxy (req : Request H U) (target : ProxyTarget) (peer : IpAddr) (https : bool) (host : str) : Answer :=
  let headers := add_forwarded_headers peer https host (rq_headers req) in
  let tunnel := is_upgrade headers in
  ToUpstream target (if tunnel then headers else strip_hop_by_hop_only headers) tunnel.

Definition resolve_static_outcome (o : StaticOutcome (H := H)) : option (Response H) :=
  match o with
  | Served resp => Some resp
  | SymlinkEscape requested_path _ _ => Some (symlink_escape_response requested_path)
  | StaticNotFound => None
  end.

Inductive RouteOutcome := RouteRespond (resp : Response H) | RouteScript (rel : str) | RouteFallback.

Definition apply_route (fs : ServeFs) (req : Request H U) (route : option RouteRule)
    (served_root allowed_root : str) (symlink_protection : bool) : RouteOutcome :=
  match route with
  | None =>
      match resolve_static_outcome (try_serve_index fs (rq_method req) "/"%str served_root allowed_root symlink_protection) with
      | Some resp => RouteRespond resp
      | None => RouteFallback
      end
  | Some rule =>
      let target := route_target rule in
      if is_php_source target then
        match resolve_rule_target fs served_root allowed_root target symlink_protection with
        | Some rel => RouteScript rel
        | None => RouteFallback
        end
      else if negb (is_get_or_head (rq_method req)) then RouteRespond method_not_allowed_response
      else
        match resolve_static_outcome (serve_target_file fs (rq_method req) (uri_path (rq_uri req)) served_root
                allowed_root target symlink_protection) with
        | Some resp => RouteRespond resp
        | None => RouteFallback
        end
  end.

Definition set_uri (u : U) (req : Request H U) : Request H U :=
  mkRequest (rq_method req) u (rq_headers req) (rq_body req).

Context `{BackendResolver R, LoginTokenConsumer T}.

Definition resolve_script_if_allowed (fs : ServeFs) (resolver : R) (site : Site) (path served_root allowed_root : str)
    (symlink_protection : bool) : ScriptResolution :=
  if negb (allows_direct_script_execution resolver site) then ScriptFallback
  else resolve_script fs path served_root allowed_root symlink_protection.

(** The user signed in, the request to forward and the tokens left. *)
Definition consume_login_token_if_present (req : Request H U) (name : str) (tokens : T)
  : option str * Request H U * T :=
  if negb (starts_with "/wp-admin"%str (uri_path (rq_uri req))) then (None, req, tokens)
  else match get_param (uri_query (rq_uri req)) LOGIN_TOKEN_PARAM with
  | None => (None, req, tokens)
  | Some token =>
      match consume tokens name token with
      | (None, tokens) => (None, req, tokens)
      | (Some user, tokens) =>
          let stripped := strip_param (path_and_query_or_root (rq_uri req)) LOGIN_TOKEN_PARAM in
          (Some user, match uri_parse stripped with Some u => set_uri u req | None => req end, tokens)
      end
  end.

(** What a connection was accepted with. *)
Record Conn := mkConn { cn_peer : SocketAddr; cn_listener : Listener }.

(** What every request of a daemon sees. *)
Record ProxyEnv := mkProxyEnv {
  pe_fs : ServeFs;
  pe_resolver : R;
  pe_prepend : option str;
  pe_redirect_port : option N;
  pe_protection : bool;
}.

Definition serve_php_fpm (env : ProxyEnv) (req : Request H U) (backend : Backend) (site : Site)
    (served allowed : str) (route : option RouteRule) (https : bool) (tokens : T)
  : result ProxyError Answer * T :=
  let fs := pe_fs env in
  let path := uri_path (rq_uri req) in
  let prot := pe_protection env in
  match resolve_static_outcome (try_serve fs (rq_method req) path served allowed prot) with
  | Some resp => (Ok (Respond resp), tokens)
  | None =>
      match resolve_static_outcome (try_serve_index fs (rq_method req) path served allowed prot) with
      | Some resp => (Ok (Respond resp), tokens)
      | None =>
          let php script_rel :=
            let '(user, req, tokens) := consume_login_token_if_present req (site_name site) tokens in
            let auto_login := match user, pe_prepend env with
                              | Some u, Some script => Some (mkLogin script u)
                              | _, _ => None
                              end in
            (Ok (ToFpm backend req served script_rel https auto_login), tokens) in
          let by_route :=
            match apply_route fs req route served allowed prot with
            | RouteRespond resp => (Ok (Respond resp), tokens)
            | RouteScript rel => php (Some rel)
            | RouteFallback => php None
            end in
          match resolve_script_if_allowed fs (pe_resolver env) site path served allowed prot with
          | Script rel => php (Some rel)
          | DirectoryRedirect =>
              if is_get_or_head (rq_method req)
              then (resp ← trailing_slash_redirect req; Ok (Respond resp), tokens)
              else by_route
          | ScriptFallback => by_route
          end
      end
  end.

(** A resolver's error, kept when it is already one of the backend kinds. *)
Definition backend_error (host : str) (e : ProxyError) : ProxyError :=
  match e with
  | BackendResolverError _ _ | BackendResolverBoxed _ _ | BackendConnect _ _ | BackendProtocol _
  | BackendProtocolMsg _ => e
  | FcgiFailed _ => BackendResolverBoxed host e
  end.

Definition dispatch (env : ProxyEnv) (router : SiteRouter) (conn : Conn) (req : Request H U) (tokens : T)
  : result ProxyError Answer * T :=
  match header_str "host"%str (rq_headers req) with
  | None => (Ok (Respond bad_request_response), tokens)
  | Some host =>
      let https := bool_decide (cn_listener conn = ListenHttps) in
      let redirected (secure unbound : bool) : option N :=
        if negb https && negb unbound && secure then pe_redirect_port env else None in
      match resolve_request router req host with
      | Err e => (Err e, tokens)
      | Ok (RRespond resp) => (Ok (Respond resp), tokens)
      | Ok (RProxy forward secure unbound) =>
          match redirected secure unbound with
          | Some port => (resp ← https_redirect host req port; Ok (Respond resp), tokens)
          | None => (Ok (forward_proxy req forward (addr_ip (cn_peer conn)) https host), tokens)
          end
      | Ok (RSite site unbound matched route) =>
          match redirected (site_secure site) unbound with
          | Some port => (resp ← https_redirect host req port; Ok (Respond resp), tokens)
          | None =>
              match matched with
              | Some forward => (Ok (forward_proxy req forward (addr_ip (cn_peer conn)) https host), tokens)
              | None =>
                  match backend_for (pe_resolver env) site with
                  | Err e => (Err (backend_error host e), tokens)
                  | Ok backend =>
                      let upgrading := is_upgrade (rq_headers req) in
                      match backend with
                      | FrankenPhp addr => (Ok (ToFrankenPhp addr req upgrading), tokens)
                      | PhpFpm _ | PhpFpmTcp _ =>
                          if upgrading then (Ok (Respond upgrade_not_supported), tokens)
                          else serve_php_fpm env req backend site (served_root site) (site_document_root site)
                                 route https tokens
                      end
                  end
              end
          end
      end
  end.

(** Errors become a 500, so the connection goes on. *)
Definition handle_request (env : ProxyEnv) (router : SiteRouter) (conn : Conn) (req : Request H U) (tokens : T)
  : Answer * T :=
  match dispatch env router conn req tokens with
  | (Ok a, tokens) => (a, tokens)
  | (Err _, tokens) => (Respond internal_error_response, tokens)
  end.

(** ** How a request reaches PHP *)

(** The one way a request is handed to FastCGI: the token is looked at last. *)
Definition php_answer (env : ProxyEnv) (req : Request H U) (backend : Backend) (site : Site) (https : bool)
    (tokens : T) (script_rel : option str) : result ProxyError Answer * T :=
  let '(user, req, tokens) := consume_login_token_if_present req (site_name site) tokens in
  let auto_login := match user, pe_prepend env with
                    | Some u, Some script => Some (mkLogin script u)
                    | _, _ => None
                    end in
  (Ok (ToFpm backend req (served_root site) script_rel https auto_login), tokens).

(** Where the script of a site may come from. *)
Definition script_allowed (env : ProxyEnv) (req : Request H U) (site : Site) (route : option RouteRule)
    (script_rel : option str) : Prop :=
  match script_rel with
  | None => True
  | Some rel =>
      (exists root, sf_canonicalize (pe_fs env) (site_document_root site) = Some root /\
         runnable (pe_fs env) root (pe_protection env) (served_root site) rel) /\
      (allows_direct_script_execution (pe_resolver env) site = true /\ names_script (uri_path (rq_uri req)) rel \/
       exists rule, route = Some rule /\ route_target rule = rel)
  end.

Lemma apply_route_script fs req route sroot aroot prot rel :
  apply_route fs req route sroot aroot prot = RouteScript rel ->
  exists rule root, route = Some rule /\ route_target rule = rel /\ sf_canonicalize fs aroot = Some root /\
    runnable fs root prot sroot rel.
Proof.
  unfold apply_route. destruct route as [rule|]; [|by destruct (resolve_static_outcome _)].
  destruct (is_php_source (route_target rule)).
  - unfold resolve_rule_target. destruct (sf_canonicalize fs aroot) as [root|]; [|done]. cbn [mbind option_bind].
    destruct (existing_php_file fs sroot root (route_target rule) prot) eqn:E; [|done].
    intros [= <-]. apply existing_php_file_exact in E as [-> ?]. eauto 6.
  - destruct (negb _); [done|]. by destruct (resolve_static_outcome _).
Qed.

Lemma serve_php_cases env req backend site route https tokens a t' :
  serve_php_fpm env req backend site (served_root site) (site_document_root site) route https tokens = (a, t') ->
  (t' = tokens /\ match a with Ok (Respond _) | Err _ => True | _ => False end) \/
  exists script, php_answer env req backend site https tokens script = (a, t') /\
    script_allowed env req site route script.
Proof.
  unfold serve_php_fpm. cbv zeta.
  destruct (resolve_static_outcome (try_serve _ _ _ _ _ _)); [intros [= <- <-]; by left|].
  destruct (resolve_static_outcome (try_serve_index _ _ _ _ _ _)); [intros [= <- <-]; by left|].
  assert (forall b, match apply_route (pe_fs env) req route (served_root site) (site_document_root site) (pe_protection env) with
    | RouteRespond resp => (Ok (Respond resp), tokens)
    | RouteScript rel => php_answer env req backend site https tokens (Some rel)
    | RouteFallback => php_answer env req backend site https tokens None end = b -> b = (a, t') ->
    (t' = tokens /\ match a with Ok (Respond _) | Err _ => True | _ => False end) \/
    exists script, php_answer env req backend site https tokens script = (a, t') /\
      script_allowed env req site route script) as Hroute.
  { intros b Hb ->. destruct (apply_route _ _ _ _ _ _) as [resp|rel|] eqn:E.
    - injection Hb as <- <-. by left.
    - right. exists (Some rel). split; [done|]. apply apply_route_script in E as (rule & root & ? & ? & ? & ?).
      split; [eauto|]. right. eauto.
    - right. by exists None. }
  destruct (resolve_script_if_allowed _ _ _ _ _ _ _) as [rel| |] eqn:E.
  - intros Ha. right. exists (Some rel). split; [done|]. unfold resolve_script_if_allowed in E.
    destruct (allows_direct_script_execution (pe_resolver env) site) eqn:Ed; cbn [negb] in E; [|done].
    apply resolve_script_exact in E as [Hn Hrun]. split; [done|]. by left.
  - destruct (is_get_or_head (rq_method req)).
    + intros [= <- <-]. left. split; [done|]. by destruct (trailing_slash_redirect req).
    + intros Ha. by eapply Hroute.
  - intros Ha. by eapply Hroute.
Qed.

(** The site a request is for: its host names it, or its host names none, is a loopback one, and the site is the one
    the site header or the pin cookie chose. *)
Definition chosen_site (router : SiteRouter) (req : Request H U) (site : Site) : Prop :=
  (exists v, site_header_value (rq_headers req) = Some v /\ find_site router (trim v) = Some site) \/
  (exists c name, header_str "cookie"%str (rq_headers req) = Some c /\ parse_cookie_site c = Some name /\
     get router name = Some site).
Definition site_for (router : SiteRouter) (req : Request H U) (host : str) (site : Site) : Prop :=
  resolve_route router host = Some (RoutePhp site) \/
  (resolve_route router host = None /\ is_loopback_host host = true /\ chosen_site router req site).

Lemma classify_serves router req site :
  classify_unbound router (rq_method req) (uri_path (rq_uri req)) (uri_query (rq_uri req))
    (site_header_value (rq_headers req)) (header_str "cookie"%str (rq_headers req))
    (header_str "accept"%str (rq_headers req)) = UServe site -> chosen_site router req site.
Proof.
  unfold classify_unbound, chosen_site. cbv zeta. set (html := _ && _). generalize html. intros b.
  assert (forall d c, decide_picker b d c <> UServe site) as Hp by (intros d c; by destruct b).
  destruct (site_header_value _) as [v|]; cbn [mbind option_bind].
  - destruct (is_empty (trim v)).
    + destruct (is_clear_switch _); [done|]. destruct (parse_switch _) as [sw|].
      * destruct (find_site router (switch_domain sw)); [done|]. by intros ?%Hp.
      * destruct (header_str "cookie"%str (rq_headers req)) as [c|]; cbn [mbind option_bind]; [|by intros ?%Hp].
        destruct (parse_cookie_site c) as [name|] eqn:Ec; [|by intros ?%Hp].
        destruct (get router name) as [x|] eqn:Eg; [|by intros ?%Hp]. intros [= <-]. right. eauto.
    + destruct (find_site router (trim v)) as [x|] eqn:Ef; [|done]. intros [= <-]. left. eauto.
  - destruct (is_clear_switch _); [done|]. destruct (parse_switch _) as [sw|].
    + destruct (find_site router (switch_domain sw)); [done|]. by intros ?%Hp.
    + destruct (header_str "cookie"%str (rq_headers req)) as [c|]; cbn [mbind option_bind]; [|by intros ?%Hp].
      destruct (parse_cookie_site c) as [name|] eqn:Ec; [|by intros ?%Hp].
      destruct (get router name) as [x|] eqn:Eg; [|by intros ?%Hp]. intros [= <-]. right. eauto.
Qed.

(** How a request of a site is resolved. *)
Lemma resolve_request_site router req host site unbound matched route :
  resolve_request router req host = Ok (RSite site unbound matched route) ->
  RSite site unbound matched route = route_site router site unbound (uri_path (rq_uri req)) /\ site_for router req host site.
Proof.
  unfold resolve_request, site_for. destruct (resolve_route router host) as [[s|p]|]; [|done|].
  { intros [= <- <- <- <-]. split; [done|]. by left. }
  destruct (is_loopback_host host); cbn [negb]; [|done].
  destruct (classify_unbound _ _ _ _ _ _ _) as [s|n l|d c|c|] eqn:Ec; cbn [mbind result_bind].
  - intros [= <- <- <- <-]. split; [done|]. right. split; [done|]. split; [done|]. by apply classify_serves.
  - by destruct (switch_response n l).
  - by destruct (picker_response _ c).
  - by destruct (unbound_not_found c).
  - by destruct clear_response.
Qed.

Lemma dispatch_cases env router conn req tokens a t' :
  dispatch env router conn req tokens = (a, t') ->
  (t' = tokens /\ match a with Ok (ToFpm _ _ _ _ _ _) => False | _ => True end) \/
  exists host site unbound route backend script,
    header_str "host"%str (rq_headers req) = Some host /\
    resolve_request router req host = Ok (RSite site unbound None route) /\
    backend_for (pe_resolver env) site = Ok backend /\
    php_answer env req backend site (bool_decide (cn_listener conn = ListenHttps)) tokens script = (a, t') /\
    script_allowed env req site route script.
Proof.
  unfold dispatch. cbv zeta. destruct (header_str "host"%str (rq_headers req)) as [host|]; [|intros [= <- <-]; by left].
  destruct (resolve_request router req host) as [[site unbound matched route|f sec unb|resp]|e] eqn:Er;
    [|destruct (if _ : bool then _ else _); intros [= <- <-]; left; (split; [done|]); [by destruct (https_redirect _ _ _)|done]
     |intros [= <- <-]; by left|intros [= <- <-]; by left].
  destruct (if _ : bool then _ else _); [intros [= <- <-]; left; split; [done|]; by destruct (https_redirect _ _ _)|].
  destruct matched as [f|]; [intros [= <- <-]; by left|].
  destruct (backend_for (pe_resolver env) site) as [backend|e] eqn:Eb; [|intros [= <- <-]; by left].
  assert (serve_php_fpm env req backend site (served_root site) (site_document_root site) route
            (bool_decide (cn_listener conn = ListenHttps)) tokens = (a, t') ->
    (t' = tokens /\ match a with Ok (ToFpm _ _ _ _ _ _) => False | _ => True end) \/
    exists host' site' unbound' route' backend' script,
      Some host = Some host' /\ resolve_request router req host' = Ok (RSite site' unbound' None route') /\
      backend_for (pe_resolver env) site' = Ok backend' /\
      php_answer env req backend' site' (bool_decide (cn_listener conn = ListenHttps)) tokens script = (a, t') /\
      script_allowed env req site' route' script) as Hphp.
  { intros Hs. apply serve_php_cases in Hs as [[-> Ha]|(script & Hs & Hw)].
    - left. split; [done|]. by destruct a as [[]|].
    - right. exists host, site, unbound, route, backend, script. done. }
  destruct backend; [| |intros [= <- <-]; by left];
    (destruct (is_upgrade (rq_headers req)); [intros [= <- <-]; by left|exact Hphp]).
Qed.

Lemma route_site_rule router site unbound path rule m rt :
  route_site router site unbound path = RSite site unbound m rt ->
  rt = Some rule -> rule ∈ route_rules_for router (site_name site) /\ route_matches_path rule path = true.
Proof.
  unfold route_site. intros [= _ <-] Hm. unfold match_route in Hm. apply max_by_key_Some in Hm as [Hin _].
  apply elem_of_bfilter in Hin as [? ?]. done.
Qed.


(** A login token is spent only on the PHP request it signs in. Every other
    outcome (the redirect to HTTPS, the trailing-slash redirect, a static file, a
    refusal, a proxied request, an error) leaves the tokens as they were; a token
    is looked at only under [/wp-admin] and for the site the request resolved to;
    a refused one changes nothing in the request; and an accepted one is taken
    out of the forwarded URI, unless what is left would not parse as one. *)
Theorem login_tokens_spent_on_php_only env router conn req tokens
    (Hparse : forall s u, "#"%ch ∉ s -> uri_parse s = Some u -> uri_query u = query_of s)
    (Hfrag : "#"%ch ∉ path_and_query_or_root (rq_uri req)) :
  match dispatch env router conn req tokens with
  | (Ok (ToFpm _ req' served _ _ login), t') =>
      exists site, served = served_root site /\
        ((req' = req /\ login = None /\ t' = tokens) \/
         exists token user, starts_with "/wp-admin"%str (uri_path (rq_uri req)) = true /\
           get_param (uri_query (rq_uri req)) LOGIN_TOKEN_PARAM = Some token /\
           consume tokens (site_name site) token = (user, t') /\
           match user with
           | None => req' = req /\ login = None
           | Some u =>
               login = (script ← pe_prepend env; Some (mkLogin script u)) /\
               rq_method req' = rq_method req /\ rq_headers req' = rq_headers req /\ rq_body req' = rq_body req /\
               (uri_parse (U := U) (strip_param (path_and_query_or_root (rq_uri req)) LOGIN_TOKEN_PARAM) = None \/
                get_param (uri_query (rq_uri req')) LOGIN_TOKEN_PARAM = None)
           end)
  | (_, t') => t' = tokens
  end.
Proof.
  destruct (dispatch env router conn req tokens) as [a t'] eqn:Hd.
  apply dispatch_cases in Hd as [[-> Ha]|(host & site & unb & route & b & script & _ & _ & _ & Ha & _)].
  { by destruct a as [[]|]. }
  unfold php_answer, consume_login_token_if_present in Ha.
  destruct (starts_with "/wp-admin"%str (uri_path (rq_uri req))) eqn:Ep; cbn [negb] in Ha;
    [|injection Ha as <- <-; exists site; split; [done|]; by left].
  destruct (get_param (uri_query (rq_uri req)) LOGIN_TOKEN_PARAM) as [token|] eqn:Eg;
    [|injection Ha as <- <-; exists site; split; [done|]; by left].
  destruct (consume tokens (site_name site) token) as [[user|] tk] eqn:Ec; injection Ha as <- <-;
    exists site; (split; [done|]); right; exists token; eexists; (split; [done|]); (split; [done|]); (split; [done|]); cbn; [|done].
  split; [by destruct (pe_prepend env)|].
  destruct (uri_parse (strip_param _ _)) as [u|] eqn:Eu; [|by repeat split; auto].
  repeat split. right. cbn [set_uri rq_uri]. rewrite (Hparse _ _ (strip_param_no_fragment _ _ _ Hfrag ltac:(done) ltac:(done)) Eu).
  rewrite strip_param_exact. by rewrite bool_decide_true.
Qed.

(** ** Requests without a routable host *)

(** A path the browser resolves against the same origin: one leading slash. *)
Definition same_origin (dest : str) : Prop :=
  exists rest, dest = slash :: rest /\ forall c r, rest = c :: r -> lead_char c = false.

Lemma join_same_origin path query : same_origin (join_path_query path query).
Proof.
  unfold join_path_query, same_origin. cbv zeta. rewrite sanitize_dest_exact.
  assert (forall q, exists rest, (slash :: drop_while lead_char path) ++ "?"%str ++ q = slash :: rest /\
    forall c r, rest = c :: r -> lead_char c = false) as Hq.
  { intros q. exists (drop_while lead_char path ++ "?"%str ++ q). split; [done|]. intros c r.
    destruct (drop_while lead_char path) as [|d s] eqn:E; cbn; [by intros [= <- <-]|].
    intros [= <- <-]. by eapply drop_while_no_lead. }
  assert (exists rest, slash :: drop_while lead_char path = slash :: rest /\
    forall c r, rest = c :: r -> lead_char c = false) as Hn.
  { exists (drop_while lead_char path). split; [done|]. intros c r. apply drop_while_no_lead. }
  destruct query as [q|]; [|exact Hn]. destruct (is_empty q); [exact Hn|apply Hq].
Qed.

Definition decision_safe (router : SiteRouter) (method : str) (d : UnboundDecision) : Prop :=
  match d with
  | UServe site => exists v, find_site router v = Some site \/ get router v = Some site
  | USwitch name location => same_origin location /\ exists v site, find_site router v = Some site /\ name = site_name site
  | UPicker dest _ =>
      same_origin dest /\ method = "GET"%str /\
      markup (render_picker PICKER_CSS PICKER_LOGO (picker_sites router) dest)
      = markup (render_picker PICKER_CSS PICKER_LOGO (blank <$> picker_sites router) [])
  | UNotFound _ | UClearPin => True
  end.

Lemma decide_picker_safe router method b dest clear :
  (b = true -> method = "GET"%str) -> same_origin dest -> decision_safe router method (decide_picker b dest clear).
Proof.
  intros Hb Hd. unfold decide_picker. destruct b; [|done]. split; [done|]. split; [auto|]. apply picker_markup.
Qed.

(** A request whose host names no site is answered safely. Off the loopback it
    is a plain 404; on it, whatever the headers, the cookie and the path say, a
    redirect stays on the origin it came to and pins a site of the router, the
    picker is rendered only for a GET and no text in it can open, close or quote
    markup, and a site is served only when the router knows it. A host that does
    resolve is not affected by any of them. *)
Theorem unbound_requests_safe router (req req' : Request H U) host :
  (forall query site_header cookie accept path method,
     decision_safe router method (classify_unbound router method path query site_header cookie accept)) /\
  (resolve_route router host = None -> is_loopback_host host = false ->
     resolve_request router req host = Ok (RRespond not_found_response)) /\
  (resolve_route router host <> None -> uri_path (rq_uri req') = uri_path (rq_uri req) ->
     resolve_request router req' host = resolve_request router req host).
Proof.
  split; [|split].
  - intros query site_header cookie accept path method. unfold classify_unbound. cbv zeta.
    set (html := _ && _). assert (html = true -> method = "GET"%str) as Hm.
    { unfold html, str_eqb. intros Hb. by bprop. }
    destruct (site_header ≫= _) as [v|].
    { destruct (find_site router v) as [site|] eqn:E; [|done]. exists v. by left. }
    destruct (is_clear_switch path); [done|]. destruct (parse_switch path) as [sw|].
    { destruct (find_site router (switch_domain sw)) as [site|] eqn:E.
      - split; [apply join_same_origin|]. eauto.
      - by apply decide_picker_safe, join_same_origin. }
    destruct (cookie ≫= parse_cookie_site) as [name|].
    { destruct (get router name) as [site|] eqn:E; [|by apply decide_picker_safe, join_same_origin].
      exists name. by right. }
    by apply decide_picker_safe, join_same_origin.
  - intros Hr Hl. unfold resolve_request. by rewrite Hr, Hl.
  - intros Hr Hp. unfold resolve_request. destruct (resolve_route router host) as [[site|p]|]; [|done|done]. by rewrite Hp.
Qed.

End Server.

(** ** The daemon's own proxy *)

(** As the daemon runs it, the proxy only forwards. Whatever the request and
    the file system, no file is served and no PHP is run for a document-root
    site: the answer is a synthetic response, an error, or a forward to the
    upstream of a whole-host proxy or of a path rule of the router. *)
Lemma daemon_only_forwards `{Http H, UriOps U} css logo
    (env : ProxyEnv (R := DaemonBackendResolver)) router conn (req : Request H U) (tokens : NoLoginTokens) :
  match (dispatch css logo env router conn req tokens).1 with
  | Ok (Respond _) | Err _ => True
  | Ok (ToUpstream target _ _) =>
      exists host, header_str "host"%str (rq_headers req) = Some host /\
        ((exists proxy, resolve_route router host = Some (RouteProxy proxy) /\ proxy_target proxy = pt_target target) \/
         (exists site rule, site_for router req host site /\ rule ∈ rules_for router (site_name site) /\
            rule_target rule = pt_target target /\ rule_matches_path rule (uri_path (rq_uri req)) = true))
  | Ok (ToFrankenPhp _ _ _) | Ok (ToFpm _ _ _ _ _ _) => False
  end.
Proof.
  unfold dispatch. cbv zeta. destruct (header_str "host"%str (rq_headers req)) as [host|]; [|done].
  destruct (resolve_request css logo router req host) as [[site unbound matched route|f sec unb|resp]|e] eqn:Er; [| |done|done].
  - destruct (if _ : bool then _ else _); [by destruct (https_redirect _ _ _)|].
    apply resolve_request_site in Er as [Er Hs]. unfold route_site in Er. injection Er as -> ->.
    destruct (match_rule _ _) as [rule|] eqn:Em; [|done]. cbn. exists host. split; [done|]. right. exists site, rule.
    apply max_by_key_Some in Em as [Hin _]. by apply elem_of_bfilter in Hin as [? ?].
  - destruct (if _ : bool then _ else _); [by destruct (https_redirect _ _ _)|]. cbn. exists host. split; [done|]. left.
    unfold resolve_request in Er. destruct (resolve_route router host) as [[s|p]|] eqn:Eh; [done| |].
    + injection Er as <- <- <-. by exists p.
    + destruct (negb (is_loopback_host host)); [done|]. destruct (classify_unbound _ _ _ _ _ _ _); cbn in Er.
      * done.
      * by destruct (switch_response _ _).
      * by destruct (picker_response _ _).
      * by destruct (unbound_not_found _).
      * by destruct clear_response.
Qed.

(** The daemon's proxy reads no file: with anything else on the disk, and with symlink protection either way, a request
    is answered as before. *)
Lemma daemon_ignores_files `{Http H, UriOps U} css logo
    (env : ProxyEnv (R := DaemonBackendResolver)) fs prot router conn (req : Request H U) (tokens : NoLoginTokens) :
  dispatch css logo (mkProxyEnv fs (pe_resolver env) (pe_prepend env) (pe_redirect_port env) prot) router conn req tokens =
  dispatch css logo env router conn req tokens.
Proof. done. Qed.

(** ** Examples *)

(** URIs that are just their path and query. *)
Definition path_uri : Type := str.
#[export] Instance path_uri_ops : UriOps path_uri := {
  uri_path s := hd s (split_char "?"%ch s);
  uri_query s := query_of s;
  uri_path_and_query s := Some s;
  uri_parse s := if starts_with "/" s then Some s else None;
}.

(** One site served by PHP-FPM, one valid token. *)
Inductive DemoResolver := demo_resolver.
#[export] Instance demo_resolver_ops : BackendResolver DemoResolver := {
  backend_for _ _ := Ok (PhpFpm "/run/fpm.sock"%str);
  allows_direct_script_execution _ _ := true;
}.
Inductive DemoTokens := demo_tokens (live : list str).
#[export] Instance demo_tokens_ops : LoginTokenConsumer DemoTokens := {
  consume t site token :=
    let '(demo_tokens live) := t in
    (if bool_decide (token ∈ live) then Some "admin"%str else None,
     demo_tokens (bfilter (fun x => negb (str_eqb x token)) live));
}.

Definition demo_files : ServeFs :=
  mkServeFs (fun p => if bool_decide (p ∈ ["/srv/blog"; "/srv/blog/wp-admin/index.php"; "/srv/blog/logo.svg"]%str)
                      then Some p else None)
    (fun p => if ends_with ".php" p || ends_with ".svg" p then Some (mkMeta true false 3) else None)
    (fun p => if ends_with ".svg" p then Some "svg"%str else None).

Definition demo_proxy_env : ProxyEnv (R := DemoResolver) :=
  mkProxyEnv demo_files demo_resolver (Some "/opt/login.php"%str) (Some 443) true.
Definition demo_conn : Conn := mkConn (mkAddr (V4 (mkV4 127 0 0 1)) 50000) ListenHttp.
Definition demo_get (path : str) : Request list_headers path_uri :=
  mkRequest "GET"%str path [("host"%str, "blog.test"%str)] [].
Definition demo_login : Request list_headers path_uri :=
  demo_get "/wp-admin/?a=1&orcker_login_token=cafe&b=2"%str.
Definition demo_live : DemoTokens := demo_tokens ["cafe"%str].


Lemma login_tokens_spent_on_php_only_witness :
  (dispatch [] [] demo_proxy_env demo_router demo_conn (demo_get "/logo.svg?orcker_login_token=cafe"%str) demo_live).2 = demo_live.
Proof.
  pose proof (login_tokens_spent_on_php_only [] [] demo_proxy_env demo_router demo_conn
    (demo_get "/logo.svg?orcker_login_token=cafe"%str) demo_live) as Hs.
  assert (forall s u, "#"%ch ∉ s -> uri_parse (U := path_uri) s = Some u -> uri_query u = query_of s) as Hp.
  { intros s u _. cbn. destruct (starts_with "/" s); [|done]. by intros [= <-]. }
  assert ("#"%ch ∉ path_and_query_or_root (U := path_uri)
            (rq_uri (demo_get "/logo.svg?orcker_login_token=cafe"%str))) as Hf.
  { apply contains_char_false. by vm_compute. }
  specialize (Hs Hp Hf).
  destruct (dispatch [] [] demo_proxy_env demo_router demo_conn (demo_get "/logo.svg?orcker_login_token=cafe"%str) demo_live)
    as [[[resp|?|?|b req' served rel https login]|e] t'] eqn:D; try exact Hs.
  exfalso. clear Hs. assert (match (dispatch [] [] demo_proxy_env demo_router demo_conn
    (demo_get "/logo.svg?orcker_login_token=cafe"%str) demo_live).1 with Ok (Respond _) => true | _ => false end = true) as Hr
    by (vm_compute; reflexivity).
  rewrite D in Hr. discriminate Hr.
Defined.
