(* ===== verification/Gateway.v ===== *)
(** * The daemon behind its proxy

    The two halves of the program meet in the router: the daemon rebuilds it from
    its configuration ([Daemon], [SiteDomains.build]) and the proxy resolves every
    request with it ([Server.dispatch]).  [gateway_forwards_configured] follows a
    request through both. *)

From S2P Require Import Prelude RustStr RustMap RustPath CoreError DnsLabel Tld Domain Host Php Site Proxy Router Project Settings Config Migrate Wire SiteDomains Mutate MutateValid Link Scan Daemon LanSetup DaemonInv DaemonClaims HttpPath Http Hop Fcgi FileServe Server.

Open Scope N_scope.

(** ** The upstreams of a built router *)

Lemma plan_proxies_elem cfg plans p :
  p ∈ plan_proxies cfg plans -> pp_proxy p ∈ cf_proxies cfg ++ project_proxies (cf_projects cfg).
Proof.
  unfold plan_proxies. set (names := list_to_set _). generalize (cf_proxies cfg ++ project_proxies (cf_projects cfg)) as l.
  intros l. assert (forall l seen (acc : list ProxyPlan), p ∈ (foldl (fun (acc : gset str * list ProxyPlan) proxy =>
     let '(seen, plans) := acc in
     if bool_decide (proxy_name proxy ∈ seen) then acc
     else ({[proxy_name proxy]} ∪ seen, plans ++ [plan_proxy cfg names proxy])) (seen, acc) l).2 ->
     p ∈ acc \/ pp_proxy p ∈ l) as H.
  { clear l. induction l as [|x l IH]; intros seen acc; cbn [foldl]; [by left|].
    destruct (bool_decide (proxy_name x ∈ seen)); [intros [?|?]%IH; [by left|right; by right]|].
    intros [[?|Hp%list_elem_of_singleton]%elem_of_app|?]%IH; [by left| |right; by right].
    right. subst p. assert (pp_proxy (plan_proxy cfg names x) = x) as ->; [|by left].
    unfold plan_proxy. by destruct (delta_parts _) as [[] ?]. }
  intros Hp%H. destruct Hp as [?%elem_of_nil|?]; done.
Qed.

Lemma planned_upstream cfg p :
  p ∈ cf_proxies cfg ++ project_proxies (cf_projects cfg) -> upstream_of cfg (proxy_target p).
Proof.
  intros [Hp|Hp]%elem_of_app; [by eapply up_proxy|].
  apply list_elem_of_omap in Hp as (c & Hc & Ho). destruct (proxy_site c) as [q|] eqn:E; [|done].
  injection Ho as <-. by eapply up_project.
Qed.

Lemma route_for_upstream cfg sites n p :
  route_for (build cfg sites) n = Some (RouteProxy p) -> upstream_of cfg (proxy_target p).
Proof.
  rewrite build_route. unfold planned. intros Hr. apply fmap_Some in Hr as ([rt ds] & Hr & E). cbn in E. subst rt.
  apply lookup_union_Some_raw in Hr as [Hr|[_ Hr]]; apply elem_of_list_to_map_2 in Hr;
    apply list_elem_of_omap in Hr as ([i q] & Hin & He).
  - unfold proxy_entry in He. cbn in He. destruct (pp_shadowed q); [done|]. injection He as _ <- _.
    apply elem_of_enumerate in Hin. apply planned_upstream, (plan_proxies_elem cfg (plan_sites cfg sites)).
    by eapply list_elem_of_lookup_2.
  - done.
Qed.

(** Rules reach the router only from the configuration. *)
Definition rules_configured (cfg : Config) (r : SiteRouter) : Prop :=
  forall n rule, rule ∈ rules_for r n -> upstream_of cfg (rule_target rule).

Lemma set_rules_configured cfg r site rs :
  (forall rule, rule ∈ rs -> upstream_of cfg (rule_target rule)) ->
  rules_configured cfg r -> rules_configured cfg (set_proxy_rules site rs r).
Proof.
  intros Hrs Hr n rule. unfold rules_for, set_proxy_rules. cbn.
  assert (forall m : gmap str (list ProxyRule), (forall rule, rule ∈ default [] (m !! n) -> rule ∈ rs \/ rule ∈ rules_for r n) ->
    rule ∈ default [] (m !! n) -> upstream_of cfg (rule_target rule)) as Hm.
  { intros m Hm Hin. destruct (Hm rule Hin) as [?|?]; [auto|by eapply Hr]. }
  apply Hm. intros x. destruct (is_empty rs).
  - rewrite lookup_delete. case_decide; cbn; [set_solver|]. by right.
  - rewrite lookup_insert. case_decide; cbn; [by left|by right].
Qed.

Lemma attach_rules_configured cfg r plan : rules_configured cfg r -> rules_configured cfg (attach_rules cfg r plan).
Proof.
  intros Hr. unfold attach_rules. cbv zeta.
  assert (forall r', rules_configured cfg r' -> rules_configured cfg
    (match (match site_kind (sp_site plan) with
            | Linked => route_rules_linked (cf_route_rules cfg) !! site_name (sp_site plan)
            | Parked => route_rules_parked (cf_route_rules cfg) !! site_document_root (sp_site plan)
            end) with Some rs => set_route_rules (site_name (sp_site plan)) rs r' | None => r' end)) as Hroute.
  { intros r' Hr'. by destruct (match site_kind _ with Parked => _ | Linked => _ end). }
  apply Hroute. destruct (site_kind (sp_site plan)).
  - destruct (proxy_rules_parked (cf_proxy_rules cfg) !! site_document_root (sp_site plan)) as [rs|] eqn:E; [|done].
    apply set_rules_configured; [|done]. intros rule Hin. by apply (up_rule cfg _ false (site_document_root (sp_site plan)) rs rule).
  - destruct (proxy_rules_linked (cf_proxy_rules cfg) !! site_name (sp_site plan)) as [rs|] eqn:E; [|done].
    apply set_rules_configured; [|done]. intros rule Hin. by apply (up_rule cfg _ true (site_name (sp_site plan)) rs rule).
Qed.

Lemma inserts_keep_rules cfg claims n r :
  (forall e, rules_configured cfg r -> rules_configured cfg (insert_site_plan claims r e)) /\
  (forall e, rules_configured cfg r -> rules_configured cfg (insert_proxy_plan claims n r e)).
Proof.
  split; intros e Hr m rule.
  - unfold insert_site_plan, insert_with_domains. cbv zeta. destruct (name_taken _ _); [apply Hr|].
    destruct (index_conflict _ _); apply Hr.
  - unfold insert_proxy_plan, insert_proxy_with_domains. cbv zeta. destruct (pp_shadowed _); [apply Hr|].
    destruct (name_taken _ _); [apply Hr|]. destruct (index_conflict _ _); apply Hr.
Qed.

Lemma fold_keeps {A B} (P : A -> Prop) (f : A -> B -> A) l a : (forall a b, P a -> P (f a b)) -> P a -> P (foldl f a l).
Proof. intros Hf. revert a; induction l as [|b l IH]; intros a Ha; [done|]. apply IH, Hf, Ha. Qed.

Lemma build_rules_configured cfg sites : rules_configured cfg (build cfg sites).
Proof.
  unfold build. cbv zeta. apply fold_keeps; [intros r p; apply attach_rules_configured|].
  apply fold_keeps; [intros r p; eapply inserts_keep_rules|].
  apply fold_keeps; [intros r p; by apply (inserts_keep_rules cfg _ 0 r)|].
  intros n rule. unfold rules_for. cbn. rewrite lookup_empty. cbn. by intros ?%elem_of_nil.
Qed.

(** Whatever a built router forwards to is configured. *)
Lemma route_upstream cfg sites host p :
  resolve_route (build cfg sites) host = Some (RouteProxy p) -> upstream_of cfg (proxy_target p).
Proof.
  unfold resolve_route. destruct (normalise host) as [h|]; [|done].
  intros Hr. assert (exists n, route_for (build cfg sites) n = Some (RouteProxy p)) as (n & Hn); [|by eapply route_for_upstream].
  cbv zeta in Hr. destruct (str_eqb h _); [done|]. destruct (strip_suffix _ h) as [sub|]; [|done]. cbn [mbind option_bind] in Hr.
  destruct (is_empty sub); [done|]. destruct (r_exact _ !! sub) as [n|]; [eauto|].
  destruct (split_once _ sub) as [[? rest]|]; [|done]. destruct (r_wildcards _ !! _) as [n|]; [eauto|done].
Qed.

Section Gateway.
Context {J Hd U : Type} `{!Json J, !Http Hd, !UriOps U}.

(** C5. End to end, the daemon's proxy only forwards, and only where the configuration
    says. In every state the daemon reaches, whatever HTTP request arrives: nothing on
    the disk plays a part in the answer, with any other files it is the same, so that no
    file is served; no PHP is run; and a request that is forwarded goes to the whole-host
    proxy that its host names, or to the path rule, whose prefix its path has, of the site
    it is for, an upstream of the configuration at that moment. Such an upstream is one
    of the daemon's own listeners (on [localhost], 127.x.x.x or ::1; other spellings are
    not recognised) only if it was already configured when the daemon came up. What is
    neither forwarded nor answered is an error, a 500 for the client. *)
Theorem gateway_forwards_configured toml_from_str try_into path read fs bound_http bound_https lan_ip s0 s
    css logo (env : ProxyEnv (R := DaemonBackendResolver)) conn (req : Http.Request Hd U) (tokens : NoLoginTokens)
    (B : bring_up fs (Config_load toml_from_str try_into path read) bound_http bound_https lan_ip = Ok s0)
    (R : rtc daemon_step s0 s) :
  let answer env := Server.dispatch css logo env (ds_router s) conn req tokens in
  (forall disk prot,
     answer (mkProxyEnv disk (pe_resolver env) (pe_prepend env) (pe_redirect_port env) prot) = answer env) /\
  match (answer env).1 with
  | Ok (Respond _) | Err _ => True
  | Ok (ToUpstream target _ _) =>
      upstream_of (ds_config s) (pt_target target) /\
      (own_listener s (pt_target target) -> upstream_of (ds_config s0) (pt_target target)) /\
      exists host, header_str "host"%str (rq_headers req) = Some host /\
        ((exists proxy, resolve_route (ds_router s) host = Some (RouteProxy proxy) /\ proxy_target proxy = pt_target target) \/
         (exists site rule, site_for (ds_router s) req host site /\ rule ∈ rules_for (ds_router s) (site_name site) /\
            rule_target rule = pt_target target /\ rule_matches_path rule (uri_path (rq_uri req)) = true))
  | Ok (ToFrankenPhp _ _ _) | Ok (ToFpm _ _ _ _ _ _) => False
  end.
Proof using.
  intros answer. split; [intros disk prot; apply daemon_ignores_files|]. unfold answer.
  pose proof (daemon_only_forwards css logo env (ds_router s) conn req tokens) as Hfwd.
  assert (daemon_inv s) as I.
  { apply boot_inv in B. clear Hfwd. induction R as [s|s s1 s2 Hs _ IH]; [done|]. apply IH. by eapply step_inv. }
  destruct (di_router s I) as (parked & _ & Hr).
  destruct (Server.dispatch css logo env (ds_router s) conn req tokens) as [[[resp|target hs tn|a rq tn|b rq sr rel ht lg]|e] tk]; try done.
  cbn [fst] in *. assert (upstream_of (ds_config s) (pt_target target)) as Hu.
  { destruct Hfwd as (host & _ & [(proxy & Hres & <-)|(site & rule & _ & Hin & <- & _)]); rewrite Hr in *.
    - by eapply route_upstream.
    - by eapply build_rules_configured. }
  split; [done|]. split; [by apply reached_no_loops|done].
Qed.
End Gateway.

(** ** Example: a proxy is added, then asked for *)

Definition demo_gateway : ProxyEnv (R := DaemonBackendResolver) :=
  mkProxyEnv demo_files daemon_backend_resolver None (Some 443) true.
Definition demo_api_request : Http.Request list_headers path_uri :=
  mkRequest "GET"%str "/v1?x=1"%str [("host"%str, "api.test"%str)] [].

Lemma gateway_forwards_configured_witness :
  let load := Config_load (fun _ => Err []) (fun _ => Err []) "/etc/orcker.toml"%str (Err IoNotFound) in
  match bring_up (demo_fs true) load 8080 8443 None with
  | Ok s0 =>
      match Daemon.dispatch demo_env demo_add s0 with
      | Some (_, s) =>
          match (Server.dispatch [] [] demo_gateway (ds_router s) demo_conn demo_api_request no_login_tokens).1 with
          | Ok (ToUpstream target _ _) =>
              pt_target target = mkTarget false "127.0.0.1"%str 3000 /\
              upstream_of (ds_config s) (pt_target target) /\
              (own_listener s (pt_target target) -> upstream_of (ds_config s0) (pt_target target))
          | _ => False
          end
      | None => False
      end
  | Err _ => False
  end.
Proof.
  intros load.
  assert (match bring_up (demo_fs true) load 8080 8443 None with
    | Ok s0 => match Daemon.dispatch demo_env demo_add s0 with
        | Some (_, s) => match (Server.dispatch [] [] demo_gateway (ds_router s) demo_conn demo_api_request no_login_tokens).1 with
            | Ok (ToUpstream target _ _) => bool_decide (pt_target target = mkTarget false "127.0.0.1"%str 3000)
            | _ => false end
        | None => false end
    | Err _ => false end = true) as Hrun by (vm_compute; reflexivity).
  destruct (bring_up (demo_fs true) load 8080 8443 None) as [s0|] eqn:B; [|discriminate Hrun].
  destruct (Daemon.dispatch demo_env demo_add s0) as [[r s]|] eqn:D; [|discriminate Hrun].
  pose proof (gateway_forwards_configured (fun _ => Err []) (fun _ => Err []) "/etc/orcker.toml"%str (Err IoNotFound)
    (demo_fs true) 8080 8443 None s0 s [] [] demo_gateway demo_conn demo_api_request no_login_tokens B
    (rtc_l _ _ _ _ (st_request s0 demo_env _ _ s D) (rtc_refl _ _))) as [_ Hg].
  destruct (Server.dispatch [] [] demo_gateway (ds_router s) demo_conn demo_api_request no_login_tokens)
    as [[[resp|target hs tn|a rq tn|b rq sr rel ht lg]|e] tk]; try discriminate Hrun.
  destruct Hg as (Hu & Ho & _). apply bool_decide_eq_true in Hrun. split; [exact Hrun|]. split; [exact Hu|exact Ho].
Defined.
