(* ===== verification/Smtp.v ===== *)
(** * Capturing mail over SMTP

    [src/crates/orcker-mail/src/pure/smtp.rs] and the connection handler of
    [io/server.rs]: the session's state machine, the reading of a message, and the
    loop that hands every message to the store.  A connection is the bytes the
    client will send and how they end, with the replies it will still take; the
    handler runs in a small state monad over it and the store, an interface
    ([MailSink]) that [MailStore] implements.

    [read_data] and [handle_conn] take as many steps as the connection has bytes
    left, which is enough since every line has at least one
    ([handle_conn_total]). *)

From S2P Require Import Prelude RustStr RustText Utf8.

Open Scope N_scope.

Notation bytes := (list N).

(** ** The session *)

Record RawMessage := mkRaw {
  envelope_from : str;
  recipients : list str;
  raw : bytes;
}.

Inductive Reply :=
| Line (reply : str)
| StartData (reply : str)
| Close (reply : str).

Record Session := mkSession {
  se_from : option str;
  se_recipients : list str;
}.

Definition new : Session := mkSession None [].

Definition CRLF : str := [13; 10].
Definition reply_line (text : str) : str := text ++ CRLF.
Definition greeting : str := reply_line "220 orcker mail capture ready"%str.

(** The first word of a line. *)
Definition first_word (line : str) : option str :=
  match drop_while is_whitespace line with
  | [] => None
  | rest => Some (take_while (fun c => negb (is_whitespace c)) rest)
  end.

Definition is_crlf (c : N) : bool := (c =? 13) || (c =? 10).

Definition extract_address (line : str) : str :=
  let bracketed :=
    match split_once "<"%ch line, rsplit_once ">"%ch line with
    | Some (before, _), Some (until, _) =>
        if vlen before + 1 <=? vlen until then Some (drop (length before + 1) until) else None
    | _, _ => None
    end in
  match bracketed with
  | Some inner => trim inner
  | None => match split_once ":"%ch line with Some (_, rest) => trim rest | None => [] end
  end.

Definition command (s : Session) (line : str) : Reply * Session :=
  let trimmed := trim_end_matches is_crlf line in
  let verb := to_ascii_uppercase (default [] (first_word trimmed)) in
  let ok := Line (reply_line "250 OK"%str) in
  if str_eqb verb "HELO" || str_eqb verb "EHLO" then (Line (reply_line "250 orcker"%str), s)
  else if str_eqb verb "MAIL" then (ok, mkSession (Some (extract_address trimmed)) [])
  else if str_eqb verb "RCPT" then (ok, mkSession (se_from s) (se_recipients s ++ [extract_address trimmed]))
  else if str_eqb verb "DATA" then
    if is_empty (se_recipients s) then (Line (reply_line "503 RCPT first"%str), s)
    else (StartData (reply_line "354 End data with <CR><LF>.<CR><LF>"%str), s)
  else if str_eqb verb "RSET" then (ok, mkSession None [])
  else if str_eqb verb "NOOP" then (ok, s)
  else if str_eqb verb "QUIT" then (Close (reply_line "221 Bye"%str), s)
  else if is_empty verb then (Line (reply_line "500 Syntax error"%str), s)
  else (ok, s).

Notation LF := NL (only parsing).
Definition dot : N := "."%ch.

Fixpoint unstuff_from (at_line_start : bool) (data : bytes) : bytes :=
  match data with
  | [] => []
  | b :: rest =>
      if at_line_start && (b =? dot) then unstuff_from false rest
      else b :: unstuff_from (b =? LF) rest
  end.
Definition unstuff (data : bytes) : bytes := unstuff_from true data.

Definition finish_data (s : Session) (data : bytes) : RawMessage * Session :=
  (mkRaw (default [] (se_from s)) (se_recipients s) (unstuff data), mkSession None []).

(** ** Connections *)

(** What the client will still send, how that ends ([None] for the end of the
    stream), how many replies it will still take, and those written so far. *)
Record Wire := mkWire {
  w_in : bytes;
  w_end : option io_kind;
  w_writes : nat;
  w_out : list bytes;
}.

(** What the handler asks of the store: did it keep the message? *)
Class MailSink (S : Type) := append : S -> bytes -> bool * S.

Section Handler.
Context {S : Type} `{MailSink S}.

(** Computations on a connection and the store; [None] is out of fuel. *)
Definition IO (A : Type) : Type := Wire * S -> option (result io_kind A * (Wire * S)).

#[local] Instance io_ret : MRet IO := fun A a w => Some (Ok a, w).
#[local] Instance io_bind : MBind IO := fun A B k m w =>
  match m w with
  | Some (Ok a, w) => k a w
  | Some (Err e, w) => Some (Err e, w)
  | None => None
  end.

Definition broken_pipe : io_kind := IoOther 32.

Definition write_all (reply : bytes) : IO unit := fun '(w, st) =>
  match w_writes w with
  | O => Some (Err broken_pipe, (w, st))
  | Datatypes.S n => Some (Ok tt, (mkWire (w_in w) (w_end w) n (w_out w ++ [reply]), st))
  end.

(** [read_until(LF)]: one line with its end, what is left, or nothing. *)
Definition read_until : IO bytes := fun '(w, st) =>
  let left rest := (mkWire rest (w_end w) (w_writes w) (w_out w), st) in
  match split_once LF (w_in w) with
  | Some (line, rest) => Some (Ok (line ++ [LF]), left rest)
  | None =>
      match w_end w with
      | Some e => Some (Err e, left [])
      | None => Some (Ok (w_in w), left [])
      end
  end.

Definition MAX_MESSAGE_BYTES : N := 25 * 1024 * 1024.

Definition ends_data (line : bytes) : bool :=
  str_eqb line [dot; 13; LF] || str_eqb line [dot; LF].

Fixpoint read_lines (fuel : nat) (data : bytes) (capped : bool) : IO bytes :=
  match fuel with
  | O => fun _ => None
  | Datatypes.S fuel =>
      line ← read_until;
      if is_empty line then mret data
      else if ends_data line then mret data
      else if capped then read_lines fuel data capped
      else if MAX_MESSAGE_BYTES <? vlen data + vlen line then
        let room := MAX_MESSAGE_BYTES - vlen data in
        read_lines fuel (data ++ take (N.to_nat room) line) true
      else read_lines fuel (data ++ line) capped
  end.

Definition read_data : IO bytes := fun w => read_lines (Datatypes.S (length (w_in w.1))) [] false w.

Definition sink_append (message : bytes) : IO bool := fun '(w, st) =>
  let '(kept, st) := append st message in Some (Ok kept, (w, st)).

Fixpoint command_loop (fuel : nat) (session : Session) : IO unit :=
  match fuel with
  | O => fun _ => None
  | Datatypes.S fuel =>
      line ← read_until;
      if is_empty line then mret tt
      else
        let '(reply, session) := command session (from_utf8_lossy line) in
        match reply with
        | Line r => write_all (as_bytes r);; command_loop fuel session
        | Close r => write_all (as_bytes r)
        | StartData r =>
            write_all (as_bytes r);;
            data ← read_data;
            let '(msg, session) := finish_data session data in
            kept ← sink_append (raw msg);
            write_all (as_bytes (reply_line (if kept : bool then "250 OK: queued"%str else "451 storage error"%str)));;
            command_loop fuel session
        end
  end.

Definition handle_conn : IO unit := fun w =>
  (write_all (as_bytes greeting);; command_loop (Datatypes.S (length (w_in w.1))) new) w.

End Handler.

(** ** Lines *)

(** Trimming line ends does not reach over another character. *)
Lemma trim_crlf_keeps a x t : is_crlf x = false ->
  exists t', trim_end_matches is_crlf (a ++ x :: t) = a ++ x :: t'.
Proof.
  intros Hx. unfold trim_end_matches. rewrite rev_app_distr. cbn [rev]. rewrite <- app_assoc. cbn [app].
  rewrite drop_while_app by done. rewrite rev_app_distr, rev_involutive.
  assert (exists l, drop_while is_crlf (rev t ++ [x]) = l ++ [x]) as [l ->].
  { induction (rev t) as [|y l IH]; cbn; [rewrite Hx; by exists []|].
    destruct (is_crlf y); [done|]. by exists (y :: l). }
  rewrite rev_app_distr. cbn. by eexists.
Qed.

(** A command line: a verb of printable ASCII letters, a space, an argument. *)
Definition cmd (verb : str) (arg : bytes) : bytes := verb ++ 32 :: arg ++ CRLF.

Lemma lossy_ascii_app a bs : Forall (fun c => c < 128) a -> from_utf8_lossy (a ++ bs) = a ++ from_utf8_lossy bs.
Proof.
  intros Ha. rewrite <- (as_bytes_ascii a Ha) at 1. unfold from_utf8_lossy. rewrite utf8_chunks_as_bytes.
  - rewrite fmap_app. f_equal. clear Ha. induction a as [|c a IH]; [done|]. cbn. f_equal. exact IH.
  - eapply Forall_impl; [exact Ha|]. intros c Hc. cbn in Hc. unfold is_scalar. apply orb_true_iff. left. by apply N.ltb_lt; lia.
Qed.

Definition verb_ok (verb : str) : Prop :=
  verb <> [] /\ to_ascii_uppercase verb = verb /\ Forall (fun c => 32 < c < 128) verb.

Lemma not_whitespace c : 32 < c < 128 -> is_whitespace c = false.
Proof. unfold is_whitespace. intros Hc. repeat (apply orb_false_iff; split); unfold in_range; bprop; lia. Qed.

Lemma cmd_verb verb arg : verb_ok verb ->
  exists t, trim_end_matches is_crlf (from_utf8_lossy (cmd verb arg)) = t /\
    to_ascii_uppercase (default [] (first_word t)) = verb.
Proof.
  intros (Hne & Hup & Hv). unfold cmd. rewrite lossy_ascii_app by (eapply Forall_impl; [exact Hv|]; cbn; intros; lia).
  change (from_utf8_lossy (32 :: arg ++ CRLF)) with (from_utf8_lossy ([32] ++ arg ++ CRLF)).
  rewrite (lossy_ascii_app [32]) by (repeat constructor; lia). cbn [app].
  destruct (trim_crlf_keeps verb 32 (from_utf8_lossy (arg ++ CRLF))) as [t' Ht]; [done|]. exists (verb ++ 32 :: t').
  split; [exact Ht|]. unfold first_word. clear Ht.
  assert (drop_while is_whitespace (verb ++ 32 :: t') = verb ++ 32 :: t') as ->.
  { destruct verb as [|c v]; [done|]. inversion Hv as [|?? Hc]; subst. cbn. by rewrite (not_whitespace c Hc). }
  destruct (verb ++ 32 :: t') eqn:E; [by destruct verb|]. rewrite <- E. cbn [default].
  rewrite take_while_app; [done| |done].
  eapply Forall_impl; [exact Hv|]. cbn. intros c Hc. by rewrite (not_whitespace c Hc).
Qed.

Lemma cmd_no_lf verb arg : verb_ok verb -> LF ∉ arg -> exists line, cmd verb arg = line ++ [LF] /\ LF ∉ line.
Proof.
  intros (_ & _ & Hv) Ha. exists (verb ++ 32 :: arg ++ [13]). unfold cmd, CRLF.
  split; [rewrite <- app_assoc; cbn; by rewrite <- app_assoc|]. rewrite elem_of_app, elem_of_cons, elem_of_app, list_elem_of_singleton.
  intros [Hi|[Hi|[Hi|Hi]]]; [|done|done|done]. rewrite Forall_forall in Hv. specialize (Hv _ Hi).  lia.
Qed.

Section Handler_lemmas.
Context {S : Type} `{MailSink S}.
Implicit Types (st : S) (w : Wire).

Lemma read_until_line line rest e n o st : LF ∉ line ->
  read_until (mkWire (line ++ LF :: rest) e n o, st) = Some (Ok (line ++ [LF]), (mkWire rest e n o, st)).
Proof. intros Hl. unfold read_until. cbn [w_in]. by rewrite split_once_complete. Qed.

(** What a read can leave behind. *)
Lemma read_until_cases w st : exists (r : result io_kind bytes) (rest : bytes),
  read_until (w, st) = Some (r, (mkWire rest (w_end w) (w_writes w) (w_out w), st)) /\
  (length rest <= length (w_in w))%nat /\
  match r with Ok [] => True | Ok (_ :: _) => (length rest < length (w_in w))%nat | Err _ => True end.
Proof.
  unfold read_until. destruct (split_once LF (w_in w)) as [[line rest]|] eqn:E.
  - apply split_once_Some in E as [E _]. eexists _, _. split; [done|]. rewrite E, !length_app. cbn [length].
    split; [lia|]. destruct (line ++ [LF]); [done|lia].
  - destruct (w_end w); eexists _, _; (split; [done|]); cbn; (split; [lia|]); [done|].
    destruct (w_in w); cbn; [done|lia].
Qed.

(** Reading a message ends, keeps to the limit and writes nothing. *)
Lemma read_lines_total fuel data capped w st :
  (length (w_in w) < fuel)%nat -> vlen data <= MAX_MESSAGE_BYTES ->
  exists r rest, read_lines fuel data capped (w, st)
    = Some (r, (mkWire rest (w_end w) (w_writes w) (w_out w), st)) /\
    (length rest <= length (w_in w))%nat /\ forall d, r = Ok d -> vlen d <= MAX_MESSAGE_BYTES.
Proof.
  revert data capped w. induction fuel as [|fuel IH]; intros data capped w Hf Hd; [lia|].
  cbn [read_lines]. unfold mbind, io_bind. destruct (read_until_cases w st) as (r & rest & -> & Hle & Hlt).
  destruct r as [line|k]; [|by eexists _, _].
  destruct line as [|b line]; cbn [is_empty]; [eexists _, _; split; [done|]; split; [lia|]; by intros d [= <-]|].
  set (l := b :: line) in *. set (w' := mkWire rest _ _ _).
  assert (forall data capped, vlen data <= MAX_MESSAGE_BYTES -> exists r rest',
    read_lines fuel data capped (w', st) = Some (r, (mkWire rest' (w_end w) (w_writes w) (w_out w), st)) /\
    (length rest' <= length (w_in w))%nat /\ forall d, r = Ok d -> vlen d <= MAX_MESSAGE_BYTES) as Hnext.
  { intros data' capped' Hd'. destruct (IH data' capped' w') as (r & rest' & -> & Hr & Hb); [cbn; lia|done|].
    cbn in Hr. eexists _, _. split; [done|]. split; [lia|done]. }
  destruct (ends_data l); [eexists _, _; split; [done|]; split; [lia|]; by intros d [= <-]|].
  destruct capped; [by apply Hnext|].
  destruct (MAX_MESSAGE_BYTES <? vlen data + vlen l) eqn:E; bprop; apply Hnext.
  - unfold vlen in *. rewrite length_app, length_take. lia.
  - rewrite vlen_app. lia.
Qed.

Lemma unstuff_shorter b data : vlen (unstuff_from b data) <= vlen data.
Proof.
  revert b. induction data as [|c data IH]; intros b; [done|]. cbn [unstuff_from]. rewrite vlen_cons.
  destruct (b && (c =? dot)); [specialize (IH false)|rewrite vlen_cons; specialize (IH (c =? LF))]; lia.
Qed.

(** Whatever the client sends, its connection is handled to the end, and the store
    only ever sees messages within the limit. *)
Lemma command_loop_total (P : S -> Prop) fuel session w st :
  (forall st message, vlen message <= MAX_MESSAGE_BYTES -> P st -> P (append st message).2) ->
  (length (w_in w) < fuel)%nat -> P st ->
  exists r w' st', command_loop fuel session (w, st) = Some (r, (w', st')) /\ P st'.
Proof.
  intros Hstep. revert session w st. induction fuel as [|fuel IH]; intros session w st Hf Hp; [lia|].
  cbn [command_loop]. unfold mbind, io_bind. destruct (read_until_cases w st) as (r & rest & -> & Hle & Hlt).
  destruct r as [line|k]; [|by eexists _, _, _].
  destruct line as [|b line]; cbn [is_empty]; [by eexists _, _, _|].
  destruct (command session (from_utf8_lossy (b :: line))) as [reply session'].
  destruct reply as [r|r|r]; unfold write_all; cbn [w_writes w_in w_end w_out].
  - destruct (w_writes w); [by eexists _, _, _|]. apply IH; [cbn; lia|done].
  - destruct (w_writes w) as [|n]; [by eexists _, _, _|].
    unfold read_data. cbn [fst w_in].
    destruct (read_lines_total (Datatypes.S (length rest)) [] false
      (mkWire rest (w_end w) n (w_out w ++ [as_bytes r])) st) as (d & rest' & -> & Hle' & Hd); [cbn; lia|done|].
    destruct d as [d|k]; [|by eexists _, _, _]. cbn [finish_data raw w_in w_end w_writes w_out] in *. unfold sink_append.
    pose proof (Hstep st (unstuff d)) as Hs. destruct (append st (unstuff d)) as [kept st'].
    destruct n; cbn; [|apply IH; [cbn; lia|]]; [eexists _, _, _; split; [done|]|];
      apply Hs; try done; pose proof (unstuff_shorter true d); specialize (Hd d eq_refl); unfold unstuff; lia.
  - destruct (w_writes w); by eexists _, _, _.
Qed.

(** ** What a mail client sends *)

(** A line of the message, with its end, as the client sends it. *)
Definition stuff_line (line : bytes) : bytes :=
  match line with b :: _ => if b =? dot then dot :: line else line | [] => line end.
Definition stuffed (ls : list bytes) : bytes := unlines (stuff_line <$> ls).

Record Mail := mkMail { m_from : bytes; m_rcpt : bytes; m_rcpts : list bytes; m_lines : list bytes }.

Definition sent (m : Mail) : bytes :=
  cmd "MAIL"%str (m_from m) ++ mjoin (cmd "RCPT"%str <$> m_rcpt m :: m_rcpts m)
  ++ as_bytes (reply_line "DATA"%str) ++ stuffed (m_lines m) ++ dot :: CRLF.

Definition mail_ok (m : Mail) : Prop :=
  LF ∉ m_from m /\ Forall (fun r => LF ∉ r) (m_rcpt m :: m_rcpts m) /\
  Forall (fun l => LF ∉ l) (m_lines m) /\ vlen (stuffed (m_lines m)) <= MAX_MESSAGE_BYTES.

Definition ok250 : bytes := as_bytes (reply_line "250 OK"%str).
Definition answer (kept : bool) : bytes :=
  as_bytes (reply_line (if kept then "250 OK: queued"%str else "451 storage error"%str)).

(** The replies to some mails, and the store after them. *)
Fixpoint answers st (mails : list Mail) : list bytes :=
  match mails with
  | [] => []
  | m :: rest =>
      let '(kept, st') := append st (unlines (m_lines m)) in
      replicate (2 + length (m_rcpts m)) ok250
      ++ as_bytes (reply_line "354 End data with <CR><LF>.<CR><LF>"%str) :: answer kept :: answers st' rest
  end.
Definition stored st (mails : list Mail) : S := foldl (fun st m => (append st (unlines (m_lines m))).2) st mails.

Lemma unstuff_rest b l rest : LF ∉ l -> (forall c l', l = c :: l' -> b && (c =? dot) = false) ->
  unstuff_from b (l ++ LF :: rest) = l ++ LF :: unstuff_from true rest.
Proof.
  revert b. induction l as [|c l IH]; intros b Hl Hb; cbn [app unstuff_from].
  - unfold dot. cbn. by rewrite andb_false_r.
  - rewrite (Hb c l eq_refl). rewrite not_elem_of_cons in Hl. f_equal.
    assert ((c =? LF) = false) as -> by (apply N.eqb_neq; intros ->; by destruct Hl). apply IH; [by destruct Hl|done].
Qed.

Lemma unstuff_stuffed ls : Forall (fun l => LF ∉ l) ls -> unstuff (stuffed ls) = unlines ls.
Proof.
  unfold unstuff, stuffed. induction 1 as [|l ls Hl Hls IH]; [done|]. cbn [fmap list_fmap].
  rewrite !unlines_cons. destruct l as [|c l]; cbn [stuff_line].
  - rewrite unstuff_rest by done. by rewrite IH.
  - destruct (c =? dot) eqn:Ec; bprop.
    + subst c. transitivity (unstuff_from false ((dot :: l) ++ LF :: unlines (stuff_line <$> ls))); [done|].
      rewrite (unstuff_rest false (dot :: l)); [by rewrite IH|done|done].
    + rewrite unstuff_rest; [by rewrite IH|done|]. intros ? ? [= <- <-]. cbn. by apply N.eqb_neq.
Qed.

Lemma stuff_line_spec l : LF ∉ l -> LF ∉ stuff_line l /\ ends_data (stuff_line l ++ [LF]) = false.
Proof.
  intros Hl. unfold ends_data, str_eqb. destruct l as [|c l]; [done|]. cbn [stuff_line].
  destruct (c =? dot) eqn:Ec; bprop.
  - subst c. rewrite not_elem_of_cons. split; [done|]. apply orb_false_iff. split; apply bool_decide_eq_false; unfold dot; cbn; by intros [=].
  - split; [done|]. apply orb_false_iff. split; apply bool_decide_eq_false; by intros [= -> _].
Qed.

Lemma read_stuffed fuel data ls rest e n o st :
  (length ls < fuel)%nat -> Forall (fun l => LF ∉ l) ls -> vlen data + vlen (stuffed ls) <= MAX_MESSAGE_BYTES ->
  read_lines fuel data false (mkWire (stuffed ls ++ dot :: CRLF ++ rest) e n o, st)
  = Some (Ok (data ++ stuffed ls), (mkWire rest e n o, st)).
Proof.
  intros Hf Hls. revert fuel data Hf. induction Hls as [|l ls Hl Hls IH]; intros fuel data Hf Hlen;
    (destruct fuel as [|fuel]; [cbn in Hf; lia|]); cbn [read_lines]; unfold mbind, io_bind.
  - change (stuffed [] ++ dot :: CRLF ++ rest) with ([dot; 13] ++ LF :: rest).
    rewrite read_until_line by (unfold dot; set_solver). cbn. by rewrite app_nil_r.
  - unfold stuffed in *. cbn [fmap list_fmap] in *. rewrite unlines_cons in *. rewrite <- app_assoc. cbn [app].
    destruct (stuff_line_spec l Hl) as [Hs He]. rewrite read_until_line by done.
    assert (is_empty (stuff_line l ++ [LF]) = false) as -> by by destruct (stuff_line l).
    rewrite He. cbn [app] in Hlen. rewrite vlen_app, vlen_cons in Hlen.
    assert ((MAX_MESSAGE_BYTES <? vlen data + vlen (stuff_line l ++ [LF])) = false) as ->.
    { apply N.ltb_ge. rewrite vlen_app. unfold vlen at 3. cbn [length]. lia. }
    rewrite IH; [by rewrite <- !app_assoc|cbn in Hf; lia|]. rewrite !vlen_app. unfold vlen at 3. cbn [length]. lia.
Qed.

Lemma verbs_ok : Forall verb_ok ["EHLO"; "MAIL"; "RCPT"]%str.
Proof. repeat (apply Forall_cons; split); try done; (split; [done|]; split; [done|]; repeat constructor; by vm_compute). Qed.

Lemma verb_known verb : verb ∈ ["EHLO"; "MAIL"; "RCPT"]%str -> verb_ok verb.
Proof. apply Forall_forall, verbs_ok. Qed.

Lemma command_verb s verb arg r s' : verb_ok verb ->
  (forall t, to_ascii_uppercase (default [] (first_word (trim_end_matches is_crlf t))) = verb ->
     command s t = (r, s' (extract_address (trim_end_matches is_crlf t)))) ->
  exists a, command s (from_utf8_lossy (cmd verb arg)) = (r, s' a).
Proof. intros Hv Hc. destruct (cmd_verb verb arg Hv) as (t & <- & Ht). eexists. by apply Hc. Qed.

Lemma command_ehlo s arg : exists a : str, command s (from_utf8_lossy (cmd "EHLO"%str arg))
  = (Line (reply_line "250 orcker"%str), (fun _ => s) a).
Proof. apply command_verb; [apply verb_known; set_solver|]. intros t Ht. unfold command. by rewrite Ht. Qed.

Lemma command_mail s arg : exists a, command s (from_utf8_lossy (cmd "MAIL"%str arg))
  = (Line (reply_line "250 OK"%str), mkSession (Some a) []).
Proof.
  apply (command_verb _ _ _ _ (fun a => mkSession (Some a) [])); [apply verb_known; set_solver|].
  intros t Ht. unfold command. by rewrite Ht.
Qed.

Lemma command_rcpt s arg : exists a, command s (from_utf8_lossy (cmd "RCPT"%str arg))
  = (Line (reply_line "250 OK"%str), mkSession (se_from s) (se_recipients s ++ [a])).
Proof.
  apply (command_verb _ _ _ _ (fun a => mkSession (se_from s) (se_recipients s ++ [a])));
    [apply verb_known; set_solver|].
  intros t Ht. unfold command. by rewrite Ht.
Qed.

(** One command of a connection. *)
Lemma loop_line fuel s s' verb arg r rest e n o st :
  (length (cmd verb arg ++ rest) < fuel)%nat -> verb ∈ ["EHLO"; "MAIL"; "RCPT"]%str -> LF ∉ arg ->
  command s (from_utf8_lossy (cmd verb arg)) = (Line r, s') ->
  exists fuel', (length rest < fuel')%nat /\
    command_loop fuel s (mkWire (cmd verb arg ++ rest) e (1 + n) o, st)
    = command_loop fuel' s' (mkWire rest e n (o ++ [as_bytes r]), st).
Proof.
  intros Hf Hv Ha Hc. destruct fuel as [|fuel]; [lia|]. exists fuel.
  assert (verb_ok verb) as Hok by by apply verb_known.
  destruct (cmd_no_lf verb arg Hok Ha) as (line & E & Hl).
  split; [rewrite E, !length_app in Hf; cbn in Hf; lia|].
  cbn [command_loop]. unfold mbind at 1, io_bind at 1. rewrite E, <- app_assoc. cbn [app].
  rewrite read_until_line by done. rewrite <- E, Hc.
  assert (is_empty (cmd verb arg) = false) as -> by (rewrite E; by destruct line). done.
Qed.

Lemma loop_rcpts rs fuel s rest e n o st :
  (length (mjoin (cmd "RCPT"%str <$> rs) ++ rest) < fuel)%nat -> Forall (fun r => LF ∉ r) rs ->
  exists fuel' s', (length rest < fuel')%nat /\ (length (se_recipients s') = length (se_recipients s) + length rs)%nat /\
    command_loop fuel s (mkWire (mjoin (cmd "RCPT"%str <$> rs) ++ rest) e (length rs + n) o, st)
    = command_loop fuel' s' (mkWire rest e n (o ++ replicate (length rs) ok250), st).
Proof.
  intros Hf Hrs. revert fuel s o Hf. induction Hrs as [|r rs Hr Hrs IH]; intros fuel s o Hf.
  { exists fuel, s. cbn in *. rewrite app_nil_r. repeat split; [done|lia]. }
  change (mjoin (cmd "RCPT"%str <$> r :: rs)) with (cmd "RCPT"%str r ++ mjoin (cmd "RCPT"%str <$> rs)) in *.
  rewrite <- app_assoc in *. destruct (command_rcpt s r) as [a Hc].
  destruct (loop_line fuel s _ "RCPT"%str r _ (mjoin (cmd "RCPT"%str <$> rs) ++ rest) e (length rs + n) o st Hf
    ltac:(set_solver) Hr Hc) as (fuel1 & Hf1 & E).
  destruct (IH fuel1 (mkSession (se_from s) (se_recipients s ++ [a])) (o ++ [ok250]) Hf1) as (fuel2 & s2 & Hf2 & Hs2 & E2). exists fuel2, s2. split; [done|].
  cbn [se_recipients] in Hs2. rewrite length_app in Hs2. cbn [length] in *. split; [lia|].
  etransitivity; [exact E|]. etransitivity; [exact E2|]. by rewrite <- app_assoc.
Qed.

Lemma loop_data fuel s ls rest e n o st :
  (length (as_bytes (reply_line "DATA"%str) ++ stuffed ls ++ dot :: CRLF ++ rest) < fuel)%nat ->
  se_recipients s <> [] -> Forall (fun l => LF ∉ l) ls -> vlen (stuffed ls) <= MAX_MESSAGE_BYTES ->
  exists fuel', (length rest < fuel')%nat /\
    command_loop fuel s (mkWire (as_bytes (reply_line "DATA"%str) ++ stuffed ls ++ dot :: CRLF ++ rest) e (2 + n) o, st)
    = command_loop fuel' new (mkWire rest e n
        (o ++ [as_bytes (reply_line "354 End data with <CR><LF>.<CR><LF>"%str); answer (append st (unlines ls)).1]),
        (append st (unlines ls)).2).
Proof.
  intros Hf Hr Hls Hlen. destruct fuel as [|fuel]; [lia|]. exists fuel. rewrite !length_app in Hf. cbn [length] in Hf.
  rewrite length_app in Hf. split; [lia|]. cbn [command_loop]. unfold mbind, io_bind.
  change (as_bytes (reply_line "DATA"%str)) with ("DATA"%str ++ [13; LF]). rewrite <- app_assoc.
  change (("DATA"%str : bytes) ++ [13; LF] ++ stuffed ls ++ dot :: CRLF ++ rest)
    with (("DATA"%str ++ [13] : bytes) ++ LF :: (stuffed ls ++ dot :: CRLF ++ rest)).
  rewrite read_until_line by (by apply contains_char_false). cbn [is_empty app].
  assert (command s (from_utf8_lossy (("DATA"%str ++ [13]) ++ [LF]))
    = (StartData (reply_line "354 End data with <CR><LF>.<CR><LF>"%str), s)) as Hc.
  { destruct s as [f [|r rs]]; [done|]. reflexivity. }
  change (from_utf8_lossy _) with (from_utf8_lossy (("DATA"%str ++ [13]) ++ [LF])). rewrite Hc.
  unfold write_all at 1. cbn [w_writes w_in w_end w_out Nat.add]. unfold read_data. cbn [fst w_in].
  rewrite read_stuffed with (data := []); [|rewrite !length_app; cbn|done|done].
  2:{ enough (length ls <= length (stuffed ls))%nat by lia. clear. induction ls as [|l ls IH]; [done|].
      unfold stuffed in *. cbn [fmap list_fmap]. rewrite unlines_cons, length_app. cbn [length]. lia. }
  cbn [finish_data raw app]. rewrite unstuff_stuffed by done. unfold sink_append.
  destruct (append st (unlines ls)) as [kept st'] eqn:Ea. unfold write_all. cbn [w_writes w_in w_end w_out fst snd].
  by rewrite <- app_assoc.
Qed.

Lemma loop_mails mails fuel s rest e n o st :
  (length (mjoin (sent <$> mails) ++ rest) < fuel)%nat -> Forall mail_ok mails ->
  exists fuel' s', (length rest < fuel')%nat /\
    command_loop fuel s (mkWire (mjoin (sent <$> mails) ++ rest) e (length (answers st mails) + n) o, st)
    = command_loop fuel' s' (mkWire rest e n (o ++ answers st mails), stored st mails).
Proof.
  intros Hf Hm. revert fuel s o st Hf. induction Hm as [|m mails (Hfrom & Hrs & Hls & Hlen) Hm IH]; intros fuel s o st Hf.
  { exists fuel, s. cbn in *. by rewrite app_nil_r. }
  set (tail := mjoin (sent <$> mails) ++ rest) in *.
  assert (mjoin (sent <$> m :: mails) ++ rest = cmd "MAIL"%str (m_from m) ++
    mjoin (cmd "RCPT"%str <$> m_rcpt m :: m_rcpts m) ++ as_bytes (reply_line "DATA"%str) ++
    stuffed (m_lines m) ++ dot :: CRLF ++ tail) as E.
  { change (mjoin (sent <$> m :: mails)) with (sent m ++ mjoin (sent <$> mails)). unfold sent, tail.
    by rewrite <- !app_assoc. }
  rewrite E in *. clear E. cbn [answers stored foldl].
  destruct (append st (unlines (m_lines m))) as [kept st'] eqn:Ea. cbn [snd].
  set (k := length (answers st' mails)).
  assert (length (replicate (2 + length (m_rcpts m)) ok250 ++
      as_bytes (reply_line "354 End data with <CR><LF>.<CR><LF>"%str) :: answer kept :: answers st' mails) + n
    = 1 + (length (m_rcpt m :: m_rcpts m) + (2 + (k + n))))%nat as ->.
  { rewrite length_app, length_replicate. cbn [length]. unfold k. lia. }
  destruct (command_mail s (m_from m)) as [a Hc].
  destruct (loop_line fuel s _ "MAIL"%str (m_from m) _ _ e (length (m_rcpt m :: m_rcpts m) + (2 + (k + n))) o st Hf
    ltac:(set_solver) Hfrom Hc) as (f1 & Hf1 & ->).
  destruct (loop_rcpts (m_rcpt m :: m_rcpts m) f1 (mkSession (Some a) [])
    (as_bytes (reply_line "DATA"%str) ++ stuffed (m_lines m) ++ dot :: CRLF ++ tail) e (2 + (k + n))
    (o ++ [ok250]) st Hf1 Hrs) as (f2 & s2 & Hf2 & Hs2 & E2).
  destruct (loop_data f2 s2 (m_lines m) tail e (k + n) ((o ++ [ok250]) ++ replicate (length (m_rcpt m :: m_rcpts m)) ok250) st Hf2)
    as (f3 & Hf3 & E3); [|done|done|].
  { intros E. rewrite E in Hs2. cbn in Hs2. lia. }
  rewrite Ea in E3. cbn [fst snd] in E3.
  destruct (IH f3 new (((o ++ [ok250]) ++ replicate (length (m_rcpt m :: m_rcpts m)) ok250) ++
    [as_bytes (reply_line "354 End data with <CR><LF>.<CR><LF>"%str); answer kept]) st' Hf3) as (f4 & s4 & Hf4 & E4).
  exists f4, s4. split; [done|]. etransitivity; [exact E2|]. etransitivity; [exact E3|]. etransitivity; [exact E4|].
  do 3 f_equal. by rewrite <- !app_assoc.
Qed.

Lemma session_captured hello mails junk e n st (Hh : LF ∉ hello) (Hm : Forall mail_ok mails) :
  let replies := as_bytes greeting :: as_bytes (reply_line "250 orcker"%str)
                 :: answers st mails ++ [as_bytes (reply_line "221 Bye"%str)] in
  handle_conn (mkWire (cmd "EHLO"%str hello ++ mjoin (sent <$> mails) ++ as_bytes (reply_line "QUIT"%str) ++ junk)
                 e (length replies + n) [], st)
  = Some (Ok tt, (mkWire junk e n replies, stored st mails)).
Proof.
  cbv zeta. unfold handle_conn, mbind, io_bind. cbn [fst w_in].
  set (input := cmd "EHLO"%str hello ++ _).
  assert (length (as_bytes greeting :: as_bytes (reply_line "250 orcker"%str)
      :: answers st mails ++ [as_bytes (reply_line "221 Bye"%str)]) + n
    = Datatypes.S (1 + (length (answers st mails) + (1 + n))))%nat as ->.
  { cbn [length]. rewrite length_app. cbn [length]. lia. }
  unfold write_all at 1. cbn [w_writes w_in w_end w_out app].
  destruct (command_ehlo new hello) as [a Hc]. cbn beta in Hc.
  destruct (loop_line (Datatypes.S (length input)) new new "EHLO"%str hello _ _ e (length (answers st mails) + (1 + n))
    [as_bytes greeting] st (Nat.lt_succ_diag_r _) ltac:(set_solver) Hh Hc) as (f1 & Hf1 & E1). etransitivity; [exact E1|].
  destruct (loop_mails mails f1 new _ e (1 + n) ([as_bytes greeting] ++ [as_bytes (reply_line "250 orcker"%str)]) st Hf1 Hm)
    as (f2 & s2 & Hf2 & E2). etransitivity; [exact E2|].
  destruct f2 as [|f2]; [lia|]. cbn [command_loop]. unfold mbind, io_bind.
  change (as_bytes (reply_line "QUIT"%str) ++ junk) with (("QUIT"%str ++ [13]) ++ LF :: junk).
  rewrite read_until_line by (by apply contains_char_false).
  change (is_empty _) with false.
  assert (command s2 (from_utf8_lossy (("QUIT"%str ++ [13]) ++ [LF])) = (Close (reply_line "221 Bye"%str), s2)) as -> by done.
  unfold write_all. cbn [w_writes w_in w_end w_out Nat.add app]. done.
Qed.

(** Captured mail is the mail that was sent. A client that greets, sends any
    number of mails (each a sender, at least one recipient, and lines of any bytes,
    sent with their leading dots doubled and within 25 MiB) and says goodbye, all
    in one go if it likes, has every message stored byte for byte and in order,
    and gets one reply per command, [451] exactly for the messages the store could
    not keep; nothing after [QUIT] is read. *)
Theorem captured_verbatim hello mails junk e n st (Hh : LF ∉ hello) (Hm : Forall mail_ok mails) :
  let replies := as_bytes greeting :: as_bytes (reply_line "250 orcker"%str)
                 :: answers st mails ++ [as_bytes (reply_line "221 Bye"%str)] in
  handle_conn (mkWire (cmd "EHLO"%str hello ++ mjoin (sent <$> mails) ++ as_bytes (reply_line "QUIT"%str) ++ junk)
                 e (length replies + n) [], st)
  = Some (Ok tt, (mkWire junk e n replies, stored st mails)).
Proof. by apply session_captured. Qed.

(** C35. No connection hangs or floods the store. Whatever a client sends, and
    wherever it stops or its connection breaks, the handler ends, and the store was
    only ever handed messages of at most 25 MiB. *)
Theorem connection_bounded (P : S -> Prop) w st
    (Hstep : forall st message, vlen message <= MAX_MESSAGE_BYTES -> P st -> P (append st message).2) (Hp : P st) :
  exists r w' st', handle_conn (w, st) = Some (r, (w', st')) /\ P st'.
Proof.
  unfold handle_conn, mbind, io_bind, write_all at 1. cbn [fst w_in]. destruct (w_writes w); [by eexists _, _, _|].
  apply command_loop_total; [done|cbn; lia|done].
Qed.

End Handler_lemmas.

(** ** Examples *)

#[export] Instance list_sink : MailSink (list bytes) := fun kept message => (true, kept ++ [message]).

Definition demo_mail : Mail :=
  mkMail "FROM:<a@x>"%str "TO:<b@y>"%str [] ["Subject: hi"%str ++ [13]; [13]; ".dot"%str ++ [13]; "."%str].

Definition demo_replies : list bytes :=
  as_bytes greeting :: as_bytes (reply_line "250 orcker"%str)
  :: answers ([] : list bytes) [demo_mail; demo_mail] ++ [as_bytes (reply_line "221 Bye"%str)].

Lemma captured_verbatim_witness :
  handle_conn (mkWire (cmd "EHLO"%str "me"%str ++ mjoin (sent <$> [demo_mail; demo_mail])
     ++ as_bytes (reply_line "QUIT"%str) ++ []) None (length demo_replies + 0) [], ([] : list bytes))
  = Some (Ok tt, (mkWire [] None 0 demo_replies, stored [] [demo_mail; demo_mail])) /\
  stored ([] : list bytes) [demo_mail; demo_mail] = [unlines (m_lines demo_mail); unlines (m_lines demo_mail)] /\
  length demo_replies = 11%nat.
Proof.
  split; [|split; reflexivity].
  refine (captured_verbatim "me"%str [demo_mail; demo_mail] [] None 0 ([] : list bytes) _ _);
    [by apply contains_char_false|].
  assert (mail_ok demo_mail) by (split; [|split; [|split]]; [by apply contains_char_false| | |by vm_compute];
    repeat (apply Forall_cons; split); try done; by apply contains_char_false).
  apply Forall_cons; split; [done|]. apply Forall_cons; split; [done|]. apply Forall_nil_2.
Defined.

Lemma connection_bounded_witness :
  exists r w' kept, handle_conn (mkWire (cmd "DATA"%str []) (Some IoNotFound) 5 [], ([] : list bytes))
    = Some (r, (w', kept)) /\ Forall (fun m => vlen m <= MAX_MESSAGE_BYTES) kept.
Proof.
  refine (connection_bounded (fun kept : list bytes => Forall (fun m => vlen m <= MAX_MESSAGE_BYTES) kept)
    (mkWire (cmd "DATA"%str []) (Some IoNotFound) 5 []) [] _ _).
  - intros st m Hm Hs. cbn. apply Forall_app. by repeat constructor.
  - constructor.
Defined.

(** A client that is cut off in the middle of a message has what arrived stored. *)
Lemma cut_off_message_stored :
  let received := cmd "RCPT"%str "TO:<b@y>"%str ++ as_bytes (reply_line "DATA"%str) ++ "Subject: tru"%str in
  (handle_conn (mkWire received None 5 [], []) : option (result io_kind unit * (Wire * list bytes)))
  = Some (Ok tt, (mkWire [] None 1
      [as_bytes greeting; ok250; as_bytes (reply_line "354 End data with <CR><LF>.<CR><LF>"%str); answer true],
      ["Subject: tru"%str])).
Proof. by vm_compute. Qed.
