(* ===== verification/Mime.v ===== *)
(** * Decoding captured mail

    [src/crates/orcker-mail/src/pure/mime.rs]: what the clients are shown of a
    captured message.  The MIME parser is a library: a [Message] is what its
    accessors return, and parsing is a parameter.  [attachments_exact] shows that
    the attachments handed over decode to the bytes that were sent. *)

From S2P Require Import Prelude RustStr Utf8.

Open Scope N_scope.

(** ** What the parser returns *)

Record Addr := mkMailAddr { ad_name : option str; ad_address : option str }.

Record ContentType := mkCType { ctype : str; subtype : option str }.

Record MessagePart := mkPart {
  content_id : option str;
  part_content_type : option ContentType;
  attachment_name : option str;
  contents : list N;
}.

(** A header: its name and where its value starts and ends in the message. *)
Record HeaderField := mkField { hf_name : str; offset_start : N; offset_end : N }.

Record Message := mkMessage {
  msg_subject : option str;
  msg_date : option Z;
  msg_from : list Addr;
  msg_to : list Addr;
  msg_headers : list HeaderField;
  msg_parts : list MessagePart;
  msg_attachments : list MessagePart;
  body_text : option str;
  body_html : option str;
}.

(** ** What the clients are sent *)

Record MailSummary := mkSummary {
  ms_id : str;
  ms_from : str;
  ms_to : list str;
  ms_subject : str;
  ms_date_epoch : N;
  ms_read : bool;
}.

Record MailHeader := mkMailHeader { mh_name : str; mh_value : str }.

Record MailAttachment := mkAttachment {
  at_filename : str;
  at_content_type : str;
  at_size : N;
  at_data : str;
}.

Record MailDetail := mkDetail {
  md_id : str;
  md_from : str;
  md_to : list str;
  md_subject : str;
  md_date_epoch : N;
  md_headers : list MailHeader;
  md_html_body : option str;
  md_text_body : option str;
  md_attachments : list MailAttachment;
}.

(** ** Base64 *)

Definition ALPHABET : list N := "ABCDEFGHIJKLMNOPQRSTUVWXYZabcdefghijklmnopqrstuvwxyz0123456789+/"%str.

Definition sextet (v : N) : N := default "A"%ch (ALPHABET !! N.to_nat (N.land v 63)).

(** One group of three bytes or what is left of one. *)
Definition base64_group (b0 b1 b2 size : N) : str :=
  let n := N.lor (N.lor (N.shiftl b0 16) (N.shiftl b1 8)) b2 in
  [sextet (N.shiftr n 18); sextet (N.shiftr n 12);
   if 1 <? size then sextet (N.shiftr n 6) else "="%ch;
   if 2 <? size then sextet n else "="%ch].

Fixpoint base64_encode (input : list N) : str :=
  match input with
  | [] => []
  | [b0] => base64_group b0 0 0 1
  | [b0; b1] => base64_group b0 b1 0 2
  | b0 :: b1 :: b2 :: rest => base64_group b0 b1 b2 3 ++ base64_encode rest
  end.

(** ** Rendering *)

Definition render_addr (a : Addr) : str :=
  match ad_name a, ad_address a with
  | Some name, Some email => name ++ " <"%str ++ email ++ ">"%str
  | None, Some email => email
  | Some name, None => name
  | None, None => []
  end.

Definition render_addresses (addrs : list Addr) : list str :=
  bfilter (fun s => negb (is_empty s)) (render_addr <$> addrs).

Definition render_from (msg : Message) : str := default [] (head (render_addresses (msg_from msg))).
Definition render_to (msg : Message) : list str := render_addresses (msg_to msg).

(** [u64::try_from] of the signed timestamp, 0 otherwise. *)
Definition date_epoch (msg : Message) : N :=
  match msg_date msg with
  | Some t => if (0 <=? t)%Z then Z.to_N t else 0
  | None => 0
  end.

Definition is_html_part (part : MessagePart) : bool :=
  match (c ← part_content_type part; subtype c) with
  | Some s => eq_ignore_ascii_case s "html"
  | None => false
  end.

Definition content_type_name (part : MessagePart) : str :=
  match part_content_type part with
  | None => "application/octet-stream"%str
  | Some c => match subtype c with Some sub => ctype c ++ "/"%str ++ sub | None => ctype c end
  end.

Definition collect_attachments (msg : Message) : list MailAttachment :=
  (fun part =>
     mkAttachment
       (match attachment_name part with Some n => if is_empty n then "attachment"%str else n | None => "attachment"%str end)
       (content_type_name part) (vlen (contents part)) (base64_encode (contents part)))
  <$> bfilter (fun part => match content_id part with None => true | Some _ => false end) (msg_attachments msg).

(** [str::replace] with a non-empty pattern; [skip] counts what is left of a match. *)
Fixpoint replace_go (skip : nat) (pat rep s : str) : str :=
  match s with
  | [] => []
  | c :: r =>
      match skip with
      | S skip => replace_go skip pat rep r
      | O => if starts_with pat s then rep ++ replace_go (length pat - 1) pat rep r else c :: replace_go 0 pat rep r
      end
  end.
Definition replace_str (pat rep s : str) : str := replace_go 0 pat rep s.

Definition is_angle (c : N) : bool := (c =? "<"%ch) || (c =? ">"%ch).

Definition rewrite_cid (html : str) (part : MessagePart) : str :=
  match content_id part with
  | None => html
  | Some cid =>
      let cid := trim_end_matches is_angle (drop_while is_angle cid) in
      if is_empty cid then html
      else
        let data_url := "data:"%str ++ content_type_name part ++ ";base64,"%str ++ base64_encode (contents part) in
        replace_str ("CID:"%str ++ cid) data_url (replace_str ("cid:"%str ++ cid) data_url html)
  end.
Definition rewrite_cids (msg : Message) (html : str) : str := foldl rewrite_cid html (msg_attachments msg).

Section Decode.

(** [MessageParser::parse] and [Message::default] *)
Variable parse : list N -> option Message.
Variable default_message : Message.

Definition message_of (raw : list N) : Message := default default_message (parse raw).

Definition summary (id : str) (raw : list N) : MailSummary :=
  let msg := message_of raw in
  mkSummary id (render_from msg) (render_to msg) (default [] (msg_subject msg)) (date_epoch msg) false.

(** [raw.get(start..end)] *)
Definition get_range (start stop : N) (raw : list N) : option (list N) :=
  if (start <=? stop) && (stop <=? vlen raw) then Some (take (N.to_nat (stop - start)) (drop (N.to_nat start) raw)) else None.

Definition mail_header (raw : list N) (h : HeaderField) : MailHeader :=
  mkMailHeader (hf_name h)
    (match get_range (offset_start h) (offset_end h) raw with
     | Some b => trim (from_utf8_lossy b)
     | None => []
     end).

Definition detail (id : str) (raw : list N) : MailDetail :=
  let msg := message_of raw in
  mkDetail id (render_from msg) (render_to msg) (default [] (msg_subject msg)) (date_epoch msg)
    (mail_header raw <$> msg_headers msg)
    (if existsb is_html_part (msg_parts msg) then rewrite_cids msg <$> body_html msg else None)
    (body_text msg) (collect_attachments msg).

End Decode.

(** ** Decoding base64 *)

(** The value of a character of the alphabet. *)
Definition unsextet (c : N) : option N :=
  if is_ascii_uppercase c then Some (c - 65)
  else if is_ascii_lowercase c then Some (c - 71)
  else if is_ascii_digit c then Some (c + 4)
  else if c =? "+"%ch then Some 62
  else if c =? "/"%ch then Some 63
  else None.

(** RFC 4648 decoding, four characters at a time. *)
Fixpoint base64_decode (s : str) : option (list N) :=
  match s with
  | [] => Some []
  | c0 :: c1 :: c2 :: c3 :: rest =>
      v0 ← unsextet c0; v1 ← unsextet c1;
      let b0 := v0 * 4 + v1 / 16 in
      if c2 =? "="%ch then if (c3 =? "="%ch) && is_empty rest then Some [b0] else None
      else
        v2 ← unsextet c2;
        let b1 := (v1 mod 16) * 16 + v2 / 4 in
        if c3 =? "="%ch then if is_empty rest then Some [b0; b1] else None
        else
          v3 ← unsextet c3;
          tail ← base64_decode rest;
          Some (b0 :: b1 :: ((v2 mod 4) * 64 + v3) :: tail)
  | _ => None
  end.

Definition base64_char (c : N) : bool := is_ascii_alphanumeric c || (c =? "+"%ch) || (c =? "/"%ch) || (c =? "="%ch).

Lemma sextet_spec v : unsextet (sextet v) = Some (v mod 64) /\ base64_char (sextet v) = true /\ (sextet v =? "="%ch) = false.
Proof.
  unfold sextet. change 63 with (N.ones 6). rewrite N.land_ones. change (2 ^ 6) with 64.
  assert (v mod 64 < 64) as Hv by lia. generalize dependent (v mod 64). intros n Hn.
  assert (n = N.of_nat (N.to_nat n)) as E by lia. rewrite E at 2. generalize dependent (N.to_nat n). intros k ->.
  assert (k < 64)%nat as Hk by lia. clear Hn.
  do 64 (destruct k as [|k]; [by vm_compute|]). lia.
Qed.

Lemma lor_shift a b k : b < 2 ^ k -> N.lor (N.shiftl a k) b = a * 2 ^ k + b.
Proof.
  intros Hb. assert (N.land (N.shiftl a k) b = 0) as Hl.
  { apply N.bits_inj_0. intros i. rewrite N.land_spec. destruct (N.ltb_spec i k) as [Hi|Hi].
    - by rewrite N.shiftl_spec_low.
    - destruct (N.eq_dec b 0) as [->|Hz]; [by rewrite N.bits_0, andb_false_r|].
      rewrite (N.bits_above_log2 b); [by rewrite andb_false_r|]. apply N.log2_lt_pow2 in Hb; lia. }
  by rewrite <- N.lxor_lor, <- N.add_nocarry_lxor, N.shiftl_mul_pow2.
Qed.

Lemma group_value b0 b1 b2 : b0 < 256 -> b1 < 256 -> b2 < 256 ->
  N.lor (N.lor (N.shiftl b0 16) (N.shiftl b1 8)) b2 = b0 * 65536 + b1 * 256 + b2.
Proof.
  intros. rewrite N.lor_comm, (N.lor_comm (N.shiftl b0 16)), N.lor_assoc, (N.lor_comm b2).
  rewrite (lor_shift b1 b2 8) by done. rewrite N.lor_comm, (lor_shift b0 _ 16); lia.
Qed.

Lemma decode_group b0 b1 b2 size rest tail :
  b0 < 256 -> b1 < 256 -> b2 < 256 -> 1 <= size <= 3 ->
  (size = 3 -> base64_decode rest = Some tail) -> (size < 3 -> rest = []) ->
  (size < 2 -> b1 = 0) -> (size < 3 -> b2 = 0) ->
  base64_decode (base64_group b0 b1 b2 size ++ rest)
  = Some (take (N.to_nat size) [b0; b1; b2] ++ if size =? 3 then tail else []).
Proof.
  intros H0 H1 H2 Hs Ht Hr Hb1 Hb2. unfold base64_group. rewrite group_value by done.
  set (n := b0 * 65536 + b1 * 256 + b2).
  destruct (sextet_spec (N.shiftr n 18)) as (E0 & _ & _). destruct (sextet_spec (N.shiftr n 12)) as (E1 & _ & _).
  destruct (sextet_spec (N.shiftr n 6)) as (E2 & _ & F2). destruct (sextet_spec n) as (E3 & _ & F3).
  cbn [app base64_decode]. rewrite E0, E1. cbn [mbind option_bind].
  rewrite !N.shiftr_div_pow2 in *. change (2 ^ 18) with 262144 in *. change (2 ^ 12) with 4096 in *. change (2 ^ 6) with 64 in *.
  assert (size = 1 \/ size = 2 \/ size = 3) as Hsz by lia; destruct Hsz as [-> | [-> | ->]].
  - rewrite Hr by lia. specialize (Hb1 ltac:(lia)). specialize (Hb2 ltac:(lia)). cbn. f_equal.
    change (take (N.to_nat 1) [b0; b1; b2] ++ []) with [b0]. f_equal. unfold n. lia.
  - rewrite Hr by lia. specialize (Hb2 ltac:(lia)). cbn [N.ltb N.compare Pos.compare Pos.compare_cont N.eqb]. rewrite F2, E2.
    cbn. f_equal.
    change (take (N.to_nat 2) [b0; b1; b2] ++ []) with [b0; b1]. f_equal; [|f_equal]; unfold n; lia.
  - change (1 <? 3) with true. change (2 <? 3) with true. cbn [N.eqb Pos.eqb]. rewrite F2, E2. cbn [mbind option_bind].
    rewrite F3, E3. cbn [mbind option_bind]. rewrite Ht by done. cbn. f_equal.
    change (take (N.to_nat 3) [b0; b1; b2] ++ tail) with (b0 :: b1 :: b2 :: tail). f_equal; [|f_equal; [|f_equal]]; unfold n; lia.
Qed.

Lemma base64_decode_encode bs : Forall (fun b => b < 256) bs -> base64_decode (base64_encode bs) = Some bs.
Proof.
  revert bs. fix IH 1. intros bs Hb. destruct bs as [|b0 [|b1 [|b2 rest]]]; [done| | |]; cbn [base64_encode];
    repeat match goal with H : Forall _ (_ :: _) |- _ => apply Forall_cons in H as [? H] end.
  - rewrite <- (app_nil_r (base64_group _ _ _ _)). by rewrite (decode_group _ _ _ _ _ []) by (done || lia).
  - rewrite <- (app_nil_r (base64_group _ _ _ _)). by rewrite (decode_group _ _ _ _ _ []) by (done || lia).
  - rewrite (decode_group _ _ _ _ _ rest); try (done || lia). intros _. by apply IH.
Qed.

Lemma base64_chars bs : Forall (fun c => base64_char c = true) (base64_encode bs).
Proof.
  assert (forall b0 b1 b2 k, Forall (fun c => base64_char c = true) (base64_group b0 b1 b2 k)) as Hg.
  { intros. unfold base64_group. repeat constructor; try apply sextet_spec;
      match goal with |- context [if ?b then _ else _] => destruct b end; try apply sextet_spec; done. }
  revert bs. fix IH 1. intros bs. destruct bs as [|b0 [|b1 [|b2 rest]]]; cbn [base64_encode]; [constructor|apply Hg|apply Hg|].
  apply Forall_app. split; [apply Hg|apply IH].
Qed.

(** Attachments survive. What a client is handed of a message are exactly its
    attachments without a content id, in order, each with its size and with text
    that an RFC 4648 decoder turns back into the part's bytes; that text, also
    where it is spliced into the HTML body, holds no quote, bracket or space. *)
Theorem attachments_exact msg (Hb : Forall (fun p => Forall (fun b => b < 256) (contents p)) (msg_attachments msg)) :
  Forall2 (fun part a => at_size a = vlen (contents part) /\ base64_decode (at_data a) = Some (contents part) /\
                         Forall (fun c => base64_char c = true) (at_data a))
    (bfilter (fun part => match content_id part with None => true | Some _ => false end) (msg_attachments msg))
    (collect_attachments msg) /\
  forall part, content_id part <> None -> part ∉ bfilter (fun part => match content_id part with None => true | Some _ => false end) (msg_attachments msg).
Proof.
  split.
  - unfold collect_attachments. apply Forall2_fmap_r, Forall_Forall2_diag.
    apply Forall_forall. intros part Hp. apply elem_of_bfilter in Hp. rewrite Forall_forall in Hb. cbn.
    split; [done|]. split; [|apply base64_chars]. apply base64_decode_encode, Hb, Hp.
  - intros part Hc Hp%elem_of_bfilter. by destruct (content_id part), Hp.
Qed.

(** ** Examples *)

Definition demo_message : Message :=
  mkMessage (Some "Hi"%str) (Some 7%Z) [mkMailAddr (Some "A"%str) (Some "a@x"%str)] [] [mkField "Subject"%str 8 12]
    [] [mkPart None None None [1; 2; 255; 7]; mkPart (Some "<logo>"%str) None None [0]] None (Some "x cid:logo"%str).

Lemma attachments_exact_witness :
  Forall (fun p => Forall (fun b => b < 256) (contents p)) (msg_attachments demo_message) /\
  exists a, collect_attachments demo_message = [a] /\ base64_decode (at_data a) = Some [1; 2; 255; 7].
Proof.
  assert (Forall (fun p => Forall (fun b => b < 256) (contents p)) (msg_attachments demo_message)) as Hb by (repeat constructor).
  split; [exact Hb|]. destruct (attachments_exact demo_message Hb) as [Hf _].
  destruct (collect_attachments demo_message) as [|a [|? ?]] eqn:E; [discriminate E| |discriminate E].
  exists a. split; [reflexivity|]. cbn in Hf. apply Forall2_cons in Hf as [(_ & Hd & _) _]. exact Hd.
Defined.

Example inline_image : rewrite_cids demo_message "x cid:logo"%str = "x data:application/octet-stream;base64,AA=="%str.
Proof. by vm_compute. Qed.
