(* ===== verification/MailStore.v ===== *)
(** * The mail store

    [src/crates/orcker-mail/src/io/store.rs] and [pure/retention.rs]: captured
    messages as [<id>.eml] files beside an index.  The state is what the daemon
    holds in memory and the files of the store's directory; every operation takes
    what the file system does to it ([Disk]: reads and writes that fail, the latter
    part-way, files that cannot be removed, a rename that fails; [Opening]: an index
    that cannot be read, a directory that is not listed whole), so a crash is an operation that fails
    from some point on, followed by a reopening.

    [store_safe] holds after any operations, failures and reopenings;
    [inbox_end_to_end] composes the store with the SMTP handler of [Smtp]. *)

From stdpp Require Import sorting.
From S2P Require Import Prelude RustStr RustText RustMap Utf8 Ipc Smtp Mime.

Open Scope N_scope.

(** ** Retention *)

Definition DEFAULT_CAP : N := 200.
Definition evict_count (current_len cap : N) : N := current_len - cap.

(** ** The file system *)

Inductive WriteOutcome :=
| Written
| WriteFailed (e : io_kind) (left : option bytes).

(** What one operation meets: the message's write, the removals, the write of the
    new index and its rename, the read of a message. *)
Record Disk := mkDisk {
  on_eml : WriteOutcome;
  removes : str -> bool;
  on_tmp : WriteOutcome;
  on_rename : option io_kind;
  on_read : option io_kind;
}.

Definition good_disk : Disk := mkDisk Written (fun _ => true) Written None None.

(** What an opening meets: making the directory, reading the index (an error other
    than its absence), and listing the directory, which may fail as a whole or for
    single entries. *)
Record Opening := mkOpening {
  make_dir : option io_kind;
  index_read : option io_kind;
  listing : option (str -> bool);
}.

Definition good_opening : Opening := mkOpening None None (Some (fun _ => true)).

Notation Files := (gmap str bytes).

Definition write_file (name : str) (content : bytes) (o : WriteOutcome) (files : Files) : result io_kind unit * Files :=
  match o with
  | Written => (Ok tt, <[name := content]> files)
  | WriteFailed e None => (Err e, files)
  | WriteFailed e (Some part) => (Err e, <[name := part]> files)
  end.

Definition remove_file (d : Disk) (name : str) (files : Files) : Files :=
  if removes d name then delete name files else files.

Inductive MailError :=
| MailIo (path : str) (source : io_kind)
| MailIndex.

(** ** Identifiers *)

(** [format!("{:06}")] *)
Definition pad6 (n : N) : str := let digits := show_uint n in replicate (6 - length digits) 48 ++ digits.

Definition eml_path (id : str) : str := id ++ ".eml"%str.
Definition INDEX : str := "index.json"%str.
Definition INDEX_TMP : str := "index.json.tmp"%str.

(** [u64] addition as a release build does it. *)
Definition wrap_succ (n : N) : N := (n + 1) mod (u64_max + 1).

(** The number of an [.eml] file name. *)
Definition eml_number (name : str) : option N := stem ← strip_suffix ".eml"%str name; parse_uint u64_max stem.

Definition max_opt (ns : list N) : option N := max_by_key id ns.

Lemma parse_digits_zeros max k s : parse_digits max 0 (replicate k 48 ++ s) = parse_digits max 0 s.
Proof. induction k as [|k IH]; [done|]. cbn. change (0 * 10 + digit_val 48) with 0. by destruct max. Qed.

Lemma pad6_parse max n : n <= max -> parse_uint max (pad6 n) = Some n.
Proof.
  intros Hn. unfold pad6. rewrite parse_uint_digits.
  - rewrite parse_digits_zeros. rewrite <- parse_uint_digits; [by apply parse_show_uint|apply show_uint_digits|apply show_uint_ne].
  - apply Forall_app. split; [by apply Forall_replicate|apply show_uint_digits].
  - destruct (replicate _ _); [apply show_uint_ne|done].
Qed.

Lemma pad6_inj m n : pad6 m = pad6 n -> m = n.
Proof. intros E. apply (inj Some). rewrite <- (pad6_parse (N.max m n) m) by lia. rewrite E. apply pad6_parse. lia. Qed.

Lemma eml_path_inj a b : eml_path a = eml_path b -> a = b.
Proof. apply app_inj_2. done. Qed.

Lemma eml_not_json id : eml_path id <> INDEX /\ eml_path id <> INDEX_TMP.
Proof.
  split; intros E; assert (strip_suffix ".eml"%str (eml_path id) = Some id) as Hs by (by apply strip_suffix_Some);
    rewrite E in Hs; discriminate Hs.
Qed.

Lemma eml_number_path n : n <= u64_max -> eml_number (eml_path (pad6 n)) = Some n.
Proof.
  intros Hn. unfold eml_number. assert (strip_suffix ".eml"%str (eml_path (pad6 n)) = Some (pad6 n)) as ->
    by (by apply strip_suffix_Some). by apply pad6_parse.
Qed.

Lemma max_opt_None ns : max_opt ns = None <-> ns = [].
Proof. apply max_by_key_None. Qed.

Lemma max_opt_Some ns m : max_opt ns = Some m -> m ∈ ns /\ forall n, n ∈ ns -> n <= m.
Proof. intros Hm. apply max_by_key_Some in Hm as [Hin Hmax]. split; [done|]. intros n Hn. by apply Hmax. Qed.

Lemma Forall_sublist {A} (P : A -> Prop) l k : sublist l k -> Forall P k -> Forall P l.
Proof. induction 1; rewrite ?Forall_cons; naive_solver. Qed.

Section Store.

(** The MIME parser and the JSON library. *)
Variable parse : bytes -> option Message.
Variable default_message : Message.
Variable to_vec : list MailSummary -> option bytes.
Variable from_slice : bytes -> option (list MailSummary).

Record Store := mkStore {
  cap : N;
  entries : list MailSummary;
  next_id : N;
  files : Files;
}.

Definition set_inner (es : list MailSummary) (fs : Files) (s : Store) : Store := mkStore (cap s) es (next_id s) fs.

Definition write_index (d : Disk) (es : list MailSummary) (fs : Files) : result MailError unit * Files :=
  match to_vec es with
  | None => (Err MailIndex, fs)
  | Some json =>
      match write_file INDEX_TMP json (on_tmp d) fs with
      | (Err e, fs) => (Err (MailIo INDEX_TMP e), fs)
      | (Ok _, fs) =>
          match on_rename d with
          | Some e => (Err (MailIo INDEX e), fs)
          | None => (Ok tt, <[INDEX := json]> (delete INDEX_TMP fs))
          end
      end
  end.

Definition remove_all_eml (d : Disk) (es : list MailSummary) (fs : Files) : Files :=
  foldl (fun fs e => remove_file d (eml_path (ms_id e)) fs) fs es.

Definition store_append (d : Disk) (raw : bytes) (s : Store) : result MailError unit * Store :=
  let id := pad6 (next_id s) in
  let s := mkStore (cap s) (entries s) (wrap_succ (next_id s)) (files s) in
  match write_file (eml_path id) raw (on_eml d) (files s) with
  | (Err e, fs) => (Err (MailIo (eml_path id) e), set_inner (entries s) fs s)
  | (Ok _, fs) =>
      let es := entries s ++ [summary parse default_message id raw] in
      let evict := N.to_nat (evict_count (vlen es) (cap s)) in
      let fs := remove_all_eml d (take evict es) fs in
      let es := drop evict es in
      let '(r, fs) := write_index d es fs in (r, set_inner es fs s)
  end.

Definition store_list (s : Store) : list MailSummary := rev (entries s).

Definition count (s : Store) : N := N.min u32_max (vlen (entries s)).
Definition counts (s : Store) : N * N :=
  (N.min u32_max (vlen (entries s)), N.min u32_max (vlen (bfilter (fun e => negb (ms_read e)) (entries s)))).

Definition store_get (d : Disk) (s : Store) (id : str) : result MailError (option MailDetail) :=
  if negb (existsb (fun e => str_eqb (ms_id e) id) (entries s)) then Ok None
  else match on_read d with
       | Some e => Err (MailIo (eml_path id) e)
       | None =>
           match files s !! eml_path id with
           | None => Err (MailIo (eml_path id) IoNotFound)
           | Some raw => Ok (Some (detail parse default_message id raw))
           end
       end.

Definition named (ids : list str) (e : MailSummary) : bool := bool_decide (ms_id e ∈ ids).

Definition delete_many (d : Disk) (ids : list str) (s : Store) : result MailError unit * Store :=
  let dropped := bfilter (named ids) (entries s) in
  let kept := bfilter (fun e => negb (named ids e)) (entries s) in
  let fs := remove_all_eml d dropped (files s) in
  let '(r, fs) := write_index d kept fs in (r, set_inner kept fs s).

Definition set_read (e : MailSummary) : MailSummary :=
  mkSummary (ms_id e) (ms_from e) (ms_to e) (ms_subject e) (ms_date_epoch e) true.

Definition mark_read (d : Disk) (ids : list str) (s : Store) : result MailError unit * Store :=
  let hit e := negb (ms_read e) && named ids e in
  if negb (existsb hit (entries s)) then (Ok tt, s)
  else
    let es := (fun e => if hit e then set_read e else e) <$> entries s in
    let '(r, fs) := write_index d es (files s) in (r, set_inner es fs s).

Definition clear (d : Disk) (s : Store) : result MailError unit * Store :=
  let fs := remove_all_eml d (entries s) (files s) in
  let '(r, fs) := write_index d [] fs in (r, set_inner [] fs s).

(** A directory that cannot be listed counts as one without messages, and an entry
    that cannot be read is passed over. *)
Definition max_eml_id (listing : option (str -> bool)) (fs : Files) : option N :=
  seen ← listing; max_opt (omap eml_number (bfilter seen ((map_to_list fs).*1))).

(** A file that is not there, or does not parse, is an empty index; [unreadable]
    is another error of the read. *)
Definition load_index (unreadable : option io_kind) (fs : Files) : result MailError (list MailSummary) :=
  match unreadable with
  | Some e => Err (MailIo INDEX e)
  | None => Ok (match fs !! INDEX with Some b => default [] (from_slice b) | None => [] end)
  end.

Definition open_with_cap (o : Opening) (cap : N) (fs : Files) : result MailError Store :=
  _ ← match make_dir o with Some e => Err (MailIo [] e) | None => Ok tt end;
  es ← load_index (index_read o) fs;
  let max_index := max_opt (omap (fun e => parse_uint u64_max (ms_id e)) es) in
  let max_disk := max_eml_id (listing o) fs in
  let next := match max_opt (option_list max_index ++ option_list max_disk) with
              | Some m => wrap_succ m
              | None => 0
              end in
  Ok (mkStore cap es next fs).

Definition open (o : Opening) (fs : Files) : result MailError Store := open_with_cap o DEFAULT_CAP fs.

(** ** The daemon's mail requests *)

Inductive MailResponse :=
| RespMails (mails : list MailSummary)
| RespMail (mail : MailDetail)
| RespMailOk
| NoSuchMail (code : ErrorCode) (id : str)
| MailFailed (code : ErrorCode) (what : str) (e : MailError).

Definition acted (what : str) (r : result MailError unit * Store) : MailResponse * Store :=
  match r with
  | (Ok _, s) => (RespMailOk, s)
  | (Err e, s) => (MailFailed ErrInternal what e, s)
  end.

Definition dispatch_mail (d : Disk) (req : Request) (s : Store) : option (MailResponse * Store) :=
  match req with
  | ListMails => Some (RespMails (store_list s), s)
  | GetMail id =>
      Some (match store_get d s id with
            | Ok (Some mail) => RespMail mail
            | Ok None => NoSuchMail ErrNotFound id
            | Err e => MailFailed ErrInternal "mail read failed"%str e
            end, s)
  | ClearMails => Some (acted "mail clear failed"%str (clear d s))
  | DeleteMails ids => Some (acted "mail delete failed"%str (delete_many d ids s))
  | MarkMailsRead ids => Some (acted "mail mark-read failed"%str (mark_read d ids s))
  | _ => None
  end.

(** ** Histories *)

Inductive Event :=
| Append (d : Disk) (raw : bytes)
| DeleteMany (d : Disk) (ids : list str)
| MarkRead (d : Disk) (ids : list str)
| Clear (d : Disk)
| Reopen (seen : option (str -> bool)) (new_cap : N).

(** A restart whose opening fails leaves no store, and the files for the next one. *)
Definition step (s : Store) (ev : Event) : Store :=
  match ev with
  | Append d raw => (store_append d raw s).2
  | DeleteMany d ids => (delete_many d ids s).2
  | MarkRead d ids => (mark_read d ids s).2
  | Clear d => (clear d s).2
  | Reopen seen c => match open_with_cap (mkOpening None None seen) c (files s) with Ok s => s | Err _ => s end
  end.

(** ** What holds of the files and the entries *)

Hypothesis json_roundtrip : forall es b, to_vec es = Some b -> from_slice b = Some es.

Definition unread (e : MailSummary) : MailSummary :=
  mkSummary (ms_id e) (ms_from e) (ms_to e) (ms_subject e) (ms_date_epoch e) false.

(** An entry carries the number it was captured under, and describes its file. *)
Definition entry_ok (next : N) (fs : Files) (e : MailSummary) : Prop :=
  (exists n, ms_id e = pad6 n /\ n < next) /\
  forall raw, fs !! eml_path (ms_id e) = Some raw -> unread e = summary parse default_message (ms_id e) raw.

Definition before (a b : MailSummary) : Prop := exists m n, ms_id a = pad6 m /\ ms_id b = pad6 n /\ m < n.

Definition listed (next : N) (fs : Files) (es : list MailSummary) : Prop :=
  Forall (entry_ok next fs) es /\ StronglySorted before es.

(** [high] is above every number ever given out; the next one is above those of all
    message files when the last opening saw them all ([whole]). *)
Record consistent (whole : Prop) (high next : N) (fs : Files) (es : list MailSummary) : Prop := mkConsistent {
  c_width : next <= high /\ high <= u64_max;
  c_entries : listed next fs es;
  c_index : forall b es', fs !! INDEX = Some b -> from_slice b = Some es' -> listed next fs es';
  c_names : forall name n, is_Some (fs !! name) -> eml_number name = Some n -> n < high;
  c_free : whole -> forall name n, is_Some (fs !! name) -> eml_number name = Some n -> n < next;
}.

Definition store_ok (whole : Prop) (high : N) (s : Store) : Prop := consistent whole high (next_id s) (files s) (entries s).

Lemma sorted_sublist (l k : list MailSummary) : sublist l k -> StronglySorted before k -> StronglySorted before l.
Proof.
  induction 1 as [|x l k Hs IH|x l k Hs IH]; intros Hk; [done| |]; apply StronglySorted_inv in Hk as [Hk Hx].
  - constructor; [by apply IH|]. by eapply Forall_sublist.
  - by apply IH.
Qed.

Lemma bfilter_sublist {A} (p : A -> bool) l : sublist (bfilter p l) l.
Proof. induction l as [|x l IH]; [constructor|]. cbn. destruct (p x); by constructor. Qed.

Lemma listed_sublist next fs es es' : sublist es' es -> listed next fs es -> listed next fs es'.
Proof. intros Hs [Hf Ho]. split; [by eapply Forall_sublist|by eapply sorted_sublist]. Qed.

(** More numbers given out, and fewer files. *)
Lemma listed_mono next next' fs fs' es : next <= next' ->
  (forall e raw, e ∈ es -> fs' !! eml_path (ms_id e) = Some raw -> fs !! eml_path (ms_id e) = Some raw) ->
  listed next fs es -> listed next' fs' es.
Proof.
  intros Hn Hfs [Hf Ho]. split; [|done]. rewrite Forall_forall in *. intros e He.
  destruct (Hf e He) as [(n & E & Hlt) Hs]. split; [exists n; split; [done|lia]|]. intros raw Hr. by apply Hs, Hfs.
Qed.

Lemma consistent_sublist whole high next fs es es' :
  sublist es' es -> consistent whole high next fs es -> consistent whole high next fs es'.
Proof. intros Hs [Hw He Hi Hn Hf]. split; [done| |done|done|done]. by eapply listed_sublist. Qed.

Lemma set_read_listed next fs (hit : MailSummary -> bool) es :
  listed next fs es -> listed next fs ((fun e => if hit e then set_read e else e) <$> es).
Proof.
  assert (forall e, ms_id (if hit e then set_read e else e) = ms_id e) as Hid by (intros e; by destruct (hit e)).
  intros [Hf Ho]. split.
  - rewrite Forall_fmap. eapply Forall_impl; [exact Hf|]. intros e [Hn Hs]. unfold compose, entry_ok. rewrite !Hid.
    split; [done|]. intros raw Hr. rewrite <- (Hs raw Hr). by destruct (hit e).
  - clear Hf. induction Ho as [|e es Ho IH Hfirst]; [constructor|]. cbn. constructor; [done|].
    rewrite Forall_fmap. eapply Forall_impl; [exact Hfirst|]. intros e' (m & n & ? & ? & ?).
    exists m, n. unfold compose. by rewrite !Hid.
Qed.

(** Removing messages takes files away and leaves the index. *)
Lemma remove_all_files d es fs :
  remove_all_eml d es fs ⊆ fs /\ remove_all_eml d es fs !! INDEX = fs !! INDEX.
Proof.
  revert fs. induction es as [|e es IH]; intros fs; [done|]. cbn. destruct (IH (remove_file d (eml_path (ms_id e)) fs)) as [Hs Hi].
  unfold remove_file in *. destruct (removes d _); [|done]. split.
  - etransitivity; [exact Hs|apply delete_subseteq].
  - etransitivity; [exact Hi|]. rewrite lookup_delete_ne; [done|]. apply eml_not_json.
Qed.

Lemma consistent_fewer whole high next fs fs' es : fs' ⊆ fs -> fs' !! INDEX = fs !! INDEX ->
  consistent whole high next fs es -> consistent whole high next fs' es.
Proof.
  intros Hs Hi [Hw He Hx Hn Hf]. split; [done| | | |].
  - eapply listed_mono; [reflexivity| |exact He]. intros e raw _ Hr. by eapply lookup_weaken.
  - intros b es' Hb Hes. rewrite Hi in Hb. eapply listed_mono; [reflexivity| |by eapply Hx].
    intros e raw _ Hr. by eapply lookup_weaken.
  - intros name n [b Hb]. apply Hn. exists b. by eapply lookup_weaken.
  - intros Hwh name n [b Hb]. apply (Hf Hwh). exists b. by eapply lookup_weaken.
Qed.

(** Rewriting the index. *)
Lemma write_index_files d es fs :
  (forall id, (write_index d es fs).2 !! eml_path id = fs !! eml_path id) /\
  (forall name, is_Some ((write_index d es fs).2 !! name) -> is_Some (fs !! name) \/ name = INDEX \/ name = INDEX_TMP) /\
  ((write_index d es fs).2 !! INDEX = fs !! INDEX /\ (exists e, (write_index d es fs).1 = Err e) \/
   (write_index d es fs).1 = Ok tt /\ exists b, to_vec es = Some b /\ (write_index d es fs).2 !! INDEX = Some b).
Proof.
  unfold write_index. destruct (to_vec es) as [json|]; [|by naive_solver].
  assert (forall name content, (forall id, <[INDEX_TMP := content]> fs !! eml_path id = fs !! eml_path id) /\
    (is_Some (<[INDEX_TMP := content : bytes]> fs !! name) -> is_Some (fs !! name) \/ name = INDEX \/ name = INDEX_TMP) /\
    <[INDEX_TMP := content]> fs !! INDEX = fs !! INDEX) as Htmp.
  { intros name content. split; [|split; [|by rewrite lookup_insert_ne by done]].
    - intros id. rewrite lookup_insert_ne; [done|]. intros E. symmetry in E. by apply eml_not_json in E.
    - destruct (decide (name = INDEX_TMP)) as [->|Hne]; [by right; right|]. rewrite lookup_insert_ne by done. auto. }
  destruct (on_tmp d) as [|e [part|]]; cbn [write_file].
  - destruct (on_rename d) as [e|].
    + split; [apply (Htmp INDEX json)|]. split; [intros name; apply (Htmp name json)|]. left. split; [apply (Htmp INDEX json)|eauto].
    + cbn [fst snd]. split; [|split].
      * intros id. rewrite lookup_insert_ne by (intros E; symmetry in E; by apply eml_not_json in E).
        rewrite lookup_delete_ne by (intros E; symmetry in E; by apply eml_not_json in E). apply (Htmp INDEX json).
      * intros name. destruct (decide (name = INDEX)) as [->|Hne]; [by right; left|]. rewrite lookup_insert_ne by done.
        destruct (decide (name = INDEX_TMP)) as [->|Hne']; [by right; right|]. rewrite lookup_delete_ne by done.
        apply (Htmp name json).
      * right. split; [done|]. exists json. split; [done|]. by rewrite lookup_insert_eq.
  - cbn [fst snd]. split; [apply (Htmp INDEX part)|]. split; [intros name; apply (Htmp name part)|]. left. split; [apply (Htmp INDEX part)|eauto].
  - cbn [fst snd]. split; [done|]. split; [auto|]. left. eauto.
Qed.

Lemma eml_number_json : eml_number INDEX = None /\ eml_number INDEX_TMP = None.
Proof. done. Qed.

Lemma write_index_consistent d whole high next es fs :
  consistent whole high next fs es -> consistent whole high next (write_index d es fs).2 es.
Proof.
  intros [Hw He Hx Hn Hf]. destruct (write_index_files d es fs) as (Heml & Hnames & Hidx).
  assert (forall es', listed next fs es' -> listed next (write_index d es fs).2 es') as Hl.
  { intros es'. apply listed_mono; [reflexivity|]. intros e raw _. by rewrite Heml. }
  split; [done|by apply Hl| | |].
  - intros b es' Hb Hes. apply Hl. destruct Hidx as [[Hi _]|[_ (b' & Hj & Hi)]].
    + rewrite Hi in Hb. by eapply Hx.
    + rewrite Hi in Hb. injection Hb as ->. apply json_roundtrip in Hj. congruence.
  - intros name n Hsome Hnum. destruct (Hnames name Hsome) as [?|[->| ->]]; [by eapply Hn|done|done].
  - intros Hwh name n Hsome Hnum. destruct (Hnames name Hsome) as [?|[->| ->]]; [by eapply (Hf Hwh)|done|done].
Qed.

(** Capturing takes the next number, whose file is not there yet if the directory was seen. *)
Lemma next_unused (whole : Prop) high next fs es : whole -> consistent whole high next fs es -> fs !! eml_path (pad6 next) = None.
Proof.
  intros Hwh [Hw _ _ _ Hf]. destruct (fs !! eml_path (pad6 next)) eqn:E; [|done].
  specialize (Hf Hwh (eml_path (pad6 next)) next ltac:(by eexists) (eml_number_path next ltac:(lia))). lia.
Qed.

(** It is in any case not the file of a listed message. *)
Lemma next_not_listed next fs es e : listed next fs es -> e ∈ es -> eml_path (ms_id e) <> eml_path (pad6 next).
Proof.
  intros [Hf _] He Hp. rewrite Forall_forall in Hf. destruct (Hf e He) as [(n & E & Hlt) _].
  apply eml_path_inj in Hp. rewrite E in Hp. apply pad6_inj in Hp. lia.
Qed.

Lemma other_file next fs es' raw : listed next fs es' ->
  forall e, e ∈ es' -> <[eml_path (pad6 next) := raw : bytes]> fs !! eml_path (ms_id e) = fs !! eml_path (ms_id e).
Proof. intros Hl e He. rewrite lookup_insert_ne; [done|]. symmetry. by eapply next_not_listed. Qed.

Lemma write_eml_consistent whole high next fs es o raw : next < u64_max -> consistent whole high next fs es ->
  consistent whole (N.max high (next + 1)) (next + 1) (write_file (eml_path (pad6 next)) raw o fs).2 es /\
  (o = Written -> consistent whole (N.max high (next + 1)) (next + 1) (write_file (eml_path (pad6 next)) raw o fs).2
                    (es ++ [summary parse default_message (pad6 next) raw])).
Proof.
  intros Hlt Hc. pose proof Hc as [Hw He Hx Hn Hfree].
  assert (forall content, consistent whole (N.max high (next + 1)) (next + 1) (<[eml_path (pad6 next) := content]> fs) es) as Hins.
  { intros content. split; [lia| | | |].
    - eapply listed_mono; [| |exact He]; [lia|]. intros e r Hin. by rewrite (other_file next fs es).
    - intros b es' Hb Hes. rewrite lookup_insert_ne in Hb by (apply eml_not_json). specialize (Hx b es' Hb Hes).
      eapply listed_mono; [| |exact Hx]; [lia|]. intros e r Hin. by rewrite (other_file next fs es').
    - intros name n Hsome Hnum. destruct (decide (name = eml_path (pad6 next))) as [->|Hne].
      + rewrite eml_number_path in Hnum by lia. injection Hnum as <-. lia.
      + rewrite lookup_insert_ne in Hsome by done. specialize (Hn name n Hsome Hnum). lia.
    - intros Hwh name n Hsome Hnum. destruct (decide (name = eml_path (pad6 next))) as [->|Hne].
      + rewrite eml_number_path in Hnum by lia. injection Hnum as <-. lia.
      + rewrite lookup_insert_ne in Hsome by done. specialize (Hfree Hwh name n Hsome Hnum). lia. }
  split.
  - destruct o as [|e [part|]]; cbn [write_file snd]; try apply Hins. split; [lia| | | |].
    + eapply listed_mono; [| |exact He]; [lia|done].
    + intros b es' Hb Hes. eapply listed_mono; [| |by eapply Hx]; [lia|done].
    + intros name n Hsome Hnum. specialize (Hn name n Hsome Hnum). lia.
    + intros Hwh name n Hsome Hnum. specialize (Hfree Hwh name n Hsome Hnum). lia.
  - intros ->. cbn [write_file snd]. destruct (Hins raw) as [Hw' He' Hx' Hn' Hf']. split; [done| |done|done|done].
    destruct He' as [Hf Ho]. split.
    + apply Forall_app. split; [done|]. repeat constructor; [exists next; split; [done|lia]|].
      intros r. cbn [summary ms_id]. rewrite lookup_insert_eq. by intros [= <-].
    + apply StronglySorted_app. split; [|split; [done|repeat constructor]].
      intros a b Ha Hb. apply list_elem_of_singleton in Hb as ->. destruct He as [He _]. rewrite Forall_forall in He.
      destruct (He a Ha) as [(n & E & Hn'') _]. exists n, next. done.
Qed.

Lemma remove_all_consistent d l whole high next fs es :
  consistent whole high next fs es -> consistent whole high next (remove_all_eml d l fs) es.
Proof. intros Hc. destruct (remove_all_files d l fs). by eapply consistent_fewer. Qed.

Lemma wrap_succ_small n : n < u64_max -> wrap_succ n = n + 1.
Proof. intros Hn. unfold wrap_succ. apply N.mod_small. lia. Qed.

Lemma store_append_ok d raw s whole high : next_id s < u64_max -> store_ok whole high s ->
  store_ok whole (N.max high (next_id s + 1)) (store_append d raw s).2 /\ next_id (store_append d raw s).2 = next_id s + 1.
Proof.
  intros Hlt Hc. unfold store_append, store_ok in *. cbv zeta. cbn [files entries cap next_id].
  rewrite wrap_succ_small by done.
  destruct (write_eml_consistent whole high (next_id s) (files s) (entries s) (on_eml d) raw Hlt Hc) as [Hfail Hok].
  destruct (write_file _ _ _ _) as [[[]|e] fs] eqn:E; cbn [snd] in *; [|done].
  assert (on_eml d = Written) as Hwr by (destruct (on_eml d) as [|? []]; [done|discriminate E|discriminate E]).
  specialize (Hok Hwr). set (es := entries s ++ _) in *. set (evict := N.to_nat _).
  assert (consistent whole (N.max high (next_id s + 1)) (next_id s + 1) (remove_all_eml d (take evict es) fs) (drop evict es)) as Hc'.
  { apply remove_all_consistent. eapply consistent_sublist; [apply sublist_drop|done]. }
  apply (write_index_consistent d) in Hc'. by destruct (write_index _ _ _).
Qed.

Lemma delete_many_ok d ids s whole high : store_ok whole high s ->
  store_ok whole high (delete_many d ids s).2 /\ next_id (delete_many d ids s).2 = next_id s.
Proof.
  intros Hc. unfold delete_many, store_ok in *.
  assert (consistent whole high (next_id s) (remove_all_eml d (bfilter (named ids) (entries s)) (files s))
            (bfilter (fun e => negb (named ids e)) (entries s))) as Hc'.
  { apply remove_all_consistent. eapply consistent_sublist; [apply bfilter_sublist|done]. }
  apply (write_index_consistent d) in Hc'. by destruct (write_index _ _ _).
Qed.

Lemma mark_read_ok d ids s whole high : store_ok whole high s ->
  store_ok whole high (mark_read d ids s).2 /\ next_id (mark_read d ids s).2 = next_id s.
Proof.
  intros Hc. unfold mark_read, store_ok in *. destruct (negb _); [done|].
  destruct Hc as [Hw He Hx Hn Hf]. apply (set_read_listed _ _ (fun e => negb (ms_read e) && named ids e)) in He.
  pose proof (write_index_consistent d _ _ _ _ _ (mkConsistent _ _ _ _ _ Hw He Hx Hn Hf)) as Hc'.
  by destruct (write_index _ _ _).
Qed.

Lemma clear_ok d s whole high : store_ok whole high s ->
  store_ok whole high (clear d s).2 /\ next_id (clear d s).2 = next_id s.
Proof.
  intros Hc. unfold clear, store_ok in *.
  assert (consistent whole high (next_id s) (remove_all_eml d (entries s) (files s)) []) as Hc'.
  { apply remove_all_consistent. eapply consistent_sublist; [apply sublist_nil_l|done]. }
  apply (write_index_consistent d) in Hc'. by destruct (write_index _ _ _).
Qed.

Lemma elem_of_max_list (ns : list N) n : n ∈ ns -> exists m, m ∈ option_list (max_opt ns) /\ n <= m.
Proof.
  intros Hn. destruct (max_opt ns) as [m|] eqn:E; [|apply max_opt_None in E; subst; by apply elem_of_nil in Hn].
  exists m. split; [by left|]. apply max_opt_Some in E as [_ Hmax]. by apply Hmax.
Qed.

Lemma max_list_elem (ns : list N) n : n ∈ option_list (max_opt ns) -> n ∈ ns.
Proof.
  destruct (max_opt ns) as [m|] eqn:E; cbn; [|by intros ?%elem_of_nil]. intros ->%list_elem_of_singleton.
  by apply max_opt_Some in E as [? _].
Qed.

(** The opening saw every entry of the directory. *)
Definition sees_all (seen : option (str -> bool)) : Prop := exists f, seen = Some f /\ forall name, f name = true.

(** The numbers of the message files an opening sees. *)
Definition seen_numbers (seen : option (str -> bool)) (fs : Files) : list N :=
  match seen with Some f => omap eml_number (bfilter f ((map_to_list fs).*1)) | None => [] end.

Lemma max_eml_id_seen seen fs : max_eml_id seen fs = max_opt (seen_numbers seen fs).
Proof. by destruct seen. Qed.

Lemma seen_is_file seen fs n : n ∈ seen_numbers seen fs -> exists name, is_Some (fs !! name) /\ eml_number name = Some n.
Proof.
  destruct seen as [f|]; cbn [seen_numbers]; [|by intros ?%elem_of_nil]. intros (name & Hin & Hnum)%list_elem_of_omap.
  apply elem_of_bfilter in Hin as [_ Hin]. apply list_elem_of_fmap in Hin as ([name' b] & -> & Hin).
  apply elem_of_map_to_list in Hin. exists name'. split; [by exists b|done].
Qed.

Lemma file_is_seen seen fs name n : sees_all seen -> is_Some (fs !! name) -> eml_number name = Some n -> n ∈ seen_numbers seen fs.
Proof.
  intros (f & -> & Hf) [b Hb] Hnum. apply list_elem_of_omap. exists name. split; [|done]. apply elem_of_bfilter. split; [apply Hf|].
  apply list_elem_of_fmap. exists (name, b). split; [done|]. by apply elem_of_map_to_list.
Qed.

(** A reopened store stays above the numbers of its index and of the files it saw. *)
Lemma reopen_ok whole high next fs es seen c : consistent whole high next fs es ->
  exists s, open_with_cap (mkOpening None None seen) c fs = Ok s /\ store_ok (sees_all seen) high s /\ files s = fs /\ cap s = c.
Proof.
  intros [Hw He Hx Hn _]. unfold open_with_cap. cbn [make_dir index_read listing load_index mbind result_bind].
  set (es' := match fs !! INDEX with Some b => _ | None => _ end).
  assert (listed next fs es') as Hl.
  { unfold es'. destruct (fs !! INDEX) as [b|] eqn:Eb; [|split; constructor].
    destruct (from_slice b) as [l|] eqn:El; [by eapply Hx|]. split; constructor. }
  rewrite max_eml_id_seen. set (indexed := omap (fun e => parse_uint u64_max (ms_id e)) es').
  assert (forall n, n ∈ indexed \/ n ∈ seen_numbers seen fs -> n < high) as Hsmall.
  { intros n [Hin|Hin].
    - apply list_elem_of_omap in Hin as (e & Hin & Hp). destruct Hl as [Hf _]. rewrite Forall_forall in Hf.
      destruct (Hf e Hin) as [(k & E & Hlt) _]. rewrite E, pad6_parse in Hp by lia. injection Hp as <-. lia.
    - apply seen_is_file in Hin as (name & Hs & Hnum). by eapply Hn. }
  set (used := option_list (max_opt indexed) ++ option_list (max_opt (seen_numbers seen fs))).
  set (nid := match max_opt used with Some m => wrap_succ m | None => 0 end).
  assert (nid <= high /\ forall n, n ∈ indexed \/ n ∈ seen_numbers seen fs -> n < nid) as [Hle Habove].
  { unfold nid. destruct (max_opt used) as [m|] eqn:Em.
    - apply max_opt_Some in Em as [Hin Hmax].
      assert (m < high) as Hm by (apply Hsmall; apply elem_of_app in Hin as [Hin|Hin]; [left|right]; by apply max_list_elem).
      rewrite wrap_succ_small by lia. split; [lia|].
      intros n [Hn'|Hn']; apply elem_of_max_list in Hn' as (k & Hk & Hnk);
        (enough (k <= m) by lia; apply Hmax, elem_of_app; auto).
    - apply max_opt_None, app_eq_nil in Em as [E1 E2]. split; [lia|].
      intros n [Hn'|Hn']; apply elem_of_max_list in Hn' as (k & Hk & _);
        [rewrite E1 in Hk|rewrite E2 in Hk]; by apply elem_of_nil in Hk. }
  assert (listed nid fs es') as Hl'.
  { destruct Hl as [Hf Ho]. split; [|done]. rewrite Forall_forall in *. intros e Hin. destruct (Hf e Hin) as [(k & E & Hlt) Hs].
    split; [|done]. exists k. split; [done|]. apply Habove. left. apply list_elem_of_omap. exists e. split; [done|].
    rewrite E. apply pad6_parse. lia. }
  eexists. split; [done|]. split; [|done]. split; cbn [next_id files entries]; [lia|done| |done|].
  - intros b l Hb Hl''. assert (es' = l) as <-; [|done]. unfold es'. by rewrite Hb, Hl''.
  - intros Hall name n Hs Hnum. apply Habove. right. by eapply file_is_seen.
Qed.

Definition sees_event (ev : Event) : Prop := match ev with Reopen seen _ => sees_all seen | _ => True end.

Lemma step_ok s ev (whole : Prop) high : high < u64_max -> store_ok whole high s -> (whole -> sees_event ev) ->
  exists high', store_ok whole high' (step s ev) /\ high' <= high + 1.
Proof.
  intros Hlt Hs Hsee. pose proof Hs as [[Hw1 Hw2] _ _ _ _]. destruct ev as [d raw|d ids|d ids|d|seen c]; cbn [step].
  - destruct (store_append_ok d raw s whole high) as [? _]; [lia|done|]. eexists. split; [done|lia].
  - destruct (delete_many_ok d ids s whole high Hs) as [? _]. exists high. split; [done|lia].
  - destruct (mark_read_ok d ids s whole high Hs) as [? _]. exists high. split; [done|lia].
  - destruct (clear_ok d s whole high Hs) as [? _]. exists high. split; [done|lia].
  - destruct (reopen_ok whole high _ _ _ seen c Hs) as (s' & -> & [H1 H2 H3 H4 H5] & _). exists high. split; [|lia].
    split; [done|done|done|done|]. intros Hwh. apply H5, Hsee, Hwh.
Qed.

Lemma mail_steps_ok evs s (whole : Prop) high : high + vlen evs <= u64_max -> store_ok whole high s ->
  (whole -> Forall sees_event evs) -> exists high', store_ok whole high' (foldl step s evs) /\ high' <= high + vlen evs.
Proof.
  revert s high. induction evs as [|ev evs IH]; intros s high Hb Hs Hsee; [exists high; cbn; split; [done|lia]|].
  rewrite vlen_cons in *. cbn [foldl].
  destruct (step_ok s ev whole high) as (h1 & Hs' & Hn); [lia|done|intros Hwh; by apply Hsee, Forall_cons in Hwh as [? _]|].
  destruct (IH (step s ev) h1) as (h2 & Hs'' & Hn'); [lia|done|intros Hwh; by apply Hsee, Forall_cons in Hwh as [_ ?]|].
  exists h2. split; [done|lia].
Qed.

(** ** Reachable stores *)

(** A store opened on a directory without an index, after some operations and
    reopenings, with numbers left for [more] captures; [whole] when every opening saw
    the whole directory. *)
Definition reached (whole : Prop) (more : N) (s : Store) : Prop :=
  exists fs seen c evs s0,
    fs !! INDEX = None /\
    (forall name n, is_Some (fs !! name) -> eml_number name = Some n -> n + vlen evs + more < u64_max) /\
    vlen evs + more < u64_max /\
    open_with_cap (mkOpening None None seen) c fs = Ok s0 /\ s = foldl step s0 evs /\
    (whole -> sees_all seen /\ Forall sees_event evs).

Lemma reached_ok whole more s : reached whole more s -> exists high, store_ok whole high s /\ high + more <= u64_max.
Proof.
  intros (fs & seen & c & evs & s0 & Hi & Hroom & Hr0 & Ho & -> & Hsee).
  set (high := u64_max - vlen evs - more).
  destruct (reopen_ok False high 0 fs [] seen c) as (s' & Ho' & [H1 H2 H3 H4 H5] & _).
  { split; [unfold high; lia|split; constructor|intros b' es'; by rewrite Hi| |done].
    intros name n Hs Hnum. specialize (Hroom name n Hs Hnum). unfold high. lia. }
  rewrite Ho' in Ho. injection Ho as <-.
  destruct (mail_steps_ok evs s' whole high) as (h & Hok & Hle); [unfold high; lia| |intros Hwh; by apply Hsee|].
  { split; [done|done|done|done|]. intros Hwh. by apply H5, Hsee. }
  exists h. split; [done|unfold high in Hle; lia].
Qed.

Lemma ids_distinct es : StronglySorted before es -> NoDup (ms_id <$> es).
Proof.
  induction 1 as [|e es Ho IH Hfirst]; [constructor|]. cbn. constructor; [|done].
  intros Hin. apply list_elem_of_fmap in Hin as (e' & E & Hin).
  rewrite Forall_forall in Hfirst. destruct (Hfirst e' Hin) as (m & n & Em & En & Hmn).
  rewrite Em, En in E. apply pad6_inj in E. lia.
Qed.

Lemma remove_all_other d l fs name : name ∉ (eml_path ∘ ms_id <$> l) -> remove_all_eml d l fs !! name = fs !! name.
Proof.
  revert fs. induction l as [|e l IH]; intros fs Hn; [done|]. cbn in *. rewrite not_elem_of_cons in Hn. destruct Hn as [Hne Hn].
  etransitivity; [by apply IH|]. unfold remove_file, compose in *. destruct (removes d _); [|done]. by rewrite lookup_delete_ne.
Qed.

(** What a capture leaves of the messages it keeps. *)
Lemma append_result whole high d raw s s' : next_id s < u64_max -> store_ok whole high s -> store_append d raw s = (Ok tt, s') ->
  let new := summary parse default_message (pad6 (next_id s)) raw in
  let all := entries s ++ [new] in
  entries s' = drop (length all - N.to_nat (cap s)) all /\ cap s' = cap s /\ next_id s' = next_id s + 1 /\
  (new ∈ entries s' -> files s' !! eml_path (pad6 (next_id s)) = Some raw) /\
  (forall e, e ∈ entries s -> e ∈ entries s' -> files s' !! eml_path (ms_id e) = files s !! eml_path (ms_id e)) /\
  exists b, to_vec (entries s') = Some b /\ files s' !! INDEX = Some b.
Proof.
  intros Hlt Hok Ha. cbv zeta. destruct (store_append_ok d raw s whole high Hlt Hok) as [_ Hnext].
  pose proof (write_eml_consistent whole high (next_id s) (files s) (entries s) (on_eml d) raw Hlt Hok) as [_ Hall].
  rewrite Ha in Hnext. cbn [snd] in Hnext. unfold store_append in Ha. cbv zeta in Ha. cbn [files entries cap next_id] in Ha.
  destruct (on_eml d) as [|? []] eqn:Ew; cbn [write_file] in Ha; [|discriminate Ha|discriminate Ha].
  specialize (Hall eq_refl). cbn [write_file snd] in Hall. destruct Hall as [_ [_ Hsorted] _ _ _].
  set (new := summary parse default_message (pad6 (next_id s)) raw) in *. set (all := entries s ++ [new]) in *.
  set (fs1 := <[eml_path (pad6 (next_id s)) := raw]> (files s)) in *.
  assert (N.to_nat (evict_count (vlen all) (cap s)) = (length all - N.to_nat (cap s))%nat) as Hk.
  { unfold evict_count, vlen. lia. }
  rewrite Hk in Ha. clear Hk. set (k := (length all - N.to_nat (cap s))%nat) in *.
  destruct (write_index_files d (drop k all) (remove_all_eml d (take k all) fs1)) as (Heml & _ & Hidx).
  destruct (write_index _ _ _) as [r fs'] eqn:Ei. cbn [fst snd] in *. injection Ha as -> <-.
  cbn [entries cap next_id files set_inner] in *.
  assert (forall e, e ∈ drop k all -> fs' !! eml_path (ms_id e) = fs1 !! eml_path (ms_id e)) as Hkept.
  { intros e He. rewrite Heml, remove_all_other; [done|]. intros Hin.
    apply list_elem_of_fmap in Hin as (e' & E & Hin). apply eml_path_inj in E.
    apply ids_distinct in Hsorted. rewrite <- (take_drop k all), fmap_app in Hsorted.
    apply NoDup_app in Hsorted as (_ & Hsep & _). eapply Hsep; [by apply list_elem_of_fmap_2|]. rewrite <- E. by apply list_elem_of_fmap_2. }
  split; [done|]. split; [done|]. split; [done|]. split; [|split].
  - intros Hin. etransitivity; [exact (Hkept new Hin)|]. unfold fs1, new. cbn [summary ms_id]. by rewrite lookup_insert_eq.
  - intros e He Hin. rewrite (Hkept e Hin). by apply (other_file (next_id s) (files s) (entries s)); [apply Hok|].
  - destruct Hidx as [[_ [? ?]]|[_ Hidx]]; [done|exact Hidx].
Qed.

Lemma get_listed d s e raw : on_read d = None -> e ∈ entries s -> files s !! eml_path (ms_id e) = Some raw ->
  store_get d s (ms_id e) = Ok (Some (detail parse default_message (ms_id e) raw)).
Proof.
  intros Hd He Hf. unfold store_get. assert (existsb (fun x => str_eqb (ms_id x) (ms_id e)) (entries s) = true) as ->.
  { apply existsb_elem. exists e. split; [done|]. by apply bool_decide_eq_true. }
  cbn [negb]. by rewrite Hd, Hf.
Qed.

(** The daemon's mail requests are operations of the store. *)
Lemma dispatch_mail_steps d req s r s' : dispatch_mail d req s = Some (r, s') ->
  s' = s \/ exists ev, s' = step s ev.
Proof.
  destruct req; try discriminate; cbn [dispatch_mail]; try (intros [= _ <-]; by left); intros E; right.
  - exists (Clear d). cbn [step]. by destruct (clear d s) as [[] ?]; injection E as _ <-.
  - exists (DeleteMany d ids). cbn [step]. by destruct (delete_many d ids s) as [[] ?]; injection E as _ <-.
  - exists (MarkRead d ids). cbn [step]. by destruct (mark_read d ids s) as [[] ?]; injection E as _ <-.
Qed.

(** C34. No listed message is mixed up or overwritten.  After any captures, deletions, markings, clearings and restarts,
    each of which may fail or be cut short at any write, removal, rename or read, and restarts that cannot list the
    directory or parts of it: the listed messages have distinct identifiers in the order they arrived; the next capture
    does not go to the file of a listed message, in memory or in the index on the disk; and opening a listed message
    shows the file its entry was made from, or is an error when that file is gone or cannot be read.  When every
    opening saw the whole directory, the next capture goes to a file that does not exist; otherwise it may overwrite a
    message that no index lists ([unseen_overwritten]).  Identifiers may come back once nothing has them any more
    ([cleared_id_reused]). *)
Theorem store_safe s whole d (Hr : reached whole 0 s) :
  NoDup (ms_id <$> entries s) /\ StronglySorted before (entries s) /\
  (forall e, e ∈ entries s -> eml_path (ms_id e) <> eml_path (pad6 (next_id s))) /\
  (forall b es e, files s !! INDEX = Some b -> from_slice b = Some es -> e ∈ es ->
     eml_path (ms_id e) <> eml_path (pad6 (next_id s))) /\
  (whole -> files s !! eml_path (pad6 (next_id s)) = None) /\
  forall e, e ∈ entries s ->
    match store_get d s (ms_id e) with
    | Ok (Some m) => exists raw, files s !! eml_path (ms_id e) = Some raw /\ m = detail parse default_message (ms_id e) raw /\
                     unread e = summary parse default_message (ms_id e) raw
    | Ok None => False
    | Err _ => files s !! eml_path (ms_id e) = None \/ on_read d <> None
    end.
Proof.
  apply reached_ok in Hr as (high & Hok & _). pose proof Hok as [_ [Hf Hs] Hx _ _].
  split; [by apply ids_distinct|]. split; [done|].
  split; [intros e; by apply (next_not_listed _ (files s) (entries s))|].
  split; [intros b es e Hb Hes; by eapply next_not_listed, Hx|].
  split; [intros Hwh; by eapply next_unused|]. intros e He.
  destruct (on_read d) as [k|] eqn:Ed.
  { unfold store_get. rewrite Ed. destruct (negb _) eqn:Hn; [exfalso|by right]. apply negb_true_iff, existsb_none with (x := e) in Hn; [|done].
    unfold str_eqb in Hn. by apply bool_decide_eq_false in Hn. }
  destruct (files s !! eml_path (ms_id e)) as [raw|] eqn:E.
  - rewrite (get_listed d _ _ _ Ed He E). exists raw. split; [done|]. split; [done|]. rewrite Forall_forall in Hf. by apply Hf.
  - unfold store_get. rewrite Ed, E. destruct (negb _) eqn:Hn; [exfalso|by left]; apply negb_true_iff, existsb_none with (x := e) in Hn;
      [unfold str_eqb in Hn; by apply bool_decide_eq_false in Hn|done].
Qed.

(** An acknowledged message is kept. When a capture succeeds, on whatever files
    could be removed, the store holds the newest messages up to its limit with this
    one last, and if the daemon stops there and opens the directory again, whatever it
    sees of it besides the index, it lists the same messages and shows this one as it
    was received. *)
Theorem append_durable s d raw s' seen c (Hr : reached False 1 s) (Ha : store_append d raw s = (Ok tt, s')) (Hc : 0 < cap s) :
  let new := summary parse default_message (pad6 (next_id s)) raw in
  let all := entries s ++ [new] in
  entries s' = drop (length all - N.to_nat (cap s)) all /\ vlen (entries s') <= cap s /\
  exists s'', open_with_cap (mkOpening None None seen) c (files s') = Ok s'' /\ entries s'' = entries s' /\ last (entries s'') = Some new /\
    store_get good_disk s'' (pad6 (next_id s)) = Ok (Some (detail parse default_message (pad6 (next_id s)) raw)).
Proof.
  cbv zeta. apply reached_ok in Hr as (high & Hok & Hroom). pose proof Hok as [[Hw _] _ _ _ _].
  destruct (append_result False high d raw s s') as (He & Hcap & Hnext & Hnew & _ & b & Hb & Hidx); [lia|done|done|].
  set (new := summary parse default_message (pad6 (next_id s)) raw) in *. set (all := entries s ++ [new]) in *.
  split; [done|]. split; [rewrite He; unfold vlen; rewrite length_drop; lia|].
  assert (last (entries s') = Some new) as Hlast.
  { assert (length all = S (length (entries s))) as Hlen by (unfold all; rewrite length_app; cbn; lia).
    rewrite He, Hlen. unfold all. rewrite drop_app_le by lia. by rewrite last_snoc. }
  destruct (store_append_ok d raw s False high) as [Hok' _]; [lia|done|]. rewrite Ha in Hok'. cbn [snd] in Hok'.
  destruct (reopen_ok _ _ _ _ _ seen c Hok') as (s'' & Ho & _ & Hfiles & _). exists s''. split; [done|].
  assert (entries s'' = entries s') as Hent.
  { unfold open_with_cap in Ho. cbn [make_dir index_read load_index mbind result_bind] in Ho. rewrite Hidx, (json_roundtrip _ _ Hb) in Ho.
    injection Ho as <-. done. }
  rewrite Hent. split; [done|]. split; [done|].
  assert (new ∈ entries s') as Hin by (by eapply last_Some_elem_of).
  apply (get_listed good_disk s'' new); [done|by rewrite Hent|]. rewrite Hfiles. by apply Hnew.
Qed.

(** ** The store behind the SMTP handler *)

Definition store_sink : MailSink Store := fun s message =>
  let '(r, s) := store_append good_disk message s in (is_ok r, s).
#[local] Existing Instance store_sink.

Hypothesis to_vec_total : forall es, is_Some (to_vec es).

Lemma append_good s raw : (store_append good_disk raw s).1 = Ok tt.
Proof.
  unfold store_append. cbv zeta. cbn [good_disk on_eml write_file]. unfold write_index.
  destruct (to_vec_total (drop (N.to_nat (evict_count (vlen (entries s ++ [summary parse default_message (pad6 (next_id s)) raw])) (cap s)))
    (entries s ++ [summary parse default_message (pad6 (next_id s)) raw]))) as [b Hb].
  cbn [files entries cap next_id]. rewrite Hb. done.
Qed.

Definition captured (first : N) (mails : list Mail) : list MailSummary :=
  imap (fun i m => summary parse default_message (pad6 (first + N.of_nat i)) (unlines (m_lines m))) mails.

Lemma sink_append_good s raw : append s raw = (true, (store_append good_disk raw s).2).
Proof.
  unfold append, store_sink. pose proof (append_good s raw) as Hg. destruct (store_append good_disk raw s) as [r s'].
  cbn [fst snd] in *. by subst r.
Qed.

Lemma stored_captured s mails high : store_ok False high s -> high + vlen mails <= u64_max -> vlen mails <= cap s ->
  (exists high', store_ok False high' (stored s mails) /\ high' <= high + vlen mails) /\ next_id (stored s mails) = next_id s + vlen mails /\ cap (stored s mails) = cap s /\
  (exists older, entries (stored s mails) = older ++ captured (next_id s) mails) /\
  forall i m, mails !! i = Some m ->
    files (stored s mails) !! eml_path (pad6 (next_id s + N.of_nat i)) = Some (unlines (m_lines m)).
Proof.
  intros Hok. induction mails as [|m mails IH] using rev_ind; intros Hroom Hcap.
  { split; [exists high; split; [done|lia]|]. split; [change (vlen []) with 0; cbn; lia|]. split; [done|]. split; [exists (entries s); by rewrite app_nil_r|]. done. }
  rewrite vlen_app in *. change (vlen [m]) with 1 in *.
  destruct IH as ((h1 & Hok1 & Hh1) & Hn1 & Hc1 & (older & He1) & Hf1); [lia|lia|]. pose proof Hok1 as [[Hw1 _] _ _ _ _].
  unfold stored in *. rewrite foldl_app. cbn [foldl]. rewrite sink_append_good. cbn [snd].
  set (s1 := foldl _ s mails) in *. set (raw := unlines (m_lines m)).
  pose proof (append_good s1 raw) as Hg. destruct (store_append good_disk raw s1) as [r s2] eqn:Ea. cbn [fst snd] in *. subst r.
  destruct (store_append_ok good_disk raw s1 False h1) as [Hok2 _]; [lia|done|]. rewrite Ea in Hok2. cbn [snd] in Hok2.
  destruct (append_result False h1 good_disk raw s1 s2) as (He2 & Hc2 & Hn2 & Hnew & Hold & _); [lia|done|done|].
  assert (captured (next_id s) (mails ++ [m]) = captured (next_id s) mails ++ [summary parse default_message (pad6 (next_id s1)) raw]) as Hcap'.
  { unfold captured. rewrite imap_app. cbn. rewrite Nat.add_0_r, Hn1. by unfold vlen. }
  assert (length (captured (next_id s) mails) = length mails) as Hlen by apply length_imap.
  assert (exists older', entries s2 = older' ++ captured (next_id s) (mails ++ [m])) as (older' & He).
  { rewrite He2, Hcap', He1. rewrite <- app_assoc. rewrite drop_app_le; [by eexists|].
    rewrite !length_app, Hlen. cbn. unfold vlen in Hcap. lia. }
  split; [eexists; split; [done|lia]|]. split; [rewrite Hn2, Hn1; lia|]. split; [congruence|]. split; [by exists older'|].
  intros i m' Hi. destruct (decide (i < length mails)%nat) as [Hlt|Hge].
  - rewrite lookup_app_l in Hi by done. rewrite <- (Hf1 i m' Hi).
    assert (captured (next_id s) mails !! i = Some (summary parse default_message (pad6 (next_id s + N.of_nat i)) (unlines (m_lines m')))) as Hci.
    { unfold captured. by rewrite list_lookup_imap, Hi. }
    apply (Hold (summary parse default_message (pad6 (next_id s + N.of_nat i)) (unlines (m_lines m')))).
    + rewrite He1. apply elem_of_app. right. by eapply list_elem_of_lookup_2.
    + rewrite He, Hcap', app_assoc. apply elem_of_app. left. apply elem_of_app. right. by eapply list_elem_of_lookup_2.
  - apply lookup_snoc_Some in Hi as [[? _]|[-> <-]]; [done|].
    replace (next_id s + N.of_nat (length mails)) with (next_id s1) by (rewrite Hn1; done).
    apply Hnew. rewrite He, Hcap'. set_solver.
Qed.

(** C33. From the wire to the inbox. Whatever the store holds already, the mails a
    client sends in one connection are all acknowledged, are the newest entries of
    the inbox in the order they were sent, and opening each shows the message
    decoded from exactly the bytes that were sent. *)
Theorem inbox_end_to_end s hello mails junk e n (Hr : reached False (vlen mails) s) (Hh : LF ∉ hello) (Hm : Forall mail_ok mails)
    (Hcap : vlen mails <= cap s) :
  exists s' replies,
    handle_conn (mkWire (cmd "EHLO"%str hello ++ mjoin (sent <$> mails) ++ as_bytes (reply_line "QUIT"%str) ++ junk)
                   e (length replies + n) [], s)
    = Some (Ok tt, (mkWire junk e n replies, s')) /\
    answer false ∉ replies /\
    take (length mails) (store_list s') = rev (captured (next_id s) mails) /\
    forall i m, mails !! i = Some m ->
      store_get good_disk s' (pad6 (next_id s + N.of_nat i))
      = Ok (Some (detail parse default_message (pad6 (next_id s + N.of_nat i)) (unlines (m_lines m)))).
Proof.
  apply reached_ok in Hr as (high & Hok & Hroom). destruct (stored_captured s mails high Hok Hroom Hcap) as (_ & _ & _ & (older & He) & Hf).
  eexists (stored s mails), _. split; [by apply session_captured|]. split; [|split].
  - assert (forall mails (s : Store), answer false ∉ answers s mails) as Ha.
    { clear - to_vec_total json_roundtrip. intros mails. induction mails as [|m mails IH]; intros s; cbn [answers]; [apply not_elem_of_nil|].
      rewrite sink_append_good. rewrite not_elem_of_app, !not_elem_of_cons. split; [|split; [|split; [|apply IH]]];
        [intros [Hx _]%elem_of_replicate|intros Hx|intros Hx]; by vm_compute in Hx. }
    rewrite !not_elem_of_cons, not_elem_of_app, list_elem_of_singleton.
    split; [intros Hx; by vm_compute in Hx|]. split; [intros Hx; by vm_compute in Hx|]. split; [apply Ha|intros Hx; by vm_compute in Hx].
  - unfold store_list. rewrite He, rev_app_distr. rewrite take_app_le by (rewrite length_rev; unfold captured; rewrite length_imap; done).
    apply take_ge. rewrite length_rev. unfold captured. by rewrite length_imap.
  - intros i m Hi. apply (get_listed good_disk (stored s mails) (summary parse default_message (pad6 (next_id s + N.of_nat i)) (unlines (m_lines m)))); [done| |].
    + rewrite He. apply elem_of_app. right. eapply list_elem_of_lookup_2. unfold captured. by rewrite list_lookup_imap, Hi.
    + by apply Hf.
Qed.

End Store.

(** ** Examples *)

#[export] Instance summary_eq_dec : EqDecision MailSummary.
Proof. solve_decision. Defined.
#[export] Instance summary_countable : Countable MailSummary.
Proof.
  refine (inj_countable'
    (fun e => (ms_id e, ms_from e, ms_to e, ms_subject e, ms_date_epoch e, ms_read e))
    (fun '(i, f, t, s, d, r) => mkSummary i f t s d r) _). by intros [].
Defined.

(** A stand-in for the JSON library: one number per index. *)
Definition demo_to_vec (es : list MailSummary) : option bytes := Some [Npos (encode es)].
Definition demo_from_slice (b : bytes) : option (list MailSummary) :=
  match b with [Npos p] => decode p | _ => None end.
Definition demo_parse (raw : bytes) : option Message := None.
Definition demo_default : Message := mkMessage None None [] [] [] [] [] None None.

Lemma demo_json es b : demo_to_vec es = Some b -> demo_from_slice b = Some es.
Proof. intros [= <-]. cbn. apply decode_encode. Qed.

Definition demo_step : Store -> Event -> Store := step demo_parse demo_default demo_to_vec demo_from_slice.
Definition demo_empty : Store := mkStore 2 [] 0 ∅.
Definition full_disk : Disk := mkDisk (WriteFailed (IoOther 28) (Some "Sub"%str)) (fun _ => true) Written None None.
Definition no_rename : Disk := mkDisk Written (fun _ => true) Written (Some (IoOther 5)) None.
Definition all_seen : option (str -> bool) := Some (fun _ => true).

Definition demo_events : list Event :=
  [Append good_disk "one"%str; Append full_disk "two"%str; Append no_rename "three"%str; Reopen all_seen 2;
   Append good_disk "four"%str; MarkRead good_disk ["000000"%str]].
Definition demo_store : Store := foldl demo_step demo_empty demo_events.

Lemma demo_reached whole more : more < 100 -> reached demo_parse demo_default demo_to_vec demo_from_slice whole more demo_store.
Proof.
  intros Hm. assert (sees_all all_seen) as Hall by (eexists; split; [reflexivity|done]).
  exists ∅, all_seen, 2, demo_events, demo_empty. split; [done|]. split; [|split; [|split; [done|split; [done|]]]].
  - intros name n [b Hb]. by rewrite lookup_empty in Hb.
  - change (vlen demo_events) with 6. unfold u64_max. lia.
  - intros _. split; [exact Hall|]. repeat (apply Forall_cons; split; [first [exact Hall|exact I]|]). apply Forall_nil_2.
Qed.

Lemma store_safe_witness :
  ms_id <$> entries demo_store = ["000000"; "000003"]%str /\ NoDup (ms_id <$> entries demo_store) /\
  files demo_store !! eml_path (pad6 (next_id demo_store)) = None /\ next_id demo_store = 4.
Proof.
  assert (0 < 100) as Hlt by done.
  destruct (store_safe _ _ _ _ demo_json demo_store True good_disk (demo_reached True 0 Hlt)) as (Hnd & _ & _ & _ & Hfree & _).
  split; [by vm_compute|]. split; [exact Hnd|]. split; [exact (Hfree I)|]. by vm_compute.
Defined.

Lemma append_durable_witness :
  exists s', store_append demo_parse demo_default demo_to_vec good_disk "five"%str demo_store = (Ok tt, s') /\
    ms_id <$> entries s' = ["000003"; "000004"]%str /\
    exists s'', open_with_cap demo_from_slice (mkOpening None None None) 2 (files s') = Ok s'' /\ entries s'' = entries s'.
Proof.
  destruct (store_append demo_parse demo_default demo_to_vec good_disk "five"%str demo_store) as [r s'] eqn:E.
  assert (r = Ok tt) as -> by (by vm_compute in E; injection E as <- _).
  exists s'. split; [reflexivity|].
  assert (1 < 100) as Hlt by done. assert (0 < cap demo_store) as Hc by by vm_compute.
  destruct (append_durable _ _ _ _ demo_json demo_store good_disk "five"%str s' None 2 (demo_reached False 1 Hlt) E Hc)
    as (He & _ & s'' & Ho & Hs & _).
  split; [rewrite He; by vm_compute|]. exists s''. split; [exact Ho|exact Hs].
Defined.

Lemma inbox_end_to_end_witness :
  exists w s' replies,
    handle_conn (H := store_sink demo_parse demo_default demo_to_vec) (w, demo_store)
    = Some (Ok tt, (mkWire [] None 0 replies, s')) /\
    ms_id <$> take 2 (store_list s') = ["000005"; "000004"]%str /\
    store_get demo_parse demo_default good_disk s' "000004"%str
    = Ok (Some (detail demo_parse demo_default "000004"%str (unlines (m_lines demo_mail)))).
Proof.
  assert (Forall mail_ok [demo_mail; demo_mail]) as Hm.
  { assert (mail_ok demo_mail) by (split; [|split; [|split]]; [by apply contains_char_false| | |by vm_compute];
      repeat (apply Forall_cons; split); try done; by apply contains_char_false).
    apply Forall_cons; split; [done|]. apply Forall_cons; split; [done|]. apply Forall_nil_2. }
  assert (2 < 100) as Hlt by done. assert (LF ∉ "me"%str) as Hh by by apply contains_char_false.
  assert (vlen [demo_mail; demo_mail] <= cap demo_store) as Hc by by vm_compute.
  assert (forall es, is_Some (demo_to_vec es)) as Hv by (intros es; by eexists).
  destruct (inbox_end_to_end _ _ _ _ demo_json Hv demo_store "me"%str [demo_mail; demo_mail] [] None 0 (demo_reached False 2 Hlt) Hh Hm Hc)
    as (s' & replies & Hconn & _ & Htop & Hget).
  eexists _, s', replies. split; [exact Hconn|]. split; [|exact (Hget 0%nat demo_mail eq_refl)].
  change (take 2 (store_list s')) with (take (length [demo_mail; demo_mail]) (store_list s')). rewrite Htop. by vm_compute.
Defined.

(** Clearing the store and restarting gives its identifiers out again. *)
Lemma cleared_id_reused :
  let s1 := foldl demo_step demo_empty [Append good_disk "one"%str] in
  let s2 := foldl demo_step s1 [Clear good_disk; Reopen all_seen 2; Append good_disk "two"%str] in
  ms_id <$> entries s1 = ms_id <$> entries s2.
Proof. by vm_compute. Qed.

(** A crash between the eviction and the rewriting of the index leaves the evicted
    message listed without its file, and the new one a file that is not listed. *)
Lemma evicted_before_indexed :
  let s := foldl demo_step (mkStore 1 [] 0 ∅) [Append good_disk "one"%str; Append no_rename "two"%str; Reopen all_seen 1; Clear good_disk] in
  let s' := foldl demo_step (mkStore 1 [] 0 ∅) [Append good_disk "one"%str; Append no_rename "two"%str; Reopen all_seen 1] in
  store_get demo_parse demo_default good_disk s' "000000"%str = Err (MailIo "000000.eml"%str IoNotFound) /\
  files s !! "000001.eml"%str = Some "two"%str.
Proof. by vm_compute. Qed.

(** A restart that cannot list the directory counts from the index alone, and the next
    capture overwrites a message that is on the disk but not in the index. *)
Lemma unseen_overwritten :
  let s := foldl demo_step demo_empty [Append no_rename "one"%str; Reopen None 2] in
  let s' := demo_step s (Append good_disk "two"%str) in
  files s !! "000000.eml"%str = Some "one"%str /\ files s' !! "000000.eml"%str = Some "two"%str.
Proof. by vm_compute. Qed.
