(* ===== verification/ShellProfile.v ===== *)
(** * The PATH block of a shell profile

    [src/crates/orcker-platform/src/pure/shell_profile.rs]: the block orcker keeps
    between two marker lines of a shell's start-up file, as the text functions
    that insert, replace and remove it.  [path_block_exact] describes them on every
    file whose opening marker is not left without its closing one;
    [dangling_marker_loses_lines] is what happens on the others. *)

From S2P Require Import Prelude RustStr RustText RustPath.

Open Scope N_scope.

Inductive Shell := Zsh | Bash | Fish | Posix.
Inductive HostOs := MacOs | Linux.

Definition MARKER_OPEN : str := "# >>> orcker PATH >>>"%str.
Definition MARKER_CLOSE : str := "# <<< orcker PATH <<<"%str.

Definition detect_shell (shell_env_basename : str) : option Shell :=
  if str_eqb shell_env_basename "zsh" then Some Zsh
  else if str_eqb shell_env_basename "bash" then Some Bash
  else if str_eqb shell_env_basename "fish" then Some Fish
  else if str_eqb shell_env_basename "sh" || str_eqb shell_env_basename "dash" then Some Posix
  else None.

Definition rc_relpaths (shell : Shell) (os : HostOs) : list str :=
  match shell with
  | Zsh => [".zshrc"%str]
  | Bash => [".bashrc"%str; ".bash_profile"%str]
  | Fish => [".config/fish/config.fish"%str]
  | Posix => [".profile"%str]
  end.

Definition DQ : N := 34.

Definition esc_dq (special : list N) (s : str) : str :=
  mjoin ((fun c => if contains_char c special then [92; c] else [c]) <$> s).
Definition esc_posix_dq : str -> str := esc_dq ["\"%ch; "$"%ch; "`"%ch; DQ].
Definition esc_fish_dq : str -> str := esc_dq ["\"%ch; "$"%ch; DQ].

(** A double-quoted word. *)
Definition dq (s : str) : str := DQ :: s ++ [DQ].

(** The lines of the body. *)
Definition body_lines (shell : Shell) (bin_dir : str) : list str :=
  let raw_phprc := (fun d => path_join d "php-cli.ini"%str) <$> path_parent bin_dir in
  match shell with
  | Fish =>
      let dir := esc_fish_dq bin_dir in
      ["if not contains "%str ++ dq dir ++ " $PATH"%str;
       "    set -gx PATH "%str ++ dq dir ++ " $PATH"%str;
       "end"%str]
      ++ match raw_phprc with Some ini => ["set -gx PHPRC "%str ++ dq (esc_fish_dq ini)] | None => [] end
  | Zsh | Bash | Posix =>
      let dir := esc_posix_dq bin_dir in
      ["case "%str ++ dq ":$PATH:"%str ++ " in"%str;
       "  *"%str ++ dq (":"%str ++ dir ++ ":"%str) ++ "*) ;;"%str;
       "  *) export PATH="%str ++ dq (dir ++ ":$PATH"%str) ++ " ;;"%str;
       "esac"%str]
      ++ match raw_phprc with Some ini => ["export PHPRC="%str ++ dq (esc_posix_dq ini)] | None => [] end
  end.

Definition render_body (shell : Shell) (bin_dir : str) : str := join_char NL (body_lines shell bin_dir).

Definition render_block (shell : Shell) (bin_dir : str) : str :=
  MARKER_OPEN ++ [NL] ++ render_body shell bin_dir ++ [NL] ++ MARKER_CLOSE ++ [NL].

Definition is_open (line : str) : bool := str_eqb (trim_end line) MARKER_OPEN.
Definition is_close (line : str) : bool := str_eqb (trim_end line) MARKER_CLOSE.

(** The loop of [marker_line_indices] from line [i] on. *)
Fixpoint find_markers (i : nat) (open : option nat) (lines : list str) : option (nat * nat) :=
  match lines with
  | [] => None
  | line :: rest =>
      if is_open line && match open with None => true | Some _ => false end then find_markers (S i) (Some i) rest
      else if is_close line then
        match open with
        | Some o => if (o <? i)%nat then Some (o, i) else find_markers (S i) open rest
        | None => find_markers (S i) open rest
        end
      else find_markers (S i) open rest
  end.

Definition marker_line_indices (text : str) : option (nat * nat) := find_markers 0 None (split_char NL text).

Definition contains_block (existing : str) : bool := bool_decide (is_Some (marker_line_indices existing)).

Definition join_lines (lines : list str) (start stop : nat) : str := join_char NL (drop start (take stop lines)).

Definition is_nl (c : N) : bool := c =? NL.

Definition upsert_block (existing : str) (shell : Shell) (bin_dir : str) : str :=
  let block := render_block shell bin_dir in
  match marker_line_indices existing with
  | Some (open, close) =>
      let lines := split_char NL existing in
      let before := join_lines lines 0 open in
      let after := join_lines lines (close + 1) (length lines) in
      (if is_empty before then [] else before ++ [NL]) ++ block ++ after
  | None =>
      (if is_empty existing then [] else trim_end_matches is_nl existing ++ [NL; NL]) ++ block
  end.

Definition remove_block (existing : str) : str :=
  match marker_line_indices existing with
  | None => existing
  | Some (open, close) =>
      let lines := split_char NL existing in
      let start := if (0 <? open)%nat && match lines !! (open - 1)%nat with Some l => is_empty l | None => false end
                   then (open - 1)%nat else open in
      let before := join_lines lines 0 start in
      let after := join_lines lines (close + 1) (length lines) in
      match is_empty before, is_empty after with
      | true, true => []
      | true, false => after
      | false, true => if ends_with [NL] existing then before ++ [NL] else before
      | false, false => before ++ [NL] ++ after
      end
  end.

(** ** Markers *)

(** A file in which an opening marker comes with a closing one. *)
Definition well_marked (text : str) : Prop :=
  marker_line_indices text = None -> Forall (fun l => is_open l = false) (split_char NL text).

Lemma markers_in_block A o M c B i :
  Forall (fun l => is_open l = false) A -> is_open o = true ->
  Forall (fun l => is_close l = false) M -> is_open c = false -> is_close c = true ->
  find_markers i None (A ++ o :: M ++ c :: B) = Some (i + length A, i + length A + 1 + length M)%nat.
Proof.
  intros HA Ho HM Hc1 Hc2. revert i. induction HA as [|l A Hl HA IH]; intros i; cbn [app find_markers].
  - rewrite Ho. cbn [andb].
    assert (forall k j, (i < j)%nat -> k = j -> find_markers k (Some i) (M ++ c :: B) = Some (i, j + length M)%nat) as Hgo.
    { induction HM as [|m M Hm HM IHM]; intros k j Hj ->; cbn [app find_markers].
      - rewrite Hc1, Hc2. cbn [andb]. rewrite (proj2 (Nat.ltb_lt i j)) by done. by rewrite Nat.add_0_r.
      - rewrite andb_false_r, Hm. rewrite (IHM (S j) (S j)) by lia. apply (f_equal Some), (f_equal2 pair); cbn; lia. }
    rewrite (Hgo (S i) (S i)) by lia. apply (f_equal Some), (f_equal2 pair); cbn; lia.
  - rewrite Hl. cbn [andb]. destruct (is_close l); rewrite (IH (S i)); apply (f_equal Some), (f_equal2 pair); cbn; lia.
Qed.

Lemma markers_found i lines o c : find_markers i None lines = Some (o, c) ->
  exists A mo M mc B, lines = A ++ mo :: M ++ mc :: B /\ (o = i + length A)%nat /\ (c = i + length A + 1 + length M)%nat /\
    Forall (fun l => is_open l = false) A /\ is_open mo = true.
Proof.
  revert i. induction lines as [|l lines IH]; intros i; cbn [find_markers]; [done|].
  destruct (is_open l) eqn:Ho; cbn [andb].
  - assert (forall k, (i < k)%nat -> find_markers k (Some i) lines = Some (o, c) ->
      exists M mc B, lines = M ++ mc :: B /\ o = i /\ (c = k + length M)%nat) as Hgo.
    { clear IH. induction lines as [|m lines IH]; intros k Hk; cbn [find_markers]; [done|].
      rewrite andb_false_r. destruct (is_close m).
      - rewrite (proj2 (Nat.ltb_lt i k)) by done. intros [= <- <-]. exists [], m, lines. cbn. split; [done|]. split; [done|lia].
      - intros H. destruct (IH (S k)) as (M & mc & B & -> & -> & ->); [lia|done|]. exists (m :: M), mc, B. cbn. split; [done|]. split; [done|lia]. }
    intros H. destruct (Hgo (S i)) as (M & mc & B & -> & -> & ->); [lia|done|]. exists [], l, M, mc, B. cbn.
    split_and!; try done; lia.
  - intros H. assert (find_markers (S i) None lines = Some (o, c)) as H' by (by destruct (is_close l)).
    destruct (IH (S i) H') as (A & mo & M & mc & B & -> & -> & -> & HA & Hmo). exists (l :: A), mo, M, mc, B. cbn.
    split_and!; try done; try lia; by constructor.
Qed.

(** ** Blocks as lines *)

Definition block_lines (shell : Shell) (bin_dir : str) : list str :=
  MARKER_OPEN :: body_lines shell bin_dir ++ [MARKER_CLOSE].

Lemma body_ne shell d : body_lines shell d <> [].
Proof. by destruct shell. Qed.

Lemma render_block_lines shell d : render_block shell d = unlines (block_lines shell d).
Proof.
  unfold render_block, render_body, block_lines. rewrite unlines_cons. do 2 f_equal. cbn [app]. f_equal.
  rewrite unlines_app, <- join_lines_unlines by apply body_ne. by rewrite <- app_assoc.
Qed.

Lemma elem_of_esc c special s : c ∈ esc_dq special s -> c ∈ s \/ c = 92.
Proof.
  unfold esc_dq. intros (w & Hw & Hin)%list_elem_of_join. apply list_elem_of_fmap in Hin as (x & -> & Hx).
  destruct (contains_char x special); set_solver.
Qed.

Lemma elem_of_drop_while {A} (p : A -> bool) l x : x ∈ drop_while p l -> x ∈ l.
Proof. induction l as [|y l IH]; [done|]. cbn. destruct (p y); [|done]. intros Hx. right. by apply IH. Qed.

Lemma parent_no_nl d p : NL ∉ d -> path_parent d = Some p -> NL ∉ path_join p "php-cli.ini"%str.
Proof.
  intros Hd Hp. unfold path_parent in Hp. destruct (split_char slash d) as [|s0 segs] eqn:Es; [done|].
  assert (forall w, w ∈ s0 :: segs -> NL ∉ w) as Hseg.
  { intros w Hw Hn. rewrite <- Es in Hw. by eapply Hd, elem_of_split_char. }
  assert (NL ∉ p) as Hn.
  { destruct (drop_while blank_segment (rev segs)) as [|x above] eqn:Ed.
    - destruct (is_empty s0); [done|]. injection Hp as <-. apply not_elem_of_nil.
    - injection Hp as <-. destruct (_ && _); [by apply contains_char_false|]. intros Hc.
      apply (elem_of_join_char NL slash (s0 :: _)) in Hc as [?|(w & Hw & Hnw)]; [done|].
      eapply Hseg; [|exact Hnw]. apply elem_of_cons in Hw as [->|Hw]; [by left|right].
      apply elem_of_rev, elem_of_drop_while in Hw. apply elem_of_rev, (elem_of_drop_while blank_segment). rewrite Ed. by right. }
  unfold path_join. destruct (is_absolute _); [by apply contains_char_false|].
  destruct (_ || _); rewrite ?not_elem_of_app; split_and!; try done; by apply contains_char_false.
Qed.

Lemma no_nl_app (a b : str) : NL ∉ a -> NL ∉ b -> NL ∉ a ++ b.
Proof. intros Ha Hb [?|?]%elem_of_app; done. Qed.

Lemma esc_no_nl special s : NL ∉ s -> NL ∉ esc_dq special s.
Proof. intros Hs [?|?]%elem_of_esc; done. Qed.

Lemma dq_no_nl s : NL ∉ s -> NL ∉ dq s.
Proof. intros Hs. unfold dq. rewrite not_elem_of_cons, not_elem_of_app. split_and!; [done|done|by apply contains_char_false]. Qed.

Create HintDb no_nl.
#[export] Hint Resolve no_nl_app esc_no_nl dq_no_nl parent_no_nl : no_nl.
#[export] Hint Extern 3 (NL ∉ _) => by apply contains_char_false : no_nl.

Lemma block_no_nl shell d l : NL ∉ d -> l ∈ block_lines shell d -> NL ∉ l.
Proof.
  intros Hd. revert l. apply Forall_forall. unfold block_lines, body_lines.
  repeat (apply Forall_cons; split); [by apply contains_char_false|].
  apply Forall_app; split; [|apply Forall_singleton; by apply contains_char_false].
  destruct shell, (path_parent d) as [p|] eqn:Ep; cbn [fmap option_fmap option_map];
    repeat (apply Forall_app; split); repeat apply Forall_cons_2; try apply Forall_nil_2;
    unfold esc_posix_dq, esc_fish_dq; eauto 10 with no_nl.
Qed.

Lemma marker_head m c l : str_eqb (trim_end (c :: l)) (35 :: m) = true -> c = 35.
Proof.
  intros He%bool_decide_eq_true_1. unfold trim_end in He. destruct (trim_end_matches_prefix is_whitespace (c :: l)) as (k & Hk & _).
  rewrite He in Hk. by injection Hk.
Qed.

Lemma body_not_close shell d : Forall (fun l => is_close l = false) (body_lines shell d).
Proof.
  assert (forall c l, c <> 35 -> is_close (c :: l) = false) as Hc.
  { intros c l Hc. apply not_true_is_false. intros H. by apply marker_head in H. }
  unfold body_lines. destruct shell, (path_parent d); cbn [fmap option_fmap option_map];
    repeat (apply Forall_app; split); repeat apply Forall_cons_2; try apply Forall_nil_2; by apply Hc.
Qed.

(** ** The file around the block *)

(** What comes before and after the block of a file: whole lines, none an opening
    marker, and text. *)
Record around := mkAround { lines_before : list str; text_after : str }.

Definition around_ok (a : around) : Prop :=
  Forall (fun l => is_open l = false) (lines_before a) /\ (forall l, l ∈ lines_before a -> NL ∉ l) /\
  (lines_before a = [] \/ join_char NL (lines_before a) <> []).

Definition laid_out (a : around) (block : str) : str := unlines (lines_before a) ++ block ++ text_after a.

Lemma laid_out_markers a shell d : around_ok a -> NL ∉ d ->
  let lines := lines_before a ++ block_lines shell d ++ split_char NL (text_after a) in
  let o := length (lines_before a) in let c := (o + 1 + length (body_lines shell d))%nat in
  split_char NL (laid_out a (render_block shell d)) = lines /\
  marker_line_indices (laid_out a (render_block shell d)) = Some (o, c) /\
  join_lines lines 0 o = join_char NL (lines_before a) /\ join_lines lines (c + 1) (length lines) = text_after a.
Proof.
  intros (Hop & Hnl & _) Hd lines o c.
  assert (split_char NL (laid_out a (render_block shell d)) = lines) as Hs.
  { unfold laid_out. rewrite render_block_lines, split_unlines_app by done.
    by rewrite split_unlines_app by (intros l; by apply block_no_nl). }
  split; [done|]. unfold marker_line_indices. rewrite Hs. unfold lines, block_lines. cbn [app]. rewrite <- app_assoc. cbn [app].
  split. { rewrite markers_in_block; [done|done|by vm_compute|apply body_not_close|by vm_compute|by vm_compute]. }
  unfold join_lines. split.
  - unfold o. by rewrite take_app_length, drop_0.
  - rewrite firstn_all. rewrite drop_app_ge by (unfold c; lia).
    replace (c + 1 - length (lines_before a))%nat with (S (length (body_lines shell d) + 1)) by (unfold c, o; lia).
    cbn [drop]. rewrite drop_app_ge by lia.
    replace (length (body_lines shell d) + 1 - length (body_lines shell d))%nat with 1%nat by lia. cbn [drop]. apply join_split.
Qed.

Lemma upsert_laid_out a shell d shell' d' : around_ok a -> NL ∉ d ->
  upsert_block (laid_out a (render_block shell d)) shell' d' = laid_out a (render_block shell' d').
Proof.
  intros Ha Hd. destruct (laid_out_markers a shell d Ha Hd) as (Hs & Hm & Hb & Haf). unfold upsert_block. rewrite Hm, Hs.
  rewrite Hb, Haf. unfold laid_out. f_equal. destruct Ha as (_ & _ & [Hnil|Hne]); [by rewrite Hnil|].
  rewrite (proj2 (is_empty_false _)) by done. apply join_lines_unlines. intros Hn. apply Hne. by rewrite Hn.
Qed.

(** The file [existing] without its block, as [upsert_block] keeps it. *)
Definition kept_around (existing : str) : around :=
  match marker_line_indices existing with
  | Some (o, c) =>
      let lines := split_char NL existing in
      mkAround (if is_empty (join_lines lines 0 o) then [] else take o lines) (join_lines lines (c + 1) (length lines))
  | None => mkAround (if is_empty existing then [] else split_char NL (trim_end_matches is_nl existing) ++ [[]]) []
  end.

Lemma trimmed_lines e l : l ∈ split_char NL (trim_end_matches is_nl e) -> l ∈ split_char NL e.
Proof.
  destruct (trim_end_matches_prefix is_nl e) as (k & He & Hk). intros Hl. rewrite He. destruct k as [|c k].
  - by rewrite app_nil_r.
  - inv Hk. apply N.eqb_eq in H1 as ->. rewrite split_char_app_all. apply elem_of_app. by left.
Qed.

Lemma upsert_kept e : well_marked e ->
  around_ok (kept_around e) /\ forall shell d, upsert_block e shell d = laid_out (kept_around e) (render_block shell d).
Proof.
  intros Hw. unfold around_ok, kept_around, upsert_block, laid_out, well_marked in *.
  destruct (marker_line_indices e) as [[o c]|] eqn:Em.
  - cbn [lines_before text_after]. apply markers_found in Em as (A & mo & M & mc & B & Hl & -> & _ & HA & _). cbn [Nat.add].
    assert (join_lines (split_char NL e) 0 (length A) = join_char NL A) as ->.
    { unfold join_lines. by rewrite Hl, take_app_length, drop_0. }
    rewrite Hl, take_app_length. assert (forall l, l ∈ A -> NL ∉ l) as Hn.
    { intros l HlA. apply (split_char_no_sep NL e). rewrite Hl. apply elem_of_app. by left. }
    destruct (is_empty (join_char NL A)) eqn:E; [by split_and!; auto; intros ? ?%elem_of_nil|].
    apply is_empty_false in E. split_and!; auto. intros. f_equal. apply join_lines_unlines. by intros ->.
  - cbn [lines_before text_after]. specialize (Hw eq_refl). destruct (is_empty e) eqn:E.
    { split_and!; auto; [by intros ? ?%elem_of_nil|]. intros. cbn. by rewrite app_nil_r. }
    set (t := trim_end_matches is_nl e) in *. split_and!.
    + apply Forall_app. split; [|by apply Forall_singleton]. rewrite Forall_forall in Hw |- *.
      intros l Hl. apply Hw. by apply trimmed_lines.
    + intros l [Hl| ->%list_elem_of_singleton]%elem_of_app; [by eapply split_char_no_sep|apply not_elem_of_nil].
    + right. rewrite join_snoc_nil, join_split by apply split_char_ne. by destruct t.
    + intros. rewrite app_nil_r. f_equal. rewrite <- join_lines_unlines by (by destruct (split_char NL t)).
      rewrite join_snoc_nil, join_split by apply split_char_ne. by rewrite <- app_assoc.
Qed.

Lemma remove_appended e shell d : NL ∉ d -> marker_line_indices e = None -> well_marked e ->
  remove_block (upsert_block e shell d) =
  (let t := trim_end_matches is_nl e in if is_empty t then [] else t ++ [NL]).
Proof.
  intros Hd Hm Hw. destruct (upsert_kept e Hw) as [Ha Hu]. rewrite Hu.
  destruct (laid_out_markers _ shell d Ha Hd) as (Hs & Hi & Hb & Haf). unfold remove_block. rewrite Hi, Hs.
  unfold kept_around in *. rewrite Hm in *. cbn [lines_before text_after] in *.
  destruct (is_empty e) eqn:E.
  - apply is_empty_true in E as ->. cbn [length Nat.ltb Nat.leb andb app] in *. by rewrite Haf.
  - set (t := trim_end_matches is_nl e) in *. rewrite length_app in *. cbn [length] in *. rewrite Haf.
    replace (_ && _) with true; cycle 1.
    { symmetry. rewrite andb_true_iff, Nat.ltb_lt. split; [lia|].
      rewrite lookup_app_l, lookup_app_r by (rewrite ?length_app; cbn; lia).
      by replace (_ - _ - _)%nat with 0%nat by lia. }
    replace (join_lines _ 0 _) with t; cycle 1.
    { unfold join_lines. rewrite drop_0, <- app_assoc, Nat.add_sub, take_app_length. by rewrite join_split. }
    cbn [is_empty]. destruct (is_empty t); [done|]. unfold laid_out. cbn [text_after lines_before].
    replace (ends_with _ _) with true; [done|]. symmetry. apply ends_with_spec. unfold render_block.
    eexists. by rewrite app_nil_r, !app_assoc.
Qed.

Lemma laid_out_contains a shell d : around_ok a -> NL ∉ d -> contains_block (laid_out a (render_block shell d)) = true.
Proof.
  intros Ha Hd. unfold contains_block. destruct (laid_out_markers a shell d Ha Hd) as (_ & -> & _).
  by apply bool_decide_eq_true_2.
Qed.

(** What a shell reads between double quotes, when nothing in it is expanded and the
    quotes are not closed: a backslash quotes a special character. *)
Fixpoint dq_read (special : list N) (quoted : bool) (s : str) : option str :=
  match s with
  | [] => if quoted then None else Some []
  | c :: r =>
      if quoted then (if contains_char c special then cons c <$> dq_read special false r else None)
      else if c =? 92 then dq_read special true r
      else if contains_char c special then None else cons c <$> dq_read special false r
  end.

Lemma dq_read_esc special s : 92 ∈ special -> dq_read special false (esc_dq special s) = Some s.
Proof.
  intros H92. induction s as [|c s IH]; [done|].
  change (esc_dq special (c :: s)) with ((if contains_char c special then [92; c] else [c]) ++ esc_dq special s).
  destruct (contains_char c special) eqn:E; cbn [app dq_read].
  - by rewrite N.eqb_refl, E, IH.
  - destruct (N.eqb_spec c 92) as [->|]; [by apply contains_char_false in E|]. by rewrite E, IH.
Qed.

(** The PATH block of a start-up file. On a file whose opening marker is not left
    without its closing one: after an update the block is there; a second update, for
    the same or another shell or folder, gives what it would have given on the
    original, so updating twice changes nothing; removing a block that was added
    gives the file back but for its trailing newlines; and between the quotes of the
    block a shell reads exactly the folder's name, whatever characters it has. *)
Theorem path_block_exact e shell d shell' d' (Hd : NL ∉ d) (Hw : well_marked e) :
  contains_block (upsert_block e shell d) = true /\
  upsert_block (upsert_block e shell d) shell' d' = upsert_block e shell' d' /\
  (marker_line_indices e = None ->
   remove_block (upsert_block e shell d) =
   (let t := trim_end_matches is_nl e in if is_empty t then [] else t ++ [NL])) /\
  dq_read ["\"%ch; "$"%ch; "`"%ch; DQ] false (esc_posix_dq d) = Some d /\
  dq_read ["\"%ch; "$"%ch; DQ] false (esc_fish_dq d) = Some d.
Proof.
  destruct (upsert_kept e Hw) as [Ha Hu]. rewrite !Hu. split_and!.
  - by apply laid_out_contains.
  - by apply upsert_laid_out.
  - rewrite <- Hu. intros Hm. by apply remove_appended.
  - apply dq_read_esc. by left.
  - apply dq_read_esc. by left.
Qed.

Definition demo_profile : str := unlines ["alias ll='ls -l'"%str; []; "export A=1"%str; []; []].

Lemma path_block_exact_witness :
  contains_block (upsert_block demo_profile Zsh "/data/$x/bin"%str) = true /\
  remove_block (upsert_block demo_profile Zsh "/data/$x/bin"%str)
  = unlines ["alias ll='ls -l'"%str; []; "export A=1"%str] /\
  upsert_block (upsert_block demo_profile Zsh "/a/bin"%str) Fish "/data/$x/bin"%str
  = upsert_block demo_profile Fish "/data/$x/bin"%str.
Proof.
  assert (well_marked demo_profile) as Hw by (intros _; by repeat (apply Forall_cons_2; [by vm_compute|])).
  assert (NL ∉ "/data/$x/bin"%str) as H1 by by apply contains_char_false.
  assert (NL ∉ "/a/bin"%str) as H2 by by apply contains_char_false.
  destruct (path_block_exact demo_profile Zsh "/data/$x/bin"%str Zsh "/a/bin"%str H1 Hw) as (Hc & _ & Hr & _).
  destruct (path_block_exact demo_profile Zsh "/a/bin"%str Fish "/data/$x/bin"%str H2 Hw) as (_ & Hi & _).
  split; [exact Hc|]. split; [|exact Hi]. rewrite Hr by (by vm_compute). by vm_compute.
Defined.

(** On a file with an opening marker and no closing one, the block is appended, and
    the next update deletes every line between the stray marker and the new block. *)
Lemma dangling_marker_loses_lines :
  let e := unlines [MARKER_OPEN; "export KEEP=me"%str] in
  contains_str "export KEEP=me"%str (upsert_block e Zsh "/b"%str) = true /\
  contains_str "export KEEP=me"%str (upsert_block (upsert_block e Zsh "/b"%str) Zsh "/b"%str) = false /\
  contains_str "export KEEP=me"%str (remove_block (upsert_block e Zsh "/b"%str)) = false.
Proof. by vm_compute. Qed.
