(* ===== verification/SockAddr.v ===== *)
(** * Socket addresses as text

    [std::net::SocketAddr] with its [Display] and [FromStr], as far as
    [src/crates/orcker-platform] prints addresses into arguments and configuration
    files and reads them back.  IPv4 text reads back exactly; of IPv6 text only the
    definitions are used. *)

From S2P Require Import Prelude RustStr Net.

Open Scope N_scope.

#[export] Instance IpAddr_eq_dec : EqDecision IpAddr.
Proof. solve_decision. Defined.

(** The flow label of an IPv6 socket address is neither printed nor read. *)
Inductive SockAddr :=
| SockV4 (ip : Ipv4Addr) (port : N)
| SockV6 (ip : Ipv6Addr) (port scope_id : N).
#[export] Instance SockAddr_eq_dec : EqDecision SockAddr.
Proof. solve_decision. Defined.

Definition sock_ip (a : SockAddr) : IpAddr := match a with SockV4 ip _ => V4 ip | SockV6 ip _ _ => V6 ip end.
Definition sock_port (a : SockAddr) : N := match a with SockV4 _ p => p | SockV6 _ p _ => p end.

(** [Display]: the scope is printed when it is not zero. *)
Definition SockAddr_fmt (a : SockAddr) : str :=
  match a with
  | SockV4 ip port => Ipv4Addr_fmt ip ++ ":"%str ++ show_uint port
  | SockV6 ip port scope =>
      "["%str ++ Ipv6Addr_fmt ip ++ (if scope =? 0 then [] else "%"%str ++ show_uint scope) ++ "]:"%str ++ show_uint port
  end.

(** [Parser::read_given_char] *)
Definition read_char (c : N) (s : str) : option str :=
  match s with c' :: r => if c' =? c then Some r else None | [] => None end.

(** [read_number] with no limit on the digits. *)
Definition read_uint (max : N) : reader N := fun s => read_number 10 (length s) true max s.

Definition read_port : reader N := fun s => s ← read_char ":"%ch s; read_uint u16_max s.
Definition read_scope_id : reader N := fun s => s ← read_char "%"%ch s; read_uint u32_max s.

Definition read_socket_addr_v4 : reader SockAddr := fun s =>
  '(ip, s) ← read_ipv4_addr s;
  '(port, s) ← read_port s;
  Some (SockV4 ip port, s).

Definition read_socket_addr_v6 : reader SockAddr := fun s =>
  s ← read_char "["%ch s;
  '(ip, s) ← read_ipv6_addr s;
  let '(scope, s) := default (0, s) (read_scope_id s) in
  s ← read_char "]"%ch s;
  '(port, s) ← read_port s;
  Some (SockV6 ip port scope, s).

(** [<SocketAddr as FromStr>::from_str] *)
Definition parse_sock_addr (s : str) : option SockAddr :=
  let r := match read_socket_addr_v4 s with Some x => Some x | None => read_socket_addr_v6 s end in
  match r with Some (a, []) => Some a | _ => None end.

(** [<Ipv4Addr as FromStr>::from_str] *)
Definition parse_ipv4 (s : str) : option Ipv4Addr :=
  if (15 <? length s)%nat then None
  else match read_ipv4_addr s with Some (a, []) => Some a | _ => None end.

(** ** Numbers read back *)

(** Text no decimal number runs into. *)
Definition ends_number (r : str) : Prop := match r with [] => True | c :: _ => radix_digit 10 c = None end.

Lemma radix_digit_digit c : is_ascii_digit c = true -> radix_digit 10 c = Some (c - 48).
Proof.
  intros Hd. unfold radix_digit, hex_digit. rewrite Hd. unfold is_ascii_digit, in_range in Hd. bprop.
  destruct (c - 48 <? 10) eqn:E; [done|]. bprop. lia.
Qed.

Lemma read_digits_spec max ds k acc v r :
  Forall (fun c => is_ascii_digit c = true) ds -> parse_digits max acc ds = Some v -> ends_number r ->
  read_digits 10 k acc (ds ++ r) = ((k + length ds)%nat, v, r).
Proof.
  intros Hds. revert k acc. induction Hds as [|c ds Hc Hds IH]; intros k acc Hp Hr; cbn [app parse_digits] in *.
  - injection Hp as ->. rewrite Nat.add_0_r. destruct r as [|c r]; [done|]. cbn in *. by rewrite Hr.
  - rewrite Hc in Hp. destruct (_ <=? max); [|done]. cbn [read_digits]. rewrite radix_digit_digit by done.
    unfold digit_val in Hp. rewrite (IH (S k) _ Hp Hr). cbn [length]. by rewrite Nat.add_succ_r.
Qed.

Lemma show_uint_read n r : ends_number r ->
  read_digits 10 0 0 (show_uint n ++ r) = (length (show_uint n), n, r).
Proof.
  intros Hr. apply (read_digits_spec n); [apply show_uint_digits| |done].
  rewrite <- parse_uint_digits by (apply show_uint_digits || apply show_uint_ne). by apply parse_show_uint.
Qed.

Lemma read_uint_show max n r : n <= max -> ends_number r -> read_uint max (show_uint n ++ r) = Some (n, r).
Proof.
  intros Hn Hr. unfold read_uint, read_number. rewrite show_uint_read by done. pose proof (show_uint_ne n) as Hne.
  assert ((length (show_uint n ++ r) <? length (show_uint n))%nat = false) as -> by (rewrite length_app; apply Nat.ltb_ge; lia).
  destruct (show_uint n) as [|c ds] eqn:E; [done|]. cbn [length Nat.eqb negb andb].
  destruct (N.leb_spec n max); [done|lia].
Qed.

(** Octets, by inspection of the 256 of them. *)
Definition octet_text_ok (n : N) : bool :=
  let s := show_uint n in
  (length s <=? 3)%nat && (negb (match s with c :: _ => c =? "0"%ch | [] => false end) || (length s =? 1)%nat).

Lemma octets_ok n : n < 256 -> octet_text_ok n = true.
Proof.
  intros Hn. assert (Forall (fun n => octet_text_ok n = true) (N.of_nat <$> seq 0 256)) as H.
  { apply Forall_forall. intros x Hx. apply (list.Forall_forall (fun n => octet_text_ok n = true) (N.of_nat <$> seq 0 256)); [|done].
    apply (bool_decide_unpack _). by vm_compute. }
  rewrite Forall_forall in H. apply H. apply list_elem_of_fmap. exists (N.to_nat n). split; [lia|]. apply elem_of_seq. lia.
Qed.

Lemma read_octet_show n r : n < 256 -> ends_number r -> read_number 10 3 false 255 (show_uint n ++ r) = Some (n, r).
Proof.
  intros Hn Hr. unfold read_number. rewrite show_uint_read by done. pose proof (octets_ok n Hn) as Ho. unfold octet_text_ok in Ho.
  pose proof (show_uint_ne n) as Hne. destruct (show_uint n) as [|c ds] eqn:E; [done|]. cbn [app].
  set (len := length (c :: ds)) in *. assert (len <> 0%nat) by done. apply andb_true_iff in Ho as [H3 H0].
  apply Nat.leb_le in H3. rewrite (proj2 (Nat.ltb_ge 3 len)) by lia. rewrite (proj2 (Nat.eqb_neq len 0)) by lia.
  assert (negb false && (c =? "0"%ch) && (1 <? len)%nat = false) as ->.
  { cbn [negb andb]. destruct (c =? _); [|done]. apply Nat.eqb_eq in H0. apply Nat.ltb_ge. lia. }
  destruct (N.leb_spec n 255); [done|lia].
Qed.

Lemma read_ipv4_show a r : v4_valid a -> ends_number r -> read_ipv4_addr (Ipv4Addr_fmt a ++ r) = Some (a, r).
Proof.
  intros (Ha & Hb & Hc & Hd) Hr. unfold read_ipv4_addr, read_octet, read_separator, Ipv4Addr_fmt, join_char.
  repeat (rewrite <- app_assoc; cbn [app]).
  do 3 (rewrite read_octet_show by done; rewrite N.eqb_refl). rewrite read_octet_show by done. by destruct a.
Qed.

Lemma parse_sock_v4 a port : v4_valid a -> port <= u16_max -> parse_sock_addr (SockAddr_fmt (SockV4 a port)) = Some (SockV4 a port).
Proof.
  intros Ha Hp. unfold parse_sock_addr, read_socket_addr_v4, SockAddr_fmt. rewrite read_ipv4_show by done. cbn [mbind option_bind].
  unfold read_port, read_char. cbn [app mbind option_bind]. rewrite <- (app_nil_r (show_uint port)).
  by rewrite N.eqb_refl; cbn [mbind option_bind]; rewrite read_uint_show.
Qed.

Lemma parse_ip_v4 a : v4_valid a -> parse_ip (Ipv4Addr_fmt a) = Some (V4 a).
Proof. intros Ha. unfold parse_ip. rewrite <- (app_nil_r (Ipv4Addr_fmt a)). by rewrite read_ipv4_show. Qed.

Lemma parse_ipv4_show a : v4_valid a -> parse_ipv4 (Ipv4Addr_fmt a) = Some a.
Proof.
  intros Ha. unfold parse_ipv4. destruct (Nat.ltb_spec 15 (length (Ipv4Addr_fmt a))) as [Hl|_].
  - exfalso. destruct Ha as (H1 & H2 & H3 & H4). unfold Ipv4Addr_fmt, join_char in Hl.
    assert (forall n, n < 256 -> (length (show_uint n) <= 3)%nat) as Hlen.
    { intros n Hn. pose proof (octets_ok n Hn) as Ho. unfold octet_text_ok in Ho. apply andb_true_iff in Ho as [Ho _]. by apply Nat.leb_le. }
    repeat (rewrite length_app in Hl; cbn [length] in Hl).
    pose proof (Hlen _ H1). pose proof (Hlen _ H2). pose proof (Hlen _ H3). pose proof (Hlen _ H4). lia.
  - rewrite <- (app_nil_r (Ipv4Addr_fmt a)). by rewrite read_ipv4_show.
Qed.

Example sock_v6_examples :
  parse_sock_addr "[::1%3]:53"%str = Some (SockV6 (mkV6 [0; 0; 0; 0; 0; 0; 0; 1]) 53 3) /\
  SockAddr_fmt (SockV6 (mkV6 [0; 0; 0; 0; 0; 0; 0; 1]) 53 3) = "[::1%3]:53"%str /\
  parse_sock_addr "127.0.0.1:65536"%str = None /\ parse_sock_addr "127.0.0.1:053"%str = Some (SockV4 (mkV4 127 0 0 1) 53).
Proof. by vm_compute. Qed.
