(* ===== verification/HelperArgv.v ===== *)
(** * Invocations of the privileged helper

    [src/crates/orcker-platform/src/helper.rs], the fingerprints of
    [trust_store.rs] and the conversion of [src/bin/orcker-helper/src/cli.rs]: the
    operations the daemon may ask of the helper, as argument vectors.
    [argv_roundtrip]: what is written is read back, and an operation is never read
    as another.  [dangling_element_ignored] is the one way in which the parser is
    laxer than it says. *)

From S2P Require Import Prelude RustStr Utf8 Net SockAddr.

Open Scope N_scope.

(** A native string or path, as its bytes. *)
Definition OsString := list N.
Definition to_str (o : OsString) : option str := from_utf8 o.
Definition os (s : str) : OsString := as_bytes s.

(** The hex crate. *)
Class Hex := { hex_encode : list N -> str; hex_decode : str -> option (list N) }.

Definition lower_hex (c : N) : bool := is_ascii_digit c || in_range "a"%ch "f"%ch c.

Class HexLaws `{Hex} := {
  hex_decode_encode bs : Forall (fun b => b < 256) bs -> hex_decode (hex_encode bs) = Some bs;
  hex_encode_decode s bs : Forall (fun c => lower_hex c = true) s -> hex_decode s = Some bs ->
    hex_encode bs = s /\ Forall (fun b => b < 256) bs;
  hex_encode_len bs : length (hex_encode bs) = (2 * length bs)%nat;
  hex_encode_chars bs : Forall (fun b => b < 256) bs -> Forall (fun c => lower_hex c = true) (hex_encode bs)
}.

(** ** Fingerprints *)

Record CaFingerprint := mkFp { fp_bytes : list N }.
Definition fp_ok (fp : CaFingerprint) : Prop := length (fp_bytes fp) = 32%nat /\ Forall (fun b => b < 256) (fp_bytes fp).

(** ** Operations *)

Definition INSTALL_CA : str := "install-ca"%str.
Definition UNINSTALL_CA : str := "uninstall-ca"%str.
Definition INSTALL_RESOLVER : str := "install-resolver"%str.
Definition UNINSTALL_RESOLVER : str := "uninstall-resolver"%str.
Definition SETCAP : str := "setcap"%str.
Definition INSTALL_PORT_REDIRECT : str := "install-port-redirect"%str.
Definition UNINSTALL_PORT_REDIRECT : str := "uninstall-port-redirect"%str.
Definition INSTALL_LAN_PORT_REDIRECT : str := "install-lan-port-redirect"%str.
Definition UNINSTALL_LAN_PORT_REDIRECT : str := "uninstall-lan-port-redirect"%str.

Inductive ArgvParseError :=
| ArgvEmpty
| UnknownOp (op : OsString)
| MissingFlag (op flag : str)
| UnknownFlag (op : str) (flag : OsString)
| MissingValue (flag : str)
| BadFingerprint
| BadAddr (value : OsString)
| BadPort (flag : str) (value : OsString)
| Trailing (arg : OsString)
| NonUtf8 (flag : str).

Inductive HelperInvocation :=
| InstallCa (ca_pem_path : OsString) (fp : CaFingerprint)
| UninstallCa (fp : CaFingerprint)
| InstallResolver (tld : str) (addr : SockAddr)
| UninstallResolver (tld : str)
| Setcap (daemon_binary : OsString)
| InstallPortRedirect (http_from http_to https_from https_to : N)
| UninstallPortRedirect
| InstallLanPortRedirect (lan_ip : Ipv4Addr) (http_from http_to https_from https_to : N)
| UninstallLanPortRedirect.

Section argv.
Context `{Hex}.

Definition to_hex (fp : CaFingerprint) : str := hex_encode (fp_bytes fp).

Definition from_hex (s : str) : result unit CaFingerprint :=
  if negb (len s =? 64) || existsb (fun c => negb (is_ascii_hexdigit c) || is_ascii_uppercase c) s then Err tt
  else match hex_decode s with
       | Some bs => if (length bs =? 32)%nat then Ok (mkFp bs) else Err tt
       | None => Err tt
       end.

(** ** Writing *)

Definition to_argv (inv : HelperInvocation) : list OsString :=
  match inv with
  | InstallCa pem fp => [os INSTALL_CA; os "--pem"%str; pem; os "--fingerprint"%str; os (to_hex fp)]
  | UninstallCa fp => [os UNINSTALL_CA; os "--fingerprint"%str; os (to_hex fp)]
  | InstallResolver tld addr => [os INSTALL_RESOLVER; os "--tld"%str; os tld; os "--addr"%str; os (SockAddr_fmt addr)]
  | UninstallResolver tld => [os UNINSTALL_RESOLVER; os "--tld"%str; os tld]
  | Setcap binary => [os SETCAP; os "--binary"%str; binary]
  | InstallPortRedirect hf ht sf st =>
      [os INSTALL_PORT_REDIRECT; os "--http-from"%str; os (show_uint hf); os "--http-to"%str; os (show_uint ht);
       os "--https-from"%str; os (show_uint sf); os "--https-to"%str; os (show_uint st)]
  | UninstallPortRedirect => [os UNINSTALL_PORT_REDIRECT]
  | InstallLanPortRedirect ip hf ht sf st =>
      [os INSTALL_LAN_PORT_REDIRECT; os "--lan-ip"%str; os (Ipv4Addr_fmt ip);
       os "--http-from"%str; os (show_uint hf); os "--http-to"%str; os (show_uint ht);
       os "--https-from"%str; os (show_uint sf); os "--https-to"%str; os (show_uint st)]
  | UninstallLanPortRedirect => [os UNINSTALL_LAN_PORT_REDIRECT]
  end.

(** ** Reading *)

Definition next_pair (iter : list OsString) : option (OsString * OsString) * list OsString :=
  match iter with
  | flag :: value :: rest => (Some (flag, value), rest)
  | [_] | [] => (None, [])
  end.

Definition require_utf8 (value : OsString) (flag : str) : result ArgvParseError str := ok_or (NonUtf8 flag) (to_str value).

Definition parse_fingerprint (value : OsString) : result ArgvParseError CaFingerprint :=
  s ← ok_or BadFingerprint (to_str value);
  map_err (fun _ => BadFingerprint) (from_hex s).

Definition parse_port (value : OsString) (flag : str) : result ArgvParseError N :=
  ok_or (BadPort flag value) (s ← to_str value; parse_uint u16_max s).

Definition v4_is_unspecified (ip : Ipv4Addr) : bool := bool_decide (ip = mkV4 0 0 0 0).

Definition parse_lan_ip (value : OsString) : result ArgvParseError Ipv4Addr :=
  ok_or (BadAddr value)
    (s ← to_str value;
     ip ← parse_ipv4 s;
     if negb (v4_is_loopback ip) && negb (v4_is_unspecified ip) then Some ip else None).

Definition flag_is (flag : OsString) (name : str) : bool := bool_decide (to_str flag = Some name).

(** The [while let] loop over the pairs, then the check for what is left. *)
Fixpoint pairs_loop {A} (fuel : nat) (set : OsString -> OsString -> A -> result ArgvParseError A) (acc : A)
    (iter : list OsString) : result ArgvParseError A :=
  match fuel with
  | O => Ok acc
  | S fuel =>
      match next_pair iter with
      | (Some (flag, value), iter) => acc ← set flag value acc; pairs_loop fuel set acc iter
      | (None, iter) => match iter with trailing :: _ => Err (Trailing trailing) | [] => Ok acc end
      end
  end.

Definition parse_pairs {A} (set : OsString -> OsString -> A -> result ArgvParseError A) (acc : A) (rest : list OsString)
  : result ArgvParseError A := pairs_loop (S (length rest)) set acc rest.

Definition parse_install_ca (rest : list OsString) : result ArgvParseError HelperInvocation :=
  '(pem, fp) ← parse_pairs (fun flag value '(pem, fp) =>
      if flag_is flag "--pem"%str then Ok (Some value, fp)
      else if flag_is flag "--fingerprint"%str then f ← parse_fingerprint value; Ok (pem, Some f)
      else Err (UnknownFlag INSTALL_CA flag)) (None, None) rest;
  pem ← ok_or (MissingFlag INSTALL_CA "--pem"%str) pem;
  fp ← ok_or (MissingFlag INSTALL_CA "--fingerprint"%str) fp;
  Ok (InstallCa pem fp).

Definition parse_uninstall_ca (rest : list OsString) : result ArgvParseError HelperInvocation :=
  fp ← parse_pairs (fun flag value (fp : option CaFingerprint) =>
      if flag_is flag "--fingerprint"%str then f ← parse_fingerprint value; Ok (Some f)
      else Err (UnknownFlag UNINSTALL_CA flag)) None rest;
  fp ← ok_or (MissingFlag UNINSTALL_CA "--fingerprint"%str) fp;
  Ok (UninstallCa fp).

Definition parse_install_resolver (rest : list OsString) : result ArgvParseError HelperInvocation :=
  '(tld, addr) ← parse_pairs (fun flag value '(tld, addr) =>
      if flag_is flag "--tld"%str then t ← require_utf8 value "--tld"%str; Ok (Some t, addr)
      else if flag_is flag "--addr"%str then
        s ← require_utf8 value "--addr"%str;
        a ← ok_or (BadAddr value) (parse_sock_addr s);
        Ok (tld, Some a)
      else Err (UnknownFlag INSTALL_RESOLVER flag)) (None, None) rest;
  tld ← ok_or (MissingFlag INSTALL_RESOLVER "--tld"%str) tld;
  addr ← ok_or (MissingFlag INSTALL_RESOLVER "--addr"%str) addr;
  Ok (InstallResolver tld addr).

Definition parse_uninstall_resolver (rest : list OsString) : result ArgvParseError HelperInvocation :=
  tld ← parse_pairs (fun flag value (tld : option str) =>
      if flag_is flag "--tld"%str then t ← require_utf8 value "--tld"%str; Ok (Some t)
      else Err (UnknownFlag UNINSTALL_RESOLVER flag)) None rest;
  tld ← ok_or (MissingFlag UNINSTALL_RESOLVER "--tld"%str) tld;
  Ok (UninstallResolver tld).

Definition parse_setcap (rest : list OsString) : result ArgvParseError HelperInvocation :=
  binary ← parse_pairs (fun flag value (binary : option OsString) =>
      if flag_is flag "--binary"%str then Ok (Some value)
      else Err (UnknownFlag SETCAP flag)) None rest;
  binary ← ok_or (MissingFlag SETCAP "--binary"%str) binary;
  Ok (Setcap binary).

(** The four ports both redirect operations collect. *)
Record Ports4 := mkPorts4 { o_http_from : option N; o_http_to : option N; o_https_from : option N; o_https_to : option N }.

Definition set_port (flag value : OsString) (p : Ports4) : option (result ArgvParseError Ports4) :=
  if flag_is flag "--http-from"%str then
    Some (n ← parse_port value "--http-from"%str; Ok (mkPorts4 (Some n) (o_http_to p) (o_https_from p) (o_https_to p)))
  else if flag_is flag "--http-to"%str then
    Some (n ← parse_port value "--http-to"%str; Ok (mkPorts4 (o_http_from p) (Some n) (o_https_from p) (o_https_to p)))
  else if flag_is flag "--https-from"%str then
    Some (n ← parse_port value "--https-from"%str; Ok (mkPorts4 (o_http_from p) (o_http_to p) (Some n) (o_https_to p)))
  else if flag_is flag "--https-to"%str then
    Some (n ← parse_port value "--https-to"%str; Ok (mkPorts4 (o_http_from p) (o_http_to p) (o_https_from p) (Some n)))
  else None.

Definition parse_install_port_redirect (rest : list OsString) : result ArgvParseError HelperInvocation :=
  p ← parse_pairs (fun flag value p =>
      default (Err (UnknownFlag INSTALL_PORT_REDIRECT flag)) (set_port flag value p)) (mkPorts4 None None None None) rest;
  let miss flag := MissingFlag INSTALL_PORT_REDIRECT flag in
  hf ← ok_or (miss "--http-from"%str) (o_http_from p);
  ht ← ok_or (miss "--http-to"%str) (o_http_to p);
  sf ← ok_or (miss "--https-from"%str) (o_https_from p);
  st ← ok_or (miss "--https-to"%str) (o_https_to p);
  Ok (InstallPortRedirect hf ht sf st).

Definition parse_uninstall_port_redirect (rest : list OsString) : result ArgvParseError HelperInvocation :=
  match rest with trailing :: _ => Err (Trailing trailing) | [] => Ok UninstallPortRedirect end.

Definition parse_install_lan_port_redirect (rest : list OsString) : result ArgvParseError HelperInvocation :=
  '(ip, p) ← parse_pairs (fun flag value '(ip, p) =>
      if flag_is flag "--lan-ip"%str then i ← parse_lan_ip value; Ok (Some i, p)
      else p ← default (Err (UnknownFlag INSTALL_LAN_PORT_REDIRECT flag)) (set_port flag value p); Ok (ip, p))
    (None, mkPorts4 None None None None) rest;
  let miss flag := MissingFlag INSTALL_LAN_PORT_REDIRECT flag in
  ip ← ok_or (miss "--lan-ip"%str) ip;
  hf ← ok_or (miss "--http-from"%str) (o_http_from p);
  ht ← ok_or (miss "--http-to"%str) (o_http_to p);
  sf ← ok_or (miss "--https-from"%str) (o_https_from p);
  st ← ok_or (miss "--https-to"%str) (o_https_to p);
  Ok (InstallLanPortRedirect ip hf ht sf st).

Definition parse_uninstall_lan_port_redirect (rest : list OsString) : result ArgvParseError HelperInvocation :=
  match rest with trailing :: _ => Err (Trailing trailing) | [] => Ok UninstallLanPortRedirect end.

Definition from_argv (argv : list OsString) : result ArgvParseError HelperInvocation :=
  match argv with
  | [] => Err ArgvEmpty
  | head :: rest =>
      op ← ok_or (UnknownOp head) (to_str head);
      if str_eqb op INSTALL_CA then parse_install_ca rest
      else if str_eqb op UNINSTALL_CA then parse_uninstall_ca rest
      else if str_eqb op INSTALL_RESOLVER then parse_install_resolver rest
      else if str_eqb op UNINSTALL_RESOLVER then parse_uninstall_resolver rest
      else if str_eqb op SETCAP then parse_setcap rest
      else if str_eqb op INSTALL_PORT_REDIRECT then parse_install_port_redirect rest
      else if str_eqb op UNINSTALL_PORT_REDIRECT then parse_uninstall_port_redirect rest
      else if str_eqb op INSTALL_LAN_PORT_REDIRECT then parse_install_lan_port_redirect rest
      else if str_eqb op UNINSTALL_LAN_PORT_REDIRECT then parse_uninstall_lan_port_redirect rest
      else Err (UnknownOp head)
  end.

(** The tag each operation is written with. *)
Definition invocation_tag (inv : HelperInvocation) : str :=
  match inv with
  | InstallCa _ _ => INSTALL_CA
  | UninstallCa _ => UNINSTALL_CA
  | InstallResolver _ _ => INSTALL_RESOLVER
  | UninstallResolver _ => UNINSTALL_RESOLVER
  | Setcap _ => SETCAP
  | InstallPortRedirect _ _ _ _ => INSTALL_PORT_REDIRECT
  | UninstallPortRedirect => UNINSTALL_PORT_REDIRECT
  | InstallLanPortRedirect _ _ _ _ _ => INSTALL_LAN_PORT_REDIRECT
  | UninstallLanPortRedirect => UNINSTALL_LAN_PORT_REDIRECT
  end.

(** ** Values that exist in the source *)

Definition scalars (s : str) : Prop := Forall (fun c => is_scalar c = true) s.

Definition addr_ok (a : SockAddr) : Prop :=
  match a with
  | SockV4 ip port => v4_valid ip /\ port <= u16_max
  | SockV6 _ _ _ => scalars (SockAddr_fmt a) /\ parse_sock_addr (SockAddr_fmt a) = Some a
  end.

Definition inv_ok (inv : HelperInvocation) : Prop :=
  match inv with
  | InstallCa _ fp | UninstallCa fp => fp_ok fp
  | InstallResolver tld addr => scalars tld /\ addr_ok addr
  | UninstallResolver tld => scalars tld
  | Setcap _ | UninstallPortRedirect | UninstallLanPortRedirect => True
  | InstallPortRedirect hf ht sf st => Forall (fun p => p <= u16_max) [hf; ht; sf; st]
  | InstallLanPortRedirect ip hf ht sf st =>
      v4_valid ip /\ v4_is_loopback ip = false /\ ip <> mkV4 0 0 0 0 /\ Forall (fun p => p <= u16_max) [hf; ht; sf; st]
  end.

(** ** Reading back *)

Lemma to_str_os s : scalars s -> to_str (os s) = Some s.
Proof. apply from_utf8_as_bytes. Qed.

Lemma ascii_scalars s : Forall (fun c => is_ascii_digit c = true \/ c < 128) s -> scalars s.
Proof.
  intros Hs. eapply Forall_impl; [exact Hs|]. intros c Hc. cbn in Hc. unfold is_scalar. assert (c < 128) as H128.
  { destruct Hc as [Hc|]; [|done]. unfold is_ascii_digit, in_range in Hc. bprop. lia. }
  apply orb_true_iff. left. apply N.ltb_lt. lia.
Qed.

Lemma show_scalars n : scalars (show_uint n).
Proof. apply ascii_scalars. eapply Forall_impl; [apply show_uint_digits|]. auto. Qed.

Lemma scalars_app a b : scalars a -> scalars b -> scalars (a ++ b).
Proof. intros. by apply Forall_app. Qed.

Lemma scalars_cons c b : is_scalar c = true -> scalars b -> scalars (c :: b).
Proof. intros. by apply Forall_cons. Qed.

Lemma v4_scalars ip : scalars (Ipv4Addr_fmt ip).
Proof.
  unfold Ipv4Addr_fmt, join_char.
  repeat (apply scalars_app; [apply show_scalars|]; apply scalars_cons; [done|]). apply show_scalars.
Qed.

Lemma addr_reads a : addr_ok a -> to_str (os (SockAddr_fmt a)) = Some (SockAddr_fmt a) /\ parse_sock_addr (SockAddr_fmt a) = Some a.
Proof.
  destruct a as [ip port|ip port scope]; cbn [addr_ok].
  - intros [Hip Hp]. split; [|by apply parse_sock_v4]. apply to_str_os. cbn [SockAddr_fmt].
    apply scalars_app; [apply v4_scalars|]. apply scalars_cons; [done|apply show_scalars].
  - intros [Hs Hp]. split; [by apply to_str_os|done].
Qed.

Lemma parse_port_show p flag : p <= u16_max -> parse_port (os (show_uint p)) flag = Ok p.
Proof. intros Hp. unfold parse_port. rewrite to_str_os by apply show_scalars. cbn [mbind option_bind]. by rewrite parse_show_uint. Qed.

Lemma parse_lan_ip_show ip : v4_valid ip -> v4_is_loopback ip = false -> ip <> mkV4 0 0 0 0 ->
  parse_lan_ip (os (Ipv4Addr_fmt ip)) = Ok ip.
Proof.
  intros Hv Hl Hu. unfold parse_lan_ip. rewrite to_str_os by apply v4_scalars. cbn [mbind option_bind].
  rewrite parse_ipv4_show by done. cbn [mbind option_bind].
  unfold v4_is_unspecified. by rewrite Hl, bool_decide_eq_false_2.
Qed.
End argv.

Section laws.
Context `{Hh : Hex} {HL : HexLaws}.

Lemma lower_hex_props c : lower_hex c = true -> is_ascii_hexdigit c = true /\ is_ascii_uppercase c = false /\ c < 128.
Proof.
  unfold lower_hex, is_ascii_hexdigit, is_ascii_uppercase, is_ascii_digit, in_range. intros Hc.
  assert (48 <= c <= 57 \/ 97 <= c <= 102) as Hr by (bprop; lia).
  split; [by rewrite Hc|]. split; [|lia]. apply andb_false_iff. rewrite !N.leb_gt. cbn. lia.
Qed.

Lemma to_hex_lower fp : fp_ok fp -> Forall (fun c => lower_hex c = true) (to_hex fp).
Proof. intros [_ Hb]. by apply hex_encode_chars. Qed.

Lemma to_hex_scalars fp : fp_ok fp -> scalars (to_hex fp).
Proof.
  intros Hf. apply ascii_scalars. eapply Forall_impl; [by apply to_hex_lower|]. intros c Hc. right. by apply lower_hex_props.
Qed.

Lemma from_hex_to_hex fp : fp_ok fp -> from_hex (to_hex fp) = Ok fp.
Proof.
  intros Hf. pose proof (to_hex_lower fp Hf) as Hc. destruct Hf as [Hl Hb]. unfold from_hex.
  assert (len (to_hex fp) = 64) as ->.
  { rewrite len_ascii. 2: { eapply Forall_impl; [exact Hc|]. intros c Hlc. apply N.ltb_lt. by apply lower_hex_props. }
    unfold to_hex, vlen. rewrite hex_encode_len, Hl. done. }
  assert (existsb (fun c => negb (is_ascii_hexdigit c) || is_ascii_uppercase c) (to_hex fp) = false) as ->.
  { apply existsb_none. intros c Hin. rewrite Forall_forall in Hc. destruct (lower_hex_props c (Hc c Hin)) as (-> & -> & _). done. }
  cbn [negb orb N.eqb Pos.eqb]. unfold to_hex. rewrite hex_decode_encode by done. rewrite Hl. by destruct fp.
Qed.

Lemma from_hex_ok s fp : from_hex s = Ok fp -> fp_ok fp /\ to_hex fp = s.
Proof.
  unfold from_hex. destruct (negb _ || _) eqn:E; [done|]. apply orb_false_iff in E as [_ E].
  destruct (hex_decode s) as [bs|] eqn:Ed; [|done]. destruct (length bs =? 32)%nat eqn:El; [|done]. intros [= <-].
  apply Nat.eqb_eq in El. assert (Forall (fun c => lower_hex c = true) s) as Hl.
  { apply Forall_forall. intros c Hc. pose proof (proj1 (existsb_none _ _) E c Hc) as Hx. cbn in Hx. apply orb_false_iff in Hx as [Hx Hu].
    apply negb_false_iff in Hx. unfold is_ascii_hexdigit in Hx. unfold is_ascii_uppercase, in_range in *. unfold lower_hex.
    apply orb_true_iff in Hx as [Hx|Hx]; [done|]. exfalso. unfold in_range in *. bprop. cbn in *. lia. }
  destruct (hex_encode_decode s bs Hl Ed) as [He Hb]. by split.
Qed.

Lemma parse_fingerprint_show fp : fp_ok fp -> parse_fingerprint (os (to_hex fp)) = Ok fp.
Proof.
  intros Hf. unfold parse_fingerprint. rewrite to_str_os by (by apply to_hex_scalars). cbn [ok_or mbind result_bind]. by rewrite from_hex_to_hex.
Qed.
Ltac eval_flags :=
  repeat match goal with
  | |- context [flag_is ?a ?b] => let v := eval vm_compute in (flag_is a b) in change (flag_is a b) with v
  end.
Ltac read_pairs :=
  unfold parse_pairs; cbn [length]; cbn [pairs_loop next_pair set_port mbind result_bind ok_or default]; unfold set_port; eval_flags;
  cbn [mbind result_bind ok_or default].

Lemma from_to_argv inv : inv_ok inv -> from_argv (to_argv inv) = Ok inv.
Proof.
  destruct inv; cbn [inv_ok to_argv]; intros Hok; unfold from_argv;
    (match goal with |- context [to_str (os ?t)] => replace (to_str (os t)) with (Some t) by (by vm_compute) end);
    cbn [mbind result_bind ok_or]; repeat (match goal with |- context [str_eqb ?a ?b] =>
      let v := eval vm_compute in (str_eqb a b) in change (str_eqb a b) with v end); cbv iota.
  - unfold parse_install_ca. read_pairs. by rewrite parse_fingerprint_show.
  - unfold parse_uninstall_ca. read_pairs. by rewrite parse_fingerprint_show.
  - unfold parse_install_resolver. destruct Hok as [Ht Ha]. destruct (addr_reads addr Ha) as [H1 H2].
    read_pairs. unfold require_utf8. rewrite (to_str_os tld) by done. cbn [mbind result_bind ok_or]. read_pairs.
    unfold require_utf8. rewrite H1. cbn [mbind result_bind ok_or]. by rewrite H2.
  - unfold parse_uninstall_resolver. read_pairs. unfold require_utf8. by rewrite to_str_os.
  - done.
  - unfold parse_install_port_redirect. rewrite !Forall_cons in Hok. destruct Hok as (H1 & H2 & H3 & H4 & _).
    read_pairs. by rewrite !parse_port_show by done.
  - done.
  - unfold parse_install_lan_port_redirect. destruct Hok as (Hv & Hl & Hu & Hp). rewrite !Forall_cons in Hp.
    destruct Hp as (H1 & H2 & H3 & H4 & _). read_pairs. rewrite parse_lan_ip_show by done. cbn [mbind result_bind]. read_pairs.
    by rewrite !parse_port_show by done.
  - done.
Qed.

(** ** What is read is well formed *)

Lemma pairs_inv {A} (P : A -> Prop) set acc rest a :
  (forall flag value acc acc', P acc -> set flag value acc = Ok acc' -> P acc') -> P acc ->
  parse_pairs set acc rest = Ok a -> P a.
Proof.
  intros Hs. unfold parse_pairs. generalize (S (length rest)) as fuel. intros fuel. revert acc rest.
  induction fuel as [|fuel IH]; intros acc rest Hp; cbn [pairs_loop]; [by intros [= <-]|].
  destruct rest as [|flag [|value rest]]; cbn [next_pair]; [by intros [= <-]..|].
  destruct (set flag value acc) as [acc'|e] eqn:E; cbn [mbind result_bind]; [|done]. apply IH. by eapply Hs.
Qed.

Definition opt_ok {A} (P : A -> Prop) (o : option A) : Prop := match o with Some a => P a | None => True end.

Lemma ok_or_ok {E A} (P : A -> Prop) (e : E) o a : opt_ok P o -> ok_or e o = Ok a -> P a.
Proof. destruct o; [by intros ? [= <-]|done]. Qed.

Lemma parse_fingerprint_ok value fp : parse_fingerprint value = Ok fp -> fp_ok fp.
Proof.
  unfold parse_fingerprint. destruct (to_str value) as [s|]; [|done]. cbn [ok_or mbind result_bind].
  destruct (from_hex s) as [fp'|] eqn:E; [|done]. intros [= <-]. by apply from_hex_ok in E as [? _].
Qed.

Lemma parse_port_ok value flag p : parse_port value flag = Ok p -> p <= u16_max.
Proof.
  unfold parse_port. destruct (to_str value) as [s|]; [|done]. cbn [mbind option_bind].
  destruct (parse_uint u16_max s) eqn:E; [|done]. intros [= <-]. by apply parse_uint_bound in E.
Qed.

Definition ports_ok (p : Ports4) : Prop :=
  opt_ok (fun n => n <= u16_max) (o_http_from p) /\ opt_ok (fun n => n <= u16_max) (o_http_to p) /\
  opt_ok (fun n => n <= u16_max) (o_https_from p) /\ opt_ok (fun n => n <= u16_max) (o_https_to p).

Lemma set_port_ok flag value p r p' : ports_ok p -> set_port flag value p = Some r -> r = Ok p' -> ports_ok p'.
Proof.
  intros (H1 & H2 & H3 & H4) Hs ->. unfold set_port in Hs.
  repeat (destruct (flag_is _ _); [
    destruct (parse_port _ _) as [n|] eqn:E; cbn [mbind result_bind] in Hs; [|done]; injection Hs as <-;
    apply parse_port_ok in E; by repeat split|]). done.
Qed.

(** Ranges of the fields, and the tag, of what the parser accepts. *)
Definition in_range_inv (inv : HelperInvocation) : Prop :=
  match inv with
  | InstallCa _ fp | UninstallCa fp => fp_ok fp
  | InstallPortRedirect hf ht sf st => Forall (fun p => p <= u16_max) [hf; ht; sf; st]
  | InstallLanPortRedirect ip hf ht sf st =>
      v4_is_loopback ip = false /\ ip <> mkV4 0 0 0 0 /\ Forall (fun p => p <= u16_max) [hf; ht; sf; st]
  | _ => True
  end.

Ltac bind_step H x E :=
  match type of H with
  | (mbind _ ?m) = _ => destruct m as [x|] eqn:E; cbn [mbind result_bind] in H; [|discriminate H]
  end.

Lemma ports_four p e1 e2 e3 e4 (k : N -> N -> N -> N -> HelperInvocation) inv : ports_ok p ->
  (hf ← ok_or e1 (o_http_from p); ht ← ok_or e2 (o_http_to p); sf ← ok_or e3 (o_https_from p); st ← ok_or e4 (o_https_to p);
   Ok (k hf ht sf st)) = @Ok ArgvParseError _ inv ->
  exists hf ht sf st, inv = k hf ht sf st /\ Forall (fun p => p <= u16_max) [hf; ht; sf; st].
Proof.
  intros (H1 & H2 & H3 & H4) Hr. bind_step Hr hf E1. bind_step Hr ht E2. bind_step Hr sf E3. bind_step Hr st E4. injection Hr as <-.
  exists hf, ht, sf, st. split; [done|].
  repeat apply Forall_cons_2; [exact (ok_or_ok _ _ _ _ H1 E1)|exact (ok_or_ok _ _ _ _ H2 E2)|exact (ok_or_ok _ _ _ _ H3 E3)|
    exact (ok_or_ok _ _ _ _ H4 E4)|apply Forall_nil_2].
Qed.

Lemma from_argv_tagged argv inv : from_argv argv = Ok inv ->
  (exists head rest, argv = head :: rest /\ to_str head = Some (invocation_tag inv)) /\ in_range_inv inv.
Proof.
  unfold from_argv. destruct argv as [|head rest]; [done|]. intros Hr. bind_step Hr op Eo.
  assert (to_str head = Some op) as Hh' by (destruct (to_str head); [by injection Eo as ->|done]).
  assert (forall P : Prop, op = invocation_tag inv /\ P ->
    (exists h r, head :: rest = h :: r /\ to_str h = Some (invocation_tag inv)) /\ P) as Hgo.
  { intros P [-> HP]. split; [|done]. by exists head, rest. }
  apply Hgo. clear Hgo.
  repeat (match type of Hr with (if str_eqb op ?t then _ else _) = _ => destruct (str_eqb op t) eqn:Et;
    [apply bool_decide_eq_true in Et as ->|clear Et] end); [..|done].
  - unfold parse_install_ca in Hr. bind_step Hr r E. destruct r as [pem fp]. bind_step Hr p E1. bind_step Hr f E2. injection Hr as <-.
    split; [done|]. apply (pairs_inv (fun x => opt_ok fp_ok x.2)) in E; [exact (ok_or_ok fp_ok _ _ _ E E2)|intros flag value [a b] acc' Ha|done].
    destruct (flag_is _ _); [by intros [= <-]|]. destruct (flag_is _ _); [|done]. intros Hx. bind_step Hx g Eg. injection Hx as <-.
    by apply parse_fingerprint_ok in Eg.
  - unfold parse_uninstall_ca in Hr. bind_step Hr r E. bind_step Hr f E2. injection Hr as <-.
    split; [done|]. apply (pairs_inv (fun x => opt_ok fp_ok x)) in E; [exact (ok_or_ok fp_ok _ _ _ E E2)|intros flag value a acc' Ha|done].
    destruct (flag_is _ _); [|done]. intros Hx. bind_step Hx g Eg. injection Hx as <-. by apply parse_fingerprint_ok in Eg.
  - unfold parse_install_resolver in Hr. bind_step Hr r E. destruct r as [t a]. bind_step Hr p E1. bind_step Hr f E2. by injection Hr as <-.
  - unfold parse_uninstall_resolver in Hr. bind_step Hr r E. bind_step Hr f E2. by injection Hr as <-.
  - unfold parse_setcap in Hr. bind_step Hr r E. bind_step Hr f E2. by injection Hr as <-.
  - unfold parse_install_port_redirect in Hr. bind_step Hr p E.
    apply ports_four in Hr as (hf & ht & sf & st & -> & Hp); [by split|].
    apply (pairs_inv ports_ok) in E; [done|intros flag value a acc' Ha Hx|done].
    destruct (set_port flag value a) eqn:Es; cbn [default] in Hx; [by eapply set_port_ok|done].
  - unfold parse_uninstall_port_redirect in Hr. destruct rest; [by injection Hr as <-|done].
  - unfold parse_install_lan_port_redirect in Hr. bind_step Hr r E. destruct r as [ip p]. bind_step Hr i Ei.
    apply (pairs_inv (fun x => opt_ok (fun ip => v4_is_loopback ip = false /\ ip <> mkV4 0 0 0 0) x.1 /\ ports_ok x.2)) in E.
    + destruct E as [Hi Hp]. apply (ports_four p _ _ _ _ (InstallLanPortRedirect i)) in Hr as (hf & ht & sf & st & -> & Hq); [|done].
      split; [done|]. destruct (ok_or_ok _ _ _ _ Hi Ei) as [Ha Hb]. by split_and!.
    + intros flag value [a b] acc' [Ha Hb]. destruct (flag_is _ _).
      * intros Hx. bind_step Hx j Ej. injection Hx as <-. split; [|done]. cbn. unfold parse_lan_ip in Ej.
        destruct (to_str value); [|done]. cbn [mbind option_bind] in Ej. destruct (parse_ipv4 _) as [k|]; [|done].
        cbn [mbind option_bind] in Ej. unfold v4_is_unspecified in Ej.
        destruct (negb _ && _) eqn:En; [|done]. injection Ej as <-. apply andb_true_iff in En as [E1 E2].
        apply negb_true_iff in E1, E2. split; [done|]. by apply bool_decide_eq_false in E2.
      * intros Hx. bind_step Hx j Ej. injection Hx as <-. split; [done|].
        destruct (set_port flag value b) eqn:Es; cbn [default] in Ej; [by eapply set_port_ok|done].
    + done.
  - unfold parse_uninstall_lan_port_redirect in Hr. destruct rest; [by injection Hr as <-|done].
Qed.

End laws.

(** The helper's wire contract. An operation whose values exist in the source is
    read from its argument vector as exactly itself; whatever vector the helper is
    given, what it reads carries the operation named by the first element, a
    fingerprint of 32 bytes that prints as the argument did, ports of 16 bits and a
    LAN address that is neither loopback nor unspecified. *)
Theorem argv_roundtrip `{HexLaws} inv argv (Hok : inv_ok inv) :
  from_argv (to_argv inv) = Ok inv /\
  (forall inv', from_argv argv = Ok inv' ->
    (exists head rest, argv = head :: rest /\ to_str head = Some (invocation_tag inv')) /\ in_range_inv inv') /\
  (forall value fp, parse_fingerprint value = Ok fp -> to_str value = Some (to_hex fp)).
Proof.
  split; [by apply from_to_argv|]. split; [by intros inv' ?%from_argv_tagged|].
  intros value fp. unfold parse_fingerprint. destruct (to_str value) as [s|]; [|done]. cbn [ok_or mbind result_bind].
  destruct (from_hex s) as [fp'|] eqn:E; [|done]. intros [= <-]. by apply from_hex_ok in E as [_ ->].
Qed.

(** ** Hexadecimal, as an instance *)

Fixpoint demo_decode (s : str) : option (list N) :=
  match s with
  | [] => Some []
  | [_] => None
  | a :: b :: r => x ← hex_digit a; y ← hex_digit b; cons (x * 16 + y) <$> demo_decode r
  end.

Definition demo_encode (bs : list N) : str := mjoin ((fun b => [hex_char (b / 16); hex_char (b mod 16)]) <$> bs).

#[local] Instance demo_hex : Hex := {| hex_encode := demo_encode; hex_decode := demo_decode |}.

Lemma hex_digit_char d : d < 16 -> hex_digit (hex_char d) = Some d /\ lower_hex (hex_char d) = true.
Proof.
  intros Hd. assert (d ∈ N.of_nat <$> seq 0 16) as Hin.
  { apply list_elem_of_fmap. exists (N.to_nat d). split; [lia|]. apply elem_of_seq. lia. }
  cbn in Hin. rewrite !elem_of_cons, elem_of_nil in Hin. by destruct_or! Hin; subst.
Qed.

Lemma lower_hex_digit c : lower_hex c = true -> exists d, hex_digit c = Some d /\ d < 16 /\ hex_char d = c.
Proof.
  unfold lower_hex, hex_digit. destruct (is_ascii_digit c) eqn:E.
  - intros _. exists (c - 48). unfold is_ascii_digit, in_range in E. bprop. split; [done|]. split; [lia|].
    unfold hex_char. destruct (N.ltb_spec (c - 48) 10); lia.
  - cbn [orb]. intros Hr. rewrite Hr. exists (c - 87). unfold in_range in Hr. bprop. cbn in *. split; [done|]. split; [lia|].
    unfold hex_char. destruct (N.ltb_spec (c - 87) 10); lia.
Qed.

Lemma demo_encode_cons b bs : demo_encode (b :: bs) = hex_char (b / 16) :: hex_char (b mod 16) :: demo_encode bs.
Proof. done. Qed.

Lemma nibbles b : b < 256 -> b / 16 < 16 /\ b mod 16 < 16 /\ b / 16 * 16 + b mod 16 = b.
Proof.
  intros Hb. split; [apply N.Div0.div_lt_upper_bound; lia|]. split; [by apply N.mod_lt|]. pose proof (N.div_mod b 16 ltac:(lia)). lia.
Qed.

#[local] Instance demo_hex_laws : HexLaws.
Proof.
  split; cbn.
  - induction 1 as [|b bs Hb Hbs IH]; [done|]. rewrite demo_encode_cons. cbn [demo_decode].
    destruct (nibbles b Hb) as (H1 & H2 & H3). rewrite (proj1 (hex_digit_char _ H1)), (proj1 (hex_digit_char _ H2)). cbn.
    by rewrite IH, H3.
  - intros s. assert (forall n s bs, (length s <= n)%nat -> Forall (fun c => lower_hex c = true) s -> demo_decode s = Some bs ->
      demo_encode bs = s /\ Forall (fun b => b < 256) bs) as Hgo; [|intros bs; by apply (Hgo (length s))].
    clear s. induction n as [|n IH]; intros [|a [|b s]] bs Hn Hs Hd; try (cbn in Hn; lia); try done; try by injection Hd as <-.
    inv Hs. inv H2. destruct (lower_hex_digit a) as (x & Hx & Hx16 & Hxa); [done|].
    destruct (lower_hex_digit b) as (y & Hy & Hy16 & Hyb); [done|]. cbn in Hd. rewrite Hx, Hy in Hd. cbn in Hd.
    destruct (demo_decode s) as [bs'|] eqn:E; [|done]. injection Hd as <-.
    destruct (IH s bs') as [He Hb]; [cbn in Hn; lia|done|done|]. rewrite demo_encode_cons, He.
    rewrite N.div_add_l, (N.div_small y 16), N.add_0_r by lia. rewrite N.add_comm, N.Div0.mod_add, N.mod_small by lia.
    rewrite Hxa, Hyb. split; [done|]. constructor; [lia|done].
  - induction bs as [|b bs IH]; [done|]. rewrite demo_encode_cons. cbn [length]. rewrite IH. lia.
  - induction 1 as [|b bs Hb Hbs IH]; [constructor|]. rewrite demo_encode_cons. destruct (nibbles b Hb) as (H1 & H2 & _).
    repeat constructor; [by apply hex_digit_char..|done].
Qed.

Definition demo_fp : CaFingerprint := mkFp (replicate 32 171).

Lemma argv_roundtrip_witness :
  from_argv (to_argv (InstallCa "/run/ca.pem"%str demo_fp)) = Ok (InstallCa "/run/ca.pem"%str demo_fp) /\
  from_argv (to_argv (InstallResolver "test"%str (SockV4 (mkV4 127 0 0 1) 5353)))
    = Ok (InstallResolver "test"%str (SockV4 (mkV4 127 0 0 1) 5353)).
Proof.
  split.
  - assert (inv_ok (InstallCa "/run/ca.pem"%str demo_fp)) as Hok by (split; [done|by apply Forall_replicate]).
    exact (proj1 (argv_roundtrip _ [] Hok)).
  - assert (inv_ok (InstallResolver "test"%str (SockV4 (mkV4 127 0 0 1) 5353))) as Hok
      by (split; [by repeat constructor|by vm_compute]).
    exact (proj1 (argv_roundtrip _ [] Hok)).
Defined.

(** A last element without a partner is dropped, not refused. *)
Lemma dangling_element_ignored :
  from_argv (to_argv (Setcap "/usr/bin/orckerd"%str) ++ [os "--whatever"%str]) = Ok (Setcap "/usr/bin/orckerd"%str).
Proof. by vm_compute. Qed.
