(* ===== verification/ResolverFiles.v ===== *)
(** * Resolver configuration

    The texts of [src/crates/orcker-platform/src/pure]: choosing the resolver
    manager ([resolv_conf.rs]), the drop-in of systemd-resolved
    ([resolved_drop_in.rs]), the snippets of NetworkManager's dnsmasq
    ([networkmanager_dnsmasq.rs]), the files of macOS with their backups
    ([resolver_file.rs]) and the DNS probe ([dns_probe.rs]).
    [resolver_config_exact]: what is written is recognised as installed for the
    suffix and address it was written for and for no other. *)

From S2P Require Import Prelude RustStr RustText Utf8 RustPath CoreError DnsLabel Tld Net SockAddr.

Open Scope N_scope.

(** ** [resolv_conf.rs] *)

Definition detect_systemd_resolved (resolv_conf_text : str) (run_systemd_resolve_exists : bool) : bool :=
  if run_systemd_resolve_exists then true
  else existsb (contains_str "systemd-resolved"%str) (take 8 (str_lines resolv_conf_text)).

Inductive LinuxResolverBackend := SystemdResolved | NetworkManager | BackendUnsupported.

Definition networkmanager_owns_resolv_conf (text : str) : bool :=
  existsb (fun line => contains_str "generated by networkmanager"%str (to_ascii_lowercase line)) (take 8 (str_lines text)).

Definition detect_linux_backend (resolv_conf_text : str) (run_systemd_resolve_exists : bool) : LinuxResolverBackend :=
  if detect_systemd_resolved resolv_conf_text run_systemd_resolve_exists then SystemdResolved
  else if networkmanager_owns_resolv_conf resolv_conf_text then NetworkManager
  else BackendUnsupported.

Definition networkmanager_dnsmasq_is_active (text : str) : bool :=
  networkmanager_owns_resolv_conf text &&
  existsb (fun line => match split_whitespace line with
                       | a :: b :: _ => str_eqb a "nameserver" && str_eqb b "127.0.0.1"
                       | _ => false
                       end) (str_lines text).

(** Lines every parser below skips. *)
Definition comment_line (line : str) : bool := is_empty line || starts_with "#" line || starts_with ";" line.

(** [line.strip_prefix('[').and_then(|s| s.strip_suffix(']'))] *)
Definition section_of (line : str) : option str := s ← strip_prefix "["%str line; strip_suffix "]"%str s.

(** ** [resolved_drop_in.rs] *)

Module DropIn.
Record DropIn := mkDropIn { dns : SockAddr; domain : str }.
#[export] Instance DropIn_eq_dec : EqDecision DropIn.
Proof. solve_decision. Defined.

Definition compose (tld : str) (addr : SockAddr) : str :=
  "[Resolve]"%str ++ [NL] ++ "DNS="%str ++ SockAddr_fmt addr ++ [NL] ++ "Domains=~"%str ++ tld ++ [NL].

Record scan := mkScan { s_dns : option SockAddr; s_domain : option str; in_resolve_section : bool }.

(** One turn of the loop over the lines. *)
Definition scan_line (st : scan) (raw : str) : scan :=
  let line := trim raw in
  if comment_line line then st
  else match section_of line with
  | Some section => mkScan (s_dns st) (s_domain st) (str_eqb section "Resolve")
  | None =>
      if negb (in_resolve_section st) then st
      else match split_once "="%ch line with
      | None => st
      | Some (key, value) =>
          let key := trim key in
          let value := trim value in
          if str_eqb key "DNS" then
            match parse_sock_addr value with
            | Some addr => mkScan (Some addr) (s_domain st) true
            | None => st
            end
          else if str_eqb key "Domains" then
            mkScan (s_dns st) (Some (default value (strip_prefix "~"%str value))) true
          else st
      end
  end.

Definition parse (text : str) : option DropIn :=
  let st := foldl scan_line (mkScan None None false) (str_lines text) in
  dns ← s_dns st;
  domain ← s_domain st;
  Some (mkDropIn dns domain).

Definition matches (text tld : str) (addr : SockAddr) : bool := bool_decide (parse text = Some (mkDropIn addr tld)).
End DropIn.

(** ** [networkmanager_dnsmasq.rs] *)

Definition compose_networkmanager : str := unlines ["# Managed by Orcker."%str; "[main]"%str; "dns=dnsmasq"%str].

(** The loop of [matches_networkmanager], which may return early. *)
Fixpoint nm_lines (in_main : bool) (lines : list str) : bool :=
  match lines with
  | [] => false
  | raw :: rest =>
      let line := trim raw in
      if comment_line line then nm_lines in_main rest
      else match section_of line with
      | Some section => nm_lines (eq_ignore_ascii_case section "main") rest
      | None =>
          if in_main then
            match split_once "="%ch line with
            | Some (key, value) =>
                if eq_ignore_ascii_case (trim key) "dns" then eq_ignore_ascii_case (trim value) "dnsmasq"
                else nm_lines in_main rest
            | None => nm_lines in_main rest
            end
          else nm_lines in_main rest
      end
  end.
Definition matches_networkmanager (text : str) : bool := nm_lines false (str_lines text).

Definition compose_dnsmasq (tld : str) (addr : SockAddr) : str :=
  "# Managed by Orcker."%str ++ [NL] ++
  "server=/"%str ++ tld ++ "/"%str ++ IpAddr_fmt (sock_ip addr) ++ "#"%str ++ show_uint (sock_port addr) ++ [NL].

Definition dnsmasq_line (tld : str) (addr : SockAddr) (line : str) : bool :=
  if comment_line line then false
  else match strip_prefix "server=/"%str line with
  | None => false
  | Some value =>
      match split_once "/"%ch value with
      | None => false
      | Some (domain, server) =>
          match rsplit_once "#"%ch server with
          | None => false
          | Some (ip, port) =>
              str_eqb domain tld && bool_decide (parse_ip ip = Some (sock_ip addr))
              && bool_decide (parse_uint u16_max port = Some (sock_port addr))
          end
      end
  end.

Definition matches_dnsmasq (text tld : str) (addr : SockAddr) : bool :=
  existsb (dnsmasq_line tld addr) (trim <$> str_lines text).

(** ** [resolver_file.rs] *)

Module ResolverFile.
Record ResolverFile := mkResolverFile { nameserver : IpAddr; port : N }.
#[export] Instance ResolverFile_eq_dec : EqDecision ResolverFile.
Proof. solve_decision. Defined.

Definition from_addr (addr : SockAddr) : ResolverFile := mkResolverFile (sock_ip addr) (sock_port addr).

Definition compose (addr : SockAddr) : str :=
  "nameserver "%str ++ IpAddr_fmt (sock_ip addr) ++ [NL] ++ "port "%str ++ show_uint (sock_port addr) ++ [NL].

Definition scan_line (st : option IpAddr * option N) (raw : str) : option IpAddr * option N :=
  let '(nameserver, port) := st in
  let line := trim raw in
  if is_empty line || starts_with "#" line then st
  else
    let tokens := split_whitespace line in
    let directive := default [] (tokens !! 0%nat) in
    let value := default [] (tokens !! 1%nat) in
    if str_eqb directive "nameserver" then
      match parse_ip value with Some ip => (Some ip, port) | None => st end
    else if str_eqb directive "port" then
      match parse_uint u16_max value with Some p => (nameserver, Some p) | None => st end
    else st.

Definition parse (text : str) : option ResolverFile :=
  let '(nameserver, port) := foldl scan_line (None, None) (str_lines text) in
  nameserver ← nameserver;
  Some (mkResolverFile nameserver (default 53 port)).

Definition matches (text : str) (expected : SockAddr) : bool := bool_decide (parse text = Some (from_addr expected)).

Definition restorable (text : str) : bool := match parse text with Some _ => true | None => false end.

Definition backup_filename (tld : str) (secs : N) : str := tld ++ "-"%str ++ show_uint secs ++ ".conf"%str.

Definition parse_backup_secs (name tld : str) : option N :=
  rest ← strip_prefix (tld ++ "-"%str) name;
  stamp ← strip_suffix ".conf"%str rest;
  parse_uint u64_max stamp.

Definition latest_backup (filenames : list str) (tld : str) : option str :=
  snd <$> max_by_key fst (omap (fun name => (fun secs => (secs, name)) <$> parse_backup_secs name tld) filenames).
End ResolverFile.

(** ** [dns_probe.rs] *)

Definition PROBE_LABEL : str := "orcker-resolver-probe"%str.
Definition TXN_ID : list N := [89; 68].

Definition encode_label (label : str) : option (list N) :=
  if len label <=? 255 then Some (len label :: as_bytes label) else None.

Definition compose_query (tld : str) : option (list N) :=
  a ← encode_label PROBE_LABEL;
  b ← encode_label tld;
  Some (TXN_ID ++ [1; 0; 0; 1; 0; 0; 0; 0; 0; 0] ++ a ++ b ++ [0; 0; 1; 0; 1]).

(** [windows(n).any(p)] *)
Fixpoint any_window (n : nat) (p : list N -> bool) (bs : list N) : bool :=
  if (length bs <? n)%nat then false
  else match bs with [] => false | _ :: rest => p (take n bs) || any_window n p rest end.

Definition response_has_loopback_a (packet : list N) : bool :=
  (12 <=? vlen packet) && list_prefixb TXN_ID packet
  && match packet !! 2%nat with Some flags => negb (N.land flags 128 =? 0) | None => false end
  && match packet !! 3%nat with Some flags => N.land flags 15 =? 0 | None => false end
  && any_window 14 (fun w => list_prefixb [0; 1; 0; 1] w
                             && bool_decide (take 2 (drop 8 w) = [0; 4]) && ends_with [127; 0; 0; 1] w) packet.

(** ** Lemmas: text that parsers leave alone *)

(** Printable ASCII without blanks. *)
Definition solid_char (c : N) : Prop := 33 <= c < 127.
Definition solid_text (s : str) : Prop := Forall solid_char s.

Lemma solid_not_space c : solid_char c -> is_whitespace c = false.
Proof.
  unfold solid_char. intros Hc. assert (c ∈ N.of_nat <$> seq 33 94) as Hin.
  { apply list_elem_of_fmap. exists (N.to_nat c). split; [lia|]. apply elem_of_seq. lia. }
  clear Hc. revert c Hin. apply Forall_forall. by apply (bool_decide_unpack _); vm_compute.
Qed.

Lemma solid_trim_text s : solid_text s -> trim s = s.
Proof. intros Hs. apply trim_solid. eapply Forall_impl; [exact Hs|]. apply solid_not_space. Qed.

Lemma solid_no_char s c : solid_text s -> ~ solid_char c -> c ∉ s.
Proof. intros Hs Hc Hin. unfold solid_text in Hs. rewrite Forall_forall in Hs. by apply Hc, Hs. Qed.

Lemma solid_line s : solid_text s -> NL ∉ s /\ 13 ∉ s.
Proof. intros Hs. split; apply (solid_no_char s _ Hs); unfold solid_char; lia. Qed.

Lemma solid_app a b : solid_text a -> solid_text b -> solid_text (a ++ b).
Proof. intros. by apply Forall_app. Qed.

Lemma solid_digits n : solid_text (show_uint n).
Proof.
  eapply Forall_impl; [apply show_uint_digits|]. intros c Hc. unfold is_ascii_digit, in_range in Hc. bprop. unfold solid_char. lia.
Qed.

Lemma solid_dns s : dns_name s = true -> solid_text s.
Proof.
  intros Hs. pose proof (dns_name_ascii s Hs) as Ha. apply Forall_forall. intros c Hc.
  pose proof (dns_name_chars s Hs) as Hd. rewrite Forall_forall in Hd, Ha. destruct (Hd c Hc) as [Hl| ->]; [|unfold solid_char; cbn; lia].
  unfold label_char in Hl. unfold is_ascii_lowercase, is_ascii_digit, in_range in Hl. unfold solid_char. bprop. cbn in *.
  lia.
Qed.

Lemma solid_v4 ip : solid_text (Ipv4Addr_fmt ip).
Proof.
  unfold Ipv4Addr_fmt, join_char.
  repeat (apply solid_app; [apply solid_digits|]; apply Forall_cons; split; [unfold solid_char; cbn; lia|]). apply solid_digits.
Qed.

Create HintDb solid.
#[export] Hint Resolve solid_app solid_digits solid_dns solid_v4 : solid.

Lemma compose_drop_in tld addr :
  DropIn.compose tld addr = unlines ["[Resolve]"%str; "DNS="%str ++ SockAddr_fmt addr; "Domains=~"%str ++ tld].
Proof. unfold DropIn.compose. rewrite !unlines_cons. cbn [app]. by rewrite <- ?app_assoc. Qed.

Lemma compose_dnsmasq_lines tld addr :
  compose_dnsmasq tld addr = unlines ["# Managed by Orcker."%str;
    "server=/"%str ++ tld ++ "/"%str ++ IpAddr_fmt (sock_ip addr) ++ "#"%str ++ show_uint (sock_port addr)].
Proof. unfold compose_dnsmasq. rewrite !unlines_cons. cbn [app]. by rewrite <- ?app_assoc; cbn [app]; rewrite <- ?app_assoc. Qed.

Lemma compose_resolver_lines addr :
  ResolverFile.compose addr = unlines ["nameserver "%str ++ IpAddr_fmt (sock_ip addr); "port "%str ++ show_uint (sock_port addr)].
Proof. unfold ResolverFile.compose. rewrite !unlines_cons. cbn [app]. by rewrite <- ?app_assoc. Qed.

Lemma solid_sock ip port : solid_text (SockAddr_fmt (SockV4 ip port)).
Proof. cbn [SockAddr_fmt]. apply solid_app; [auto with solid|]. apply solid_app; [|auto with solid]. by repeat constructor. Qed.

Lemma drop_in_scan st tld ip port : dns_name tld = true -> v4_valid ip -> port <= u16_max ->
  DropIn.in_resolve_section st = true ->
  DropIn.scan_line st ("DNS="%str ++ SockAddr_fmt (SockV4 ip port)) = DropIn.mkScan (Some (SockV4 ip port)) (DropIn.s_domain st) true /\
  DropIn.scan_line st ("Domains=~"%str ++ tld) = DropIn.mkScan (DropIn.s_dns st) (Some tld) true.
Proof.
  intros Ht Hip Hp Hst. unfold DropIn.scan_line. rewrite Hst. split.
  - rewrite solid_trim_text by (apply solid_app; [by repeat constructor|apply solid_sock]). cbn [app].
    change (comment_line _) with false. change (section_of _) with (@None str). cbn [negb].
    change (split_once "="%ch _) with (Some ("DNS"%str, SockAddr_fmt (SockV4 ip port))). cbn iota beta.
    rewrite (solid_trim_text (SockAddr_fmt _)) by apply solid_sock. change (str_eqb (trim "DNS"%str) "DNS") with true. cbn iota.
    by rewrite parse_sock_v4.
  - rewrite solid_trim_text by (apply solid_app; [by repeat constructor|auto with solid]). cbn [app].
    change (comment_line _) with false. change (section_of _) with (@None str). cbn [negb].
    change (split_once "="%ch _) with (Some ("Domains"%str, "~"%ch :: tld)). cbn iota beta.
    rewrite (solid_trim_text (_ :: tld)) by (apply (solid_app [_]); [by repeat constructor|auto with solid]).
    change (str_eqb (trim "Domains"%str) "DNS") with false. change (str_eqb (trim "Domains"%str) "Domains") with true. cbn iota.
    by change (strip_prefix "~"%str ("~"%ch :: tld)) with (Some tld).
Qed.

Lemma drop_in_parse tld ip port : dns_name tld = true -> v4_valid ip -> port <= u16_max ->
  DropIn.parse (DropIn.compose tld (SockV4 ip port)) = Some (DropIn.mkDropIn (SockV4 ip port) tld).
Proof.
  intros Ht Hip Hp. unfold DropIn.parse. rewrite compose_drop_in, str_lines_unlines.
  - cbn [foldl]. change (DropIn.scan_line _ "[Resolve]"%str) with (DropIn.mkScan None None true).
    rewrite (proj1 (drop_in_scan (DropIn.mkScan None None true) tld ip port Ht Hip Hp eq_refl)).
    by rewrite (proj2 (drop_in_scan (DropIn.mkScan _ _ true) tld ip port Ht Hip Hp eq_refl)).
  - intros l. rewrite !elem_of_cons, elem_of_nil. intros Hl. apply solid_line. destruct_or! Hl; subst l.
    + by repeat constructor.
    + apply solid_app; [by repeat constructor|apply solid_sock].
    + apply solid_app; [by repeat constructor|auto with solid].
Qed.

(** ** Lemmas: dnsmasq *)

Lemma dns_no_hash_slash tld : dns_name tld = true -> "/"%ch ∉ tld /\ "#"%ch ∉ tld.
Proof. intros Ht. split; by apply dns_name_no_char. Qed.

Lemma dnsmasq_server_line tld ip port tld' addr' : dns_name tld = true -> v4_valid ip -> port <= u16_max ->
  dnsmasq_line tld' addr' (trim ("server=/"%str ++ tld ++ "/"%str ++ Ipv4Addr_fmt ip ++ "#"%str ++ show_uint port)) = true <->
  tld' = tld /\ sock_ip addr' = V4 ip /\ sock_port addr' = port.
Proof.
  intros Ht Hip Hp. destruct (dns_no_hash_slash tld Ht) as [Hs Hh]. rewrite solid_trim_text.
  2: { apply solid_app; [by repeat constructor|]. apply solid_app; [auto with solid|]. apply solid_app; [by repeat constructor|].
       apply solid_app; [auto with solid|]. apply solid_app; [by repeat constructor|auto with solid]. }
  unfold dnsmasq_line. change (comment_line _) with false. cbn iota.
  rewrite (proj2 (strip_prefix_Some "server=/"%str _ _) eq_refl). cbn [app].
  rewrite (split_once_complete "/"%ch tld) by done.
  assert ("#"%ch ∉ show_uint port) as Hd.
  { intros Hin. pose proof (show_uint_digits port) as Hsd. rewrite Forall_forall in Hsd. by specialize (Hsd _ Hin). }
  rewrite (rsplit_once_complete "#"%ch (Ipv4Addr_fmt ip)) by done.
  rewrite parse_ip_v4, parse_show_uint by done.
  unfold str_eqb. rewrite !andb_true_iff, !bool_decide_eq_true. split; [by intros [[-> [= ->]] [= ->]]|by intros (-> & -> & ->)].
Qed.

Lemma matches_compose_dnsmasq tld ip port tld' addr' : dns_name tld = true -> v4_valid ip -> port <= u16_max ->
  matches_dnsmasq (compose_dnsmasq tld (SockV4 ip port)) tld' addr' = true <->
  tld' = tld /\ sock_ip addr' = V4 ip /\ sock_port addr' = port.
Proof.
  intros Ht Hip Hp. unfold matches_dnsmasq. rewrite compose_dnsmasq_lines, str_lines_unlines.
  - cbn [fmap list_fmap existsb]. change (dnsmasq_line tld' addr' (trim "# Managed by Orcker."%str)) with false.
    rewrite orb_false_l, orb_false_r. by apply dnsmasq_server_line.
  - intros l. rewrite !elem_of_cons, elem_of_nil. intros Hl. destruct_or! Hl; subst l.
    + split; by apply contains_char_false.
    + apply solid_line. apply solid_app; [by repeat constructor|]. apply solid_app; [auto with solid|]. apply solid_app; [by repeat constructor|].
      apply solid_app; [apply solid_v4|]. apply solid_app; [by repeat constructor|apply solid_digits].
Qed.

(** ** Lemmas: macOS *)

Lemma two_words a b : a <> [] -> b <> [] -> solid_text a -> solid_text b -> split_whitespace (a ++ 32 :: b) = [a; b].
Proof.
  intros Ha Hb Sa Sb. assert (forall s, solid_text s -> Forall (fun c => is_whitespace c = false) s) as Hs.
  { intros s H. eapply Forall_impl; [exact H|]. apply solid_not_space. }
  rewrite words_space by auto. by rewrite words_last by auto.
Qed.

Lemma spaced_trim a b : a <> [] -> b <> [] -> solid_text a -> solid_text b -> trim (a ++ 32 :: b) = a ++ 32 :: b.
Proof.
  intros Ha Hb Sa Sb. apply trim_no_space.
  - intros c r Hc. destruct a as [|x a]; [done|]. injection Hc as <- _. inv Sa. by apply solid_not_space.
  - intros r c Hc. destruct (exists_last Hb) as (b' & y & ->). change (a ++ 32 :: b' ++ [y]) with (a ++ (32 :: b') ++ [y]) in Hc.
    rewrite app_assoc in Hc. apply app_inj_tail in Hc as [_ <-]. apply Forall_app in Sb as [_ Sb]. inv Sb. by apply solid_not_space.
Qed.

Lemma v4_fmt_ne ip : Ipv4Addr_fmt ip <> [].
Proof. unfold Ipv4Addr_fmt, join_char. pose proof (show_uint_ne (v4_a ip)). by destruct (show_uint (v4_a ip)). Qed.

Lemma resolver_scan ns po directive value : directive <> [] -> value <> [] -> solid_text directive -> solid_text value ->
  starts_with "#" directive = false ->
  ResolverFile.scan_line (ns, po) (directive ++ 32 :: value) =
    if str_eqb directive "nameserver" then match parse_ip value with Some ip => (Some ip, po) | None => (ns, po) end
    else if str_eqb directive "port" then match parse_uint u16_max value with Some p => (ns, Some p) | None => (ns, po) end
    else (ns, po).
Proof.
  intros Hd Hv Sd Sv Hh. unfold ResolverFile.scan_line. rewrite spaced_trim, two_words by done.
  assert (starts_with "#" (directive ++ 32 :: value) = false) as ->.
  { destruct directive as [|c d]; [done|]. unfold starts_with in *. cbn in *. by destruct (_ =? _). }
  by destruct directive.
Qed.

Lemma resolver_file_parse ip port : v4_valid ip -> port <= u16_max ->
  ResolverFile.parse (ResolverFile.compose (SockV4 ip port)) = Some (ResolverFile.from_addr (SockV4 ip port)).
Proof.
  intros Hip Hp. unfold ResolverFile.parse. rewrite compose_resolver_lines. cbn [sock_ip sock_port IpAddr_fmt]. rewrite str_lines_unlines.
  - cbn [foldl]. change ("nameserver "%str ++ Ipv4Addr_fmt ip) with ("nameserver"%str ++ 32 :: Ipv4Addr_fmt ip).
    change ("port "%str ++ show_uint port) with ("port"%str ++ 32 :: show_uint port).
    rewrite resolver_scan by (done || apply v4_fmt_ne || (by repeat constructor) || auto with solid).
    change (str_eqb "nameserver"%str "nameserver") with true. cbn iota. rewrite parse_ip_v4 by done.
    rewrite resolver_scan by (done || apply show_uint_ne || (by repeat constructor) || auto with solid).
    change (str_eqb "port"%str "nameserver") with false. change (str_eqb "port"%str "port") with true. cbn iota.
    by rewrite parse_show_uint.
  - intros l. rewrite !elem_of_cons, elem_of_nil. intros Hl.
    destruct (solid_line _ (solid_v4 ip)) as [H1 H2]. destruct (solid_line _ (solid_digits port)) as [H3 H4].
    destruct_or! Hl; subst l; rewrite !not_elem_of_app; split_and!; try done; by apply contains_char_false.
Qed.

Lemma backup_reads tld secs : secs <= u64_max -> ResolverFile.parse_backup_secs (ResolverFile.backup_filename tld secs) tld = Some secs.
Proof.
  intros Hs. unfold ResolverFile.parse_backup_secs, ResolverFile.backup_filename.
  rewrite (proj2 (strip_prefix_Some (tld ++ "-"%str) _ (show_uint secs ++ ".conf"%str))) by (by rewrite <- app_assoc). cbn [mbind option_bind].
  rewrite (proj2 (strip_suffix_Some ".conf"%str _ (show_uint secs)) eq_refl). cbn [mbind option_bind]. by apply parse_show_uint.
Qed.

Lemma latest_backup_spec names tld name : ResolverFile.latest_backup names tld = Some name ->
  name ∈ names /\ exists secs, ResolverFile.parse_backup_secs name tld = Some secs /\
  forall other secs', other ∈ names -> ResolverFile.parse_backup_secs other tld = Some secs' -> secs' <= secs.
Proof.
  unfold ResolverFile.latest_backup. destruct (max_by_key _ _) as [[secs n]|] eqn:E; [|done]. intros [= <-].
  apply max_by_key_Some in E as [Hin Hmax]. apply list_elem_of_omap in Hin as (x & Hx & Hp).
  destruct (ResolverFile.parse_backup_secs x tld) as [sx|] eqn:Ex; [|done]. injection Hp as -> ->.
  split; [done|]. exists secs. split; [done|]. intros other secs' Ho Hs. apply (Hmax (secs', other)).
  apply list_elem_of_omap. exists other. split; [done|]. by rewrite Hs.
Qed.

(** ** The probe *)

(** The labels of a name on the wire, up to the root. *)
Fixpoint read_labels (fuel : nat) (bs : list N) : option (list (list N) * list N) :=
  match fuel, bs with
  | S fuel, n :: rest =>
      if n =? 0 then Some ([], rest)
      else if (length rest <? N.to_nat n)%nat then None
      else '(labels, rest') ← read_labels fuel (drop (N.to_nat n) rest); Some (take (N.to_nat n) rest :: labels, rest')
  | _, _ => None
  end.

Lemma read_label l fuel rest : l <> [] ->
  read_labels (S fuel) (vlen l :: l ++ rest) = '(labels, rest') ← read_labels fuel rest; Some (l :: labels, rest').
Proof.
  intros Hl. unfold vlen. cbn [read_labels]. destruct (N.of_nat (length l) =? 0) eqn:E; [destruct l; [done|]; cbn in E; by apply N.eqb_eq in E|].
  rewrite Nat2N.id, length_app, (proj2 (Nat.ltb_ge _ _)) by lia. by rewrite drop_app_length, take_app_length.
Qed.

Lemma probe_query tld : dns_label tld = true ->
  exists query, compose_query tld = Some query /\ take 2 query = TXN_ID /\
  read_labels 3 (drop 12 query) = Some ([PROBE_LABEL; tld], [0; 1; 0; 1]).
Proof.
  intros Ht. pose proof (dns_label_len tld Ht) as Hlen. pose proof (dns_label_ascii tld Ht) as Ha. unfold compose_query, encode_label.
  change (len PROBE_LABEL <=? 255) with true. cbn [mbind option_bind]. rewrite (proj2 (N.leb_le (len tld) 255)) by lia.
  cbn [mbind option_bind]. eexists. split; [done|]. split; [done|]. rewrite (len_ascii tld) by done. rewrite (as_bytes_ascii tld) by (eapply Forall_impl; [exact Ha|]; intros c Hc; by apply N.ltb_lt in Hc).
  change (drop 12 _) with (vlen PROBE_LABEL :: PROBE_LABEL ++ (vlen tld :: tld ++ [0; 0; 1; 0; 1])).
  rewrite read_label by done. rewrite read_label by by apply dns_label_ne. done.
Qed.

(** Resolver configuration. For a valid suffix and an IPv4 address: the drop-in
    and the dnsmasq snippet the helper writes are recognised as installed for exactly
    that suffix and that address, the NetworkManager snippet selects dnsmasq, the
    macOS file reads back as its address, a backup's name gives back its time and the
    most recent backup of a suffix is the one restored; and for a suffix of one label
    the probe asks for a name below it. *)
Theorem resolver_config_exact tld ip port (Ht : dns_name tld = true) (Hip : v4_valid ip) (Hp : port <= u16_max) :
  let addr := SockV4 ip port in
  (forall tld' addr', DropIn.matches (DropIn.compose tld addr) tld' addr' = true <-> tld' = tld /\ addr' = addr) /\
  matches_networkmanager compose_networkmanager = true /\
  (forall tld' addr', matches_dnsmasq (compose_dnsmasq tld addr) tld' addr' = true <->
     tld' = tld /\ sock_ip addr' = V4 ip /\ sock_port addr' = port) /\
  (forall addr', ResolverFile.matches (ResolverFile.compose addr) addr' = true <-> sock_ip addr' = V4 ip /\ sock_port addr' = port) /\
  (forall secs, secs <= u64_max ->
     ResolverFile.parse_backup_secs (ResolverFile.backup_filename tld secs) tld = Some secs) /\
  (forall names name, ResolverFile.latest_backup names tld = Some name ->
     name ∈ names /\ exists secs, ResolverFile.parse_backup_secs name tld = Some secs /\
     forall other secs', other ∈ names -> ResolverFile.parse_backup_secs other tld = Some secs' -> secs' <= secs) /\
  (dns_label tld = true -> exists query, compose_query tld = Some query /\ take 2 query = TXN_ID /\
     read_labels 3 (drop 12 query) = Some ([PROBE_LABEL; tld], [0; 1; 0; 1])).
Proof.
  cbv zeta. split_and!.
  - intros tld' addr'. unfold DropIn.matches. rewrite bool_decide_eq_true, drop_in_parse by done.
    split; [by intros [= <- <-]|by intros [-> ->]].
  - by vm_compute.
  - intros. by apply matches_compose_dnsmasq.
  - intros addr'. unfold ResolverFile.matches. rewrite bool_decide_eq_true, resolver_file_parse by done.
    unfold ResolverFile.from_addr. cbn. split; [by intros [= <- <-]|by intros [-> ->]].
  - intros. by apply backup_reads.
  - intros names name. apply latest_backup_spec.
  - apply probe_query.
Qed.

Lemma resolver_config_exact_witness :
  DropIn.matches (DropIn.compose "test"%str (SockV4 (mkV4 127 0 0 1) 5353)) "test"%str (SockV4 (mkV4 127 0 0 1) 5353) = true.
Proof.
  assert (v4_valid (mkV4 127 0 0 1)) as Hv by by vm_compute. assert (5353 <= u16_max) as Hp by by vm_compute.
  destruct (resolver_config_exact "test"%str (mkV4 127 0 0 1) 5353 eq_refl Hv Hp) as (H1 & _).
  apply H1. done.
Defined.

(** A suffix of two labels, which [Tld_new] accepts, is put on the wire as one label
    that contains a dot, so the probe asks for a name the responder does not serve. *)
Lemma probe_two_labels :
  Tld_new "dev.test"%str = Ok (mkTld "dev.test"%str) /\
  (query ← compose_query "dev.test"%str; read_labels 3 (drop 12 query)) = Some ([PROBE_LABEL; "dev.test"%str], [0; 1; 0; 1]).
Proof. by vm_compute. Qed.
