(* ===== verification/PfAnchor.v ===== *)
(** * The pf redirect of macOS

    [src/crates/orcker-platform/src/pure/pf_anchor.rs]: the rules of the two
    anchors, their references in [/etc/pf.conf] and the boot item.
    [pf_conf_edits_exact]: the references are inserted once, removing them gives the
    file back, each anchor's edits leave the other's alone, and the ports written
    are the ports read. *)

From S2P Require Import Prelude RustStr RustText Net.

Open Scope N_scope.

Definition ANCHOR_NAME : str := "dev.orcker"%str.
Definition ANCHOR_PATH : str := "/etc/pf.anchors/dev.orcker"%str.
Definition PLIST_PATH : str := "/Library/LaunchDaemons/dev.orcker.pf.plist"%str.
Definition PF_CONF_PATH : str := "/etc/pf.conf"%str.
Definition MARKER : str := "# orcker-managed"%str.
Definition LAN_ANCHOR_NAME : str := "dev.orcker.lan"%str.
Definition LAN_ANCHOR_PATH : str := "/etc/pf.anchors/dev.orcker.lan"%str.
Definition LAN_PLIST_PATH : str := "/Library/LaunchDaemons/dev.orcker.lan.pf.plist"%str.
Definition LAN_MARKER : str := "# orcker-lan-managed"%str.

(** A quoted word. *)
Definition in_quotes (s : str) : str := 34 :: s ++ [34].

Definition loopback_rule (from to : N) : str :=
  "rdr pass on lo0 inet proto tcp from any to any port "%str ++ show_uint from ++ " -> 127.0.0.1 port "%str ++ show_uint to.

Definition compose_anchor_rules (http_from http_to https_from https_to : N) : str :=
  unlines [loopback_rule http_from http_to; loopback_rule https_from https_to].

Definition lan_sources : str := "{ 10.0.0.0/8, 172.16.0.0/12, 192.168.0.0/16, 169.254.0.0/16 }"%str.

Definition lan_rule (lan_ip : Ipv4Addr) (from to : N) : str :=
  "rdr pass inet proto tcp from "%str ++ lan_sources ++ " to "%str ++ Ipv4Addr_fmt lan_ip ++ " port "%str ++ show_uint from
  ++ " -> "%str ++ Ipv4Addr_fmt lan_ip ++ " port "%str ++ show_uint to.

Definition compose_lan_anchor_rules (lan_ip : Ipv4Addr) (http_from http_to https_from https_to : N) : str :=
  unlines [lan_rule lan_ip http_from http_to; lan_rule lan_ip https_from https_to].

(** [while let Some(tok) = tokens.next()] with a look at the token after it. *)
Fixpoint last_port (found : option N) (tokens : list str) : option N :=
  match tokens with
  | [] => found
  | tok :: rest =>
      let found :=
        if str_eqb tok "port" then
          match rest with
          | v :: _ => match parse_uint u16_max v with Some value => Some value | None => found end
          | [] => found
          end
        else found in
      last_port found rest
  end.
Definition last_port_token (segment : str) : option N := last_port None (split_whitespace segment).

Definition target_of_line (line : str) : option (N * N) :=
  let trimmed := trim_start line in
  if negb (starts_with "rdr "%str trimmed) then None
  else
    '(lhs, rhs) ← split_once_str "->"%str trimmed;
    from ← last_port_token lhs;
    to ← last_port_token rhs;
    Some (from, to).

Definition note_target (st : option N * option N) (line : str) : option N * option N :=
  match target_of_line line with
  | Some (from, to) => if from =? 80 then (Some to, st.2) else if from =? 443 then (st.1, Some to) else st
  | None => st
  end.

Definition parse_anchor_targets (rules : str) : option (N * N) :=
  let '(http_to, https_to) := foldl note_target (None, None) (str_lines rules) in
  h ← http_to; s ← https_to; Some (h, s).

Definition rdr_anchor_line_for (name marker : str) : str := "rdr-anchor "%str ++ in_quotes name ++ " "%str ++ marker.
Definition load_anchor_line_for (name path marker : str) : str :=
  "load anchor "%str ++ in_quotes name ++ " from "%str ++ in_quotes path ++ " "%str ++ marker.

Definition is_installed_for (pf_conf name marker : str) : bool :=
  existsb (fun l => contains_str marker l && contains_str (in_quotes name) l) (str_lines pf_conf).

(** The index of the last line that satisfies [p]. *)
Fixpoint last_index (p : str -> bool) (i : nat) (lines : list str) : option nat :=
  match lines with
  | [] => None
  | l :: rest => match last_index p (S i) rest with Some j => Some j | None => if p l then Some i else None end
  end.

Definition is_translation (l : str) : bool :=
  let t := trim_start l in starts_with "rdr-anchor"%str t || starts_with "nat-anchor"%str t.

Definition insert_refs_for (pf_conf name path marker : str) : str :=
  if is_installed_for pf_conf name marker then pf_conf
  else
    let lines := str_lines pf_conf in
    let insert_at := match last_index is_translation 0 lines with Some i => S i | None => 0%nat end in
    let lines := take insert_at lines ++ rdr_anchor_line_for name marker :: drop insert_at lines in
    let lines := lines ++ [load_anchor_line_for name path marker] in
    join_char NL lines ++ [NL].

Definition remove_refs_for (pf_conf marker : str) : str :=
  let kept := bfilter (fun l => negb (contains_str marker l)) (str_lines pf_conf) in
  let out := join_char NL kept in
  if is_empty out then out else out ++ [NL].

Definition is_installed (pf_conf : str) : bool := is_installed_for pf_conf ANCHOR_NAME MARKER.
Definition insert_anchor_refs (pf_conf : str) : str := insert_refs_for pf_conf ANCHOR_NAME ANCHOR_PATH MARKER.
Definition remove_anchor_refs (pf_conf : str) : str := remove_refs_for pf_conf MARKER.
Definition is_lan_installed (pf_conf : str) : bool := is_installed_for pf_conf LAN_ANCHOR_NAME LAN_MARKER.
Definition insert_lan_anchor_refs (pf_conf : str) : str := insert_refs_for pf_conf LAN_ANCHOR_NAME LAN_ANCHOR_PATH LAN_MARKER.
Definition remove_lan_anchor_refs (pf_conf : str) : str := remove_refs_for pf_conf LAN_MARKER.

(** The boot item; [TAB] indents. *)
Definition TAB : N := 9.
Definition compose_launchdaemon_plist_labelled (label_stem : str) : str :=
  unlines [
    "<?xml version="%str ++ in_quotes "1.0"%str ++ " encoding="%str ++ in_quotes "UTF-8"%str ++ "?>"%str;
    "<!DOCTYPE plist PUBLIC "%str ++ in_quotes "-//Apple//DTD PLIST 1.0//EN"%str ++ " "%str
      ++ in_quotes "http://www.apple.com/DTDs/PropertyList-1.0.dtd"%str ++ ">"%str;
    "<plist version="%str ++ in_quotes "1.0"%str ++ ">"%str;
    "<dict>"%str;
    TAB :: "<key>Label</key>"%str;
    TAB :: "<string>"%str ++ label_stem ++ ".pf</string>"%str;
    TAB :: "<key>RunAtLoad</key>"%str;
    TAB :: "<true/>"%str;
    TAB :: "<key>ProgramArguments</key>"%str;
    TAB :: "<array>"%str;
    TAB :: TAB :: "<string>/sbin/pfctl</string>"%str;
    TAB :: TAB :: "<string>-E</string>"%str;
    TAB :: TAB :: "<string>-f</string>"%str;
    TAB :: TAB :: "<string>"%str ++ PF_CONF_PATH ++ "</string>"%str;
    TAB :: "</array>"%str;
    "</dict>"%str;
    "</plist>"%str].
Definition compose_launchdaemon_plist : str := compose_launchdaemon_plist_labelled ANCHOR_NAME.
Definition compose_lan_launchdaemon_plist : str := compose_launchdaemon_plist_labelled LAN_ANCHOR_NAME.

(** ** Lemmas *)

(** A line as [str::lines] leaves it. *)
Definition clean_line (l : str) : Prop := NL ∉ l /\ strip_suffix [13] l = None.

Lemma str_lines_clean ls : Forall clean_line ls -> str_lines (unlines ls) = ls.
Proof.
  intros Hl. unfold str_lines. rewrite split_unlines by (intros l H; rewrite Forall_forall in Hl; by apply Hl).
  induction Hl as [|l ls [_ Hc] Hl IH]; [done|]. cbn [app].
  assert (lines_of (l :: (ls ++ [[]])) = default l (strip_suffix [13] l) :: lines_of (ls ++ [[]])) as -> by by destruct ls.
  by rewrite Hc, IH.
Qed.

Lemma bfilter_all_kept {A} (p : A -> bool) l : Forall (fun x => p x = true) l -> bfilter p l = l.
Proof. induction 1 as [|x l Hx Hl IH]; [done|]. cbn. by rewrite Hx, IH. Qed.

(** The lines of a file into which the references of one anchor were put. *)
Definition with_refs (name path marker : str) (lines : list str) : list str :=
  let at_ := match last_index is_translation 0 lines with Some i => S i | None => 0%nat end in
  take at_ lines ++ rdr_anchor_line_for name marker :: drop at_ lines ++ [load_anchor_line_for name path marker].

Lemma insert_refs_lines pf_conf name path marker : is_installed_for pf_conf name marker = false ->
  insert_refs_for pf_conf name path marker = unlines (with_refs name path marker (str_lines pf_conf)).
Proof.
  intros Hi. unfold insert_refs_for, with_refs. rewrite Hi.
  rewrite <- app_assoc. cbn [app]. apply join_lines_unlines. by destruct (take _ _).
Qed.

Lemma with_refs_clean name path marker lines : clean_line (rdr_anchor_line_for name marker) ->
  clean_line (load_anchor_line_for name path marker) -> Forall clean_line lines -> Forall clean_line (with_refs name path marker lines).
Proof.
  intros Hr Hl Hls. unfold with_refs. apply Forall_app. split; [by apply Forall_take|]. constructor; [done|].
  apply Forall_app. split; [by apply Forall_drop|by constructor].
Qed.

Lemma without_refs name path marker lines (p : str -> bool) :
  p (rdr_anchor_line_for name marker) = false -> p (load_anchor_line_for name path marker) = false ->
  bfilter p (with_refs name path marker lines) = bfilter p lines.
Proof.
  intros Hr Hl. unfold with_refs. set (k := match _ with Some _ => _ | None => _ end). clearbody k.
  assert (forall a b, bfilter p (a ++ b) = bfilter p a ++ bfilter p b) as Happ.
  { intros a b. induction a as [|x a IH]; [done|]. cbn. rewrite IH. by destruct (p x). }
  rewrite Happ. cbn [bfilter]. rewrite Hr, Happ. cbn [bfilter]. rewrite Hl, app_nil_r, <- Happ. by rewrite take_drop.
Qed.

Lemma last_index_app p i a b : last_index p i (a ++ b) =
  match last_index p (i + length a) b with Some j => Some j | None => last_index p i a end.
Proof.
  revert i. induction a as [|x a IH]; intros i; cbn [app last_index length].
  - rewrite Nat.add_0_r. by destruct (last_index p i b).
  - rewrite IH. rewrite Nat.add_succ_r. cbn [Nat.add]. by destruct (last_index p (S (i + length a)) b).
Qed.

Lemma last_index_none p i l : Forall (fun x => p x = false) l -> last_index p i l = None.
Proof. intros H. revert i. induction H as [|x l Hx Hl IH]; intros i; [done|]. cbn. by rewrite IH, Hx. Qed.

Lemma last_index_spec p i l : match last_index p i l with
  | Some j => exists k, j = (i + k)%nat /\ (k < length l)%nat /\ Forall (fun x => p x = false) (drop (S k) l)
  | None => Forall (fun x => p x = false) l
  end.
Proof.
  revert i. induction l as [|x l IH]; intros i; cbn [last_index]; [constructor|]. specialize (IH (S i)).
  destruct (last_index p (S i) l) as [j|].
  - destruct IH as (k & -> & Hk & Hd). exists (S k). cbn. split; [lia|]. split; [lia|done].
  - destruct (p x) eqn:E; [|by constructor]. exists 0%nat. cbn. split; [lia|]. split; [lia|]. by rewrite drop_0.
Qed.

(** Where the references go, seen from a file that has an anchor's already. *)
Lemma insertion_point name path marker lines : is_translation (rdr_anchor_line_for name marker) = true ->
  is_translation (load_anchor_line_for name path marker) = false ->
  let k := match last_index is_translation 0 lines with Some i => S i | None => 0%nat end in
  (k <= length lines)%nat /\ last_index is_translation 0 (with_refs name path marker lines) = Some k.
Proof.
  intros Hr Hl k. pose proof (last_index_spec is_translation 0 lines) as Hs.
  assert ((k <= length lines)%nat /\ Forall (fun x => is_translation x = false) (drop k lines)) as [Hk Hd].
  { unfold k. destruct (last_index is_translation 0 lines) as [j|]; [|by rewrite drop_0; split; [lia|]].
    destruct Hs as (k' & -> & Hk' & Hd'). split; [lia|done]. }
  split; [done|]. unfold with_refs. fold k. rewrite last_index_app. cbn [last_index]. rewrite last_index_none.
  - rewrite Hr. rewrite length_take, Nat.min_l by lia. done.
  - apply Forall_app. split; [done|by constructor].
Qed.

(** Removing an anchor's references from a file that has both. *)
Lemma two_anchors n1 p1 m1 n2 p2 m2 lines (q : str -> bool) :
  is_translation (rdr_anchor_line_for n1 m1) = true -> is_translation (load_anchor_line_for n1 p1 m1) = false ->
  q (rdr_anchor_line_for n1 m1) = false -> q (load_anchor_line_for n1 p1 m1) = false ->
  q (rdr_anchor_line_for n2 m2) = true -> q (load_anchor_line_for n2 p2 m2) = true ->
  Forall (fun l => q l = true) lines ->
  bfilter q (with_refs n2 p2 m2 (with_refs n1 p1 m1 lines)) = with_refs n2 p2 m2 lines.
Proof.
  intros Ht1 Ht2 H1 H2 H3 H4 Hq. destruct (insertion_point n1 p1 m1 lines Ht1 Ht2) as [Hk Hi].
  unfold with_refs at 1. rewrite Hi. unfold with_refs. set (k := match last_index _ _ _ with Some _ => _ | None => _ end) in *.
  set (r1 := rdr_anchor_line_for n1 m1) in *. set (l1 := load_anchor_line_for n1 p1 m1) in *.
  replace (take k lines ++ r1 :: drop k lines ++ [l1]) with ((take k lines ++ [r1]) ++ drop k lines ++ [l1]) by (by rewrite <- app_assoc).
  assert (length (take k lines ++ [r1]) = S k) as Hlen by (rewrite length_app, length_take; cbn; lia).
  rewrite take_app_length', drop_app_length' by done.
  assert (Forall (fun l => q l = true) (take k lines) /\ Forall (fun l => q l = true) (drop k lines)) as [Ht Hd]
    by (split; [by apply Forall_take|by apply Forall_drop]).
  assert (forall a b, bfilter q (a ++ b) = bfilter q a ++ bfilter q b) as Happ.
  { intros a b. induction a as [|x a IH]; [done|]. cbn. rewrite IH. by destruct (q x). }
  rewrite !Happ. cbn [bfilter]. rewrite !Happ. cbn [bfilter]. rewrite H1, H2, H3, H4.
  rewrite !bfilter_all_kept by done. by rewrite !app_nil_r.
Qed.

(** ** Words of a rule *)

Lemma words_go_app word a b : words_go word (a ++ 32 :: b) = words_go word a ++ split_whitespace b.
Proof.
  revert word. induction a as [|c a IH]; intros word; cbn [app words_go].
  - change (is_whitespace 32) with true. cbn iota. by destruct word.
  - destruct (is_whitespace c); [|apply IH]. destruct (is_empty word); cbn [app]; by rewrite IH.
Qed.

Lemma words_app a b : split_whitespace (a ++ 32 :: b) = split_whitespace a ++ split_whitespace b.
Proof. apply words_go_app. Qed.

Lemma words_number n : split_whitespace (show_uint n) = [show_uint n].
Proof.
  apply words_last; [apply show_uint_ne|]. eapply Forall_impl; [apply show_uint_digits|].
  intros c Hc. unfold is_ascii_digit, in_range in Hc. bprop. unfold is_whitespace, in_range. lia.
Qed.

Lemma last_port_last found a n : n <= u16_max -> last_port found (a ++ ["port"%str; show_uint n]) = Some n.
Proof.
  intros Hn. revert found. induction a as [|x a IH]; intros found; [|apply IH].
  cbn [app last_port]. change (str_eqb "port"%str "port") with true. cbn iota. rewrite parse_show_uint by done. by destruct (str_eqb _ _).
Qed.

Lemma port_read a n : n <= u16_max ->
  last_port_token (a ++ " port "%str ++ show_uint n) = Some n /\ last_port_token (a ++ " port "%str ++ show_uint n ++ " "%str) = Some n.
Proof.
  intros Hn. unfold last_port_token.
  change (a ++ " port "%str ++ show_uint n) with (a ++ 32 :: "port"%str ++ 32 :: show_uint n).
  change (a ++ " port "%str ++ show_uint n ++ " "%str) with (a ++ 32 :: "port"%str ++ 32 :: show_uint n ++ 32 :: []).
  rewrite !words_app, words_number. change (split_whitespace "port"%str) with ["port"%str]. cbn [split_whitespace words_go is_empty].
  rewrite !app_nil_r. cbn [app]. by split; apply last_port_last.
Qed.

Lemma split_arrow L R : "-"%ch ∉ L -> split_once_str "->"%str (L ++ "->"%str ++ R) = Some (L, R).
Proof.
  induction L as [|c L IH]; intros Hn.
  - cbn [app]. destruct R; done.
  - rewrite not_elem_of_cons in Hn. destruct Hn as [Hc Hn].
    change ((c :: L) ++ ?x) with (c :: (L ++ x)). specialize (IH Hn). revert IH. generalize (L ++ "->"%str ++ R) as X. intros X IH.
    assert (strip_prefix "->"%str (c :: X) = None) as Hs.
    { destruct (strip_prefix _ _) eqn:E; [|done]. apply strip_prefix_Some in E. by injection E as ->. }
    cbn [split_once_str]. by rewrite Hs, IH.
Qed.

Lemma show_no_dash n : "-"%ch ∉ show_uint n.
Proof. intros Hin. pose proof (show_uint_digits n) as H. rewrite Forall_forall in H. by specialize (H _ Hin). Qed.

Lemma v4_no_dash ip : "-"%ch ∉ Ipv4Addr_fmt ip.
Proof.
  unfold Ipv4Addr_fmt, join_char. rewrite !not_elem_of_app, !not_elem_of_cons, !not_elem_of_app, !not_elem_of_cons, !not_elem_of_app, !not_elem_of_cons.
  split_and!; try done; apply show_no_dash.
Qed.

(** A redirect line [rdr ... port from -> target port to]. *)
Lemma rule_target body target from to : "-"%ch ∉ body -> from <= u16_max -> to <= u16_max ->
  target_of_line ("rdr "%str ++ body ++ " port "%str ++ show_uint from ++ " -> "%str ++ target ++ " port "%str ++ show_uint to)
  = Some (from, to).
Proof.
  intros Hb Hf Ht. unfold target_of_line.
  change (trim_start ("rdr "%str ++ ?x)) with ("rdr "%str ++ x). change (starts_with "rdr "%str ("rdr "%str ++ ?x)) with true. cbn [negb].
  match goal with |- context [split_once_str _ ?t] =>
    replace t with (("rdr "%str ++ body ++ " port "%str ++ show_uint from ++ " "%str) ++ "->"%str ++ " "%str ++ target ++ " port "%str ++ show_uint to)
    by (by rewrite <- !app_assoc) end.
  rewrite split_arrow.
  - cbn [mbind option_bind]. rewrite (app_assoc "rdr "%str body). rewrite (proj2 (port_read ("rdr "%str ++ body) from Hf)).
    cbn [mbind option_bind]. rewrite (app_assoc " "%str target). by rewrite (proj1 (port_read (" "%str ++ target) to Ht)).
  - rewrite !not_elem_of_app. split_and!; try done; try apply show_no_dash; by apply contains_char_false.
Qed.

Lemma lan_rule_shape ip from to : lan_rule ip from to =
  "rdr "%str ++ ("pass inet proto tcp from "%str ++ lan_sources ++ " to "%str ++ Ipv4Addr_fmt ip) ++ " port "%str ++ show_uint from
  ++ " -> "%str ++ Ipv4Addr_fmt ip ++ " port "%str ++ show_uint to.
Proof. unfold lan_rule. by rewrite <- !app_assoc. Qed.

Lemma lan_rule_target ip from to : from <= u16_max -> to <= u16_max -> target_of_line (lan_rule ip from to) = Some (from, to).
Proof.
  intros Hf Ht. rewrite lan_rule_shape. apply rule_target; try done. rewrite !not_elem_of_app.
  split_and!; try apply v4_no_dash; by apply contains_char_false.
Qed.

Lemma loopback_rule_target from to : from <= u16_max -> to <= u16_max -> target_of_line (loopback_rule from to) = Some (from, to).
Proof.
  intros Hf Ht. apply (rule_target "pass on lo0 inet proto tcp from any to any"%str "127.0.0.1"%str); try done. by apply contains_char_false.
Qed.

Lemma rule_clean a n : NL ∉ a -> clean_line (a ++ show_uint n).
Proof.
  intros Ha. pose proof (show_uint_digits n) as Hd. rewrite Forall_forall in Hd. split.
  - rewrite not_elem_of_app. split; [done|]. intros H. by specialize (Hd _ H).
  - apply strip_suffix_None. intros r Hr. destruct (exists_last (show_uint_ne n)) as (d & y & Hy). rewrite Hy, app_assoc in Hr.
    apply app_inj_tail in Hr as [_ ->]. assert (13 ∈ show_uint n) as Hin by (rewrite Hy; set_solver). by specialize (Hd _ Hin).
Qed.

Lemma digits_no_nl n : NL ∉ show_uint n.
Proof. intros Hin. pose proof (show_uint_digits n) as H. rewrite Forall_forall in H. by specialize (H _ Hin). Qed.

Lemma v4_no_nl ip : NL ∉ Ipv4Addr_fmt ip.
Proof.
  unfold Ipv4Addr_fmt, join_char. rewrite !not_elem_of_app, !not_elem_of_cons, !not_elem_of_app, !not_elem_of_cons, !not_elem_of_app, !not_elem_of_cons.
  split_and!; try done; apply digits_no_nl.
Qed.

Lemma loopback_rule_clean from to : clean_line (loopback_rule from to).
Proof.
  unfold loopback_rule. rewrite !app_assoc. apply rule_clean. rewrite !not_elem_of_app.
  split_and!; try apply digits_no_nl; by apply contains_char_false.
Qed.

Lemma lan_rule_clean ip from to : clean_line (lan_rule ip from to).
Proof.
  unfold lan_rule. rewrite !app_assoc. apply rule_clean. rewrite !not_elem_of_app.
  split_and!; try apply digits_no_nl; try apply v4_no_nl; by apply contains_char_false.
Qed.

Lemma parse_targets a b http https : clean_line a -> clean_line b ->
  target_of_line a = Some (80, http) -> target_of_line b = Some (443, https) -> parse_anchor_targets (unlines [a; b]) = Some (http, https).
Proof.
  intros Ha Hb Ta Tb. unfold parse_anchor_targets. rewrite str_lines_clean
    by (apply Forall_cons_2; [done|]; apply Forall_cons_2; [done|]; apply Forall_nil_2).
  cbn [foldl]. unfold note_target. by rewrite Ta, Tb.
Qed.

(** ** The edits of [pf.conf] *)

(** A file in which neither anchor is mentioned. *)
Definition unmanaged (l : str) : Prop := contains_str MARKER l = false /\ contains_str LAN_MARKER l = false.

(** The text [remove_refs_for] gives for the lines it keeps. *)
Definition file_of (lines : list str) : str := if is_empty (join_char NL lines) then [] else unlines lines.

Lemma remove_refs_lines ls marker : Forall clean_line ls ->
  remove_refs_for (unlines ls) marker = file_of (bfilter (fun l => negb (contains_str marker l)) ls).
Proof.
  intros Hc. unfold remove_refs_for, file_of. rewrite str_lines_clean by done.
  set (kept := bfilter _ ls). clearbody kept.
  destruct (is_empty (join_char NL kept)) eqn:E; [by apply is_empty_true in E|]. apply join_lines_unlines. by intros ->.
Qed.

Lemma loop_lines : clean_line (rdr_anchor_line_for ANCHOR_NAME MARKER) /\ clean_line (load_anchor_line_for ANCHOR_NAME ANCHOR_PATH MARKER) /\
  clean_line (rdr_anchor_line_for LAN_ANCHOR_NAME LAN_MARKER) /\ clean_line (load_anchor_line_for LAN_ANCHOR_NAME LAN_ANCHOR_PATH LAN_MARKER).
Proof. split_and!; (split; [by apply contains_char_false|by vm_compute]). Qed.

Lemma installed_with_refs name path marker ls : clean_line (rdr_anchor_line_for name marker) ->
  clean_line (load_anchor_line_for name path marker) -> Forall clean_line ls ->
  contains_str marker (rdr_anchor_line_for name marker) && contains_str (in_quotes name) (rdr_anchor_line_for name marker) = true ->
  is_installed_for (unlines (with_refs name path marker ls)) name marker = true.
Proof.
  intros Hr Hl Hls Hm. unfold is_installed_for. rewrite str_lines_clean by (by apply with_refs_clean).
  apply existsb_elem. exists (rdr_anchor_line_for name marker). split; [|done]. unfold with_refs. apply elem_of_app. right. by left.
Qed.

Lemma not_installed ls name marker : Forall clean_line ls -> Forall (fun l => contains_str marker l = false) ls ->
  is_installed_for (unlines ls) name marker = false.
Proof.
  intros Hc Hm. unfold is_installed_for. rewrite str_lines_clean by done. apply existsb_none.
  intros l Hl. rewrite Forall_forall in Hm. by rewrite (Hm l Hl).
Qed.

Lemma join_with_mark name path marker a b : join_char NL (a ++ rdr_anchor_line_for name marker :: b ++ [load_anchor_line_for name path marker]) <> [].
Proof.
  intros H. assert (join_char NL (a ++ rdr_anchor_line_for name marker :: b ++ [load_anchor_line_for name path marker]) ++ [NL] = [NL]) as Hn by by rewrite H.
  rewrite join_lines_unlines in Hn by (by destruct a). rewrite unlines_app, unlines_cons in Hn. apply (f_equal length) in Hn.
  rewrite !length_app in Hn. cbn [length] in Hn. unfold rdr_anchor_line_for in Hn.
  rewrite ?length_app in Hn. cbn [length] in Hn. lia.
Qed.

Lemma unmanaged_edits ls : Forall clean_line ls -> Forall unmanaged ls ->
  let c := unlines ls in
  remove_anchor_refs (insert_anchor_refs c) = file_of ls /\ remove_lan_anchor_refs (insert_lan_anchor_refs c) = file_of ls /\
  remove_lan_anchor_refs (insert_lan_anchor_refs (insert_anchor_refs c)) = insert_anchor_refs c /\
  remove_anchor_refs (insert_lan_anchor_refs (insert_anchor_refs c)) = insert_lan_anchor_refs c.
Proof.
  intros Hc Hu. cbv zeta. destruct loop_lines as (Hr & Hl & Hr' & Hl').
  assert (Forall (fun l => contains_str MARKER l = false) ls /\ Forall (fun l => contains_str LAN_MARKER l = false) ls) as [Hm Hm']
    by (split; (eapply Forall_impl; [exact Hu|]); by intros l []).
  assert (Forall (fun l => negb (contains_str MARKER l) = true) ls /\ Forall (fun l => negb (contains_str LAN_MARKER l) = true) ls) as [Hk Hk']
    by (split; [eapply Forall_impl; [exact Hm|]|eapply Forall_impl; [exact Hm'|]]; intros l H; cbn in *; by rewrite H).
  unfold remove_anchor_refs, remove_lan_anchor_refs, insert_anchor_refs, insert_lan_anchor_refs.
  set (W := with_refs ANCHOR_NAME ANCHOR_PATH MARKER ls). assert (Forall clean_line W) as HW by by apply with_refs_clean.
  assert (Forall (fun l => contains_str LAN_MARKER l = false) W) as HWm.
  { unfold W, with_refs. apply Forall_app. split; [by apply Forall_take|]. constructor; [by vm_compute|].
    apply Forall_app. split; [by apply Forall_drop|]. constructor; [by vm_compute|constructor]. }
  assert (Forall (fun l => negb (contains_str LAN_MARKER l) = true) W) as HWk
    by (eapply Forall_impl; [exact HWm|]; intros l H; cbn in *; by rewrite H).
  assert (forall ms, ms <> [] -> join_char NL ms <> [] -> file_of ms = unlines ms) as Hfile.
  { intros ms _ Hne. unfold file_of. by rewrite (proj2 (is_empty_false _)). }
  rewrite !insert_refs_lines, !str_lines_clean by (done || by apply not_installed). fold W.
  rewrite (insert_refs_lines (unlines W)), (str_lines_clean W) by (done || by apply not_installed).
  rewrite !remove_refs_lines by (done || by apply with_refs_clean). split_and!.
  - unfold W. rewrite without_refs by by vm_compute. by rewrite bfilter_all_kept.
  - rewrite without_refs by by vm_compute. by rewrite bfilter_all_kept.
  - rewrite without_refs by by vm_compute. rewrite bfilter_all_kept by done. apply Hfile; unfold W, with_refs; [by destruct (take _ _)|].
    apply join_with_mark.
  - unfold W. rewrite two_anchors by (done || by vm_compute). apply Hfile; unfold with_refs; [by destruct (take _ _)|]. apply join_with_mark.
Qed.

(** Edits of the packet filter's configuration. On a file of clean lines: after
    inserting an anchor's references it is recognised as installed and inserting
    again changes nothing. On one that mentions neither anchor, besides: removing what
    was inserted gives the file back; with both anchors inserted, removing either
    leaves exactly the file with the other; and the ports of the rules that were
    written are the ports read back from them. *)
Theorem pf_conf_edits_exact ls (Hc : Forall clean_line ls) :
  let c := unlines ls in
  is_installed (insert_anchor_refs c) = true /\ insert_anchor_refs (insert_anchor_refs c) = insert_anchor_refs c /\
  is_lan_installed (insert_lan_anchor_refs c) = true /\ insert_lan_anchor_refs (insert_lan_anchor_refs c) = insert_lan_anchor_refs c /\
  (Forall unmanaged ls ->
     remove_anchor_refs (insert_anchor_refs c) = file_of ls /\ remove_lan_anchor_refs (insert_lan_anchor_refs c) = file_of ls /\
     remove_lan_anchor_refs (insert_lan_anchor_refs (insert_anchor_refs c)) = insert_anchor_refs c /\
     remove_anchor_refs (insert_lan_anchor_refs (insert_anchor_refs c)) = insert_lan_anchor_refs c) /\
  (forall ip http https, http <= u16_max -> https <= u16_max ->
     parse_anchor_targets (compose_anchor_rules 80 http 443 https) = Some (http, https) /\
     parse_anchor_targets (compose_lan_anchor_rules ip 80 http 443 https) = Some (http, https)).
Proof.
  cbv zeta. destruct loop_lines as (Hr & Hl & Hr' & Hl').
  assert (forall name path marker, clean_line (rdr_anchor_line_for name marker) -> clean_line (load_anchor_line_for name path marker) ->
    contains_str marker (rdr_anchor_line_for name marker) && contains_str (in_quotes name) (rdr_anchor_line_for name marker) = true ->
    is_installed_for (insert_refs_for (unlines ls) name path marker) name marker = true) as Hinst.
  { intros name path marker H1 H2 H3. destruct (is_installed_for (unlines ls) name marker) eqn:E.
    - unfold insert_refs_for. by rewrite E.
    - rewrite insert_refs_lines, str_lines_clean by done. by apply installed_with_refs. }
  assert (forall name path marker text, is_installed_for text name marker = true -> insert_refs_for text name path marker = text) as Hid.
  { intros name path marker text H. unfold insert_refs_for. by rewrite H. }
  pose proof (Hinst ANCHOR_NAME ANCHOR_PATH MARKER Hr Hl eq_refl) as Hi1.
  pose proof (Hinst LAN_ANCHOR_NAME LAN_ANCHOR_PATH LAN_MARKER Hr' Hl' eq_refl) as Hi2.
  split; [done|]. split; [by apply Hid|]. split; [done|]. split; [by apply Hid|]. split.
  - intros Hu. apply unmanaged_edits; done.
  - intros ip http https Hh Hs. split; apply parse_targets; try apply loopback_rule_clean; try apply lan_rule_clean;
      (apply loopback_rule_target || apply lan_rule_target); done.
Qed.

Definition demo_pf : list str :=
  ["scrub-anchor com.apple"%str; "nat-anchor com.apple"%str; "rdr-anchor com.apple"%str; "anchor com.apple"%str; "load anchor com.apple"%str].

Lemma pf_conf_edits_exact_witness :
  remove_anchor_refs (insert_lan_anchor_refs (insert_anchor_refs (unlines demo_pf))) = insert_lan_anchor_refs (unlines demo_pf).
Proof.
  assert (Forall clean_line demo_pf) as Hc.
  { repeat apply Forall_cons_2; try apply Forall_nil_2; (split; [by apply contains_char_false|by vm_compute]). }
  assert (Forall unmanaged demo_pf) as Hu.
  { repeat apply Forall_cons_2; try apply Forall_nil_2; (split; by vm_compute). }
  destruct (pf_conf_edits_exact demo_pf Hc) as (_ & _ & _ & _ & H & _). apply H. exact Hu.
Defined.
