(* ===== verification/Helper.v ===== *)
(** * The privileged helper

    [src/bin/orcker-helper/src]: the arguments ([cli.rs]), the privilege check
    ([privilege.rs]), the validators ([validate.rs]), the operations for Linux and
    macOS ([ops/]), the dispatcher ([exec.rs]), the exit codes ([error.rs]) and
    [main.rs].  The machine is a [World]: the files, the log of what the helper did
    to it, and a counter of the calls made so far, which indexes what the system
    answers ([Sys]): any call may fail, any command may do anything to the files. *)

From S2P Require Import Prelude RustStr RustText Utf8 RustPath CoreError DnsLabel Tld Net SockAddr HelperArgv ResolverFiles PfAnchor.

Open Scope N_scope.

(** ** [error.rs] *)

Inductive ValidationReason :=
| BadFingerprintHex
| PathNotAbsolute (p : OsString)
| PathMissing (p : OsString)
| PathNotFile (p : OsString)
| BinaryNameUnexpected (name : str)
| TldInvalid (raw : str)
| ExpectedSingleCertPem (count : N)
| PemParseFailed
| CertNotOrckerOwned (found_cn : option str)
| NoAnchorDir
| PortInvalid (flag : str)
| LanIpInvalid.

Inductive CommandReason := Spawn (source : io_kind) | NonZero (code : N) | Signal | NotFound.

Inductive HelperError :=
| ArgvUsage (message : str)
| ArgvData (e : ArgvParseError)
| NotPrivileged
| Unsupported (operation : str)
| Validation (reason : ValidationReason)
| FingerprintMismatch (expected actual : str)
| HIo (path : OsString) (source : io_kind)
| Command (tool : str) (reason : CommandReason)
| ResolverPostcondition (reason : str)
| WireDrift (clap from_argv : str).

Definition exit_code (err : HelperError) : N :=
  match err with
  | ArgvUsage _ => 64
  | ArgvData _ | Validation _ | FingerprintMismatch _ _ => 65
  | Command _ NotFound => 69
  | WireDrift _ _ => 70
  | HIo _ _ => 74
  | Command _ _ => 75
  | ResolverPostcondition _ => 75
  | NotPrivileged => 77
  | Unsupported _ => 78
  end.

(** ** The machine *)

Notation Path := OsString (only parsing).
Notation bytes := (list N) (only parsing).
Notation Files := (gmap (list N) (list N)) (only parsing).

(** What the helper does to the machine. *)
Inductive Act :=
| MadeDir (dir : Path)
| Created (p : Path) (mode : N)
| Wrote (p : Path) (data : bytes)
| Renamed (src dst : Path)
| Removed (p : Path)
| Ran (program : str) (args : list OsString) (env : list (str * str)).

Record World := mkWorld { w_files : Files; w_acts : list Act; w_time : nat }.

Record Meta := mkMeta { m_is_dir : bool; m_is_file : bool; m_uid : N; m_mode : N }.

(** An exited process: its code, unless a signal ended it, and its output. *)
Record Output := mkOutput { o_code : option N; o_stdout : bytes }.

(** What the system answers to the [n]-th call. *)
Record Sys := mkSys {
  read_fault : nat -> option io_kind;
  write_fault : nat -> option io_kind;
  partly_written : nat -> nat;
  run : nat -> str -> list OsString -> Files -> result io_kind Output * Files;
  metadata : nat -> Path -> option Meta;
  read_dir : nat -> Path -> result io_kind (list OsString);
  exchange : nat -> bytes -> option bytes;
  clock_secs : nat -> N
}.

(** PEM, hashing and X.509, as the crates behind [pem_match.rs] and
    [cert_identity.rs] do them. *)
Record Pem := mkPem { pem_tag : str; pem_contents : bytes }.
Class Certs := {
  parse_many : bytes -> option (list Pem);
  pem_encode : Pem -> bytes;
  sha256 : bytes -> bytes;
  subject_common_name : bytes -> option str
}.

Definition M (E A : Type) : Type := World -> result E A * World.
#[export] Instance M_ret E : MRet (M E) := fun A a w => (Ok a, w).
#[export] Instance M_bind E : MBind (M E) := fun A B k m w =>
  match m w with
  | (Ok a, w) => k a w
  | (Err e, w) => (Err e, w)
  end.
Definition throw {E A} (e : E) : M E A := fun w => (Err e, w).
Definition emap {E F A} (f : E -> F) (m : M E A) : M F A := fun w => let '(r, w) := m w in (map_err f r, w).
(** The result of a call, whatever it is. *)
Definition attempt {E F A} (m : M E A) : M F (result E A) := fun w => let '(r, w) := m w in (Ok r, w).
Definition lift {E A} (r : result E A) : M E A := fun w => (r, w).

Definition IoAlreadyExists : io_kind := IoOther 17.
Definition IoInvalidData : io_kind := IoOther 22.

Section system.
Context (sys : Sys).

Definition act (a : Act) (w : World) : World := mkWorld (w_files w) (w_acts w ++ [a]) (w_time w).
Definition set_files (fs : Files) (w : World) : World := mkWorld fs (w_acts w) (w_time w).
Definition tick (w : World) : World := mkWorld (w_files w) (w_acts w) (S (w_time w)).

(** One call that only looks. *)
Definition look {A} (f : nat -> World -> result io_kind A) : M io_kind A := fun w =>
  (match read_fault sys (w_time w) with Some k => Err k | None => f (w_time w) w end, tick w).

(** One call that changes the file system, or fails without changing it. *)
Definition change {A} (f : World -> result io_kind A * World) : M io_kind A := fun w =>
  match write_fault sys (w_time w) with
  | Some k => (Err k, tick w)
  | None => let '(r, w') := f w in (r, tick w')
  end.

(** [std::fs] *)
Definition fs_read (p : Path) : M io_kind bytes := look (fun _ w =>
  match w_files w !! p with Some b => Ok b | None => Err IoNotFound end).
Definition fs_read_to_string (p : Path) : M io_kind str :=
  b ← fs_read p; lift (ok_or IoInvalidData (from_utf8 b)).
Definition fs_metadata (p : Path) : M io_kind Meta := look (fun n _ => ok_or IoNotFound (metadata sys n p)).
Definition fs_read_dir (p : Path) : M io_kind (list OsString) := look (fun n _ => read_dir sys n p).
Definition fs_create_dir_all (p : Path) : M io_kind unit := change (fun w => (Ok tt, act (MadeDir p) w)).
Definition fs_create_new (p : Path) (mode : N) : M io_kind unit := change (fun w =>
  match w_files w !! p with
  | Some _ => (Err IoAlreadyExists, w)
  | None => (Ok tt, act (Created p mode) (set_files (<[p := []]> (w_files w)) w))
  end).
(** A failed write leaves a part of the data. *)
Definition fs_write_all (p : Path) (data : bytes) : M io_kind unit := fun w =>
  let w' := act (Wrote p data) w in
  match write_fault sys (w_time w) with
  | Some k => (Err k, tick (set_files (<[p := take (partly_written sys (w_time w)) data]> (w_files w)) w'))
  | None => (Ok tt, tick (set_files (<[p := data]> (w_files w)) w'))
  end.
Definition fs_sync_all : M io_kind unit := change (fun w => (Ok tt, w)).
Definition fs_rename (src dst : Path) : M io_kind unit := change (fun w =>
  match w_files w !! src with
  | Some b => (Ok tt, act (Renamed src dst) (set_files (<[dst := b]> (delete src (w_files w))) w))
  | None => (Err IoNotFound, w)
  end).
Definition fs_remove_file (p : Path) : M io_kind unit := change (fun w =>
  match w_files w !! p with
  | Some _ => (Ok tt, act (Removed p) (set_files (delete p (w_files w)) w))
  | None => (Err IoNotFound, w)
  end).

(** ** [ops/mod.rs] *)

Definition PINNED_PATH : str := "/usr/sbin:/usr/bin:/sbin:/bin"%str.

Definition run_command (tool program : str) (args : list OsString) : M HelperError Output := fun w =>
  let '(r, fs) := run sys (w_time w) program args (w_files w) in
  let w := tick (act (Ran program args [("PATH"%str, PINNED_PATH)]) (set_files fs w)) in
  match r with
  | Err source => (Err (Command tool (match source with IoNotFound => NotFound | _ => Spawn source end)), w)
  | Ok output =>
      match o_code output with
      | Some 0 => (Ok output, w)
      | Some code => (Err (Command tool (NonZero code)), w)
      | None => (Err (Command tool Signal), w)
      end
  end.

Definition tmp_path (parent path : Path) : Path :=
  path_join parent ("."%str ++ default "file"%str (n ← file_name path; _ ← to_str n; Some n) ++ ".orcker-tmp"%str).

Definition atomic_write (path : Path) (data : bytes) (mode_public : bool) : M HelperError unit :=
  match path_parent path with
  | None => throw (HIo path (IoOther 22))
  | Some parent =>
      _ ← emap (HIo parent) (fs_create_dir_all parent);
      let mode := if mode_public then 420 else 384 in
      let tmp := tmp_path parent path in
      _ ← emap (HIo tmp) (fs_create_new tmp mode);
      _ ← emap (HIo tmp) (fs_write_all tmp data);
      _ ← emap (HIo tmp) fs_sync_all;
      emap (HIo path) (fs_rename tmp path)
  end.

(** ** [validate.rs] *)

Definition require_existing_file (path : Path) : M HelperError unit :=
  if negb (is_absolute path) then throw (Validation (PathNotAbsolute path))
  else
    meta ← emap (fun _ => Validation (PathMissing path)) (fs_metadata path);
    if negb (m_is_file meta) then throw (Validation (PathNotFile path)) else mret tt.

Definition require_basename_orckerd (path : Path) : M HelperError unit :=
  let basename := default [] (n ← file_name path; to_str n) in
  if negb (str_eqb basename "orckerd") then throw (Validation (BinaryNameUnexpected basename)) else mret tt.

Definition require_valid_tld (raw : str) : M HelperError Tld :=
  lift (map_err (fun _ => Validation (TldInvalid raw)) (Tld_new raw)).

Section certs.
Context `{Hex} `{Certs}.

Definition is_certificate (b : Pem) : bool := str_eqb (pem_tag b) "CERTIFICATE".

Definition require_pem_matches_fingerprint (pem_path : Path) (expected : CaFingerprint) : M HelperError bytes :=
  content ← emap (HIo pem_path) (fs_read pem_path);
  blocks ← lift (ok_or (Validation PemParseFailed) (parse_many content));
  let certs := bfilter is_certificate blocks in
  if negb (vlen certs =? 1) then throw (Validation (ExpectedSingleCertPem (vlen certs)))
  else
    let der := match certs with c :: _ => pem_contents c | [] => [] end in
    let actual := sha256 der in
    if negb (bool_decide (actual = fp_bytes expected))
    then throw (FingerprintMismatch (hex_encode (fp_bytes expected)) (hex_encode actual))
    else mret der.

(** ** [pem_match.rs] *)

Record PemMatch := mkPemMatch { pm_path : Path; block_index : nat }.

Fixpoint match_blocks (fingerprint : bytes) (i : nat) (blocks : list Pem) : option nat :=
  match blocks with
  | [] => None
  | b :: rest =>
      if is_certificate b then
        if bool_decide (sha256 (pem_contents b) = fingerprint) then Some i else match_blocks fingerprint (S i) rest
      else match_blocks fingerprint i rest
  end.

Fixpoint find_by_fingerprint (blobs : list (Path * bytes)) (fingerprint : bytes) : result Path (option PemMatch) :=
  match blobs with
  | [] => Ok None
  | (path, content) :: rest =>
      match parse_many content with
      | None => Err path
      | Some parsed =>
          match match_blocks fingerprint 0 parsed with
          | Some i => Ok (Some (mkPemMatch path i))
          | None => find_by_fingerprint rest fingerprint
          end
      end
  end.

Definition der_to_pem (der : bytes) : bytes := pem_encode (mkPem "CERTIFICATE"%str der).

Definition matching_cert (fingerprint : bytes) (b : Pem) : bool :=
  is_certificate b && bool_decide (sha256 (pem_contents b) = fingerprint).

Fixpoint cert_der_for_fingerprint (blobs : list (Path * bytes)) (fingerprint : bytes) : option bytes :=
  match blobs with
  | [] => None
  | (_, content) :: rest =>
      match parse_many content with
      | None => cert_der_for_fingerprint rest fingerprint
      | Some parsed =>
          match find_first (matching_cert fingerprint) parsed with
          | Some b => Some (pem_contents b)
          | None => cert_der_for_fingerprint rest fingerprint
          end
      end
  end.

(** ** [ops/ca.rs] *)

Definition CA_COMMON_NAME : str := "Orcker Local CA"%str.

Definition cert_is_orcker_owned (cert_der : bytes) : bool :=
  bool_decide (subject_common_name cert_der = Some CA_COMMON_NAME).

Definition ANCHOR_DIRS : list Path :=
  ["/usr/local/share/ca-certificates"%str; "/etc/pki/ca-trust/source/anchors"%str; "/etc/ca-certificates/trust-source/anchors"%str].

Definition linux_post_install_cmd (anchor_dir : Path) : option (str * list OsString) :=
  s ← to_str anchor_dir;
  if str_eqb s "/usr/local/share/ca-certificates" then Some ("update-ca-certificates"%str, [])
  else if str_eqb s "/etc/pki/ca-trust/source/anchors" then Some ("update-ca-trust"%str, ["extract"%str])
  else if str_eqb s "/etc/ca-certificates/trust-source/anchors" then Some ("trust"%str, ["extract-compat"%str])
  else None.

(** [Path::is_dir], which is false when the metadata cannot be read. *)
Definition is_dir {E} (p : Path) : M E bool :=
  m ← attempt (fs_metadata p); mret (match m with Ok meta => m_is_dir meta | Err _ => false end).

Fixpoint pick_dir (dirs : list Path) : M HelperError Path :=
  match dirs with
  | [] => throw (Validation NoAnchorDir)
  | dir :: rest => d ← is_dir dir; if d : bool then mret dir else pick_dir rest
  end.
Definition pick_anchor_dir : M HelperError Path := pick_dir ANCHOR_DIRS.

Definition anchor_filename (fp : CaFingerprint) : str :=
  "orcker-"%str ++ take 16 (hex_encode (fp_bytes fp)) ++ ".crt"%str.

Definition post_install (anchor_dir : Path) : M HelperError unit :=
  '(tool, args) ← lift (ok_or (Validation NoAnchorDir) (linux_post_install_cmd anchor_dir));
  _ ← run_command tool tool args;
  mret tt.

Definition install_ca (pem_path : Path) (fp : CaFingerprint) : M HelperError unit :=
  _ ← require_existing_file pem_path;
  der ← require_pem_matches_fingerprint pem_path fp;
  anchor_dir ← pick_anchor_dir;
  let dest := path_join anchor_dir (anchor_filename fp) in
  _ ← atomic_write dest (der_to_pem der) true;
  post_install anchor_dir.

Fixpoint read_anchors (anchor_dir : Path) (names : list OsString) : M HelperError (list (Path * bytes)) :=
  match names with
  | [] => mret []
  | name :: rest =>
      let path := path_join anchor_dir name in
      if negb (bool_decide ((e ← extension path; to_str e) = Some "crt"%str)) then read_anchors anchor_dir rest
      else
        content ← emap (HIo path) (fs_read path);
        blobs ← read_anchors anchor_dir rest;
        mret ((path, content) :: blobs)
  end.

Definition uninstall_ca (fp : CaFingerprint) : M HelperError unit :=
  anchor_dir ← pick_anchor_dir;
  names ← emap (HIo anchor_dir) (fs_read_dir anchor_dir);
  blobs ← read_anchors anchor_dir names;
  matched ← lift (map_err (fun _ => Validation PemParseFailed) (find_by_fingerprint blobs (fp_bytes fp)));
  match matched with
  | None => mret tt
  | Some m =>
      let der := cert_der_for_fingerprint blobs (fp_bytes fp) in
      if negb (match der with Some d => cert_is_orcker_owned d | None => false end)
      then throw (Validation (CertNotOrckerOwned (d ← der; subject_common_name d)))
      else
        _ ← emap (HIo (pm_path m)) (fs_remove_file (pm_path m));
        post_install anchor_dir
  end.

(** macOS: the System keychain, through [security]. *)
Definition KEYCHAIN : str := "/Library/Keychains/System.keychain"%str.
Definition security (args : list OsString) : M HelperError Output := run_command "security"%str "/usr/bin/security"%str args.
Definition fp_upper (fp : CaFingerprint) : str := to_ascii_uppercase (hex_encode (fp_bytes fp)).

Definition macos_find_certificate_contains (stdout fp_upper : str) : bool :=
  existsb (fun line => match strip_prefix "SHA-256 hash:"%str (trim line) with
                       | Some rest => eq_ignore_ascii_case (trim rest) fp_upper
                       | None => false
                       end) (str_lines stdout).

Definition macos_system_keychain_contains (fp : CaFingerprint) : M HelperError bool :=
  probe ← attempt (security ["find-certificate"%str; "-Z"%str; "-a"%str; KEYCHAIN]);
  match probe with
  | Ok out => mret (macos_find_certificate_contains (from_utf8_lossy (o_stdout out)) (fp_upper fp))
  | Err (Command _ (NonZero _)) => mret false
  | Err e => throw e
  end.

Definition macos_install_ca (pem_path : Path) (fp : CaFingerprint) : M HelperError unit :=
  _ ← require_existing_file pem_path;
  _ ← require_pem_matches_fingerprint pem_path fp;
  present ← macos_system_keychain_contains fp;
  _ ← (if present : bool then
         _ ← security ["delete-certificate"%str; "-Z"%str; fp_upper fp; KEYCHAIN]; mret tt
       else mret tt);
  _ ← security ["add-trusted-cert"%str; "-d"%str; "-r"%str; "trustRoot"%str; "-k"%str; KEYCHAIN;
                as_bytes (from_utf8_lossy pem_path)];
  mret tt.

Definition macos_uninstall_ca (fp : CaFingerprint) : M HelperError unit :=
  dump ← attempt (security ["find-certificate"%str; "-a"%str; "-p"%str; KEYCHAIN]);
  match dump with
  | Err (Command _ (NonZero _)) => mret tt
  | Err e => throw e
  | Ok out =>
      match cert_der_for_fingerprint [(KEYCHAIN, o_stdout out)] (fp_bytes fp) with
      | None => mret tt
      | Some der =>
          if negb (cert_is_orcker_owned der) then throw (Validation (CertNotOrckerOwned (subject_common_name der)))
          else _ ← security ["delete-certificate"%str; "-Z"%str; fp_upper fp; KEYCHAIN]; mret tt
      end
  end.
End certs.

(** ** [ops/resolver.rs] *)

Definition drop_in_path (tld : str) : Path := "/etc/systemd/resolved.conf.d/orcker-"%str ++ tld ++ ".conf"%str.
Definition networkmanager_path : Path := "/etc/NetworkManager/conf.d/orcker-dnsmasq.conf"%str.
Definition dnsmasq_path (tld : str) : Path := "/etc/NetworkManager/dnsmasq.d/orcker-"%str ++ tld ++ ".conf"%str.
Definition resolver_file_path (tld : str) : Path := "/etc/resolver/"%str ++ tld.

Definition RESOLV_CONF : Path := "/etc/resolv.conf"%str.

(** [read_to_string(p).unwrap_or_default()] *)
Definition read_or_empty {E} (p : Path) : M E str := r ← attempt (fs_read_to_string p); mret (default [] (result_ok r)).

(** [read_to_string(p).is_ok_and(f)] *)
Definition reads_as {E} (p : Path) (f : str -> bool) : M E bool :=
  r ← attempt (fs_read_to_string p); mret (match r with Ok text => f text | Err _ => false end).

(** [read(p).ok()] *)
Definition read_ok {E} (p : Path) : M E (option bytes) := r ← attempt (fs_read p); mret (result_ok r).

Definition remove_if_present (p : Path) : M HelperError bool :=
  r ← attempt (fs_remove_file p);
  match r with
  | Ok _ => mret true
  | Err IoNotFound => mret false
  | Err source => throw (HIo p source)
  end.

Definition restore_file (p : Path) (previous : option bytes) : M HelperError unit :=
  _ ← attempt (E := HelperError) (match previous with
               | Some content => atomic_write p content true
               | None => _ ← remove_if_present p; mret tt
               end);
  mret tt.

Definition reload_networkmanager : M HelperError unit :=
  _ ← run_command "nmcli"%str "nmcli"%str ["general"%str; "reload"%str; "conf"%str; "dns-full"%str]; mret tt.

Definition probe_dnsmasq {E} (tld : str) : M E bool := fun w =>
  match compose_query tld with
  | None => (Ok false, w)
  | Some query =>
      (Ok (match exchange sys (w_time w) query with
           | Some answer => response_has_loopback_a (take 512 answer)
           | None => false
           end), tick w)
  end.

Definition networkmanager_ready {E} (tld : str) : M E bool :=
  resolv ← read_or_empty RESOLV_CONF;
  if networkmanager_dnsmasq_is_active resolv then probe_dnsmasq tld else mret false.

Fixpoint wait_turns {E} (turns : nat) (tld : str) : M E bool :=
  match turns with
  | O => mret false
  | S turns => ready ← networkmanager_ready tld; if ready : bool then mret true else wait_turns turns tld
  end.
Definition wait_for_networkmanager {E} (tld : str) : M E bool := wait_turns 20 tld.

Definition not_answering : HelperError :=
  ResolverPostcondition "NetworkManager dnsmasq did not answer through the active 127.0.0.1 resolver"%str.

Definition restore_both (tld : str) (old_nm old_dns : option bytes) : M HelperError unit :=
  _ ← restore_file networkmanager_path old_nm;
  restore_file (dnsmasq_path tld) old_dns.

Definition apply_networkmanager (tld : str) : M HelperError unit :=
  _ ← reload_networkmanager;
  answered ← wait_for_networkmanager tld;
  if answered : bool then mret tt else throw not_answering.

Definition write_networkmanager (tld : str) (addr : SockAddr) : M HelperError unit :=
  _ ← atomic_write networkmanager_path (as_bytes compose_networkmanager) true;
  atomic_write (dnsmasq_path tld) (as_bytes (compose_dnsmasq tld addr)) true.

Definition replace_networkmanager (tld : str) (addr : SockAddr) : M HelperError unit :=
  old_nm ← read_ok networkmanager_path;
  old_dns ← read_ok (dnsmasq_path tld);
  written ← attempt (write_networkmanager tld addr);
  match written with
  | Err error => _ ← restore_both tld old_nm old_dns; throw error
  | Ok _ =>
      applied ← attempt (apply_networkmanager tld);
      match applied with
      | Err error =>
          _ ← restore_both tld old_nm old_dns;
          _ ← attempt (E := HelperError) reload_networkmanager;
          throw error
      | Ok _ => mret tt
      end
  end.

Definition install_networkmanager (tld : str) (addr : SockAddr) : M HelperError unit :=
  _ ← run_command "dnsmasq"%str "dnsmasq"%str ["--version"%str];
  _ ← run_command "nmcli"%str "nmcli"%str ["--version"%str];
  nm_matches ← reads_as networkmanager_path matches_networkmanager;
  files_match ← (if nm_matches : bool then reads_as (dnsmasq_path tld) (fun text => matches_dnsmasq text tld addr) else mret false);
  ready ← (if files_match : bool then networkmanager_ready tld else mret false);
  if ready : bool then mret tt else replace_networkmanager tld addr.

Definition restart_resolved : M HelperError Output :=
  run_command "systemctl"%str "systemctl"%str ["reload-or-restart"%str; "systemd-resolved"%str].

Definition install_resolver (tld : str) (addr : SockAddr) : M HelperError unit :=
  tld_obj ← require_valid_tld tld;
  resolv ← read_or_empty RESOLV_CONF;
  resolved_runtime ← is_dir "/run/systemd/resolve"%str;
  match detect_linux_backend resolv resolved_runtime with
  | SystemdResolved =>
      let dest := drop_in_path (Tld_str tld_obj) in
      let body := DropIn.compose (Tld_str tld_obj) addr in
      same ← reads_as dest (fun text => str_eqb text body);
      if same : bool then mret tt
      else _ ← atomic_write dest (as_bytes body) true; _ ← restart_resolved; mret tt
  | NetworkManager => install_networkmanager (Tld_str tld_obj) addr
  | BackendUnsupported => throw (Unsupported INSTALL_RESOLVER)
  end.

Definition uninstall_resolver (tld : str) : M HelperError unit :=
  tld_obj ← require_valid_tld tld;
  resolved_removed ← remove_if_present (drop_in_path (Tld_str tld_obj));
  nm ← remove_if_present networkmanager_path;
  dns ← remove_if_present (dnsmasq_path (Tld_str tld_obj));
  _ ← (if resolved_removed : bool then _ ← attempt (E := HelperError) restart_resolved; mret tt else mret tt);
  _ ← (if nm || dns then _ ← attempt (E := HelperError) reload_networkmanager; mret tt else mret tt);
  mret tt.

Definition BACKUP_DIR : Path := "/Library/Application Support/io.orcker.Orcker/resolver-backups"%str.

(** Nothing of the backup can fail the installation; the mode of the folder is left
    out. *)
Definition macos_back_up_existing (tld : str) (content : bytes) : M HelperError unit := fun w =>
  let secs := clock_secs sys (w_time w) in
  (made ← attempt (E := io_kind) (fs_create_dir_all BACKUP_DIR);
   match made with
   | Err _ => mret tt
   | Ok _ =>
       _ ← attempt (E := HelperError) (atomic_write (path_join BACKUP_DIR (ResolverFile.backup_filename tld secs)) content true);
       mret tt
   end) w.

Definition macos_install_resolver (tld : str) (addr : SockAddr) : M HelperError unit :=
  tld_obj ← require_valid_tld tld;
  let dest := resolver_file_path (Tld_str tld_obj) in
  existing ← attempt (fs_read_to_string dest);
  _ ← (match existing with
       | Ok text => if negb (ResolverFile.matches text addr) then macos_back_up_existing (Tld_str tld_obj) (as_bytes text) else mret tt
       | Err _ => mret tt
       end);
  atomic_write dest (as_bytes (ResolverFile.compose addr)) true.

(** [for name in &names { if ... { let _ = remove_file(...) } }] *)
Fixpoint remove_backups (tld : str) (names : list str) : M HelperError unit :=
  match names with
  | [] => mret tt
  | name :: rest =>
      _ ← (match ResolverFile.parse_backup_secs name tld with
           | Some _ => _ ← attempt (E := io_kind) (fs_remove_file (path_join BACKUP_DIR (as_bytes name))); mret tt
           | None => mret tt
           end);
      remove_backups tld rest
  end.

Definition trusted_dir (m : result io_kind Meta) : bool :=
  match m with Ok m => m_is_dir m && (m_uid m =? 0) | Err _ => false end.
Definition trusted_file (m : result io_kind Meta) : bool :=
  match m with Ok m => m_is_file m && (m_uid m =? 0) && (N.land (m_mode m) 18 =? 0) | Err _ => false end.

Definition macos_try_restore_backup (tld : str) (dest : Path) : M HelperError bool :=
  m ← attempt (fs_metadata BACKUP_DIR);
  if negb (trusted_dir m) then mret false
  else
    entries ← attempt (fs_read_dir BACKUP_DIR);
    match entries with
    | Err _ => mret false
    | Ok entries =>
        let names := omap to_str entries in
        match (latest ← ResolverFile.latest_backup names tld; ResolverFile.parse_backup_secs latest tld) with
        | None => mret false
        | Some secs =>
            let backup := path_join BACKUP_DIR (ResolverFile.backup_filename tld secs) in
            m ← attempt (fs_metadata backup);
            if negb (trusted_file m) then mret false
            else
              content ← attempt (fs_read backup);
              match content with
              | Err _ => mret false
              | Ok content =>
                  if negb (ResolverFile.restorable (from_utf8_lossy content)) then mret false
                  else
                    _ ← atomic_write dest content true;
                    _ ← remove_backups tld names;
                    mret true
              end
        end
    end.

Definition macos_uninstall_resolver (tld : str) : M HelperError unit :=
  tld_obj ← require_valid_tld tld;
  let path := resolver_file_path (Tld_str tld_obj) in
  restored ← macos_try_restore_backup (Tld_str tld_obj) path;
  if restored : bool then mret tt
  else _ ← remove_if_present path; mret tt.

(** ** [ops/setcap.rs] *)

Definition setcap (binary : Path) : M HelperError unit :=
  _ ← require_existing_file binary;
  _ ← require_basename_orckerd binary;
  _ ← run_command "setcap"%str "setcap"%str ["cap_net_bind_service=+ep"%str; as_bytes (from_utf8_lossy binary)];
  mret tt.

(** ** [ops/port_redirect.rs], [ops/lan_port_redirect.rs] *)

Definition require_nonzero (port : N) (flag : str) : M HelperError unit :=
  if port =? 0 then throw (Validation (PortInvalid flag)) else mret tt.

Definition ignore_command_failure {A} (m : M HelperError A) : M HelperError unit := _ ← attempt (E := HelperError) m; mret tt.

Definition pfctl (args : list OsString) : M HelperError Output := run_command "pfctl"%str "/sbin/pfctl"%str args.
Definition launchctl (args : list OsString) : M HelperError Output := run_command "launchctl"%str "/bin/launchctl"%str args.

(** The part the two redirects share: the anchor's rules, the reference in
    [pf.conf], the reload with its roll-back and the boot item. *)
Definition install_anchor (rules : str) (anchor_path : Path) (insert : str -> str) (plist : str) (plist_path : Path) : M HelperError unit :=
  _ ← atomic_write anchor_path (as_bytes rules) true;
  original ← emap (HIo PF_CONF_PATH) (fs_read_to_string PF_CONF_PATH);
  let updated := insert original in
  let edited := negb (str_eqb updated original) in
  _ ← (if edited then atomic_write PF_CONF_PATH (as_bytes updated) true else mret tt);
  loaded ← attempt (pfctl ["-f"%str; PF_CONF_PATH]);
  match loaded with
  | Err e =>
      _ ← (if edited then _ ← attempt (E := HelperError) (atomic_write PF_CONF_PATH (as_bytes original) true); mret tt else mret tt);
      throw e
  | Ok _ =>
      _ ← ignore_command_failure (pfctl ["-e"%str]);
      _ ← atomic_write plist_path (as_bytes plist) true;
      _ ← run_command "chown"%str "/usr/sbin/chown"%str ["root:wheel"%str; plist_path];
      _ ← ignore_command_failure (launchctl ["bootout"%str; "system"%str; plist_path]);
      _ ← launchctl ["bootstrap"%str; "system"%str; plist_path];
      mret tt
  end.

Definition install_port_redirect (http_from http_to https_from https_to : N) : M HelperError unit :=
  _ ← require_nonzero http_from "--http-from"%str;
  _ ← require_nonzero http_to "--http-to"%str;
  _ ← require_nonzero https_from "--https-from"%str;
  _ ← require_nonzero https_to "--https-to"%str;
  install_anchor (compose_anchor_rules http_from http_to https_from https_to) ANCHOR_PATH insert_anchor_refs
    compose_launchdaemon_plist PLIST_PATH.

Definition install_lan_port_redirect (lan_ip : Ipv4Addr) (http_from http_to https_from https_to : N) : M HelperError unit :=
  if v4_is_loopback lan_ip || v4_is_unspecified lan_ip then throw (Validation LanIpInvalid)
  else
    _ ← require_nonzero http_from "--http-from"%str;
    _ ← require_nonzero http_to "--http-to"%str;
    _ ← require_nonzero https_from "--https-from"%str;
    _ ← require_nonzero https_to "--https-to"%str;
    install_anchor (compose_lan_anchor_rules lan_ip http_from http_to https_from https_to) LAN_ANCHOR_PATH insert_lan_anchor_refs
      compose_lan_launchdaemon_plist LAN_PLIST_PATH.

Definition uninstall_anchor (anchor_path : Path) (remove : str -> str) (plist_path : Path) : M HelperError unit :=
  _ ← ignore_command_failure (launchctl ["bootout"%str; "system"%str; plist_path]);
  conf ← attempt (fs_read_to_string PF_CONF_PATH);
  _ ← (match conf with
       | Ok pf_conf =>
           let cleaned := remove pf_conf in
           if negb (str_eqb cleaned pf_conf) then
             _ ← atomic_write PF_CONF_PATH (as_bytes cleaned) true;
             ignore_command_failure (pfctl ["-f"%str; PF_CONF_PATH])
           else mret tt
       | Err IoNotFound => mret tt
       | Err source => throw (HIo PF_CONF_PATH source)
       end);
  _ ← remove_if_present anchor_path;
  _ ← remove_if_present plist_path;
  mret tt.

Definition uninstall_port_redirect : M HelperError unit := uninstall_anchor ANCHOR_PATH remove_anchor_refs PLIST_PATH.
Definition uninstall_lan_port_redirect : M HelperError unit := uninstall_anchor LAN_ANCHOR_PATH remove_lan_anchor_refs LAN_PLIST_PATH.

(** ** [exec.rs] *)

(** The system the helper is built for. *)
Inductive TargetOs := LinuxTarget | MacTarget.

Definition dispatch `{Hex} `{Certs} (target : TargetOs) (inv : HelperInvocation) : M HelperError unit :=
  match target, inv with
  | LinuxTarget, InstallCa pem fp => install_ca pem fp
  | LinuxTarget, UninstallCa fp => uninstall_ca fp
  | LinuxTarget, InstallResolver tld addr => install_resolver tld addr
  | LinuxTarget, UninstallResolver tld => uninstall_resolver tld
  | LinuxTarget, Setcap binary => setcap binary
  | LinuxTarget, InstallPortRedirect _ _ _ _ => throw (Unsupported INSTALL_PORT_REDIRECT)
  | LinuxTarget, UninstallPortRedirect => throw (Unsupported UNINSTALL_PORT_REDIRECT)
  | LinuxTarget, InstallLanPortRedirect _ _ _ _ _ => throw (Unsupported INSTALL_LAN_PORT_REDIRECT)
  | LinuxTarget, UninstallLanPortRedirect => throw (Unsupported UNINSTALL_LAN_PORT_REDIRECT)
  | MacTarget, InstallCa pem fp => macos_install_ca pem fp
  | MacTarget, UninstallCa fp => macos_uninstall_ca fp
  | MacTarget, InstallResolver tld addr => macos_install_resolver tld addr
  | MacTarget, UninstallResolver tld => macos_uninstall_resolver tld
  | MacTarget, Setcap _ => throw (Unsupported SETCAP)
  | MacTarget, InstallPortRedirect hf ht sf st => install_port_redirect hf ht sf st
  | MacTarget, UninstallPortRedirect => uninstall_port_redirect
  | MacTarget, InstallLanPortRedirect ip hf ht sf st => install_lan_port_redirect ip hf ht sf st
  | MacTarget, UninstallLanPortRedirect => uninstall_lan_port_redirect
  end.

(** ** [privilege.rs] *)

Fixpoint uid_line (lines : list str) : option N :=
  match lines with
  | [] => None
  | line :: rest =>
      match strip_prefix "Uid:"%str line with
      | Some fields => match split_whitespace fields with
                       | _ :: effective :: _ => parse_uint u32_max effective
                       | _ => None
                       end
      | None => uid_line rest
      end
  end.

Definition effective_uid {E} (target : TargetOs) : M E (option N) :=
  match target with
  | LinuxTarget =>
      text ← attempt (fs_read_to_string "/proc/self/status"%str);
      mret (t ← result_ok text; uid_line (str_lines t))
  | MacTarget => fun w =>
      let '(r, fs) := run sys (w_time w) "/usr/bin/id"%str ["-u"%str] (w_files w) in
      (Ok (match r with
           | Ok out => match o_code out with
                       | Some 0 => s ← from_utf8 (o_stdout out); parse_uint u32_max (trim s)
                       | _ => None
                       end
           | Err _ => None
           end), tick (act (Ran "/usr/bin/id"%str ["-u"%str] []) (set_files fs w)))
  end.

Definition is_privileged {E} (target : TargetOs) : M E bool :=
  uid ← effective_uid target; mret (bool_decide (uid = Some 0)).
End system.

(** ** [cli.rs] *)

(** The subcommands as clap gives them. *)
Inductive Op :=
| OpInstallCa (pem : OsString) (fingerprint : str)
| OpUninstallCa (fingerprint : str)
| OpInstallResolver (tld : str) (addr : SockAddr)
| OpUninstallResolver (tld : str)
| OpSetcap (binary : OsString)
| OpInstallPortRedirect (http_from http_to https_from https_to : N)
| OpUninstallPortRedirect
| OpInstallLanPortRedirect (lan_ip : Ipv4Addr) (http_from http_to https_from https_to : N)
| OpUninstallLanPortRedirect.

Record Cli := mkCli { cli_skip_priv_check : bool; cli_op : Op }.
Record ParsedCli := mkParsedCli { pc_invocation : HelperInvocation; pc_skip_priv_check : bool }.

Section cli.
Context `{Hex} `{Certs}.

Definition parse_fingerprint_str (s : str) : result HelperError CaFingerprint :=
  let bad := Validation BadFingerprintHex in
  if negb (len s =? 64) || existsb (fun c => negb (is_ascii_hexdigit c) || is_ascii_uppercase c) s then Err bad
  else match hex_decode s with
       | Some bs => if (length bs =? 32)%nat then Ok (mkFp bs) else Err bad
       | None => Err bad
       end.

Definition into_invocation (op : Op) : result HelperError HelperInvocation :=
  match op with
  | OpInstallCa pem fingerprint => fp ← parse_fingerprint_str fingerprint; Ok (InstallCa pem fp)
  | OpUninstallCa fingerprint => fp ← parse_fingerprint_str fingerprint; Ok (UninstallCa fp)
  | OpInstallResolver tld addr => Ok (InstallResolver tld addr)
  | OpUninstallResolver tld => Ok (UninstallResolver tld)
  | OpSetcap binary => Ok (Setcap binary)
  | OpInstallPortRedirect hf ht sf st => Ok (InstallPortRedirect hf ht sf st)
  | OpUninstallPortRedirect => Ok UninstallPortRedirect
  | OpInstallLanPortRedirect ip hf ht sf st => Ok (InstallLanPortRedirect ip hf ht sf st)
  | OpUninstallLanPortRedirect => Ok UninstallLanPortRedirect
  end.

(** clap's parser, and whether this is a debug build. *)
Context (try_parse_from : list OsString -> result str Cli) (debug_assertions : bool).

Definition skip_priv_check_value (cli : Cli) : bool := if debug_assertions then cli_skip_priv_check cli else false.

Definition parse (argv : list OsString) : result HelperError ParsedCli :=
  cli ← map_err ArgvUsage (try_parse_from argv);
  let skip_priv_check := skip_priv_check_value cli in
  invocation ← into_invocation (cli_op cli);
  _ ← (if debug_assertions && (1 <? length argv)%nat then
         let filtered := bfilter (fun a => negb (bool_decide (a = os "--skip-priv-check"%str))) (drop 1 argv) in
         match from_argv filtered with
         | Ok parsed =>
             if str_eqb (invocation_tag parsed) (invocation_tag invocation) then Ok tt
             else Err (WireDrift (invocation_tag invocation) (invocation_tag parsed))
         | Err _ => Ok tt
         end
       else Ok tt);
  Ok (mkParsedCli invocation skip_priv_check).

(** ** [main.rs] *)

Definition main_run (sys : Sys) (target : TargetOs) (argv : list OsString) (w : World) : N * World :=
  match parse argv with
  | Err e => (exit_code e, w)
  | Ok parsed =>
      let '(privileged, w) := (if pc_skip_priv_check parsed then (true, w)
                               else match is_privileged (E := HelperError) sys target w with
                                    | (Ok b, w) => (b, w)
                                    | (Err _, w) => (false, w)
                                    end) in
      if negb privileged then (exit_code NotPrivileged, w)
      else match dispatch sys target (pc_invocation parsed) w with
           | (Ok _, w) => (0, w)
           | (Err e, w) => (exit_code e, w)
           end
  end.
End cli.
