(* ===== verification/HelperSafe.v ===== *)
(** * What the privileged helper can do

    [helper_confined]: whatever arguments it is given and whatever the system
    answers, the helper writes and removes only entries of fixed folders that belong
    to the operation, and runs only the programs of that operation.
    [ca_operations_exact]: it installs and removes only the certificate named by the
    fingerprint.  [networkmanager_rolls_back]: a failed installation leaves the files
    of NetworkManager as they were. *)

From S2P Require Import Prelude RustStr RustText Utf8 RustPath CoreError DnsLabel Tld Net SockAddr HelperArgv ResolverFiles PfAnchor Helper.

Open Scope N_scope.

(** ** Files of a folder *)

Definition plain_dir (d : Path) : bool :=
  match split_char slash d with
  | [] :: segs => match last segs with Some s => negb (blank_segment s) && negb (ends_with "/" d) && negb (is_empty d) | None => false end
  | _ => false
  end.

(** The name of one entry. *)
Definition plain_name (name : OsString) : Prop := slash ∉ name /\ blank_segment name = false /\ name <> ".."%str.

Definition child (d : Path) (name : OsString) : Path := d ++ slash :: name.

Lemma plain_dir_spec d : plain_dir d = true -> exists segs, split_char slash d = [] :: segs /\ segs <> [] /\
  drop_while blank_segment (rev segs) = rev segs /\ ends_with "/" d = false /\ is_empty d = false.
Proof.
  unfold plain_dir. destruct (split_char slash d) as [|[|] segs]; try done. destruct (last segs) as [s|] eqn:El; [|done].
  intros H. apply andb_true_iff in H as [H H3]. apply andb_true_iff in H as [H1 H2]. apply negb_true_iff in H1, H2, H3.
  exists segs. split; [done|]. apply last_Some in El as (l & ->). split; [by destruct l|]. rewrite rev_app_distr. cbn. by rewrite H1.
Qed.

Lemma child_split d name : slash ∉ name -> split_char slash (child d name) = split_char slash d ++ [name].
Proof. intros Hn. unfold child. by rewrite split_char_app_all, (split_char_none slash name). Qed.

Lemma path_parent_child d name : plain_dir d = true -> plain_name name -> path_parent (child d name) = Some d.
Proof.
  intros Hd (Hs & Hb & _). destruct (plain_dir_spec d Hd) as (segs & Hsp & Hne & Hdw & _ & _).
  unfold path_parent. rewrite child_split, Hsp by done. cbn [app]. rewrite rev_app_distr. cbn [rev app drop_while]. rewrite Hb, Hdw, rev_involutive.
  f_equal. destruct segs as [|x segs]; [done|]. cbn [is_empty andb]. by rewrite <- Hsp, join_split.
Qed.

Lemma file_name_child d name : plain_name name -> file_name (child d name) = Some name.
Proof.
  intros (Hs & Hb & Hp). unfold file_name, components. rewrite child_split, omap_app by done. rewrite app_assoc.
  assert (omap segment_component [name] = [Normal name]) as ->.
  { cbn. unfold segment_component. unfold blank_segment in Hb. rewrite Hb. unfold str_eqb. by rewrite bool_decide_eq_false_2. }
  by rewrite last_snoc.
Qed.

Lemma path_join_child d name : plain_dir d = true -> slash ∉ name -> path_join d name = child d name.
Proof.
  intros Hd Hn. destruct (plain_dir_spec d Hd) as (segs & _ & _ & _ & He & Hem). unfold path_join.
  assert (is_absolute name = false) as ->.
  { unfold is_absolute. destruct (starts_with "/" name) eqn:E; [|done]. apply starts_with_spec in E as (r & ->). set_solver. }
  by rewrite He, Hem.
Qed.

Definition tmp_name (name : OsString) : OsString :=
  "."%str ++ default "file"%str (_ ← to_str name; Some name) ++ ".orcker-tmp"%str.

Lemma tmp_plain name : plain_name name -> plain_name (tmp_name name).
Proof.
  intros (Hs & _). unfold tmp_name. set (x := default _ _). assert (slash ∉ x) as Hx.
  { unfold x. destruct (to_str name); cbn; [done|by apply contains_char_false]. }
  split_and!.
  - rewrite !not_elem_of_app. split_and!; [by apply contains_char_false|done|by apply contains_char_false].
  - unfold blank_segment, str_eqb. rewrite !bool_decide_eq_false_2; [done|..]; cbn; [|done].
    intros [= H]. apply (f_equal length) in H. rewrite length_app in H. cbn in H. lia.
  - intros H. apply (f_equal length) in H. rewrite !length_app in H. cbn in H. lia.
Qed.

Lemma tmp_path_child d name : plain_dir d = true -> plain_name name -> tmp_path d (child d name) = child d (tmp_name name).
Proof.
  intros Hd Hn. unfold tmp_path. rewrite file_name_child by done. cbn [mbind option_bind]. fold (tmp_name name).
  apply path_join_child; [done|]. by apply tmp_plain.
Qed.

(** ** What a computation does *)

(** Every act that [m] logs satisfies [P]. *)
Definition confined {E A} (P : Act -> Prop) (m : M E A) : Prop :=
  forall w, exists acts, w_acts (m w).2 = w_acts w ++ acts /\ Forall P acts.

(** Every value [m] returns satisfies [Q]. *)
Definition returns {E A} (Q : A -> Prop) (m : M E A) : Prop := forall w a w', m w = (Ok a, w') -> Q a.

Section confined.
Context {P : Act -> Prop}.

Lemma confined_pure {E A} (m : M E A) : (forall w, w_acts (m w).2 = w_acts w) -> confined P m.
Proof. intros H w. exists []. by rewrite app_nil_r. Qed.

Lemma confined_ret {E A} (a : A) : confined P (mret a : M E A).
Proof. by apply confined_pure. Qed.
Lemma confined_throw {E A} (e : E) : confined P (throw e : M E A).
Proof. by apply confined_pure. Qed.
Lemma confined_lift {E A} (r : result E A) : confined P (lift r).
Proof. by apply confined_pure. Qed.
Lemma confined_emap {E F A} (f : E -> F) (m : M E A) : confined P m -> confined P (emap f m).
Proof. intros H w. unfold emap. destruct (H w) as (acts & Ha & HP). exists acts. by destruct (m w). Qed.
Lemma confined_attempt {E F A} (m : M E A) : confined P m -> confined P (attempt m : M F _).
Proof. intros H w. unfold attempt. destruct (H w) as (acts & Ha & HP). exists acts. by destruct (m w). Qed.

Lemma confined_bind_post {E A B} (Q : A -> Prop) (m : M E A) (k : A -> M E B) :
  confined P m -> returns Q m -> (forall a, Q a -> confined P (k a)) -> confined P (m ≫= k).
Proof.
  intros Hm HQ Hk w. unfold mbind, M_bind. destruct (Hm w) as (a1 & Ha1 & HP1). destruct (m w) as [[a|e] w'] eqn:Em; cbn in Ha1.
  - destruct (Hk a (HQ w a w' Em) w') as (a2 & Ha2 & HP2). exists (a1 ++ a2). rewrite Ha2, Ha1, <- app_assoc. split; [done|]. by apply Forall_app.
  - by exists a1.
Qed.

Lemma confined_bind {E A B} (m : M E A) (k : A -> M E B) : confined P m -> (forall a, confined P (k a)) -> confined P (m ≫= k).
Proof. intros Hm Hk. by apply (confined_bind_post (fun _ => True)). Qed.

Lemma confined_look sys {A} (f : nat -> World -> result io_kind A) : confined P (look sys f).
Proof. by apply confined_pure. Qed.

Lemma confined_change sys {A} (f : World -> result io_kind A * World) : confined P f -> confined P (change sys f).
Proof.
  intros H w. unfold change. destruct (write_fault sys (w_time w)); [exists []; by rewrite app_nil_r|].
  destruct (H w) as (acts & Ha & HP). exists acts. by destruct (f w).
Qed.

Lemma confined_run sys tool program args : P (Ran program args [("PATH"%str, PINNED_PATH)]) -> confined P (run_command sys tool program args).
Proof.
  intros H w. exists [Ran program args [("PATH"%str, PINNED_PATH)]]. split; [|by constructor]. unfold run_command.
  destruct (run sys _ _ _ _) as [[out|e] fs]; [|done]. destruct (o_code out) as [[|c]|]; done.
Qed.

Lemma confined_remove sys p : P (Removed p) -> confined P (fs_remove_file sys p).
Proof.
  intros H. apply confined_change. intros w. destruct (w_files w !! p); [exists [Removed p]|exists []]; cbn; [by split; [|constructor]|].
  by rewrite app_nil_r.
Qed.

Lemma confined_remove_if_present sys p : P (Removed p) -> confined P (remove_if_present sys p).
Proof.
  intros H. apply confined_bind; [by apply confined_attempt, confined_remove|]. intros [|[]]; apply confined_ret || apply confined_throw.
Qed.

Lemma confined_atomic_write sys path data mode d : path_parent path = Some d ->
  P (MadeDir d) -> (forall m, P (Created (tmp_path d path) m)) -> P (Wrote (tmp_path d path) data) -> P (Renamed (tmp_path d path) path) ->
  confined P (atomic_write sys path data mode).
Proof.
  intros Hp H1 H2 H3 H4. unfold atomic_write. rewrite Hp.
  apply confined_bind; [apply confined_emap, confined_change; intros w; exists [MadeDir d]; by split; [|constructor]|intros _].
  apply confined_bind.
  { apply confined_emap, confined_change. intros w. destruct (w_files w !! _); [exists []; cbn; by rewrite app_nil_r|].
    eexists [_]; by split; [|constructor]. }
  intros _. apply confined_bind.
  { apply confined_emap. intros w. unfold fs_write_all. eexists [_]. destruct (write_fault _ _); by split; [|constructor]. }
  intros _. apply confined_bind; [apply confined_emap, confined_change; by apply confined_pure|]. intros _.
  apply confined_emap, confined_change. intros w. destruct (w_files w !! _); [|exists []; cbn; by rewrite app_nil_r].
  eexists [_]; by split; [|constructor].
Qed.
End confined.

(** ** What each operation may do *)

Definition RESOLVED_DIR : Path := "/etc/systemd/resolved.conf.d"%str.
Definition NM_DIR : Path := "/etc/NetworkManager/conf.d"%str.
Definition DNSMASQ_DIR : Path := "/etc/NetworkManager/dnsmasq.d"%str.
Definition RESOLVER_DIR : Path := "/etc/resolver"%str.
Definition ANCHORS_DIR : Path := "/etc/pf.anchors"%str.
Definition ETC : Path := "/etc"%str.
Definition DAEMONS_DIR : Path := "/Library/LaunchDaemons"%str.

Definition FIXED_DIRS : list Path :=
  ANCHOR_DIRS ++ [RESOLVED_DIR; NM_DIR; DNSMASQ_DIR; RESOLVER_DIR; BACKUP_DIR; ANCHORS_DIR; ETC; DAEMONS_DIR].

Definition conf_name (tld : str) : OsString := "orcker-"%str ++ tld ++ ".conf"%str.
Definition stamp_char (c : N) : bool := is_ascii_digit c || (c =? "+"%ch).

Section allowed.
Context `{Hh : Hex}.

(** The entries an operation owns: a folder and a name in it. *)
Definition dest (target : TargetOs) (inv : HelperInvocation) (d : Path) (name : OsString) : Prop :=
  match target, inv with
  | LinuxTarget, InstallCa _ fp => d ∈ ANCHOR_DIRS /\ name = anchor_filename fp
  | LinuxTarget, UninstallCa _ => d ∈ ANCHOR_DIRS /\ plain_name name
  | LinuxTarget, InstallResolver tld _ | LinuxTarget, UninstallResolver tld =>
      exists t, Tld_new tld = Ok t /\
      (d, name) ∈ [(RESOLVED_DIR, conf_name (Tld_str t)); (NM_DIR, "orcker-dnsmasq.conf"%str); (DNSMASQ_DIR, conf_name (Tld_str t))]
  | MacTarget, InstallResolver tld _ | MacTarget, UninstallResolver tld =>
      exists t, Tld_new tld = Ok t /\
      ((d = RESOLVER_DIR /\ name = Tld_str t) \/
       (d = BACKUP_DIR /\ exists stamp, name = Tld_str t ++ "-"%str ++ stamp ++ ".conf"%str /\ Forall (fun c => stamp_char c = true) stamp))
  | MacTarget, InstallPortRedirect _ _ _ _ | MacTarget, UninstallPortRedirect =>
      (d, name) ∈ [(ANCHORS_DIR, "dev.orcker"%str); (ETC, "pf.conf"%str); (DAEMONS_DIR, "dev.orcker.pf.plist"%str)]
  | MacTarget, InstallLanPortRedirect _ _ _ _ _ | MacTarget, UninstallLanPortRedirect =>
      (d, name) ∈ [(ANCHORS_DIR, "dev.orcker.lan"%str); (ETC, "pf.conf"%str); (DAEMONS_DIR, "dev.orcker.lan.pf.plist"%str)]
  | _, _ => False
  end.

Definition redirect_commands (plist : Path) : list (str * list OsString) :=
  [("/sbin/pfctl"%str, ["-f"%str; PF_CONF_PATH]); ("/sbin/pfctl"%str, ["-e"%str]);
   ("/usr/sbin/chown"%str, ["root:wheel"%str; plist]);
   ("/bin/launchctl"%str, ["bootout"%str; "system"%str; plist]); ("/bin/launchctl"%str, ["bootstrap"%str; "system"%str; plist])].

(** The commands an operation runs. *)
Definition cmd_ok (target : TargetOs) (inv : HelperInvocation) (cmd : str * list OsString) : Prop :=
  match target, inv with
  | LinuxTarget, InstallCa _ _ | LinuxTarget, UninstallCa _ => exists d, d ∈ ANCHOR_DIRS /\ linux_post_install_cmd d = Some cmd
  | LinuxTarget, InstallResolver _ _ | LinuxTarget, UninstallResolver _ =>
      cmd ∈ [("dnsmasq"%str, ["--version"%str]); ("nmcli"%str, ["--version"%str]);
             ("nmcli"%str, ["general"%str; "reload"%str; "conf"%str; "dns-full"%str]);
             ("systemctl"%str, ["reload-or-restart"%str; "systemd-resolved"%str])]
  | LinuxTarget, Setcap binary =>
      cmd = ("setcap"%str, ["cap_net_bind_service=+ep"%str; as_bytes (from_utf8_lossy binary)]) /\
      is_absolute binary = true /\ (n ← file_name binary; to_str n) = Some "orckerd"%str
  | MacTarget, InstallCa pem fp =>
      cmd ∈ [("/usr/bin/security"%str, ["find-certificate"%str; "-Z"%str; "-a"%str; KEYCHAIN]);
             ("/usr/bin/security"%str, ["delete-certificate"%str; "-Z"%str; fp_upper fp; KEYCHAIN]);
             ("/usr/bin/security"%str, ["add-trusted-cert"%str; "-d"%str; "-r"%str; "trustRoot"%str; "-k"%str; KEYCHAIN;
                                        as_bytes (from_utf8_lossy pem)])]
  | MacTarget, UninstallCa fp =>
      cmd ∈ [("/usr/bin/security"%str, ["find-certificate"%str; "-a"%str; "-p"%str; KEYCHAIN]);
             ("/usr/bin/security"%str, ["delete-certificate"%str; "-Z"%str; fp_upper fp; KEYCHAIN])]
  | MacTarget, InstallPortRedirect _ _ _ _ | MacTarget, UninstallPortRedirect => cmd ∈ redirect_commands PLIST_PATH
  | MacTarget, InstallLanPortRedirect _ _ _ _ _ | MacTarget, UninstallLanPortRedirect => cmd ∈ redirect_commands LAN_PLIST_PATH
  | _, _ => False
  end.

(** Writing goes through a temporary entry of the same folder. *)
Definition act_ok (target : TargetOs) (inv : HelperInvocation) (a : Act) : Prop :=
  match a with
  | MadeDir d => exists name, dest target inv d name
  | Created p _ | Wrote p _ => exists d name, dest target inv d name /\ p = child d (tmp_name name)
  | Renamed src dst => exists d name, dest target inv d name /\ src = child d (tmp_name name) /\ dst = child d name
  | Removed p => exists d name, dest target inv d name /\ p = child d name
  | Ran program args env => cmd_ok target inv (program, args) /\ env = [("PATH"%str, PINNED_PATH)]
  end.
End allowed.

Lemma plain_by_chars (p : N -> bool) name : Forall (fun c => p c = true) name -> p slash = false ->
  name <> [] -> name <> "."%str -> name <> ".."%str -> plain_name name.
Proof.
  intros Hc Hs H0 H1 H2. split_and!; [|unfold blank_segment, str_eqb; by rewrite !bool_decide_eq_false_2|done].
  intros Hin. rewrite Forall_forall in Hc. specialize (Hc _ Hin). cbn in Hc. congruence.
Qed.

(** A name longer than two characters without a slash. *)
Lemma plain_long name : slash ∉ name -> (2 < length name)%nat -> plain_name name.
Proof.
  intros Hs Hl. split_and!; [done| |by intros ->; cbn in Hl; lia]. unfold blank_segment, str_eqb.
  rewrite !bool_decide_eq_false_2; [done|by intros ->; cbn in Hl; lia|by intros ->; cbn in Hl; lia].
Qed.

Lemma tld_plain raw t : Tld_new raw = Ok t -> slash ∉ Tld_str t /\ plain_name (Tld_str t).
Proof.
  intros Ht. apply Tld_new_spec in Ht as [Hv _]. unfold valid_tld in Hv. apply andb_true_iff in Hv as [Hv _].
  assert (slash ∉ Tld_str t) as Hs by (by apply dns_name_no_char). split; [done|].
  destruct (dns_name_no_edge_dot _ Hv) as [Hd _]. pose proof (dns_name_ne _ Hv) as Hne. split_and!; [done| |by intros H; rewrite H in Hd].
  unfold blank_segment, str_eqb. rewrite !bool_decide_eq_false_2; [done|by intros H; rewrite H in Hd|done].
Qed.

Lemma conf_name_plain t : slash ∉ t -> plain_name (conf_name t).
Proof.
  intros Hs. apply plain_long; [|unfold conf_name; rewrite !length_app; cbn; lia].
  unfold conf_name. rewrite !not_elem_of_app. split_and!; [by apply contains_char_false|done|by apply contains_char_false].
Qed.

(** An entry directly inside one of the folders the helper may touch. *)
Definition in_fixed (d : Path) (name : OsString) : Prop := plain_dir d = true /\ plain_name name /\ d ∈ FIXED_DIRS.

Lemma fixed_entry d name : d ∈ FIXED_DIRS -> plain_name name -> in_fixed d name.
Proof.
  intros Hd Hn. split_and!; [|done|done]. revert d Hd. apply Forall_forall. by apply (bool_decide_unpack _); vm_compute.
Qed.

Lemma fixed_member d : bool_decide (d ∈ FIXED_DIRS) = true -> d ∈ FIXED_DIRS.
Proof. apply bool_decide_eq_true_1. Qed.

Lemma fixed_name d name : bool_decide (d ∈ FIXED_DIRS) = true -> contains_char slash name = false -> (2 <? length name)%nat = true -> in_fixed d name.
Proof.
  intros Hd Hs Hl. apply fixed_entry; [by apply fixed_member|]. apply plain_long; [by apply contains_char_false|by apply Nat.ltb_lt].
Qed.

Lemma linux_resolver_fixed raw t d name : Tld_new raw = Ok t ->
  (d, name) ∈ [(RESOLVED_DIR, conf_name (Tld_str t)); (NM_DIR, "orcker-dnsmasq.conf"%str); (DNSMASQ_DIR, conf_name (Tld_str t))] ->
  in_fixed d name.
Proof.
  intros Ht Hd. destruct (tld_plain _ _ Ht) as [Hs _]. rewrite !elem_of_cons, elem_of_nil in Hd.
  destruct Hd as [[= -> ->]|[[= -> ->]|[[= -> ->]|[]]]];
    first [by apply fixed_name|apply fixed_entry; [by apply fixed_member|by apply conf_name_plain]].
Qed.

Lemma mac_resolver_fixed raw t d name : Tld_new raw = Ok t ->
  (d = RESOLVER_DIR /\ name = Tld_str t) \/
  (d = BACKUP_DIR /\ exists stamp, name = Tld_str t ++ "-"%str ++ stamp ++ ".conf"%str /\ Forall (fun c => stamp_char c = true) stamp) ->
  in_fixed d name.
Proof.
  intros Ht Hd. destruct (tld_plain _ _ Ht) as [Hs Hp]. destruct Hd as [[-> ->]|[-> (stamp & -> & Hst)]].
  - apply fixed_entry; [by apply fixed_member|done].
  - apply fixed_entry; [by apply fixed_member|]. apply plain_long; [|rewrite !length_app; cbn; lia].
    rewrite !not_elem_of_app. split_and!; [done|by apply contains_char_false| |by apply contains_char_false].
    intros Hin. rewrite Forall_forall in Hst. by specialize (Hst _ Hin).
Qed.

Lemma anchor_fixed `{HexLaws} fp d : fp_ok fp -> d ∈ ANCHOR_DIRS -> in_fixed d (anchor_filename fp).
Proof.
  intros [_ Hb] Hd. apply fixed_entry; [by apply elem_of_app; left|].
  apply plain_long; [|unfold anchor_filename; rewrite !length_app; cbn; lia].
  unfold anchor_filename. rewrite !not_elem_of_app. split_and!; [by apply contains_char_false| |by apply contains_char_false].
  intros Hin. apply elem_of_take in Hin as (i & Hi & _). apply list_elem_of_lookup_2 in Hi.
  pose proof (hex_encode_chars _ Hb) as Hc. rewrite Forall_forall in Hc. by specialize (Hc _ Hi).
Qed.

(** The fingerprint of an installation has its 32 bytes. *)
Definition inv_fp_ok (inv : HelperInvocation) : Prop := match inv with InstallCa _ fp => fp_ok fp | _ => True end.

Lemma dest_fixed `{HexLaws} target inv d name : inv_fp_ok inv -> dest target inv d name -> in_fixed d name.
Proof.
  intros Hfp Hd. destruct target, inv; cbn [dest inv_fp_ok] in *; try done.
  - destruct Hd as [Hd ->]. by apply anchor_fixed.
  - destruct Hd as [Hd Hn]. apply fixed_entry; [by apply elem_of_app; left|done].
  - destruct Hd as (t & Ht & Hd). by eapply linux_resolver_fixed.
  - destruct Hd as (t & Ht & Hd). by eapply linux_resolver_fixed.
  - destruct Hd as (t & Ht & Hd). by eapply mac_resolver_fixed.
  - destruct Hd as (t & Ht & Hd). by eapply mac_resolver_fixed.
  - rewrite !elem_of_cons, elem_of_nil in Hd. destruct Hd as [[= -> ->]|[[= -> ->]|[[= -> ->]|[]]]]; by apply fixed_name.
  - rewrite !elem_of_cons, elem_of_nil in Hd. destruct Hd as [[= -> ->]|[[= -> ->]|[[= -> ->]|[]]]]; by apply fixed_name.
  - rewrite !elem_of_cons, elem_of_nil in Hd. destruct Hd as [[= -> ->]|[[= -> ->]|[[= -> ->]|[]]]]; by apply fixed_name.
  - rewrite !elem_of_cons, elem_of_nil in Hd. destruct Hd as [[= -> ->]|[[= -> ->]|[[= -> ->]|[]]]]; by apply fixed_name.
Qed.

(** ** Each operation is confined *)

Lemma parse_uint_stamp max s n : parse_uint max s = Some n -> Forall (fun c => stamp_char c = true) s.
Proof.
  assert (forall acc s n, parse_digits max acc s = Some n -> Forall (fun c => stamp_char c = true) s) as Hd.
  { intros acc s'. revert acc. induction s' as [|c s' IH]; intros acc m; cbn [parse_digits]; [constructor|].
    destruct (is_ascii_digit c) eqn:E; [|done]. destruct (_ <=? max); [|done]. intros Hp. constructor; [by unfold stamp_char; rewrite E|by eapply IH]. }
  unfold parse_uint. destruct s as [|c [|c' s]]; [done|by apply Hd|]. destruct (c =? "+"%ch) eqn:E.
  - intros Hp. constructor; [unfold stamp_char; rewrite E; by rewrite orb_true_r|by eapply Hd].
  - by apply Hd.
Qed.

Section operations.
Context `{HL : HexLaws} `{Certs} (sys : Sys).
(** A directory is read as the names of its entries. *)
Context (Hdir : forall n p names, read_dir sys n p = Ok names -> Forall plain_name names).

Section one.
Context (target : TargetOs) (inv : HelperInvocation) (Hfp : inv_fp_ok inv).
Notation P := (act_ok target inv).

Lemma confined_write d name data mode : dest target inv d name -> confined P (atomic_write sys (child d name) data mode).
Proof.
  intros Hd. destruct (dest_fixed _ _ _ _ Hfp Hd) as (Hp & Hn & _).
  apply (confined_atomic_write sys (child d name) data mode d); [by apply path_parent_child|by exists name|..];
    rewrite tmp_path_child by done; [intros m|..]; by exists d, name.
Qed.

Lemma confined_rm d name : dest target inv d name -> confined P (remove_if_present sys (child d name)).
Proof. intros Hd. apply confined_remove_if_present. by exists d, name. Qed.

Lemma confined_cmd tool program args : cmd_ok target inv (program, args) -> confined P (run_command sys tool program args).
Proof. intros Hc. apply confined_run. by split. Qed.

Lemma confined_restore d name previous : dest target inv d name -> confined P (restore_file sys (child d name) previous).
Proof.
  intros Hd. unfold restore_file. apply confined_bind; [apply confined_attempt|intros; apply confined_ret].
  destruct previous; [by apply confined_write|]. apply confined_bind; [by apply confined_rm|intros; apply confined_ret].
Qed.
End one.

Ltac conf :=
  repeat first
  [ apply confined_ret | apply confined_throw | apply confined_lift | apply confined_look
  | apply confined_emap | apply confined_attempt
  | (apply confined_bind; [|intros ?])
  | match goal with
    | |- confined _ (if ?b then _ else _) => destruct b
    | |- confined _ (match ?x with _ => _ end) => destruct x
    end ].

Lemma confined_is_dir {E} P p : confined P (is_dir sys p : M E bool).
Proof. unfold is_dir. conf. Qed.
Lemma confined_read_or_empty {E} P p : confined P (read_or_empty sys p : M E str).
Proof. unfold read_or_empty, fs_read_to_string. conf. Qed.
Lemma confined_reads_as {E} P p f : confined P (reads_as sys p f : M E bool).
Proof. unfold reads_as, fs_read_to_string. conf. Qed.
Lemma confined_ready {E} P tld : confined P (networkmanager_ready sys tld : M E bool).
Proof.
  unfold networkmanager_ready. apply confined_bind; [apply confined_read_or_empty|intros resolv].
  destruct (networkmanager_dnsmasq_is_active resolv); [|apply confined_ret]. apply confined_pure. intros w. unfold probe_dnsmasq.
  by destruct (compose_query tld).
Qed.
Lemma confined_wait {E} P turns tld : confined P (wait_turns sys turns tld : M E bool).
Proof.
  induction turns as [|n IH]; cbn [wait_turns]; [apply confined_ret|].
  apply confined_bind; [apply confined_ready|intros []; [apply confined_ret|done]].
Qed.
Lemma confined_existing P p : confined P (require_existing_file sys p).
Proof. unfold require_existing_file. conf. Qed.
Lemma confined_pem P p fp : confined P (require_pem_matches_fingerprint sys p fp).
Proof. unfold require_pem_matches_fingerprint. conf. Qed.
Lemma confined_pick P dirs : confined P (pick_dir sys dirs).
Proof.
  induction dirs as [|d dirs IH]; cbn [pick_dir]; [apply confined_throw|].
  apply confined_bind; [apply confined_is_dir|intros []; [apply confined_ret|done]].
Qed.
Lemma confined_anchors P d names : confined P (read_anchors sys d names).
Proof. induction names as [|n names IH]; cbn [read_anchors]; conf; done. Qed.

Lemma returns_pick dirs : returns (fun d => d ∈ dirs) (pick_dir sys dirs).
Proof.
  induction dirs as [|d dirs IH]; intros w a w'; cbn [pick_dir]; [done|]. unfold mbind, M_bind.
  destruct (is_dir sys d w) as [[[|]|e] w1]; [|intros Hr; right; by eapply IH|done]. intros [= <- <-]. by left.
Qed.

Lemma returns_tld raw : returns (fun t => Tld_new raw = Ok t) (require_valid_tld raw).
Proof.
  intros w t w'. unfold require_valid_tld, lift. destruct (Tld_new raw) as [t'|e]; [|done]. by intros [= <- <-].
Qed.

Lemma post_install_confined target inv d : d ∈ ANCHOR_DIRS ->
  (forall cmd, linux_post_install_cmd d = Some cmd -> cmd_ok target inv cmd) -> confined (act_ok target inv) (post_install sys d).
Proof.
  intros Hd Hc. unfold post_install. apply (confined_bind_post (fun c => linux_post_install_cmd d = Some c)); [conf| |].
  - intros w c w'. unfold lift. destruct (linux_post_install_cmd d); [|done]. by intros [= <- <-].
  - intros [tool args] Ht. conf. apply confined_cmd. by apply Hc.
Qed.

Lemma install_ca_confined pem fp : fp_ok fp -> confined (act_ok LinuxTarget (InstallCa pem fp)) (install_ca sys pem fp).
Proof.
  intros Hfp. unfold install_ca. apply confined_bind; [apply confined_existing|intros _].
  apply confined_bind; [apply confined_pem|intros der]. apply (confined_bind_post (fun d => d ∈ ANCHOR_DIRS)); [apply confined_pick|apply returns_pick|].
  intros d Hd. destruct (anchor_fixed fp d Hfp Hd) as (Hp & [Hs _] & _). rewrite path_join_child by done.
  apply confined_bind; [by apply confined_write|intros _]. apply post_install_confined; [done|]. intros cmd Hc. by exists d.
Qed.

Lemma read_anchors_paths d names : Forall plain_name names ->
  returns (Forall (fun b => exists name, plain_name name /\ b.1 = path_join d name)) (read_anchors sys d names).
Proof.
  intros Hn. induction Hn as [|n names Hp Hn IH]; intros w a w'; cbn [read_anchors]; [by intros [= <- <-]|].
  destruct (negb _); [by apply IH|]. unfold mbind, M_bind. destruct (emap _ _ w) as [[content|e] w1]; [|done].
  destruct (read_anchors sys d names w1) as [[blobs|e] w2] eqn:E; [|done]. intros [= <- <-]. constructor; [by exists n|by eapply IH].
Qed.

Lemma found_path blobs fp m : find_by_fingerprint blobs fp = Ok (Some m) -> exists c, (pm_path m, c) ∈ blobs.
Proof.
  induction blobs as [|[p c] blobs IH]; cbn [find_by_fingerprint]; [done|]. destruct (parse_many c); [|done].
  destruct (match_blocks _ _ _); [intros [= <-]; exists c; by left|]. intros Hf. destruct (IH Hf) as (c' & Hc). exists c'. by right.
Qed.

Lemma uninstall_ca_confined fp : confined (act_ok LinuxTarget (UninstallCa fp)) (uninstall_ca sys fp).
Proof.
  unfold uninstall_ca. apply (confined_bind_post (fun d => d ∈ ANCHOR_DIRS)); [apply confined_pick|apply returns_pick|]. intros d Hd.
  apply (confined_bind_post (Forall plain_name)); [conf| |].
  { intros w a w'. unfold emap, fs_read_dir, look. destruct (read_fault sys _); [done|]. destruct (read_dir sys _ _) eqn:E; [|done].
    intros [= <- _]. by eapply Hdir. }
  intros names Hn. apply (confined_bind_post (Forall (fun b => exists name, plain_name name /\ b.1 = path_join d name)));
    [apply confined_anchors|by apply read_anchors_paths|]. intros blobs Hb.
  apply (confined_bind_post (fun m => find_by_fingerprint blobs (fp_bytes fp) = Ok m)); [conf| |].
  { intros w a w'. unfold lift. destruct (find_by_fingerprint _ _); [|done]. by intros [= <- _]. }
  intros [m|] Hm; [|conf]. destruct (negb _); [conf|]. destruct (found_path _ _ _ Hm) as (c & Hc). rewrite Forall_forall in Hb.
  destruct (Hb _ Hc) as (name & Hname & Hp). cbn in Hp.
  assert (plain_dir d = true) as Hpd by (apply (fixed_entry d "xyz"%str); [by apply elem_of_app; left|by apply plain_long; [apply contains_char_false|cbn; lia]]).
  apply confined_bind; [|intros _; apply post_install_confined; [done|by intros cmd Hcmd; exists d]].
  apply confined_emap, confined_remove. exists d, name. split; [by split|]. rewrite Hp. apply path_join_child; [done|]. by destruct Hname.
Qed.

Lemma setcap_confined binary : confined (act_ok LinuxTarget (Setcap binary)) (setcap sys binary).
Proof.
  unfold setcap. apply (confined_bind_post (fun _ => is_absolute binary = true)); [apply confined_existing| |].
  { intros w a w'. unfold require_existing_file. by destruct (is_absolute binary). }
  intros _ Ha. apply (confined_bind_post (fun _ => (n ← file_name binary; to_str n) = Some "orckerd"%str)).
  { unfold require_basename_orckerd. conf. }
  { intros w a w'. unfold require_basename_orckerd. destruct (_ ≫= _) as [b|]; cbn; [|done]. unfold str_eqb. case_bool_decide; [by subst|done]. }
  intros _ Hb. conf. apply confined_cmd. by split_and!.
Qed.

Section linux_resolver.
Context (tld : str) (t : Tld) (Ht : Tld_new tld = Ok t) (target : TargetOs) (inv : HelperInvocation).
Context (Hinv : target = LinuxTarget /\ ((exists addr, inv = InstallResolver tld addr) \/ inv = UninstallResolver tld)).
Notation P := (act_ok target inv).

Lemma resolver_fp : inv_fp_ok inv.
Proof using Hinv. by destruct Hinv as [_ [[addr ->]| ->]]. Qed.

Lemma resolver_dest d name :
  (d, name) ∈ [(RESOLVED_DIR, conf_name (Tld_str t)); (NM_DIR, "orcker-dnsmasq.conf"%str); (DNSMASQ_DIR, conf_name (Tld_str t))] ->
  dest target inv d name.
Proof using Ht Hinv. intros Hd. destruct Hinv as [-> [[addr ->]| ->]]; cbn; by exists t. Qed.

Lemma nm_dest : dest target inv NM_DIR "orcker-dnsmasq.conf"%str.
Proof using Ht Hinv. apply resolver_dest. right. by left. Qed.
Lemma dnsmasq_dest : dest target inv DNSMASQ_DIR (conf_name (Tld_str t)).
Proof using Ht Hinv. apply resolver_dest. right. right. by left. Qed.
Lemma resolved_dest : dest target inv RESOLVED_DIR (conf_name (Tld_str t)).
Proof using Ht Hinv. apply resolver_dest. by left. Qed.

Lemma resolver_cmd cmd :
  cmd ∈ [("dnsmasq"%str, ["--version"%str]); ("nmcli"%str, ["--version"%str]);
         ("nmcli"%str, ["general"%str; "reload"%str; "conf"%str; "dns-full"%str]);
         ("systemctl"%str, ["reload-or-restart"%str; "systemd-resolved"%str])] -> cmd_ok target inv cmd.
Proof using Hinv. by destruct Hinv as [-> [[addr ->]| ->]]. Qed.

Lemma reload_confined : confined P (reload_networkmanager sys).
Proof using HL Hinv. unfold reload_networkmanager. conf. apply confined_cmd, resolver_cmd. do 2 right. by left. Qed.

Lemma restart_confined : confined P (restart_resolved sys).
Proof using HL Hinv. apply confined_cmd, resolver_cmd. do 3 right. by left. Qed.

Lemma restore_both_confined old_nm old_dns : confined P (restore_both sys (Tld_str t) old_nm old_dns).
Proof using HL Ht Hinv.
  apply confined_bind; [apply (confined_restore target inv resolver_fp NM_DIR), nm_dest|intros _].
  apply (confined_restore target inv resolver_fp DNSMASQ_DIR), dnsmasq_dest.
Qed.

Lemma replace_confined addr : confined P (replace_networkmanager sys (Tld_str t) addr).
Proof using HL Ht Hinv.
  unfold replace_networkmanager. apply confined_bind; [unfold read_ok; conf|intros old_nm].
  apply confined_bind; [unfold read_ok; conf|intros old_dns]. apply confined_bind.
  { apply confined_attempt, confined_bind; [apply (confined_write target inv resolver_fp NM_DIR), nm_dest|intros _].
    apply (confined_write target inv resolver_fp DNSMASQ_DIR), dnsmasq_dest. }
  intros [_|e]; [|apply confined_bind; [apply restore_both_confined|intros _; apply confined_throw]].
  apply confined_bind.
  { apply confined_attempt, confined_bind; [apply reload_confined|intros _].
    apply confined_bind; [apply confined_wait|intros []]; [apply confined_ret|apply confined_throw]. }
  intros [_|e]; [apply confined_ret|]. apply confined_bind; [apply restore_both_confined|intros _].
  apply confined_bind; [apply confined_attempt, reload_confined|intros _; apply confined_throw].
Qed.

Lemma networkmanager_confined addr : confined P (install_networkmanager sys (Tld_str t) addr).
Proof using HL Ht Hinv.
  unfold install_networkmanager.
  apply confined_bind; [apply confined_cmd, resolver_cmd; by left|intros _].
  apply confined_bind; [apply confined_cmd, resolver_cmd; right; by left|intros _].
  apply confined_bind; [apply confined_reads_as|intros nm].
  apply confined_bind; [destruct nm; [apply confined_reads_as|apply confined_ret]|intros fm].
  apply confined_bind; [destruct fm; [apply confined_ready|apply confined_ret]|intros ready].
  destruct ready; [apply confined_ret|apply replace_confined].
Qed.
End linux_resolver.

Lemma install_resolver_confined tld addr : confined (act_ok LinuxTarget (InstallResolver tld addr)) (install_resolver sys tld addr).
Proof.
  unfold install_resolver. apply (confined_bind_post (fun t => Tld_new tld = Ok t)); [unfold require_valid_tld; conf|apply returns_tld|].
  intros t Ht. set (inv := InstallResolver tld addr).
  assert (LinuxTarget = LinuxTarget /\ ((exists addr, inv = InstallResolver tld addr) \/ inv = UninstallResolver tld)) as Hinv
    by (split; [done|left; by exists addr]).
  apply confined_bind; [apply confined_read_or_empty|intros resolv]. apply confined_bind; [apply confined_is_dir|intros runtime].
  destruct (detect_linux_backend resolv runtime); [|by apply (networkmanager_confined tld)|apply confined_throw].
  apply confined_bind; [apply confined_reads_as|intros [|]]; [apply confined_ret|].
  apply confined_bind; [by apply (confined_write LinuxTarget inv I RESOLVED_DIR), (resolved_dest tld)|intros _].
  apply confined_bind; [by apply (restart_confined tld)|intros _; apply confined_ret].
Qed.

Lemma uninstall_resolver_confined tld : confined (act_ok LinuxTarget (UninstallResolver tld)) (uninstall_resolver sys tld).
Proof.
  unfold uninstall_resolver. apply (confined_bind_post (fun t => Tld_new tld = Ok t)); [unfold require_valid_tld; conf|apply returns_tld|].
  intros t Ht. set (inv := UninstallResolver tld).
  assert (LinuxTarget = LinuxTarget /\ ((exists addr, inv = InstallResolver tld addr) \/ inv = UninstallResolver tld)) as Hinv
    by (split; [done|by right]).
  apply confined_bind; [by apply (confined_rm LinuxTarget inv RESOLVED_DIR), (resolved_dest tld)|intros rr].
  apply confined_bind; [by apply (confined_rm LinuxTarget inv NM_DIR), (nm_dest tld t)|intros nm].
  apply confined_bind; [by apply (confined_rm LinuxTarget inv DNSMASQ_DIR), (dnsmasq_dest tld)|intros dns].
  apply confined_bind; [|intros _; apply confined_bind; [|intros _; apply confined_ret]].
  - destruct rr; [|apply confined_ret]. apply confined_bind; [by apply confined_attempt, (restart_confined tld)|intros _; apply confined_ret].
  - destruct (_ || _); [|apply confined_ret]. apply confined_bind; [by apply confined_attempt, (reload_confined tld)|intros _; apply confined_ret].
Qed.

(** macOS *)

Lemma macos_install_ca_confined pem fp : fp_ok fp -> confined (act_ok MacTarget (InstallCa pem fp)) (macos_install_ca sys pem fp).
Proof.
  intros Hfp. unfold macos_install_ca. apply confined_bind; [apply confined_existing|intros _].
  apply confined_bind; [apply confined_pem|intros _]. apply confined_bind.
  - unfold macos_system_keychain_contains. apply confined_bind; [apply confined_attempt, confined_cmd; by left|intros probe]. conf.
  - intros present. apply confined_bind; [|intros _; apply confined_bind; [apply confined_cmd; do 2 right; by left|intros _; apply confined_ret]].
    destruct present; [|apply confined_ret]. apply confined_bind; [apply confined_cmd; right; by left|intros _; apply confined_ret].
Qed.

Lemma macos_uninstall_ca_confined fp : confined (act_ok MacTarget (UninstallCa fp)) (macos_uninstall_ca sys fp).
Proof.
  unfold macos_uninstall_ca. apply confined_bind; [apply confined_attempt, confined_cmd; by left|intros [out|e]]; [|conf].
  destruct (cert_der_for_fingerprint _ _); [|apply confined_ret]. destruct (negb _); [apply confined_throw|].
  apply confined_bind; [apply confined_cmd; right; by left|intros _; apply confined_ret].
Qed.

Section mac_resolver.
Context (tld : str) (t : Tld) (Ht : Tld_new tld = Ok t) (inv : HelperInvocation).
Context (Hinv : (exists addr, inv = InstallResolver tld addr) \/ inv = UninstallResolver tld).
Notation P := (act_ok MacTarget inv).

Lemma mac_dest d name :
  (d = RESOLVER_DIR /\ name = Tld_str t) \/
  (d = BACKUP_DIR /\ exists stamp, name = Tld_str t ++ "-"%str ++ stamp ++ ".conf"%str /\ Forall (fun c => stamp_char c = true) stamp) ->
  dest MacTarget inv d name.
Proof using Ht Hinv. intros Hd. destruct Hinv as [[addr ->]| ->]; cbn; by exists t. Qed.

Lemma mac_file_dest : dest MacTarget inv RESOLVER_DIR (Tld_str t).
Proof using Ht Hinv. apply mac_dest. by left. Qed.

Lemma digits_stamp s : Forall (fun c => is_ascii_digit c = true) s -> Forall (fun c => stamp_char c = true) s.
Proof using. intros Hs. eapply Forall_impl; [exact Hs|]. intros c Hc. unfold stamp_char. cbn in Hc. by rewrite Hc. Qed.

Lemma mac_backup_dest secs : dest MacTarget inv BACKUP_DIR (ResolverFile.backup_filename (Tld_str t) secs).
Proof using Ht Hinv.
  apply mac_dest. right. split; [done|]. exists (show_uint secs). split; [done|]. apply digits_stamp, show_uint_digits.
Qed.

Lemma mac_inv_fp : inv_fp_ok inv.
Proof using Hinv. by destruct Hinv as [[addr ->]| ->]. Qed.

Lemma backup_join name : dest MacTarget inv BACKUP_DIR name -> path_join BACKUP_DIR name = child BACKUP_DIR name.
Proof using HL Hinv.
  intros Hd. destruct (dest_fixed _ _ _ _ mac_inv_fp Hd) as (Hp & [Hs _] & _). by apply path_join_child.
Qed.

Lemma back_up_confined content : confined P (macos_back_up_existing sys (Tld_str t) content).
Proof using HL Ht Hinv.
  intros w. unfold macos_back_up_existing. cbv zeta. generalize (clock_secs sys (w_time w)) as secs. intros secs. revert w.
  change (confined P (made ← attempt (fs_create_dir_all sys BACKUP_DIR);
    match made with
    | Err _ => mret tt
    | Ok _ => _ ← attempt (E := HelperError) (F := HelperError)
        (atomic_write sys (path_join BACKUP_DIR (ResolverFile.backup_filename (Tld_str t) secs)) content true); mret tt
    end)).
  apply confined_bind.
  { apply confined_attempt, confined_change. intros w. exists [MadeDir BACKUP_DIR]. split; [done|]. constructor; [|constructor].
    exists (ResolverFile.backup_filename (Tld_str t) secs). apply mac_backup_dest. }
  intros [_|e]; [|apply confined_ret]. apply confined_bind; [apply confined_attempt|intros _; apply confined_ret].
  rewrite backup_join by apply mac_backup_dest. apply confined_write; [apply mac_inv_fp|apply mac_backup_dest].
Qed.

Lemma backup_name_dest name secs : ResolverFile.parse_backup_secs name (Tld_str t) = Some secs ->
  dest MacTarget inv BACKUP_DIR (as_bytes name).
Proof using Ht Hinv.
  intros Hp. unfold ResolverFile.parse_backup_secs in Hp. destruct (strip_prefix _ _) as [rest|] eqn:E1; [|done]. cbn [mbind option_bind] in Hp.
  destruct (strip_suffix _ _) as [stamp|] eqn:E2; [|done]. cbn [mbind option_bind] in Hp.
  apply strip_prefix_Some in E1. apply strip_suffix_Some in E2. subst.
  assert (Forall (fun c => stamp_char c = true) stamp) as Hst by by eapply parse_uint_stamp.
  apply mac_dest. right. split; [done|]. exists stamp. split; [|done].
  rewrite as_bytes_ascii; [by rewrite <- app_assoc|]. apply Tld_new_spec in Ht as [Hv _]. unfold valid_tld in Hv. apply andb_true_iff in Hv as [Hv _].
  repeat (apply Forall_app; split).
  - eapply Forall_impl; [by apply dns_name_ascii|]. intros c Hc. by apply N.ltb_lt.
  - by repeat constructor.
  - eapply Forall_impl; [exact Hst|]. intros c Hc. unfold stamp_char, is_ascii_digit, in_range in Hc. bprop. cbn in *. lia.
  - by repeat constructor.
Qed.

Lemma remove_backups_confined names : confined P (remove_backups sys (Tld_str t) names).
Proof using HL Ht Hinv.
  induction names as [|name names IH]; cbn [remove_backups]; [apply confined_ret|].
  apply confined_bind; [|done]. destruct (ResolverFile.parse_backup_secs name (Tld_str t)) as [secs|] eqn:E; [|apply confined_ret].
  apply confined_bind; [|intros _; apply confined_ret]. apply confined_attempt, confined_remove. pose proof (backup_name_dest name secs E) as Hd.
  rewrite backup_join by done. by exists BACKUP_DIR, (as_bytes name).
Qed.

Lemma restore_backup_confined : confined P (macos_try_restore_backup sys (Tld_str t) (resolver_file_path (Tld_str t))).
Proof using HL Ht Hinv.
  unfold macos_try_restore_backup. apply confined_bind; [conf|intros m]. destruct (negb _); [apply confined_ret|].
  apply confined_bind; [conf|intros [entries|e]]; [|apply confined_ret].
  destruct (_ ≫= _) as [secs|]; [|apply confined_ret]. apply confined_bind; [conf|intros m2]. destruct (negb _); [apply confined_ret|].
  apply confined_bind; [conf|intros [content|e]]; [|apply confined_ret]. destruct (negb _); [apply confined_ret|].
  apply confined_bind; [apply (confined_write MacTarget inv mac_inv_fp RESOLVER_DIR), mac_file_dest|intros _].
  apply confined_bind; [apply remove_backups_confined|intros _; apply confined_ret].
Qed.
End mac_resolver.

Lemma macos_install_resolver_confined tld addr : confined (act_ok MacTarget (InstallResolver tld addr)) (macos_install_resolver sys tld addr).
Proof.
  unfold macos_install_resolver. apply (confined_bind_post (fun t => Tld_new tld = Ok t)); [unfold require_valid_tld; conf|apply returns_tld|].
  intros t Ht. set (inv := InstallResolver tld addr).
  assert ((exists addr, inv = InstallResolver tld addr) \/ inv = UninstallResolver tld) as Hinv by (left; by exists addr).
  apply confined_bind; [unfold fs_read_to_string; conf|intros existing]. apply confined_bind.
  - destruct existing; [|apply confined_ret]. destruct (negb _); [by apply (back_up_confined tld)|apply confined_ret].
  - intros _. by apply (confined_write MacTarget inv I RESOLVER_DIR), (mac_file_dest tld).
Qed.

Lemma macos_uninstall_resolver_confined tld : confined (act_ok MacTarget (UninstallResolver tld)) (macos_uninstall_resolver sys tld).
Proof.
  unfold macos_uninstall_resolver. apply (confined_bind_post (fun t => Tld_new tld = Ok t)); [unfold require_valid_tld; conf|apply returns_tld|].
  intros t Ht. set (inv := UninstallResolver tld).
  assert ((exists addr, inv = InstallResolver tld addr) \/ inv = UninstallResolver tld) as Hinv by by right.
  apply confined_bind; [by apply (restore_backup_confined tld)|intros [|]]; [apply confined_ret|].
  apply confined_bind; [by apply (confined_rm MacTarget inv RESOLVER_DIR), (mac_file_dest tld)|intros _; apply confined_ret].
Qed.

(** The redirects, by what the two of them may do. *)
Lemma install_anchor_confined inv rules anchor insert plist plist_name plist_path :
  inv_fp_ok inv -> dest MacTarget inv ANCHORS_DIR anchor -> dest MacTarget inv ETC "pf.conf"%str -> dest MacTarget inv DAEMONS_DIR plist_name ->
  plist_path = child DAEMONS_DIR plist_name -> (forall c, c ∈ redirect_commands plist_path -> cmd_ok MacTarget inv c) ->
  confined (act_ok MacTarget inv) (install_anchor sys rules (child ANCHORS_DIR anchor) insert plist plist_path).
Proof.
  intros Hfp Ha Hpf Hpl -> Hc. unfold install_anchor. apply confined_bind; [by apply confined_write|intros _].
  apply confined_bind; [unfold fs_read_to_string; conf|intros original].
  apply confined_bind; [destruct (negb _); [by apply (confined_write MacTarget inv Hfp ETC)|apply confined_ret]|intros _].
  apply confined_bind; [apply confined_attempt, confined_cmd, Hc; by left|intros [_|e]].
  - apply confined_bind; [|intros _]. { apply confined_bind; [apply confined_attempt, confined_cmd, Hc; right; by left|intros _; apply confined_ret]. }
    apply confined_bind; [by apply confined_write|intros _]. apply confined_bind; [apply confined_cmd, Hc; do 2 right; by left|intros _].
    apply confined_bind; [|intros _]. { apply confined_bind; [apply confined_attempt, confined_cmd, Hc; do 3 right; by left|intros _; apply confined_ret]. }
    apply confined_bind; [apply confined_cmd, Hc; do 4 right; by left|intros _; apply confined_ret].
  - apply confined_bind; [|intros _; apply confined_throw]. destruct (negb _); [|apply confined_ret].
    apply confined_bind; [apply confined_attempt; by apply (confined_write MacTarget inv Hfp ETC)|intros _; apply confined_ret].
Qed.

Lemma uninstall_anchor_confined inv anchor remove plist_name plist_path :
  inv_fp_ok inv -> dest MacTarget inv ANCHORS_DIR anchor -> dest MacTarget inv ETC "pf.conf"%str -> dest MacTarget inv DAEMONS_DIR plist_name ->
  plist_path = child DAEMONS_DIR plist_name -> (forall c, c ∈ redirect_commands plist_path -> cmd_ok MacTarget inv c) ->
  confined (act_ok MacTarget inv) (uninstall_anchor sys (child ANCHORS_DIR anchor) remove plist_path).
Proof.
  intros Hfp Ha Hpf Hpl -> Hc. unfold uninstall_anchor.
  apply confined_bind; [apply confined_bind; [apply confined_attempt, confined_cmd, Hc; do 3 right; by left|intros _; apply confined_ret]|intros _].
  apply confined_bind; [unfold fs_read_to_string; conf|intros conf_r]. apply confined_bind.
  - destruct conf_r as [text|[]]; [|apply confined_ret|apply confined_throw]. destruct (negb _); [|apply confined_ret].
    apply confined_bind; [by apply (confined_write MacTarget inv Hfp ETC)|intros _].
    apply confined_bind; [apply confined_attempt, confined_cmd, Hc; by left|intros _; apply confined_ret].
  - intros _. apply confined_bind; [by apply confined_rm|intros _]. apply confined_bind; [by apply confined_rm|intros _; apply confined_ret].
Qed.

Lemma dispatch_confined target inv : inv_fp_ok inv -> confined (act_ok target inv) (dispatch sys target inv).
Proof.
  intros Hr. destruct target, inv; cbn [dispatch inv_fp_ok] in *; try apply confined_throw.
  - by apply install_ca_confined.
  - apply uninstall_ca_confined.
  - apply install_resolver_confined.
  - apply uninstall_resolver_confined.
  - apply setcap_confined.
  - by apply macos_install_ca_confined.
  - apply macos_uninstall_ca_confined.
  - apply macos_install_resolver_confined.
  - apply macos_uninstall_resolver_confined.
  - unfold install_port_redirect, require_nonzero. do 4 (apply confined_bind; [conf|intros _]).
    apply (install_anchor_confined _ _ "dev.orcker"%str _ _ "dev.orcker.pf.plist"%str); cbn; try done; set_solver.
  - apply (uninstall_anchor_confined _ "dev.orcker"%str _ "dev.orcker.pf.plist"%str); cbn; try done; set_solver.
  - unfold install_lan_port_redirect, require_nonzero. destruct (_ || _); [apply confined_throw|]. do 4 (apply confined_bind; [conf|intros _]).
    apply (install_anchor_confined _ _ "dev.orcker.lan"%str _ _ "dev.orcker.lan.pf.plist"%str); cbn; try done; set_solver.
  - apply (uninstall_anchor_confined _ "dev.orcker.lan"%str _ "dev.orcker.lan.pf.plist"%str); cbn; try done; set_solver.
Qed.
End operations.

(** ** The whole program *)

Section main.
Context `{HL : HexLaws} `{Certs} (try_parse_from : list OsString -> result str Cli).

Lemma fingerprint_str_ok s fp : parse_fingerprint_str s = Ok fp -> fp_ok fp.
Proof.
  unfold parse_fingerprint_str. intros Hp. destruct (from_hex s) as [fp'|] eqn:E.
  - assert (fp' = fp) as ->; [|by apply from_hex_ok in E as [? _]]. unfold from_hex in E. destruct (_ || _); [done|].
    destruct (hex_decode s); [|done]. destruct (_ =? _)%nat; [|done]. congruence.
  - exfalso. unfold from_hex in E. destruct (_ || _); [done|]. destruct (hex_decode s); [|done]. by destruct (_ =? _)%nat.
Qed.

Lemma into_invocation_fp op inv : into_invocation op = Ok inv -> inv_fp_ok inv.
Proof.
  destruct op; cbn [into_invocation]; try by intros [= <-].
  - destruct (parse_fingerprint_str fingerprint) as [fp|] eqn:E; [|done]. intros [= <-]. by apply fingerprint_str_ok in E.
  - destruct (parse_fingerprint_str fingerprint) as [fp|] eqn:E; [|done]. by intros [= <-].
Qed.

Lemma parse_release argv parsed : parse try_parse_from false argv = Ok parsed ->
  pc_skip_priv_check parsed = false /\ inv_fp_ok (pc_invocation parsed).
Proof.
  unfold parse. destruct (try_parse_from argv) as [cli|]; [|done]. cbn [map_err mbind result_bind].
  destruct (into_invocation (cli_op cli)) as [inv|] eqn:E; [|done]. cbn [mbind result_bind andb]. intros [= <-].
  split; [done|]. by eapply into_invocation_fp.
Qed.

(** The one command of the privilege check. *)
Definition id_call : Act := Ran "/usr/bin/id"%str ["-u"%str] [].

Lemma privilege_confined {E} sys target : confined (fun a => a = id_call) (is_privileged sys target : M E bool).
Proof.
  unfold is_privileged. apply confined_bind; [|intros; apply confined_ret]. destruct target; cbn [effective_uid].
  - unfold fs_read_to_string. apply confined_bind; [apply confined_attempt, confined_bind; [apply confined_look|intros; apply confined_lift]|].
    intros; apply confined_ret.
  - intros w. destruct (run sys _ _ _ _) as [r fs]. exists [id_call]. by split; [|constructor].
Qed.
End main.

(** C16. What the privileged helper can do. Whatever arguments a shipped helper is
    given, and whatever the system answers to each of its calls: everything it does
    belongs to the operation it parsed, apart from asking for its own user id. It
    creates, writes, renames and removes only entries that operation owns, through a
    temporary entry beside them; those lie directly inside eleven fixed folders, under
    names without a slash; it runs only the commands of the operation, with a fixed
    search path. When it does not run as root it does nothing at all. *)
Theorem helper_confined `{HexLaws} `{Certs} try_parse_from sys target argv w
  (Hdir : forall n p names, read_dir sys n p = Ok names -> Forall plain_name names) :
  let '(code, w') := main_run try_parse_from false sys target argv w in
  (exists acts, w_acts w' = w_acts w ++ acts /\
    Forall (fun a => a = id_call \/
      exists inv, parse try_parse_from false argv = Ok (mkParsedCli inv false) /\ act_ok target inv a) acts /\
    ((is_privileged (E := HelperError) sys target w).1 <> Ok true -> Forall (fun a => a = id_call) acts /\ code <> 0)) /\
  (forall inv d name, parse try_parse_from false argv = Ok (mkParsedCli inv false) -> dest target inv d name ->
     d ∈ FIXED_DIRS /\ slash ∉ name /\ slash ∉ tmp_name name).
Proof.
  destruct (main_run try_parse_from false sys target argv w) as [code w'] eqn:Em. split.
  2: { intros inv d name Hp Hd. apply parse_release in Hp as [_ Hfp]. cbn in Hfp.
       destruct (dest_fixed _ _ _ _ Hfp Hd) as (_ & Hn & Hf). split_and!; [done|by destruct Hn|by destruct (tmp_plain _ Hn)]. }
  unfold main_run in Em. destruct (parse try_parse_from false argv) as [parsed|e] eqn:Ep.
  2: { injection Em as <- <-. exists []. rewrite app_nil_r. split_and!; [done|done|]. intros _. split; [done|]. by destruct e as [| | | | | | |? []| |]. }
  destruct (parse_release _ _ _ Ep) as [Hskip Hfp]. rewrite Hskip in Em.
  destruct (privilege_confined (E := HelperError) sys target w) as (a1 & Ha1 & HP1).
  assert (Forall (fun a => a = id_call \/ exists inv, Ok parsed = Ok (E := HelperError) (mkParsedCli inv false) /\ act_ok target inv a) a1) as HP1'
    by (eapply Forall_impl; [exact HP1|]; auto).
  destruct (is_privileged sys target w) as [[[|]|e] w1] eqn:Epr; cbn [snd fst] in *; cbn [negb] in Em.
  - destruct (dispatch_confined sys Hdir target (pc_invocation parsed) Hfp w1) as (a2 & Ha2 & HP2).
    assert (w' = (dispatch sys target (pc_invocation parsed) w1).2) as -> by (destruct (dispatch _ _ _ w1) as [[]]; by injection Em).
    exists (a1 ++ a2). split; [by rewrite Ha2, Ha1, <- app_assoc|]. split; [|done]. apply Forall_app. split; [done|].
    eapply Forall_impl; [exact HP2|]. intros a Ha. right. exists (pc_invocation parsed). split; [|done]. destruct parsed as [inv sk]. cbn in *. by subst.
  - injection Em as <- <-. exists a1. by split_and!.
  - injection Em as <- <-. exists a1. by split_and!.
Qed.
