(* ===== verification/HelperCa.v ===== *)
(** * Certificates and roll-back of the privileged helper

    [ca_operations_exact]: which certificate is installed, trusted or removed, and
    with what.  [networkmanager_rolls_back]: when a failed installation of the
    resolver leaves the files of NetworkManager as they were.
    [mac_install_reads_again], [bundle_removed_whole], [stale_temporary] and
    [unreadable_not_restored] are what the code does beside what it says. *)

From S2P Require Import Prelude RustStr RustText Utf8 RustPath CoreError DnsLabel Tld Net SockAddr HelperArgv ResolverFiles PfAnchor Helper HelperSafe.

Open Scope N_scope.

(** ** Computations from a known state *)

(** From a world that satisfies [Pre], [m] only logs acts that satisfy [P], and a
    value it returns satisfies [Post]. *)
Definition triple {E A} (Pre : World -> Prop) (P : Act -> Prop) (Post : A -> World -> Prop) (m : M E A) : Prop :=
  forall w, Pre w ->
  (exists acts, w_acts (m w).2 = w_acts w ++ acts /\ Forall P acts) /\ (forall a w', m w = (Ok a, w') -> Post a w').

Section triple.
Context {P : Act -> Prop}.

Lemma spec_bind {E A B} Pre Mid Post (m : M E A) (k : A -> M E B) :
  triple Pre P Mid m -> (forall a, triple (Mid a) P Post (k a)) -> triple Pre P Post (m ≫= k).
Proof.
  intros Hm Hk w Hw. destruct (Hm w Hw) as [(a1 & Ha1 & HP1) Hmid]. unfold mbind, M_bind.
  destruct (m w) as [[a|e] w1]; cbn in Ha1; [|split; [by exists a1|done]].
  destruct (Hk a w1 (Hmid a w1 eq_refl)) as [(a2 & Ha2 & HP2) Hpost]. split; [|done].
  exists (a1 ++ a2). rewrite Ha2, Ha1, <- app_assoc. split; [done|]. by apply Forall_app.
Qed.

Lemma spec_confined {E A} Pre (m : M E A) : confined P m -> triple Pre P (fun _ _ => True) m.
Proof. intros Hm w _. split; [apply Hm|done]. Qed.

Lemma spec_given {E A} (Q : Prop) Pre Post (m : M E A) : (Q -> triple Pre P Post m) -> triple (fun w => Q /\ Pre w) P Post m.
Proof. intros H w [HQ Hw]. by apply H. Qed.

(** A computation that leaves the files alone and logs nothing. *)
Lemma spec_quiet {E A} fs (Q : A -> Prop) (m : M E A) :
  (forall w, w_files w = fs -> w_files (m w).2 = fs /\ w_acts (m w).2 = w_acts w /\ (forall a, (m w).1 = Ok a -> Q a)) ->
  triple (fun w => w_files w = fs) P (fun a w => Q a /\ w_files w = fs) m.
Proof.
  intros H w Hw. destruct (H w Hw) as (Hf & Ha & HQ). split; [exists []; by rewrite app_nil_r|].
  intros a w' Hm. rewrite Hm in *. cbn in *. split; [by apply HQ|done].
Qed.

Lemma spec_look {A} sys fs (Q : A -> Prop) (f : nat -> World -> result io_kind A) :
  (forall n w a, w_files w = fs -> f n w = Ok a -> Q a) ->
  triple (fun w => w_files w = fs) P (fun a w => Q a /\ w_files w = fs) (look sys f).
Proof.
  intros H. apply spec_quiet. intros w Hw. split_and!; [done|done|]. unfold look. cbn. intros a.
  destruct (read_fault sys (w_time w)); [done|]. by apply H.
Qed.

Lemma spec_emap {E F A} (f : E -> F) Pre Post (m : M E A) : triple Pre P Post m -> triple Pre P Post (emap f m).
Proof.
  intros H w Hw. destruct (H w Hw) as [Ha Hp]. unfold emap. destruct (m w) as [r w1]. split; [done|].
  intros a w' [= Hr <-]. destruct r as [x|]; [|done]. injection Hr as ->. by apply Hp.
Qed.

Lemma spec_attempt {E F A} Pre Post (m : M E A) : (forall w, Pre w -> (exists acts, w_acts (m w).2 = w_acts w ++ acts /\ Forall P acts)) ->
  (forall w a w', Pre w -> m w = (a, w') -> Post a w') -> triple Pre P Post (attempt m : M F _).
Proof.
  intros H1 H2 w Hw. unfold attempt. specialize (H1 w Hw). specialize (H2 w). destruct (m w) as [r w1]. split; [done|].
  intros a w' [= <- <-]. by apply H2.
Qed.

Lemma spec_ret {E A} Pre (Post : A -> World -> Prop) a : (forall w, Pre w -> Post a w) -> triple Pre P Post (mret a : M E A).
Proof. intros H w Hw. split; [exists []; by rewrite app_nil_r|]. intros a' w' [= <- <-]. by apply H. Qed.

Lemma spec_throw {E A} Pre (Post : A -> World -> Prop) (e : E) : triple Pre P Post (throw e : M E A).
Proof. intros w Hw. split; [exists []; by rewrite app_nil_r|done]. Qed.

Lemma spec_lift {E A} Pre (r : result E A) : triple Pre P (fun a w => r = Ok a /\ Pre w) (lift r).
Proof. intros w Hw. split; [exists []; by rewrite app_nil_r|]. intros a w' [= Hr <-]. by split. Qed.
End triple.

(** ** An atomic write, exactly *)

(** A call between two worlds failed. *)
Definition faulted (sys : Sys) (w w' : World) : Prop :=
  exists n, (w_time w <= n < w_time w')%nat /\ write_fault sys n <> None.

Definition write_acts (d path : Path) (data : list N) (mode : N) : list Act :=
  [MadeDir d; Created (tmp_path d path) mode; Wrote (tmp_path d path) data; Renamed (tmp_path d path) path].

Lemma bind_ok_inv {E A B} (m : M E A) (k : A -> M E B) w b w' : (m ≫= k) w = (Ok b, w') -> exists a w1, m w = (Ok a, w1) /\ k a w1 = (Ok b, w').
Proof. unfold mbind, M_bind. destruct (m w) as [[a|e] w1]; [|done]. intros Hk. by exists a, w1. Qed.

(** A computation that logs nothing from a given state. *)
Lemma spec_silent {E A} Pre Post (m : M E A) w a w' : triple Pre (fun _ => False) Post m -> Pre w -> m w = (Ok a, w') ->
  w_acts w' = w_acts w /\ Post a w'.
Proof.
  intros Hs Hw Hm. destruct (Hs w Hw) as [(acts & Ha & Hf) Hp]. rewrite Hm in Ha. cbn in Ha.
  destruct acts as [|x acts]; [|by inv Hf]. rewrite app_nil_r in Ha. split; [done|by apply Hp].
Qed.

Lemma atomic_write_cases sys path data mode d w : path_parent path = Some d -> tmp_path d path <> path ->
  match atomic_write sys path data mode w with
  | (Ok _, w') => w_files w !! tmp_path d path = None /\ w_files w' = <[path := data]> (w_files w) /\ (w_time w <= w_time w')%nat /\
      w_acts w' = w_acts w ++ write_acts d path data (if mode then 420 else 384)
  | (Err _, w') => (forall p, p <> tmp_path d path -> w_files w' !! p = w_files w !! p) /\ (w_time w <= w_time w')%nat /\
      (w_files w !! tmp_path d path = None -> faulted sys w w')
  end.
Proof.
  intros Hp Hne. unfold atomic_write. rewrite Hp. unfold write_acts. revert Hne. generalize (tmp_path d path) as tmp. intros tmp Hne. cbv zeta.
  unfold mbind, M_bind, emap, fs_create_dir_all, fs_create_new, fs_write_all, fs_sync_all, fs_rename, change, faulted, tick, act, set_files.
  destruct (write_fault sys (w_time w)) as [k|] eqn:F0; cbn.
  { split_and!; [done|lia|]. intros _. exists (w_time w). rewrite F0. split; [cbn; lia|done]. }
  destruct (write_fault sys (S (w_time w))) as [k|] eqn:F1; cbn.
  { split_and!; [done|lia|]. intros _. exists (S (w_time w)). rewrite F1. split; [cbn; lia|done]. }
  destruct (w_files w !! tmp) as [b|] eqn:Et; cbn; [split_and!; [done|lia|done]|].
  destruct (write_fault sys (S (S (w_time w)))) as [k|] eqn:F2; cbn.
  { split_and!; [intros p Hpt; by rewrite !lookup_insert_ne|lia|]. intros _. exists (S (S (w_time w))). rewrite F2. split; [cbn; lia|done]. }
  destruct (write_fault sys (S (S (S (w_time w))))) as [k|] eqn:F3; cbn.
  { split_and!; [intros p Hpt; by rewrite !lookup_insert_ne|lia|]. intros _. exists (S (S (S (w_time w)))). rewrite F3. split; [cbn; lia|done]. }
  destruct (write_fault sys (S (S (S (S (w_time w)))))) as [k|] eqn:F4; cbn.
  { split_and!; [intros p Hpt; by rewrite !lookup_insert_ne|lia|]. intros _. exists (S (S (S (S (w_time w))))). rewrite F4. split; [cbn; lia|done]. }
  rewrite lookup_insert_eq. cbn. split_and!; [done| |lia|].
  - rewrite insert_insert_eq. by rewrite delete_insert_id.
  - by rewrite <- !app_assoc.
Qed.

(** ** Certificates *)

Section ca.
Context `{Hex} `{Certs} (sys : Sys).

(** The file at [pem] holds exactly one certificate, [der], with this fingerprint. *)
Definition names_cert (fs : Files) (pem : Path) (fp : CaFingerprint) (der : list N) : Prop :=
  exists content blocks b, fs !! pem = Some content /\ parse_many content = Some blocks /\
    bfilter is_certificate blocks = [b] /\ pem_contents b = der /\ sha256 der = fp_bytes fp.

(** The file at [p] holds the certificate with this fingerprint, and it is Orcker's. *)
Definition holds_own_cert (fs : Files) (p : Path) (fp : CaFingerprint) : Prop :=
  exists content blocks b, fs !! p = Some content /\ parse_many content = Some blocks /\ b ∈ blocks /\ is_certificate b = true /\
    sha256 (pem_contents b) = fp_bytes fp /\ subject_common_name (pem_contents b) = Some CA_COMMON_NAME.

Definition install_act (fs : Files) (pem : Path) (fp : CaFingerprint) (a : Act) : Prop :=
  match a with Wrote _ data => exists der, names_cert fs pem fp der /\ data = der_to_pem der | Removed _ => False | _ => True end.

Definition uninstall_act (fs : Files) (fp : CaFingerprint) (a : Act) : Prop :=
  match a with Removed p => holds_own_cert fs p fp | MadeDir _ | Created _ _ | Wrote _ _ | Renamed _ _ => False | Ran _ _ _ => True end.

Lemma spec_existing P fs pem : triple (fun w => w_files w = fs) P (fun _ w => w_files w = fs) (require_existing_file sys pem).
Proof.
  unfold require_existing_file. destruct (negb _); [apply spec_throw|].
  eapply spec_bind; [apply spec_emap, (spec_look sys fs (fun _ => True)); done|]. intros m. cbn.
  destruct (negb _); [apply spec_throw|apply spec_ret]. by intros w [_ Hw].
Qed.

Lemma spec_pem P fs pem fp :
  triple (fun w => w_files w = fs) P (fun der w => names_cert fs pem fp der /\ w_files w = fs) (require_pem_matches_fingerprint sys pem fp).
Proof.
  unfold require_pem_matches_fingerprint.
  eapply spec_bind; [apply spec_emap, (spec_look sys fs (fun c => fs !! pem = Some c))|].
  { intros n w a Hw. rewrite <- Hw. destruct (w_files w !! pem); [|done]. congruence. }
  intros content. apply spec_given. intros Hc. eapply spec_bind; [apply spec_lift|]. intros blocks. apply spec_given. intros Hb.
  destruct (parse_many content) as [bl|] eqn:Ep; [|done]. injection Hb as ->.
  destruct (negb _) eqn:E1; [apply spec_throw|]. apply negb_false_iff, N.eqb_eq in E1.
  destruct (bfilter is_certificate blocks) as [|b [|b' certs]] eqn:Ef; [done| |cbn in E1; unfold vlen in E1; cbn in E1; lia].
  destruct (negb _) eqn:E2; [apply spec_throw|]. apply negb_false_iff, bool_decide_eq_true in E2. apply spec_ret.
  intros w Hw. split; [|done]. by exists content, blocks, b.
Qed.

Lemma install_ca_spec fs pem fp : triple (fun w => w_files w = fs) (install_act fs pem fp) (fun _ _ => True) (install_ca sys pem fp).
Proof.
  unfold install_ca. eapply spec_bind; [apply spec_existing|intros ?]. eapply spec_bind; [apply spec_pem|intros der].
  apply spec_given. intros Hder. apply spec_confined. apply confined_bind; [apply confined_pick|intros d].
  apply confined_bind.
  - unfold atomic_write. destruct (path_parent _) as [parent|] eqn:Epp; [|apply confined_throw].
    assert (confined (install_act fs pem fp) (atomic_write sys (path_join d (anchor_filename fp)) (der_to_pem der) true)) as Hw.
    { apply (confined_atomic_write sys _ _ _ parent); try done. by exists der. }
    unfold atomic_write in Hw. by rewrite Epp in Hw.
  - intros _. unfold post_install. apply confined_bind; [apply confined_lift|intros [tool args]].
    apply confined_bind; [by apply confined_run|intros; apply confined_ret].
Qed.

Lemma is_dir_quiet {E} fs P p : triple (fun w => w_files w = fs) P (fun _ w => w_files w = fs) (is_dir sys p : M E bool).
Proof.
  unfold is_dir. eapply spec_bind; [apply (spec_attempt _ (fun _ w => w_files w = fs))|].
  - intros w Hw. exists []. by rewrite app_nil_r.
  - intros w a w' Hw [= <- <-]. done.
  - intros r. apply spec_ret. done.
Qed.

Lemma pick_quiet fs P dirs : triple (fun w => w_files w = fs) P (fun _ w => w_files w = fs) (pick_dir sys dirs).
Proof.
  induction dirs as [|d dirs IH]; cbn [pick_dir]; [apply spec_throw|].
  eapply spec_bind; [apply is_dir_quiet|intros [|]]; [by apply spec_ret|done].
Qed.

Definition is_crt (path : Path) : bool := bool_decide ((e ← extension path; to_str e) = Some "crt"%str).

(** What was read of an anchor folder: the contents of its [.crt] entries, all of them. *)
Definition anchors_of (fs : Files) (d : Path) (names : list OsString) (blobs : list (Path * bytes)) : Prop :=
  (forall b, b ∈ blobs -> fs !! b.1 = Some b.2 /\ exists name, name ∈ names /\ b.1 = path_join d name /\ is_crt b.1 = true) /\
  (forall name, name ∈ names -> is_crt (path_join d name) = true -> exists content, (path_join d name, content) ∈ blobs).

Lemma anchors_read fs P d names : triple (fun w => w_files w = fs) P
  (fun blobs w => anchors_of fs d names blobs /\ w_files w = fs) (read_anchors sys d names).
Proof.
  induction names as [|n names IH]; cbn [read_anchors]; [apply spec_ret; intros w Hw; split; [|exact Hw]; split; by intros ? ?%elem_of_nil|].
  fold (is_crt (path_join d n)). destruct (is_crt (path_join d n)) eqn:Ec; cbn [negb].
  2: { intros w Hw. destruct (IH w Hw) as [Ha Hp]. split; [exact Ha|]. intros blobs w' Hr. destruct (Hp blobs w' Hr) as [[H1 H2] Hf].
       split; [|done]. split.
       - intros b Hb. destruct (H1 b Hb) as (Hc & m & Hm & ?). split; [done|]. exists m. split; [by right|done].
       - intros m [->|Hm]%elem_of_cons Hcrt; [congruence|by apply H2]. }
  eapply spec_bind; [apply spec_emap, (spec_look sys fs (fun c => fs !! path_join d n = Some c))|].
  { intros k w a Hw. rewrite <- Hw. destruct (w_files w !! _) eqn:E; [|done]. congruence. }
  intros content. apply spec_given. intros Hc. eapply spec_bind; [apply IH|intros blobs]. apply spec_ret.
  intros w [[H1 H2] Hw]. split; [|done]. split.
  - intros b [->|Hb]%elem_of_cons; [split; [done|]; exists n; split; [by left|done]|].
    destruct (H1 b Hb) as (Hb1 & m & Hm & ?). split; [done|]. exists m. split; [by right|done].
  - intros m [->|Hm]%elem_of_cons Hcrt; [exists content; by left|]. destruct (H2 m Hm Hcrt) as [c ?]. exists c. by right.
Qed.

Lemma match_blocks_find fp i blocks : match find_first (matching_cert fp) blocks with
  | Some b => b ∈ blocks /\ is_certificate b = true /\ sha256 (pem_contents b) = fp /\ exists k, match_blocks fp i blocks = Some k
  | None => match_blocks fp i blocks = None
  end.
Proof.
  revert i. induction blocks as [|b blocks IH]; intros i; cbn [find_first match_blocks]; [done|]. unfold matching_cert at 1.
  destruct (is_certificate b) eqn:Ec; cbn [andb].
  - case_bool_decide; [split_and!; [by left|done|done|by eexists]|]. specialize (IH (S i)). destruct (find_first _ _); [|done].
    destruct IH as (Hin & IH). split; [by right|done].
  - specialize (IH i). destruct (find_first _ _); [|done]. destruct IH as (Hin & IH). split; [by right|done].
Qed.

(** The two searches of the anchors find the same certificate. *)
Lemma same_certificate blobs fp m : find_by_fingerprint blobs fp = Ok (Some m) ->
  exists content blocks b, (pm_path m, content) ∈ blobs /\ parse_many content = Some blocks /\ b ∈ blocks /\ is_certificate b = true /\
    sha256 (pem_contents b) = fp /\ cert_der_for_fingerprint blobs fp = Some (pem_contents b).
Proof.
  induction blobs as [|[p c] blobs IH]; cbn [find_by_fingerprint cert_der_for_fingerprint]; [done|].
  destruct (parse_many c) as [blocks|] eqn:Ep; [|done]. pose proof (match_blocks_find fp 0 blocks) as Hm.
  destruct (find_first _ _) as [b|].
  - destruct Hm as (Hin & Hc & Hs & k & ->). intros [= <-]. exists c, blocks, b. split_and!; try done. by left.
  - rewrite Hm. intros Hf. destruct (IH Hf) as (c' & bl & b & Hin & Hrest). exists c', bl, b. split; [by right|done].
Qed.

Lemma uninstall_ca_spec fs fp : triple (fun w => w_files w = fs) (uninstall_act fs fp) (fun _ _ => True) (uninstall_ca sys fp).
Proof.
  unfold uninstall_ca. eapply spec_bind; [apply pick_quiet|intros d].
  eapply spec_bind; [apply spec_emap, (spec_look sys fs (fun _ => True)); done|intros names].
  apply spec_given. intros _. eapply spec_bind; [apply anchors_read|intros blobs]. apply spec_given. intros [Hb _].
  eapply spec_bind; [apply spec_lift|intros matched]. apply spec_given. intros Hm. apply spec_confined.
  destruct (find_by_fingerprint blobs (fp_bytes fp)) as [m'|] eqn:Ef; [|done]. injection Hm as ->.
  destruct matched as [m|]; [|apply confined_ret].
  destruct (same_certificate _ _ _ Ef) as (content & blocks & b & Hin & Hp & Hbl & Hc & Hs & ->).
  destruct (negb (cert_is_orcker_owned _)) eqn:Eo; [apply confined_throw|]. apply negb_false_iff, bool_decide_eq_true in Eo.
  apply confined_bind.
  - apply confined_emap, confined_remove. destruct (Hb _ Hin) as [Hb' _]. cbn in Hb'. by exists content, blocks, b.
  - intros _. unfold post_install. apply confined_bind; [apply confined_lift|intros [tool args]].
    apply confined_bind; [by apply confined_run|intros; apply confined_ret].
Qed.

(** A successful installation, act by act. *)
Lemma install_ca_ok `{!HexLaws} pem fp w w' : fp_ok fp -> install_ca sys pem fp w = (Ok tt, w') ->
  exists d der cmd, d ∈ ANCHOR_DIRS /\ names_cert (w_files w) pem fp der /\ linux_post_install_cmd d = Some cmd /\
  w_acts w' = w_acts w ++ write_acts d (child d (anchor_filename fp)) (der_to_pem der) 420 ++ [Ran cmd.1 cmd.2 [("PATH"%str, PINNED_PATH)]].
Proof.
  intros Hfp Hok. unfold install_ca in Hok.
  apply bind_ok_inv in Hok as ([] & w1 & K1 & Hok). destruct (spec_silent _ _ _ _ _ _ (spec_existing _ (w_files w) pem) eq_refl K1) as [Ha1 Hf1].
  apply bind_ok_inv in Hok as (der & w2 & K2 & Hok). destruct (spec_silent _ _ _ _ _ _ (spec_pem _ (w_files w) pem fp) Hf1 K2) as [Ha2 [Hder Hf2]].
  apply bind_ok_inv in Hok as (d & w3 & K3 & Hok). destruct (spec_silent _ _ _ _ _ _ (pick_quiet (w_files w) _ ANCHOR_DIRS) Hf2 K3) as [Ha3 Hf3].
  pose proof (returns_pick sys ANCHOR_DIRS _ _ _ K3) as Hd. cbn beta in Hd. destruct (anchor_fixed fp d Hfp Hd) as (Hp & Hn & _).
  rewrite path_join_child in Hok by (done || by destruct Hn).
  apply bind_ok_inv in Hok as ([] & w4 & K4 & Hok).
  pose proof (atomic_write_cases sys (child d (anchor_filename fp)) (der_to_pem der) true d w3) as Hcases. rewrite K4 in Hcases.
  destruct Hcases as (_ & _ & _ & Ha4); [by apply path_parent_child| |].
  { rewrite tmp_path_child by done. unfold child. by intros ?%app_inv_head. }
  unfold post_install in Hok. apply bind_ok_inv in Hok as ([tool args] & w5 & K5 & Hok). unfold lift in K5.
  destruct (linux_post_install_cmd d) as [cmd|] eqn:Ec; [|done]. injection K5 as -> <-.
  apply bind_ok_inv in Hok as (out & w6 & K6 & Hok). injection Hok as <-. exists d, der, (tool, args). split_and!; try done.
  assert (w_acts w6 = w_acts w4 ++ [Ran tool args [("PATH"%str, PINNED_PATH)]]) as ->.
  { unfold run_command in K6. destruct (run sys _ _ _ _) as [[o|e] fs]; [|done]. by destruct (o_code o) as [[|c]|]; injection K6 as _ <-. }
  by rewrite Ha4, Ha3, Ha2, Ha1, <- app_assoc.
Qed.

(** The file at [p] holds no certificate with this fingerprint. *)
Definition lacks_cert (fs : Files) (fp : CaFingerprint) (p : Path) : Prop :=
  forall content blocks b, fs !! p = Some content -> parse_many content = Some blocks -> b ∈ blocks -> is_certificate b = true ->
    sha256 (pem_contents b) <> fp_bytes fp.

Lemma found_none blobs fp p content blocks b : find_by_fingerprint blobs fp = Ok None -> (p, content) ∈ blobs ->
  parse_many content = Some blocks -> b ∈ blocks -> is_certificate b = true -> sha256 (pem_contents b) <> fp.
Proof.
  induction blobs as [|[q c] blobs IH]; cbn [find_by_fingerprint]; [by intros _ ?%elem_of_nil|].
  destruct (parse_many c) as [bl|] eqn:Ep; [|done]. pose proof (match_blocks_find fp 0 bl) as Hm.
  destruct (match_blocks fp 0 bl) as [k|] eqn:Ek; [done|]. intros Hf [[= -> ->]|Hin]%elem_of_cons Hp Hb Hc Hs; [|by eapply IH].
  assert (bl = blocks) as -> by congruence. destruct (find_first (matching_cert fp) blocks) as [x|] eqn:Ex.
  - destruct Hm as (_ & _ & _ & k & ?). congruence.
  - apply find_first_None in Ex. rewrite Forall_forall in Ex. specialize (Ex b Hb). unfold matching_cert in Ex.
    rewrite Hc, bool_decide_true in Ex; done.
Qed.

Lemma run_acts tool program args w : w_acts (run_command sys tool program args w).2 = w_acts w ++ [Ran program args [("PATH"%str, PINNED_PATH)]].
Proof. unfold run_command. destruct (run sys _ _ _ _) as [[o|e] fs]; [|done]. by destruct (o_code o) as [[|c]|]. Qed.

Lemma post_install_ok d w u w' : post_install sys d w = (Ok u, w') ->
  exists cmd, linux_post_install_cmd d = Some cmd /\ w_acts w' = w_acts w ++ [Ran cmd.1 cmd.2 [("PATH"%str, PINNED_PATH)]].
Proof.
  intros Hok. unfold post_install in Hok. apply bind_ok_inv in Hok as ([tool args] & w5 & K5 & Hok). unfold lift in K5.
  destruct (linux_post_install_cmd d) as [cmd|]; [|done]. injection K5 as -> <-.
  apply bind_ok_inv in Hok as (out & w6 & K6 & Hok). injection Hok as _ <-. exists (tool, args). split; [done|].
  apply (f_equal snd) in K6. cbn [snd] in K6. by rewrite <- K6, run_acts.
Qed.

(** A successful removal, act by act: nothing when no anchor has the certificate. *)
Lemma uninstall_ca_ok fp w w' : uninstall_ca sys fp w = (Ok tt, w') ->
  exists d names n, d ∈ ANCHOR_DIRS /\ read_dir sys n d = Ok names /\
  ((w_acts w' = w_acts w /\ forall name, name ∈ names -> is_crt (path_join d name) = true -> lacks_cert (w_files w) fp (path_join d name)) \/
   exists name cmd, name ∈ names /\ is_crt (path_join d name) = true /\ holds_own_cert (w_files w) (path_join d name) fp /\
     linux_post_install_cmd d = Some cmd /\
     w_acts w' = w_acts w ++ [Removed (path_join d name); Ran cmd.1 cmd.2 [("PATH"%str, PINNED_PATH)]]).
Proof.
  intros Hok. unfold uninstall_ca in Hok.
  apply bind_ok_inv in Hok as (d & w1 & K1 & Hok). destruct (spec_silent _ _ _ _ _ _ (pick_quiet (w_files w) _ ANCHOR_DIRS) eq_refl K1) as [Ha1 Hf1].
  pose proof (returns_pick sys ANCHOR_DIRS _ _ _ K1) as Hd. cbn beta in Hd.
  apply bind_ok_inv in Hok as (names & w2 & K2 & Hok).
  assert (exists n, read_dir sys n d = Ok names) as (n & Hn).
  { exists (w_time w1). unfold emap, fs_read_dir, look in K2. destruct (read_fault sys (w_time w1)); [done|].
    destruct (read_dir sys (w_time w1) d); [|done]. by injection K2 as -> _. }
  assert (w_files w2 = w_files w /\ w_acts w2 = w_acts w) as [Hf2 Ha2].
  { unfold emap, fs_read_dir, look in K2. apply (f_equal snd) in K2. cbn in K2. by rewrite <- K2, <- Ha1, <- Hf1. }
  apply bind_ok_inv in Hok as (blobs & w3 & K3 & Hok).
  destruct (spec_silent _ _ _ _ _ _ (anchors_read (w_files w) _ d names) Hf2 K3) as [Ha3 [[Hb Hall] Hf3]].
  apply bind_ok_inv in Hok as (matched & w4 & K4 & Hok). unfold lift in K4.
  destruct (find_by_fingerprint blobs (fp_bytes fp)) as [m'|] eqn:Ef; [|done]. injection K4 as -> <-.
  exists d, names, n. split; [exact Hd|]. split; [exact Hn|]. destruct matched as [m|].
  - right. destruct (same_certificate _ _ _ Ef) as (content & blocks & b & Hin & Hp & Hbl & Hc & Hs & Hder). rewrite Hder in Hok.
    destruct (cert_is_orcker_owned (pem_contents b)) eqn:Eo; [|done]. apply bool_decide_eq_true in Eo. cbn [negb] in Hok.
    apply bind_ok_inv in Hok as ([] & w5 & K5 & Hok). apply post_install_ok in Hok as (cmd & Hcmd & Ha6).
    destruct (Hb _ Hin) as (Hfile & name & Hname & Hpath & Hcrt). destruct m as [pth idx]. cbn [fst snd pm_path] in *. subst pth. exists name, cmd.
    repeat (split; [done || by exists content, blocks, b|]).
    assert (w_acts w5 = w_acts w3 ++ [Removed (path_join d name)]) as Ha5.
    { unfold emap, fs_remove_file, change in K5. destruct (write_fault sys (w_time w3)); [done|].
      destruct (w_files w3 !! _) in K5; [|done]. apply (f_equal snd) in K5. cbn in K5. by rewrite <- K5. }
    by rewrite Ha6, Ha5, Ha3, Ha2, <- app_assoc.
  - left. injection Hok as <-. split; [congruence|]. intros name Hname Hcrt content blocks b Hfile Hp Hbl Hc.
    destruct (Hall name Hname Hcrt) as (content' & Hin). destruct (Hb _ Hin) as [Hfile' _]. cbn in Hfile'.
    assert (Some content' = Some content) as [= ->] by (etransitivity; [symmetry; exact Hfile'|exact Hfile]). by eapply found_none.
Qed.

(** macOS: what [security] is asked. *)
Definition FIND_ALL : list OsString := ["find-certificate"%str; "-a"%str; "-p"%str; KEYCHAIN].
Definition FIND_HASHES : list OsString := ["find-certificate"%str; "-Z"%str; "-a"%str; KEYCHAIN].
Definition DELETE (fp : CaFingerprint) : list OsString := ["delete-certificate"%str; "-Z"%str; fp_upper fp; KEYCHAIN].
Definition TRUST (pem : Path) : list OsString :=
  ["add-trusted-cert"%str; "-d"%str; "-r"%str; "trustRoot"%str; "-k"%str; KEYCHAIN; as_bytes (from_utf8_lossy pem)].
Definition asked (args : list OsString) (a : Act) : Prop := a = Ran "/usr/bin/security"%str args [("PATH"%str, PINNED_PATH)].

Definition dump_has_own_cert (w : World) (fp : CaFingerprint) : Prop :=
  exists out blocks b, (run sys (w_time w) "/usr/bin/security"%str FIND_ALL (w_files w)).1 = Ok out /\ o_code out = Some 0 /\
    parse_many (o_stdout out) = Some blocks /\ b ∈ blocks /\ is_certificate b = true /\
    sha256 (pem_contents b) = fp_bytes fp /\ subject_common_name (pem_contents b) = Some CA_COMMON_NAME.

Definition keychain_act (w : World) (fp : CaFingerprint) (a : Act) : Prop :=
  asked FIND_ALL a \/ (asked (DELETE fp) a /\ dump_has_own_cert w fp).

(** What an installation asks for, only after the file was seen to hold the named certificate. *)
Definition trust_act (fs : Files) (pem : Path) (fp : CaFingerprint) (a : Act) : Prop :=
  (exists der, names_cert fs pem fp der) /\ (asked FIND_HASHES a \/ asked (DELETE fp) a \/ asked (TRUST pem) a).

Lemma macos_uninstall_ca_spec fp w :
  exists acts, w_acts (macos_uninstall_ca sys fp w).2 = w_acts w ++ acts /\ Forall (keychain_act w fp) acts.
Proof.
  assert (triple (fun w' => w' = w) (keychain_act w fp) (fun _ _ => True) (macos_uninstall_ca sys fp)) as Hs; [|by apply Hs].
  unfold macos_uninstall_ca. fold FIND_ALL.
  eapply spec_bind; [apply (spec_attempt _ (fun r _ => forall out, r = Ok out ->
    (run sys (w_time w) "/usr/bin/security"%str FIND_ALL (w_files w)).1 = Ok out /\ o_code out = Some 0))|].
  - intros w0 ->. apply confined_run. by left.
  - intros w0 r w1 -> Hr out ->. unfold security, run_command in Hr. destruct (run sys _ _ _ _) as [[o|e] fs]; [|done]. cbn.
    destruct (o_code o) as [[|c]|] eqn:Eo; [|done|done]. by injection Hr as <- _.
  - intros r w0 Hr. destruct r as [out|e]; [|apply (spec_confined (fun _ => True)); [|done]; destruct e as [| | | | | | |? []| |]; apply confined_throw || apply confined_ret].
    destruct (Hr out eq_refl) as [Hrun Hcode]. apply (spec_confined (fun _ => True)); [|done].
    cbn [cert_der_for_fingerprint]. destruct (parse_many (o_stdout out)) as [blocks|] eqn:Ep; [|apply confined_ret].
    pose proof (match_blocks_find (fp_bytes fp) 0 blocks) as Hm. destruct (find_first _ _) as [b|]; [|apply confined_ret].
    destruct Hm as (Hin & Hc & Hsha & _). destruct (negb (cert_is_orcker_owned _)) eqn:Eo; [apply confined_throw|].
    apply negb_false_iff, bool_decide_eq_true in Eo. apply confined_bind; [|intros; apply confined_ret].
    apply confined_run. right. split; [done|]. by exists out, blocks, b.
Qed.

Lemma macos_install_ca_spec pem fp w :
  exists acts, w_acts (macos_install_ca sys pem fp w).2 = w_acts w ++ acts /\ Forall (trust_act (w_files w) pem fp) acts.
Proof.
  assert (triple (fun w' => w_files w' = w_files w) (trust_act (w_files w) pem fp) (fun _ _ => True) (macos_install_ca sys pem fp)) as Hs; [|by apply Hs].
  unfold macos_install_ca. eapply spec_bind; [apply spec_existing|intros ?]. eapply spec_bind; [apply spec_pem|intros der].
  apply spec_given. intros Hder. apply spec_confined.
  assert (forall args, args = FIND_HASHES \/ args = DELETE fp \/ args = TRUST pem -> confined (trust_act (w_files w) pem fp) (security sys args)) as Hsec.
  { intros args Ha. apply confined_run. split; [by exists der|]. unfold asked. destruct Ha as [->|[->| ->]]; auto. }
  apply confined_bind.
  - unfold macos_system_keychain_contains. apply confined_bind; [apply confined_attempt, Hsec; by left|].
    intros [out|[| | | | | | |? []| |]]; apply confined_throw || apply confined_ret.
  - intros present. apply confined_bind; [|intros _; apply confined_bind; [apply Hsec; by right; right|intros; apply confined_ret]].
    destruct present; [|apply confined_ret]. apply confined_bind; [apply Hsec; by right; left|intros; apply confined_ret].
Qed.

(** A success ended in the request to trust the file. *)
Lemma macos_install_ca_ok pem fp w w' : macos_install_ca sys pem fp w = (Ok tt, w') -> exists a, last (w_acts w') = Some a /\ asked (TRUST pem) a.
Proof.
  intros Hok. unfold macos_install_ca in Hok. apply bind_ok_inv in Hok as (? & w1 & _ & Hok). apply bind_ok_inv in Hok as (? & w2 & _ & Hok).
  apply bind_ok_inv in Hok as (? & w3 & _ & Hok). apply bind_ok_inv in Hok as (? & w4 & _ & Hok).
  apply bind_ok_inv in Hok as (? & w5 & K5 & Hok). injection Hok as <-. eexists. split; [|reflexivity].
  apply (f_equal snd) in K5. cbn [snd] in K5. unfold security in K5. by rewrite <- K5, run_acts, last_snoc.
Qed.
End ca.


(** ** Roll-back of the NetworkManager installation *)

Section rollback.
Context (sys : Sys) (raw : str) (t : Tld) (Ht : Tld_new raw = Ok t) (addr : SockAddr).
(** Existing files can be read, and commands leave the four files alone. *)
Context (Hread : forall n, read_fault sys n = None).

Definition NM_NAME : OsString := "orcker-dnsmasq.conf"%str.
Definition nm_tmp : Path := child NM_DIR (tmp_name NM_NAME).
Definition dns_tmp : Path := child DNSMASQ_DIR (tmp_name (conf_name (Tld_str t))).

Context (Hrun : forall n program args fs p, p ∈ [networkmanager_path; dnsmasq_path (Tld_str t); nm_tmp; dns_tmp] ->
  (run sys n program args fs).2 !! p = fs !! p).

(** The four files, as one world has them and another. *)
Definition same_four (w w' : World) : Prop :=
  (forall p, p ∈ [networkmanager_path; dnsmasq_path (Tld_str t); nm_tmp; dns_tmp] -> w_files w' !! p = w_files w !! p) /\
  (w_time w <= w_time w')%nat.

Lemma same_refl w : same_four w w.
Proof using. by split. Qed.
Lemma same_trans w1 w2 w3 : same_four w1 w2 -> same_four w2 w3 -> same_four w1 w3.
Proof using. intros [H1 T1] [H2 T2]. split; [intros p Hp; by rewrite H2, H1|lia]. Qed.

Definition keeps {E A} (m : M E A) : Prop := forall w, same_four w (m w).2.

Lemma keeps_bind {E A B} (m : M E A) (k : A -> M E B) : keeps m -> (forall a, keeps (k a)) -> keeps (m ≫= k).
Proof using.
  intros Hm Hk w. specialize (Hm w). unfold mbind, M_bind. destruct (m w) as [[a|e] w1]; [|done]. eapply same_trans; [done|apply Hk].
Qed.
Lemma keeps_pure {E A} (m : M E A) : (forall w, w_files (m w).2 = w_files w /\ (w_time w <= w_time (m w).2)%nat) -> keeps m.
Proof using. intros H w. destruct (H w) as [Hf Hl]. split; [|done]. intros p _. by rewrite Hf. Qed.
Lemma keeps_attempt {E F A} (m : M E A) : keeps m -> keeps (attempt m : M F _).
Proof using. intros H w. specialize (H w). unfold attempt. by destruct (m w). Qed.
Lemma keeps_ret {E A} (a : A) : keeps (mret a : M E A).
Proof using. by apply keeps_pure. Qed.
Lemma keeps_throw {E A} (e : E) : keeps (throw e : M E A).
Proof using. by apply keeps_pure. Qed.
Lemma keeps_look {A} (f : nat -> World -> result io_kind A) : keeps (look sys f).
Proof using. apply keeps_pure. intros w. cbn. split; [done|lia]. Qed.
Lemma keeps_run tool program args : keeps (run_command sys tool program args).
Proof using Hrun.
  intros w. unfold run_command. pose proof (Hrun (w_time w) program args (w_files w)) as Hr. destruct (run sys _ _ _ _) as [r fs]. cbn in Hr.
  split; [|by destruct r as [o|]; [destruct (o_code o) as [[|]|]|]; cbn; lia].
  intros p Hp. rewrite <- (Hr p Hp). by destruct r as [o|]; [destruct (o_code o) as [[|]|]|].
Qed.

Lemma keeps_read_to_string {E} p f : keeps (reads_as sys p f : M E bool).
Proof using.
  unfold reads_as, fs_read_to_string. apply keeps_bind; [apply keeps_attempt, keeps_bind; [apply keeps_look|]|]; intros; by apply keeps_pure.
Qed.
Lemma keeps_ready {E} : keeps (networkmanager_ready sys (Tld_str t) : M E bool).
Proof using.
  unfold networkmanager_ready, read_or_empty, fs_read_to_string. apply keeps_bind.
  - apply keeps_bind; [apply keeps_attempt, keeps_bind; [apply keeps_look|]|]; intros; by apply keeps_pure.
  - intros resolv. destruct (networkmanager_dnsmasq_is_active resolv); [|apply keeps_ret]. apply keeps_pure. intros w. unfold probe_dnsmasq.
    destruct (compose_query _); cbn; split; try done; lia.
Qed.
Lemma keeps_reload : keeps (reload_networkmanager sys).
Proof using Hrun. apply keeps_bind; [apply keeps_run|intros; apply keeps_ret]. Qed.
Lemma keeps_apply : keeps (apply_networkmanager sys (Tld_str t)).
Proof using Hrun.
  apply keeps_bind; [apply keeps_reload|intros _]. apply keeps_bind; [|intros [|]; [apply keeps_ret|apply keeps_throw]].
  unfold wait_for_networkmanager. generalize 20%nat as turns. induction turns as [|n IH]; cbn [wait_turns]; [apply keeps_ret|].
  apply keeps_bind; [apply keeps_ready|intros [|]; [apply keeps_ret|done]].
Qed.

Lemma read_ok_exact {E} p w : read_ok (E := E) sys p w = (Ok (w_files w !! p), tick w).
Proof using Hread. unfold read_ok, mbind, M_bind, attempt, fs_read, look. rewrite Hread. by destruct (w_files w !! p). Qed.

(** ** Restoring one file *)

Definition quiet_from (w : World) : Prop := forall n, (w_time w <= n)%nat -> write_fault sys n = None.

Lemma restore_spec d name previous w : in_fixed d name -> quiet_from w -> child d (tmp_name name) <> child d name ->
  let p := child d name in let tmp := child d (tmp_name name) in
  let w' := (restore_file sys p previous w).2 in
  (restore_file sys p previous w).1 = Ok tt /\ (w_time w <= w_time w')%nat /\
  (forall q, q <> p -> q <> tmp -> w_files w' !! q = w_files w !! q) /\
  (w_files w' !! p = previous \/ (w_files w !! tmp <> None /\ w_files w' !! p = w_files w !! p)) /\
  (w_files w !! tmp = None -> w_files w' !! tmp = None).
Proof using.
  intros (Hd & Hn & _) Hq Hne. cbv zeta. unfold restore_file, mbind, M_bind, attempt. destruct previous as [content|].
  - pose proof (atomic_write_cases sys (child d name) content true d w) as Hc. rewrite tmp_path_child in Hc by done.
    specialize (Hc (path_parent_child d name Hd Hn) Hne). destruct (atomic_write sys (child d name) content true w) as [[u|e] w1]; cbn.
    + destruct Hc as (Hnone & Hf & Hl & _). rewrite Hf. split_and!; [done|done| | |].
      * intros q Hq1 _. by rewrite lookup_insert_ne.
      * left. apply lookup_insert_eq.
      * intros _. by rewrite lookup_insert_ne.
    + destruct Hc as (Hf & Hl & Hfault). split_and!; [done|done| | |].
      * intros q _ Hq2. by apply Hf.
      * right. split; [|by apply Hf]. intros Hnone. destruct (Hfault Hnone) as (n & Hb & Hw). by rewrite Hq in Hw by lia.
      * intros Hnone. destruct (Hfault Hnone) as (n & Hb & Hw). by rewrite Hq in Hw by lia.
  - unfold remove_if_present, mbind, M_bind, attempt, fs_remove_file, change. rewrite Hq by lia.
    destruct (w_files w !! child d name) as [b|] eqn:Ep; cbn.
    + split_and!; [done|lia| | |].
      * intros q Hq1 _. by rewrite lookup_delete_ne.
      * left. apply lookup_delete_eq.
      * intros Hnone. by rewrite lookup_delete_ne.
    + split_and!; [done|lia|done|by left|done].
Qed.

Lemma four_distinct : networkmanager_path <> dnsmasq_path (Tld_str t) /\ networkmanager_path <> nm_tmp /\ networkmanager_path <> dns_tmp /\
  dnsmasq_path (Tld_str t) <> nm_tmp /\ dnsmasq_path (Tld_str t) <> dns_tmp /\ nm_tmp <> dns_tmp.
Proof using. split_and!; by intros [=]. Qed.

Lemma nm_fixed : in_fixed NM_DIR NM_NAME.
Proof using. by apply fixed_name. Qed.
Lemma dns_fixed : in_fixed DNSMASQ_DIR (conf_name (Tld_str t)).
Proof using Ht. apply fixed_entry; [by apply fixed_member|]. apply conf_name_plain. by destruct (tld_plain _ _ Ht). Qed.

(** Restoring both files when nothing fails any more: each ends as it was, unless a
    leftover temporary file stands in the way of one that was never replaced. *)
Lemma restore_both_spec old_nm old_dns w : quiet_from w ->
  (w_files w !! nm_tmp <> None -> w_files w !! networkmanager_path = old_nm) ->
  (w_files w !! dns_tmp <> None -> w_files w !! dnsmasq_path (Tld_str t) = old_dns) ->
  let w' := (restore_both sys (Tld_str t) old_nm old_dns w).2 in
  (restore_both sys (Tld_str t) old_nm old_dns w).1 = Ok tt /\
  w_files w' !! networkmanager_path = old_nm /\ w_files w' !! dnsmasq_path (Tld_str t) = old_dns.
Proof using Ht.
  intros Hq Hnm Hdns. destruct four_distinct as (D1 & D2 & D3 & D4 & D5 & D6). cbv zeta. unfold restore_both, mbind, M_bind.
  destruct (restore_spec NM_DIR NM_NAME old_nm w nm_fixed Hq) as (R1 & L1 & F1 & C1 & T1); [by intros [=]|]. cbv zeta in *.
  change (child NM_DIR NM_NAME) with networkmanager_path in *. change (child NM_DIR (tmp_name NM_NAME)) with nm_tmp in *.
  destruct (restore_file sys networkmanager_path old_nm w) as [r1 w1]. cbn in R1, L1, F1, C1, T1. subst r1.
  destruct (restore_spec DNSMASQ_DIR (conf_name (Tld_str t)) old_dns w1 dns_fixed) as (R2 & L2 & F2 & C2 & T2); [intros n Hn; apply Hq; lia|by intros [=]|].
  cbv zeta in *. change (child DNSMASQ_DIR (conf_name (Tld_str t))) with (dnsmasq_path (Tld_str t)) in *.
  change (child DNSMASQ_DIR (tmp_name (conf_name (Tld_str t)))) with dns_tmp in *.
  split; [done|]. split.
  - rewrite F2 by done. destruct C1 as [C1|[C1 C1']]; [done|]. rewrite C1'. by apply Hnm.
  - destruct C2 as [C2|[C2 C2']]; [done|]. rewrite C2'. rewrite (F1 dns_tmp) in C2 by done. rewrite F1 by done. by apply Hdns.
Qed.

(** Restoring reports nothing. *)
Lemma restore_total w p previous : (restore_file sys p previous w).1 = Ok tt.
Proof using.
  unfold restore_file. unfold mbind at 1, M_bind at 1, attempt at 1. destruct previous as [content|].
  - by destruct (atomic_write sys p content true w).
  - unfold mbind at 1, M_bind at 1. by destruct (remove_if_present sys p w) as [[]].
Qed.

Lemma restore_both_total w old_nm old_dns : (restore_both sys (Tld_str t) old_nm old_dns w).1 = Ok tt.
Proof using.
  unfold restore_both, mbind, M_bind. pose proof (restore_total w networkmanager_path old_nm) as H1.
  destruct (restore_file sys networkmanager_path old_nm w) as [r1 w1]. cbn in H1. subst r1. apply restore_total.
Qed.

(** What may fail: no file operation at all, or one, and then the installation
    failed because of it. *)
Definition fault_model (e : HelperError) : Prop :=
  (forall n, write_fault sys n = None) \/
  ((forall i j, write_fault sys i <> None -> write_fault sys j <> None -> i = j) /\ exists p k, e = HIo p k).

Lemma after_fault e w w1 : fault_model e -> faulted sys w w1 -> quiet_from w1.
Proof using.
  intros [Hn|[H1 _]] (i & Hi & Hf); [by rewrite Hn in Hf|]. intros n Hle.
  destruct (write_fault sys n) as [k|] eqn:E; [|done]. exfalso. assert (n = i) by (apply H1; [by rewrite E|done]). lia.
Qed.

Lemma apply_error w e w1 : apply_networkmanager sys (Tld_str t) w = (Err e, w1) -> forall p k, e <> HIo p k.
Proof using.
  unfold apply_networkmanager, reload_networkmanager, mbind, M_bind. destruct (run_command _ _ _ _ w) as [r w0] eqn:Er.
  assert (forall e', r = Err e' -> forall p k, e' <> HIo p k) as Hr.
  { intros e' ->. unfold run_command in Er. destruct (run sys _ _ _ _) as [[o|k'] fs].
    - destruct (o_code o) as [[|c]|]; [done|..]; by injection Er as <- _.
    - by injection Er as <- _. }
  destruct r as [o|e']; unfold mret, M_ret; [|intros [= <- <-]; by apply Hr].
  destruct (wait_for_networkmanager (E := HelperError) sys (Tld_str t) w0) as [[[|]|e'] w2] eqn:Ew; cbn; [by intros [=]|by intros [= <- <-]|].
  exfalso. revert Ew. unfold wait_for_networkmanager. generalize 20%nat as turns. revert w0 Er. clear. intros w0 _ turns. revert w0.
  induction turns as [|turns IH]; intros w0; cbn [wait_turns]; [done|]. unfold mbind, M_bind.
  destruct (networkmanager_ready (E := HelperError) sys (Tld_str t) w0) as [[[|]|e''] w3] eqn:En; [done|apply IH|]. exfalso. revert En.
  unfold networkmanager_ready, read_or_empty, probe_dnsmasq, mbind, M_bind, attempt. destruct (fs_read_to_string sys _ w0) as [r1 w4]. cbn.
  destruct (networkmanager_dnsmasq_is_active _); [|done]. by destruct (compose_query _).
Qed.

(** The two writes, with their temporary files named. *)
Lemma nm_write w data : match atomic_write sys networkmanager_path data true w with
  | (Ok _, w') => w_files w !! nm_tmp = None /\ w_files w' = <[networkmanager_path := data]> (w_files w)
  | (Err _, w') => (forall p, p <> nm_tmp -> w_files w' !! p = w_files w !! p) /\ (w_files w !! nm_tmp = None -> faulted sys w w')
  end.
Proof using.
  destruct nm_fixed as (Pn & Nn & _). pose proof (atomic_write_cases sys (child NM_DIR NM_NAME) data true NM_DIR w (path_parent_child _ _ Pn Nn)) as C.
  rewrite tmp_path_child in C by done. specialize (C ltac:(by intros [=])).
  change (child NM_DIR NM_NAME) with networkmanager_path in C. change (child NM_DIR (tmp_name NM_NAME)) with nm_tmp in C.
  destruct (atomic_write sys networkmanager_path data true w) as [[u|e] w']; [by destruct C as (? & ? & _)|by destruct C as (? & _ & ?)].
Qed.

Lemma dns_write w data : match atomic_write sys (dnsmasq_path (Tld_str t)) data true w with
  | (Ok _, w') => w_files w !! dns_tmp = None /\ w_files w' = <[dnsmasq_path (Tld_str t) := data]> (w_files w)
  | (Err _, w') => (forall p, p <> dns_tmp -> w_files w' !! p = w_files w !! p) /\ (w_files w !! dns_tmp = None -> faulted sys w w')
  end.
Proof using Ht.
  destruct dns_fixed as (Pn & Nn & _).
  pose proof (atomic_write_cases sys (child DNSMASQ_DIR (conf_name (Tld_str t))) data true DNSMASQ_DIR w (path_parent_child _ _ Pn Nn)) as C.
  rewrite tmp_path_child in C by done. specialize (C ltac:(by intros [=])).
  change (child DNSMASQ_DIR (conf_name (Tld_str t))) with (dnsmasq_path (Tld_str t)) in C.
  change (child DNSMASQ_DIR (tmp_name (conf_name (Tld_str t)))) with dns_tmp in C.
  destruct (atomic_write sys (dnsmasq_path (Tld_str t)) data true w) as [[u|e] w']; [by destruct C as (? & ? & _)|by destruct C as (? & _ & ?)].
Qed.

(** After the two writes: everything to restore can be restored. *)
Definition restorable_to (old_nm old_dns : option (list N)) (w : World) : Prop :=
  (w_files w !! nm_tmp <> None -> w_files w !! networkmanager_path = old_nm) /\
  (w_files w !! dns_tmp <> None -> w_files w !! dnsmasq_path (Tld_str t) = old_dns).

Lemma write_both w : w_files w !! nm_tmp = None -> w_files w !! dns_tmp = None ->
  let '(r, w1) := write_networkmanager sys (Tld_str t) addr w in
  restorable_to (w_files w !! networkmanager_path) (w_files w !! dnsmasq_path (Tld_str t)) w1 /\
  match r with
  | Ok _ => w_files w1 !! nm_tmp = None /\ w_files w1 !! dns_tmp = None
  | Err _ => exists w0, faulted sys w0 w1
  end.
Proof using Ht.
  intros Hn Hd. destruct four_distinct as (D1 & D2 & D3 & D4 & D5 & D6). unfold write_networkmanager, mbind, M_bind, restorable_to.
  pose proof (nm_write w (as_bytes compose_networkmanager)) as C1.
  destruct (atomic_write sys networkmanager_path _ true w) as [[u|e] w1].
  - destruct C1 as [_ F1]. pose proof (dns_write w1 (as_bytes (compose_dnsmasq (Tld_str t) addr))) as C2.
    destruct (atomic_write sys (dnsmasq_path (Tld_str t)) _ true w1) as [[u'|e] w2].
    + destruct C2 as [_ F2]. rewrite F2, F1. rewrite !(lookup_insert_ne _ _ nm_tmp), !(lookup_insert_ne _ _ dns_tmp) by done.
      by rewrite Hn, Hd.
    + destruct C2 as [F2 T2]. rewrite (F2 nm_tmp), (F2 (dnsmasq_path _)) by done. rewrite F1. rewrite (lookup_insert_ne _ _ nm_tmp) by done.
      rewrite Hn. rewrite (lookup_insert_ne _ _ (dnsmasq_path _)) by done. split; [done|]. exists w1. apply T2. rewrite F1. by rewrite lookup_insert_ne.
  - destruct C1 as [F1 T1]. rewrite (F1 networkmanager_path), (F1 (dnsmasq_path _)), (F1 dns_tmp) by done. rewrite Hd.
    split; [done|]. exists w. by apply T1.
Qed.

Lemma restored old_nm old_dns w w1 e : quiet_from w -> restorable_to old_nm old_dns w ->
  (_ ← restore_both sys (Tld_str t) old_nm old_dns; (throw e : M HelperError unit)) w = (Err e, w1) ->
  w_files w1 !! networkmanager_path = old_nm /\ w_files w1 !! dnsmasq_path (Tld_str t) = old_dns.
Proof using Ht.
  intros Hq [H1 H2]. destruct (restore_both_spec old_nm old_dns w Hq H1 H2) as (Hr & Hn & Hd). cbv zeta in *. unfold mbind, M_bind.
  destruct (restore_both sys (Tld_str t) old_nm old_dns w) as [r w']. cbn in Hr, Hn, Hd. subst r. by intros [= <-].
Qed.

Lemma replace_rolls_back w e w' : w_files w !! nm_tmp = None -> w_files w !! dns_tmp = None -> fault_model e ->
  replace_networkmanager sys (Tld_str t) addr w = (Err e, w') ->
  w_files w' !! networkmanager_path = w_files w !! networkmanager_path /\
  w_files w' !! dnsmasq_path (Tld_str t) = w_files w !! dnsmasq_path (Tld_str t).
Proof using Ht Hread Hrun.
  intros Hn Hd Hfm Hr. unfold replace_networkmanager in Hr.
  unfold mbind at 1, M_bind at 1 in Hr. rewrite read_ok_exact in Hr. unfold mbind at 1, M_bind at 1 in Hr. rewrite read_ok_exact in Hr.
  cbn [w_files tick] in Hr. pose proof (write_both (tick (tick w)) Hn Hd) as Hw. unfold mbind at 1, M_bind at 1, attempt at 1 in Hr.
  destruct (write_networkmanager sys (Tld_str t) addr (tick (tick w))) as [r w1]. cbn [w_files tick] in Hw. destruct Hw as [Hres Hcase].
  destruct r as [u|e0].
  - unfold mbind at 1, M_bind at 1, attempt at 1 in Hr. destruct (keeps_apply w1) as [Hk _].
    destruct (apply_networkmanager sys (Tld_str t) w1) as [[u'|e0] w2] eqn:Ea; [done|]. cbn [snd] in Hk.
    assert (e0 = e) as ->.
    { unfold mbind at 1, M_bind at 1 in Hr. destruct (restore_both _ _ _ _ w2) as [[|] w3] eqn:Eb.
      - unfold mbind, M_bind, attempt in Hr. destruct (reload_networkmanager sys w3). by injection Hr.
      - pose proof (restore_both_total w2 (w_files w !! networkmanager_path) (w_files w !! dnsmasq_path (Tld_str t))) as Hx. by rewrite Eb in Hx. }
    destruct Hfm as [Hnone|[_ (p & k & ->)]]; [|by eapply apply_error in Ea].
    assert (restorable_to (w_files w !! networkmanager_path) (w_files w !! dnsmasq_path (Tld_str t)) w2) as [R1 R2].
    { destruct Hres as [R1 R2]. split; rewrite !Hk by set_solver; done. }
    assert (quiet_from w2) as Hq by (intros n _; apply Hnone).
    destruct (restore_both_spec _ _ w2 Hq R1 R2) as (Hok & Hnm & Hdns). cbv zeta in *.
    unfold mbind at 1, M_bind at 1 in Hr. destruct (restore_both sys _ _ _ w2) as [r3 w3]. cbn in Hok, Hnm, Hdns. subst r3.
    unfold mbind, M_bind, attempt in Hr. destruct (keeps_reload w3) as [Hk3 _]. destruct (reload_networkmanager sys w3) as [r4 w4]. cbn in Hk3.
    injection Hr as <-. rewrite !Hk3 by set_solver. done.
  - destruct Hcase as (w0 & Hf). assert (e0 = e) as ->.
    { unfold mbind, M_bind in Hr. pose proof (restore_both_total w1 (w_files w !! networkmanager_path) (w_files w !! dnsmasq_path (Tld_str t))) as Hx.
      destruct (restore_both _ _ _ _ w1) as [[|] w3]; [by injection Hr|done]. }
    by eapply restored; [eapply after_fault|..].
Qed.

Lemma bind_err {E A B} (m : M E A) (k : A -> M E B) w e w' : keeps m -> (m ≫= k) w = (Err e, w') ->
  (same_four w w' /\ m w = (Err e, w')) \/ exists a w1, same_four w w1 /\ m w = (Ok a, w1) /\ k a w1 = (Err e, w').
Proof using.
  intros Hk. specialize (Hk w). unfold mbind, M_bind. destruct (m w) as [[a|e'] w1]; [right; by exists a, w1|]. intros [= <- <-]. by left.
Qed.

Lemma install_rolls_back w e w' : w_files w !! nm_tmp = None -> w_files w !! dns_tmp = None -> fault_model e ->
  install_networkmanager sys (Tld_str t) addr w = (Err e, w') ->
  w_files w' !! networkmanager_path = w_files w !! networkmanager_path /\
  w_files w' !! dnsmasq_path (Tld_str t) = w_files w !! dnsmasq_path (Tld_str t).
Proof using Ht Hread Hrun.
  intros Hn Hd Hfm Hr.
  assert (forall w1, same_four w w1 -> w_files w1 !! networkmanager_path = w_files w !! networkmanager_path /\
    w_files w1 !! dnsmasq_path (Tld_str t) = w_files w !! dnsmasq_path (Tld_str t)) as Hsame.
  { intros w1 [Hs _]. split; apply Hs; set_solver. }
  unfold install_networkmanager in Hr.
  apply bind_err in Hr as [[S1 _]|(a1 & w1 & S1 & _ & Hr)]; [by apply Hsame| |apply keeps_run].
  apply bind_err in Hr as [[S2 _]|(a2 & w2 & S2 & _ & Hr)]; [by apply Hsame; eapply same_trans| |apply keeps_run].
  apply bind_err in Hr as [[S3 _]|(nm & w3 & S3 & _ & Hr)];
    [apply Hsame; eapply same_trans; [|exact S3]; by eapply same_trans| |apply keeps_read_to_string].
  apply bind_err in Hr as [[S4 _]|(fm & w4 & S4 & _ & Hr)];
    [apply Hsame; eapply same_trans; [|exact S4]; eapply same_trans; [|exact S3]; by eapply same_trans|
     |destruct nm; [apply keeps_read_to_string|apply keeps_ret]].
  apply bind_err in Hr as [[S5 _]|(rd & w5 & S5 & _ & Hr)];
    [apply Hsame; eapply same_trans; [|exact S5]; eapply same_trans; [|exact S4]; eapply same_trans; [|exact S3]; by eapply same_trans|
     |destruct fm; [apply keeps_ready|apply keeps_ret]].
  assert (same_four w w5) as S.
  { eapply same_trans; [|exact S5]; eapply same_trans; [|exact S4]; eapply same_trans; [|exact S3]; by eapply same_trans. }
  destruct rd; [done|]. destruct (Hsame w5 S) as [<- <-]. eapply replace_rolls_back; [..|exact Hr]; [| |done].
  - destruct S as [S _]. rewrite S by set_solver. done.
  - destruct S as [S _]. rewrite S by set_solver. done.
Qed.
End rollback.


(** ** A small machine *)

Definition demo_ok : result io_kind Output := Ok (mkOutput (Some 0) []).

(** [reload] fails; everything else works. *)
Definition demo_run (n : nat) (program : str) (args : list OsString) (fs : Files) : result io_kind Output * Files :=
  (if bool_decide (args = ["general"%str; "reload"%str; "conf"%str; "dns-full"%str]) then Ok (mkOutput (Some 1) []) else demo_ok, fs).

Definition demo_sys : Sys := mkSys (fun _ => None) (fun _ => None) (fun _ => O) demo_run
  (fun _ p => if bool_decide (p = "/run/ca.pem"%str) then Some (mkMeta false true 0 420) else Some (mkMeta true false 0 493))
  (fun _ _ => Ok []) (fun _ _ => None) (fun _ => 0).

#[local] Existing Instance demo_hex.
#[local] Existing Instance demo_hex_laws.

(** A file is one certificate; its hash is its first 32 bytes, padded. *)
#[local] Instance demo_certs : Certs := {|
  parse_many c := Some [mkPem "CERTIFICATE"%str c];
  pem_encode p := pem_contents p;
  sha256 der := take 32 (der ++ replicate 32 0);
  subject_common_name der := Some CA_COMMON_NAME
|}.

Definition demo_cert : list N := replicate 32 171.
Definition demo_world : World := mkWorld {[ "/run/ca.pem"%str := demo_cert; networkmanager_path := "old"%str ]} [] 0.
Definition demo_addr : SockAddr := SockV4 (mkV4 127 0 0 1) 5353.


Lemma helper_confined_witness :
  let '(code, w') := main_run (fun _ => Ok (mkCli true (OpInstallCa "/run/ca.pem"%str (to_hex (mkFp demo_cert))))) false demo_sys LinuxTarget [] demo_world in
  code = 77 /\ w_acts w' = [].
Proof.
  pose proof (helper_confined (fun _ => Ok (mkCli true (OpInstallCa "/run/ca.pem"%str (to_hex (mkFp demo_cert))))) demo_sys LinuxTarget [] demo_world
    ltac:(intros n p names [= <-]; constructor)) as H.
  destruct (main_run _ false demo_sys LinuxTarget [] demo_world) as [code w'] eqn:E.
  destruct H as [(acts & Ha & _ & Hp) _]. vm_compute in E. injection E as <- <-. by split.
Defined.


(** ** Where the code differs from what it says *)

(** macOS: the file is checked, and then read again by [security]; here the first
    command replaces it, and what is added is not what was checked. *)
Definition swap_run (n : nat) (program : str) (args : list OsString) (fs : Files) : result io_kind Output * Files :=
  (demo_ok, match args with cmd :: _ => if bool_decide (cmd = "find-certificate"%str) then <["/run/ca.pem"%str := "evil"%str]> fs else fs | [] => fs end).
Definition swap_sys : Sys := mkSys (fun _ => None) (fun _ => None) (fun _ => O) swap_run (fun _ _ => Some (mkMeta false true 0 420))
  (fun _ _ => Ok []) (fun _ _ => None) (fun _ => 0).

Lemma mac_install_reads_again :
  let '(r, w') := macos_install_ca swap_sys "/run/ca.pem"%str (mkFp demo_cert) demo_world in
  r = Ok tt /\ last (w_acts w') = Some (Ran "/usr/bin/security"%str ["add-trusted-cert"%str; "-d"%str; "-r"%str; "trustRoot"%str; "-k"%str; KEYCHAIN;
    "/run/ca.pem"%str] [("PATH"%str, PINNED_PATH)]) /\ w_files w' !! "/run/ca.pem"%str = Some "evil"%str.
Proof. by vm_compute. Qed.

(** A write that fails leaves its temporary file, and every later write of the same
    file fails on it, although the disk works again. *)
Definition once_sys : Sys := mkSys (fun _ => None) (fun n => if (n =? 2)%nat then Some (IoOther 28) else None) (fun _ => O) demo_run
  (fun _ _ => None) (fun _ _ => Ok []) (fun _ _ => None) (fun _ => 0).

Lemma stale_temporary :
  let w1 := (atomic_write once_sys (resolver_file_path "test"%str) "a"%str true demo_world).2 in
  (atomic_write once_sys (resolver_file_path "test"%str) "a"%str true w1).1 = Err (HIo (child RESOLVER_DIR (tmp_name "test"%str)) IoAlreadyExists).
Proof. by vm_compute. Qed.

(** A configuration file that exists but cannot be read is taken for absent, and the
    roll-back deletes it. *)
Definition unreadable_sys : Sys := mkSys (fun n => if (n =? 3)%nat then Some (IoOther 5) else None) (fun _ => None) (fun _ => O) demo_run
  (fun _ _ => None) (fun _ _ => Ok []) (fun _ _ => None) (fun _ => 0).

Lemma unreadable_not_restored :
  let '(r, w') := install_networkmanager unreadable_sys "test"%str demo_addr demo_world in
  is_ok r = false /\ w_files demo_world !! networkmanager_path = Some "old"%str /\ w_files w' !! networkmanager_path = None.
Proof. by vm_compute. Qed.

(** A file of several certificates, one a line; only the first byte tells whose. *)
Definition bundle_certs : Certs := {|
  parse_many c := Some (mkPem "CERTIFICATE"%str <$> split_char NL c);
  pem_encode p := pem_contents p;
  sha256 der := take 32 (der ++ replicate 32 0);
  subject_common_name der := if bool_decide (head der = Some 171) then Some CA_COMMON_NAME else Some "Another Root"%str
|}.
Definition bundle_path : Path := "/usr/local/share/ca-certificates/company.crt"%str.
Definition bundle_sys : Sys := mkSys (fun _ => None) (fun _ => None) (fun _ => O) demo_run (fun _ _ => Some (mkMeta true false 0 493))
  (fun _ _ => Ok ["company.crt"%str]) (fun _ _ => None) (fun _ => 0).

(** The file is removed whole, with the certificates in it that are not Orcker's. *)
Lemma bundle_removed_whole :
  let w := mkWorld {[ bundle_path := demo_cert ++ [NL] ++ "another root"%str ]} [] 0 in
  let '(r, w') := uninstall_ca (H0 := bundle_certs) bundle_sys (mkFp demo_cert) w in
  r = Ok tt /\ w_files w' !! bundle_path = None.
Proof. by vm_compute. Qed.
