(* ===== verification/Supervisor.v ===== *)
(** * The supervision state machine

    [src/crates/orcker-tunnel/src/supervise]: the policy, the states, events and
    actions of [supervisor.rs], how a child exits ([error.rs]), and the pure parts
    of the process back end ([real.rs]).  A [Duration] is its nanoseconds. *)

From S2P Require Import Prelude RustStr.

Open Scope N_scope.

(** ** Durations *)

Definition DURATION_MAX : N := u64_max * 1000000000 + 999999999.
Definition from_secs (n : N) : N := n * 1000000000.
Definition from_millis (n : N) : N := n * 1000000.
Definition duration_saturating_mul (d n : N) : N := N.min (d * n) DURATION_MAX.

(** ** [error.rs] *)

Inductive ExitReason := Code (c : Z) | Signal (s : Z) | Unknown.
#[export] Instance ExitReason_eq_dec : EqDecision ExitReason.
Proof. solve_decision. Defined.

(** What [waitpid] reports: [ExitStatus::signal] and [ExitStatus::code]. *)
Record ExitStatus := mkStatus { es_signal : option Z; es_code : option Z }.

Definition from_status (status : ExitStatus) : ExitReason :=
  match es_signal status with
  | Some sig => Signal sig
  | None => match es_code status with Some code => Code code | None => Unknown end
  end.

(** ** The policy *)

Record SupervisorPolicy := mkPolicy {
  health_check_window : N;
  backoff_initial : N;
  backoff_max : N;
  max_restart_attempts : N;
  stop_grace : N;
}.

Definition policy_fpm : SupervisorPolicy := mkPolicy (from_secs 5) (from_millis 100) (from_secs 10) 3 (from_secs 2).
Definition policy_database : SupervisorPolicy := mkPolicy (from_secs 60) (from_millis 250) (from_secs 10) 3 (from_secs 10).
Definition policy_reverb : SupervisorPolicy := mkPolicy (from_secs 20) (from_millis 250) (from_secs 10) 3 (from_secs 3).
Definition policy_tunnel : SupervisorPolicy := mkPolicy (from_secs 60) (from_millis 250) (from_secs 10) 3 (from_secs 5).

(** ** States, events and actions *)

Inductive PoolState :=
| Stopped
| Starting (attempts : N) (pid : option N)
| Running (pid : N)
| Failed (last_exit : ExitReason) (attempts : N)
| Stopping (sigkilled : bool).
#[export] Instance PoolState_eq_dec : EqDecision PoolState.
Proof. solve_decision. Defined.

Inductive Event :=
| EnsureRequested
| SpawnSucceeded (pid : N)
| HealthCheckOk
| HealthCheckTick (elapsed_since_starting : N)
| Crashed (reason : ExitReason)
| StopRequested
| StopComplete
| StopTick (elapsed_since_stopping : N)
| BackoffElapsed.

Inductive KillSignal := Term | Kill.
Inductive StopProtocol := GroupTerm | MasterInterrupt.
Inductive ErrorTag := HealthCheckTimedOut | PermanentFailure.

Inductive Action :=
| NoAction
| Spawn
| HealthCheck
| Backoff (wait : N)
| KillChild (signal : KillSignal)
| EmitError (tag : ErrorTag).

(** [1u64.checked_shl(n)] *)
Definition checked_shl_1 (n : N) : option N := if n <? 64 then Some (2 ^ n) else None.
Definition u32_try_from (n : N) : option N := if n <=? u32_max then Some n else None.

Definition backoff_for (attempts : N) (policy : SupervisorPolicy) : N :=
  let n := N.max attempts 1 - 1 in
  let factor := default u64_max (checked_shl_1 n) in
  let scaled := duration_saturating_mul (backoff_initial policy) (default u32_max (u32_try_from factor)) in
  N.min scaled (backoff_max policy).

Definition transition (state : PoolState) (event : Event) (policy : SupervisorPolicy) : PoolState * Action :=
  match state, event with
  | Stopped, EnsureRequested => (Starting 1 None, Spawn)

  | Starting attempts _, SpawnSucceeded pid => (Starting attempts (Some pid), HealthCheck)
  | Starting _ (Some pid), HealthCheckOk => (Running pid, NoAction)
  | Starting _ _, HealthCheckOk => (state, NoAction)
  | Starting _ _, HealthCheckTick elapsed =>
      if elapsed <? health_check_window policy then (state, HealthCheck) else (state, KillChild Term)
  | Starting attempts _, Crashed reason => (Failed reason attempts, Backoff (backoff_for attempts policy))
  | Starting _ _, StopRequested => (Stopping false, KillChild Term)

  | Running _, Crashed reason => (Failed reason 1, Backoff (backoff_for 1 policy))
  | Running _, EnsureRequested => (state, NoAction)
  | Running _, StopRequested => (Stopping false, KillChild Term)

  | Failed last_exit attempts, BackoffElapsed =>
      if attempts <? max_restart_attempts policy then (Starting (attempts + 1) None, Spawn)
      else (Failed last_exit attempts, EmitError PermanentFailure)
  | Failed _ _, EnsureRequested => (Starting 1 None, Spawn)
  | Failed _ _, StopRequested => (Stopped, NoAction)

  | Stopping false, StopTick elapsed =>
      if stop_grace policy <=? elapsed then (Stopping true, KillChild Kill) else (state, NoAction)
  | Stopping true, StopTick _ => (state, NoAction)
  | Stopping _, StopComplete => (Stopped, NoAction)
  | Stopping _, EnsureRequested => (state, NoAction)

  | _, _ => (state, NoAction)
  end.

(** ** [real.rs] *)

(** Where a group signal goes: nowhere for 0, which would be the caller's own
    group, nor for a number that is not a process id. *)
Definition group_signal_target (leader_pid : N) : option N :=
  if leader_pid =? 0 then None else if leader_pid <=? 2147483647 then Some leader_pid else None.

(** A signal as it is sent: to a group or to one process. *)
Inductive Sent := ToGroup (pid sig : N) | ToProcess (pid sig : N).
Definition SIGINT : N := 2.
Definition SIGKILL : N := 9.
Definition SIGTERM : N := 15.

Definition child_kill (pid : N) (signal : KillSignal) (protocol : StopProtocol) : option Sent :=
  if pid <=? 2147483647 then
    Some match signal, protocol with
         | Kill, _ => ToGroup pid SIGKILL
         | Term, GroupTerm => ToGroup pid SIGTERM
         | Term, MasterInterrupt => ToProcess pid SIGINT
         end
  else None.

(** [spawn_retrying_text_file_busy]: the result of the last of the attempts,
    [spawns k] being that of the [k]-th. *)
Definition MAX_ATTEMPTS : nat := 20.
Section Retry.
Context {E A : Type} (is_text_file_busy : E -> bool) (spawns : nat -> result E A).

Fixpoint spawn_retry (left attempts : nat) : result E A * nat :=
  let result := spawns attempts in
  match left, result with
  | S left', Err e => if is_text_file_busy e then spawn_retry left' (S attempts) else (result, S attempts)
  | _, _ => (result, S attempts)
  end.
Definition spawn_retrying_text_file_busy : result E A * nat := spawn_retry (MAX_ATTEMPTS - 1) 0.
End Retry.
