(* ===== verification/Tunnel.v ===== *)
(** * The texts of a tunnel

    The pure modules of [src/crates/orcker-tunnel/src]: the origin a tunnel forwards
    to ([origin.rs]), the arguments of cloudflared ([args.rs]), its configuration
    ([config.rs]) and what is read from its log ([parse.rs]); and of
    [src/bin/orckerd/src/tunnel]: the guards on names ([named.rs]) and the token in
    the account certificate ([credentials.rs]). *)

From S2P Require Import Prelude RustStr RustText Utf8 RustPath Mime HelperArgv.

Open Scope N_scope.

(** ** [origin.rs] *)

Inductive Scheme := Http | Https.
#[export] Instance Scheme_eq_dec : EqDecision Scheme.
Proof. solve_decision. Defined.

Definition Scheme_as_str (s : Scheme) : str := match s with Http => "http"%str | Https => "https"%str end.

Record OriginTarget := mkOrigin {
  scheme : Scheme;
  port : N;
  host_header : str;
  origin_server_name : option str;
  no_tls_verify : bool;
}.

Definition for_site (host : str) (secure : bool) (http_bound https_bound : N) : OriginTarget :=
  if secure then mkOrigin Https https_bound host (Some host) true
  else mkOrigin Http http_bound host None false.

Definition url (o : OriginTarget) : str :=
  Scheme_as_str (scheme o) ++ "://127.0.0.1:"%str ++ show_uint (port o).

(** ** [args.rs] *)

Definition origincert_tunnel_prefix (origincert : OsString) : list OsString :=
  ["--origincert"%str; origincert; "tunnel"%str].

Definition push_origin_tls (args : list OsString) (origin : OriginTarget) : list OsString :=
  let args := match origin_server_name origin with
              | Some sni => args ++ ["--origin-server-name"%str; os sni]
              | None => args
              end in
  if no_tls_verify origin then args ++ ["--no-tls-verify"%str] else args.

Definition quick_tunnel_args (origin : OriginTarget) : list OsString :=
  push_origin_tls ["tunnel"%str; "--no-autoupdate"%str; "--url"%str; os (url origin);
                   "--http-host-header"%str; os (host_header origin)] origin
    ++ ["--loglevel"%str; "info"%str].

Definition named_run_args (config_path origincert : OsString) : list OsString :=
  ["--no-autoupdate"%str; "--origincert"%str; origincert; "--config"%str; config_path; "tunnel"%str; "run"%str].

Definition login_args (origincert : OsString) : list OsString := origincert_tunnel_prefix origincert ++ ["login"%str].

Definition create_args (name : str) (origincert credentials_file : OsString) : list OsString :=
  origincert_tunnel_prefix origincert ++ ["create"%str; "--credentials-file"%str; credentials_file; os name].

Definition route_dns_args (tunnel hostname : str) (origincert : OsString) : list OsString :=
  origincert_tunnel_prefix origincert ++ ["route"%str; "dns"%str; "--overwrite-dns"%str; os tunnel; os hostname].

Definition cleanup_args (tunnel : str) (origincert : OsString) : list OsString :=
  origincert_tunnel_prefix origincert ++ ["cleanup"%str; os tunnel].

Definition delete_args (tunnel : str) (origincert : OsString) : list OsString :=
  origincert_tunnel_prefix origincert ++ ["delete"%str; os tunnel].

Definition list_args (origincert : OsString) : list OsString :=
  origincert_tunnel_prefix origincert ++ ["list"%str; "--output"%str; "json"%str].

(** ** [config.rs] *)

Record IngressRule := mkRule { hostname : str; origin : OriginTarget }.

(** [s.replace('\'', "''")] between quotes. *)
Definition yaml_squote (s : str) : str :=
  "'"%str ++ (s ≫= fun c => if c =? 39 then [39; 39] else [c]) ++ "'"%str.

Definition writeln (out line : str) : str := out ++ line ++ [NL].

Definition push_rule (out : str) (rule : IngressRule) : str :=
  let out := writeln out ("  - hostname: "%str ++ yaml_squote (hostname rule)) in
  let out := writeln out ("    service: "%str ++ yaml_squote (url (origin rule))) in
  let out := writeln out "    originRequest:"%str in
  let out := writeln out ("      httpHostHeader: "%str ++ yaml_squote (host_header (origin rule))) in
  let out := match origin_server_name (origin rule) with
             | Some sni => writeln out ("      originServerName: "%str ++ yaml_squote sni)
             | None => out
             end in
  if no_tls_verify (origin rule) then writeln out "      noTLSVerify: true"%str else out.

(** [Path::display]: lossy. *)
Definition display (p : OsString) : str := from_utf8_lossy p.

Definition render_ingress_config (tunnel_uuid : str) (credentials_file : OsString) (rules : list IngressRule) : str :=
  let out := writeln [] ("tunnel: "%str ++ yaml_squote tunnel_uuid) in
  let out := writeln out ("credentials-file: "%str ++ yaml_squote (display credentials_file)) in
  let out := writeln out "ingress:"%str in
  let out := foldl push_rule out rules in
  writeln out "  - service: http_status:404"%str.

(** ** [parse.rs] *)

(** [str::split] with a predicate: never empty. *)
Fixpoint split_pred (p : N -> bool) (s : str) : list str :=
  match s with
  | [] => [[]]
  | c :: r =>
      if p c then [] :: split_pred p r
      else match split_pred p r with [] => [[c]] | w :: ws => (c :: w) :: ws end
  end.

Definition is_token_sep (c : N) : bool :=
  is_whitespace c || existsb (N.eqb c) ["|"%ch; 34; 39; "*"%ch; "+"%ch; "<"%ch; ">"%ch].
Definition split_tokens (chunk : str) : list str := split_pred is_token_sep chunk.

Definition is_trailing_punct (c : N) : bool :=
  existsb (N.eqb c) ["."%ch; ","%ch; ")"%ch; "]"%ch; "}"%ch; ";"%ch; ":"%ch].

Definition HTTPS : str := "https://"%str.
Definition TRYCLOUDFLARE : str := ".trycloudflare.com"%str.

Definition https_url_in (token : str) : option str :=
  '(_, after) ← split_once_str HTTPS token;
  Some (trim_end_matches is_trailing_punct (HTTPS ++ after)).

Definition extract_trycloudflare (token : str) : option str :=
  u ← https_url_in token;
  rest ← strip_prefix HTTPS u;
  let host := default rest (head (split_char "/"%ch rest)) in
  if (len TRYCLOUDFLARE <? len host) && ends_with TRYCLOUDFLARE host then Some (HTTPS ++ host) else None.

Definition parse_quick_url (chunk : str) : option str := find_map extract_trycloudflare (split_tokens chunk).

Definition find_auth_url (chunk : str) : option str :=
  find_map (fun t => u ← https_url_in t; if contains_str "cloudflare.com"%str u then Some u else None) (split_tokens chunk).

Definition READY_MARKERS : list str := ["Registered tunnel connection"%str; "Connection registered"%str].
Definition is_named_ready (chunk : str) : bool := existsb (fun m => contains_str m chunk) READY_MARKERS.

(** The groups of the loop in [is_uuid], and that nothing follows the last. *)
Fixpoint uuid_groups (groups : list N) (parts : list str) : bool :=
  match groups, parts with
  | [], _ => is_empty parts
  | l :: gs, p :: ps => (len p =? l) && forallb is_ascii_hexdigit (as_bytes p) && uuid_groups gs ps
  | _ :: _, [] => false
  end.
Definition is_uuid (s : str) : bool := uuid_groups [8; 4; 4; 4; 12] (split_char "-"%ch s).

Definition trim_matches (p : N -> bool) (s : str) : str := trim_end_matches p (drop_while p s).
Definition not_id_char (c : N) : bool := negb (is_ascii_alphanumeric c) && negb (c =? "-"%ch).
Definition find_tunnel_id (text : str) : option str :=
  find_first is_uuid (trim_matches not_id_char <$> split_tokens text).

(** ** Names, [named.rs] *)

Definition is_valid_tunnel_name (name : str) : bool :=
  negb (is_empty name) && (len name <=? 64) && negb (starts_with "-" name)
  && forallb (fun b => is_ascii_alphanumeric b || (b =? "-"%ch) || (b =? "_"%ch) || (b =? "."%ch)) (as_bytes name)
  && negb (str_eqb name ".") && negb (str_eqb name "..").

Definition is_safe_cli_value (s : str) : bool :=
  negb (is_empty s) && (len s <=? 253) && negb (starts_with "-" s)
  && forallb (fun b => is_ascii_alphanumeric b || (b =? "-"%ch) || (b =? "."%ch) || (b =? "_"%ch)) (as_bytes s).

Definition tunnel_dir (data : OsString) : OsString := path_join data "tunnel"%str.
Definition origincert (data : OsString) : OsString := path_join (path_join (tunnel_dir data) ".cloudflared"%str) "cert.pem"%str.
Definition creds_dir (data : OsString) : OsString := path_join (tunnel_dir data) "creds"%str.
Definition creds_file (data : OsString) (name : str) : OsString := path_join (creds_dir data) (os (name ++ ".json"%str)).

(** ** [credentials.rs] *)

Definition pem_begin (name : str) : str := "-----BEGIN "%str ++ name ++ "-----"%str.
Definition pem_end (name : str) : str := "-----END "%str ++ name ++ "-----"%str.

Fixpoint pem_lines (begin stop : str) (inside : bool) (body : str) (ls : list str) : option str :=
  match ls with
  | [] => None
  | l :: r =>
      let line := trim l in
      if str_eqb line begin then pem_lines begin stop true body r
      else if str_eqb line stop then Some body
      else pem_lines begin stop inside (if inside then body ++ line else body) r
  end.
Definition extract_pem_block (pem name : str) : option str :=
  pem_lines (pem_begin name) (pem_end name) false [] (str_lines pem).

Definition token_sextet (c : N) : option N :=
  if is_ascii_uppercase c then Some (c - "A"%ch)
  else if is_ascii_lowercase c then Some (c - "a"%ch + 26)
  else if is_ascii_digit c then Some (c - "0"%ch + 52)
  else if c =? "+"%ch then Some 62
  else if c =? "/"%ch then Some 63
  else None.

Definition u32_wrap (n : N) : N := n mod 4294967296.

(** The loop of [base64_decode]: the accumulator is a [u32] whose high bits are
    shifted out. *)
Fixpoint decode_loop (acc bits : N) (out : list N) (s : list N) : option (list N) :=
  match s with
  | [] => Some out
  | c :: r =>
      if (c =? "="%ch) || is_ascii_whitespace c then decode_loop acc bits out r
      else
        v ← token_sextet c;
        let acc := N.lor (u32_wrap (N.shiftl acc 6)) v in
        let bits := bits + 6 in
        if 8 <=? bits
        then decode_loop acc (bits - 8) (out ++ [N.land (N.shiftr acc (bits - 8)) 255]) r
        else decode_loop acc bits out r
  end.
Definition token_decode (s : str) : option (list N) := decode_loop 0 0 [] (as_bytes s).

Record OriginToken := mkToken { zone_id : str; api_token : str }.

Definition TOKEN_BLOCK : str := "ARGO TUNNEL TOKEN"%str.

(** [from_slice] is the JSON reader of the derived [Deserialize]. *)
Definition parse_origin_token (from_slice : list N -> option OriginToken) (pem : str) : option OriginToken :=
  body ← extract_pem_block pem TOKEN_BLOCK;
  bytes ← token_decode body;
  from_slice bytes.

(** ** Reading the configuration back

    What a reader of the YAML the renderer uses sees: block lists of mappings of
    single-quoted scalars, one per line. *)

Fixpoint unquote_body (s : str) : option str :=
  match s with
  | [] => None
  | c :: r =>
      if c =? 39 then
        match r with
        | [] => Some []
        | d :: r' => if d =? 39 then cons 39 <$> unquote_body r' else None
        end
      else cons c <$> unquote_body r
  end.
Definition read_scalar (key line : str) : option str :=
  match strip_prefix (key ++ "'"%str) line with Some r => unquote_body r | None => None end.

Record SeenRule := mkSeen {
  seen_hostname : str;
  seen_service : str;
  seen_host_header : str;
  seen_server_name : option str;
  seen_no_tls_verify : bool;
}.

Fixpoint read_rules (ls : list str) : option (list SeenRule) :=
  match ls with
  | [l] => if str_eqb l "  - service: http_status:404" then Some [] else None
  | l1 :: l2 :: l3 :: l4 :: rest =>
      h ← read_scalar "  - hostname: "%str l1;
      s ← read_scalar "    service: "%str l2;
      if negb (str_eqb l3 "    originRequest:") then None
      else
        hh ← read_scalar "      httpHostHeader: "%str l4;
        match rest with
        | [] => None
        | l5 :: rest5 =>
            match read_scalar "      originServerName: "%str l5 with
            | Some sni =>
                match rest5 with
                | [] => None
                | l6 :: rest6 =>
                    if str_eqb l6 "      noTLSVerify: true"
                    then cons (mkSeen h s hh (Some sni) true) <$> read_rules rest6
                    else cons (mkSeen h s hh (Some sni) false) <$> read_rules rest5
                end
            | None =>
                if str_eqb l5 "      noTLSVerify: true"
                then cons (mkSeen h s hh None true) <$> read_rules rest5
                else cons (mkSeen h s hh None false) <$> read_rules rest
            end
        end
  | _ => None
  end.

Definition read_ingress (text : str) : option (str * str * list SeenRule) :=
  match split_char NL text with
  | l1 :: l2 :: l3 :: rest =>
      uuid ← read_scalar "tunnel: "%str l1;
      creds ← read_scalar "credentials-file: "%str l2;
      if negb (str_eqb l3 "ingress:") then None
      else
        match last rest with
        | Some [] => (fun rules => (uuid, creds, rules)) <$> read_rules (removelast rest)
        | _ => None
        end
  | _ => None
  end.

Definition seen (r : IngressRule) : SeenRule :=
  mkSeen (hostname r) (url (origin r)) (host_header (origin r)) (origin_server_name (origin r)) (no_tls_verify (origin r)).

(** The lines of a rule and of the whole. *)
Definition rule_lines (r : IngressRule) : list str :=
  ["  - hostname: "%str ++ yaml_squote (hostname r);
   "    service: "%str ++ yaml_squote (url (origin r));
   "    originRequest:"%str;
   "      httpHostHeader: "%str ++ yaml_squote (host_header (origin r))]
  ++ match origin_server_name (origin r) with
     | Some sni => ["      originServerName: "%str ++ yaml_squote sni] | None => [] end
  ++ if no_tls_verify (origin r) then ["      noTLSVerify: true"%str] else [].

Definition ingress_lines (uuid : str) (creds : OsString) (rules : list IngressRule) : list str :=
  ["tunnel: "%str ++ yaml_squote uuid; "credentials-file: "%str ++ yaml_squote (display creds); "ingress:"%str]
  ++ (rules ≫= rule_lines) ++ ["  - service: http_status:404"%str].

Lemma writeln_unlines out line : writeln out line = out ++ unlines [line].
Proof. unfold writeln. by rewrite unlines_cons. Qed.

Lemma push_rule_lines out r : push_rule out r = out ++ unlines (rule_lines r).
Proof.
  unfold push_rule, rule_lines. destruct (origin_server_name (origin r)), (no_tls_verify (origin r));
    rewrite !writeln_unlines, <- !app_assoc, <- !unlines_app; done.
Qed.

Lemma push_rules_lines out rules : foldl push_rule out rules = out ++ unlines (rules ≫= rule_lines).
Proof.
  revert out. induction rules as [|r rules IH]; intros out; cbn; [by rewrite app_nil_r|].
  rewrite IH, push_rule_lines, <- app_assoc. f_equal. change (unlines (rule_lines r) ++ unlines (rules ≫= rule_lines) = unlines (rule_lines r ++ (rules ≫= rule_lines))). by rewrite unlines_app.
Qed.

Lemma ingress_text_lines uuid creds rules : render_ingress_config uuid creds rules = unlines (ingress_lines uuid creds rules).
Proof.
  unfold render_ingress_config, ingress_lines. rewrite !writeln_unlines, push_rules_lines, <- !app_assoc.
  cbn [app]. by rewrite <- !unlines_app.
Qed.

Lemma squote_read key s : read_scalar key (key ++ yaml_squote s) = Some s.
Proof.
  unfold read_scalar, yaml_squote.
  assert (forall k r, strip_prefix (k ++ "'"%str) (k ++ "'"%str ++ r) = Some r) as -> by (intros k r; apply strip_prefix_Some; by rewrite <- app_assoc).
  induction s as [|c s IH]; [done|]. cbn [mbind list_bind app]. destruct (c =? 39) eqn:E; bprop; cbn [app unquote_body].
  - subst c. rewrite N.eqb_refl. by rewrite IH.
  - apply N.eqb_neq in E. by rewrite E, IH.
Qed.

Lemma squote_other key key' s : strip_prefix (key' ++ "'"%str) (key ++ yaml_squote s) = None -> read_scalar key' (key ++ yaml_squote s) = None.
Proof. unfold read_scalar. by intros ->. Qed.

Lemma squote_no_nl s : NL ∉ s -> NL ∉ yaml_squote s.
Proof.
  intros Hs. unfold yaml_squote. rewrite !elem_of_app, list_elem_of_bind. intros [H|[(c & Hc & Hin)|H]]; [by apply list_elem_of_singleton in H| |by apply list_elem_of_singleton in H].
  destruct (c =? 39); [|apply list_elem_of_singleton in Hc; congruence].
  apply elem_of_cons in Hc as [?|Hc]; [done|]. by apply list_elem_of_singleton in Hc.
Qed.

Lemma url_no_nl o : NL ∉ url o.
Proof.
  unfold url. rewrite !elem_of_app. intros [H|[H|H]].
  - destruct (scheme o); by apply list_elem_of_In in H; vm_compute in H; repeat destruct H as [H|H].
  - apply list_elem_of_In in H; vm_compute in H; repeat destruct H as [H|H]; done.
  - pose proof (show_uint_digits (port o)) as Hd. rewrite Forall_forall in Hd. by apply Hd in H.
Qed.

(** Texts of one line. *)
Definition rule_clean (r : IngressRule) : Prop :=
  NL ∉ hostname r /\ NL ∉ host_header (origin r) /\ forall sni, origin_server_name (origin r) = Some sni -> NL ∉ sni.

Lemma literal_no_nl p : forallb (fun c => negb (c =? NL)) p = true -> NL ∉ p.
Proof. intros Hp H%list_elem_of_In. rewrite forallb_forall in Hp. apply Hp in H. done. Qed.

Lemma prefix_no_nl p s : forallb (fun c => negb (c =? NL)) p = true -> NL ∉ s -> NL ∉ p ++ yaml_squote s.
Proof. intros Hp Hs [H|H]%elem_of_app; [by apply literal_no_nl in H|by apply squote_no_nl in H]. Qed.

Lemma rule_lines_no_nl r l : rule_clean r -> l ∈ rule_lines r -> NL ∉ l.
Proof.
  intros (Hh & Hhh & Hs). unfold rule_lines. rewrite !elem_of_app, !elem_of_cons, elem_of_nil.
  intros [[->|[->|[->|[->|[]]]]]|[Hl|Hl]].
  1, 2, 4: apply prefix_no_nl; auto using url_no_nl.
  - by apply literal_no_nl.
  - destruct (origin_server_name (origin r)) as [sni|]; [|by apply elem_of_nil in Hl].
    apply list_elem_of_singleton in Hl as ->. apply prefix_no_nl; auto.
  - destruct (no_tls_verify (origin r)); [|by apply elem_of_nil in Hl]. apply list_elem_of_singleton in Hl as ->.
    by apply literal_no_nl.
Qed.

Lemma read_scalar_none key line : strip_prefix key line = None -> read_scalar key line = None.
Proof.
  intros H. unfold read_scalar. destruct (strip_prefix (key ++ _) line) eqn:E; [|done].
  apply strip_prefix_Some in E. subst. rewrite <- app_assoc in H.
  assert (strip_prefix key (key ++ "'"%str ++ l) = Some ("'"%str ++ l)) by by apply strip_prefix_Some. congruence.
Qed.

(** The line after a rule opens a rule or is the catch-all. *)
Definition opens (l : str) : Prop :=
  read_scalar "      originServerName: "%str l = None /\ str_eqb l "      noTLSVerify: true" = false.

Lemma rule_opens r : exists l ls, rule_lines r = l :: ls /\ opens l.
Proof. eexists _, _. split; [done|]. split; [by apply read_scalar_none|by apply bool_decide_eq_false]. Qed.

Lemma tail_opens rules : exists l ls, (rules ≫= rule_lines) ++ ["  - service: http_status:404"%str] = l :: ls /\ opens l.
Proof.
  destruct rules as [|r rules]; [eexists _, _; split; [done|]; split; [by apply read_scalar_none|by apply bool_decide_eq_false]|].
  destruct (rule_opens r) as (l & ls & E & Ho). exists l. cbn [mbind list_bind]. rewrite E. eexists. split; [done|done].
Qed.

Lemma read_one r rest l ls : rest = l :: ls -> opens l ->
  read_rules (rule_lines r ++ rest) = cons (seen r) <$> read_rules rest.
Proof.
  intros -> (Hs & Ht). unfold rule_lines, seen.
  pose proof (squote_read "  - hostname: "%str (hostname r)) as H1.
  pose proof (squote_read "    service: "%str (url (origin r))) as H2.
  pose proof (squote_read "      httpHostHeader: "%str (host_header (origin r))) as H4.
  pose proof (squote_read "      originServerName: "%str) as H5.
  generalize dependent ("  - hostname: "%str ++ yaml_squote (hostname r)). intros l1 H1.
  generalize dependent ("    service: "%str ++ yaml_squote (url (origin r))). intros l2 H2.
  generalize dependent ("      httpHostHeader: "%str ++ yaml_squote (host_header (origin r))). intros l4 H4.
  destruct (origin_server_name (origin r)) as [sni|]; destruct (no_tls_verify (origin r)).
  1, 2: specialize (H5 sni); generalize dependent ("      originServerName: "%str ++ yaml_squote sni); intros l5 H5.
  all: cbn [app read_rules]; rewrite H1, H2; cbn [mbind option_bind]; change (negb (str_eqb "    originRequest:" _)) with false;
    cbn iota; rewrite H4; cbn [mbind option_bind]; rewrite ?H5, ?Hs, ?Ht; done.
Qed.

Lemma read_rules_lines rules :
  read_rules ((rules ≫= rule_lines) ++ ["  - service: http_status:404"%str]) = Some (seen <$> rules).
Proof.
  induction rules as [|r rules IH]; [done|]. cbn [mbind list_bind fmap list_fmap]. rewrite <- app_assoc.
  destruct (tail_opens rules) as (l & ls & E & Ho). by rewrite (read_one _ _ l ls), IH.
Qed.

Lemma ingress_reads uuid creds rules :
  NL ∉ uuid -> NL ∉ display creds -> Forall rule_clean rules ->
  read_ingress (render_ingress_config uuid creds rules) = Some (uuid, display creds, seen <$> rules).
Proof.
  intros Hu Hc Hr. rewrite ingress_text_lines. unfold read_ingress. rewrite split_unlines.
  - unfold ingress_lines. pose proof (squote_read "tunnel: "%str uuid) as H1.
    pose proof (squote_read "credentials-file: "%str (display creds)) as H2.
    generalize dependent ("tunnel: "%str ++ yaml_squote uuid). intros l1 H1.
    generalize dependent ("credentials-file: "%str ++ yaml_squote (display creds)). intros l2 H2.
    cbn [app]. rewrite H1, H2. cbn [mbind option_bind].
    change (negb (str_eqb "ingress:" _)) with false. cbn iota.
    rewrite last_snoc. cbn iota. rewrite removelast_last, read_rules_lines. done.
  - intros l. unfold ingress_lines. rewrite !elem_of_app, !elem_of_cons, !elem_of_nil, list_elem_of_bind.
    intros [[->|[->|[->|[]]]]|[(r & Hl & Hin)|[->|[]]]].
    1, 2: by apply prefix_no_nl.
    1, 3: by apply literal_no_nl.
    rewrite Forall_forall in Hr. eapply rule_lines_no_nl; eauto.
Qed.

(** The configuration written for cloudflared says what it is given: a reader of
    the file sees the tunnel, its credentials and exactly the given rules, in order
    and before the catch-all, whatever quotes the values hold. *)
Theorem ingress_roundtrip uuid creds rules :
  NL ∉ uuid -> NL ∉ display creds -> Forall rule_clean rules ->
  read_ingress (render_ingress_config uuid creds rules) = Some (uuid, display creds, seen <$> rules).
Proof. apply ingress_reads. Qed.

(** A name with a quote in it, which would otherwise close its scalar. *)
Definition sample_rules : list IngressRule :=
  [mkRule "a' b.example.com"%str (for_site "app.test"%str true 8080 8443);
   mkRule "b.example.com"%str (for_site "b.test"%str false 8080 8443)].
Lemma ingress_roundtrip_witness :
  read_ingress (render_ingress_config "u-1"%str "/c/x.json"%str sample_rules)
  = Some ("u-1"%str, "/c/x.json"%str,
      [mkSeen "a' b.example.com"%str "https://127.0.0.1:8443"%str "app.test"%str (Some "app.test"%str) true;
       mkSeen "b.example.com"%str "http://127.0.0.1:8080"%str "b.test"%str None false]).
Proof.
  apply (ingress_roundtrip "u-1"%str "/c/x.json"%str sample_rules).
  - by apply literal_no_nl.
  - by apply literal_no_nl.
  - apply Forall_cons; split; [|apply Forall_cons; split; [|apply Forall_nil_2]].
    all: split; [|split]; try (by apply literal_no_nl); intros sni E; (discriminate E || (injection E as <-; by apply literal_no_nl)).
Defined.

(** ** The address of a tunnel *)

Lemma split_pred_ne p s : split_pred p s <> [].
Proof. destruct s as [|c s]; cbn; [done|]. destruct (p c); [done|]. by destruct (split_pred p s). Qed.

Lemma split_pred_app p a c b : Forall (fun x => p x = false) a -> p c = true ->
  split_pred p (a ++ c :: b) = a :: split_pred p b.
Proof. intros Ha Hc. induction Ha as [|x a Hx Ha IH]; cbn; [by rewrite Hc|]. by rewrite Hx, IH. Qed.

Lemma split_pred_none p a : Forall (fun x => p x = false) a -> split_pred p a = [a].
Proof. induction 1 as [|x a Hx Ha IH]; cbn; [done|]. by rewrite Hx, IH. Qed.

(** A token is a run of the text without separators. *)
Lemma split_pred_in p s w : w ∈ split_pred p s -> (exists a b, s = a ++ w ++ b) /\ Forall (fun x => p x = false) w.
Proof.
  revert w. induction s as [|c s IH]; intros w; cbn.
  - intros ->%list_elem_of_singleton. split; [by exists [], []|constructor].
  - destruct (p c) eqn:E.
    + intros [->|Hw]%elem_of_cons; [split; [by exists [], (c :: s)|constructor]|].
      destruct (IH w Hw) as ((a & b & ->) & Hp). split; [by exists (c :: a), b|done].
    + destruct (split_pred p s) as [|v vs] eqn:Es; [by apply split_pred_ne in Es|].
      intros [->|Hw]%elem_of_cons.
      * destruct (IH v ltac:(by left)) as ((a & b & Hs) & Hp). split; [|by constructor].
        enough (exists b', s = v ++ b') as (b' & ->) by by exists [], b'.
        clear -Es. revert v vs Es. induction s as [|d s IH]; intros v vs; cbn; [intros [= <- <-]; by exists []|].
        destruct (p d); [intros [= <- <-]; by exists (d :: s)|]. destruct (split_pred p s) as [|u us] eqn:E; intros [= <- <-].
        -- by apply split_pred_ne in E.
        -- destruct (IH u us eq_refl) as (b' & ->). by exists b'.
      * destruct (IH w ltac:(by right)) as ((a & b & ->) & Hp). split; [by exists (c :: a), b|done].
Qed.

Lemma split_once_str_Some sep s a b : split_once_str sep s = Some (a, b) -> s = a ++ sep ++ b.
Proof.
  revert a. induction s as [|c s IH]; intros a; cbn [split_once_str].
  - destruct (strip_prefix sep []) eqn:E; [|done]. intros [= <- <-]. by apply strip_prefix_Some in E.
  - destruct (strip_prefix sep (c :: s)) eqn:E; [intros [= <- <-]; by apply strip_prefix_Some in E|].
    destruct (split_once_str sep s) as [[x y]|]; [|done]. intros [= <- <-]. by rewrite (IH x).
Qed.

Lemma trim_end_solid p s c : p c = false -> trim_end_matches p (s ++ [c]) = s ++ [c].
Proof. intros Hc. unfold trim_end_matches. rewrite rev_unit. cbn. rewrite Hc. cbn. by rewrite rev_involutive. Qed.

Lemma head_split_char sep s : exists w b, head (split_char sep s) = Some w /\ s = w ++ b /\ sep ∉ w.
Proof.
  induction s as [|c s (w & b & Hh & -> & Hn)]; cbn; [exists [], []; split; [done|]; split; [done|by intros ?%elem_of_nil]|].
  destruct (c =? sep) eqn:E; bprop; [exists [], (c :: w ++ b); split; [done|]; split; [done|by intros ?%elem_of_nil]|].
  destruct (split_char sep (w ++ b)) as [|v vs]; [done|]. injection Hh as ->. exists (c :: w), b.
  split; [done|]. split; [done|]. intros [->|?]%elem_of_cons; [done|auto].
Qed.

Lemma extract_sound token u : extract_trycloudflare token = Some u ->
  exists label a b, u = HTTPS ++ label ++ TRYCLOUDFLARE /\ label <> [] /\ "/"%ch ∉ label /\ token = a ++ u ++ b.
Proof.
  unfold extract_trycloudflare, https_url_in. destruct (split_once_str HTTPS token) as [[a after]|] eqn:E; [|done].
  cbn [mbind option_bind]. apply split_once_str_Some in E.
  destruct (trim_end_matches_prefix is_trailing_punct (HTTPS ++ after)) as (k & Hk & _).
  destruct (strip_prefix HTTPS _) as [rest|] eqn:Es; [|done]. cbn [mbind option_bind].
  apply strip_prefix_Some in Es. destruct (head_split_char "/"%ch rest) as (w & b & Hw & -> & Hn). rewrite Hw. cbn [default from_option id].
  destruct (_ && _) eqn:Hc; [|done]. intros [= <-]. bprop.
  match goal with H : ends_with _ _ = true |- _ => apply ends_with_spec in H as (label & ->) end.
  exists label, a, (b ++ k). split; [done|]. split; [|split].
  - intros ->. cbn [app] in *. lia.
  - set_solver.
  - rewrite E, Hk, Es, <- !app_assoc. f_equal. cbn. by rewrite <- app_assoc.
Qed.

Definition label_char (c : N) : bool := is_ascii_alphanumeric c || (c =? "-"%ch).
Definition quick_url (label : str) : str := HTTPS ++ label ++ TRYCLOUDFLARE.

Lemma label_char_plain c : label_char c = true -> is_token_sep c = false /\ c <> "/"%ch.
Proof.
  unfold label_char, is_ascii_alphanumeric, is_ascii_alphabetic, is_ascii_lowercase, is_ascii_uppercase, is_ascii_digit, in_range.
  intros H. assert (c < 128) as Hc by lia.
  assert (forall k, (k < 128)%nat -> label_char (N.of_nat k) = true -> is_token_sep (N.of_nat k) = false /\ N.of_nat k <> "/"%ch) as Hall.
  { intros k Hk. do 128 (destruct k as [|k]; [by vm_compute|]). lia. }
  rewrite <- (N2Nat.id c). apply Hall; [lia|]. rewrite N2Nat.id. exact H.
Qed.

Lemma extract_complete label : label <> [] -> Forall (fun c => label_char c = true) label ->
  extract_trycloudflare (quick_url label) = Some (quick_url label).
Proof.
  intros Hne Hl. unfold extract_trycloudflare, https_url_in, quick_url.
  assert (forall x, split_once_str HTTPS (HTTPS ++ x) = Some ([], x)) as -> by (intros x; by cbn).
  cbn [mbind option_bind]. set (host := label ++ TRYCLOUDFLARE).
  assert (trim_end_matches is_trailing_punct (HTTPS ++ host) = HTTPS ++ host) as ->.
  { unfold host, TRYCLOUDFLARE. change ".trycloudflare.com"%str with (".trycloudflare.co"%str ++ ["m"%ch]).
    rewrite (app_assoc label), (app_assoc HTTPS). by apply trim_end_solid. }
  assert (strip_prefix HTTPS (HTTPS ++ host) = Some host) as -> by by apply strip_prefix_Some.
  cbn [mbind option_bind]. rewrite split_char_none.
  - cbn [head default from_option id]. assert (ends_with TRYCLOUDFLARE host = true) as -> by (apply ends_with_spec; by exists label).
    unfold host. rewrite len_app. destruct label as [|c l]; [done|]. rewrite len_cons. pose proof (len_utf8_bound c).
    assert (len TRYCLOUDFLARE <? len_utf8 c + len l + len TRYCLOUDFLARE = true) as -> by (apply N.ltb_lt; lia). done.
  - unfold host. intros [H|H]%elem_of_app.
    + rewrite Forall_forall in Hl. by apply Hl, label_char_plain in H as [_ ?].
    + apply list_elem_of_In in H. vm_compute in H. by repeat destruct H as [H|H].
Qed.

Lemma split_pred_app_all p a c b : p c = true -> split_pred p (a ++ c :: b) = split_pred p a ++ split_pred p b.
Proof.
  intros Hc. induction a as [|x a IH]; cbn; [by rewrite Hc|]. destruct (p x); [by rewrite IH|].
  rewrite IH. destruct (split_pred p a) eqn:E; [by apply split_pred_ne in E|]. done.
Qed.

Lemma find_map_app {A B} (f : A -> option B) l1 l2 :
  find_map f (l1 ++ l2) = match find_map f l1 with Some y => Some y | None => find_map f l2 end.
Proof. induction l1 as [|x l1 IH]; cbn; [done|]. by destruct (f x). Qed.

Lemma quick_url_sound chunk u : parse_quick_url chunk = Some u ->
  exists label a b, u = quick_url label /\ label <> [] /\ Forall (fun c => is_token_sep c = false /\ c <> "/"%ch) label
                    /\ chunk = a ++ u ++ b.
Proof.
  intros (t & Ht & Hu)%find_map_Some. apply split_pred_in in Ht as ((x & y & ->) & Hs).
  destruct (extract_sound t u Hu) as (label & a & b & -> & Hne & Hn & ->).
  exists label, (x ++ a), (b ++ y). split; [done|]. split; [done|]. split; [|by rewrite <- !app_assoc].
  apply Forall_forall. intros c Hc. split; [|congruence].
  rewrite Forall_forall in Hs. apply Hs. rewrite !elem_of_app. auto.
Qed.

(** The address shown for a quick tunnel is one cloudflared printed: it is an
    https address of one host strictly below trycloudflare.com, found as it stands
    in the log; and the first such address the log prints between blanks or box
    characters is the one found. *)
Theorem quick_url_exact chunk :
  (forall u, parse_quick_url chunk = Some u ->
    exists label a b, u = quick_url label /\ label <> [] /\ Forall (fun c => is_token_sep c = false /\ c <> "/"%ch) label
                      /\ chunk = a ++ u ++ b) /\
  (forall a c label d b, chunk = a ++ c :: quick_url label ++ d :: b ->
    is_token_sep c = true -> is_token_sep d = true -> parse_quick_url a = None ->
    label <> [] -> Forall (fun x => label_char x = true) label ->
    parse_quick_url chunk = Some (quick_url label)).
Proof.
  split; [intros u; apply quick_url_sound|]. unfold parse_quick_url, split_tokens.
  intros a c label d b -> Hc Hd Ha Hne Hl. rewrite split_pred_app_all by done. rewrite find_map_app, Ha.
  rewrite split_pred_app; [|apply Forall_forall|done].
  - cbn [find_map]. by rewrite extract_complete.
  - intros x. unfold quick_url. rewrite !elem_of_app. intros [H|[H|H]].
    + apply list_elem_of_In in H. vm_compute in H. repeat destruct H as [<-|H]; done.
    + rewrite Forall_forall in Hl. by apply Hl, label_char_plain in H as [? _].
    + apply list_elem_of_In in H. vm_compute in H. repeat destruct H as [<-|H]; done.
Qed.

(** The banner as cloudflared prints it; the endpoint that creates tunnels is below
    the same name, and is taken for a tunnel. *)
Definition banner : str :=
  "INF |  Your quick Tunnel has been created! Visit it at: |"%str ++ [NL]
  ++ "INF |  https://calm-river-1234.trycloudflare.com  |"%str.
Lemma banner_url : parse_quick_url banner = Some (quick_url "calm-river-1234"%str).
Proof. by vm_compute. Qed.

Definition failure_line : str :=
  "ERR failed to request quick Tunnel: Post "%str ++ [34] ++ "https://api.trycloudflare.com/tunnel"%str ++ [34].
Lemma endpoint_taken_for_tunnel : parse_quick_url failure_line = Some (quick_url "api"%str).
Proof. by vm_compute. Qed.

(** An id in capitals is an id, too. *)
Lemma capital_id :
  find_tunnel_id "id 6FF42AE2-765D-4ADF-8112-31C55C1551EF."%str = Some "6FF42AE2-765D-4ADF-8112-31C55C1551EF"%str.
Proof. by vm_compute. Qed.

Lemma quick_url_exact_witness :
  (exists label a b, quick_url "calm-river-1234"%str = quick_url label /\ label <> [] /\
     Forall (fun c => is_token_sep c = false /\ c <> "/"%ch) label /\ banner = a ++ quick_url "calm-river-1234"%str ++ b).
Proof. apply (proj1 (quick_url_exact banner)). by vm_compute. Defined.

(** ** The token of the account certificate *)

Lemma token_sextet_unsextet c : token_sextet c = unsextet c.
Proof.
  unfold token_sextet, unsextet. destruct (is_ascii_uppercase c) eqn:E1; [done|].
  destruct (is_ascii_lowercase c) eqn:E2; [f_equal; unfold is_ascii_lowercase, in_range in E2; lia|].
  destruct (is_ascii_digit c) eqn:E3; [f_equal; unfold is_ascii_digit, in_range in E3; lia|]. done.
Qed.

Lemma base64_char_solid c : base64_char c = true -> is_ascii_whitespace c = false /\ is_whitespace c = false /\ c <> "-"%ch /\ c < 128.
Proof.
  unfold base64_char, is_ascii_alphanumeric, is_ascii_alphabetic, is_ascii_lowercase, is_ascii_uppercase, is_ascii_digit, in_range.
  intros H. assert (c < 128) as Hc by lia. split; [|split; [|split; [lia|done]]].
  - unfold is_ascii_whitespace. lia.
  - unfold is_whitespace. cbn. unfold in_range. lia.
Qed.

Definition push_sextet (acc v : N) : N := N.lor (u32_wrap (N.shiftl acc 6)) v.

Lemma push_sextet_value acc v : v < 64 -> push_sextet acc v = (acc * 64 + v) mod 4294967296.
Proof.
  intros Hv. unfold push_sextet, u32_wrap. rewrite N.shiftl_mul_pow2. change (2 ^ 6) with 64.
  assert (acc * 64 mod 4294967296 = N.shiftl (acc mod 67108864) 6) as ->.
  { rewrite N.shiftl_mul_pow2. change (2 ^ 6) with 64. lia. }
  rewrite lor_shift by done. change (2 ^ 6) with 64. lia.
Qed.

Lemma decode_step acc bits out s r : 
  decode_loop acc bits out (sextet s :: r) =
    (let v := s mod 64 in
     if 8 <=? bits + 6
     then decode_loop (push_sextet acc v) (bits + 6 - 8) (out ++ [N.land (N.shiftr (push_sextet acc v) (bits + 6 - 8)) 255]) r
     else decode_loop (push_sextet acc v) (bits + 6) out r).
Proof.
  destruct (sextet_spec s) as (E & Hc & He). apply base64_char_solid in Hc as (Hw & _). cbn [decode_loop].
  rewrite He, Hw. cbn [orb]. rewrite token_sextet_unsextet, E. done.
Qed.

Lemma land_255 n : N.land n 255 = n mod 256.
Proof. change 255 with (N.ones 8). by rewrite N.land_ones. Qed.

Lemma push_low acc v : v < 64 -> push_sextet acc v mod 64 = v.
Proof. intros Hv. rewrite push_sextet_value by done. lia. Qed.

(** The byte a character completes, by the bits left over from the ones before. *)
Lemma decode_step0 acc out s r : decode_loop acc 0 out (sextet s :: r) = decode_loop (push_sextet acc (s mod 64)) 6 out r.
Proof. by rewrite decode_step. Qed.
Lemma decode_step6 acc out s r : decode_loop acc 6 out (sextet s :: r)
  = decode_loop (push_sextet acc (s mod 64)) 4 (out ++ [acc mod 64 * 4 + s mod 64 / 16]) r.
Proof.
  rewrite decode_step. change (8 <=? 6 + 6) with true. change (6 + 6 - 8) with 4. cbn iota. do 2 f_equal. f_equal.
  rewrite land_255, push_sextet_value, N.shiftr_div_pow2 by lia. change (2 ^ 4) with 16. lia.
Qed.
Lemma decode_step4 acc out s r : decode_loop acc 4 out (sextet s :: r)
  = decode_loop (push_sextet acc (s mod 64)) 2 (out ++ [acc mod 16 * 16 + s mod 64 / 4]) r.
Proof.
  rewrite decode_step. change (8 <=? 4 + 6) with true. change (4 + 6 - 8) with 2. cbn iota. do 2 f_equal. f_equal.
  rewrite land_255, push_sextet_value, N.shiftr_div_pow2 by lia. change (2 ^ 2) with 4. lia.
Qed.
Lemma decode_step2 acc out s r : decode_loop acc 2 out (sextet s :: r)
  = decode_loop (push_sextet acc (s mod 64)) 0 (out ++ [acc mod 4 * 64 + s mod 64]) r.
Proof.
  rewrite decode_step. change (8 <=? 2 + 6) with true. change (2 + 6 - 8) with 0. cbn iota. do 2 f_equal. f_equal.
  rewrite land_255, push_sextet_value, N.shiftr_div_pow2 by lia. change (2 ^ 0) with 1. lia.
Qed.

Lemma push_low16 acc v : v < 64 -> push_sextet acc v mod 16 = v mod 16.
Proof. intros Hv. rewrite push_sextet_value by done. lia. Qed.
Lemma push_low4 acc v : v < 64 -> push_sextet acc v mod 4 = v mod 4.
Proof. intros Hv. rewrite push_sextet_value by done. lia. Qed.

Lemma group_bytes b0 b1 b2 : b0 < 256 -> b1 < 256 -> b2 < 256 ->
  let n := b0 * 65536 + b1 * 256 + b2 in
  N.shiftr n 18 mod 64 * 4 + N.shiftr n 12 mod 64 / 16 = b0 /\
  N.shiftr n 12 mod 64 mod 16 * 16 + N.shiftr n 6 mod 64 / 4 = b1 /\
  N.shiftr n 6 mod 64 mod 4 * 64 + n mod 64 = b2.
Proof.
  intros H0 H1 H2 n. rewrite !N.shiftr_div_pow2. change (2 ^ 18) with 262144. change (2 ^ 12) with 4096. change (2 ^ 6) with 64.
  unfold n. clear n. split; [|split]; lia.
Qed.

Lemma decode_group_step acc b0 b1 b2 size out r :
  b0 < 256 -> b1 < 256 -> b2 < 256 -> 1 <= size <= 3 -> (size < 3 -> r = []) -> (size < 2 -> b1 = 0) -> (size < 3 -> b2 = 0) ->
  exists acc', decode_loop acc 0 out (base64_group b0 b1 b2 size ++ r) = decode_loop acc' 0 (out ++ take (N.to_nat size) [b0; b1; b2]) r.
Proof.
  intros H0 H1 H2 Hs Hr Hb1 Hb2. unfold base64_group. rewrite group_value by done.
  destruct (group_bytes b0 b1 b2 H0 H1 H2) as (E0 & E1 & E2). set (n := b0 * 65536 + b1 * 256 + b2) in *. clearbody n.
  assert (size = 1 \/ size = 2 \/ size = 3) as Hsz by lia; destruct Hsz as [-> | [-> | ->]].
  - rewrite Hr by lia. change (1 <? 1) with false. change (2 <? 1) with false.
    cbn [app]. rewrite decode_step0, decode_step6, push_low, E0 by lia. by exists acc.
  - rewrite Hr by lia. change (1 <? 2) with true. change (2 <? 2) with false.
    cbn [app]. rewrite decode_step0, decode_step6, push_low, decode_step4, push_low16, E0, E1, <- app_assoc by lia. by exists acc.
  - change (1 <? 3) with true. change (2 <? 3) with true. cbn [app].
    rewrite decode_step0, decode_step6, push_low, decode_step4, push_low16, decode_step2, push_low4, E0, E1, E2, <- !app_assoc by lia. by eexists.
Qed.

Lemma decode_encoded bs : Forall (fun b => b < 256) bs -> forall acc out, decode_loop acc 0 out (base64_encode bs) = Some (out ++ bs).
Proof.
  revert bs. fix IH 1. intros bs Hb acc out. destruct bs as [|b0 [|b1 [|b2 rest]]]; cbn [base64_encode];
    repeat match goal with H : Forall _ (_ :: _) |- _ => apply Forall_cons in H as [? H] end.
  - cbn. by rewrite app_nil_r.
  - destruct (decode_group_step acc b0 0 0 1 out []) as (acc' & E); done || lia.
  - destruct (decode_group_step acc b0 b1 0 2 out []) as (acc' & E); done || lia.
  - destruct (decode_group_step acc b0 b1 b2 3 out (base64_encode rest)) as (acc' & E); try (done || lia). rewrite E, IH by done.
    change (take (N.to_nat 3) [b0; b1; b2]) with [b0; b1; b2]. by rewrite <- app_assoc.
Qed.

Lemma pem_skip begin stop body ls rest inside :
  Forall (fun l => trim l <> begin /\ trim l <> stop) ls ->
  pem_lines begin stop inside body (ls ++ rest)
  = pem_lines begin stop inside (if inside then body ++ mjoin (trim <$> ls) else body) rest.
Proof.
  intros Hl. revert body. induction Hl as [|l ls (H1 & H2) Hl IH]; intros body; cbn; [by destruct inside; rewrite ?app_nil_r|].
  unfold str_eqb. rewrite !bool_decide_false by done. rewrite IH. destruct inside; [|done]. by rewrite <- app_assoc.
Qed.

Lemma pem_extract name before body rest :
  Forall (fun l => trim l <> pem_begin name /\ trim l <> pem_end name) before ->
  Forall (fun l => trim l <> pem_begin name /\ trim l <> pem_end name) body ->
  trim (pem_begin name) = pem_begin name -> trim (pem_end name) = pem_end name -> pem_begin name <> pem_end name ->
  pem_lines (pem_begin name) (pem_end name) false [] (before ++ pem_begin name :: body ++ pem_end name :: rest)
  = Some (mjoin (trim <$> body)).
Proof.
  intros Hb Hc T1 T2 Hne. rewrite pem_skip by done. cbn [pem_lines]. rewrite T1.
  unfold str_eqb at 1. rewrite bool_decide_true by done. rewrite pem_skip by done. cbn [pem_lines app]. rewrite T2.
  unfold str_eqb. rewrite bool_decide_false by done. by rewrite bool_decide_true.
Qed.

(** The account token is read as it was written: the JSON inside the token block
    of a certificate, encoded in base64 and cut into lines anywhere, reaches the JSON
    reader byte for byte, whatever other blocks the file holds. *)
Theorem origin_token_roundtrip from_slice json cut before rest :
  Forall (fun b => b < 256) json -> mjoin cut = base64_encode json ->
  (forall l, l ∈ before -> NL ∉ l /\ 13 ∉ l /\ trim l <> pem_begin TOKEN_BLOCK /\ trim l <> pem_end TOKEN_BLOCK) ->
  (forall l, l ∈ rest -> NL ∉ l /\ 13 ∉ l) ->
  parse_origin_token from_slice (unlines (before ++ pem_begin TOKEN_BLOCK :: cut ++ pem_end TOKEN_BLOCK :: rest)) = from_slice json.
Proof.
  intros Hj Hcut Hb Hr. unfold parse_origin_token, extract_pem_block.
  assert (forall l, l ∈ cut -> Forall (fun c => base64_char c = true) l) as Hc.
  { intros l Hl. pose proof (base64_chars json) as Hall. rewrite <- Hcut, Forall_forall in Hall. apply Forall_forall. intros c Hc. apply Hall.
    apply list_elem_of_join. eauto. }
  assert (forall l, l ∈ cut -> trim l = l) as Ht.
  { intros l Hl. apply trim_solid. eapply Forall_impl; [by apply Hc|]. intros c Hcc. by apply base64_char_solid. }
  rewrite str_lines_unlines.
  - rewrite pem_extract; [| | |by vm_compute|by vm_compute|by vm_compute].
    + cbn [mbind option_bind]. assert (mjoin (trim <$> cut) = base64_encode json) as ->.
      { rewrite <- Hcut. f_equal. rewrite <- (list_fmap_id cut) at 2. apply list_fmap_ext. intros i l Hl. apply Ht. by eapply list_elem_of_lookup_2. }
      unfold token_decode. rewrite as_bytes_ascii.
      * by rewrite decode_encoded.
      * eapply Forall_impl; [apply base64_chars|]. intros c Hcc. by apply base64_char_solid.
    + apply Forall_forall. intros l Hl. split; by apply Hb.
    + apply Forall_forall. intros l Hl. rewrite Ht by done. specialize (Hc l Hl).
      split; intros ->; apply Forall_cons in Hc as [Hc _]; by vm_compute in Hc.
  - intros l. rewrite elem_of_app, elem_of_cons, elem_of_app, elem_of_cons. intros [Hl|[->|[Hl|[->|Hl]]]].
    + split; by apply Hb.
    + split; intros H%list_elem_of_In; vm_compute in H; by repeat destruct H as [H|H].
    + specialize (Hc l Hl). rewrite Forall_forall in Hc. split; intros H%Hc; by vm_compute in H.
    + split; intros H%list_elem_of_In; vm_compute in H; by repeat destruct H as [H|H].
    + auto.
Qed.

(** A partial group gives the bytes its bits are enough for. *)
Lemma partial_group_kept : token_decode "QUI"%str = Some [65; 66].
Proof. by vm_compute. Qed.

Lemma origin_token_roundtrip_witness :
  parse_origin_token (fun bs => Some (mkToken bs bs))
    (unlines (["cert"%str] ++ pem_begin TOKEN_BLOCK :: ["QUJ"%str; "D"%str] ++ pem_end TOKEN_BLOCK :: [])) = Some (mkToken "ABC"%str "ABC"%str).
Proof.
  apply (origin_token_roundtrip (fun bs => Some (mkToken bs bs)) "ABC"%str ["QUJ"%str; "D"%str] ["cert"%str] []).
  - repeat constructor.
  - by vm_compute.
  - intros l ->%list_elem_of_singleton. repeat split; try by apply literal_no_nl.
    + intros H%list_elem_of_In; vm_compute in H; by repeat destruct H as [H|H].
    + by vm_compute.
    + by vm_compute.
  - intros l []%elem_of_nil.
Defined.

(** ** Names *)

Definition name_char (b : N) : bool := is_ascii_alphanumeric b || (b =? "-"%ch) || (b =? "_"%ch) || (b =? "."%ch).

Lemma name_char_plain c : name_char c = true -> c < 128 /\ c <> slash /\ is_whitespace c = false /\ c <> NL.
Proof.
  unfold name_char, is_ascii_alphanumeric, is_ascii_alphabetic, is_ascii_lowercase, is_ascii_uppercase, is_ascii_digit, in_range.
  intros H. split; [lia|]. split; [unfold slash; lia|]. split; [|lia]. unfold is_whitespace. cbn. unfold in_range. lia.
Qed.

(** A predicate on bytes that holds of ASCII only is one on characters. *)
Lemma bytes_chars (p : N -> bool) s : (forall b, p b = true -> b < 128) ->
  forallb p (as_bytes s) = true -> Forall (fun c => p c = true) s.
Proof.
  intros Hp Hb. rewrite forallb_forall in Hb. apply Forall_forall. intros c Hc.
  assert (exists b, b ∈ utf8_char c) as (b & Hin).
  { unfold utf8_char. repeat (destruct (_ <? _); [eexists; by left|]). eexists. by left. }
  assert (p b = true) as E.
  { apply Hb, list_elem_of_In. unfold as_bytes. apply list_elem_of_join. exists (utf8_char c). split; [done|]. by apply list_elem_of_fmap_2. }
  apply utf8_char_high in Hin; [by subst|by apply Hp].
Qed.

Lemma name_chars name : is_valid_tunnel_name name = true -> Forall (fun c => name_char c = true) name.
Proof.
  unfold is_valid_tunnel_name. intros H. bprop. apply bytes_chars; [|done]. intros b Hb. by apply name_char_plain.
Qed.

Lemma cli_value_chars s : is_safe_cli_value s = true -> Forall (fun c => name_char c = true) s.
Proof.
  unfold is_safe_cli_value. intros H. bprop. apply bytes_chars; [intros b Hb; by apply name_char_plain|].
  match goal with H : forallb _ _ = true |- _ => rewrite forallb_forall in H |- *; intros x Hx; specialize (H x Hx) end.
  unfold name_char. destruct (is_ascii_alphanumeric x); [done|]. cbn [orb] in *. lia.
Qed.

(** A credentials file is a direct child of the credentials folder, and a name is
    never read as an option. *)
Lemma creds_file_confined data name : data <> [] -> is_valid_tunnel_name name = true ->
  components (creds_file data name) = components (creds_dir data) ++ [Normal (name ++ ".json"%str)] /\
  starts_with "-" (os name) = false.
Proof.
  intros Hd Hn. pose proof (name_chars name Hn) as Hc.
  assert (Forall (fun c => c < 128) name) as Ha by (eapply Forall_impl; [done|]; intros c H; by apply name_char_plain).
  assert (slash ∉ name ++ ".json"%str) as Hs.
  { intros [H|H]%elem_of_app; [rewrite Forall_forall in Hc; by apply Hc, name_char_plain in H as (_ & ? & _)|].
    apply list_elem_of_In in H. vm_compute in H. by repeat destruct H as [H|H]. }
  unfold creds_file, os. rewrite as_bytes_app, (as_bytes_ascii name) by done. change (as_bytes ".json"%str) with ".json"%str.
  split; [|unfold is_valid_tunnel_name in Hn; by bprop].
  rewrite components_join.
  - rewrite split_char_none by done. cbn [omap list_omap]. unfold segment_component, str_eqb.
    rewrite !bool_decide_false; [done|..]; intros E%(f_equal length); rewrite length_app in E; cbn in E; lia.
  - unfold creds_dir, path_join. cbn. intros E. destruct (_ || _) in E; apply app_eq_nil in E as [_ E]; done.
  - unfold is_absolute, starts_with. destruct (strip_prefix _ _) eqn:E; [|done]. apply strip_prefix_Some in E.
    exfalso. apply Hs. rewrite E. by left.
Qed.

(** An ASCII character of a lossy text is a byte of it. *)
Lemma lossy_byte c bs : c < 128 -> c ∈ from_utf8_lossy bs -> c ∈ bs.
Proof.
  intros Hc. unfold from_utf8_lossy. induction bs as [bs IH] using (induction_ltof1 _ (@length N)). unfold ltof in IH.
  destruct bs as [|b0 r0]; [by intros ?%elem_of_nil|].
  assert (forall v r, c ∈ default 65533 <$> (v :: utf8_chunks r) -> (v = None \/ exists x, v = Some x /\ 128 <= x) -> (c ∈ default 65533 <$> utf8_chunks r)) as Hskip.
  { intros v r Hin Hv. rewrite fmap_cons in Hin. apply elem_of_cons in Hin as [E|Hin]; [|done].
    destruct Hv as [->|(x & -> & Hx)]; cbn in E; lia. }
  assert (c ∈ default 65533 <$> [None] -> False) as Hlast by (intros E%list_elem_of_singleton; cbn in E; lia).
  cbn [utf8_chunks]. destruct (b0 <? 128) eqn:E0; bprop.
  { rewrite fmap_cons. intros [->|H]%elem_of_cons; [by left|]. right. (apply IH; [cbn; lia|done]). }
  destruct (in_range 194 223 b0) eqn:R2.
  { destruct r0 as [|b1 r1]; [by intros ?%Hlast|]. destruct (is_cont b1) eqn:C1.
    - intros H%Hskip; [right; right; (apply IH; [cbn; lia|done])|]. right. eexists. split; [done|]. unfold in_range, is_cont in *. unfold in_range in *. lia.
    - intros H%Hskip; [right; (apply IH; [cbn; lia|done])|by left]. }
  destruct (in_range 224 239 b0) eqn:R3.
  { destruct r0 as [|b1 r1]; [by intros ?%Hlast|].
    destruct (second_of_three b0 b1) eqn:C1; [|intros H%Hskip; [right; (apply IH; [cbn; lia|done])|by left]].
    destruct r1 as [|b2 r2]; [by intros ?%Hlast|]. destruct (is_cont b2) eqn:C2.
    - intros H%Hskip; [do 3 right; (apply IH; [cbn; lia|done])|]. right. eexists. split; [done|].
      unfold second_of_three, is_cont, in_range in *. destruct (b0 =? 224) eqn:?, (b0 =? 237) eqn:?; lia.
    - intros H%Hskip; [do 2 right; (apply IH; [cbn; lia|done])|by left]. }
  destruct (in_range 240 244 b0) eqn:R4; [|intros H%Hskip; [right; (apply IH; [cbn; lia|done])|by left]].
  destruct r0 as [|b1 r1]; [by intros ?%Hlast|].
  destruct (second_of_four b0 b1) eqn:C1; [|intros H%Hskip; [right; (apply IH; [cbn; lia|done])|by left]].
  destruct r1 as [|b2 r2]; [by intros ?%Hlast|].
  destruct (is_cont b2) eqn:C2; [|intros H%Hskip; [do 2 right; (apply IH; [cbn; lia|done])|by left]].
  destruct r2 as [|b3 r3]; [by intros ?%Hlast|]. destruct (is_cont b3) eqn:C3.
  - intros H%Hskip; [do 4 right; (apply IH; [cbn; lia|done])|]. right. eexists. split; [done|].
    unfold second_of_four, is_cont, in_range in *. destruct (b0 =? 240) eqn:?, (b0 =? 244) eqn:?; lia.
  - intros H%Hskip; [do 3 right; (apply IH; [cbn; lia|done])|by left].
Qed.
