(* ===== verification/TunnelManager.v ===== *)
(** * Supervising tunnels

    [src/crates/orcker-tunnel/src/manager.rs]: one cloudflared child per site, driven
    through the state machine of [Supervisor] one step at a time.  What the system
    answers to a step is a [Sys]; what the manager does to the machine is a log of
    [Act]s.  A child handle is a number the model gives it at its spawn, since the
    system may reuse process ids; dropping a handle kills its process
    ([kill_on_drop] in [supervise/real.rs]).  [run_to_ready] of
    [src/bin/orckerd/src/tunnel/mod.rs] drives a start. *)

From S2P Require Import Prelude RustStr RustText Utf8 RustMap RustPath HelperArgv Supervisor Tunnel.

Open Scope N_scope.

Definition READINESS_GAP : N := from_millis 150.

Inductive TunnelKind := Quick | Named.
#[export] Instance TunnelKind_eq_dec : EqDecision TunnelKind.
Proof. solve_decision. Defined.

Inductive TunnelError :=
| NotInstalled
| SpawnError (source : io_kind)
| UnexpectedNone (state : PoolState)
| Io (source : io_kind)
| ReadinessTimedOut (site : str)
| PermanentlyFailed (site : str) (last_exit : ExitReason).

Record LaunchSpec := mkSpec {
  binary : OsString;
  args : list OsString;
  env : list (OsString * OsString);
  logfile : OsString;
}.

(** The command as built: its environment is cleared and then these, its output
    goes to the log, it leads a process group of its own. *)
Record Command := mkCommand {
  program : OsString;
  arguments : list OsString;
  environment : list (OsString * OsString);
  output : OsString;
}.

Inductive Step := Continue | Sleep (d : N) | Ready | Gone.

Inductive TunnelState := TRunning | TFailed.
#[export] Instance TunnelState_eq_dec : EqDecision TunnelState.
Proof. solve_decision. Defined.

Record TunnelSnapshot := mkSnapshot {
  ts_site : str;
  ts_kind : TunnelKind;
  ts_state : TunnelState;
  ts_pid : option N;
  ts_url : option str;
  ts_hostname : option str;
}.

Record Child := mkChild { ch_handle : N; ch_pid : N }.

Record Instance_ := mkInstance {
  i_state : PoolState;
  i_state_since : N;
  i_pending : Event;
  i_kind : TunnelKind;
  i_spec : LaunchSpec;
  i_url : option str;
  i_hostname : option str;
  i_timed_out : bool;
  i_child : option Child;
}.

(** ** The machine *)

Inductive Act :=
| MadeDir (dir : OsString)
| Truncated (p : OsString) (mode : N)
| Spawned (h : N) (site : str) (cmd : Command)
| Exited (h : N)
| Signalled (h : N) (sig : KillSignal)
| SignalFailed (h : N)
| Reaped (h : N)
| Dropped (h : N).

Record Sys := mkSys {
  sys_open : OsString -> result io_kind unit;
  sys_chmod : OsString -> result io_kind unit;
  sys_dup : OsString -> result io_kind unit;
  sys_spawn : Command -> result io_kind N;
  sys_try_wait : N -> result io_kind (option ExitReason);
  sys_kill : N -> KillSignal -> result io_kind unit;
  sys_exits_in_grace : N -> bool;
  sys_read : OsString -> option (list N);
}.

Record Manager := mkManager {
  m_policy : SupervisorPolicy;
  m_instances : gmap str Instance_;
  m_next : N;
  m_acts : list Act;
}.

(** [TunnelManager::new] *)
Definition new_manager : Manager := mkManager policy_tunnel ∅ 0 [].

Definition put_acts (a : list Act) (m : Manager) : Manager := mkManager (m_policy m) (m_instances m) (m_next m) (m_acts m ++ a).
Definition set_instances (f : gmap str Instance_ -> gmap str Instance_) (m : Manager) : Manager :=
  mkManager (m_policy m) (f (m_instances m)) (m_next m) (m_acts m).

(** [if let Some(i) = self.instances.get_mut(site) { ... }] *)
Definition update (site : str) (f : Instance_ -> Instance_) (m : Manager) : Manager := set_instances (alter f site) m.

Definition put_state (st : PoolState) (since : N) (i : Instance_) : Instance_ :=
  mkInstance st since (i_pending i) (i_kind i) (i_spec i) (i_url i) (i_hostname i) (i_timed_out i) (i_child i).
Definition put_pending (e : Event) (i : Instance_) : Instance_ :=
  mkInstance (i_state i) (i_state_since i) e (i_kind i) (i_spec i) (i_url i) (i_hostname i) (i_timed_out i) (i_child i).
Definition put_url (u : option str) (i : Instance_) : Instance_ :=
  mkInstance (i_state i) (i_state_since i) (i_pending i) (i_kind i) (i_spec i) u (i_hostname i) (i_timed_out i) (i_child i).
Definition put_timed_out (b : bool) (i : Instance_) : Instance_ :=
  mkInstance (i_state i) (i_state_since i) (i_pending i) (i_kind i) (i_spec i) (i_url i) (i_hostname i) b (i_child i).
Definition put_child (c : option Child) (i : Instance_) : Instance_ :=
  mkInstance (i_state i) (i_state_since i) (i_pending i) (i_kind i) (i_spec i) (i_url i) (i_hostname i) (i_timed_out i) c.

Definition set_pending (site : str) (e : Event) (m : Manager) : Manager := update site (put_pending e) m.

(** The handle an instance lets go of. *)
Definition drops (c : option Child) : list Act := match c with Some ch => [Dropped (ch_handle ch)] | None => [] end.

Section Operations.
Context (sys : Sys).

(** [child.try_wait()]: an exit seen is an exit known. *)
Definition try_wait (ch : Child) : result io_kind (option ExitReason) * list Act :=
  let r := sys_try_wait sys (ch_handle ch) in
  (r, match r with Ok (Some _) => [Exited (ch_handle ch)] | _ => [] end).

(** [graceful_reap]: a wait bounded by the grace, then a kill and a wait. *)
Definition graceful_reap (ch : Child) : list Act :=
  if sys_exits_in_grace sys (ch_handle ch) then [Reaped (ch_handle ch)]
  else match sys_kill sys (ch_handle ch) Kill with
       | Ok _ => [Signalled (ch_handle ch) Kill]
       | Err _ => []
       end ++ [Reaped (ch_handle ch)].

(** The lines [do_kill] and [stop] share: signal, then reap; the handle is dropped
    either way. *)
Definition kill_and_reap (ch : Child) (signal : KillSignal) : result TunnelError unit * list Act :=
  match sys_kill sys (ch_handle ch) signal with
  | Err e => (Err (Io e), [SignalFailed (ch_handle ch); Dropped (ch_handle ch)])
  | Ok _ => (Ok tt, Signalled (ch_handle ch) signal :: graceful_reap ch ++ [Dropped (ch_handle ch)])
  end.

Definition build_cmd (spec : LaunchSpec) : result TunnelError Command * list Act :=
  match sys_open sys (logfile spec) with
  | Err e => (Err (Io e), [])
  | Ok _ =>
      let opened := [Truncated (logfile spec) 384] in
      match sys_chmod sys (logfile spec), sys_dup sys (logfile spec) with
      | Ok _, Ok _ => (Ok (mkCommand (binary spec) (args spec) (env spec) (logfile spec)), opened)
      | Err e, _ => (Err (Io e), opened)
      | _, Err e => (Err (Io e), opened)
      end
  end.

Definition read_file_lossy (p : OsString) : str := match sys_read sys p with Some bytes => from_utf8_lossy bytes | None => [] end.

Definition failed_reason (st : PoolState) : ExitReason := match st with Failed last_exit _ => last_exit | _ => Unknown end.

Definition do_spawn (site : str) (m : Manager) : result TunnelError Step * Manager :=
  match m_instances m !! site with
  | None => (Ok Gone, m)
  | Some i =>
      match build_cmd (i_spec i) with
      | (Err e, a) => (Err e, put_acts a m)
      | (Ok cmd, a) =>
          match sys_spawn sys cmd with
          | Err e => (Err (SpawnError e), put_acts a m)
          | Ok pid =>
              let h := m_next m in
              let m := mkManager (m_policy m) (m_instances m) (h + 1) (m_acts m ++ a ++ [Spawned h site cmd] ++ drops (i_child i)) in
              (Ok Continue,
               update site (fun i => put_pending (SpawnSucceeded pid) (put_child (Some (mkChild h pid)) (put_timed_out false i))) m)
          end
      end
  end.

Definition do_health_check (site : str) (state_since now : N) (m : Manager) : Step * Manager :=
  let '(crashed, a) := match m_instances m !! site ≫= i_child with
                       | Some ch => let '(r, a) := try_wait ch in
                                    (match r with Ok (Some reason) => Some (ch, reason) | _ => None end, a)
                       | None => (None, [])
                       end in
  match crashed with
  | Some (ch, reason) =>
      (Continue, put_acts (a ++ [Dropped (ch_handle ch)])
                   (update site (fun i => put_pending (Crashed reason) (put_child None i)) m))
  | None =>
      let m := put_acts a m in
      match m_instances m !! site with
      | None => (Gone, m)
      | Some i =>
          let text := read_file_lossy (logfile (i_spec i)) in
          let '(ready, m) := match i_kind i with
                             | Quick => match parse_quick_url text with
                                        | Some u => (true, update site (put_url (Some u)) m)
                                        | None => (false, m)
                                        end
                             | Named => (is_named_ready text, m)
                             end in
          if ready : bool then (Continue, set_pending site HealthCheckOk m)
          else (Sleep READINESS_GAP, set_pending site (HealthCheckTick (now - state_since)) m)
      end
  end.

Definition do_kill (site : str) (signal : KillSignal) (m : Manager) : result TunnelError Step * Manager :=
  let child := m_instances m !! site ≫= i_child in
  let m := update site (put_child None) m in
  let '(r, a) := match child with Some ch => kill_and_reap ch signal | None => (Ok tt, []) end in
  let m := put_acts a m in
  match r with
  | Err e => (Err e, m)
  | Ok _ => (Ok Continue,
             update site (fun i => put_pending (Crashed Unknown) (put_timed_out true (put_child None i))) m)
  end.

Definition advance (now : N) (site : str) (m : Manager) : result TunnelError Step * Manager :=
  match m_instances m !! site with
  | None => (Ok Gone, m)
  | Some i =>
      let '(next, action) := transition (i_state i) (i_pending i) (m_policy m) in
      let state_since := i_state_since i in
      let m := if bool_decide (next = i_state i) then m else update site (put_state next now) m in
      match action with
      | NoAction =>
          (match next with
           | Running _ => Ok Ready
           | Stopped => Ok Gone
           | other => Err (UnexpectedNone other)
           end, m)
      | Spawn => do_spawn site m
      | HealthCheck => let '(st, m) := do_health_check site state_since now m in (Ok st, m)
      | Backoff wait => (Ok (Sleep wait), set_pending site BackoffElapsed m)
      | KillChild signal => do_kill site signal m
      | EmitError HealthCheckTimedOut => (Err (ReadinessTimedOut site), m)
      | EmitError PermanentFailure =>
          (Err (if bool_decide ((i_timed_out <$> m_instances m !! site) = Some true)
                then ReadinessTimedOut site else PermanentlyFailed site (failed_reason next)), m)
      end
  end.

(** [begin]; [now'] is the clock when the first step reads it. *)
Definition is_in_progress (st : PoolState) : bool :=
  match st with Starting _ _ | Stopping _ => true | _ => false end.

Definition begin (now now' : N) (site : str) (spec : LaunchSpec) (kind : TunnelKind) (hostname : option str)
    (m : Manager) : result TunnelError bool * Manager :=
  let existing := m_instances m !! site in
  let '(alive, a) := match existing ≫= i_child with
                     | Some ch => let '(r, a) := try_wait ch in (match r with Ok (Some _) => false | _ => true end, a)
                     | None => (false, [])
                     end in
  let m := put_acts a m in
  if match existing with Some i => alive || is_in_progress (i_state i) | None => false end then (Ok false, m)
  else
    let made := match path_parent (logfile spec) with Some parent => [MadeDir parent] | None => [] end in
    let m := put_acts (made ++ drops (existing ≫= i_child)) m in
    let m := set_instances (insert site (mkInstance Stopped now EnsureRequested kind spec None hostname false None)) m in
    match advance now' site m with
    | (Err e, m) => (Err e, set_instances (delete site) (put_acts (drops (m_instances m !! site ≫= i_child)) m))
    | (Ok _, m) => (Ok true, m)
    end.

Definition stop (site : str) (m : Manager) : result TunnelError unit * Manager :=
  match m_instances m !! site with
  | None => (Ok tt, m)
  | Some inst =>
      let m := set_instances (delete site) m in
      match i_child inst with
      | None => (Ok tt, m)
      | Some child => let '(r, a) := kill_and_reap child Term in (r, put_acts a m)
      end
  end.

Fixpoint stop_all (sites : list str) (first_err : option TunnelError) (m : Manager) : option TunnelError * Manager :=
  match sites with
  | [] => (first_err, m)
  | site :: rest =>
      let '(r, m) := stop site m in
      stop_all rest (match r, first_err with Err e, None => Some e | _, _ => first_err end) m
  end.
Definition shutdown (m : Manager) : result TunnelError unit * Manager :=
  let '(first_err, m) := stop_all (btree_iter (m_instances m)).*1 None m in
  (match first_err with None => Ok tt | Some e => Err e end, m).

Definition is_up (st : PoolState) : bool := match st with Running _ | Starting _ _ => true | _ => false end.

Definition snapshot (entry : str * Instance_) : TunnelSnapshot * list Act :=
  let '(site, inst) := entry in
  let '(alive, a) := match i_child inst with
                     | Some ch => let '(r, a) := try_wait ch in (match r with Ok None => true | _ => false end, a)
                     | None => (false, [])
                     end in
  (mkSnapshot site (i_kind inst)
     (if alive && is_up (i_state inst) then TRunning else TFailed)
     (if alive then ch_pid <$> i_child inst else None)
     (i_url inst) (i_hostname inst), a).
Definition snapshots (m : Manager) : list TunnelSnapshot * Manager :=
  let out := snapshot <$> btree_iter (m_instances m) in
  (out.*1, put_acts (mjoin out.*2) m).
End Operations.

(** ** What holds of every manager *)

(** Where an instance can be: the machine's state, the event it will be fed next and
    the child held. *)
Inductive phase (pol : SupervisorPolicy) : PoolState -> Event -> option Child -> Prop :=
| ph_new : 1 <= max_restart_attempts pol -> phase pol Stopped EnsureRequested None
| ph_refused a e : e = EnsureRequested \/ e = BackoffElapsed -> 1 <= a <= max_restart_attempts pol -> phase pol (Starting a None) e None
| ph_spawned a ch : 1 <= a <= max_restart_attempts pol -> phase pol (Starting a None) (SpawnSucceeded (ch_pid ch)) (Some ch)
| ph_checking a e ch : 1 <= a <= max_restart_attempts pol -> phase pol (Starting a (Some (ch_pid ch))) (HealthCheckTick e) (Some ch)
| ph_ready a ch : 1 <= a <= max_restart_attempts pol -> phase pol (Starting a (Some (ch_pid ch))) HealthCheckOk (Some ch)
| ph_crashed a p r : 1 <= a <= max_restart_attempts pol -> phase pol (Starting a (Some p)) (Crashed r) None
| ph_unkilled a p e : health_check_window pol <= e -> 1 <= a <= max_restart_attempts pol ->
    phase pol (Starting a (Some p)) (HealthCheckTick e) None
| ph_waiting r a : 1 <= a <= max_restart_attempts pol -> phase pol (Failed r a) BackoffElapsed None
| ph_running ch : phase pol (Running (ch_pid ch)) HealthCheckOk (Some ch).

(** A quick tunnel found ready has the address it printed. *)
Definition ready_url (i : Instance_) : Prop :=
  i_pending i = HealthCheckOk -> i_kind i = Quick -> exists label, i_url i = Some (quick_url label) /\ label <> [].

Record inst_ok (pol : SupervisorPolicy) (i : Instance_) : Prop := {
  ok_phase : phase pol (i_state i) (i_pending i) (i_child i);
  ok_url : ready_url i;
}.

(** A child that no longer runs: its exit was seen, or it was signalled and waited
    for, or it could not be signalled and its handle was dropped, which kills it. *)
Definition gone (acts : list Act) (h : N) : Prop :=
  Exited h ∈ acts \/ Reaped h ∈ acts \/ (SignalFailed h ∈ acts /\ Dropped h ∈ acts).

Definition spawns (a : Act) : bool := match a with Spawned _ _ _ => true | _ => false end.
Definition no_spawn (a : list Act) : Prop := Forall (fun x => spawns x = false) a.

Definition command_of (spec : LaunchSpec) : Command := mkCommand (binary spec) (args spec) (env spec) (logfile spec).

Record wf (m : Manager) : Prop := {
  wf_policy : m_policy m = policy_tunnel;
  wf_inst site i : m_instances m !! site = Some i -> inst_ok (m_policy m) i;
  wf_fresh h site cmd : Spawned h site cmd ∈ m_acts m -> h < m_next m;
  wf_once h s c s' c' : Spawned h s c ∈ m_acts m -> Spawned h s' c' ∈ m_acts m -> s = s' /\ c = c';
  wf_held site i ch : m_instances m !! site = Some i -> i_child i = Some ch -> exists cmd, Spawned (ch_handle ch) site cmd ∈ m_acts m;
  wf_known h site cmd : Spawned h site cmd ∈ m_acts m ->
    gone (m_acts m) h \/ exists i ch, m_instances m !! site = Some i /\ i_child i = Some ch /\ ch_handle ch = h;
}.

Lemma gone_mono acts a h : gone acts h -> gone (acts ++ a) h.
Proof. unfold gone. rewrite !elem_of_app. intuition. Qed.

Lemma no_spawn_app a b : no_spawn a -> no_spawn b -> no_spawn (a ++ b).
Proof. intros. by apply Forall_app. Qed.

Lemma spawned_app acts a h s c : no_spawn a -> Spawned h s c ∈ acts ++ a -> Spawned h s c ∈ acts.
Proof. intros Ha [?|H]%elem_of_app; [done|]. unfold no_spawn in Ha. rewrite Forall_forall in Ha. by apply Ha in H. Qed.

(** *** Steps that touch one site *)

Record local_step (site : str) (m m' : Manager) (a : list Act) (oi' : option Instance_) : Prop := {
  ls_policy : m_policy m' = m_policy m;
  ls_acts : m_acts m' = m_acts m ++ a;
  ls_here : m_instances m' !! site = oi';
  ls_else s : s <> site -> m_instances m' !! s = m_instances m !! s;
  ls_ok i' : oi' = Some i' -> inst_ok (m_policy m) i';
  ls_kept i ch : m_instances m !! site = Some i -> i_child i = Some ch ->
    (exists i', oi' = Some i' /\ i_child i' = Some ch) \/ gone (m_acts m') (ch_handle ch);
}.

(** A step that spawns nothing. *)
Record quiet_step (site : str) (m m' : Manager) : Prop := mkQuiet {
  qs_acts : list Act;
  qs_inst : option Instance_;
  qs_local : local_step site m m' qs_acts qs_inst;
  qs_quiet : no_spawn qs_acts;
  qs_next : m_next m' = m_next m;
  qs_child i' ch : qs_inst = Some i' -> i_child i' = Some ch -> exists i, m_instances m !! site = Some i /\ i_child i = Some ch;
}.

Lemma quiet_wf site m m' : wf m -> quiet_step site m m' -> wf m'.
Proof.
  intros W [a oi [Hp Ha Hh He Hok Hk] Hq Hn Hc]. split.
  - by rewrite Hp, (wf_policy m W).
  - intros s i Hi. rewrite Hp. destruct (decide (s = site)) as [->|Hne]; [rewrite Hh in Hi; auto|].
    rewrite He in Hi by done. by apply (wf_inst m W s).
  - intros h s c Hs. rewrite Hn. rewrite Ha in Hs. apply spawned_app in Hs; [|done]. by apply (wf_fresh m W h s c).
  - intros h s c s' c' H1 H2. rewrite Ha in H1, H2. apply spawned_app in H1, H2; [|done..]. by apply (wf_once m W h).
  - intros s i ch Hi Hch. rewrite Ha. destruct (decide (s = site)) as [->|Hne].
    + rewrite Hh in Hi. destruct (Hc i ch Hi Hch) as (j & Hj & Hcj). destruct (wf_held m W site j ch Hj Hcj) as (cmd & ?).
      exists cmd. apply elem_of_app. by left.
    + rewrite He in Hi by done. destruct (wf_held m W s i ch Hi Hch) as (cmd & ?). exists cmd. apply elem_of_app. by left.
  - intros h s c Hs. rewrite Ha in Hs. apply spawned_app in Hs; [|done].
    destruct (wf_known m W h s c Hs) as [Hg|(i & ch & Hi & Hch & Eh)]; [left; rewrite Ha; by apply gone_mono|].
    destruct (decide (s = site)) as [->|Hne]; [|right; exists i, ch; by rewrite He].
    destruct (Hk i ch Hi Hch) as [(i' & Hi' & Hch')|Hg]; [|left; by subst h].
    right. exists i', ch. by rewrite Hh.
Qed.

(** A step that spawns one child. *)
Record spawn_step (site : str) (m m' : Manager) : Prop := mkSpawnStep {
  ss_before : list Act;
  ss_cmd : Command;
  ss_after : list Act;
  ss_inst : Instance_;
  ss_child : Child;
  ss_local : local_step site m m' (ss_before ++ Spawned (m_next m) site ss_cmd :: ss_after) (Some ss_inst);
  ss_quiet : no_spawn (ss_before ++ ss_after);
  ss_next : m_next m' = m_next m + 1;
  ss_holds : i_child ss_inst = Some ss_child /\ ch_handle ss_child = m_next m;
  ss_command : exists i, m_instances m !! site = Some i /\ ss_cmd = command_of (i_spec i);
}.

Lemma spawn_wf site m m' : wf m -> spawn_step site m m' -> wf m'.
Proof.
  intros W [b cmd a inst chd [Hp Ha Hh He Hok Hk] Hq Hn (Hc & Hch) _].
  assert (forall h s c, Spawned h s c ∈ m_acts m' -> Spawned h s c ∈ m_acts m \/ (h = m_next m /\ s = site /\ c = cmd)) as Hin.
  { intros h s c. rewrite Ha, elem_of_app, elem_of_app, elem_of_cons. unfold no_spawn in Hq. rewrite Forall_forall in Hq.
    intros [?|[H|[[= -> -> ->]|H]]]; [by left| |by right|]; exfalso; (assert (Spawned h s c ∈ b ++ a) as H' by (apply elem_of_app; auto)); by apply Hq in H'. }
  assert (Spawned (m_next m) site cmd ∈ m_acts m') as Hnew.
  { rewrite Ha. apply elem_of_app. right. apply elem_of_app. right. by left. }
  split.
  - by rewrite Hp, (wf_policy m W).
  - intros s i Hi. rewrite Hp. destruct (decide (s = site)) as [->|Hne]; [rewrite Hh in Hi; auto|].
    rewrite He in Hi by done. by apply (wf_inst m W s).
  - intros h s c [Hs|(-> & _)]%Hin; rewrite Hn; [|lia]. pose proof (wf_fresh m W h s c Hs). lia.
  - intros h s c s' c' [H1|(-> & -> & ->)]%Hin [H2|(E & -> & ->)]%Hin; [by apply (wf_once m W h)| | |done].
    + pose proof (wf_fresh m W _ _ _ H1). lia.
    + pose proof (wf_fresh m W _ _ _ H2). lia.
  - intros s i ch Hi Hchi. destruct (decide (s = site)) as [->|Hne].
    + rewrite Hh in Hi. injection Hi as <-. rewrite Hc in Hchi. injection Hchi as <-. rewrite Hch. by exists cmd.
    + rewrite He in Hi by done. destruct (wf_held m W s i ch Hi Hchi) as (c & ?). exists c. rewrite Ha. apply elem_of_app. by left.
  - intros h s c [Hs|(-> & -> & ->)]%Hin; [|right; by exists inst, chd].
    destruct (wf_known m W h s c Hs) as [Hg|(i & ch & Hi & Hchi & Eh)]; [left; rewrite Ha; by apply gone_mono|].
    destruct (decide (s = site)) as [->|Hne]; [|right; exists i, ch; by rewrite He].
    destruct (Hk i ch Hi Hchi) as [(i' & [= <-] & Hch')|Hg]; [|left; by subst h].
    right. by exists inst, ch.
Qed.

(** *** The operations are such steps *)

Lemma update_here site f m i : m_instances m !! site = Some i -> m_instances (update site f m) !! site = Some (f i).
Proof. intros Hi. cbn. by rewrite lookup_alter_eq, Hi. Qed.
Lemma update_else site f m s : s <> site -> m_instances (update site f m) !! s = m_instances m !! s.
Proof. intros Hs. cbn. by rewrite lookup_alter_ne by done. Qed.

(** The instance of [m] once [advance] has recorded the next state. *)
Lemma recorded site next now m i : m_instances m !! site = Some i ->
  let m' := if bool_decide (next = i_state i) then m else update site (put_state next now) m in
  exists since, m_instances m' !! site = Some (put_state next since i) /\ (next <> i_state i -> since = now) /\ (next = i_state i -> since = i_state_since i) /\
  (forall s, s <> site -> m_instances m' !! s = m_instances m !! s) /\ m_policy m' = m_policy m /\ m_acts m' = m_acts m /\ m_next m' = m_next m.
Proof.
  intros Hi m'. unfold m'. case_bool_decide as E.
  - exists (i_state_since i). split; [|done]. rewrite Hi, E. by destruct i.
  - exists now. rewrite (update_here _ _ _ i) by done. repeat split; intros; try done. by apply update_else.
Qed.

Lemma kill_and_reap_gone sys ch sig acts : gone (acts ++ (kill_and_reap sys ch sig).2) (ch_handle ch).
Proof.
  unfold kill_and_reap, gone. destruct (sys_kill sys _ sig); cbn; rewrite !elem_of_app.
  - right. left. right. right. apply elem_of_app. left. unfold graceful_reap.
    destruct (sys_exits_in_grace _ _); [by left|]. apply elem_of_app. right. by left.
  - right. right. split; right; [by left|by right; left].
Qed.

Lemma kill_and_reap_quiet sys ch sig : no_spawn (kill_and_reap sys ch sig).2.
Proof.
  unfold kill_and_reap, graceful_reap, no_spawn. destruct (sys_kill sys _ sig); cbn; [|by repeat constructor].
  constructor; [done|]. apply Forall_app. split; [|by repeat constructor].
  destruct (sys_exits_in_grace _ _); [by repeat constructor|]. apply Forall_app. split; [|by repeat constructor].
  by destruct (sys_kill _ _ _); repeat constructor.
Qed.

Lemma build_cmd_quiet sys spec : no_spawn (build_cmd sys spec).2.
Proof.
  unfold build_cmd. destruct (sys_open _ _); [|by constructor]. by destruct (sys_chmod _ _), (sys_dup sys (logfile spec)); repeat constructor.
Qed.

Lemma build_cmd_ok sys spec cmd : (build_cmd sys spec).1 = Ok cmd -> cmd = command_of spec.
Proof.
  unfold build_cmd. destruct (sys_open _ _); [|done]. destruct (sys_chmod _ _), (sys_dup sys (logfile spec)); cbn; by intros [= <-].
Qed.

Lemma drops_quiet c : no_spawn (drops c).
Proof. destruct c; by repeat constructor. Qed.

Lemma try_wait_quiet sys ch : no_spawn (try_wait sys ch).2.
Proof. unfold try_wait. by destruct (sys_try_wait _ _) as [[]|]; repeat constructor. Qed.

Section Advance.
Context (sys : Sys) (site : str) (m m' : Manager) (i : Instance_) (next : PoolState) (since : N).
Hypothesis (Hi : m_instances m !! site = Some i) (Hok : inst_ok (m_policy m) i).
Hypothesis (Hhere : m_instances m' !! site = Some (put_state next since i)).
Hypothesis (Helse : forall s, s <> site -> m_instances m' !! s = m_instances m !! s).
Hypothesis (Hpol : m_policy m' = m_policy m) (Hacts : m_acts m' = m_acts m) (Hnext : m_next m' = m_next m).

(** Rewriting the instance of the site keeps the others. *)
Lemma quiet_update m'' a i' : m_policy m'' = m_policy m -> m_next m'' = m_next m -> m_acts m'' = m_acts m ++ a -> no_spawn a ->
  m_instances m'' !! site = Some i' -> (forall s, s <> site -> m_instances m'' !! s = m_instances m !! s) ->
  inst_ok (m_policy m) i' ->
  (i_child i' = i_child i \/ (i_child i' = None /\ forall ch, i_child i = Some ch -> gone (m_acts m ++ a) (ch_handle ch))) ->
  quiet_step site m m''.
Proof using Hi.
  intros Hp Hn Ha Hq Hh He Hk Hc. apply (mkQuiet _ _ _ a (Some i')); [|done|done|].
  - split; try done; [by intros ? [= <-]|]. intros j ch Hj Hch. rewrite Hi in Hj. injection Hj as <-.
    destruct Hc as [Hc|(_ & Hg)]; [left; exists i'; split; [done|congruence]|right; rewrite Ha; auto].
  - intros j ch [= <-] Hch. exists i. split; [done|]. destruct Hc as [Hc|(Hc & _)]; congruence.
Qed.

Lemma do_spawn_step a : next = Starting a None -> 1 <= a <= max_restart_attempts (m_policy m) -> i_child i = None ->
  (i_pending i = EnsureRequested \/ i_pending i = BackoffElapsed) ->
  (quiet_step site m (do_spawn sys site m').2 /\ exists e, (do_spawn sys site m').1 = Err e) \/
  (exists pid, spawn_step site m (do_spawn sys site m').2 /\ (do_spawn sys site m').1 = Ok Continue /\
   m_instances (do_spawn sys site m').2 !! site =
     Some (put_pending (SpawnSucceeded pid) (put_child (Some (mkChild (m_next m) pid)) (put_timed_out false (put_state next since i))))).
Proof using All.
  intros En Ha Hc Hpend. unfold do_spawn. rewrite Hhere. cbn [i_spec put_state i_child].
  assert (inst_ok (m_policy m) (put_state next since i)) as Hok'.
  { split; [cbn; rewrite En, Hc; by apply ph_refused|]. intros E. cbn in E. destruct Hpend; congruence. }
  pose proof (build_cmd_quiet sys (i_spec i)) as Hbq. pose proof (build_cmd_ok sys (i_spec i)) as Hbo.
  destruct (build_cmd sys (i_spec i)) as [[cmd|e] b]; cbn in Hbq, Hbo.
  2: { left. split; [|by eexists]. cbn. apply (quiet_update _ b (put_state next since i)); cbn; try done; [by rewrite Hacts|by left]. }
  destruct (sys_spawn sys cmd) as [pid|e].
  2: { left. split; [|by eexists]. cbn. apply (quiet_update _ b (put_state next since i)); cbn; try done; [by rewrite Hacts|by left]. }
  right. exists pid. rewrite Hnext, Hc. cbn [drops]. split; [|split; [done|cbn; by rewrite lookup_alter_eq, Hhere]].
  apply (mkSpawnStep _ _ _ b cmd [] (put_pending (SpawnSucceeded pid) (put_child (Some (mkChild (m_next m) pid)) (put_timed_out false (put_state next since i)))) (mkChild (m_next m) pid)).
  - split; cbn.
    + done.
    + by rewrite Hacts.
    + by rewrite lookup_alter_eq, Hhere.
    + intros s Hs. by rewrite lookup_alter_ne, Helse.
    + intros ? [= <-]. split; [|done]. cbn. rewrite En. apply (ph_spawned _ a (mkChild (m_next m) pid)). done.
    + intros j ch Hj Hch. rewrite Hi in Hj. injection Hj as <-. congruence.
  - by rewrite app_nil_r.
  - done.
  - done.
  - exists i. split; [done|]. auto.
Qed.

(** The instance read from the log keeps its child. *)
Lemma quiet_kept m'' i' : m_policy m'' = m_policy m -> m_next m'' = m_next m -> m_acts m'' = m_acts m ->
  m_instances m'' !! site = Some i' -> (forall s, s <> site -> m_instances m'' !! s = m_instances m !! s) ->
  inst_ok (m_policy m) i' -> i_child i' = i_child i -> quiet_step site m m''.
Proof using Hi.
  intros. apply (quiet_update _ [] i'); try done; [by rewrite app_nil_r|by constructor|by left].
Qed.

Definition checked (now since0 : N) (st : Step) (i' : Instance_) : Prop :=
  i_state i' = next /\ i_state_since i' = since /\
  ((st = Continue /\ exists r, i_pending i' = Crashed r) \/ (st = Continue /\ i_pending i' = HealthCheckOk)
   \/ (st = Sleep READINESS_GAP /\ i_pending i' = HealthCheckTick (now - since0))).

Lemma do_health_check_step a pid ch since0 now : next = Starting a (Some pid) -> 1 <= a <= max_restart_attempts (m_policy m) ->
  i_child i = Some ch -> pid = ch_pid ch ->
  let r := do_health_check sys site since0 now m' in
  quiet_step site m r.2 /\ exists i', m_instances r.2 !! site = Some i' /\ checked now since0 r.1 i'.
Proof using All.
  intros En Ha Hc Hp. unfold do_health_check. rewrite Hhere. cbn [mbind option_bind put_state i_child]. rewrite Hc.
  unfold try_wait.
  assert (forall r : result io_kind (option ExitReason), (exists reason, r = Ok (Some reason)) \/
    (match r with Ok (Some reason) => Some (ch, reason) | _ => None end = None /\
     match r with Ok (Some _) => [Exited (ch_handle ch)] | _ => [] end = [])) as Hcase.
  { intros [[reason|]|e]; eauto. }
  destruct (Hcase (sys_try_wait sys (ch_handle ch))) as [(reason & ->)|(-> & ->)]; cbn zeta iota.
  - split; [|eexists; cbn; rewrite lookup_alter_eq, Hhere; split; [done|]; unfold checked; cbn; eauto 10].
    eapply (quiet_update _ [Exited (ch_handle ch); Dropped (ch_handle ch)]); cbn; rewrite ?lookup_alter_eq, ?Hhere; try done.
    + by rewrite Hacts.
    + by repeat constructor.
    + intros s Hs. by rewrite lookup_alter_ne, Helse.
    + split; [cbn; rewrite En; by apply ph_crashed|done].
    + right. split; [done|]. intros c E. rewrite Hc in E. injection E as <-. left. apply elem_of_app. right. by left.
  - cbn [put_acts m_instances]. rewrite Hhere. cbn [i_kind i_spec put_state].
    destruct (i_kind i) eqn:Ek; [destruct (parse_quick_url _) as [u|] eqn:Eu|destruct (is_named_ready _)]; cbn zeta iota.
    all: split; [|eexists; cbn; rewrite ?lookup_alter_eq, Hhere; split; [done|]; unfold checked; cbn; eauto 10].
    all: eapply quiet_kept; cbn; rewrite ?lookup_alter_eq, ?Hhere, ?app_nil_r; try done;
      try (intros s Hs; by rewrite !lookup_alter_ne, Helse).
    all: split; [cbn; rewrite En, Hc, Hp; (by apply ph_ready) || (by apply ph_checking)|].
    + intros _ _. apply quick_url_sound in Eu as (label & ? & ? & -> & Hne & _). by exists label.
    + done.
    + intros _ E. cbn in E. congruence.
    + done.
Qed.

Lemma do_kill_step a p e : next = Starting a (Some p) -> 1 <= a <= max_restart_attempts (m_policy m) -> health_check_window (m_policy m) <= e ->
  i_pending i = HealthCheckTick e ->
  let r := do_kill sys site Term m' in
  quiet_step site m r.2 /\ (forall st, r.1 = Ok st -> st = Continue /\
    exists i', m_instances r.2 !! site = Some i' /\ i_state i' = next /\ i_pending i' = Crashed Unknown /\ i_state_since i' = since).
Proof using All.
  intros En Ha He Hpend. unfold do_kill. rewrite Hhere. cbn [mbind option_bind put_state i_child].
  set (ka := match i_child i with Some ch => kill_and_reap sys ch Term | None => (Ok tt, []) end).
  assert (no_spawn ka.2) as Hq by (unfold ka; destruct (i_child i); [apply kill_and_reap_quiet|by constructor]).
  assert (forall ch, i_child i = Some ch -> gone (m_acts m ++ ka.2) (ch_handle ch)) as Hg.
  { unfold ka. intros ch ->. apply kill_and_reap_gone. }
  destruct ka as [[[]|err] acts]; cbn [fst snd] in *.
  - split; [|intros st [= <-]; split; [done|]; eexists; cbn; rewrite !lookup_alter_eq, Hhere; split; [done|]; done].
    eapply (quiet_update _ acts); cbn; rewrite ?lookup_alter_eq, ?Hhere; try done.
    + by rewrite Hacts.
    + intros s Hs. by rewrite !lookup_alter_ne, Helse.
    + split; [cbn; rewrite En; by apply ph_crashed|done].
    + right. done.
  - split; [|done]. eapply (quiet_update _ acts); cbn; rewrite ?lookup_alter_eq, ?Hhere; try done.
    + by rewrite Hacts.
    + intros s Hs. by rewrite lookup_alter_ne, Helse.
    + split; [cbn; rewrite En, Hpend; by apply ph_unkilled|]. intros E. cbn in E. congruence.
    + right. done.
Qed.
End Advance.

(** *** How far a start is from its end

    The number of steps a start can still take when the clock reads at least [t] at
    the next: in an attempt, one per health check that still fits the window, and a
    fixed number around them; then the attempts left. *)

Definition checks_left (pol : SupervisorPolicy) (elapsed : N) : N :=
  (health_check_window pol - elapsed + (READINESS_GAP - 1)) / READINESS_GAP.
Definition attempt_cost (pol : SupervisorPolicy) : N := checks_left pol 0 + 5.
Definition attempts_cost (pol : SupervisorPolicy) (a : N) : N := (max_restart_attempts pol - a) * attempt_cost pol.

Definition rank (pol : SupervisorPolicy) (t : N) (i : Instance_) : N :=
  match i_state i, i_pending i with
  | Stopped, _ => attempts_cost pol 0 + 1
  | Starting a None, SpawnSucceeded _ => attempts_cost pol a + attempt_cost pol
  | Starting a (Some _), HealthCheckTick e =>
      if e <? health_check_window pol then attempts_cost pol a + 4 + checks_left pol (t - i_state_since i) else attempts_cost pol a + 3
  | Starting a (Some _), HealthCheckOk => 1
  | Starting a (Some _), Crashed _ => attempts_cost pol a + 2
  | Failed _ a, _ => attempts_cost pol a + 1
  | _, _ => 0
  end.

Lemma checks_left_mono pol x y : x <= y -> checks_left pol y <= checks_left pol x.
Proof. intros H. unfold checks_left. apply N.Div0.div_le_mono. lia. Qed.

Lemma checks_left_step pol x y : x < health_check_window pol -> x + READINESS_GAP <= y -> checks_left pol y < checks_left pol x.
Proof. intros Hx Hy. unfold checks_left, READINESS_GAP, from_millis in *. lia. Qed.

Lemma attempts_cost_next pol a : a < max_restart_attempts pol -> attempts_cost pol (a + 1) + attempt_cost pol = attempts_cost pol a.
Proof.
  intros Ha. unfold attempts_cost. replace (max_restart_attempts pol - a) with (max_restart_attempts pol - (a + 1) + 1) by lia. lia.
Qed.

(** What a step leaves of a start, by what it returns; [t] bounds the clock from
    below and [now] is what it reads. *)
Definition progress (pol : SupervisorPolicy) (t now : N) (i : Instance_) (r : result TunnelError Step) (oi' : option Instance_) : Prop :=
  match r with
  | Ok Ready => exists i', oi' = Some i' /\ exists pid, i_state i' = Running pid
  | Ok Gone => False
  | Ok Continue => exists i', oi' = Some i' /\ i_state_since i' <= now /\ rank pol now i' < rank pol t i
  | Ok (Sleep d) => exists i', oi' = Some i' /\ i_state_since i' <= now /\ rank pol (now + d) i' < rank pol t i
  | Err _ => True
  end.

Lemma checked_progress pol t now since0 i next since st i' a pid :
  next = Starting a (Some pid) -> checked next since now since0 st i' -> since <= now ->
  (rank pol t i > attempts_cost pol a + 3) -> 
  (now - since0 < health_check_window pol -> rank pol t i > attempts_cost pol a + 4 + checks_left pol (now + READINESS_GAP - since)) ->
  progress pol t now i (Ok st) (Some i').
Proof.
  intros -> (Es & Et & Hst) Hs Hr Hl. unfold progress.
  destruct Hst as [(-> & r & Ep)|[(-> & Ep)|(-> & Ep)]]; exists i'; (split; [done|]; split; [lia|]); unfold rank at 1; rewrite Es, Ep; [lia|lia|].
  rewrite Et. destruct (now - since0 <? health_check_window pol) eqn:E; [|lia]. bprop. specialize (Hl ltac:(done)). lia.
Qed.

Lemma same_quiet site m m' i : m_instances m !! site = Some i -> inst_ok (m_policy m) i ->
  m_instances m' !! site = Some i -> (forall s, s <> site -> m_instances m' !! s = m_instances m !! s) ->
  m_policy m' = m_policy m -> m_acts m' = m_acts m -> m_next m' = m_next m -> quiet_step site m m'.
Proof. intros. by eapply (quiet_kept site m i); eauto. Qed.

Lemma put_state_same i : put_state (i_state i) (i_state_since i) i = i.
Proof. by destruct i. Qed.

(** The attempts a state stands for; a start that is over has none left. *)
Definition attempts_of (pol : SupervisorPolicy) (st : PoolState) : N :=
  match st with
  | Stopped => 0
  | Starting a _ | Failed _ a => a
  | Running _ | Stopping _ => max_restart_attempts pol
  end.

Lemma attempts_bound pol i : inst_ok pol i -> attempts_of pol (i_state i) <= max_restart_attempts pol.
Proof. intros [Hp _]. inversion Hp; cbn; lia. Qed.

Lemma quiet_next site m m' : quiet_step site m m' -> m_next m' = m_next m.
Proof. by intros []. Qed.
Lemma spawn_next site m m' : spawn_step site m m' -> m_next m' = m_next m + 1.
Proof. by intros []. Qed.

(** A child is spawned once per attempt. *)
Definition within_budget (m : Manager) (i : Instance_) (site : str) (r : result TunnelError Step * Manager) : Prop :=
  forall st i', r.1 = Ok st -> m_instances r.2 !! site = Some i' ->
  m_next r.2 + attempts_of (m_policy m) (i_state i) <= m_next m + attempts_of (m_policy m) (i_state i').

Definition step_spec (t now : N) (m : Manager) (i : Instance_) (site : str) (r : result TunnelError Step * Manager) : Prop :=
  (quiet_step site m r.2 \/ (spawn_step site m r.2 /\ r.1 = Ok Continue)) /\ within_budget m i site r /\
  (t <= now -> i_state_since i <= t -> progress (m_policy m) t now i r.1 (m_instances r.2 !! site)).

(** A step that spawns nothing, from the state it leaves. *)
Lemma quiet_spec t now m i site r : quiet_step site m r.2 ->
  (forall st i', r.1 = Ok st -> m_instances r.2 !! site = Some i' -> attempts_of (m_policy m) (i_state i) <= attempts_of (m_policy m) (i_state i')) ->
  (t <= now -> i_state_since i <= t -> progress (m_policy m) t now i r.1 (m_instances r.2 !! site)) ->
  step_spec t now m i site r.
Proof.
  intros Hq Hb Hp. split; [by left|]. split; [|done]. intros st i' E Hi'. rewrite (quiet_next site m r.2 Hq).
  specialize (Hb st i' E Hi'). lia.
Qed.

Section Phases.
Context (sys : Sys) (now t : N) (site : str) (m m' : Manager) (i : Instance_) (next : PoolState) (since : N).
Hypothesis (Hi : m_instances m !! site = Some i) (Hok : inst_ok (m_policy m) i).
Hypothesis (Hh : m_instances m' !! site = Some (put_state next since i)).
Hypothesis (Hn1 : next <> i_state i -> since = now) (Hn2 : next = i_state i -> since = i_state_since i).
Hypothesis (He : forall s, s <> site -> m_instances m' !! s = m_instances m !! s).
Hypothesis (Hp : m_policy m' = m_policy m) (Ha : m_acts m' = m_acts m) (Hn : m_next m' = m_next m).

Lemma spawn_phase a : next = Starting a None -> 1 <= a <= max_restart_attempts (m_policy m) -> i_child i = None ->
  (i_pending i = EnsureRequested \/ i_pending i = BackoffElapsed) -> next <> i_state i ->
  attempts_of (m_policy m) (i_state i) + 1 = a -> rank (m_policy m) t i = attempts_cost (m_policy m) (a - 1) + 1 ->
  step_spec t now m i site (do_spawn sys site m').
Proof using All.
  intros En Hb Hc Hpe Hne Hat Hr.
  destruct (do_spawn_step sys site m m' i _ since Hi Hok Hh He Hp Ha Hn a En Hb Hc Hpe) as [(Hq & e & E)|(pid & Hs & E1 & E2)].
  - apply quiet_spec; [done|by rewrite E|by rewrite E].
  - split; [by right|]. split.
    + intros st i' _ Hi'. rewrite E2 in Hi'. injection Hi' as <-. rewrite (spawn_next _ _ _ Hs). cbn. rewrite En. cbn. lia.
    + intros Ht Hs1. rewrite E1, E2. eexists. split; [done|]. cbn. rewrite Hn1 by done. split; [done|].
      rewrite Hr. unfold rank. cbn. rewrite En. pose proof (attempts_cost_next (m_policy m) (a - 1)) as Hcost.
      replace (a - 1 + 1) with a in Hcost by lia. lia.
Qed.

Lemma check_phase a pid ch : next = Starting a (Some pid) -> 1 <= a <= max_restart_attempts (m_policy m) ->
  i_child i = Some ch -> pid = ch_pid ch -> attempts_of (m_policy m) (i_state i) = a ->
  rank (m_policy m) t i > attempts_cost (m_policy m) a + 3 ->
  (t <= now -> i_state_since i <= t -> now - i_state_since i < health_check_window (m_policy m) ->
   rank (m_policy m) t i > attempts_cost (m_policy m) a + 4 + checks_left (m_policy m) (now + READINESS_GAP - since)) ->
  step_spec t now m i site (let '(st, m'') := do_health_check sys site (i_state_since i) now m' in (Ok st, m'')).
Proof using All.
  intros En Hb Hc Hpid Hat Hr Hl.
  destruct (do_health_check_step sys site m m' i _ since Hi Hok Hh He Hp Ha Hn a pid ch (i_state_since i) now En Hb Hc Hpid) as (Hq & i' & Ei & Hch).
  destruct (do_health_check _ _ _ _ _) as [st m'']. cbn [fst snd] in *. apply quiet_spec; [done|..]; cbn [fst snd]; rewrite Ei.
  - intros _ j _ [= <-]. destruct Hch as (Es' & _). rewrite Hat, Es', En. done.
  - intros Ht Hs. eapply checked_progress; [exact En|exact Hch| |exact Hr|by apply Hl].
    destruct (decide (next = i_state i)) as [E|E]; [rewrite Hn2 by done; lia|by rewrite Hn1].
Qed.

Lemma kill_phase a p e : next = i_state i -> i_state i = Starting a (Some p) -> i_pending i = HealthCheckTick e ->
  1 <= a <= max_restart_attempts (m_policy m) -> health_check_window (m_policy m) <= e ->
  step_spec t now m i site (do_kill sys site Term m').
Proof using All.
  intros En Es Ep Hb Hw. assert (next = Starting a (Some p)) as En' by congruence.
  destruct (do_kill_step sys site m m' i _ since Hi Hok Hh He Hp Ha Hn a p e En' Hb Hw Ep) as (Hq & Hst).
  apply quiet_spec; [done|..].
  - intros st i' E Hi'. destruct (Hst st E) as (_ & j & Hj & Ej & _). rewrite Hj in Hi'. injection Hi' as <-. by rewrite Ej, En.
  - intros Ht Hs. destruct (do_kill sys site Term m') as [[st|err] m'']; [|done]. cbn [fst snd] in *.
    destruct (Hst st eq_refl) as (-> & i' & Ei & Es' & Ep' & Et'). exists i'. split; [done|]. rewrite Et', Hn2 by done. split; [lia|].
    unfold rank. rewrite Es', Ep', En', Es, Ep. assert (e <? health_check_window (m_policy m) = false) as -> by (apply N.ltb_ge; lia). lia.
Qed.

Lemma still_phase r : next = i_state i -> (forall st, r <> Ok st) \/ (r = Ok Ready /\ exists pid, next = Running pid) ->
  step_spec t now m i site (r, m').
Proof using All.
  intros En Hr. assert (m_instances m' !! site = Some i) as Hh' by (rewrite Hh, Hn2, En by done; by rewrite put_state_same).
  apply quiet_spec; cbn [fst snd]; [by eapply same_quiet|..]; rewrite Hh'.
  - intros st j _ [= <-]. done.
  - intros _ _. destruct Hr as [Hr|(-> & pid & Er)]; [by destruct r; [destruct (Hr a)|]|]. exists i. split; [done|]. exists pid. congruence.
Qed.
End Phases.

Lemma advance_step sys now t site m i :
  m_instances m !! site = Some i -> inst_ok (m_policy m) i -> step_spec t now m i site (advance sys now site m).
Proof.
  intros Hi Hok. unfold advance. rewrite Hi. destruct (transition _ _ _) as [next action] eqn:Et.
  destruct (recorded site next now m i Hi) as (since & Hh & Hn1 & Hn2 & He & Hp & Ha & Hn). cbn zeta in *.
  set (m' := if bool_decide (next = i_state i) then m else _) in *. clearbody m'.
  pose proof (ok_phase _ _ Hok) as Hph.
  inversion Hph as [Hmax Es Ep Ec|a e Hev Hb Es Ep Ec|a ch Hb Es Ep Ec|a e ch Hb Es Ep Ec|a ch Hb Es Ep Ec|a p r Hb Es Ep Ec|a p e Hw Hb Es Ep Ec|rr a Hb Es Ep Ec|ch Es Ep Ec];
    rewrite <- Es, <- Ep in Et; cbn [transition] in Et.
  - injection Et as <- <-. eapply (spawn_phase sys now t site m m' i _ since) with (a := 1); eauto; try lia; [congruence|by rewrite <- Es|].
    unfold rank. by rewrite <- Es.
  - assert (next = i_state i /\ action = NoAction) as (En & ->) by (destruct Hev as [E|E]; rewrite Ep, E in Et; injection Et as <- <-; split; congruence).
    eapply still_phase; eauto. left. rewrite En, <- Es. done.
  - injection Et as <- <-. eapply (check_phase sys now t site m m' i _ since) with (a := a) (ch := ch); eauto; [by rewrite <- Es|..];
      unfold rank; rewrite <- Es, <- Ep; unfold attempt_cost; [lia|]. intros _ _ _.
    pose proof (checks_left_mono (m_policy m) 0 (now + READINESS_GAP - since)). lia.
  - assert (rank (m_policy m) t i = if e <? health_check_window (m_policy m) then attempts_cost (m_policy m) a + 4 + checks_left (m_policy m) (t - i_state_since i) else attempts_cost (m_policy m) a + 3) as Hr.
    { unfold rank. by rewrite <- Es, <- Ep. }
    destruct (e <? health_check_window (m_policy m)) eqn:Ew; bprop; injection Et as <- <-; [|eapply kill_phase; eauto].
    eapply (check_phase sys now t site m m' i _ since) with (a := a) (ch := ch); eauto; [by rewrite <- Es|lia|]. intros Ht Hs Hlt. rewrite Hr, Hn2 by done.
    pose proof (checks_left_step (m_policy m) (t - i_state_since i) (now + READINESS_GAP - i_state_since i)). lia.
  - injection Et as <- <-. apply quiet_spec; cbn [fst snd]; rewrite ?Hh.
    + apply (quiet_kept site m i Hi m' (put_state (Running (ch_pid ch)) since i)); try done.
      split; [cbn; rewrite <- Ep, <- Ec; by apply ph_running|]. apply (ok_url _ _ Hok).
    + intros _ j _ [= <-]. rewrite <- Es. cbn. lia.
    + intros _ _. eexists; split; [done|by eexists].
  - injection Et as <- <-. apply quiet_spec; cbn; rewrite ?lookup_alter_eq, ?Hh.
    + eapply (quiet_kept site m i Hi); cbn; rewrite ?lookup_alter_eq, ?Hh; try done; [intros s Hs; by rewrite lookup_alter_ne, He|].
      split; [cbn; rewrite <- Ec; by apply ph_waiting|done].
    + intros _ j _ [= <-]. by rewrite <- Es.
    + intros Ht Hs. eexists. split; [done|]. cbn. rewrite Hn1 by congruence. split; [done|]. unfold rank. cbn. rewrite <- Es, <- Ep. lia.
  - assert (e <? health_check_window (m_policy m) = false) as Ew by (apply N.ltb_ge; lia). rewrite Ew in Et. injection Et as <- <-.
    eapply kill_phase; eauto.
  - destruct (a <? max_restart_attempts (m_policy m)) eqn:Ew; bprop; injection Et as <- <-.
    + eapply (spawn_phase sys now t site m m' i _ since) with (a := a + 1); eauto; try lia; [congruence|by rewrite <- Es|].
      unfold rank. rewrite <- Es. by replace (a + 1 - 1) with a by lia.
    + eapply still_phase; eauto.
  - injection Et as <- <-. eapply still_phase; eauto.
Qed.

(** *** Every operation preserves the invariant *)

Lemma new_manager_wf : wf new_manager.
Proof.
  split; [done|..]; cbn.
  - intros s i. by rewrite lookup_empty.
  - by intros h s c ?%elem_of_nil.
  - by intros h s c s' c' ?%elem_of_nil.
  - intros s i ch. by rewrite lookup_empty.
  - by intros h s c ?%elem_of_nil.
Qed.

Lemma advance_wf sys now site m : wf m -> wf (advance sys now site m).2.
Proof.
  intros W. destruct (m_instances m !! site) as [i|] eqn:Hi; [|unfold advance; by rewrite Hi].
  destruct (advance_step sys now 0 site m i Hi (wf_inst m W site i Hi)) as ([Hq|[Hs _]] & _ & _); [by eapply quiet_wf|by eapply spawn_wf].
Qed.

(** Notes of what was seen change nothing. *)
Lemma noted_wf a m : wf m -> no_spawn a -> wf (put_acts a m).
Proof.
  intros W Ha. split; cbn.
  - apply (wf_policy m W).
  - apply (wf_inst m W).
  - intros h s c Hs%spawned_app; [|done]. by apply (wf_fresh m W h s c).
  - intros h s c s' c' H1%spawned_app H2%spawned_app; [|done..]. by apply (wf_once m W h).
  - intros s i ch Hi Hc. destruct (wf_held m W s i ch Hi Hc) as (c & ?). exists c. apply elem_of_app. by left.
  - intros h s c Hs%spawned_app; [|done]. destruct (wf_known m W h s c Hs) as [?|?]; [left; by apply gone_mono|by right].
Qed.

Lemma delete_quiet site m : (forall i ch, m_instances m !! site = Some i -> i_child i = Some ch -> gone (m_acts m) (ch_handle ch)) ->
  quiet_step site m (set_instances (delete site) m).
Proof.
  intros Hg. apply (mkQuiet _ _ _ [] None); [|by constructor|done|done]. split; cbn; try done.
  - by rewrite app_nil_r.
  - by rewrite lookup_delete_eq.
  - intros s Hs. by rewrite lookup_delete_ne by done.
  - intros i ch Hi Hc. right. by eapply Hg.
Qed.

Lemma stop_quiet sys site m : quiet_step site m (stop sys site m).2.
Proof.
  unfold stop. destruct (m_instances m !! site) as [i|] eqn:Hi.
  2: { apply (mkQuiet _ _ _ [] None); [|by constructor|done|done]. split; try done; [by rewrite app_nil_r|]. intros i ch. congruence. }
  destruct (i_child i) as [ch|] eqn:Hc.
  2: { cbn. apply delete_quiet. intros j ch Hj Hcj. congruence. }
  pose proof (kill_and_reap_quiet sys ch Term) as Hq. pose proof (kill_and_reap_gone sys ch Term (m_acts m)) as Hg.
  destruct (kill_and_reap sys ch Term) as [r a]. cbn [snd] in *. apply (mkQuiet _ _ _ a None); [|done|done|done]. split; cbn; try done.
  - by rewrite lookup_delete_eq.
  - intros s Hs. by rewrite lookup_delete_ne by done.
  - intros j ch' Hj Hcj. right. congruence.
Qed.

Lemma stop_wf sys site m : wf m -> wf (stop sys site m).2.
Proof. intros W. eapply quiet_wf; [done|apply stop_quiet]. Qed.

Lemma stop_all_wf sys sites e m : wf m -> wf (stop_all sys sites e m).2.
Proof.
  revert e m. induction sites as [|s sites IH]; intros e m W; cbn; [done|].
  pose proof (stop_wf sys s m W). destruct (stop sys s m) as [r m']. by apply IH.
Qed.

Lemma shutdown_wf sys m : wf m -> wf (shutdown sys m).2.
Proof. intros W. unfold shutdown. pose proof (stop_all_wf sys (btree_iter (m_instances m)).*1 None m W). by destruct (stop_all _ _ _ _). Qed.

Lemma snapshot_quiet sys e : no_spawn (snapshot sys e).2.
Proof.
  unfold snapshot. destruct e as [site inst]. destruct (i_child inst) as [ch|]; [|by constructor].
  pose proof (try_wait_quiet sys ch) as H. destruct (try_wait sys ch) as [r a]. done.
Qed.

Lemma snapshots_wf sys m : wf m -> wf (snapshots sys m).2.
Proof.
  intros W. apply noted_wf; [done|]. unfold no_spawn. apply Forall_join, Forall_fmap, Forall_fmap, Forall_forall.
  intros e _. apply snapshot_quiet.
Qed.

(** The instance [begin] registers. *)
Definition fresh_instance (now : N) (spec : LaunchSpec) (kind : TunnelKind) (hostname : option str) : Instance_ :=
  mkInstance Stopped now EnsureRequested kind spec None hostname false None.

Lemma register_quiet site now spec kind hostname m : 1 <= max_restart_attempts (m_policy m) ->
  (forall i ch, m_instances m !! site = Some i -> i_child i = Some ch -> gone (m_acts m) (ch_handle ch)) ->
  quiet_step site m (set_instances (insert site (fresh_instance now spec kind hostname)) m).
Proof.
  intros Hm Hg. apply (mkQuiet _ _ _ [] (Some (fresh_instance now spec kind hostname))); [|by constructor|done|by intros ? ? [= <-]].
  split; cbn; try done.
  - by rewrite app_nil_r.
  - by rewrite lookup_insert_eq.
  - intros s Hs. by rewrite lookup_insert_ne by done.
  - intros ? [= <-]. split; [by apply ph_new|done].
  - intros i ch Hi Hc. right. by eapply Hg.
Qed.

(** [begin] leaves a live or starting tunnel alone, or registers an instance in a
    manager whose earlier child of the site is gone, and takes its first step. *)
Definition first_step (site : str) (r : result TunnelError Step * Manager) : result TunnelError bool * Manager :=
  match r with
  | (Err e, m) => (Err e, set_instances (delete site) (put_acts (drops (m_instances m !! site ≫= i_child)) m))
  | (Ok _, m) => (Ok true, m)
  end.

Lemma begin_cases sys now now' site spec kind hostname m : wf m ->
  (exists a i, begin sys now now' site spec kind hostname m = (Ok false, put_acts a m) /\ no_spawn a /\ m_instances m !! site = Some i) \/
  (exists m3, wf m3 /\ (m_next m3 = m_next m /\ forall h s c, Spawned h s c ∈ m_acts m3 -> Spawned h s c ∈ m_acts m) /\
     m_instances m3 !! site = Some (fresh_instance now spec kind hostname) /\
     begin sys now now' site spec kind hostname m = first_step site (advance sys now' site m3)).
Proof.
  intros W. unfold begin. set (chk := match m_instances m !! site ≫= i_child with Some ch => _ | None => _ end).
  assert (no_spawn chk.2 /\ (chk.1 = false -> forall i ch, m_instances m !! site = Some i -> i_child i = Some ch -> Exited (ch_handle ch) ∈ chk.2)) as (Hq & Hx).
  { unfold chk. destruct (m_instances m !! site) as [i|]; cbn; [|by split; [constructor|]].
    destruct (i_child i) as [ch|] eqn:Hc; cbn; [|split; [constructor|]; intros _ j ch [= <-]; congruence].
    unfold try_wait. destruct (sys_try_wait _ _) as [[r|]|]; cbn; (split; [by repeat constructor|]); try done.
    intros _ j ch' [= <-] E. rewrite Hc in E. injection E as <-. by left. }
  destruct chk as [alive a]. cbn [fst snd] in *. cbn zeta. pose proof (noted_wf a m W Hq) as W1.
  destruct (match m_instances m !! site with Some i => alive || is_in_progress (i_state i) | None => false end) eqn:Hlive.
  { left. destruct (m_instances m !! site) as [i|]; [|done]. by exists a, i. }
  right. set (made := match path_parent (logfile spec) with Some parent => _ | None => _ end).
  assert (no_spawn (made ++ drops (m_instances m !! site ≫= i_child))) as Hq2.
  { apply no_spawn_app; [|apply drops_quiet]. unfold made. by destruct (path_parent _); repeat constructor. }
  pose proof (noted_wf _ _ W1 Hq2) as W2. set (m2 := put_acts _ (put_acts a m)) in *.
  exists (set_instances (insert site (fresh_instance now spec kind hostname)) m2).
  split; [|split; [split; [done|]|split; [cbn; by rewrite lookup_insert_eq|done]]].
  2: { intros h s c Hin. do 2 (apply spawned_app in Hin; [|done]). done. }
  eapply quiet_wf; [done|]. apply register_quiet; [rewrite (wf_policy m2 W2); done|].
  intros i ch Hi Hc. cbn in Hi. rewrite Hi in Hlive. apply orb_false_iff in Hlive as [-> _].
  left. cbn. apply elem_of_app. left. apply elem_of_app. right. by eapply Hx.
Qed.

Lemma begin_wf sys now now' site spec kind hostname m : wf m -> wf (begin sys now now' site spec kind hostname m).2.
Proof.
  intros W. destruct (begin_cases sys now now' site spec kind hostname m W) as [(a & i & -> & Ha & _)|(m3 & W3 & _ & Hi3 & ->)]; [by apply noted_wf|].
  destruct (advance_step sys now' 0 site m3 _ Hi3 (wf_inst m3 W3 site _ Hi3)) as (Hst & _).
  pose proof (advance_wf sys now' site m3 W3) as W4. destruct (advance sys now' site m3) as [[st|e] m4]; cbn [fst snd first_step] in *; [done|].
  destruct Hst as [Hq4|[_ ?]]; [|done]. set (n := put_acts _ m4). assert (wf n) as Wn by (apply noted_wf; [done|apply drops_quiet]).
  eapply quiet_wf; [done|]. apply delete_quiet. intros i ch Hi Hc. cbn in Hi.
  destruct Hq4 as [a4 oi [_ _ Hh _ _ _] _ _ Hch]. rewrite Hh in Hi. destruct (Hch i ch Hi Hc) as (j & Hj & Hcj).
  rewrite Hi3 in Hj. injection Hj as <-. done.
Qed.

(** ** Reachable managers *)

Inductive manager_step (m : Manager) : Manager -> Prop :=
| ms_begin sys now now' site spec kind hostname : manager_step m (begin sys now now' site spec kind hostname m).2
| ms_advance sys now site : manager_step m (advance sys now site m).2
| ms_stop sys site : manager_step m (stop sys site m).2
| ms_shutdown sys : manager_step m (shutdown sys m).2
| ms_snapshots sys : manager_step m (snapshots sys m).2.

Definition manager_reachable (m : Manager) : Prop := rtc manager_step new_manager m.

Lemma manager_step_wf m m' : wf m -> manager_step m m' -> wf m'.
Proof. intros W []; auto using begin_wf, advance_wf, stop_wf, shutdown_wf, snapshots_wf. Qed.

Lemma manager_reachable_wf m : manager_reachable m -> wf m.
Proof.
  intros Hr. assert (forall x y, rtc manager_step x y -> wf x -> wf y) as H.
  { induction 1 as [|x y z Hs _ IH]; [done|]. intros W. by eapply IH, manager_step_wf. }
  eapply H; [exact Hr|apply new_manager_wf].
Qed.

Lemma stop_removes sys site m : m_instances (stop sys site m).2 = delete site (m_instances m).
Proof.
  unfold stop. destruct (m_instances m !! site) as [i|] eqn:E; [|cbn; by rewrite delete_id].
  destruct (i_child i); [|done]. by destruct (kill_and_reap _ _ _).
Qed.

Lemma stop_all_removes sys sites e m s : m_instances (stop_all sys sites e m).2 !! s = if bool_decide (s ∈ sites) then None else m_instances m !! s.
Proof.
  revert e m. induction sites as [|x sites IH]; intros e m; cbn; [done|].
  pose proof (stop_removes sys x m) as Hx. destruct (stop sys x m) as [r m']. cbn in Hx. rewrite IH, Hx.
  destruct (decide (s = x)) as [->|Hne].
  - rewrite lookup_delete_eq. rewrite (bool_decide_true (x ∈ x :: sites)) by set_solver. by case_bool_decide.
  - rewrite lookup_delete_ne by done. repeat case_bool_decide; set_solver.
Qed.

Lemma shutdown_empty sys m : m_instances (shutdown sys m).2 = ∅.
Proof.
  unfold shutdown. pose proof (stop_all_removes sys (btree_iter (m_instances m)).*1 None m) as H.
  destruct (stop_all _ _ _ _) as [e m']. cbn in *. apply map_eq. intros s. rewrite H, lookup_empty. case_bool_decide as E; [done|].
  destruct (m_instances m !! s) as [i|] eqn:Ei; [|done]. exfalso. apply E, list_elem_of_fmap. exists (s, i). split; [done|].
  by apply elem_of_btree_iter.
Qed.

(** No instance, no child. *)
Lemma no_instance_gone m site h cmd : wf m -> m_instances m !! site = None -> Spawned h site cmd ∈ m_acts m -> gone (m_acts m) h.
Proof. intros W Hn Hs. destruct (wf_known m W h site cmd Hs) as [?|(i & ch & Hi & _)]; [done|congruence]. Qed.

(** C22. Whatever starts, steps, stops and looks the daemon interleaves, and whatever
    the system answers to them, there is at most one cloudflared per site: of two
    children started for a site, one is no longer running.  After a stop none of the
    site is running, after a shutdown none at all, and a quick tunnel that is up has an
    address below trycloudflare.com. *)
Theorem one_child_per_site m :
  manager_reachable m ->
  (forall site h1 c1 h2 c2, Spawned h1 site c1 ∈ m_acts m -> Spawned h2 site c2 ∈ m_acts m -> h1 <> h2 -> gone (m_acts m) h1 \/ gone (m_acts m) h2) /\
  (forall sys site h c, let m' := (stop sys site m).2 in Spawned h site c ∈ m_acts m' -> gone (m_acts m') h) /\
  (forall sys site h c, let m' := (shutdown sys m).2 in Spawned h site c ∈ m_acts m' -> gone (m_acts m') h) /\
  (forall site i pid, m_instances m !! site = Some i -> i_state i = Running pid -> i_kind i = Quick ->
     exists label, i_url i = Some (quick_url label) /\ label <> []).
Proof.
  intros W%manager_reachable_wf. split; [|split; [|split]].
  - intros site h1 c1 h2 c2 H1 H2 Hne.
    destruct (wf_known m W _ _ _ H1) as [?|(i1 & ch1 & Hi1 & Hc1 & E1)]; [by left|].
    destruct (wf_known m W _ _ _ H2) as [?|(i2 & ch2 & Hi2 & Hc2 & E2)]; [by right|]. congruence.
  - intros sys site h c m' Hs. eapply no_instance_gone; [by apply stop_wf| |exact Hs]. unfold m'. by rewrite stop_removes, lookup_delete_eq.
  - intros sys site h c m' Hs. eapply no_instance_gone; [by apply shutdown_wf| |exact Hs]. unfold m'. by rewrite shutdown_empty, lookup_empty.
  - intros site i pid Hi Hst Hk. destruct (wf_inst m W site i Hi) as [Hp Hu]. apply Hu; [|done].
    inversion Hp; congruence.
Qed.

(** ** Driving a start

    The loop of [run_to_ready]: the lock is taken for a step and released for a
    sleep.  [envs k] is what the system answers to the [k]-th step and [delay k] the
    time everything but the sleeps takes before it. *)

Inductive StartEnd := AlreadyStarted | StartReady | StartGone | StartFailed (e : TunnelError).

Section Start.
Context (envs : nat -> Sys) (delay : nat -> N) (site : str).

Fixpoint drive (fuel : nat) (k : nat) (t : N) (m : Manager) : option (StartEnd * Manager) :=
  match fuel with
  | O => None
  | S fuel' =>
      let now := t + delay k in
      match advance (envs k) now site m with
      | (Ok Continue, m) => drive fuel' (S k) now m
      | (Ok (Sleep d), m) => drive fuel' (S k) (now + d) m
      | (Ok Ready, m) => Some (StartReady, m)
      | (Ok Gone, m) => Some (StartGone, m)
      | (Err e, m) => Some (StartFailed e, (stop (envs k) site m).2)
      end
  end.

Definition start (fuel : nat) (spec : LaunchSpec) (kind : TunnelKind) (hostname : option str) (t : N) (m : Manager)
    : option (StartEnd * Manager) :=
  match begin (envs 0) t (t + delay 0) site spec kind hostname m with
  | (Ok false, m) => Some (AlreadyStarted, m)
  | (Err e, m) => Some (StartFailed e, m)
  | (Ok true, m) => drive fuel 1 (t + delay 0) m
  end.

(** What the end of a start leaves, from a manager that had spawned [n] children. *)
Definition start_result (n : N) (r : StartEnd) (m : Manager) : Prop :=
  m_next m <= n + max_restart_attempts policy_tunnel /\
  match r with
  | AlreadyStarted => exists i, m_instances m !! site = Some i
  | StartReady => exists i pid ch, m_instances m !! site = Some i /\ i_state i = Running pid /\ i_child i = Some ch /\ ch_pid ch = pid /\ ready_url i
  | StartGone => False
  | StartFailed _ => m_instances m !! site = None /\ forall h c, Spawned h site c ∈ m_acts m -> gone (m_acts m) h
  end.

Lemma stop_next sys s m : m_next (stop sys s m).2 = m_next m.
Proof. apply (quiet_next s), stop_quiet. Qed.

Lemma drive_ends fuel k t m i n : wf m -> m_instances m !! site = Some i -> i_state_since i <= t ->
  rank policy_tunnel t i < N.of_nat fuel -> m_next m <= n + attempts_of policy_tunnel (i_state i) ->
  exists r m', drive fuel k t m = Some (r, m') /\ wf m' /\ start_result n r m'.
Proof.
  revert k t m i. induction fuel as [|fuel IH]; intros k t m i W Hi Hs Hr Hn; [lia|]. cbn [drive].
  destruct (advance_step (envs k) (t + delay k) t site m i Hi (wf_inst m W site i Hi)) as (Hstep & Hb & Hp).
  specialize (Hp ltac:(lia) Hs). unfold within_budget in Hb. rewrite (wf_policy m W) in Hp, Hb.
  pose proof (advance_wf (envs k) (t + delay k) site m W) as W'. pose proof (attempts_bound _ _ (wf_inst m W site i Hi)) as Hmax.
  rewrite (wf_policy m W) in Hmax. destruct (advance (envs k) (t + delay k) site m) as [[st|e] m']; cbn [fst snd] in *.
  - assert (forall j, m_instances m' !! site = Some j -> m_next m' <= n + attempts_of policy_tunnel (i_state j)) as Hn'.
    { intros j Hj. specialize (Hb st j eq_refl Hj). lia. }
    destruct st as [|d| |]; cbn [progress] in Hp; [| | |done].
    + destruct Hp as (i' & Hi' & Hs' & Hr'). apply (IH (S k) _ m' i'); auto; lia.
    + destruct Hp as (i' & Hi' & Hs' & Hr'). apply (IH (S k) _ m' i'); auto; lia.
    + destruct Hp as (i' & Hi' & pid & Est). eexists _, _. split; [done|]. split; [done|]. split.
      * pose proof (attempts_bound _ _ (wf_inst m' W' site i' Hi')) as Hm. rewrite (wf_policy m' W') in Hm. specialize (Hn' i' Hi'). lia.
      * destruct (wf_inst m' W' site i' Hi') as [Hph Hu]. inversion Hph; try congruence. exists i', pid, ch.
        split; [done|]. split; [done|]. split; [done|]. split; [congruence|done].
  - eexists _, _. split; [done|]. pose proof (stop_wf (envs k) site m' W') as W2. split; [done|]. split.
    + rewrite stop_next. destruct Hstep as [Hq|[_ ?]]; [|done]. rewrite (quiet_next _ _ _ Hq). lia.
    + assert (m_instances (stop (envs k) site m').2 !! site = None) as Hnone by by rewrite stop_removes, lookup_delete_eq.
      split; [done|]. intros h c. by apply no_instance_gone.
Qed.
End Start.

(** Enough steps for any start: three attempts of at most 400 checks. *)
Definition START_FUEL : nat := 1217.

Lemma first_step_continues sys now site m t spec kind hostname st : m_instances m !! site = Some (fresh_instance t spec kind hostname) ->
  (advance sys now site m).1 = Ok st -> st = Continue \/ st = Gone.
Proof.
  intros Hi. unfold advance. rewrite Hi. cbn [i_state i_pending fresh_instance transition i_state_since].
  rewrite bool_decide_false by done. unfold do_spawn. destruct (m_instances (update _ _ _) !! site); [|intros [= <-]; by right].
  destruct (build_cmd sys _) as [[cmd|e] b]; [|done]. destruct (sys_spawn sys cmd); [|done]. intros [= <-]. by left.
Qed.

Lemma begin_result sys t now site spec kind hostname m : wf m -> t <= now ->
  match begin sys t now site spec kind hostname m with
  | (Ok false, m') => m_next m' = m_next m /\ exists i, m_instances m' !! site = Some i
  | (Ok true, m') => exists i, m_instances m' !! site = Some i /\ i_state_since i <= now /\
      rank policy_tunnel now i < N.of_nat START_FUEL /\ m_next m' <= m_next m + attempts_of policy_tunnel (i_state i)
  | (Err _, m') => m_next m' = m_next m /\ m_instances m' !! site = None
  end.
Proof.
  intros W Ht. destruct (begin_cases sys t now site spec kind hostname m W) as [(a & i & -> & Ha & Hi)|(m3 & W3 & (Hn3 & _) & Hi3 & ->)]; [by eauto|].
  destruct (advance_step sys now t site m3 _ Hi3 (wf_inst m3 W3 site _ Hi3)) as (Hst & Hb & Hp).
  specialize (Hp Ht ltac:(done)). unfold within_budget in Hb. rewrite (wf_policy m3 W3) in Hp, Hb.
  pose proof (fun st => first_step_continues sys now site m3 t spec kind hostname st Hi3) as Hfirst.
  destruct (advance sys now site m3) as [[st|e] m4]; cbn [fst snd first_step] in *; [specialize (Hfirst st eq_refl)|].
  2: { destruct Hst as [Hq|[_ ?]]; [|done]. cbn. rewrite (quiet_next _ _ _ Hq), lookup_delete_eq. done. }
  destruct Hfirst as [->| ->]; [|done]. destruct Hp as (i' & Hi' & Hs' & Hr'). exists i'. split; [done|]. split; [done|]. split.
  - change (rank policy_tunnel t (fresh_instance t spec kind hostname)) with 1216 in Hr'. unfold START_FUEL. lia.
  - specialize (Hb _ _ eq_refl Hi'). cbn in Hb. cbn. lia.
Qed.

Lemma start_total m envs delay site spec kind hostname t : wf m ->
  exists r m', start envs delay site START_FUEL spec kind hostname t m = Some (r, m') /\ wf m' /\ start_result site (m_next m) r m'.
Proof.
  intros W. unfold start.
  pose proof (begin_result (envs 0%nat) t (t + delay 0%nat) site spec kind hostname m W ltac:(lia)) as Hr.
  pose proof (begin_wf (envs 0%nat) t (t + delay 0%nat) site spec kind hostname m W) as Wb.
  destruct (begin _ _ _ _ _ _ _ _) as [[[]|e] m1]; cbn [snd] in Wb.
  - destruct Hr as (i & Hi & Hs & Hrk & Hn). by eapply drive_ends.
  - destruct Hr as (Hn & Hi). eexists _, _. split; [done|]. split; [done|]. split; [rewrite Hn; lia|done].
  - destruct Hr as (Hn & Hi). eexists _, _. split; [done|]. split; [done|]. split; [rewrite Hn; lia|].
    split; [done|]. intros h c. by apply no_instance_gone.
Qed.

(** C21. A start ends: whatever cloudflared does and however long everything takes, it
    is over after at most 1217 steps of the loop and three processes.  Then the tunnel
    is up, held with the process id shown and, for a quick tunnel, its address; or the
    start has failed, the site has no tunnel and no process of it is left. *)
Theorem start_ends m envs delay site spec kind hostname t :
  manager_reachable m ->
  exists r m', start envs delay site START_FUEL spec kind hostname t m = Some (r, m') /\ wf m' /\ start_result site (m_next m) r m'.
Proof. intros W%manager_reachable_wf. by apply start_total. Qed.

(** *** A run: a quick tunnel is started, stopped and started again *)

Definition sample_spec : LaunchSpec := mkSpec "/opt/cloudflared"%str ["tunnel"%str] [("HOME"%str, "/data/tunnel"%str)] "/state/tunnel/app.log"%str.
Definition sample_sys : Sys :=
  mkSys (fun _ => Ok tt) (fun _ => Ok tt) (fun _ => Ok tt) (fun _ => Ok 4711) (fun _ => Ok None) (fun _ _ => Ok tt) (fun _ => true)
    (fun _ => Some banner).
Definition sample_begun : Manager := (begin sample_sys 0 0 "app"%str sample_spec Quick None new_manager).2.
Definition sample_stopped : Manager := (stop sample_sys "app"%str sample_begun).2.
Definition sample_again : Manager := (begin sample_sys 7 8 "app"%str sample_spec Quick None sample_stopped).2.

Lemma sample_reachable : manager_reachable sample_again.
Proof.
  unfold manager_reachable. eapply rtc_l; [apply (ms_begin new_manager sample_sys 0 0 "app"%str sample_spec Quick None)|].
  eapply rtc_l; [apply (ms_stop _ sample_sys "app"%str)|].
  eapply rtc_l; [apply (ms_begin _ sample_sys 7 8 "app"%str sample_spec Quick None)|]. apply rtc_refl.
Qed.

Lemma one_child_per_site_witness :
  manager_reachable sample_again /\ (gone (m_acts sample_again) 0 \/ gone (m_acts sample_again) 1).
Proof.
  split; [apply sample_reachable|].
  apply (proj1 (one_child_per_site sample_again sample_reachable) "app"%str 0 (command_of sample_spec) 1 (command_of sample_spec)); [..|done];
    apply list_elem_of_In; vm_compute; auto 20.
Defined.

Lemma start_ends_witness :
  manager_reachable new_manager /\
  exists r m', start (fun _ => sample_sys) (fun _ => 5) "app"%str START_FUEL sample_spec Quick None 0 new_manager = Some (r, m') /\
    wf m' /\ start_result "app"%str 0 r m'.
Proof.
  split; [apply rtc_refl|].
  apply (start_ends new_manager (fun _ => sample_sys) (fun _ => 5) "app"%str sample_spec Quick None 0). apply rtc_refl.
Defined.

(** With the banner in the log the tunnel is up. *)
Lemma sample_ready :
  match start (fun _ => sample_sys) (fun _ => 5) "app"%str START_FUEL sample_spec Quick None 0 new_manager with
  | Some (StartReady, m') => i_url <$> m_instances m' !! "app"%str = Some (Some (quick_url "calm-river-1234"%str))
  | _ => False
  end.
Proof. by vm_compute. Qed.

(** ** What is run *)

Lemma update_spec site f m s i : (forall j, i_spec (f j) = i_spec j) ->
  m_instances (update site f m) !! s = Some i -> exists j, m_instances m !! s = Some j /\ i_spec i = i_spec j.
Proof.
  intros Hf. cbn. destruct (decide (s = site)) as [->|Hne]; [|rewrite lookup_alter_ne by done; eauto].
  rewrite lookup_alter_eq. destruct (m_instances m !! site) as [j|]; [|done]. intros [= <-]. exists j. by rewrite Hf.
Qed.

(** No step changes what an instance runs. *)
Definition same_specs (m m' : Manager) : Prop :=
  forall s i, m_instances m' !! s = Some i -> exists j, m_instances m !! s = Some j /\ i_spec i = i_spec j.

Lemma same_specs_eq m m' : m_instances m' = m_instances m -> same_specs m m'.
Proof. intros E s i Hi. rewrite E in Hi. eauto. Qed.
Lemma same_specs_trans m1 m2 m3 : same_specs m1 m2 -> same_specs m2 m3 -> same_specs m1 m3.
Proof. intros H1 H2 s i (j & Hj & E)%H2. apply H1 in Hj as (k & Hk & E'). exists k. split; [done|congruence]. Qed.
Lemma same_specs_alter site f m m' : m_instances m' = alter f site (m_instances m) -> (forall j, i_spec (f j) = i_spec j) -> same_specs m m'.
Proof. intros E Hf s i. rewrite E. by apply (update_spec site f m). Qed.
Ltac specs_kept := eapply same_specs_alter; [reflexivity|done].

Lemma advance_specs sys now site m : same_specs m (advance sys now site m).2.
Proof.
  unfold advance. destruct (m_instances m !! site) as [i|]; [|by apply same_specs_eq].
  destruct (transition _ _ _) as [next action]. set (m' := if bool_decide _ then m else _).
  assert (same_specs m m') as Hm by (unfold m'; case_bool_decide; [by apply same_specs_eq|specs_kept]).
  eapply same_specs_trans; [exact Hm|]. clearbody m'. destruct action as [| | |w|sig|[]]; try by apply same_specs_eq.
  - unfold do_spawn. destruct (m_instances m' !! site); [|by apply same_specs_eq].
    destruct (build_cmd _ _) as [[cmd|] b]; [|by apply same_specs_eq]. destruct (sys_spawn _ _); [|by apply same_specs_eq].
    specs_kept.
  - unfold do_health_check. destruct (match m_instances m' !! site ≫= i_child with Some ch => _ | None => _ end) as [[[ch r]|] a].
    { specs_kept. }
    cbn zeta. destruct (m_instances (put_acts a m') !! site); [|by apply same_specs_eq].
    destruct (i_kind _); [destruct (parse_quick_url _) as [l|]|destruct (is_named_ready _)]; try (specs_kept).
    apply (same_specs_trans _ (update site (put_url (Some l)) (put_acts a m'))); specs_kept.
  - specs_kept.
  - unfold do_kill. destruct (match m_instances m' !! site ≫= i_child with Some ch => _ | None => _ end) as [[[]|e] a]; [|specs_kept].
    apply (same_specs_trans _ (update site (put_child None) m')); specs_kept.
Qed.

(** What a step spawns is the command of the instance it steps. *)
Lemma advance_spawns sys now site m h s c : wf m -> Spawned h s c ∈ m_acts (advance sys now site m).2 ->
  Spawned h s c ∈ m_acts m \/ (s = site /\ exists i, m_instances m !! site = Some i /\ c = command_of (i_spec i)).
Proof.
  intros W. destruct (m_instances m !! site) as [i|] eqn:Hi; [|unfold advance; rewrite Hi; by left].
  destruct (advance_step sys now 0 site m i Hi (wf_inst m W site i Hi)) as ([Hq|[Hs _]] & _).
  - destruct Hq as [a oi [_ Ha _ _ _ _] Hn _ _]. rewrite Ha. intros H%spawned_app; [by left|done].
  - destruct Hs as [b cmd a inst ch [_ Ha _ _ _ _] Hn _ _ (j & Hj & ->)]. rewrite Ha, elem_of_app, elem_of_app, elem_of_cons.
    unfold no_spawn in Hn. rewrite Forall_forall in Hn.
    intros [?|[H|[[= -> -> ->]|H]]]; [by left| |right; split; [done|]; exists i; split; [done|]; congruence|];
      exfalso; (assert (Spawned h s c ∈ b ++ a) as H' by (apply elem_of_app; auto)); by apply Hn in H'.
Qed.

Lemma stop_spawns sys site m h s c : Spawned h s c ∈ m_acts (stop sys site m).2 -> Spawned h s c ∈ m_acts m.
Proof. destruct (stop_quiet sys site m) as [a oi [_ Ha _ _ _ _] Hn _ _]. rewrite Ha. by apply spawned_app. Qed.

Lemma drive_spawns envs delay site spec fuel k t m r m' h s c : wf m ->
  (forall i, m_instances m !! site = Some i -> i_spec i = spec) ->
  drive envs delay site fuel k t m = Some (r, m') -> Spawned h s c ∈ m_acts m' ->
  Spawned h s c ∈ m_acts m \/ (s = site /\ c = command_of spec).
Proof.
  revert k t m. induction fuel as [|fuel IH]; intros k t m W Hspec; cbn [drive]; [done|].
  pose proof (advance_wf (envs k) (t + delay k) site m W) as W'. pose proof (advance_specs (envs k) (t + delay k) site m) as Hsame.
  pose proof (fun h s c => advance_spawns (envs k) (t + delay k) site m h s c W) as Hsp.
  destruct (advance (envs k) (t + delay k) site m) as [res m1]. cbn [snd] in *.
  assert (forall i, m_instances m1 !! site = Some i -> i_spec i = spec) as Hspec1.
  { intros i (j & Hj & ->)%Hsame. auto. }
  assert (forall h s c, Spawned h s c ∈ m_acts m1 -> Spawned h s c ∈ m_acts m \/ (s = site /\ c = command_of spec)) as Hone.
  { intros h' s' c' [?|(-> & i & Hi & ->)]%Hsp; [by left|]. right. by rewrite (Hspec i Hi). }
  destruct res as [[|d| |]|e]; intros Hd Hin.
  - destruct (IH _ _ _ W' Hspec1 Hd Hin); auto.
  - destruct (IH _ _ _ W' Hspec1 Hd Hin); auto.
  - injection Hd as <- <-. auto.
  - injection Hd as <- <-. auto.
  - injection Hd as <- <-. apply stop_spawns in Hin. auto.
Qed.

Lemma begin_spawns sys now now' site spec kind hostname m h s c : wf m ->
  Spawned h s c ∈ m_acts (begin sys now now' site spec kind hostname m).2 ->
  Spawned h s c ∈ m_acts m \/ (s = site /\ c = command_of spec).
Proof.
  intros W. destruct (begin_cases sys now now' site spec kind hostname m W) as [(a & i & -> & Ha & _)|(m3 & W3 & (_ & H3) & Hi3 & ->)].
  - intros H%spawned_app; [by left|done].
  - pose proof (advance_spawns sys now' site m3 h s c W3) as Hsp. destruct (advance sys now' site m3) as [[st|e] m4]; cbn [fst snd first_step] in *.
    + intros [?|(-> & i & Hi & ->)]%Hsp; [left; auto|]. rewrite Hi3 in Hi. injection Hi as <-. by right.
    + intros [?|(-> & i & Hi & ->)]%spawned_app%Hsp; [left; auto| |apply drops_quiet]. rewrite Hi3 in Hi. injection Hi as <-. by right.
Qed.

(** A start runs what it was asked to and nothing else. *)
Lemma start_spawns envs delay site fuel spec kind hostname t m r m' h s c : wf m ->
  start envs delay site fuel spec kind hostname t m = Some (r, m') -> Spawned h s c ∈ m_acts m' ->
  Spawned h s c ∈ m_acts m \/ (s = site /\ c = command_of spec).
Proof.
  intros W. unfold start. set (now := t + delay 0%nat).
  pose proof (begin_wf (envs 0%nat) t now site spec kind hostname m W) as Wb.
  pose proof (fun h s c => begin_spawns (envs 0%nat) t now site spec kind hostname m h s c W) as Hsp.
  assert (forall i, (begin (envs 0%nat) t now site spec kind hostname m).1 = Ok true ->
    m_instances (begin (envs 0%nat) t now site spec kind hostname m).2 !! site = Some i -> i_spec i = spec) as Hspec.
  { intros i. destruct (begin_cases (envs 0%nat) t now site spec kind hostname m W) as [(a & j & -> & _)|(m3 & W3 & _ & Hi3 & ->)]; [done|].
    pose proof (advance_specs (envs 0%nat) now site m3) as Hs. destruct (advance _ _ _ _) as [[st|e] m4]; [|done]. cbn in *.
    intros _ (j & Hj & ->)%Hs. rewrite Hi3 in Hj. by injection Hj as <-. }
  destruct (begin _ _ _ _ _ _ _ _) as [[[]|e] m1]; cbn [fst snd] in *.
  - intros Hd Hin. assert (forall i, m_instances m1 !! site = Some i -> i_spec i = spec) as Hs1 by auto.
    destruct (drive_spawns envs delay site spec _ _ _ _ _ _ h s c Wb Hs1 Hd Hin) as [?%Hsp|?]; auto.
  - intros [= <- <-] Hin. auto.
  - intros [= <- <-] Hin. auto.
Qed.
