(* ===== verification/TunnelDaemon.v ===== *)
(** * Tunnels in the daemon

    [src/bin/orckerd/src/tunnel]: which cloudflared is used and the cache of the answer
    ([mod.rs], [install.rs]), the installer ([install.rs]), the zone of the account
    ([credentials.rs]), and the requests that start, stop, create, route and delete
    tunnels ([mod.rs], [named.rs]), over the daemon's state of [Daemon] and the
    manager of [TunnelManager].  What cloudflared and the system answer is a [TEnv]. *)

From S2P Require Import Prelude RustStr RustText Utf8 RustMap RustPath CoreError DnsLabel Tld Domain Host Site Router Config Ipc Mutate Scan Daemon DaemonInv HelperArgv Supervisor Tunnel TunnelManager.

Open Scope N_scope.

(** ** [install.rs] *)

Definition PINNED_SHA256 : list (str * str * str) := [].

Definition pinned_sha256 (tag asset : str) : option str :=
  snd <$> find_first (fun e : str * str * str => str_eqb e.1.1 tag && str_eqb e.1.2 asset) PINNED_SHA256.

Definition split_first (sep : N) (s : str) : str := default s (head (split_char sep s)).
Definition split_last (sep : N) (s : str) : str := default s (last (split_char sep s)).

Definition host_is_trusted (u : str) : bool :=
  match strip_prefix "https://"%str u with
  | None => false
  | Some rest =>
      let authority := split_first "/"%ch rest in
      let hostport := split_last "@"%ch authority in
      let host := split_first ":"%ch hostport in
      eq_ignore_ascii_case host "github.com"%str || eq_ignore_ascii_case host "githubusercontent.com"%str
      || ends_with ".githubusercontent.com"%str (to_ascii_lowercase host)
  end.

Inductive CloudflaredInstallError :=
| UnsupportedHost
| Download (what : str)
| Metadata (what : str)
| Sha256Mismatch (label : str)
| MissingDigest (label : str)
| UntrustedHost (u : str)
| Unpack
| InstallIo (p : OsString).

Record Asset := mkAsset { asset_name : str; browser_download_url : str; digest : option str }.
Record Release := mkRelease { tag_name : str; assets : list Asset }.

Inductive CloudflaredSource := Managed | System.
#[export] Instance CloudflaredSource_eq_dec : EqDecision CloudflaredSource.
Proof. solve_decision. Defined.
Record Resolved := mkResolved { r_binary : OsString; r_source : CloudflaredSource; r_version : option str }.

Definition binary_path (data : OsString) : OsString := path_join (path_join (tunnel_dir data) "bin"%str) "cloudflared"%str.
Definition version_marker (data : OsString) : OsString := path_join (tunnel_dir data) ".cloudflared-version"%str.

Definition MIN_SYSTEM_VERSION : N * N * N := (2023, 3, 0).
Definition version_lt (a b : N * N * N) : bool :=
  let '(a1, a2, a3) := a in let '(b1, b2, b3) := b in
  (a1 <? b1) || ((a1 =? b1) && ((a2 <? b2) || ((a2 =? b2) && (a3 <? b3)))).

Definition parse_version_token (tok : str) : option (str * (N * N * N)) :=
  match split_char "."%ch tok with
  | y :: m :: p :: rest =>
      year ← parse_uint u32_max y;
      month ← parse_uint u32_max m;
      patch ← parse_uint u32_max p;
      if negb (is_empty rest) || negb (in_range 1900 9999 year) then None else Some (tok, (year, month, patch))
  | _ => None
  end.
Definition parse_cloudflared_version (text : str) : option (str * (N * N * N)) :=
  find_map parse_version_token (split_whitespace text).

(** What the host answers about binaries. *)
Record Host := mkHost {
  h_is_file : OsString -> bool;
  h_is_executable : OsString -> bool;
  h_marker : option str;
  h_path : option (list OsString);
  h_user_dirs : option (list OsString);
  h_probe : OsString -> option str;
}.

Definition is_installed (h : Host) (data : OsString) : bool := h_is_file h (binary_path data).
Definition installed_version (h : Host) : option str :=
  v ← h_marker h; let v := trim v in if is_empty v then None else Some v.

Definition find_in_dirs (h : Host) (dirs : list OsString) : option OsString :=
  find_map (fun dir => let candidate := path_join dir "cloudflared"%str in if h_is_executable h candidate then Some candidate else None) dirs.
Definition find_cloudflared (h : Host) : option OsString :=
  match h_path h ≫= find_in_dirs h with
  | Some found => Some found
  | None => dirs ← h_user_dirs h; find_in_dirs h dirs
  end.

Definition resolve_binary (h : Host) (data : OsString) : option Resolved :=
  if is_installed h data then Some (mkResolved (binary_path data) Managed (installed_version h))
  else
    candidate ← find_cloudflared h;
    raw ← h_probe h candidate;
    '(version, parsed) ← parse_cloudflared_version raw;
    if version_lt parsed MIN_SYSTEM_VERSION then None else Some (mkResolved candidate System (Some version)).

Inductive TargetOs := Macos | Linux.
Inductive TargetArch := X86_64 | Aarch64.
Definition host_asset (o : TargetOs) (a : TargetArch) : str * bool :=
  let token := match a with X86_64 => "amd64"%str | Aarch64 => "arm64"%str end in
  match o with
  | Macos => ("cloudflared-darwin-"%str ++ token ++ ".tgz"%str, true)
  | Linux => ("cloudflared-linux-"%str ++ token, false)
  end.

Section Installer.
(** The hash, the JSON reader and the archive reader are libraries'. *)
Context (sha256_hex : list N -> str) (read_release : list N -> option Release) (untar : list N -> option (list N)).

Definition verify_integrity (bytes : list N) (pinned digest : option str) (label : str) : result CloudflaredInstallError unit :=
  let got := sha256_hex bytes in
  let github := d ← digest; strip_prefix "sha256:"%str d in
  match pinned with
  | Some want =>
      if negb (eq_ignore_ascii_case got want) then Err (Sha256Mismatch label)
      else match github with
           | Some gh => if negb (eq_ignore_ascii_case got gh) then Err (Sha256Mismatch label) else Ok tt
           | None => Ok tt
           end
  | None =>
      match github with
      | None => Err (MissingDigest label)
      | Some want => if eq_ignore_ascii_case got want then Ok tt else Err (Sha256Mismatch label)
      end
  end.

(** The files of the tunnel folder, and whether each call on them succeeds. *)
Notation Files := (gmap (list N) (list N)).
Record FsAnswers := mkAnswers {
  fa_private_dir : OsString -> bool;
  fa_create_dir : OsString -> bool;
  fa_write : OsString -> option nat;     (* [None]: written; [Some n]: failed after [n] bytes *)
  fa_chmod : OsString -> bool;
  fa_rename : OsString -> bool;
}.

Definition staging_path (data : OsString) (pid : N) : OsString :=
  path_join (path_join (tunnel_dir data) "bin"%str) (os (".cloudflared.staging-"%str ++ show_uint pid)).

(** [fs::write]: a failed write may leave the file cut short. *)
Definition fs_write (fa : FsAnswers) (p : OsString) (bytes : list N) (files : Files) : bool * Files :=
  match fa_write fa p with
  | None => (true, <[p := bytes]> files)
  | Some n => (false, <[p := take n bytes]> files)
  end.

Definition install_binary (fa : FsAnswers) (data : OsString) (pid : N) (version : str) (bytes : list N) (files : Files)
    : result CloudflaredInstallError unit * Files :=
  let root := tunnel_dir data in
  if negb (fa_private_dir fa root) then (Err (InstallIo root), files)
  else if negb (fa_create_dir fa (path_join root "bin"%str)) then (Err (InstallIo (path_join root "bin"%str)), files)
  else
    let staging := staging_path data pid in
    let files := delete staging files in
    let '(ok, files) := fs_write fa staging bytes files in
    if negb ok then (Err (InstallIo staging), files)
    else if negb (fa_chmod fa staging) then (Err (InstallIo staging), files)
    else if negb (fa_rename fa staging) then (Err (InstallIo (binary_path data)), delete staging files)
    else
      let files := <[binary_path data := bytes]> (delete staging files) in
      let '(ok, files) := fs_write fa (version_marker data) (os version) files in
      (if ok then Ok tt else Err (InstallIo (version_marker data)), files).

Definition LATEST_RELEASE_API : str := "https://api.github.com/repos/cloudflare/cloudflared/releases/latest"%str.

Definition install (target : option (TargetOs * TargetArch)) (download : str -> option (list N)) (fa : FsAnswers)
    (data : OsString) (pid : N) (files : Files) : result CloudflaredInstallError unit * Files :=
  match target with
  | None => (Err UnsupportedHost, files)
  | Some (o, a) =>
      let '(name, is_tgz) := host_asset o a in
      match download LATEST_RELEASE_API with
      | None => (Err (Download "release metadata"%str), files)
      | Some meta =>
          match read_release meta with
          | None => (Err (Metadata "parse release json"%str), files)
          | Some release =>
              match find_first (fun x => str_eqb (asset_name x) name) (assets release) with
              | None => (Err (Metadata name), files)
              | Some asset =>
                  if negb (host_is_trusted (browser_download_url asset)) then (Err (UntrustedHost (browser_download_url asset)), files)
                  else
                    match download (browser_download_url asset) with
                    | None => (Err (Download name), files)
                    | Some bytes =>
                        match verify_integrity bytes (pinned_sha256 (tag_name release) name) (digest asset) name with
                        | Err e => (Err e, files)
                        | Ok _ =>
                            match (if is_tgz : bool then untar bytes else Some bytes) with
                            | None => (Err Unpack, files)
                            | Some binary => install_binary fa data pid (tag_name release) binary files
                            end
                        end
                    end
              end
          end
      end
  end.
End Installer.

(** ** State *)

Notation Files := (gmap (list N) (list N)).

Record TState := mkTState {
  td_daemon : DaemonState;
  td_manager : Manager;
  td_cache : option Resolved;                        (* [cloudflared_resolution] *)
  td_zone : option (N * str);                        (* [ZONE_CACHE] *)
  td_files : Files;                                  (* the tunnel folder *)
  td_ran : list (OsString * list OsString);          (* one-shots of cloudflared *)
}.

Definition with_daemon (d : DaemonState) (s : TState) : TState := mkTState d (td_manager s) (td_cache s) (td_zone s) (td_files s) (td_ran s).
Definition with_manager (m : Manager) (s : TState) : TState := mkTState (td_daemon s) m (td_cache s) (td_zone s) (td_files s) (td_ran s).
Definition with_cache (c : option Resolved) (s : TState) : TState := mkTState (td_daemon s) (td_manager s) c (td_zone s) (td_files s) (td_ran s).
Definition with_zone (z : option (N * str)) (s : TState) : TState := mkTState (td_daemon s) (td_manager s) (td_cache s) z (td_files s) (td_ran s).
Definition with_files (f : Files) (s : TState) : TState := mkTState (td_daemon s) (td_manager s) (td_cache s) (td_zone s) f (td_ran s).

Record Output := mkOutput { o_success : bool; o_stdout : list N; o_stderr : list N }.

(** What one request meets.  [te_run] is what cloudflared makes of its arguments: it
    may change the tunnel folder in any way. *)
Record TEnv := mkTEnv {
  te_dirs_data : OsString;
  te_dirs_state : OsString;
  te_env : Env;                                      (* for saving the configuration *)
  te_host : Host;
  te_var : str -> option OsString;                   (* the daemon's own environment *)
  te_private_dir : OsString -> result io_kind unit;
  te_write : OsString -> result io_kind unit;        (* [atomic_write] *)
  te_run : list OsString -> Files -> result str Output * Files;
  te_sys : nat -> Sys;
  te_delay : nat -> N;
  te_clock : N;
}.

Inductive TMessage :=
| TmNotInstalled
| TmNeedLogin
| TmNoSite (site : str)
| TmInvalidName
| TmNameOrHostname
| TmExists
| TmNoTunnel
| TmNoneCreated
| TmNoneEnabled
| TmNoneExist
| TmDirs (e : io_kind)
| TmLogDir (e : io_kind)
| TmWriteConfig (e : io_kind)
| TmRun (e : str)
| TmRefused (verb line : str)
| TmNoId
| TmStart (site : str) (e : TunnelError)
| TmStop (site : str) (e : TunnelError)
| TmConfig (m : RespMessage).

Inductive TunnelRunState := RunRunning | RunFailed.
Record TunnelInfo := mkInfo { ti_site : str; ti_kind : TunnelKind; ti_state : TunnelRunState; ti_url : option str; ti_hostname : option str }.
Record CloudflaredStatus := mkCfStatus { cs_installed : bool; cs_version : option str; cs_source : option CloudflaredSource; cs_logged_in : bool }.

Inductive TResponse :=
| TOk
| TError (code : ErrorCode) (message : TMessage)
| TTunnels (tunnels : list TunnelInfo) (cloudflared : CloudflaredStatus)
| TNamedTunnels (tunnels sites : list (str * str)) (zone : option str).

Definition tinternal (m : TMessage) : TResponse := TError ErrInternal m.
Definition not_installed : TResponse := TError ErrNotFound TmNotInstalled.
Definition need_login : TResponse := TError ErrNotFound TmNeedLogin.

(** The reply of a configuration change, as the tunnel requests give it. *)
Definition config_reply (r : Response) : TResponse :=
  match r with RespError code m => TError code (TmConfig m) | _ => TOk end.

Section Requests.
Context (te : TEnv).
Let data := te_dirs_data te.
Let host := te_host te.

(** ** Which cloudflared *)

Definition is_managed (r : option Resolved) : bool := bool_decide (r_source <$> r = Some Managed).
Definition is_downgrade (existing fresh : option Resolved) : bool := is_managed existing && negb (is_managed fresh).

Definition cached_cloudflared_if_valid (s : TState) : option Resolved :=
  resolved ← td_cache s;
  match r_source resolved with
  | Managed => Some resolved
  | System => if h_is_executable host (r_binary resolved) then Some resolved else None
  end.

(** The write at the end of [resolved_cloudflared]: [fresh] was computed without the
    lock, so the cache may have changed in between. *)
Definition commit_resolution (fresh : option Resolved) (s : TState) : option Resolved * TState :=
  if is_downgrade (td_cache s) fresh then (td_cache s, s) else (fresh, with_cache fresh s).

Definition resolved_cloudflared (s : TState) : option Resolved * TState :=
  match cached_cloudflared_if_valid s with
  | Some cached => (Some cached, s)
  | None => commit_resolution (resolve_binary host data) s
  end.

Definition refresh_cloudflared_cache_after_install (s : TState) : TState :=
  with_cache (Some (mkResolved (binary_path data) Managed (installed_version host))) s.

Definition is_logged_in (s : TState) : bool := bool_decide (is_Some (td_files s !! origincert data)).

Definition cloudflared_status (s : TState) : CloudflaredStatus * TState :=
  let '(resolved, s) := resolved_cloudflared s in
  (mkCfStatus (bool_decide (is_Some resolved)) (resolved ≫= r_version) (r_source <$> resolved) (is_logged_in s), s).

(** ** Running tunnels *)

Definition to_wire (x : TunnelSnapshot) : TunnelInfo :=
  mkInfo (ts_site x) (ts_kind x) (match ts_state x with TRunning => RunRunning | TFailed => RunFailed end) (ts_url x) (ts_hostname x).

(** [k] is the step of the request at which the manager is looked at. *)
Definition tunnels_response (k : nat) (s : TState) : TResponse * TState :=
  let '(snaps, m) := snapshots (te_sys te k) (td_manager s) in
  let '(status, s) := cloudflared_status (with_manager m s) in
  (TTunnels (to_wire <$> snaps) status, s).

Definition FORWARDED_ENV : list str := ["PATH"%str; "TMPDIR"%str; "SSL_CERT_FILE"%str; "SSL_CERT_DIR"%str].

Definition pinned_home_env : list (OsString * OsString) :=
  ("HOME"%str, tunnel_dir data) :: omap (fun key => val ← te_var te key; Some (os key, val)) FORWARDED_ENV.

Definition tunnel_logfile (site : str) : OsString :=
  path_join (path_join (te_dirs_state te) "tunnel"%str) (os (site ++ ".log"%str)).

(** Steps after the last of a start. *)
Definition LAST_STEP : nat := S START_FUEL.

Definition run_to_ready (name : str) (bin : OsString) (args : list OsString) (env : list (OsString * OsString))
    (kind : TunnelKind) (hostname : option str) (s : TState) : option (TResponse * TState) :=
  let logfile := tunnel_logfile name in
  match (match path_parent logfile with Some parent => te_private_dir te parent | None => Ok tt end) with
  | Err e => Some (tinternal (TmLogDir e), s)
  | Ok _ =>
      match start (te_sys te) (te_delay te) name START_FUEL (mkSpec bin args env logfile) kind hostname (te_clock te) (td_manager s) with
      | None => None
      | Some (StartFailed e, m) => Some (tinternal (TmStart name e), with_manager m s)
      | Some (_, m) => Some (tunnels_response LAST_STEP (with_manager m s))
      end
  end.

Definition start_quick_tunnel (site : str) (s : TState) : option (TResponse * TState) :=
  let '(resolved, s) := resolved_cloudflared s in
  match resolved with
  | None => Some (TError ErrNotFound TmNotInstalled, s)
  | Some resolved =>
      match resolve_site (ds_router (td_daemon s)) site with
      | None => Some (TError ErrNotFound (TmNoSite site), s)
      | Some (name, secure, _, host) =>
          let origin := for_site host secure (ps_bound (ds_http (td_daemon s))) (ps_bound (ds_https (td_daemon s))) in
          run_to_ready name (r_binary resolved) (quick_tunnel_args origin) pinned_home_env Quick None s
      end
  end.

Definition stop_tunnel (site : str) (s : TState) : TResponse * TState :=
  let '(r, m) := stop (te_sys te 0) site (td_manager s) in
  let s := with_manager m s in
  match r with
  | Err e => (tinternal (TmStop site e), s)
  | Ok _ => tunnels_response 1 s
  end.

Definition tunnel_status (s : TState) : TResponse * TState := tunnels_response 0 s.

Definition is_quick_running (x : TunnelSnapshot) : bool := bool_decide (ts_kind x = Quick) && bool_decide (ts_state x = TRunning).
Definition is_named_running (x : TunnelSnapshot) : bool := bool_decide (ts_kind x = Named) && bool_decide (ts_state x = TRunning).

Definition shared_site_count (s : TState) : N * TState :=
  let '(snaps, m) := snapshots (te_sys te 0) (td_manager s) in
  let shared : gset str := list_to_set (ts_site <$> bfilter is_quick_running snaps) in
  let shared := if existsb is_named_running snaps then shared ∪ dom (tunnel_sites (cf_tunnel (ds_config (td_daemon s)))) else shared in
  (N.min (N.of_nat (size shared)) u32_max, with_manager m s).

(** ** The named tunnel *)

Definition NAMED_KEY : str := "@named"%str.

Definition ensure_secret_dirs : result TMessage unit :=
  map_err TmDirs (_ ← te_private_dir te (tunnel_dir data); te_private_dir te (creds_dir data)).

Definition run_oneshot (bin : OsString) (args : list OsString) (s : TState) : result str Output * TState :=
  let '(r, files) := te_run te args (td_files s) in
  (r, mkTState (td_daemon s) (td_manager s) (td_cache s) (td_zone s) files (td_ran s ++ [(bin, args)])).

Definition last_error_line (out : Output) : str :=
  default "cloudflared failed"%str
    (find_first (fun l => negb (is_empty (trim l))) (rev (str_lines (from_utf8_lossy (o_stderr out))))).

(** The checks every account request starts with. *)
Definition with_account (s : TState) (k : Resolved -> TState -> option (TResponse * TState)) : option (TResponse * TState) :=
  let '(resolved, s) := resolved_cloudflared s in
  match resolved with
  | None => Some (not_installed, s)
  | Some resolved => if is_logged_in s then k resolved s else Some (need_login, s)
  end.

Definition create (name : str) (s : TState) : option (TResponse * TState) :=
  with_account s (fun resolved s =>
    if negb (is_valid_tunnel_name name) then Some (TError ErrInvalidPath TmInvalidName, s)
    else
      match ensure_secret_dirs with
      | Err e => Some (tinternal e, s)
      | Ok _ =>
          if existsb (fun e : str * str => negb (str_eqb e.1 name)) (btree_iter (tunnel_named (cf_tunnel (ds_config (td_daemon s)))))
          then Some (TError ErrAlreadyExists TmExists, s)
          else
            match run_oneshot (r_binary resolved) (create_args name (origincert data) (creds_file data name)) s with
            | (Err e, s) => Some (tinternal (TmRun e), s)
            | (Ok out, s) =>
                if negb (o_success out) then Some (tinternal (TmRefused "create"%str (last_error_line out)), s)
                else
                  let combined := from_utf8_lossy (o_stdout out) ++ from_utf8_lossy (o_stderr out) in
                  match find_tunnel_id combined with
                  | None => Some (tinternal TmNoId, s)
                  | Some uuid =>
                      let '(r, d) := record_named_tunnel (te_env te) name uuid (td_daemon s) in
                      Some (config_reply r, with_daemon d s)
                  end
            end
      end).

Definition route_dns (tunnel hostname : str) (s : TState) : option (TResponse * TState) :=
  with_account s (fun resolved s =>
    if negb (is_valid_tunnel_name tunnel) || negb (is_safe_cli_value hostname) then Some (TError ErrInvalidPath TmNameOrHostname, s)
    else
      match run_oneshot (r_binary resolved) (route_dns_args tunnel hostname (origincert data)) s with
      | (Err e, s) => Some (tinternal (TmRun e), s)
      | (Ok out, s) => Some (if o_success out then TOk else tinternal (TmRefused "route dns"%str (last_error_line out)), s)
      end).

(** The rules of the enabled sites that resolve, in order. *)
Definition ingress_rules (d : DaemonState) (enabled : list (str * str)) : list IngressRule :=
  omap (fun e : str * str =>
          '(_, secure, _, host) ← resolve_site (ds_router d) e.1;
          Some (mkRule e.2 (for_site host secure (ps_bound (ds_http d)) (ps_bound (ds_https d))))) enabled.

Definition named_config_path : OsString := path_join (tunnel_dir data) "named.yml"%str.

Definition start_named (s : TState) : option (TResponse * TState) :=
  with_account s (fun resolved s =>
    let t := cf_tunnel (ds_config (td_daemon s)) in
    match head (btree_iter (tunnel_named t)) with
    | None => Some (TError ErrNotFound TmNoneCreated, s)
    | Some (tunnel_name, uuid) =>
        let enabled := btree_iter (tunnel_sites t) in
        if is_empty enabled then Some (TError ErrNotFound TmNoneEnabled, s)
        else
          let rules := ingress_rules (td_daemon s) enabled in
          if is_empty rules then Some (TError ErrNotFound TmNoneExist, s)
          else
            let config_yml := render_ingress_config uuid (creds_file data tunnel_name) rules in
            match ensure_secret_dirs with
            | Err e => Some (tinternal e, s)
            | Ok _ =>
                match te_write te named_config_path with
                | Err e => Some (tinternal (TmWriteConfig e), s)
                | Ok _ =>
                    let s := with_files (<[named_config_path := as_bytes config_yml]> (td_files s)) s in
                    let '(r, m) := stop (te_sys te LAST_STEP) NAMED_KEY (td_manager s) in
                    let s := with_manager m s in
                    match r with
                    | Err e => Some (tinternal (TmStop NAMED_KEY e), s)
                    | Ok _ =>
                        run_to_ready NAMED_KEY (r_binary resolved) (named_run_args named_config_path (origincert data))
                          (pinned_home_env ++ [("TUNNEL_ORIGIN_CERT"%str, origincert data)]) Named None s
                    end
                end
            end
    end).

Definition stop_named (s : TState) : TResponse * TState :=
  let '(r, m) := stop (te_sys te 0) NAMED_KEY (td_manager s) in
  let s := with_manager m s in
  match r with
  | Err e => (tinternal (TmStop NAMED_KEY e), s)
  | Ok _ => tunnels_response 1 s
  end.

(** [delete]; the clean-up is best effort. *)
Definition delete_named (name : str) (s : TState) : option (TResponse * TState) :=
  with_account s (fun resolved s =>
    if negb (is_valid_tunnel_name name) then Some (TError ErrInvalidPath TmInvalidName, s)
    else if negb (existsb (fun e : str * str => str_eqb e.1 name) (btree_iter (tunnel_named (cf_tunnel (ds_config (td_daemon s))))))
    then Some (TError ErrNotFound TmNoTunnel, s)
    else
      let '(r, m) := stop (te_sys te 0) NAMED_KEY (td_manager s) in
      let s := with_manager m s in
      match r with
      | Err e => Some (tinternal (TmStop NAMED_KEY e), s)
      | Ok _ =>
          let s := (run_oneshot (r_binary resolved) (cleanup_args name (origincert data)) s).2 in
          match run_oneshot (r_binary resolved) (delete_args name (origincert data)) s with
          | (Err e, s) => Some (tinternal (TmRun e), s)
          | (Ok out, s) =>
              if negb (o_success out) then Some (tinternal (TmRefused "delete"%str (last_error_line out)), s)
              else
                let s := with_files (delete (creds_file data name) (td_files s)) s in
                let '(r, d) := forget_named_tunnel (te_env te) name (td_daemon s) in
                Some (config_reply r, with_daemon d s)
          end
      end).

(** ** The zone of the account *)

Record ZoneSys := mkZoneSys {
  zs_mtime : option N;                               (* of the certificate *)
  zs_token : list N -> option OriginToken;           (* the JSON reader *)
  zs_fetch : OriginToken -> option str;              (* the answer of the API *)
}.

Definition cached_zone (mtime : N) (s : TState) : option str :=
  '(t, zone) ← td_zone s; if t =? mtime then Some zone else None.

Definition resolve_zone (zs : ZoneSys) (s : TState) : option str * TState :=
  match zs_mtime zs with
  | None => (None, s)
  | Some mtime =>
      match cached_zone mtime s with
      | Some zone => (Some zone, s)
      | None =>
          match (bytes ← td_files s !! origincert data; pem ← from_utf8 bytes; parse_origin_token (zs_token zs) pem) with
          | None => (None, s)
          | Some token =>
              if is_empty (zone_id token) then (None, s)
              else match zs_fetch zs token with
                   | None => (None, s)
                   | Some zone => (Some zone, with_zone (Some (mtime, zone)) s)
                   end
          end
      end
  end.

Definition list_named (zs : ZoneSys) (s : TState) : TResponse * TState :=
  let t := cf_tunnel (ds_config (td_daemon s)) in
  let '(zone, s) := if is_logged_in s then resolve_zone zs s else (None, s) in
  (TNamedTunnels (btree_iter (tunnel_named t)) (btree_iter (tunnel_sites t)) zone, s).
End Requests.

(** ** What a tunnel exposes *)

Lemma resolved_keeps te s : let r := resolved_cloudflared te s in
  td_daemon r.2 = td_daemon s /\ td_manager r.2 = td_manager s /\ td_files r.2 = td_files s /\ td_ran r.2 = td_ran s.
Proof.
  unfold resolved_cloudflared. destruct (cached_cloudflared_if_valid te s); [done|]. unfold commit_resolution. by destruct (is_downgrade _ _).
Qed.

Lemma tunnels_response_keeps te k s : wf (td_manager s) ->
  let s' := (tunnels_response te k s).2 in
  wf (td_manager s') /\ td_daemon s' = td_daemon s /\ td_files s' = td_files s /\ td_ran s' = td_ran s /\
  m_instances (td_manager s') = m_instances (td_manager s) /\
  forall h n c, Spawned h n c ∈ m_acts (td_manager s') -> Spawned h n c ∈ m_acts (td_manager s).
Proof.
  intros W. unfold tunnels_response. pose proof (snapshots_wf (te_sys te k) (td_manager s) W) as Ws.
  assert (forall h n c, Spawned h n c ∈ m_acts (snapshots (te_sys te k) (td_manager s)).2 -> Spawned h n c ∈ m_acts (td_manager s)) as Hs.
  { intros h n c. apply spawned_app. unfold no_spawn. apply Forall_join, Forall_fmap, Forall_fmap, Forall_forall. intros e _. apply snapshot_quiet. }
  assert (m_instances (snapshots (te_sys te k) (td_manager s)).2 = m_instances (td_manager s)) as Hi by done.
  destruct (snapshots (te_sys te k) (td_manager s)) as [snaps m]. cbn [snd] in Ws, Hs, Hi.
  unfold cloudflared_status. pose proof (resolved_keeps te (with_manager m s)) as Hk.
  destruct (resolved_cloudflared te (with_manager m s)) as [res s1]. cbn in Hk. destruct Hk as (E1 & E2 & E3 & E4). cbn. by rewrite E1, E2, E3, E4.
Qed.

(** [run_to_ready] answers, and runs the one command it is given. *)
Lemma run_to_ready_spec te name bin args env kind hostname s : wf (td_manager s) ->
  exists r s', run_to_ready te name bin args env kind hostname s = Some (r, s') /\
    wf (td_manager s') /\ td_daemon s' = td_daemon s /\ td_files s' = td_files s /\ td_ran s' = td_ran s /\
    forall h n c, Spawned h n c ∈ m_acts (td_manager s') ->
      Spawned h n c ∈ m_acts (td_manager s) \/ (n = name /\ c = mkCommand bin args env (tunnel_logfile te name)).
Proof.
  intros W. unfold run_to_ready. set (p := match path_parent _ with Some parent => _ | None => _ end).
  destruct p as [[]|e]; [|by eexists _, _; eauto 10].
  set (spec := mkSpec bin args env _).
  destruct (start_total (td_manager s) (te_sys te) (te_delay te) name spec kind hostname (te_clock te) W) as (r & m' & E & W' & _). rewrite E.
  assert (forall h n c, Spawned h n c ∈ m_acts m' -> Spawned h n c ∈ m_acts (td_manager s) \/ (n = name /\ c = command_of spec)) as Hsp.
  { intros h n c. eapply start_spawns; [exact W|exact E]. }
  destruct (tunnels_response_keeps te LAST_STEP (with_manager m' s) W') as (Wt & E1 & E2 & E3 & _ & Ht).
  destruct r; [| | |by eexists _, _; eauto 10];
    (eexists (tunnels_response te LAST_STEP (with_manager m' s)).1, (tunnels_response te LAST_STEP (with_manager m' s)).2;
     split; [by destruct (tunnels_response te LAST_STEP _)|]; split; [done|]; split; [done|]; split; [done|]; split; [done|];
     intros h n c H%Ht; by apply Hsp).
Qed.

(** The variables a cloudflared child can see. *)
Definition ALLOWED_ENV : list str := ["HOME"%str; "PATH"%str; "TMPDIR"%str; "SSL_CERT_FILE"%str; "SSL_CERT_DIR"%str; "TUNNEL_ORIGIN_CERT"%str].
Definition confined_env (env : list (OsString * OsString)) : Prop := forall k v, (k, v) ∈ env -> k ∈ ALLOWED_ENV.

Lemma pinned_env_confined te : confined_env (pinned_home_env te).
Proof.
  intros k v. unfold pinned_home_env. rewrite elem_of_cons, list_elem_of_omap. intros [[= -> _]|(key & Hin & Hk)]; [by left|].
  destruct (te_var te key) as [val|]; [|done]. cbn in Hk. injection Hk as <- _.
  repeat (apply elem_of_cons in Hin as [->|Hin]; [apply list_elem_of_In; vm_compute; auto 10|]). by apply elem_of_nil in Hin.
Qed.

(** The site a request names, and that its host leads to it. *)
Lemma resolve_site_routes router site name secure tld host :
  resolve_site router site = Some (name, secure, tld, host) -> exists st, resolve router host = Some st /\ site_name st = name.
Proof.
  unfold resolve_site. destruct (match resolve router site with Some s => Some s | None => get router site end) as [s|]; [|done].
  cbn [mbind option_bind]. case_bool_decide as E; [|done]. intros [= <- <- <- <-].
  destruct (resolve router (primary_fqdn router (site_name s))) as [st|]; [|done]. cbn in E. exists st. split; [done|congruence].
Qed.

(** C19. A quick tunnel leads to the site it was asked for and nowhere else: every
    process its start runs forwards to the daemon's own loopback listener under a host
    that the router resolves to that very site, and sees of the daemon's environment
    only the listed variables.  The request always gets an answer. *)
Theorem quick_tunnel_reaches_site te site s :
  manager_reachable (td_manager s) ->
  exists r s', start_quick_tunnel te site s = Some (r, s') /\ td_daemon s' = td_daemon s /\
    forall h n c, Spawned h n c ∈ m_acts (td_manager s') -> Spawned h n c ∉ m_acts (td_manager s) ->
      exists secure tld host st bound,
        resolve_site (ds_router (td_daemon s)) site = Some (n, secure, tld, host) /\
        resolve (ds_router (td_daemon s)) host = Some st /\ site_name st = n /\
        bound = (if secure : bool then ps_bound (ds_https (td_daemon s)) else ps_bound (ds_http (td_daemon s))) /\
        arguments c = ["tunnel"%str; "--no-autoupdate"%str; "--url"%str;
                       os ((if secure then "https"%str else "http"%str) ++ "://127.0.0.1:"%str ++ show_uint bound);
                       "--http-host-header"%str; os host]
                      ++ (if secure then ["--origin-server-name"%str; os host; "--no-tls-verify"%str] else [])
                      ++ ["--loglevel"%str; "info"%str] /\
        confined_env (environment c).
Proof.
  intros W%manager_reachable_wf. unfold start_quick_tunnel. pose proof (resolved_keeps te s) as (E1 & E2 & E3 & _).
  destruct (resolved_cloudflared te s) as [[res|] s1]; cbn [snd] in *.
  2: { eexists _, s1. split; [done|]. split; [done|]. intros h n c. rewrite E2. done. }
  rewrite E1. destruct (resolve_site (ds_router (td_daemon s)) site) as [[[[name secure] tld] host]|] eqn:Er.
  2: { eexists _, s1. split; [done|]. split; [done|]. intros h n c. rewrite E2. done. }
  rewrite <- E2 in W. destruct (run_to_ready_spec te name (r_binary res)
    (quick_tunnel_args (for_site host secure (ps_bound (ds_http (td_daemon s))) (ps_bound (ds_https (td_daemon s))))) (pinned_home_env te) Quick None s1 W)
    as (r & s' & -> & _ & Ed & _ & _ & Hsp).
  exists r, s'. split; [done|]. split; [by rewrite Ed, E1|]. intros h n c H Hnew.
  destruct (Hsp h n c H) as [H'|(-> & ->)]; [by rewrite E2 in H'|].
  destruct (resolve_site_routes _ _ _ _ _ _ Er) as (st & Hst & Hname).
  exists secure, tld, host, st, (if secure then ps_bound (ds_https (td_daemon s)) else ps_bound (ds_http (td_daemon s))).
  split; [done|]. split; [done|]. split; [done|]. split; [done|]. split; [by destruct secure|]. apply pinned_env_confined.
Qed.

(** A router whose names are texts of one line, as the types of a domain, of a suffix
    and of a site name make sure. *)
Definition one_line_names (r : SiteRouter) : Prop :=
  (forall n d, r_primaries r !! n = Some d -> NL ∉ Domain_str d) /\
  (forall n st, r_sites r !! n = Some st -> NL ∉ site_name st) /\ NL ∉ Tld_str (cfg_tld (r_config r)).

Lemma resolve_site_of r host st : resolve r host = Some st -> exists n, r_sites r !! n = Some st.
Proof.
  unfold resolve. destruct (resolve_route r host) as [[site|p]|] eqn:E; [|done..]. intros [= <-]. revert E.
  assert (forall name, route_for r name = Some (RoutePhp site) -> exists n, r_sites r !! n = Some site) as Hf.
  { intros name. unfold route_for. destruct (r_sites r !! name) as [x|] eqn:Ex; [intros [= <-]; eauto|]. by destruct (r_proxy_sites r !! name). }
  unfold resolve_route. destruct (normalise host) as [h|]; [|done]. destruct (str_eqb h _); [done|].
  destruct (strip_suffix _ h) as [sub|]; [|done]. cbn [mbind option_bind]. destruct (is_empty sub); [done|].
  destruct (r_exact r !! sub) as [name|]; [apply Hf|]. destruct (split_once "." sub) as [[? rest]|]; [|done].
  destruct (r_wildcards r !! _) as [name|]; [apply Hf|done].
Qed.

Lemma resolve_site_host router site name secure tld host : one_line_names router ->
  resolve_site router site = Some (name, secure, tld, host) -> NL ∉ host.
Proof.
  intros (Hp & Hs & Ht). unfold resolve_site.
  destruct (match resolve router site with Some s => Some s | None => get router site end) as [s|] eqn:E; [|done].
  assert (exists n, r_sites router !! n = Some s) as (n & Hn).
  { destruct (resolve router site) as [x|] eqn:Er; [injection E as <-; by eapply resolve_site_of|]. unfold get in E. eauto. }
  cbn [mbind option_bind]. case_bool_decide; [|done]. intros [= <- <- <- <-]. specialize (Hs n s Hn).
  unfold primary_fqdn, primary_domain. destruct (r_primaries router !! site_name s) as [d|] eqn:Ed.
  - unfold to_fqdn. rewrite !elem_of_app. specialize (Hp _ _ Ed). intros [?|[Hd|?]]; [done| |done]. by apply literal_no_nl in Hd.
  - rewrite !elem_of_app. intros [?|[Hd|?]]; [done| |done]. by apply literal_no_nl in Hd.
Qed.

Lemma safe_key_no_nl k : is_safe_key k = true -> NL ∉ k.
Proof.
  unfold is_safe_key. intros H Hin. bprop. match goal with H : forallb _ _ = true |- _ => rewrite forallb_forall in H; apply list_elem_of_In, H in Hin end.
  done.
Qed.

Lemma hostname_no_nl h : is_plausible_hostname h = true -> NL ∉ h.
Proof.
  unfold is_plausible_hostname. destruct (_ || _); [done|]. destruct (forallb is_hostname_label (split_char "." h)) eqn:E; [|done]. intros _ Hin.
  rewrite <- (join_split "."%ch h) in Hin. apply elem_of_join_char in Hin as [?|(w & Hw & Hin)]; [done|].
  rewrite forallb_forall in E. apply list_elem_of_In, E in Hw. unfold is_hostname_label in Hw. bprop.
  match goal with H : forallb _ w = true |- _ => rewrite forallb_forall in H; apply list_elem_of_In, H in Hin end. done.
Qed.

Lemma path_join_no_nl a b : NL ∉ a -> NL ∉ b -> NL ∉ path_join a b.
Proof.
  intros Ha Hb. unfold path_join. destruct (is_absolute b); [done|]. destruct (_ || _); rewrite !elem_of_app; [tauto|].
  intros [?|[?|?]]; [done| |done]. by apply literal_no_nl in H.
Qed.

Lemma creds_no_nl data name : NL ∉ data -> NL ∉ name -> NL ∉ display (creds_file data name).
Proof.
  intros Hd Hn Hin. unfold display in Hin. apply lossy_byte in Hin; [|done]. revert Hin. unfold creds_file, creds_dir, tunnel_dir.
  repeat apply path_join_no_nl; try done; try (by apply literal_no_nl).
  unfold os. rewrite elem_of_as_bytes_ascii, elem_of_app by done. intros [?|H]; [done|]. by apply literal_no_nl in H.
Qed.

Lemma in_ingress_rules d enabled x : x ∈ ingress_rules d enabled <->
  exists site hostname name secure tld host, (site, hostname) ∈ enabled /\ resolve_site (ds_router d) site = Some (name, secure, tld, host) /\
    x = mkRule hostname (for_site host secure (ps_bound (ds_http d)) (ps_bound (ds_https d))).
Proof.
  unfold ingress_rules. rewrite list_elem_of_omap. split.
  - intros ([site hostname] & Hin & Hx). cbn [fst snd] in Hx. destruct (resolve_site (ds_router d) site) as [[[[name secure] tld] host]|] eqn:E; [|done].
    cbn in Hx. injection Hx as <-. eauto 10.
  - intros (site & hostname & name & secure & tld & host & Hin & E & ->). exists (site, hostname). split; [done|]. cbn. by rewrite E.
Qed.

Lemma with_account_keeps te s k P :
  (forall code m s', td_daemon s' = td_daemon s -> td_manager s' = td_manager s -> td_files s' = td_files s -> td_ran s' = td_ran s -> P (Some (TError code m, s'))) ->
  (forall resolved s', td_daemon s' = td_daemon s -> td_manager s' = td_manager s -> td_files s' = td_files s -> td_ran s' = td_ran s -> P (k resolved s')) ->
  P (with_account te s k).
Proof.
  intros He Hk. unfold with_account. pose proof (resolved_keeps te s) as (E1 & E2 & E3 & E4).
  destruct (resolved_cloudflared te s) as [[res|] s1]; cbn [snd] in *; [|by apply He]. destruct (is_logged_in te s1); [by apply Hk|by apply He].
Qed.

(** What a child started for the named tunnel is told. *)
Record exposes (te : TEnv) (s : TState) (files : Files) (c : Command) : Prop := {
  ex_args : arguments c = named_run_args (named_config_path te) (origincert (te_dirs_data te));
  ex_env : confined_env (environment c);
  ex_config : exists text tunnel uuid rules,
    files !! named_config_path te = Some (as_bytes text) /\
    tunnel_named (cf_tunnel (ds_config (td_daemon s))) !! tunnel = Some uuid /\
    read_ingress text = Some (uuid, display (creds_file (te_dirs_data te) tunnel), seen <$> rules) /\
    (forall x, x ∈ rules <-> exists site hostname name secure tld host,
       tunnel_sites (cf_tunnel (ds_config (td_daemon s))) !! site = Some hostname /\
       resolve_site (ds_router (td_daemon s)) site = Some (name, secure, tld, host) /\
       x = mkRule hostname (for_site host secure (ps_bound (ds_http (td_daemon s))) (ps_bound (ds_https (td_daemon s)))));
}.

Lemma origincert_env_confined te : confined_env (pinned_home_env te ++ [("TUNNEL_ORIGIN_CERT"%str, origincert (te_dirs_data te))]).
Proof.
  intros k v [H|H]%elem_of_app; [by eapply pinned_env_confined|]. apply list_elem_of_singleton in H as [= -> ->].
  apply list_elem_of_In. vm_compute. auto 10.
Qed.

Lemma rules_clean d enabled : one_line_names (ds_router d) -> (forall e, e ∈ enabled -> NL ∉ e.2) -> Forall rule_clean (ingress_rules d enabled).
Proof.
  intros Hr He. apply Forall_forall. intros x (site & hostname & name & secure & tld & host & Hin & E & ->)%in_ingress_rules.
  apply resolve_site_host in E; [|done]. specialize (He _ Hin). cbn in He.
  unfold rule_clean, for_site. destruct secure; cbn; (split; [done|split; [done|]]); by intros sni [= <-].
Qed.

(** C20. The named tunnel exposes the sites enabled for it and nothing else: whatever
    process its start runs reads a configuration that maps each enabled public
    hostname, of a site that resolves, to the daemon's loopback listener under a host
    the router resolves to that site, and every other hostname to an error; no value of
    the configuration can add a rule.  The request always gets an answer and changes
    neither the configuration nor the account. *)
Theorem named_tunnel_exposes_enabled te s :
  manager_reachable (td_manager s) -> validate (ds_config (td_daemon s)) = Ok tt ->
  one_line_names (ds_router (td_daemon s)) -> NL ∉ te_dirs_data te ->
  exists r s', start_named te s = Some (r, s') /\ td_daemon s' = td_daemon s /\ td_ran s' = td_ran s /\
    (forall h n c, Spawned h n c ∈ m_acts (td_manager s') -> Spawned h n c ∉ m_acts (td_manager s) ->
       n = NAMED_KEY /\ exposes te s (td_files s') c) /\
    (forall site name secure tld host, resolve_site (ds_router (td_daemon s)) site = Some (name, secure, tld, host) ->
       exists st, resolve (ds_router (td_daemon s)) host = Some st /\ site_name st = name).
Proof.
  intros W%manager_reachable_wf V%validate_spec Hr Hd.
  assert (forall site name secure tld host, resolve_site (ds_router (td_daemon s)) site = Some (name, secure, tld, host) ->
       exists st, resolve (ds_router (td_daemon s)) host = Some st /\ site_name st = name) as Hroutes by (intros *; apply resolve_site_routes).
  assert (exists r s', start_named te s = Some (r, s') /\ td_daemon s' = td_daemon s /\ td_ran s' = td_ran s /\
    (forall h n c, Spawned h n c ∈ m_acts (td_manager s') -> Spawned h n c ∉ m_acts (td_manager s) -> n = NAMED_KEY /\ exposes te s (td_files s') c)) as Hex.
  2: { destruct Hex as (r & s' & ? & ? & ? & ?). by exists r, s'. }
  unfold start_named. apply with_account_keeps.
  { intros code m s' E1 E2 E3 E4. eexists _, s'. split; [done|]. split; [done|]. split; [done|]. rewrite E2. done. }
  intros res s1 E1 E2 E3 E4. cbn zeta. rewrite E1.
  assert (forall r : TResponse, exists r' s', Some (r, s1) = Some (r', s') /\ td_daemon s' = td_daemon s /\ td_ran s' = td_ran s /\
    (forall h n c, Spawned h n c ∈ m_acts (td_manager s') -> Spawned h n c ∉ m_acts (td_manager s) -> n = NAMED_KEY /\ exposes te s (td_files s') c)) as Hsame.
  { intros r. exists r, s1. rewrite E2. done. }
  destruct (head (btree_iter (tunnel_named _))) as [[tunnel uuid]|] eqn:Eh; [|apply Hsame].
  set (enabled := btree_iter (tunnel_sites _)). destruct (is_empty enabled); [apply Hsame|].
  destruct (is_empty (ingress_rules _ enabled)); [apply Hsame|]. destruct (ensure_secret_dirs te); [|apply Hsame].
  destruct (te_write te (named_config_path te)); [|apply Hsame].
  set (text := render_ingress_config _ _ _). set (s2 := with_files _ s1).
  assert (wf (stop (te_sys te LAST_STEP) NAMED_KEY (td_manager s2)).2) as Ws by (apply stop_wf; unfold s2; cbn; by rewrite E2).
  assert (forall h n c, Spawned h n c ∈ m_acts (stop (te_sys te LAST_STEP) NAMED_KEY (td_manager s2)).2 -> Spawned h n c ∈ m_acts (td_manager s)) as Hst.
  { intros h n c H%stop_spawns. cbn in H. by rewrite E2 in H. }
  destruct (stop _ _ _) as [[[]|e] m]; cbn [snd] in Ws, Hst.
  2: { eexists _, _. split; [done|]. split; [done|]. split; [done|]. intros h n c H%Hst. done. }
  destruct (run_to_ready_spec te NAMED_KEY (r_binary res) (named_run_args (named_config_path te) (origincert (te_dirs_data te)))
    (pinned_home_env te ++ [("TUNNEL_ORIGIN_CERT"%str, origincert (te_dirs_data te))]) Named None (with_manager m s2) Ws) as (r & s' & -> & _ & Ed & Ef & Er & Hsp).
  exists r, s'. split; [done|]. split; [by rewrite Ed|]. split; [by rewrite Er|].
  intros h n c H Hnew. destruct (Hsp h n c H) as [H'%Hst|(-> & ->)]; [done|]. split; [done|].
  split; [done|apply origincert_env_confined|]. exists text, tunnel, uuid, (ingress_rules (td_daemon s) enabled).
  assert (tunnel_named (cf_tunnel (ds_config (td_daemon s))) !! tunnel = Some uuid) as Htn.
  { apply elem_of_btree_iter. destruct (btree_iter _) as [|e l]; [done|]. injection Eh as ->. by left. }
  destruct (vc_tunnel_named _ V) as (_ & Hkeys). destruct (Hkeys _ _ Htn) as (Ht & Hu). split; [|split; [done|split]].
  - rewrite Ef. cbn. by rewrite lookup_insert_eq.
  - apply ingress_reads; [by apply safe_key_no_nl|apply creds_no_nl; [done|by apply safe_key_no_nl]|]. apply rules_clean; [done|].
    intros [site hn] Hin. apply elem_of_btree_iter in Hin. destruct (vc_tunnel_sites _ V _ _ Hin) as (_ & Hh & _). by apply hostname_no_nl.
  - intros x. rewrite in_ingress_rules. unfold enabled. setoid_rewrite elem_of_btree_iter. done.
Qed.

(** ** Installing cloudflared *)

(** The host of a URL, as RFC 3986 has it: the authority ends at the first slash,
    question mark or number sign. *)
Definition ends_authority (c : N) : bool := (c =? "/"%ch) || (c =? "?"%ch) || (c =? "#"%ch).
Definition uri_host (u : str) : option str :=
  rest ← strip_prefix "https://"%str u;
  Some (split_first ":"%ch (split_last "@"%ch (take_while (fun c => negb (ends_authority c)) rest))).
Definition github_host (host : str) : bool :=
  eq_ignore_ascii_case host "github.com"%str || eq_ignore_ascii_case host "githubusercontent.com"%str
  || ends_with ".githubusercontent.com"%str (to_ascii_lowercase host).

Lemma split_first_take sep s : split_first sep s = take_while (fun c => negb (c =? sep)) s.
Proof.
  unfold split_first. destruct (split_char sep s) as [|w ws] eqn:E; [by apply split_char_ne in E|]. cbn.
  revert w ws E. induction s as [|c s IH]; intros w ws; cbn; [by intros [= <- _]|]. destruct (c =? sep); cbn; [by intros [= <- _]|].
  destruct (split_char sep s) as [|v vs] eqn:E; [by apply split_char_ne in E|]. intros [= <- <-]. f_equal. by eapply IH.
Qed.

Lemma take_while_ext {A} (p q : A -> bool) l : Forall (fun c => p c = q c) (take_while p l) -> (forall c, q c = true -> p c = true) ->
  take_while p l = take_while q l.
Proof.
  induction l as [|c l IH]; cbn; intros Hl Hq; [done|]. destruct (p c) eqn:Ep.
  - apply Forall_cons in Hl as [Hc Hl]. rewrite <- Hc, Ep. f_equal. auto.
  - destruct (q c) eqn:Eq; [|done]. apply Hq in Eq. congruence.
Qed.

(** Where nothing but a slash ends the authority, the host checked is the host asked. *)
Lemma host_is_trusted_exact u rest : strip_prefix "https://"%str u = Some rest ->
  Forall (fun c => c <> "?"%ch /\ c <> "#"%ch) (split_first "/"%ch rest) ->
  host_is_trusted u = match uri_host u with Some h => github_host h | None => false end.
Proof.
  intros E Hr. unfold host_is_trusted, uri_host. rewrite E. cbn [mbind option_bind]. unfold github_host.
  assert (split_first "/"%ch rest = take_while (fun c => negb (ends_authority c)) rest) as ->; [|done].
  rewrite split_first_take in *. apply take_while_ext.
  - eapply Forall_impl; [exact Hr|]. intros c (H1 & H2). unfold ends_authority. destruct (c =? "/"%ch); [done|]. cbn.
    apply N.eqb_neq in H1, H2. by rewrite H1, H2.
  - intros c. unfold ends_authority. destruct (c =? "/"%ch); done.
Qed.

(** A question mark ends the authority, too. *)
Lemma query_passes_for_github :
  host_is_trusted "https://evil.example?@github.com/cloudflared"%str = true /\
  uri_host "https://evil.example?@github.com/cloudflared"%str = Some "evil.example"%str /\ github_host "evil.example"%str = false.
Proof. by vm_compute. Qed.

Lemma file_name_ne dir a b : dir <> [] -> is_absolute a = false -> is_absolute b = false ->
  a <> b -> path_join dir a <> path_join dir b.
Proof.
  intros Hd Ha Hb Hne. unfold path_join. rewrite Ha, Hb. destruct (_ || _); [by intros ?%app_inv_head|].
  intros E%app_inv_head. by apply app_inv_head in E.
Qed.

Lemma tunnel_dir_ne data : tunnel_dir data <> [].
Proof. unfold tunnel_dir, path_join. cbn. destruct (_ || _); intros E%app_eq_nil; by destruct E. Qed.
Lemma bin_dir_ne data : path_join (tunnel_dir data) "bin"%str <> [].
Proof. unfold path_join at 1. cbn. destruct (_ || _); intros E%app_eq_nil; by destruct E. Qed.

Lemma staging_ne data pid : staging_path data pid <> binary_path data.
Proof.
  unfold staging_path, binary_path. apply file_name_ne; [apply bin_dir_ne|done|done|]. intros E. discriminate E.
Qed.

Lemma marker_ne data : version_marker data <> binary_path data.
Proof.
  intros E%(f_equal (fun p => last p)). unfold version_marker, binary_path, path_join in E. cbn in E.
  revert E. repeat (destruct (_ || _)); rewrite ?last_app; cbn; done.
Qed.

Section InstallFacts.
Context (sha256_hex : list N -> str) (read_release : list N -> option Release) (untar : list N -> option (list N)).

(** The bytes have the hash compiled in for the release, and the one published with the asset when there is one; or,
    when none is compiled in, the one that must be published. *)
Definition verified (bytes : list N) (tag : str) (asset : Asset) : Prop :=
  let hash want := to_ascii_lowercase (sha256_hex bytes) = to_ascii_lowercase want in
  match pinned_sha256 tag (asset_name asset) with
  | Some want => hash want /\ forall want', digest asset = Some ("sha256:"%str ++ want') -> hash want'
  | None => exists want, digest asset = Some ("sha256:"%str ++ want) /\ hash want
  end.

Lemma verify_integrity_sound bytes tag asset label :
  verify_integrity sha256_hex bytes (pinned_sha256 tag (asset_name asset)) (digest asset) label = Ok tt -> verified bytes tag asset.
Proof.
  unfold verify_integrity, verified. cbv zeta.
  assert (forall want', digest asset = Some ("sha256:"%str ++ want') -> (d ← digest asset; strip_prefix "sha256:"%str d) = Some want') as Hd.
  { intros want' ->. cbn [mbind option_bind]. by apply strip_prefix_Some. }
  destruct (pinned_sha256 tag (asset_name asset)) as [want|].
  - destruct (eq_ignore_ascii_case _ want) eqn:E; [|done]. cbn [negb]. intros Hg. split; [by apply eq_ignore_case_true|].
    intros want' Hw. rewrite (Hd want' Hw) in Hg. destruct (eq_ignore_ascii_case _ want') eqn:E'; [by apply eq_ignore_case_true|done].
  - destruct (digest asset) as [d|]; cbn [mbind option_bind] in *; [|done]. destruct (strip_prefix "sha256:"%str d) as [want|] eqn:Ed; [|done].
    destruct (eq_ignore_ascii_case _ want) eqn:E; [|done]. intros _. exists want. apply strip_prefix_Some in Ed as ->.
    split; [done|]. by apply eq_ignore_case_true.
Qed.

(** The asset for the host is the first of the release that bears the name Cloudflare gives it. *)
Definition asset_for (release : Release) (o : TargetOs) (a : TargetArch) (asset : Asset) : Prop :=
  asset_name asset = (host_asset o a).1 /\
  exists pre post, assets release = pre ++ asset :: post /\ forall x, x ∈ pre -> asset_name x <> asset_name asset.

(** What an installation may put in place: what the latest release published at this moment, downloaded from GitHub. *)
Record offered (target : option (TargetOs * TargetArch)) (download : str -> option (list N)) (tag : str) (program : list N) : Prop := {
  of_release : exists o a meta release asset bytes,
    target = Some (o, a) /\ download LATEST_RELEASE_API = Some meta /\ read_release meta = Some release /\ tag = tag_name release /\
    asset_for release o a asset /\ download (browser_download_url asset) = Some bytes /\ verified bytes tag asset /\
    (if (host_asset o a).2 then untar bytes = Some program else program = bytes) /\
    exists rest, browser_download_url asset = "https://"%str ++ rest /\
      (Forall (fun c => c <> "?"%ch /\ c <> "#"%ch) (split_first "/"%ch rest) ->
       exists h, uri_host (browser_download_url asset) = Some h /\ github_host h = true)
}.

Lemma trusted_url u : host_is_trusted u = true -> exists rest, u = "https://"%str ++ rest /\
  (Forall (fun c => c <> "?"%ch /\ c <> "#"%ch) (split_first "/"%ch rest) -> exists h, uri_host u = Some h /\ github_host h = true).
Proof.
  intros Ht. destruct (strip_prefix "https://"%str u) as [rest|] eqn:E; [|unfold host_is_trusted in Ht; by rewrite E in Ht].
  exists rest. split; [by apply strip_prefix_Some|]. intros Hf. rewrite (host_is_trusted_exact u rest E Hf) in Ht.
  destruct (uri_host u) as [h|]; [eauto|done].
Qed.

Ltac unchanged := intros [= <- <-]; split; [by auto|done].

Lemma install_binary_swap fa data pid version bytes files r files' :
  install_binary fa data pid version bytes files = (r, files') ->
  (files' !! binary_path data = files !! binary_path data \/ files' !! binary_path data = Some bytes) /\
  (r = Ok tt -> files' !! binary_path data = Some bytes /\ files' !! version_marker data = Some (os version)).
Proof.
  pose proof (staging_ne data pid) as Hs. pose proof (marker_ne data) as Hm.
  unfold install_binary, fs_write. repeat (destruct (negb _); [unchanged|]).
  destruct (fa_write fa (staging_path data pid)); cbn [negb].
  { intros [= <- <-]. rewrite lookup_insert_ne, lookup_delete_ne by done. split; [auto|done]. }
  destruct (negb (fa_chmod fa _)); [intros [= <- <-]; rewrite lookup_insert_ne, lookup_delete_ne by done; split; [auto|done]|].
  destruct (negb (fa_rename fa _)); [intros [= <- <-]; rewrite !lookup_delete_ne, lookup_insert_ne, lookup_delete_ne by done; split; [auto|done]|].
  destruct (fa_write fa (version_marker data)); intros [= <- <-]; rewrite (lookup_insert_ne _ (version_marker data)), lookup_insert_eq by done;
    (split; [auto|]); [done|]. by rewrite lookup_insert_eq.
Qed.

End InstallFacts.

(** ** What is asked of the account *)

(** Every one-shot names the account certificate and passes its free values where no
    option is read: a checked name or host name, never one that starts with a dash. *)
Definition plain_value (v : OsString) : Prop := exists s, v = os s /\ s <> [] /\ starts_with "-" s = false /\ Forall (fun c => name_char c = true) s.

Inductive account_call (data : OsString) : list OsString -> Prop :=
| ac_create name : is_valid_tunnel_name name = true -> account_call data (create_args name (origincert data) (creds_file data name))
| ac_route tunnel hostname : is_valid_tunnel_name tunnel = true -> is_safe_cli_value hostname = true ->
    account_call data (route_dns_args tunnel hostname (origincert data))
| ac_cleanup name : is_valid_tunnel_name name = true -> account_call data (cleanup_args name (origincert data))
| ac_delete name : is_valid_tunnel_name name = true -> account_call data (delete_args name (origincert data)).

Lemma valid_name_plain name : is_valid_tunnel_name name = true -> plain_value (os name).
Proof.
  intros Hn. exists name. split; [done|]. pose proof (name_chars name Hn). unfold is_valid_tunnel_name in Hn. bprop.
  split; [by apply is_empty_false|]. done.
Qed.
Lemma cli_value_plain s : is_safe_cli_value s = true -> plain_value (os s).
Proof.
  intros Hn. exists s. split; [done|]. pose proof (cli_value_chars s Hn). unfold is_safe_cli_value in Hn. bprop.
  split; [by apply is_empty_false|]. done.
Qed.

(** One request of the account: what it runs, and what it does to the daemon. *)
Record account_step (te : TEnv) (s s' : TState) (done_ : Prop) : Prop := {
  as_calls : exists calls, td_ran s' = td_ran s ++ calls /\ Forall (fun c => account_call (te_dirs_data te) c.2) calls;
  as_daemon : td_daemon s' = td_daemon s \/ done_;
}.

Lemma account_same te s s' P : td_daemon s' = td_daemon s -> td_ran s' = td_ran s -> account_step te s s' P.
Proof. intros E1 E2. split; [exists []; rewrite app_nil_r; by split|by left]. Qed.

Lemma run_oneshot_keeps te bin args s : let s' := (run_oneshot te bin args s).2 in
  td_daemon s' = td_daemon s /\ td_manager s' = td_manager s /\ td_ran s' = td_ran s ++ [(bin, args)].
Proof. unfold run_oneshot. by destruct (te_run te args (td_files s)). Qed.

Lemma create_step te name s : exists r s', create te name s = Some (r, s') /\
  account_step te s s' (exists uuid, is_uuid uuid = true /\ (r, td_daemon s') =
    (config_reply (record_named_tunnel (te_env te) name uuid (td_daemon s)).1, (record_named_tunnel (te_env te) name uuid (td_daemon s)).2) /\
    forall n, is_Some (tunnel_named (cf_tunnel (ds_config (td_daemon s))) !! n) -> n = name).
Proof.
  unfold create. apply with_account_keeps.
  { intros code m s' E1 _ _ E4. eexists _, s'. split; [done|]. by apply account_same. }
  intros res s1 E1 _ _ E4. destruct (is_valid_tunnel_name name) eqn:En; cbn [negb].
  2: { eexists _, s1. split; [done|]. by apply account_same. }
  destruct (ensure_secret_dirs te); [|eexists _, s1; split; [done|]; by apply account_same].
  destruct (existsb _ _) eqn:Ex; [eexists _, s1; split; [done|]; by apply account_same|].
  pose proof (run_oneshot_keeps te (r_binary res) (create_args name (origincert (te_dirs_data te)) (creds_file (te_dirs_data te) name)) s1) as (F1 & _ & F2).
  destruct (run_oneshot te _ _ s1) as [out s2]. cbn [snd] in F1, F2.
  assert (forall P s', td_daemon s' = td_daemon s2 \/ P -> td_ran s' = td_ran s2 -> account_step te s s' P) as Hstep.
  { intros P s' Hd Hr. split; [|rewrite <- E1, <- F1; tauto]. eexists. rewrite Hr, F2, E4. split; [done|]. constructor; [|constructor]. by apply ac_create. }
  destruct out as [out|e]; [|eexists _, s2; split; [done|]; by apply Hstep; [left|]].
  destruct (o_success out); cbn [negb]; [|eexists _, s2; split; [done|]; by apply Hstep; [left|]].
  destruct (find_tunnel_id _) as [uuid|] eqn:Eu; [|eexists _, s2; split; [done|]; by apply Hstep; [left|]].
  rewrite F1, E1. destruct (record_named_tunnel (te_env te) name uuid (td_daemon s)) as [r d] eqn:Er.
  eexists _, _. split; [done|]. apply Hstep; [right|done]. exists uuid. rewrite Er. split; [|split; [done|]].
  - by apply find_first_elem in Eu as [_ ?].
  - intros n (u & Hn). rewrite E1 in Ex. rewrite existsb_none in Ex. specialize (Ex (n, u)). rewrite elem_of_btree_iter in Ex.
    specialize (Ex Hn). cbn in Ex. apply negb_false_iff in Ex. by apply bool_decide_eq_true in Ex.
Qed.

Lemma route_step te tunnel hostname s : exists r s', route_dns te tunnel hostname s = Some (r, s') /\ account_step te s s' False /\ td_manager s' = td_manager s.
Proof.
  unfold route_dns. apply with_account_keeps.
  { intros code m s' E1 E2 _ E4. eexists _, s'. split; [done|]. split; [by apply account_same|done]. }
  intros res s1 E1 E2 _ E4. destruct (is_valid_tunnel_name tunnel) eqn:En; cbn [negb orb].
  2: { eexists _, s1. split; [done|]. split; [by apply account_same|done]. }
  destruct (is_safe_cli_value hostname) eqn:Eh; cbn [negb].
  2: { eexists _, s1. split; [done|]. split; [by apply account_same|done]. }
  pose proof (run_oneshot_keeps te (r_binary res) (route_dns_args tunnel hostname (origincert (te_dirs_data te))) s1) as (F1 & F3 & F2).
  destruct (run_oneshot te _ _ s1) as [out s2]. cbn [snd] in F1, F2, F3.
  assert (account_step te s s2 False) as Hs.
  { split; [|left; congruence]. eexists. rewrite F2, E4. split; [done|]. constructor; [|constructor]. by apply ac_route. }
  destruct out as [out|e]; eexists _, s2; (split; [done|]; split; [done|congruence]).
Qed.

Lemma delete_step te name s : exists r s', delete_named te name s = Some (r, s') /\
  account_step te s s' ((r, td_daemon s') =
    (config_reply (forget_named_tunnel (te_env te) name (td_daemon s)).1, (forget_named_tunnel (te_env te) name (td_daemon s)).2)) /\
  (td_ran s' <> td_ran s -> is_Some (tunnel_named (cf_tunnel (ds_config (td_daemon s))) !! name) /\ m_instances (td_manager s') !! NAMED_KEY = None).
Proof.
  unfold delete_named. apply with_account_keeps.
  { intros code m s' E1 _ _ E4. eexists _, s'. split; [done|]. split; [by apply account_same|done]. }
  intros res s1 E1 E2 _ E4. destruct (is_valid_tunnel_name name) eqn:En; cbn [negb].
  2: { eexists _, s1. split; [done|]. split; [by apply account_same|done]. }
  rewrite E1. destruct (existsb _ _) eqn:Ex; cbn [negb]; [|eexists _, s1; split; [done|]; split; [by apply account_same|done]].
  assert (is_Some (tunnel_named (cf_tunnel (ds_config (td_daemon s))) !! name)) as Hconf.
  { apply existsb_elem in Ex as ([n u] & Hin & En'). cbn in En'. apply bool_decide_eq_true in En' as ->. exists u. by apply elem_of_btree_iter. }
  pose proof (stop_removes (te_sys te 0%nat) NAMED_KEY (td_manager s1)) as Hst.
  destruct (stop (te_sys te 0%nat) NAMED_KEY (td_manager s1)) as [[[]|e] m]; cbn [snd] in Hst.
  2: { eexists _, _. split; [done|]. split; [by apply account_same|]. intros H. by cbn in H. }
  set (s2 := with_manager m s1).
  pose proof (run_oneshot_keeps te (r_binary res) (cleanup_args name (origincert (te_dirs_data te))) s2) as (F1 & F2 & F3).
  set (s3 := (run_oneshot te (r_binary res) (cleanup_args name (origincert (te_dirs_data te))) s2).2) in *.
  pose proof (run_oneshot_keeps te (r_binary res) (delete_args name (origincert (te_dirs_data te))) s3) as (G1 & G2 & G3).
  destruct (run_oneshot te (r_binary res) (delete_args _ _) s3) as [out s4]. cbn [snd] in G1, G2, G3.
  assert (td_daemon s4 = td_daemon s) as Hd by (rewrite G1, F1; exact E1).
  assert (m_instances (td_manager s4) !! NAMED_KEY = None) as Hnone.
  { rewrite G2, F2. cbn. by rewrite Hst, lookup_delete_eq. }
  assert (forall (P : Prop) s', td_daemon s' = td_daemon s \/ P -> td_ran s' = td_ran s4 -> account_step te s s' P) as Hstep.
  { intros P s' Hd' Hr. split; [|done]. eexists. rewrite Hr, G3, F3. cbn. rewrite E4, <- app_assoc. split; [done|].
    constructor; [by apply ac_cleanup|]. constructor; [by apply ac_delete|constructor]. }
  destruct out as [out|e]; [|eexists _, s4; split; [done|]; split; [by apply Hstep; [left|]|done]].
  destruct (o_success out); cbn [negb]; [|eexists _, s4; split; [done|]; split; [by apply Hstep; [left|]|done]].
  cbn [with_files td_daemon]. rewrite Hd. destruct (forget_named_tunnel (te_env te) name (td_daemon s)) as [r d] eqn:Er.
  eexists _, _. split; [done|]. split; [apply Hstep; [by right|done]|done].
Qed.

(** The account is asked only what was checked: the requests that create, route and
    delete the named tunnel always answer, and run cloudflared with nothing but checked
    names and host names after the account's certificate, none of which can be read as an
    option; a second tunnel is never created and only the recorded one is deleted, once
    it no longer runs; the configuration changes only as the last step, to record the id
    cloudflared printed or to forget the tunnel. *)
Theorem account_requests_checked te s name hostname :
  (exists r s', create te name s = Some (r, s') /\
     account_step te s s' (exists uuid, is_uuid uuid = true /\
       (r, td_daemon s') = (config_reply (record_named_tunnel (te_env te) name uuid (td_daemon s)).1,
                            (record_named_tunnel (te_env te) name uuid (td_daemon s)).2) /\
       forall n, is_Some (tunnel_named (cf_tunnel (ds_config (td_daemon s))) !! n) -> n = name)) /\
  (exists r s', route_dns te name hostname s = Some (r, s') /\ account_step te s s' False /\ td_manager s' = td_manager s) /\
  (exists r s', delete_named te name s = Some (r, s') /\
     account_step te s s' ((r, td_daemon s') = (config_reply (forget_named_tunnel (te_env te) name (td_daemon s)).1,
                                                (forget_named_tunnel (te_env te) name (td_daemon s)).2)) /\
     (td_ran s' <> td_ran s -> is_Some (tunnel_named (cf_tunnel (ds_config (td_daemon s))) !! name) /\
                               m_instances (td_manager s') !! NAMED_KEY = None)) /\
  (forall c, account_call (te_dirs_data te) c ->
     exists verbs values, c = origincert_tunnel_prefix (origincert (te_dirs_data te)) ++ verbs ++ values /\ Forall plain_value values /\ values <> []).
Proof.
  split; [apply create_step|]. split; [apply route_step|]. split; [apply delete_step|].
  intros c [n Hn|n h Hn Hh|n Hn|n Hn].
  - exists ["create"%str; "--credentials-file"%str; creds_file (te_dirs_data te) n], [os n]. split; [done|]. split; [|done]. by repeat constructor; apply valid_name_plain.
  - exists ["route"%str; "dns"%str; "--overwrite-dns"%str], [os n; os h]. split; [done|]. split; [|done].
    constructor; [by apply valid_name_plain|]. constructor; [by apply cli_value_plain|constructor].
  - exists ["cleanup"%str], [os n]. split; [done|]. split; [|done]. constructor; [by apply valid_name_plain|constructor].
  - exists ["delete"%str], [os n]. split; [done|]. split; [|done]. constructor; [by apply valid_name_plain|constructor].
Qed.

(** ** The cache of the answer *)

(** What happens to the cache: an answer computed without the lock is committed, or an
    install finishes. *)
Inductive cache_step (s : TState) : TState -> Prop :=
| cst_commit fresh : cache_step s (commit_resolution fresh s).2
| cst_installed te : cache_step s (refresh_cloudflared_cache_after_install te s).

(** However resolutions and installs interleave, a managed cloudflared is never given up
    for another, and a binary of the system is only used while it can be executed. *)
Lemma managed_stays s s' : rtc cache_step s s' -> is_managed (td_cache s) = true -> is_managed (td_cache s') = true.
Proof.
  induction 1 as [|s1 s2 s3 Hs _ IH]; [done|]. intros Hm. apply IH. clear IH. destruct Hs as [fresh|te]; [|done].
  unfold commit_resolution, is_downgrade. rewrite Hm. destruct (is_managed fresh) eqn:E; done.
Qed.

Lemma resolved_usable te s r : (resolved_cloudflared te s).1 = Some r ->
  r_source r = System -> td_cache s = Some r \/ td_cache s = None \/ is_managed (td_cache s) = false ->
  h_is_executable (te_host te) (r_binary r) = true.
Proof.
  unfold resolved_cloudflared, cached_cloudflared_if_valid, commit_resolution.
  assert (resolve_binary (te_host te) (te_dirs_data te) = Some r -> r_source r = System -> h_is_executable (te_host te) (r_binary r) = true) as Hfresh.
  { unfold resolve_binary. destruct (is_installed _ _); [by intros [= <-]|]. destruct (find_cloudflared (te_host te)) as [cand|] eqn:Ec; [|done].
    cbn [mbind option_bind]. destruct (h_probe _ cand) as [raw|]; [|done]. cbn [mbind option_bind].
    destruct (parse_cloudflared_version raw) as [[v p]|]; [|done]. cbn [mbind option_bind]. destruct (version_lt _ _); [done|]. intros [= <-] _. cbn.
    assert (forall dirs x, find_in_dirs (te_host te) dirs = Some x -> h_is_executable (te_host te) x = true) as Hd.
    { intros dirs x (d & _ & Hx)%find_map_Some. cbn zeta in Hx. step_in Hx. by injection Hx as <-. }
    unfold find_cloudflared in Ec. destruct (h_path (te_host te) ≫= find_in_dirs (te_host te)) as [f|] eqn:Ep.
    - injection Ec as <-. destruct (h_path (te_host te)); [|done]. by eapply Hd.
    - destruct (h_user_dirs (te_host te)); [|done]. by eapply Hd. }
  destruct (td_cache s) as [c|] eqn:Ec; cbn [mbind option_bind].
  - destruct (r_source c) eqn:Es.
    + intros [= ->]. congruence.
    + destruct (h_is_executable (te_host te) (r_binary c)) eqn:Ex; [by intros [= ->]|].
      unfold is_downgrade, is_managed at 1. cbn. rewrite Es. cbn. auto.
  - cbn. auto.
Qed.

(** ** Runs *)

Definition demo_daemon : DaemonState :=
  mkState Config_default None ∅ demo_router ∅ ∅ ∅ (mkPortStatus 80 8080 true) (mkPortStatus 443 8443 true) true None false None None.
Definition demo_enabled : DaemonState :=
  set_config (put_tunnel (mkTunnel {["home"%str := "6ff42ae2-765d-4adf-8112-31c55c1551ef"%str]} {["blog"%str := "blog.example.com"%str; "gone"%str := "x.example.com"%str]}) Config_default) demo_daemon.
Definition demo_host : Host := mkHost (fun _ => true) (fun _ => true) None None None (fun _ => None).
Definition demo_fs_env : Fs := demo_fs true.
Definition demo_log_sys : Sys :=
  mkSys (fun _ => Ok tt) (fun _ => Ok tt) (fun _ => Ok tt) (fun _ => Ok 4711) (fun _ => Ok None) (fun _ _ => Ok tt) (fun _ => true)
    (fun _ => Some (banner ++ [NL] ++ "INF Registered tunnel connection"%str)).
Definition demo_tenv : TEnv :=
  mkTEnv "/data"%str "/state"%str (mkEnv demo_fs_env (Ok tt) (Ok tt) (fun _ => true) None [] 0) demo_host (fun _ => None) (fun _ => Ok tt) (fun _ => Ok tt)
    (fun _ f => (Ok (mkOutput true [] []), f)) (fun _ => demo_log_sys) (fun _ => 5) 0.
Definition demo_tunnels (d : DaemonState) : TState := mkTState d new_manager None None {[origincert "/data"%str := []]} [].

Lemma quick_tunnel_reaches_site_witness :
  manager_reachable (td_manager (demo_tunnels demo_daemon)) /\
  exists r s', start_quick_tunnel demo_tenv "blog.test"%str (demo_tunnels demo_daemon) = Some (r, s') /\ td_daemon s' = demo_daemon.
Proof.
  split; [apply rtc_refl|].
  destruct (quick_tunnel_reaches_site demo_tenv "blog.test"%str (demo_tunnels demo_daemon) (rtc_refl _ _)) as (r & s' & E & Ed & _).
  exists r, s'. split; [exact E|exact Ed].
Defined.

Lemma named_tunnel_exposes_enabled_witness :
  validate (ds_config demo_enabled) = Ok tt /\
  exists r s', start_named demo_tenv (demo_tunnels demo_enabled) = Some (r, s') /\ td_daemon s' = demo_enabled.
Proof.
  split; [by vm_compute|].
  destruct (named_tunnel_exposes_enabled demo_tenv (demo_tunnels demo_enabled)) as (r & s' & E & Ed & _).
  - apply rtc_refl.
  - by vm_compute.
  - split; [|split].
    + intros n d Hd. change (r_primaries (ds_router _)) with (<["blog"%str := mkDomain "blog"%str]> (∅ : gmap str Domain)) in Hd.
      apply lookup_insert_Some in Hd as [[_ <-]|[_ Hd]]; [by apply literal_no_nl|by rewrite lookup_empty in Hd].
    + intros n st Hst. change (r_sites (ds_router _)) with (<["blog"%str := demo_site]> (∅ : gmap str Site)) in Hst.
      apply lookup_insert_Some in Hst as [[_ <-]|[_ Hst]]; [by apply literal_no_nl|by rewrite lookup_empty in Hst].
    + by apply literal_no_nl.
  - by apply literal_no_nl.
  - exists r, s'. split; [exact E|exact Ed].
Defined.

(** The site that no longer resolves is left out of the configuration written. *)
Lemma demo_named_config :
  match start_named demo_tenv (demo_tunnels demo_enabled) with
  | Some (TTunnels _ _, s') =>
      (files ← td_files s' !! named_config_path demo_tenv; text ← from_utf8 files; read_ingress text)
      = Some ("6ff42ae2-765d-4adf-8112-31c55c1551ef"%str, "/data/tunnel/creds/home.json"%str,
              [mkSeen "blog.example.com"%str "http://127.0.0.1:8080"%str "blog.test"%str None false])
  | _ => False
  end.
Proof. by vm_compute. Qed.

(** A tunnel started by the site's host is not stopped by it: the manager knows it by
    the site's name. *)
Lemma stop_by_host_does_nothing :
  match start_quick_tunnel demo_tenv "blog.test"%str (demo_tunnels demo_daemon) with
  | Some (TTunnels [started] _, s1) =>
      ti_state started = RunRunning /\
      match stop_tunnel demo_tenv "blog.test"%str s1 with
      | (TTunnels [still] _, _) => ti_site still = "blog"%str /\ ti_state still = RunRunning
      | _ => False
      end
  | _ => False
  end.
Proof. by vm_compute. Qed.

(** A site enabled under its host and shared by a quick tunnel is counted twice, and so
    is one the named tunnel leaves out. *)
Definition demo_by_host : DaemonState :=
  set_config (put_tunnel (mkTunnel {["home"%str := "6ff42ae2-765d-4adf-8112-31c55c1551ef"%str]} {["blog.test"%str := "blog.example.com"%str; "gone"%str := "x.example.com"%str]}) Config_default) demo_daemon.
Lemma shared_count_too_high :
  match start_quick_tunnel demo_tenv "blog"%str (demo_tunnels demo_by_host) with
  | Some (_, s1) =>
      match start_named demo_tenv s1 with
      | Some (_, s2) => (shared_site_count demo_tenv s2).1 = 3
      | None => False
      end
  | None => False
  end.
Proof. by vm_compute. Qed.

(** The account requests on a logged-in account. *)
Lemma create_without_id : fst <$> create demo_tenv "home"%str (demo_tunnels demo_daemon) = Some (TError ErrInternal TmNoId).
Proof. by vm_compute. Qed.

Definition demo_release : Release := mkRelease "2024.6.1"%str [mkAsset "cloudflared-linux-amd64"%str "https://github.com/x"%str (Some "sha256:AB"%str)].
Definition demo_install : result CloudflaredInstallError unit * Files :=
  install (fun _ => "ab"%str) (fun _ => Some demo_release) (fun _ => None) (Some (Linux, X86_64)) (fun _ => Some [127; 69])
    (mkAnswers (fun _ => true) (fun _ => true) (fun _ => None) (fun _ => true) (fun _ => true)) "/data"%str 7 ∅.
