(* ===== verification/Update.v ===== *)
(** * Releases: choosing, publishing and verifying

    [src/crates/orcker-update] (which release a channel updates to, which of its files a
    platform installs, and how it is verified) and [src/crates/orcker-release-manifest]
    (the manifests published for the daemon and the synchronisation of the mirror).
    Versions are the semver crate's, the hash and the signature those of their crates:
    the interfaces [Semver] and [Crypto]. *)

From S2P Require Import Prelude RustStr RustText RustMap Config.

Open Scope N_scope.

(** ** The libraries *)

Class Semver := {
  Version : Type;
  Version_eq_dec : EqDecision Version;
  version_parse : str -> option Version;       (* [Version::parse] *)
  version_show : Version -> str;               (* [to_string] *)
  version_cmp : Version -> Version -> comparison;
  pre_is_empty : Version -> bool;              (* [version.pre.is_empty()] *)
}.
#[export] Existing Instance Version_eq_dec.

(** [Version] is totally ordered and prints what it parses. *)
Class SemverLaws `{Semver} := {
  version_cmp_eq a b : version_cmp a b = Eq <-> a = b;
  version_cmp_flip a b : version_cmp b a = CompOpp (version_cmp a b);
  version_cmp_trans a b c : version_cmp a b = Gt -> version_cmp b c = Gt -> version_cmp a c = Gt;
  version_parse_show v : version_parse (version_show v) = Some v;
}.

Class Crypto := {
  sha256_hex : list N -> str;                          (* lowercase, [hex::encode] of the digest *)
  PublicKey : Type;
  Signature : Type;
  from_base64 : str -> option PublicKey;
  decode_signature : str -> option Signature;
  signed : PublicKey -> list N -> Signature -> bool;   (* [pk.verify(bytes, &sig, false).is_ok()] *)
}.

Section WithSemver.
Context `{SV : Semver}.

Definition version_gt (a b : Version) : bool := match version_cmp a b with Gt => true | _ => false end.

(** ** [lib.rs]: channels and the decision *)

Inductive Channel := Stable | Edge.
#[export] Instance Channel_eq_dec : EqDecision Channel.
Proof. solve_decision. Defined.

Definition Channel_as_str (c : Channel) : str := match c with Stable => "stable"%str | Edge => "edge"%str end.
Definition Channel_parse (s : str) : option Channel :=
  if str_eqb s "stable" then Some Stable else if str_eqb s "edge" then Some Edge else None.

Record Asset := mkAsset { asset_name : str; asset_url : str; asset_size : N }.

Record ReleaseMeta := mkMeta {
  rm_version : Version;
  rm_tag : str;
  rm_prerelease : bool;
  rm_assets : list Asset;
  rm_notes : option str;
}.

Definition is_prerelease (r : ReleaseMeta) : bool := rm_prerelease r || negb (pre_is_empty (rm_version r)).

Record UpdateDecision := mkDecision {
  ud_current : Version;
  ud_latest_stable : option Version;
  ud_latest_edge : option Version;
  ud_channel : Channel;
  ud_target : option Version;
  ud_available : bool;
  ud_ahead_of_stable : bool;
}.

Definition CHECK_INTERVAL_SECS : N := 4 * 60 * 60.
Definition is_check_due (last_checked_epoch : option N) (now_epoch : N) : bool :=
  match last_checked_epoch with None => true | Some last => CHECK_INTERVAL_SECS <=? now_epoch - last end.

Definition parse_tag (tag : str) : option Version :=
  version_parse (default tag (match strip_prefix "v"%str tag with Some r => Some r | None => strip_prefix "V"%str tag end)).

(** [latest.map_or(true, |e| v > e)] *)
Definition newer_than (v : Version) (latest : option Version) : bool :=
  match latest with None => true | Some e => version_gt v e end.

Definition latest_step (acc : option Version * option Version) (r : ReleaseMeta) : option Version * option Version :=
  let '(latest_stable, latest_edge) := acc in
  let v := rm_version r in
  let latest_edge := if newer_than v latest_edge then Some v else latest_edge in
  let latest_stable := if negb (is_prerelease r) && newer_than v latest_stable then Some v else latest_stable in
  (latest_stable, latest_edge).

Definition select_target (releases : list ReleaseMeta) (channel : Channel) (current : Version) : UpdateDecision :=
  let '(latest_stable, latest_edge) := foldl latest_step (None, None) releases in
  let candidate := match channel with Stable => latest_stable | Edge => latest_edge end in
  let target := c ← candidate; if version_gt c current then Some c else None in
  mkDecision current latest_stable latest_edge channel target (bool_decide (is_Some target))
    (negb (pre_is_empty current) && newer_than current latest_stable).

(** ** [artifact.rs]: the files of a release *)

Inductive Platform := MacOsAarch64 | MacOsX86_64 | LinuxX86_64 | LinuxAarch64 | Unsupported.
Inductive ArtifactKind := AppTarGz | KDeb | KPacman | KRpm.
Inductive PkgFormat := Deb | Pacman | Rpm.

Record ArtifactSelection := mkSelection { artifact : Asset; signature : Asset; checksums : Asset; kind : ArtifactKind }.

Inductive AssetError := NoArtifactForPlatform (p : Platform) | MissingSignature (name : str) | MissingChecksums.

Definition x86_name (name : str) : bool := contains_str "x86_64"%str name || contains_str "amd64"%str name.
Definition arm_name (lower : str) : bool := contains_str "aarch64"%str lower || contains_str "arm64"%str lower.

Definition is_macos_aarch64_artifact (name : str) : bool :=
  ends_with ".app.tar.gz" name && (contains_str "AppleSilicon"%str name || contains_str "aarch64"%str name || contains_str "arm64"%str name).
Definition is_linux_x86_64_artifact (name : str) : bool := ends_with ".deb" name && x86_name name.
Definition is_linux_aarch64_artifact (name : str) : bool :=
  let lower := to_ascii_lowercase name in ends_with ".deb" lower && arm_name lower.
Definition is_linux_x86_64_pacman (name : str) : bool := ends_with ".pkg.tar.zst" name && x86_name name.
Definition is_linux_aarch64_pacman (name : str) : bool :=
  let lower := to_ascii_lowercase name in ends_with ".pkg.tar.zst" lower && arm_name lower.
Definition is_linux_x86_64_rpm (name : str) : bool := ends_with ".rpm" name && x86_name name.
Definition is_linux_aarch64_rpm (name : str) : bool :=
  let lower := to_ascii_lowercase name in ends_with ".rpm" lower && arm_name lower.

Definition artifact_matcher (platform : Platform) (format : PkgFormat) : option (ArtifactKind * (str -> bool)) :=
  match platform, format with
  | MacOsAarch64, _ => Some (AppTarGz, is_macos_aarch64_artifact)
  | LinuxX86_64, Deb => Some (KDeb, is_linux_x86_64_artifact)
  | LinuxX86_64, Pacman => Some (KPacman, is_linux_x86_64_pacman)
  | LinuxAarch64, Deb => Some (KDeb, is_linux_aarch64_artifact)
  | LinuxAarch64, Pacman => Some (KPacman, is_linux_aarch64_pacman)
  | LinuxX86_64, Rpm => Some (KRpm, is_linux_x86_64_rpm)
  | LinuxAarch64, Rpm => Some (KRpm, is_linux_aarch64_rpm)
  | (MacOsX86_64 | Unsupported), _ => None
  end.

Definition find_asset (release : ReleaseMeta) (p : str -> bool) : option Asset :=
  find_first (fun a => p (asset_name a)) (rm_assets release).

Definition select_asset (release : ReleaseMeta) (platform : Platform) (format : PkgFormat) : result AssetError ArtifactSelection :=
  match artifact_matcher platform format with
  | None => Err (NoArtifactForPlatform platform)
  | Some (kind, matches) =>
      art ← ok_or (NoArtifactForPlatform platform) (find_asset release matches);
      let minisig_name := asset_name art ++ ".minisig"%str in
      let sig_name := asset_name art ++ ".sig"%str in
      sig ← ok_or (MissingSignature (asset_name art))
              (match find_asset release (fun n => str_eqb n minisig_name) with
               | Some a => Some a
               | None => find_asset release (fun n => str_eqb n sig_name)
               end);
      sums ← ok_or MissingChecksums (find_asset release (fun n => str_eqb n "SHA256SUMS"));
      Ok (mkSelection art sig sums kind)
  end.

Inductive VerifyError := ChecksumMismatch | ChecksumMissing | BadPublicKey | BadSignature | SignatureMismatch.

Definition sums_line (filename line : str) : option str :=
  match split_whitespace line with
  | hex :: name :: _ =>
      let name := default name (strip_prefix "*"%str name) in
      let name := default name (strip_prefix "./"%str name) in
      if str_eqb name filename then Some hex else None
  | _ => None
  end.
Definition sha256_for (sums filename : str) : option str := find_map (sums_line filename) (str_lines sums).

Context `{CR : Crypto}.

Definition verify_sha256 (bytes : list N) (sums filename : str) : result VerifyError unit :=
  expected ← ok_or ChecksumMissing (sha256_for sums filename);
  if eq_ignore_ascii_case (sha256_hex bytes) expected then Ok tt else Err ChecksumMismatch.

Definition verify_minisign (public_key_b64 signature : str) (bytes : list N) : result VerifyError unit :=
  pk ← ok_or BadPublicKey (from_base64 public_key_b64);
  sig ← ok_or BadSignature (decode_signature signature);
  if signed pk bytes sig then Ok tt else Err SignatureMismatch.

Definition UPDATE_PUBLIC_KEY : str := "RWRXUQIpU8uZ3B6SV3yFsK3+aAWZX+efytjc8F+8PTuViL8/nNPsQxpi"%str.

(** ** The manifests, [orcker-release-manifest] *)

Definition LATEST_SCHEMA : N := 1.

Record AssetEntry := mkAssetEntry { ae_name : str; browser_download_url : str; ae_size : N }.
Record ReleaseEntry := mkEntry {
  tag_name : str;
  prerelease : bool;
  draft : bool;
  body : option str;
  assets : list AssetEntry;
}.
Record LatestManifest := mkLatest { schema : N; stable : option ReleaseEntry; rc : option ReleaseEntry }.

Definition entry_version (r : ReleaseEntry) : option Version := parse_tag (tag_name r).
Definition entry_is_prerelease (r : ReleaseEntry) (v : Version) : bool := prerelease r || negb (pre_is_empty v).

(** A [BTreeSet] of pairs is its membership test. *)
Definition rewrite_urls (entry : ReleaseEntry) (cdn_base : str) (mirrored_assets : list (str * str)) : ReleaseEntry :=
  let base := trim_end_matches (N.eqb "/"%ch) cdn_base in
  mkEntry (tag_name entry) (prerelease entry) (draft entry) (body entry)
    ((fun a => mkAssetEntry (ae_name a)
                 (if bool_decide ((tag_name entry, ae_name a) ∈ mirrored_assets)
                  then base ++ "/releases/"%str ++ tag_name entry ++ "/"%str ++ ae_name a
                  else browser_download_url a)
                 (ae_size a)) <$> assets entry).

(** [sort_by(|a, b| b.0.cmp(&a.0))]: newest first, and stable. *)
Fixpoint insert_newest {A} (x : Version * A) (l : list (Version * A)) : list (Version * A) :=
  match l with
  | [] => [x]
  | y :: l' => if version_gt y.1 x.1 then y :: insert_newest x l' else x :: l
  end.
Definition sort_newest {A} (l : list (Version * A)) : list (Version * A) := foldr insert_newest [] l.

Definition keep_entry (cdn_base : str) (mirrored : list (str * str)) (r : ReleaseEntry) : option (Version * ReleaseEntry) :=
  if draft r then None
  else v ← entry_version r; Some (v, rewrite_urls r cdn_base mirrored).

Notation Item := (Version * ReleaseEntry)%type.

Definition newest_step (acc : option Item * option Item) (item : Item) : option Item * option Item :=
  let '(stable, highest_pre) := acc in
  let '(v, entry) := item in
  if entry_is_prerelease entry v then
    (stable, if newer_than v (fst <$> highest_pre) then Some item else highest_pre)
  else (if newer_than v (fst <$> stable) then Some item else stable, highest_pre).

Definition build_manifests (releases : list ReleaseEntry) (cdn_base : str) (mirrored_assets : list (str * str))
    : list ReleaseEntry * LatestManifest :=
  let kept := sort_newest (omap (keep_entry cdn_base mirrored_assets) releases) in
  let '(stable, highest_pre) := foldl newest_step (None, None) kept in
  let rc := pre ← highest_pre; if newer_than pre.1 (fst <$> stable) then Some pre else None in
  (kept.*2, mkLatest LATEST_SCHEMA (snd <$> stable) (snd <$> rc)).

(** ** Synchronising the mirror *)

Record ExpectedAsset := mkExpected { ex_tag : str; ex_name : str; ex_size : N; ex_sha256 : option str }.
Definition cdn_path (e : ExpectedAsset) : str := "releases/"%str ++ ex_tag e ++ "/"%str ++ ex_name e.

Record CdnObject := mkObject { obj_path : str; obj_size : N; obj_checksum : option str }.

Definition split_release_path (path : str) : option (str * str) :=
  match split_char "/"%ch path with
  | [root; tag; name] => if str_eqb root "releases" && negb (is_empty tag) && negb (is_empty name) then Some (tag, name) else None
  | _ => None
  end.
Definition obj_tag (o : CdnObject) : option str := fst <$> split_release_path (obj_path o).

Record ReconcilePlan := mkPlan { to_upload : list ExpectedAsset; to_update : list ExpectedAsset; to_delete : list str }.

Definition checksum_mismatch (expected cdn : option str) : bool :=
  match expected, cdn with Some e, Some c => negb (eq_ignore_ascii_case e c) | _, _ => false end.

(** The map collected from the listing: of two objects at a path the later counts. *)
Definition cdn_by_path (cdn : list CdnObject) : gmap str CdnObject :=
  foldl (fun m o => <[obj_path o := o]> m) ∅ cdn.

Definition object_differs (exp : ExpectedAsset) (obj : CdnObject) : bool :=
  negb (obj_size obj =? ex_size exp) || checksum_mismatch (ex_sha256 exp) (obj_checksum obj).

Definition deletable (known_tags public_tags : list str) (o : CdnObject) : bool :=
  match obj_tag o with
  | None => false
  | Some tag => negb (bool_decide (tag ∈ known_tags)) || bool_decide (tag ∈ public_tags)
  end.

Definition reconcile (expected : list ExpectedAsset) (cdn : list CdnObject) (known_tags public_tags : list str) : ReconcilePlan :=
  let by_path := cdn_by_path cdn in
  let absent exp := match by_path !! cdn_path exp with None => true | Some _ => false end in
  let stale exp := match by_path !! cdn_path exp with None => false | Some obj => object_differs exp obj end in
  let expected_paths := cdn_path <$> expected in
  mkPlan (bfilter absent expected) (bfilter stale expected)
    (if is_empty expected then []
     else obj_path <$> bfilter (fun o => negb (bool_decide (obj_path o ∈ expected_paths)) && deletable known_tags public_tags o) cdn).

(** [src/xtask/src/cdn.rs]: what the plan is computed from.  [sums_of] is the downloaded
    [SHA256SUMS] of a tag, read once per tag. *)
Definition expected_assets (sums_of : str -> option str) (releases : list ReleaseEntry) : list ExpectedAsset :=
  releases ≫= fun r =>
    if draft r then []
    else (fun a => mkExpected (tag_name r) (ae_name a) (ae_size a) (s ← sums_of (tag_name r); sha256_for s (ae_name a))) <$> assets r.

Definition run_reconcile_plan (sums_of : str -> option str) (releases : list ReleaseEntry) (listing : list CdnObject) : ReconcilePlan :=
  reconcile (expected_assets sums_of releases)
    (bfilter (fun o => bool_decide (is_Some (split_release_path (obj_path o)))) listing)
    (tag_name <$> releases) (tag_name <$> bfilter (fun r => negb (draft r)) releases).

Definition run_manifests (releases : list ReleaseEntry) (listing : list CdnObject) (cdn_base : str) : list ReleaseEntry * LatestManifest :=
  build_manifests releases cdn_base (omap (fun o => split_release_path (obj_path o)) listing).
End WithSemver.

(** ** A valid signature *)

Section Signatures.
Context `{CR : Crypto}.

Definition valid_signature (public_key_b64 signature : str) (bytes : list N) : Prop :=
  exists pk sig, from_base64 public_key_b64 = Some pk /\ decode_signature signature = Some sig /\ signed pk bytes sig = true.

Lemma verify_minisign_ok key sig bytes : verify_minisign key sig bytes = Ok tt <-> valid_signature key sig bytes.
Proof.
  unfold verify_minisign, valid_signature. split.
  - intros (pk & Hk & H)%bind_ok. apply bind_ok in H as (s & Hs & H). exists pk, s.
    destruct (from_base64 key); [|done]. destruct (decode_signature sig); [|done]. injection Hk as ->. injection Hs as ->.
    by destruct (signed pk bytes s).
  - intros (pk & s & -> & -> & H). cbn. by rewrite H.
Qed.
End Signatures.

(** ** The newest version of a list *)

Section Newest.
Context `{SV : Semver} `{SL : !SemverLaws}.

Lemma version_gt_irrefl v : version_gt v v = false.
Proof. unfold version_gt. by rewrite (proj2 (version_cmp_eq v v) eq_refl). Qed.

Lemma version_gt_trans a b c : version_gt a b = true -> version_gt b c = true -> version_gt a c = true.
Proof.
  unfold version_gt. destruct (version_cmp a b) eqn:E1; try done. destruct (version_cmp b c) eqn:E2; try done.
  intros _ _. by rewrite (version_cmp_trans a b c E1 E2).
Qed.

Lemma version_gt_total a b : version_gt a b = false -> version_gt b a = false -> a = b.
Proof.
  unfold version_gt. rewrite (version_cmp_flip a b). destruct (version_cmp a b) eqn:E; cbn; try done.
  intros _ _. by apply version_cmp_eq.
Qed.

Lemma version_gt_asym a b : version_gt a b = true -> version_gt b a = false.
Proof.
  intros H. destruct (version_gt b a) eqn:E; [|done]. pose proof (version_gt_trans a b a H E) as F. by rewrite version_gt_irrefl in F.
Qed.

(** At most as new as. *)
Lemma version_le_trans a b c : version_gt a b = false -> version_gt b c = false -> version_gt a c = false.
Proof.
  intros H1 H2. destruct (version_gt a c) eqn:E; [|done]. destruct (version_gt b a) eqn:E2.
  - pose proof (version_gt_trans b a c E2 E). congruence.
  - pose proof (version_gt_total a b H1 E2) as ->. congruence.
Qed.

Definition is_newest (o : option Version) (l : list Version) : Prop :=
  match o with None => l = [] | Some v => v ∈ l /\ forall w, w ∈ l -> version_gt w v = false end.

Definition pick (acc : option Version) (v : Version) : option Version := if newer_than v acc then Some v else acc.

Lemma pick_newest acc l v : is_newest acc l -> is_newest (pick acc v) (l ++ [v]).
Proof.
  unfold pick. destruct acc as [e|]; cbn [is_newest newer_than].
  - intros [He Hmax]. destruct (version_gt v e) eqn:E; cbn; split; rewrite ?elem_of_app, ?list_elem_of_singleton; auto;
      intros w; rewrite elem_of_app, list_elem_of_singleton; intros [Hw| ->]; auto using version_gt_irrefl.
    apply version_le_trans with e; [by apply Hmax|by apply version_gt_asym].
  - intros ->. cbn. split; [by left|]. intros w ->%list_elem_of_singleton. apply version_gt_irrefl.
Qed.

Lemma foldl_pick l : forall acc l0, is_newest acc l0 -> is_newest (foldl pick acc l) (l0 ++ l).
Proof.
  induction l as [|v l IH]; intros acc l0 H; cbn; [by rewrite app_nil_r|].
  rewrite (cons_middle v l0 l), app_assoc. apply IH. by apply pick_newest.
Qed.

Lemma is_newest_unique o o' l l' : is_newest o l -> is_newest o' l' -> (forall v, v ∈ l <-> v ∈ l') -> o = o'.
Proof.
  destruct o as [v|], o' as [w|]; cbn; try done.
  - intros [H1 H2] [H3 H4] E. f_equal. apply version_gt_total; [by apply H4, E|by apply H2, E].
  - intros [H1 _] -> E. apply E in H1. by apply elem_of_nil in H1.
  - intros -> [H1 _] E. apply E in H1. by apply elem_of_nil in H1.
Qed.

Definition versions (rs : list ReleaseMeta) : list Version := rm_version <$> rs.
Definition stables (rs : list ReleaseMeta) : list Version := versions (bfilter (fun r => negb (is_prerelease r)) rs).

Lemma latest_pick rs s e : foldl latest_step (s, e) rs = (foldl pick s (stables rs), foldl pick e (versions rs)).
Proof.
  revert s e. induction rs as [|r rs IH]; intros s e; [done|]. cbn [foldl latest_step]. rewrite IH.
  unfold stables, versions. cbn [bfilter]. by destruct (is_prerelease r); cbn.
Qed.

Lemma select_newest rs channel current : let d := select_target rs channel current in
  is_newest (ud_latest_stable d) (stables rs) /\ is_newest (ud_latest_edge d) (versions rs).
Proof.
  unfold select_target. rewrite latest_pick. cbn. split; apply (foldl_pick _ None []); done.
Qed.

(** What a decision depends on: the newest release of each channel. *)
Lemma select_target_of_newest rs channel current s e :
  is_newest s (stables rs) -> is_newest e (versions rs) ->
  select_target rs channel current =
    (let target := c ← match channel with Stable => s | Edge => e end; if version_gt c current then Some c else None in
     mkDecision current s e channel target (bool_decide (is_Some target)) (negb (pre_is_empty current) && newer_than current s)).
Proof.
  intros Hs He. destruct (select_newest rs channel current) as [Ns Ne]. revert Ns Ne. unfold select_target.
  destruct (foldl latest_step (None, None) rs) as [s' e']. cbn [ud_latest_stable ud_latest_edge]. intros Ns Ne.
  rewrite (is_newest_unique s' s _ _ Ns Hs), (is_newest_unique e' e _ _ Ne He) by done. done.
Qed.

Definition followed (rs : list ReleaseMeta) (channel : Channel) (r : ReleaseMeta) : Prop :=
  r ∈ rs /\ (channel = Edge \/ is_prerelease r = false).

Definition channel_versions (rs : list ReleaseMeta) (channel : Channel) : list Version :=
  match channel with Stable => stables rs | Edge => versions rs end.

Lemma in_versions rs v : v ∈ versions rs <-> exists r, r ∈ rs /\ rm_version r = v.
Proof. unfold versions. rewrite list_elem_of_fmap. naive_solver. Qed.
Lemma in_stables rs v : v ∈ stables rs <-> exists r, r ∈ rs /\ is_prerelease r = false /\ rm_version r = v.
Proof. unfold stables. rewrite in_versions. setoid_rewrite elem_of_bfilter. setoid_rewrite negb_true_iff. naive_solver. Qed.
Lemma in_channel rs channel v : v ∈ channel_versions rs channel <-> exists r, followed rs channel r /\ rm_version r = v.
Proof.
  unfold followed. destruct channel; cbn; [rewrite in_stables|rewrite in_versions]; [|naive_solver].
  split; [naive_solver|]. intros (r & (? & [?|?]) & ?); naive_solver.
Qed.

Lemma newer_than_newest current o l : is_newest o l -> newer_than current o = true <-> forall w, w ∈ l -> version_gt current w = true.
Proof.
  destruct o as [v|]; cbn; [|intros ->; split; [by intros _ w ?%elem_of_nil|done]].
  intros [Hv Hmax]. split; [|by auto]. intros H w Hw. destruct (version_gt current w) eqn:E; [done|].
  pose proof (version_le_trans current w v E (Hmax w Hw)). congruence.
Qed.

(** The decision is exact: on each channel the latest version is the newest of the
    releases the channel follows (for stable those that are no pre-release, by their
    flag or by their version), and the update offered is that version if and only if it
    is newer than the one running, so that no channel ever offers a downgrade.  A
    running pre-release counts as ahead of stable when it is newer than every stable
    release. *)
Theorem update_decision_exact rs channel current :
  let d := select_target rs channel current in
  (forall v, ud_target d = Some v <->
     version_gt v current = true /\ (exists r, followed rs channel r /\ rm_version r = v) /\ forall r, followed rs channel r -> version_gt (rm_version r) v = false) /\
  (ud_available d = true <-> is_Some (ud_target d)) /\
  (ud_target d = None <-> forall r, followed rs channel r -> version_gt (rm_version r) current = false) /\
  (ud_ahead_of_stable d = true <->
     pre_is_empty current = false /\ forall r, r ∈ rs -> is_prerelease r = false -> version_gt current (rm_version r) = true).
Proof.
  intros d. destruct (select_newest rs channel current) as [Ns Ne].
  pose proof (select_target_of_newest rs channel current _ _ Ns Ne) as Hd. fold d in Ns, Ne, Hd.
  set (cand := match channel with Stable => ud_latest_stable d | Edge => ud_latest_edge d end) in Hd.
  assert (is_newest cand (channel_versions rs channel)) as Nc by (unfold cand; by destruct channel).
  assert (ud_target d = c ← cand; if version_gt c current then Some c else None) as Ht by by rewrite Hd.
  split; [|split; [rewrite Hd; cbn [ud_available ud_target]; apply bool_decide_eq_true|split]].
  - intros v. transitivity (version_gt v current = true /\ is_newest (Some v) (channel_versions rs channel)).
    + rewrite Ht. split.
      * destruct cand as [c|]; cbn; [|done]. destruct (version_gt c current) eqn:E; [|done]. by intros [= <-].
      * intros [Hg Hn]. rewrite (is_newest_unique cand (Some v) _ _ Nc Hn) by done. cbn. by rewrite Hg.
    + cbn [is_newest]. rewrite in_channel. setoid_rewrite in_channel. naive_solver.
  - rewrite Ht. destruct cand as [c|]; cbn [mbind option_bind].
    + destruct Nc as [Hc Hmax]. destruct (version_gt c current) eqn:E; split; try done.
      * intros H. apply in_channel in Hc as (r & Hr & <-). specialize (H r Hr). congruence.
      * intros _ r Hr. apply version_le_trans with c; [|done]. apply Hmax, in_channel. eauto.
    + cbn in Nc. split; [|done]. intros _ r Hr. assert (rm_version r ∈ channel_versions rs channel) as Hin by (apply in_channel; eauto).
      rewrite Nc in Hin. by apply elem_of_nil in Hin.
  - rewrite Hd. cbn [ud_ahead_of_stable]. rewrite andb_true_iff, negb_true_iff, (newer_than_newest _ _ _ Ns).
    setoid_rewrite in_stables. naive_solver.
Qed.
End Newest.

(** ** The mirror converges *)

Lemma cdn_by_path_snoc l o : cdn_by_path (l ++ [o]) = <[obj_path o := o]> (cdn_by_path l).
Proof. unfold cdn_by_path. by rewrite foldl_app. Qed.

Definition at_path (p : str) (cdn : list CdnObject) : list CdnObject := bfilter (fun o => bool_decide (obj_path o = p)) cdn.

Lemma at_path_app p l1 l2 : at_path p (l1 ++ l2) = at_path p l1 ++ at_path p l2.
Proof. unfold at_path. induction l1 as [|o l1 IH]; cbn; [done|]. case_bool_decide; cbn; by rewrite IH. Qed.

Lemma lookup_cdn_by_path cdn p : cdn_by_path cdn !! p = last (at_path p cdn).
Proof.
  induction cdn as [|o cdn IH] using rev_ind; [done|]. rewrite cdn_by_path_snoc, at_path_app. cbn.
  case_bool_decide as E; cbn.
  - rewrite last_snoc. subst p. by rewrite lookup_insert_eq.
  - by rewrite app_nil_r, lookup_insert_ne.
Qed.

Lemma in_at_path p o cdn : o ∈ at_path p cdn <-> o ∈ cdn /\ obj_path o = p.
Proof. unfold at_path. rewrite elem_of_bfilter, bool_decide_eq_true. naive_solver. Qed.

Lemma at_path_nil p cdn : (forall o, o ∈ cdn -> obj_path o <> p) -> at_path p cdn = [].
Proof.
  intros H. destruct (at_path p cdn) as [|o l] eqn:E; [done|]. assert (o ∈ at_path p cdn) as Ho by (rewrite E; by left).
  apply in_at_path in Ho as [Ho Hp]. by destruct (H o Ho).
Qed.

Lemma at_path_filter p q cdn : (forall o, obj_path o = p -> q o = true) -> at_path p (bfilter q cdn) = at_path p cdn.
Proof.
  intros H. unfold at_path. induction cdn as [|o cdn IH]; cbn; [done|]. destruct (q o) eqn:E; cbn; [by rewrite IH|].
  case_bool_decide as Ep; [rewrite (H o Ep) in E; done|done].
Qed.

Lemma last_all {A} (x : A) l : l <> [] -> (forall y, y ∈ l -> y = x) -> last l = Some x.
Proof.
  intros Hne H. destruct (last l) as [y|] eqn:E; [|by apply last_None in E]. f_equal. apply H.
  apply last_Some in E as (l' & ->). rewrite elem_of_app. right. by left.
Qed.

(** Carrying a plan out.  [stored] is the object the mirror lists for an uploaded file. *)
Definition sync (stored : ExpectedAsset -> CdnObject) (plan : ReconcilePlan) (cdn : list CdnObject) : list CdnObject :=
  bfilter (fun o => negb (bool_decide (obj_path o ∈ to_delete plan)) && negb (bool_decide (obj_path o ∈ cdn_path <$> to_update plan))) cdn
  ++ (stored <$> to_upload plan ++ to_update plan).

Section Mirror.
Context (stored : ExpectedAsset -> CdnObject) (expected : list ExpectedAsset) (cdn : list CdnObject) (known_tags public_tags : list str).
Context (stored_path : forall e, obj_path (stored e) = cdn_path e) (stored_same : forall e, object_differs e (stored e) = false).
Context (one_per_path : forall e e', e ∈ expected -> e' ∈ expected -> cdn_path e = cdn_path e' -> e = e').

Let plan := reconcile expected cdn known_tags public_tags.
Let cdn' := sync stored plan cdn.

Lemma in_to_upload e : e ∈ to_upload plan <-> e ∈ expected /\ cdn_by_path cdn !! cdn_path e = None.
Proof. unfold plan, reconcile. cbn [to_upload]. rewrite elem_of_bfilter. destruct (cdn_by_path cdn !! cdn_path e); split; intros [? ?]; first [done|by split]. Qed.
Lemma in_to_update e : e ∈ to_update plan <-> e ∈ expected /\ exists o, cdn_by_path cdn !! cdn_path e = Some o /\ object_differs e o = true.
Proof.
  unfold plan, reconcile. cbn [to_update]. rewrite elem_of_bfilter. destruct (cdn_by_path cdn !! cdn_path e) as [o|]; split.
  - intros [? ?]. split; [done|]. by exists o.
  - by intros [? (o' & [= <-] & ?)].
  - by intros [? ?].
  - by intros [? (o' & ? & ?)].
Qed.
Lemma in_to_delete p : p ∈ to_delete plan <->
  expected <> [] /\ p ∉ (cdn_path <$> expected) /\ exists o, o ∈ cdn /\ obj_path o = p /\ deletable known_tags public_tags o = true.
Proof.
  unfold plan, reconcile. cbn [to_delete]. destruct expected as [|e l]; cbn [is_empty]; [rewrite elem_of_nil; naive_solver|].
  rewrite list_elem_of_fmap. setoid_rewrite elem_of_bfilter. setoid_rewrite andb_true_iff. setoid_rewrite negb_true_iff.
  setoid_rewrite bool_decide_eq_false. split.
  - intros (o & -> & [[Hn Hd] Ho]). split; [done|]. split; [done|]. eauto.
  - intros (_ & Hn & o & Ho & <- & Hd). eauto.
Qed.

Lemma expected_not_deleted e : e ∈ expected -> cdn_path e ∉ to_delete plan.
Proof. intros He H%in_to_delete. destruct H as (_ & Hn & _). apply Hn. apply list_elem_of_fmap. eauto. Qed.

Lemma synced e : e ∈ expected -> exists o, cdn_by_path cdn' !! cdn_path e = Some o /\ object_differs e o = false.
Proof.
  intros He. rewrite lookup_cdn_by_path. unfold cdn', sync. rewrite at_path_app, last_app.
  set (new := stored <$> to_upload plan ++ to_update plan).
  assert (forall o, o ∈ at_path (cdn_path e) new -> o = stored e) as Hall.
  { intros o [Ho Hp]%in_at_path. unfold new in Ho. apply list_elem_of_fmap in Ho as (e' & -> & He'). rewrite stored_path in Hp.
    f_equal. apply one_per_path; [|done|done]. apply elem_of_app in He' as [H%in_to_upload|H%in_to_update]; apply H. }
  assert (e ∈ to_upload plan \/ e ∈ to_update plan -> last (at_path (cdn_path e) new) = Some (stored e)) as Hnew.
  { intros Hin. apply last_all; [|done]. assert (stored e ∈ at_path (cdn_path e) new) as Hs.
    { apply in_at_path. split; [|apply stored_path]. unfold new. apply list_elem_of_fmap. exists e. split; [done|]. by apply elem_of_app. }
    by destruct (at_path (cdn_path e) new); [apply elem_of_nil in Hs|]. }
  destruct (cdn_by_path cdn !! cdn_path e) as [o|] eqn:E.
  2: { rewrite Hnew by (left; by apply in_to_upload). exists (stored e). by split. }
  destruct (object_differs e o) eqn:Ed.
  { rewrite Hnew by (right; apply in_to_update; eauto). exists (stored e). by split. }
  rewrite (at_path_nil (cdn_path e) new), at_path_filter; cbn [last].
  - rewrite <- lookup_cdn_by_path, E. eauto.
  - intros x Hx. rewrite Hx, andb_true_iff, !negb_true_iff, !bool_decide_eq_false. split; [by apply expected_not_deleted|].
    intros (e' & Hp & He')%list_elem_of_fmap. apply in_to_update in He' as (He' & o' & E' & D'). assert (e' = e) as -> by by apply one_per_path.
    congruence.
  - intros x Hx Hp. pose proof Hx as Hx'. unfold new in Hx. apply list_elem_of_fmap in Hx as (e' & -> & He'). rewrite stored_path in Hp.
    apply elem_of_app in He' as [[H' H2]%in_to_upload|[H' (o' & E' & D')]%in_to_update]; assert (e' = e) as -> by (by apply one_per_path); congruence.
Qed.

Lemma kept_unexpected o : o ∈ cdn -> obj_path o ∉ (cdn_path <$> expected) ->
  (o ∈ cdn' <-> expected = [] \/ deletable known_tags public_tags o = false).
Proof.
  intros Ho Hn. unfold cdn', sync. rewrite elem_of_app, elem_of_bfilter, andb_true_iff, !negb_true_iff, !bool_decide_eq_false, in_to_delete.
  assert (obj_path o ∉ (cdn_path <$> to_update plan)) as Hu.
  { intros (e & Hp & [He _]%in_to_update)%list_elem_of_fmap. apply Hn, list_elem_of_fmap. eauto. }
  assert (o ∉ (stored <$> to_upload plan ++ to_update plan)) as Hs.
  { intros (e & -> & He)%list_elem_of_fmap. apply Hn. rewrite stored_path. apply list_elem_of_fmap. exists e. split; [done|].
    apply elem_of_app in He as [H%in_to_upload|H%in_to_update]; apply H. }
  destruct (deletable known_tags public_tags o) eqn:Ed; split.
  - intros [[[H _] _]|?]; [|done]. left. destruct expected as [|e l]; [done|]. destruct H. split; [done|]. eauto.
  - intros [-> | ?]; [|done]. left. naive_solver.
  - by right.
  - intros _. left. split; [|done]. split; [|done]. intros (_ & _ & o' & _ & Hp & Hd). unfold deletable, obj_tag in Ed, Hd. rewrite Hp in Hd. congruence.
Qed.
End Mirror.

Lemma bfilter_none {A} (p : A -> bool) l : (forall x, x ∈ l -> p x = false) -> bfilter p l = [].
Proof.
  intros H. destruct (bfilter p l) as [|x l'] eqn:E; [done|]. assert (x ∈ bfilter p l) as Hx by (rewrite E; by left).
  apply elem_of_bfilter in Hx as [Hp Hx]. rewrite (H x Hx) in Hp. done.
Qed.

Lemma deletable_false known_tags public_tags o : deletable known_tags public_tags o = false <->
  match obj_tag o with None => True | Some tag => tag ∈ known_tags /\ tag ∉ public_tags end.
Proof.
  unfold deletable. destruct (obj_tag o) as [tag|]; [|done].
  by rewrite orb_false_iff, negb_false_iff, bool_decide_eq_true, bool_decide_eq_false.
Qed.

(** One synchronisation makes the mirror complete and another finds nothing to do,
    when every uploaded file is listed with its size and without a wrong checksum and
    no two expected files share a path.  Of the objects nothing expects, those of a
    known release that is not published, and those that are not files of a release,
    are always kept, and nothing is deleted at all when nothing is expected. *)
Theorem mirror_converges stored expected cdn known_tags public_tags :
  (forall e, obj_path (stored e) = cdn_path e) -> (forall e, object_differs e (stored e) = false) ->
  (forall e e', e ∈ expected -> e' ∈ expected -> cdn_path e = cdn_path e' -> e = e') ->
  let cdn' := sync stored (reconcile expected cdn known_tags public_tags) cdn in
  reconcile expected cdn' known_tags public_tags = mkPlan [] [] [] /\
  (forall e, e ∈ expected -> exists o, cdn_by_path cdn' !! cdn_path e = Some o /\ object_differs e o = false) /\
  (forall o, o ∈ cdn -> obj_path o ∉ (cdn_path <$> expected) ->
     (o ∈ cdn' <-> expected = [] \/ match obj_tag o with None => True | Some tag => tag ∈ known_tags /\ tag ∉ public_tags end)).
Proof.
  intros Hp Hs Hi cdn'. pose proof (synced stored expected cdn known_tags public_tags Hp Hs Hi) as Hsync. fold cdn' in Hsync.
  split; [|split; [done|]].
  - unfold reconcile. f_equal.
    + apply bfilter_none. intros e (o & -> & _)%Hsync. done.
    + apply bfilter_none. intros e (o & -> & ->)%Hsync. done.
    + destruct (is_empty expected) eqn:Ee; [done|]. rewrite bfilter_none; [done|]. intros o Ho. apply andb_false_iff.
      rewrite negb_false_iff, bool_decide_eq_true. destruct (decide (obj_path o ∈ cdn_path <$> expected)) as [?|Hn]; [by left|right].
      assert (o ∈ cdn) as Hc.
      { unfold cdn', sync in Ho. apply elem_of_app in Ho as [[_ Ho]%elem_of_bfilter|(e & -> & He)%list_elem_of_fmap]; [done|].
        destruct Hn. rewrite Hp. apply list_elem_of_fmap. exists e. split; [done|].
        apply elem_of_app in He as [H%in_to_upload|H%in_to_update]; apply H. }
      apply (kept_unexpected stored expected cdn known_tags public_tags Hp Hi o Hc Hn) in Ho as [->|?]; done.
  - intros o Ho Hn. rewrite <- deletable_false. by apply kept_unexpected.
Qed.

(** *** A mirror with a stale file, an orphan and a draft's file *)

Definition demo_expected : list ExpectedAsset :=
  [mkExpected "v2.0.0"%str "app.deb"%str 10 (Some "ab12"%str); mkExpected "v2.0.0"%str "SHA256SUMS"%str 3 None].
Definition demo_cdn : list CdnObject :=
  [mkObject "releases/v2.0.0/app.deb"%str 10 (Some "FFFF"%str); mkObject "releases/v1.0.0/app.deb"%str 9 None;
   mkObject "releases/v3.0.0/app.deb"%str 11 None; mkObject "releases/readme"%str 1 None].
Definition demo_stored (e : ExpectedAsset) : CdnObject := mkObject (cdn_path e) (ex_size e) (to_ascii_uppercase <$> ex_sha256 e).

Lemma lower_upper_char c : lower_char (upper_char c) = lower_char c.
Proof.
  unfold lower_char, upper_char, is_ascii_lowercase, is_ascii_uppercase, in_range.
  destruct ((("a"%ch <=? c) && (c <=? "z"%ch))%N) eqn:E; [|done]. bprop.
  change ("a"%ch) with 97 in *. change ("z"%ch) with 122 in *. change ("A"%ch) with 65. change ("Z"%ch) with 90.
  destruct (65 <=? c - 32) eqn:E1, (c - 32 <=? 90) eqn:E2, (65 <=? c) eqn:E3, (c <=? 90) eqn:E4; cbn; bprop; lia.
Qed.

Lemma demo_stored_same e : object_differs e (demo_stored e) = false.
Proof.
  unfold object_differs, demo_stored, checksum_mismatch. cbn. rewrite N.eqb_refl. destruct (ex_sha256 e) as [h|]; [cbn|done].
  apply negb_false_iff. unfold eq_ignore_ascii_case. apply bool_decide_eq_true. unfold to_ascii_lowercase, to_ascii_uppercase.
  rewrite map_map. apply map_ext. intros c. by rewrite lower_upper_char.
Qed.

Lemma demo_one_per_path e e' : e ∈ demo_expected -> e' ∈ demo_expected -> cdn_path e = cdn_path e' -> e = e'.
Proof. intros H1%list_elem_of_In H2%list_elem_of_In. destruct H1 as [<-|[<-|[]]], H2 as [<-|[<-|[]]]; by vm_compute. Qed.

Lemma mirror_converges_witness :
  let known := ["v2.0.0"%str; "v3.0.0"%str] in
  let cdn' := sync demo_stored (reconcile demo_expected demo_cdn known ["v2.0.0"%str]) demo_cdn in
  to_delete (reconcile demo_expected demo_cdn known ["v2.0.0"%str]) = ["releases/v1.0.0/app.deb"%str] /\
  reconcile demo_expected cdn' known ["v2.0.0"%str] = mkPlan [] [] [].
Proof.
  intros known cdn'. split; [by vm_compute|].
  apply (mirror_converges demo_stored demo_expected demo_cdn known ["v2.0.0"%str]);
    [done|apply demo_stored_same|apply demo_one_per_path].
Defined.

(** *** A line of releases *)

Inductive demo_version := D100 | D110rc1 | D110 | D120rc2.
#[global] Instance demo_version_eq_dec : EqDecision demo_version.
Proof. solve_decision. Defined.
Definition demo_rank (v : demo_version) : nat := match v with D100 => 0 | D110rc1 => 1 | D110 => 2 | D120rc2 => 3 end.
Definition demo_show (v : demo_version) : str :=
  match v with D100 => "1.0.0"%str | D110rc1 => "1.1.0-rc.1"%str | D110 => "1.1.0"%str | D120rc2 => "1.2.0-rc.2"%str end.
Definition demo_parse (s : str) : option demo_version := find_first (fun v => str_eqb (demo_show v) s) [D100; D110rc1; D110; D120rc2].
Definition demo_semver : Semver := {|
  Version := demo_version;
  version_parse := demo_parse;
  version_show := demo_show;
  version_cmp a b := Nat.compare (demo_rank a) (demo_rank b);
  pre_is_empty v := match v with D100 | D110 => true | _ => false end;
|}.

Lemma demo_semver_laws : @SemverLaws demo_semver.
Proof.
  split.
  - intros a b. destruct a, b; cbn; split; intros H; first [reflexivity|discriminate H].
  - intros a b. by destruct a, b.
  - intros a b c. by destruct a, b, c.
  - intros v. by destruct v.
Qed.

Definition demo_meta (v : demo_version) (tag : str) : @ReleaseMeta demo_semver := @mkMeta demo_semver v tag false [] None.
Definition demo_line : list (@ReleaseMeta demo_semver) :=
  [demo_meta D100 "v1.0.0"%str; demo_meta D120rc2 "v1.2.0-rc.2"%str; demo_meta D110 "v1.1.0"%str].

Lemma update_decision_exact_witness :
  ud_target (@select_target demo_semver demo_line Stable D110rc1) = Some D110 /\
  @version_gt demo_semver D110 D110rc1 = true.
Proof.
  split; [by vm_compute|].
  apply (proj1 (proj1 (@update_decision_exact demo_semver demo_semver_laws demo_line Stable D110rc1) D110)). by vm_compute.
Defined.
