(* ===== verification/SelfUpdate.v ===== *)
(** * Self-update in the daemon

    [src/bin/orckerd/src/self_update.rs]: fetching the signed manifest, the snapshot of
    the last check with its file, the replies on updates, and staging a verified
    artifact.  The network, the clock and the disk are a [UEnv]; the JSON of the manifest
    and of the snapshot is the interface [UpdateJson]. *)

From S2P Require Import Prelude RustStr RustText Utf8 RustMap RustPath Config Ipc Daemon HelperArgv Update.

Open Scope N_scope.

#[export] Instance IpcChannel_eq_dec : EqDecision Ipc.Channel.
Proof. solve_decision. Defined.

(** ** What is kept and answered *)

Record UpdateSnapshot := mkUpdateSnapshot {
  checked_at : N;
  snap_current : str;
  snap_latest_stable : option str;
  snap_latest_edge : option str;
  snap_channel : Ipc.Channel;
  snap_available : bool;
  snap_target : option str;
  snap_ahead_of_stable : bool;
}.

Class UpdateJson := {
  read_manifest : list N -> option LatestManifest;      (* [serde_json::from_slice] *)
  write_snapshot : UpdateSnapshot -> option (list N);   (* [serde_json::to_vec_pretty] *)
  read_snapshot : list N -> option UpdateSnapshot;      (* [serde_json::from_slice] *)
}.

(** A snapshot reads back, and the text of an object cut short is no object. *)
Class UpdateJsonLaws `{UpdateJson} := {
  snapshot_reads s b : write_snapshot s = Some b -> read_snapshot b = Some s;
  snapshot_cut s b n : write_snapshot s = Some b -> (n < length b)%nat -> read_snapshot (take n b) = None;
}.

Inductive UpdateSource := Live | Cached.
Inductive StagedArtifact := SAppTarGz | SDeb | SPacman | SRpm.

Inductive UMessage :=
| UmFetch
| UmUpToDate
| UmVanished
| UmNoArtifact (e : AssetError)
| UmDownload (what : str)
| UmChecksum (e : VerifyError)
| UmSignature (e : VerifyError)
| UmUnsafeName (name : str)
| UmMkdir
| UmWriteArtifact
| UmWriteSignature.

Record UpdateStatus := mkStatusReply {
  st_current : str;
  st_latest_stable : option str;
  st_latest_edge : option str;
  st_channel : Ipc.Channel;
  st_available : bool;
  st_target : option str;
  st_ahead_of_stable : bool;
  st_source : UpdateSource;
  st_checked_at : option N;
}.

Inductive UResponse :=
| Staged (path version : str) (kind : StagedArtifact)
| UInternal (m : UMessage).

Notation Files := (gmap (list N) (list N)).

(** What one request meets. *)
Record UEnv := mkUEnv {
  ue_now : N;
  ue_download : str -> option (list N);
  ue_create_dir : OsString -> bool;
  ue_write : OsString -> option nat;     (* [None]: written; [Some n]: failed after [n] bytes *)
}.

(** The build and its directories. *)
Record Build := mkBuild {
  b_platform : Platform;
  b_format : PkgFormat;
  b_state_dir : OsString;
  b_cache_dir : OsString;
}.

Definition u_write (e : UEnv) (p : OsString) (bytes : list N) (files : Files) : bool * Files :=
  match ue_write e p with
  | None => (true, <[p := bytes]> files)
  | Some n => (false, <[p := take n bytes]> files)
  end.

Section SelfUpdate.
Context `{SV : Semver} `{CR : Crypto} `{UJ : UpdateJson} (build : Build) (running : Version).

(** [orcker_update] and [update_snapshot] of the state, the configuration, and the files
    of the state and cache directories. *)
Record UState := mkUState {
  us_config : Config;
  us_releases : list ReleaseMeta;
  us_snapshot : option UpdateSnapshot;
  us_files : Files;
}.

Definition LATEST_MANIFEST_URL : str := "https://files.orcker.app/latest.json"%str.
Definition LATEST_MANIFEST_SIG_URL : str := "https://files.orcker.app/latest.json.minisig"%str.

Definition entry_to_meta (entry : ReleaseEntry) : option ReleaseMeta :=
  if draft entry then None
  else
    version ← parse_tag (tag_name entry);
    Some (mkMeta version (tag_name entry) (prerelease entry)
            ((fun a => mkAsset (ae_name a) (browser_download_url a) (ae_size a)) <$> assets entry) (body entry)).

Definition manifest_to_releases (manifest : LatestManifest) : list ReleaseMeta :=
  omap entry_to_meta (omap id [stable manifest; rc manifest]).

Definition fetch_releases (dl : str -> option (list N)) (public_key : str) : option (list ReleaseMeta) :=
  body ← dl LATEST_MANIFEST_URL;
  sig ← dl LATEST_MANIFEST_SIG_URL;
  match verify_minisign public_key (from_utf8_lossy sig) body with
  | Err _ => None
  | Ok _ => manifest_to_releases <$> read_manifest body
  end.

Definition configured_channel (s : UState) : Update.Channel := default Update.Stable (Channel_parse (cf_update_channel (us_config s))).
Definition from_ipc (c : Ipc.Channel) : Update.Channel := match c with Ipc.Edge => Update.Edge | Ipc.Stable => Update.Stable end.
Definition to_ipc (c : Update.Channel) : Ipc.Channel := match c with Update.Stable => Ipc.Stable | Update.Edge => Ipc.Edge end.

Definition status_response (decision : UpdateDecision) (source : UpdateSource) (checked : option N) : UpdateStatus :=
  mkStatusReply (version_show (ud_current decision)) (version_show <$> ud_latest_stable decision)
    (version_show <$> ud_latest_edge decision) (to_ipc (ud_channel decision)) (ud_available decision)
    (version_show <$> ud_target decision) (ud_ahead_of_stable decision) source checked.

Definition snapshot_path : OsString := path_join (b_state_dir build) "update-check.json"%str.

Definition load_snapshot (files : Files) : option UpdateSnapshot := b ← files !! snapshot_path; read_snapshot b.

Definition persist_snapshot (e : UEnv) (snap : UpdateSnapshot) (files : Files) : Files :=
  if match path_parent snapshot_path with Some parent => ue_create_dir e parent | None => true end then
    match write_snapshot snap with
    | None => files
    | Some json => (u_write e snapshot_path json files).2
    end
  else files.

Definition snapshot_from (decision : UpdateDecision) (at_ : N) : UpdateSnapshot :=
  mkUpdateSnapshot at_ (version_show (ud_current decision)) (version_show <$> ud_latest_stable decision)
    (version_show <$> ud_latest_edge decision) (to_ipc (ud_channel decision)) (ud_available decision)
    (version_show <$> ud_target decision) (ud_ahead_of_stable decision).

Definition response_from_snapshot (snap : UpdateSnapshot) (effective : Ipc.Channel) (source : UpdateSource) : UpdateStatus :=
  let now_running := version_show running in
  let drifted := negb (str_eqb (snap_current snap) now_running) || negb (bool_decide (snap_channel snap = effective)) in
  mkStatusReply now_running (snap_latest_stable snap) (snap_latest_edge snap) effective
    (negb drifted && snap_available snap) (if drifted then None else snap_target snap)
    (negb drifted && snap_ahead_of_stable snap) source (Some (checked_at snap)).

Definition store_snapshot (e : UEnv) (snap : UpdateSnapshot) (s : UState) : UState :=
  mkUState (us_config s) (us_releases s) (Some snap) (persist_snapshot e snap (us_files s)).
Definition put_releases (releases : list ReleaseMeta) (s : UState) : UState :=
  mkUState (us_config s) releases (us_snapshot s) (us_files s).

Definition cached_update_status (s : UState) : UpdateStatus :=
  match us_snapshot s with
  | Some snap => response_from_snapshot snap (to_ipc (configured_channel s)) Cached
  | None => mkStatusReply (version_show running) None None (to_ipc (configured_channel s)) false None false Cached None
  end.

Definition poll_and_refresh (e : UEnv) (public_key : str) (s : UState) : UState :=
  match fetch_releases (ue_download e) public_key with
  | None => s
  | Some releases =>
      let decision := select_target releases (configured_channel s) running in
      put_releases releases (store_snapshot e (snapshot_from decision (ue_now e)) s)
  end.

Definition poll_if_due (e : UEnv) (public_key : str) (s : UState) : UState :=
  if is_check_due (checked_at <$> us_snapshot s) (ue_now e) then poll_and_refresh e public_key s else s.

Definition request_channel (channel_override : option Ipc.Channel) (s : UState) : Update.Channel :=
  match channel_override with Some c => from_ipc c | None => configured_channel s end.

Definition check_update (e : UEnv) (channel_override : option Ipc.Channel) (public_key : str) (s : UState) : UpdateStatus * UState :=
  let channel := request_channel channel_override s in
  match fetch_releases (ue_download e) public_key with
  | Some releases =>
      let decision := select_target releases channel running in
      let snap := snapshot_from decision (ue_now e) in
      (response_from_snapshot snap (to_ipc channel) Live, store_snapshot e snap (put_releases releases s))
  | None =>
      match us_snapshot s with
      | Some snap => (response_from_snapshot snap (to_ipc channel) Cached, s)
      | None => (status_response (select_target (us_releases s) channel running) Cached None, s)
      end
  end.

Definition is_safe_filename (name : str) : bool :=
  match components (os name) with [Normal _] => true | _ => false end.

Definition staged_kind (k : ArtifactKind) : StagedArtifact :=
  match k with AppTarGz => SAppTarGz | KDeb => SDeb | KPacman => SPacman | KRpm => SRpm end.

Definition staging_dir : OsString := path_join (b_cache_dir build) "update"%str.

Definition stage_files (e : UEnv) (sel : ArtifactSelection) (target_ver : Version) (art : list N) (sig : str) (s : UState)
    : UResponse * UState :=
  let put f := mkUState (us_config s) (us_releases s) (us_snapshot s) f in
  if negb (ue_create_dir e staging_dir) then (UInternal UmMkdir, s)
  else
    let path := path_join staging_dir (os (asset_name (artifact sel))) in
    let '(ok, files) := u_write e path art (us_files s) in
    if negb ok then (UInternal UmWriteArtifact, put files)
    else
      let sig_path := path_join staging_dir (os (asset_name (artifact sel) ++ ".minisig"%str)) in
      let '(ok, files) := u_write e sig_path (as_bytes sig) files in
      if negb ok then (UInternal UmWriteSignature, put files)
      else (Staged (from_utf8_lossy path) (version_show target_ver) (staged_kind (kind sel)), put files).

Definition stage_update (e : UEnv) (channel_override : option Ipc.Channel) (public_key : str) (s : UState) : UResponse * UState :=
  let channel := request_channel channel_override s in
  match fetch_releases (ue_download e) public_key with
  | None => (UInternal UmFetch, s)
  | Some releases =>
      match ud_target (select_target releases channel running) with
      | None => (UInternal UmUpToDate, s)
      | Some target_ver =>
          match find_first (fun r => bool_decide (rm_version r = target_ver)) releases with
          | None => (UInternal UmVanished, s)
          | Some target_rel =>
              match select_asset target_rel (b_platform build) (b_format build) with
              | Err err => (UInternal (UmNoArtifact err), s)
              | Ok sel =>
                  match ue_download e (asset_url (artifact sel)) with
                  | None => (UInternal (UmDownload "artifact"%str), s)
                  | Some art =>
                      match ue_download e (asset_url (signature sel)) with
                      | None => (UInternal (UmDownload "signature"%str), s)
                      | Some sig_bytes =>
                          match ue_download e (asset_url (checksums sel)) with
                          | None => (UInternal (UmDownload "checksums"%str), s)
                          | Some sums_bytes =>
                              let sig := from_utf8_lossy sig_bytes in
                              match verify_sha256 art (from_utf8_lossy sums_bytes) (asset_name (artifact sel)) with
                              | Err err => (UInternal (UmChecksum err), s)
                              | Ok _ =>
                                  match verify_minisign public_key sig art with
                                  | Err err => (UInternal (UmSignature err), s)
                                  | Ok _ =>
                                      if negb (is_safe_filename (asset_name (artifact sel))) then (UInternal (UmUnsafeName (asset_name (artifact sel))), s)
                                      else stage_files e sel target_ver art sig s
                                  end
                              end
                          end
                      end
                  end
              end
          end
      end
  end.
End SelfUpdate.

(** ** The manifest says enough *)

Section ManifestFacts.
Context `{SV : Semver} `{SL : !SemverLaws}.
Notation Item := (Version * ReleaseEntry)%type.

Lemma insert_newest_perm {A} (x : Version * A) l : insert_newest x l ≡ₚ x :: l.
Proof.
  induction l as [|y l IH]; cbn; [done|]. destruct (version_gt y.1 x.1); [|done]. rewrite IH. constructor.
Qed.
Lemma sort_newest_perm {A} (l : list (Version * A)) : sort_newest l ≡ₚ l.
Proof. induction l as [|x l IH]; cbn; [done|]. by rewrite insert_newest_perm, IH. Qed.

Definition item_pre (i : Item) : bool := entry_is_prerelease i.2 i.1.
Definition item_versions (pre : bool) (l : list Item) : list Version := fst <$> bfilter (fun i => eqb (item_pre i) pre) l.

Lemma in_item_versions pre l v : v ∈ item_versions pre l <-> exists i, i ∈ l /\ item_pre i = pre /\ i.1 = v.
Proof.
  unfold item_versions. rewrite list_elem_of_fmap. setoid_rewrite elem_of_bfilter. setoid_rewrite eqb_true_iff. naive_solver.
Qed.

Lemma fst_pick (acc : option Item) (i : Item) : fst <$> (if newer_than i.1 (fst <$> acc) then Some i else acc) = pick (fst <$> acc) i.1.
Proof. unfold pick. by destruct (newer_than _ _). Qed.

Lemma item_versions_cons pre v e l :
  item_versions pre ((v, e) :: l) = if eqb (entry_is_prerelease e v) pre then v :: item_versions pre l else item_versions pre l.
Proof. unfold item_versions, item_pre. cbn [bfilter fst snd]. by destruct (eqb (entry_is_prerelease e v) pre). Qed.

Lemma newest_items l : forall s p s' p', foldl newest_step (s, p) l = (s', p') ->
  fst <$> s' = foldl pick (fst <$> s) (item_versions false l) /\ fst <$> p' = foldl pick (fst <$> p) (item_versions true l) /\
  (forall i, s' = Some i -> s = Some i \/ i ∈ l /\ item_pre i = false) /\ (forall i, p' = Some i -> p = Some i \/ i ∈ l /\ item_pre i = true).
Proof.
  induction l as [|i l IH]; intros s p s' p'; cbn [foldl].
  { intros [= <- <-]. split; [done|]. split; [done|]. by split; left. }
  destruct i as [v e]. cbn [newest_step]. rewrite !item_versions_cons.
  destruct (entry_is_prerelease e v) eqn:E; cbn [eqb]; intros (H1 & H2 & H3 & H4)%IH.
  - pose proof (fst_pick p (v, e)) as F. cbn [fst] in F. rewrite F in H2. split; [done|]. split; [done|]. split.
    + intros i [?|[? ?]]%H3; [by left|right; split; [by right|done]].
    + intros i [Hp|[? ?]]%H4; [|right; split; [by right|done]]. destruct (newer_than v (fst <$> p)); [|by left].
      injection Hp as <-. right. split; [by left|done].
  - pose proof (fst_pick s (v, e)) as F. cbn [fst] in F. rewrite F in H1. split; [done|]. split; [done|]. split.
    + intros i [Hp|[? ?]]%H3; [|right; split; [by right|done]]. destruct (newer_than v (fst <$> s)); [|by left].
      injection Hp as <-. right. split; [by left|done].
    + intros i [?|[? ?]]%H4; [by left|right; split; [by right|done]].
Qed.

(** A kept entry is the release it came from. *)
Lemma keep_entry_meta base mirrored r : match keep_entry base mirrored r, entry_to_meta r with
  | None, None => True
  | Some i, Some m => i.1 = rm_version m /\ item_pre i = is_prerelease m /\ draft i.2 = false /\ parse_tag (tag_name i.2) = Some i.1
  | _, _ => False
  end.
Proof. unfold keep_entry, entry_to_meta, entry_version. destruct (draft r) eqn:Ed; [done|]. destruct (parse_tag (tag_name r)) eqn:Ep; cbn; [|done]. by rewrite Ed, Ep. Qed.

Lemma item_meta (i : Item) : draft i.2 = false -> parse_tag (tag_name i.2) = Some i.1 ->
  exists m, entry_to_meta i.2 = Some m /\ rm_version m = i.1 /\ is_prerelease m = item_pre i.
Proof. intros Hd Hp. unfold entry_to_meta. rewrite Hd, Hp. cbn. eexists. split; [done|]. by split. Qed.

Definition kept_items (base : str) (mirrored : list (str * str)) (rs : list ReleaseEntry) : list Item :=
  sort_newest (omap (keep_entry base mirrored) rs).

Lemma in_kept base mirrored rs i : i ∈ kept_items base mirrored rs <-> exists r, r ∈ rs /\ keep_entry base mirrored r = Some i.
Proof. unfold kept_items. rewrite sort_newest_perm, list_elem_of_omap. done. Qed.

Lemma in_metas (rs : list ReleaseEntry) m : m ∈ omap entry_to_meta rs <-> exists r, r ∈ rs /\ entry_to_meta r = Some m.
Proof. by rewrite list_elem_of_omap. Qed.

Lemma kept_metas base mirrored rs pre v :
  v ∈ item_versions pre (kept_items base mirrored rs) <-> exists m, m ∈ omap entry_to_meta rs /\ is_prerelease m = pre /\ rm_version m = v.
Proof.
  rewrite in_item_versions. setoid_rewrite in_kept. setoid_rewrite in_metas. split.
  - intros (i & (r & Hr & Hk) & Hp & Hv). pose proof (keep_entry_meta base mirrored r) as H. rewrite Hk in H.
    destruct (entry_to_meta r) as [m|] eqn:Em; [|done]. destruct H as (E1 & E2 & _). exists m. split; [eauto|]. split; congruence.
  - intros (m & (r & Hr & Hk) & Hp & Hv). pose proof (keep_entry_meta base mirrored r) as H. rewrite Hk in H.
    destruct (keep_entry base mirrored r) as [i|] eqn:Em; [|done]. destruct H as (E1 & E2 & _). exists i. split; [eauto|]. split; congruence.
Qed.

(** The newest of two lists from the newest of each. *)
Lemma newest_of_both s p ls lp l : is_newest s ls -> is_newest p lp -> (forall v, v ∈ l <-> v ∈ ls \/ v ∈ lp) ->
  is_newest (match p with Some x => if newer_than x s then Some x else s | None => s end) l.
Proof.
  intros Hs Hp Hl. destruct p as [x|].
  - destruct Hp as [Hx Hmax]. destruct (newer_than x s) eqn:E; cbn [is_newest].
    + split; [apply Hl; by right|]. intros w [Hw|Hw]%Hl; [|by apply Hmax]. apply version_gt_asym.
      by apply (newer_than_newest x s ls Hs).
    + destruct s as [y|]; [|done]. cbn in E. destruct Hs as [Hy Hm]. split; [apply Hl; by left|]. intros w [Hw|Hw]%Hl; [by apply Hm|].
      apply version_le_trans with x; [by apply Hmax|done].
  - cbn in Hp. subst lp. destruct s as [y|]; cbn in Hs |- *.
    + destruct Hs as [Hy Hm]. split; [apply Hl; by left|]. intros w [Hw|?%elem_of_nil]%Hl; [by apply Hm|done].
    + subst ls. destruct l as [|v l]; [done|]. exfalso. assert (v ∈ v :: l) as Hv by by left.
      apply Hl in Hv as [?%elem_of_nil|?%elem_of_nil]; done.
Qed.

Lemma is_newest_ext o l l' : (forall v, v ∈ l <-> v ∈ l') -> is_newest o l -> is_newest o l'.
Proof.
  intros H. destruct o as [v|]; cbn.
  - intros [Hv Hm]. split; [by apply H|]. intros w Hw. by apply Hm, H.
  - intros ->. destruct l' as [|v l']; [done|]. exfalso. assert (v ∈ v :: l') as Hv by by left. apply H in Hv. by apply elem_of_nil in Hv.
Qed.

Lemma newest_one v : is_newest (Some v) [v].
Proof. split; [by left|]. intros w ->%list_elem_of_singleton. apply version_gt_irrefl. Qed.

Lemma kept_meta base mirrored rs i : i ∈ kept_items base mirrored rs ->
  exists m, entry_to_meta i.2 = Some m /\ rm_version m = i.1 /\ is_prerelease m = item_pre i.
Proof.
  intros (r & Hr & Hk)%in_kept. pose proof (keep_entry_meta base mirrored r) as H. rewrite Hk in H.
  destruct (entry_to_meta r) as [m|]; [|done]. destruct H as (_ & _ & Hd & Hp). by apply item_meta.
Qed.

(** The releases read back from a manifest of a stable and of a newer pre-release. *)
Lemma manifest_newest (s p : option Item) :
  let pre := x ← p; if newer_than x.1 (fst <$> s) then Some x else None in
  let ms := manifest_to_releases (mkLatest LATEST_SCHEMA (snd <$> s) (snd <$> pre)) in
  (forall i, s = Some i -> item_pre i = false /\ exists m, entry_to_meta i.2 = Some m /\ rm_version m = i.1 /\ is_prerelease m = item_pre i) ->
  (forall i, p = Some i -> item_pre i = true /\ exists m, entry_to_meta i.2 = Some m /\ rm_version m = i.1 /\ is_prerelease m = item_pre i) ->
  stables ms = option_list (fst <$> s) /\ versions ms = option_list (fst <$> s) ++ option_list (fst <$> pre).
Proof.
  intros pre ms Hs Hp. unfold ms, manifest_to_releases, pre, stables, versions.
  destruct s as [si|]; [destruct (Hs si eq_refl) as (Es & ms' & E1 & E2 & E3)|];
    (destruct p as [pi|]; [destruct (Hp pi eq_refl) as (Ep & mp & F1 & F2 & F3); cbn [mbind option_bind]; destruct (newer_than pi.1 _)|]);
    cbn; rewrite ?E1, ?F1; cbn; rewrite ?E3, ?F3, ?Es, ?Ep; cbn; by rewrite ?E2, ?F2.
Qed.

(** The manifest says enough: whatever releases there are and whatever is mirrored,
    the daemon that reads the two entries of the published [latest.json] decides
    exactly as one that knew every published release. *)
Theorem manifest_keeps_decision rs base mirrored channel current :
  select_target (manifest_to_releases (build_manifests rs base mirrored).2) channel current =
  select_target (omap entry_to_meta rs) channel current.
Proof.
  unfold build_manifests. fold (kept_items base mirrored rs). destruct (foldl newest_step (None, None) _) as [s p] eqn:E.
  apply newest_items in E as (H1 & H2 & H3 & H4). cbn [snd].
  assert (is_newest (fst <$> s) (item_versions false (kept_items base mirrored rs))) as Ns by (rewrite H1; by apply (foldl_pick _ None [])).
  assert (is_newest (fst <$> p) (item_versions true (kept_items base mirrored rs))) as Np by (rewrite H2; by apply (foldl_pick _ None [])).
  destruct (manifest_newest s p) as [Es Ee].
  { intros i [?|[Hi Hp]]%H3; [done|]. split; [done|]. by eapply kept_meta. }
  { intros i [?|[Hi Hp]]%H4; [done|]. split; [done|]. by eapply kept_meta. }
  set (e := match fst <$> p with Some x => if newer_than x (fst <$> s) then Some x else fst <$> s | None => fst <$> s end).
  rewrite (select_target_of_newest (omap entry_to_meta rs) channel current (fst <$> s) e).
  - apply select_target_of_newest; [rewrite Es|rewrite Ee].
    + destruct s as [i|]; [apply newest_one|done].
    + unfold e. destruct p as [pi|]; cbn [fmap option_fmap option_map mbind option_bind].
      * destruct (newer_than pi.1 (fst <$> s)) eqn:En; cbn [fmap option_fmap option_map option_list]; [|rewrite app_nil_r];
          (destruct s as [si|]; [|first [done|apply newest_one]]); [|apply newest_one].
        cbn in En |- *. split; [right; by left|]. intros w [->| ->%list_elem_of_singleton]%elem_of_cons; [by apply version_gt_asym|apply version_gt_irrefl].
      * cbn. rewrite app_nil_r. destruct s; [apply newest_one|done].
  - eapply is_newest_ext; [|exact Ns]. intros v. rewrite kept_metas, in_stables. naive_solver.
  - eapply newest_of_both; [exact Ns|exact Np|]. intros v. rewrite !kept_metas, in_versions. split.
    + intros (m & Hm & Hv). destruct (is_prerelease m) eqn:Em; [right|left]; eauto.
    + naive_solver.
Qed.
End ManifestFacts.

(** ** File names *)

Lemma last_segment sep s c : last s = Some c -> c <> sep -> exists ws w, split_char sep s = ws ++ [w ++ [c]].
Proof.
  intros Hl Hc. destruct (decide (sep ∈ s)) as [Hin|Hn].
  - apply list_elem_of_split_r in Hin as (a & b & -> & Hb). rewrite split_char_app_all, (split_char_none sep b) by done.
    destruct b as [|x b] using rev_ind; [rewrite last_snoc in Hl; congruence|].
    rewrite app_comm_cons, app_assoc, last_snoc in Hl. injection Hl as ->. eauto.
  - rewrite split_char_none by done. apply last_Some in Hl as (w & ->). by exists [], w.
Qed.

(** A name of one component that does not end in a separator or a dot is an entry's. *)
Lemma single_component b x c : components b = [Normal x] -> last b = Some c -> c <> slash -> c <> "."%ch -> b = x /\ slash ∉ b.
Proof.
  intros Hc Hl Hs Hd. destruct (last_segment slash b c Hl Hs) as (ws & w & E). revert Hc. unfold components.
  pose proof (join_split slash b) as Hj. rewrite E in Hj |- *. destruct (starts_with "/" b) eqn:Est; [done|].
  assert (forall v, exists t, segment_component (v ++ [c]) = Some t) as Hseg.
  { intros v. unfold segment_component, str_eqb. rewrite (bool_decide_false (v ++ [c] = ""%str)) by (by destruct v).
    rewrite (bool_decide_false (v ++ [c] = "."%str)). 2: { intros F. apply (f_equal last) in F. rewrite last_snoc in F. cbn in F. congruence. }
    cbn. case_bool_decide; eauto. }
  destruct ws as [|s0 ws].
  - cbn in Hj |- *. destruct (Hseg w) as (t & Ht). rewrite Ht. case_match; [done|]. cbn. intros [= ->]. subst b.
    assert (x = w ++ [c]) as ->. { unfold segment_component in Ht. repeat case_match; by simplify_eq. }
    split; [done|]. apply (split_char_no_sep slash (w ++ [c])). rewrite E. by left.
  - cbn [app] in Hj. destruct s0 as [|y s0]; [destruct ws; subst b; cbn in Est; done|]. cbn [app]. cbv beta iota.
    destruct (str_eqb (y :: s0) "."%str) eqn:Ed; [done|]. cbn [app]. rewrite app_comm_cons, omap_app. destruct (Hseg w) as (t & Ht). cbn. rewrite Ht.
    assert (exists t', segment_component (y :: s0) = Some t') as (t' & ->).
    { unfold segment_component. rewrite Ed. change (str_eqb (y :: s0) ""%str) with false. cbn. case_match; eauto. }
    cbn. intros [= _ F]. by apply app_eq_nil in F as [_ ?].
Qed.

(** A released artifact's name ends in the letter of its suffix. *)
Lemma ends_with_last p s c : last p = Some c -> ends_with p s = true -> last s = Some c.
Proof. intros Hp (a & ->)%ends_with_spec. rewrite last_app, Hp. done. Qed.

Lemma lower_last s c : last (to_ascii_lowercase s) = Some c -> exists d, last s = Some d /\ lower_char d = c.
Proof.
  unfold to_ascii_lowercase. rewrite fmap_last. destruct (last s) as [d|]; [|done]. cbn. intros [= <-]. eauto.
Qed.

Definition artifact_end (c : N) : bool := existsb (N.eqb c) [98; 66; 116; 84; 109; 77; 122; 90; 103].   (* b t m z g *)

Lemma artifact_end_plain c : artifact_end c = true -> c < 128 /\ c <> slash /\ c <> "."%ch /\ c <> "n"%ch.
Proof.
  unfold artifact_end. intros (x & Hx & E)%existsb_elem. apply N.eqb_eq in E as ->. apply list_elem_of_In in Hx.
  repeat (destruct Hx as [<-|Hx]; [by vm_compute|]). done.
Qed.

Lemma lower_end d c : lower_char d = c -> (c = 98 \/ c = 116 \/ c = 109) -> artifact_end d = true.
Proof.
  unfold lower_char. destruct (is_ascii_uppercase d) eqn:E; intros Hc H.
  - assert (d = 66 \/ d = 84 \/ d = 77) as [->|[->| ->]] by lia; done.
  - subst c. destruct H as [->|[->| ->]]; done.
Qed.

Lemma matcher_end platform format k p name : artifact_matcher platform format = Some (k, p) -> p name = true ->
  exists c, last name = Some c /\ artifact_end c = true.
Proof.
  destruct platform, format; cbn; try done; intros [= <- <-] H; revert H.
  all: first [ intros [H _]%andb_true_iff; eapply ends_with_last in H; [|reflexivity]; first
         [ by eexists | apply lower_last in H as (d & Hd & E); exists d; split; [done|]; eapply lower_end; [done|]; auto ] ].
Qed.

Section StateFacts.
Context `{SV : Semver} `{SL : !SemverLaws} `{CR : Crypto} `{UJ : UpdateJson} `{UL : !UpdateJsonLaws} (build : Build) (key : str).

(** A manifest that was signed with the key. *)
Definition published (m : LatestManifest) : Prop :=
  exists body sig, valid_signature key (from_utf8_lossy sig) body /\ read_manifest body = Some m.

Lemma fetch_published dl releases : fetch_releases dl key = Some releases -> exists m, published m /\ releases = manifest_to_releases m.
Proof.
  unfold fetch_releases. destruct (dl LATEST_MANIFEST_URL) as [body|]; [|done]. destruct (dl LATEST_MANIFEST_SIG_URL) as [sig|]; [|done].
  cbn [mbind option_bind]. destruct (verify_minisign _ _ _) as [[]|] eqn:E; [|done]. apply verify_minisign_ok in E.
  destruct (read_manifest body) as [m|] eqn:Em; [|done]. intros [= <-]. exists m. split; [|done]. by exists body, sig.
Qed.

(** What a snapshot says was decided, by some version of the daemon, from such a manifest. *)
Definition honest (snap : UpdateSnapshot) : Prop :=
  exists m channel current now, published m /\ snap = snapshot_from (select_target (manifest_to_releases m) channel current) now.

Record update_ok (s : UState) : Prop := {
  uo_snapshot snap : us_snapshot s = Some snap -> honest snap;
  uo_file snap : load_snapshot build (us_files s) = Some snap -> honest snap;
  uo_releases : us_releases s = [] \/ exists m, published m /\ us_releases s = manifest_to_releases m;
}.

Lemma u_write_other e p q bytes files : p <> q -> (u_write e p bytes files).2 !! q = files !! q.
Proof. intros Hne. unfold u_write. by destruct (ue_write e p); cbn; rewrite lookup_insert_ne. Qed.

(** A snapshot file is the old one, the new one, or none that can be read. *)
Lemma persist_load e snap files s : load_snapshot build (persist_snapshot build e snap files) = Some s ->
  load_snapshot build files = Some s \/ s = snap.
Proof.
  unfold persist_snapshot. destruct (match path_parent _ with Some _ => _ | None => _ end); [|by left].
  destruct (write_snapshot snap) as [json|] eqn:Ej; [|by left]. unfold load_snapshot at 1. unfold u_write.
  destruct (ue_write e _) as [n|]; cbn [snd]; rewrite lookup_insert_eq; cbn [mbind option_bind].
  - destruct (decide (n < length json)%nat) as [Hn|Hn]; [by rewrite (snapshot_cut _ _ _ Ej Hn)|].
    rewrite take_ge by lia. rewrite (snapshot_reads _ _ Ej). intros [= <-]. by right.
  - rewrite (snapshot_reads _ _ Ej). intros [= <-]. by right.
Qed.

Lemma store_ok e snap s : update_ok s -> honest snap -> update_ok (store_snapshot build e snap s).
Proof.
  intros [H1 H2 H3] Hs. split; cbn; [by intros ? [= <-]| |done]. intros s' [?| ->]%persist_load; [by apply H2|done].
Qed.
Lemma releases_ok m s : update_ok s -> published m -> update_ok (put_releases (manifest_to_releases m) s).
Proof. intros [H1 H2 H3] Hm. split; cbn; [done|done|]. right. eauto. Qed.

Lemma decided_honest m channel current now : published m ->
  honest (snapshot_from (select_target (manifest_to_releases m) channel current) now).
Proof. intros H. by exists m, channel, current, now. Qed.

(** *** Staging *)

Lemma select_asset_end r platform format sel : select_asset r platform format = Ok sel ->
  exists c, last (asset_name (artifact sel)) = Some c /\ artifact_end c = true.
Proof.
  unfold select_asset. destruct (artifact_matcher platform format) as [[k p]|] eqn:Em; [|done].
  intros (a & Ha & H)%bind_ok. apply bind_ok in H as (sg & _ & H). apply bind_ok in H as (sums & _ & [= <-]).
  unfold find_asset in Ha. destruct (find_first _ (rm_assets r)) as [a'|] eqn:Ea; [|done]. injection Ha as ->.
  apply find_first_elem in Ea as [_ Hp]. by apply (matcher_end platform format k p).
Qed.

Lemma last_os s c : last s = Some c -> c < 128 -> last (os s) = Some c.
Proof.
  intros (s' & ->)%last_Some Hc. unfold os. rewrite as_bytes_app, (as_bytes_ascii [c]) by (by repeat constructor).
  by rewrite last_snoc.
Qed.

Lemma join_last dir name c : is_absolute name = false -> last name = Some c -> last (path_join dir name) = Some c.
Proof.
  intros Ha Hl. unfold path_join. rewrite Ha. destruct (_ || _); by rewrite !last_app, Hl.
Qed.

Lemma no_slash_relative name : slash ∉ name -> is_absolute name = false.
Proof.
  intros H. unfold is_absolute. destruct (starts_with "/" name) eqn:E; [|done]. apply starts_with_spec in E as (r & ->). destruct H. by left.
Qed.

Lemma safe_name name c : is_safe_filename name = true -> last name = Some c -> artifact_end c = true -> slash ∉ os name.
Proof.
  unfold is_safe_filename. intros Hs Hl (H1 & H2 & H3 & _)%artifact_end_plain.
  destruct (components (os name)) as [|[| | |x] [|]] eqn:E; try done. eapply single_component; eauto using last_os.
Qed.

(** Nothing staged is taken for the snapshot file. *)
Lemma staged_not_snapshot name c : slash ∉ os name -> last name = Some c -> artifact_end c = true ->
  path_join (staging_dir build) (os name) <> snapshot_path build.
Proof.
  intros Hn Hl (H1 & _ & _ & H4)%artifact_end_plain E. apply (f_equal last) in E.
  rewrite (join_last _ _ c) in E by eauto using no_slash_relative, last_os. unfold snapshot_path in E.
  rewrite (join_last _ _ "n"%ch) in E by done. congruence.
Qed.

Lemma target_newer rs channel current v : ud_target (select_target rs channel current) = Some v -> version_gt v current = true.
Proof.
  unfold select_target. destruct (foldl latest_step (None, None) rs) as [a b]. cbn [ud_target].
  destruct (match channel with Update.Stable => a | Update.Edge => b end) as [c|]; [|done]. cbn. destruct (version_gt c current) eqn:E; [|done].
  by intros [= <-].
Qed.

(** What was verified before anything of it is written. *)
Record verified_release (running : Version) (e : UEnv) (channel : Update.Channel) (m : LatestManifest)
    (sel : ArtifactSelection) (ver : Version) (art : list N) (sig : str) : Prop := {
  vr_published : published m;
  vr_target : ud_target (select_target (manifest_to_releases m) channel running) = Some ver;
  vr_newer : version_gt ver running = true;
  vr_release : exists r, r ∈ manifest_to_releases m /\ rm_version r = ver /\ select_asset r (b_platform build) (b_format build) = Ok sel;
  vr_download : ue_download e (asset_url (artifact sel)) = Some art;
  vr_signed : valid_signature key sig art;
  vr_signature : exists bytes, ue_download e (asset_url (signature sel)) = Some bytes /\ sig = from_utf8_lossy bytes;
  vr_sums : exists sums, ue_download e (asset_url (checksums sel)) = Some sums /\
    verify_sha256 art (from_utf8_lossy sums) (asset_name (artifact sel)) = Ok tt;
  vr_name : slash ∉ os (asset_name (artifact sel)) /\ exists c, last (asset_name (artifact sel)) = Some c /\ artifact_end c = true;
}.

Lemma stage_update_spec running e ov s r s' : stage_update build running e ov key s = (r, s') ->
  (s' = s /\ exists m, r = UInternal m) \/
  exists m sel ver art sig, verified_release running e (request_channel ov s) m sel ver art sig /\ stage_files build e sel ver art sig s = (r, s').
Proof.
  unfold stage_update. pose proof (fetch_published (ue_download e)) as Hf. destruct (fetch_releases _ key) as [releases|]; [|intros [= <- <-]; eauto].
  destruct (Hf releases eq_refl) as (m & Hm & ->). destruct (ud_target _) as [ver|] eqn:Et; [|intros [= <- <-]; eauto].
  destruct (find_first _ _) as [rel|] eqn:Er; [|intros [= <- <-]; eauto]. apply find_first_elem in Er as [Hin Hv]. apply bool_decide_eq_true in Hv.
  destruct (select_asset rel _ _) as [sel|] eqn:Es; [|intros [= <- <-]; eauto].
  destruct (ue_download e (asset_url (artifact sel))) as [art|] eqn:E1; [|intros [= <- <-]; eauto].
  destruct (ue_download e (asset_url (signature sel))) as [sig|] eqn:E2; [|intros [= <- <-]; eauto].
  destruct (ue_download e (asset_url (checksums sel))) as [sums|] eqn:E3; [|intros [= <- <-]; eauto].
  destruct (verify_sha256 _ _ _) as [[]|] eqn:E4; [|intros [= <- <-]; eauto].
  destruct (verify_minisign key _ art) as [[]|] eqn:E5; [|intros [= <- <-]; eauto]. apply verify_minisign_ok in E5.
  destruct (is_safe_filename _) eqn:E6; cbn [negb]; [|intros [= <- <-]; eauto].
  intros H. right. exists m, sel, ver, art, (from_utf8_lossy sig). split; [|done].
  destruct (select_asset_end _ _ _ _ Es) as (c & Hl & Hc).
  split; eauto using target_newer. split; [by eapply safe_name|eauto].
Qed.

(** The files of a verified release: whole, or cut short by a failed write. *)
Definition artifact_path (sel : ArtifactSelection) : OsString := path_join (staging_dir build) (os (asset_name (artifact sel))).
Definition signature_path (sel : ArtifactSelection) : OsString := path_join (staging_dir build) (os (asset_name (artifact sel) ++ ".minisig"%str)).

Lemma u_write_lookup e p bytes files q b : (u_write e p bytes files).2 !! q = Some b ->
  files !! q = Some b \/ q = p /\ exists n, b = take n bytes.
Proof.
  unfold u_write. assert (forall x, (<[p := x]> files) !! q = Some b -> files !! q = Some b \/ q = p /\ b = x) as H.
  { intros x. destruct (decide (q = p)) as [->|Hne]; [rewrite lookup_insert_eq; intros [= <-]; auto|rewrite lookup_insert_ne by done; auto]. }
  destruct (ue_write e p) as [n|]; cbn [snd]; intros [?|[-> ->]]%H; [by left|right; eauto|by left|].
  right. split; [done|]. exists (length bytes). by rewrite take_ge.
Qed.

Lemma signature_path_ne sel : signature_path sel <> artifact_path sel \/ slash ∈ os (asset_name (artifact sel)).
Proof.
  destruct (decide (slash ∈ os (asset_name (artifact sel)))) as [?|Hn]; [by right|left].
  unfold signature_path, artifact_path, path_join. rewrite (no_slash_relative (os (asset_name _))) by done.
  rewrite no_slash_relative.
  2: { unfold os. rewrite as_bytes_app, elem_of_app. intros [?|H]; [done|]. apply list_elem_of_In in H. revert H. vm_compute. intuition discriminate. }
  unfold os. rewrite as_bytes_app. intros E.
  assert (forall x y : list N, x ++ y = x -> y = []) as Hnil. { intros x y F. apply (app_inv_head x). by rewrite app_nil_r. }
  destruct (_ || _) in E; apply app_inv_head in E; [|apply app_inv_head in E]; by apply Hnil in E.
Qed.

Lemma stage_files_spec e sel ver art sig s r s' : stage_files build e sel ver art sig s = (r, s') ->
  us_config s' = us_config s /\ us_releases s' = us_releases s /\ us_snapshot s' = us_snapshot s /\
  (forall p b, us_files s' !! p = Some b -> us_files s !! p = Some b \/
     (p = artifact_path sel /\ exists n, b = take n art) \/ (p = signature_path sel /\ exists n, b = take n (as_bytes sig))) /\
  (forall q, q <> artifact_path sel -> q <> signature_path sel -> us_files s' !! q = us_files s !! q) /\
  (forall path version k, r = Staged path version k -> path = from_utf8_lossy (artifact_path sel) /\ version = version_show ver /\
     k = staged_kind (kind sel) /\ (slash ∉ os (asset_name (artifact sel)) -> us_files s' !! artifact_path sel = Some art) /\
     us_files s' !! signature_path sel = Some (as_bytes sig)).
Proof.
  unfold stage_files. fold (artifact_path sel) (signature_path sel).
  destruct (ue_create_dir e _); cbn [negb]; [|intros [= <- <-]; repeat (split; [by auto|]); done].
  pose proof (u_write_lookup e (artifact_path sel) art (us_files s)) as H1. pose proof (fun q H => u_write_other e (artifact_path sel) q art (us_files s) H) as O1.
  destruct (u_write e (artifact_path sel) art (us_files s)) as [ok f1] eqn:E1. cbn [snd] in *.
  destruct ok; cbn [negb].
  2: { intros [= <- <-]. cbn. repeat (split; [done|]). split; [|split; [|done]].
       - intros p b [?|[-> ?]]%H1; auto.
       - intros q Hq _. by apply O1. }
  pose proof (u_write_lookup e (signature_path sel) (as_bytes sig) f1) as H2. pose proof (fun q H => u_write_other e (signature_path sel) q (as_bytes sig) f1 H) as O2.
  destruct (u_write e (signature_path sel) (as_bytes sig) f1) as [ok f2] eqn:E2. cbn [snd] in *.
  assert (forall p b, f2 !! p = Some b -> us_files s !! p = Some b \/
     (p = artifact_path sel /\ exists n, b = take n art) \/ (p = signature_path sel /\ exists n, b = take n (as_bytes sig))) as H12.
  { intros p b [[?|[-> ?]]%H1|[-> ?]]%H2; auto. }
  assert (forall q, q <> artifact_path sel -> q <> signature_path sel -> f2 !! q = us_files s !! q) as O12.
  { intros q Ha Hb. rewrite O2, O1 by done. done. }
  destruct ok; cbn [negb]; intros [= <- <-]; cbn; repeat (split; [done|]); [|done].
  intros path version k [= <- <- <-]. repeat (split; [done|]).
  unfold u_write in E1, E2. destruct (ue_write e (artifact_path sel)); [done|]. destruct (ue_write e (signature_path sel)); [done|].
  injection E1 as <-. injection E2 as <-. split; [|by rewrite lookup_insert_eq]. intros Hn.
  destruct (signature_path_ne sel) as [Hne|?]; [|done]. by rewrite lookup_insert_ne, lookup_insert_eq.
Qed.

(** C25. Only verified updates are staged: whatever the network gives and whatever fails,
    staging keeps the state and writes nothing but the artifact and the signature of a
    release that a signed manifest names, that the channel asked for leads to, that is
    newer than the running version and that matches its checksum and its signature,
    each to a single entry of the staging folder.  A reply that names a staged file is
    given when both are there whole. *)
Theorem staged_verified running e ov s r s' :
  stage_update build running e ov key s = (r, s') ->
  (s' = s /\ exists m, r = UInternal m) \/
  exists m sel ver art sig, verified_release running e (request_channel ov s) m sel ver art sig /\
    us_config s' = us_config s /\ us_releases s' = us_releases s /\ us_snapshot s' = us_snapshot s /\
    (forall p b, us_files s' !! p = Some b -> us_files s !! p = Some b \/
       (p = artifact_path sel /\ exists n, b = take n art) \/ (p = signature_path sel /\ exists n, b = take n (as_bytes sig))) /\
    (forall q, q <> artifact_path sel -> q <> signature_path sel -> us_files s' !! q = us_files s !! q) /\
    (forall path version k, r = Staged path version k ->
       path = from_utf8_lossy (artifact_path sel) /\ version = version_show ver /\ k = staged_kind (kind sel) /\
       us_files s' !! artifact_path sel = Some art /\ us_files s' !! signature_path sel = Some (as_bytes sig)).
Proof.
  intros [?|(m & sel & ver & art & sig & V & H)]%stage_update_spec; [by left|right].
  exists m, sel, ver, art, sig. split; [done|]. apply stage_files_spec in H as (H1 & H2 & H3 & H4 & H5 & H6).
  repeat (split; [done|]). intros path version k Hr. destruct (H6 path version k Hr) as (? & ? & ? & Ha & ?).
  repeat (split; [done|]). split; [|done]. apply Ha. by destruct (vr_name _ _ _ _ _ _ _ _ V).
Qed.

(** ** Every run of the daemon *)

Notation USys := (Version * UState)%type.

(** Polls, checks and stagings in any order, with the configuration changing between
    them, and restarts, also as another version, from the snapshot file. *)
Inductive update_step : USys -> USys -> Prop :=
| us_poll running e s : update_step (running, s) (running, poll_if_due build running e key s)
| us_check running e ov s : update_step (running, s) (running, (check_update build running e ov key s).2)
| us_stage running e ov s : update_step (running, s) (running, (stage_update build running e ov key s).2)
| us_configure running c s : update_step (running, s) (running, mkUState c (us_releases s) (us_snapshot s) (us_files s))
| us_restart running running' c s : update_step (running, s) (running', mkUState c [] (load_snapshot build (us_files s)) (us_files s)).

Definition update_reachable (x : USys) : Prop := exists running c, rtc update_step (running, mkUState c [] None ∅) x.

Lemma update_step_ok x y : update_step x y -> update_ok x.2 -> update_ok y.2.
Proof.
  intros []; cbn [snd]; intros W.
  - unfold poll_if_due, poll_and_refresh. destruct (is_check_due _ _); [|done].
    destruct (fetch_releases _ key) as [rs|] eqn:E; [|done]. destruct (fetch_published _ _ E) as (m & Hm & ->).
    apply releases_ok; [|done]. apply store_ok; [done|]. by apply decided_honest.
  - unfold check_update. destruct (fetch_releases _ key) as [rs|] eqn:E.
    + destruct (fetch_published _ _ E) as (m & Hm & ->). apply store_ok; [by apply releases_ok|]. by apply decided_honest.
    + by destruct (us_snapshot s).
  - destruct (stage_update build running e ov key s) as [r s'] eqn:E. cbn.
    apply stage_update_spec in E as [[-> _]|(m & sel & ver & art & sig & V & H)]; [done|].
    apply stage_files_spec in H as (H1 & H2 & H3 & _ & H5 & _). destruct W as [W1 W2 W3].
    destruct (vr_name _ _ _ _ _ _ _ _ V) as (Hn & c & Hl & Hc).
    split; rewrite ?H2, ?H3; [done| |done]. unfold load_snapshot. rewrite H5; [exact W2| |].
    + intros F. eapply (staged_not_snapshot _ c); eauto.
    + intros F. eapply (staged_not_snapshot (asset_name (artifact sel) ++ ".minisig"%str) "g"%ch); [| |done|by symmetry].
      * unfold os. rewrite as_bytes_app, elem_of_app. intros [?|Hg]; [done|]. apply list_elem_of_In in Hg. revert Hg. vm_compute. intuition discriminate.
      * by rewrite last_app.
  - destruct W as [W1 W2 W3]. by split.
  - destruct W as [W1 W2 W3]. split; cbn; auto.
Qed.

Lemma update_reachable_ok x : update_reachable x -> update_ok x.2.
Proof.
  intros (running & c & H). remember (running, mkUState c [] None ∅) as x0. assert (update_ok x0.2) as W.
  { subst x0. split; cbn; [done| |by left]. unfold load_snapshot. by rewrite lookup_empty. }
  clear Heqx0. induction H as [|x y z Hs _ IH]; [done|]. apply IH. by apply (update_step_ok x).
Qed.

(** What a reply may say of an update. *)
Record honest_reply (running : Version) (channel : Update.Channel) (r : UpdateStatus) : Prop := {
  hr_current : st_current r = version_show running;
  hr_channel : st_channel r = to_ipc channel;
  hr_available : st_available r = true <-> is_Some (st_target r);
  hr_target t : st_target r = Some t -> exists m v, published m /\
    ud_target (select_target (manifest_to_releases m) channel running) = Some v /\ version_gt v running = true /\ t = version_show v;
}.

Lemma version_show_inj a b : version_show a = version_show b -> a = b.
Proof. intros E. apply (f_equal version_parse) in E. rewrite !version_parse_show in E. by injection E. Qed.

Lemma decision_fields rs channel current : let d := select_target rs channel current in
  ud_current d = current /\ ud_channel d = channel /\ (ud_available d = true <-> is_Some (ud_target d)).
Proof. unfold select_target. destruct (foldl latest_step _ _). cbn. split; [done|]. split; [done|]. by rewrite bool_decide_eq_true. Qed.

Lemma to_ipc_inj a b : to_ipc a = to_ipc b -> a = b.
Proof. by destruct a, b. Qed.

Lemma snapshot_reply_honest running channel source snap : honest snap ->
  honest_reply running channel (response_from_snapshot running snap (to_ipc channel) source).
Proof.
  intros (m & ch & cur & now & Hm & ->). destruct (decision_fields (manifest_to_releases m) ch cur) as (E1 & E2 & E3).
  unfold response_from_snapshot. cbn [snapshot_from snap_current snap_channel]. rewrite E1, E2.
  destruct (str_eqb _ _) eqn:Ec; cbn [negb orb]; [|by split; cbn; [| |split; [|intros []]|]].
  apply bool_decide_eq_true, version_show_inj in Ec. subst cur. case_bool_decide as Ech; cbn [negb]; [|by split; cbn; [| |split; [|intros []]|]].
  apply to_ipc_inj in Ech. subst ch.
  split; cbn [st_current st_channel st_available st_target snapshot_from snap_available snap_target andb]; [done|done| |].
  - rewrite E3. by rewrite fmap_is_Some.
  - intros t (v & Hv & ->)%fmap_Some. exists m, v. split; [done|]. split; [done|]. split; [by eapply target_newer|done].
Qed.

Lemma no_update_reply running channel source : honest_reply running channel
  (mkStatusReply (version_show running) None None (to_ipc channel) false None false source None).
Proof. split; cbn; [done|done| |done]. split; [done|]. by intros []. Qed.

(** C26. An update is announced only when there is one: in whatever state polls, checks,
    restarts and changes of version and channel have left the daemon, a reply names a
    target exactly when it says that one is available, and then a manifest signed with
    the key has that release, it is the one the channel of the reply leads to, and it is
    newer than the version that is running now. *)
Theorem updates_announced_honestly running s e ov :
  update_reachable (running, s) ->
  honest_reply running (configured_channel s) (cached_update_status running s) /\
  honest_reply running (request_channel ov s) (check_update build running e ov key s).1.
Proof.
  intros W%update_reachable_ok. cbn in W. destruct W as [W1 W2 W3]. split.
  - unfold cached_update_status. destruct (us_snapshot s) as [snap|]; [|apply no_update_reply]. by apply snapshot_reply_honest, W1.
  - unfold check_update. destruct (fetch_releases _ key) as [rs|] eqn:E; cbn [fst].
    + destruct (fetch_published _ _ E) as (m & Hm & ->). by apply snapshot_reply_honest, decided_honest.
    + destruct (us_snapshot s) as [snap|]; cbn [fst]; [by apply snapshot_reply_honest, W1|].
      destruct W3 as [->|(m & Hm & ->)].
      * unfold status_response. cbn. destruct (request_channel ov s); (split; cbn; [done|done| |done]); (split; [done|]; by intros []).
      * destruct (decision_fields (manifest_to_releases m) (request_channel ov s) running) as (E1 & E2 & E3).
        split; cbn [status_response st_current st_channel st_available st_target]; [by rewrite E1|by rewrite E2|by rewrite E3, fmap_is_Some|].
        intros t (v & Hv & ->)%fmap_Some. exists m, v. split; [done|]. split; [done|]. split; [by eapply target_newer|done].
Qed.
End StateFacts.

(** *** A manifest with a stable release and a newer release candidate *)

#[global] Existing Instance demo_semver.
#[global] Instance UpdateSnapshot_eq_dec : EqDecision UpdateSnapshot.
Proof. solve_decision. Defined.

Definition demo_crypto : Crypto := {|
  sha256_hex b := "00ff"%str;
  PublicKey := str; Signature := str;
  from_base64 := Some;
  decode_signature := strip_prefix "sig "%str;
  signed pk bytes sig := str_eqb sig (pk ++ show_uint (vlen bytes));
|}.

Definition deb_name : str := "Orcker_Linux_x86_64_v1-1-0.deb"%str.
Definition demo_entry (tag : str) : ReleaseEntry :=
  mkEntry tag false false None
    [mkAssetEntry deb_name "u:deb"%str 3; mkAssetEntry (deb_name ++ ".minisig"%str) "u:sig"%str 5; mkAssetEntry "SHA256SUMS"%str "u:sums"%str 9].
Definition demo_latest : LatestManifest := mkLatest 1 (Some (demo_entry "v1.1.0"%str)) (Some (demo_entry "v1.2.0-rc.2"%str)).
Definition demo_snapshot : UpdateSnapshot := mkUpdateSnapshot 7 "1.0.0"%str (Some "1.1.0"%str) (Some "1.2.0-rc.2"%str) Ipc.Stable true (Some "1.1.0"%str) false.
Definition demo_json : UpdateJson := {|
  read_manifest b := if bool_decide (b = [123; 125]) then Some demo_latest else None;
  write_snapshot s := if bool_decide (s = demo_snapshot) then Some [123; 34; 125] else None;
  read_snapshot b := if bool_decide (b = [123; 34; 125]) then Some demo_snapshot else None;
|}.
#[global] Existing Instance demo_crypto.
#[global] Existing Instance demo_json.

Lemma demo_json_laws : UpdateJsonLaws.
Proof.
  split; intros s b; cbn.
  - case_bool_decide as E; [|done]. intros [= <-]. subst s. by vm_compute.
  - intros n. case_bool_decide as E; [|done]. intros [= <-] Hn. cbn in Hn. destruct n as [|[|[|n]]]; [done|done|done|lia].
Qed.

Definition demo_build : Build := mkBuild LinuxX86_64 Deb "/state"%str "/cache"%str.
Definition demo_web (u : str) : option (list N) :=
  if str_eqb u LATEST_MANIFEST_URL then Some [123; 125]
  else if str_eqb u LATEST_MANIFEST_SIG_URL then Some (os "sig k2"%str)
  else if str_eqb u "u:deb" then Some [1; 2; 3]
  else if str_eqb u "u:sig" then Some (os "sig k3"%str)
  else if str_eqb u "u:sums" then Some (os ("00FF  "%str ++ deb_name))
  else None.
Definition demo_uenv : UEnv := mkUEnv 7 demo_web (fun _ => true) (fun _ => None).

Definition demo_running : @Version demo_semver := D100.
Definition demo_start : @UState demo_semver := mkUState Config_default [] None ∅.
Definition demo_checked : UState := (check_update demo_build demo_running demo_uenv None "k"%str demo_start).2.

Lemma updates_announced_honestly_witness :
  update_reachable demo_build "k"%str (demo_running, demo_checked) /\
  st_target (cached_update_status demo_running demo_checked) = Some "1.1.0"%str /\
  honest_reply "k"%str demo_running Update.Stable (cached_update_status demo_running demo_checked).
Proof.
  assert (update_reachable demo_build "k"%str (demo_running, demo_checked)) as W.
  { exists demo_running, Config_default. apply rtc_once. apply (us_check demo_build "k"%str demo_running demo_uenv None demo_start). }
  split; [exact W|]. split; [by vm_compute|].
  apply (@updates_announced_honestly demo_semver demo_semver_laws demo_crypto demo_json demo_json_laws demo_build "k"%str demo_running demo_checked demo_uenv None W).
Defined.

Definition demo_staged := stage_update demo_build demo_running demo_uenv None "k"%str demo_start.

Lemma staged_verified_witness :
  demo_staged.1 = Staged ("/cache/update/"%str ++ deb_name) "1.1.0"%str SDeb /\
  ((demo_staged.2 = demo_start /\ exists m, demo_staged.1 = UInternal m) \/
   exists m sel ver art sig, verified_release demo_build "k"%str demo_running demo_uenv Update.Stable m sel ver art sig).
Proof.
  split; [by vm_compute|].
  destruct (@staged_verified demo_semver demo_crypto demo_json demo_build "k"%str demo_running demo_uenv None demo_start
    demo_staged.1 demo_staged.2) as [H|(m & sel & ver & art & sig & V & _)]; [by vm_compute|by left|].
  right. exists m, sel, ver, art, sig. exact V.
Defined.

(** A check of the other channel, "for this check only", replaces the snapshot: the
    status that is shown afterwards no longer tells of the update there is. *)
Lemma check_other_channel_hides_update :
  let s := (check_update demo_build demo_running demo_uenv (Some Ipc.Edge) "k"%str demo_checked).2 in
  st_available (cached_update_status demo_running demo_checked) = true /\
  st_available (cached_update_status demo_running s) = false /\
  poll_if_due demo_build demo_running (mkUEnv 14406 demo_web (fun _ => true) (fun _ => None)) "k"%str s = s.
Proof. by vm_compute. Qed.

Definition demo_releases : list ReleaseEntry :=
  [demo_entry "v1.0.0"%str; demo_entry "v1.2.0-rc.2"%str; demo_entry "nightly"%str; demo_entry "v1.1.0"%str; demo_entry "v1.1.0-rc.1"%str].

Lemma manifest_keeps_decision_witness :
  ud_target (select_target (SV := demo_semver) (omap entry_to_meta demo_releases) Update.Edge demo_running) = Some D120rc2 /\
  select_target (SV := demo_semver) (manifest_to_releases (build_manifests demo_releases "https://cdn/"%str []).2) Update.Edge demo_running =
  select_target (omap entry_to_meta demo_releases) Update.Edge demo_running.
Proof.
  split; [by vm_compute|]. apply (@manifest_keeps_decision demo_semver demo_semver_laws demo_releases "https://cdn/"%str [] Update.Edge demo_running).
Defined.
