(* ===== verification/Apply.v ===== *)
(** * Applying a staged update

    [src/bin/orcker/src/apply.rs] and the dispatch of [main.rs]: the second verification
    of the staged artifact, the installation as root through the platform's package
    manager, the swap of the macOS bundle and what is restarted afterwards.  A machine
    ([ASys]) answers every call; as the staged files belong to the user, each read of one
    is answered anew, in the order the calls are made. *)

From S2P Require Import Prelude RustStr RustText Utf8 RustPath HelperArgv Config Update SelfUpdate.

Open Scope N_scope.

(** [Path::with_file_name] *)
Definition with_file_name (p name : OsString) : OsString :=
  path_join (match file_name p with Some _ => default p (path_parent p) | None => p end) name.

Definition sibling_minisig (staged : OsString) : OsString :=
  with_file_name staged (default [] (file_name staged) ++ ".minisig"%str).

(** ** The machine *)

Record ExitOutput := mkExit { ex_success : bool; ex_stdout : list N; ex_stderr : list N }.

(** What was done: a program run on the file of a path with its contents, and the rest. *)
Inductive AAct :=
| MadePrivateDir (p : OsString)
| WroteFile (p : OsString) (bytes : list N)
| RanAsRoot (program : str) (args : list OsString)
| RemovedAll (p : OsString)
| RestartedDaemon
| StoppedDaemon
| RelaunchedGui
| Renamed (from to_ : OsString).

Record ASys := mkASys {
  a_root : bool;                                   (* [geteuid().is_root()] *)
  a_read : nat -> OsString -> option (list N);     (* the n-th read of the process *)
  a_exe : option OsString;                         (* [current_exe] *)
  a_exists : OsString -> bool;
  a_temp_dir : OsString;
  a_suffix : str;                                  (* [unique_suffix] *)
  a_private_dir : bool;                            (* [DirBuilder::mode(0o700).create] *)
  a_write : option nat;                            (* [None]: written *)
  a_run : str -> option ExitOutput;                (* [None]: could not be spawned *)
  a_spawn_gui : bool;
}.

Inductive AMessage :=
| AmNotRoot
| AmReadArtifact
| AmReadSignature
| AmVerify (e : VerifyError)
| AmSecureDir
| AmWriteVerified
| AmSpawn (program : str)
| AmFailed (program detail : str)
| AmCurrentExe
| AmPkexecSpawn
| AmPkexecFailed
| AmWrongPlatform.

Section Apply.
Context `{CR : Crypto}.

(** [std::fs::read_to_string] *)
Definition read_to_string (sys : ASys) (n : nat) (p : OsString) : option str := b ← a_read sys n p; from_utf8 b.

(** The reads and the verification shared by the re-verification and the installers;
    [n] is the number of reads before. *)
Definition read_verified (sys : ASys) (n : nat) (staged : OsString) (public_key : str) : result AMessage (list N) :=
  bytes ← ok_or AmReadArtifact (a_read sys n staged);
  sig ← ok_or AmReadSignature (read_to_string sys (S n) (sibling_minisig staged));
  _ ← map_err AmVerify (verify_minisign public_key sig bytes);
  Ok bytes.

Definition reverify_with_key (sys : ASys) (staged : OsString) (public_key : str) : result AMessage unit :=
  _ ← read_verified sys 0 staged public_key; Ok tt.
Definition reverify (sys : ASys) (staged : OsString) : result AMessage unit := reverify_with_key sys staged UPDATE_PUBLIC_KEY.

(** *** The installers *)

(** What a package manager printed, for the error. *)
Definition output_detail (out : ExitOutput) : str :=
  let err := trim (from_utf8_lossy (ex_stderr out)) in
  if is_empty err then trim (from_utf8_lossy (ex_stdout out)) else err.

(** The three installers are one text but for the file's name, the program with its
    options and the error. *)
Definition elevated_install (file program : str) (options : list OsString) (detail : ExitOutput -> str)
    (sys : ASys) (n : nat) (staged : OsString) : result AMessage unit * list AAct :=
  if negb (a_root sys) then (Err AmNotRoot, [])
  else
    match read_verified sys n staged UPDATE_PUBLIC_KEY with
    | Err e => (Err e, [])
    | Ok bytes =>
        let dir := path_join (a_temp_dir sys) (os ("orcker-update-"%str ++ a_suffix sys)) in
        if negb (a_private_dir sys) then (Err AmSecureDir, [])
        else
          let pkg := path_join dir (os file) in
          let '(install, acts) :=
            match a_write sys with
            | Some k => (Err AmWriteVerified, [WroteFile pkg (take k bytes)])
            | None =>
                match a_run sys program with
                | None => (Err (AmSpawn program), [WroteFile pkg bytes])
                | Some out =>
                    (if ex_success out then Ok tt else Err (AmFailed program (detail out)),
                     [WroteFile pkg bytes; RanAsRoot program (options ++ [pkg])])
                end
            end in
          (install, MadePrivateDir dir :: acts ++ [RemovedAll dir])
    end.

Definition elevated_install_deb := elevated_install "update.deb"%str "dpkg"%str [os "-i"%str] (fun _ => []).
Definition elevated_install_pacman :=
  elevated_install "update.pkg.tar.zst"%str "pacman"%str [os "-U"%str; os "--noconfirm"%str] output_detail.
Definition elevated_install_rpm :=
  elevated_install "update.rpm"%str "rpm"%str [os "-U"%str; os "--oldpackage"%str; os "--replacepkgs"%str] output_detail.

Notation ExitCode := N.
Definition install_entry (r : result AMessage unit * list AAct) : ExitCode * list AAct :=
  (match r.1 with Ok _ => 0 | Err _ => 1 end, r.2).

Definition INSTALL_DEB_ARG : str := "__orcker-install-deb"%str.
Definition INSTALL_PACMAN_ARG : str := "__orcker-install-pacman"%str.
Definition INSTALL_RPM_ARG : str := "__orcker-install-rpm"%str.

(** [args_os().skip(1)]; the arguments of [to_str] are compared as their bytes. *)
Definition run_install_from_args (arg : str) (install : ASys -> nat -> OsString -> result AMessage unit * list AAct)
    (sys : ASys) (args : list OsString) : option (ExitCode * list AAct) :=
  match args with
  | [] => None
  | a :: rest =>
      if negb (bool_decide (a = os arg)) then None
      else match rest with
           | [] => Some (2, [])
           | path :: _ => Some (install_entry (install sys 0%nat path))
           end
  end.
Definition run_install_deb_from_args := run_install_from_args INSTALL_DEB_ARG elevated_install_deb.
Definition run_install_pacman_from_args := run_install_from_args INSTALL_PACMAN_ARG elevated_install_pacman.
Definition run_install_rpm_from_args := run_install_from_args INSTALL_RPM_ARG elevated_install_rpm.

(** The entry points [main] tries before the command line. *)
Definition main_install (sys : ASys) (args : list OsString) : option (ExitCode * list AAct) :=
  match run_install_deb_from_args sys args with
  | Some r => Some r
  | None => match run_install_pacman_from_args sys args with
            | Some r => Some r
            | None => run_install_rpm_from_args sys args
            end
  end.

(** *** Restarting *)

Definition sibling (sys : ASys) (name : str) : option OsString :=
  exe ← a_exe sys; dir ← path_parent exe;
  let cand := path_join dir (os name) in if a_exists sys cand then Some cand else None.
Definition sibling_orckerd (sys : ASys) : option OsString := sibling sys "orckerd"%str.
Definition sibling_gui (sys : ASys) : option OsString :=
  match sibling sys "orcker-gui"%str with Some p => Some p | None => sibling sys "Orcker"%str end.

Definition restart_daemon (sys : ASys) : list AAct := match sibling_orckerd sys with Some _ => [RestartedDaemon] | None => [] end.
Definition relaunch_gui_app (sys : ASys) : list AAct :=
  match sibling_gui sys with Some _ => if a_spawn_gui sys then [RelaunchedGui] else [] | None => [] end.
Definition restart_services (sys : ASys) (relaunch_gui : bool) : list AAct :=
  restart_daemon sys ++ (if relaunch_gui then relaunch_gui_app sys else []).

(** *** Linux *)

(** [pkexec] runs the program as root, in a process of its own, unless it is refused. *)
Inductive Pkexec := PkNotFound | PkRefused | PkRun (child : ASys).

Definition pkexec_install (pk : Pkexec) (args : list OsString) : option (bool * list AAct) :=
  match pk with
  | PkNotFound => None
  | PkRefused => Some (false, [])
  | PkRun child =>
      match main_install child args with
      | Some (code, acts) => Some (code =? 0, acts)
      | None => Some (false, [])
      end
  end.

Definition apply_elevated (arg : str) (install : ASys -> nat -> OsString -> result AMessage unit * list AAct)
    (sys : ASys) (pk : Pkexec) (staged : OsString) (relaunch_gui : bool) : result AMessage unit * list AAct :=
  if a_root sys then install sys 2%nat staged
  else
    match a_exe sys with
    | None => (Err AmCurrentExe, [])
    | Some exe =>
        match pkexec_install pk [os arg; staged] with
        | None => (Err AmPkexecSpawn, [])
        | Some (success, acts) =>
            if negb success then (Err AmPkexecFailed, acts)
            else (Ok tt, acts ++ restart_services sys relaunch_gui)
        end
    end.
Definition apply_linux := apply_elevated INSTALL_DEB_ARG elevated_install_deb.
Definition apply_linux_pacman := apply_elevated INSTALL_PACMAN_ARG elevated_install_pacman.
Definition apply_linux_rpm := apply_elevated INSTALL_RPM_ARG elevated_install_rpm.

(** [run] on Linux, after which the message is printed and the code returned. *)
Definition run (sys : ASys) (pk : Pkexec) (staged : OsString) (kind : StagedArtifact) (relaunch_gui : bool) : ExitCode * list AAct :=
  match reverify sys staged with
  | Err _ => (1, [])
  | Ok _ =>
      let '(r, acts) := match kind with
                        | SAppTarGz => (Err AmWrongPlatform, [])
                        | SDeb => apply_linux sys pk staged relaunch_gui
                        | SPacman => apply_linux_pacman sys pk staged relaunch_gui
                        | SRpm => apply_linux_rpm sys pk staged relaunch_gui
                        end in
      match r with
      | Ok _ => (0, acts)
      | Err _ => (1, acts ++ (if relaunch_gui then relaunch_gui_app sys else []))
      end
  end.

(** [run_from_env]: applier mode, selected and described by environment variables. *)
Definition APPLY_ENV : str := "ORCKER_APPLY_UPDATE"%str.
Definition APPLY_PATH_ENV : str := "ORCKER_APPLY_PATH"%str.
Definition APPLY_KIND_ENV : str := "ORCKER_APPLY_KIND"%str.
Definition APPLY_RELAUNCH_GUI_ENV : str := "ORCKER_APPLY_RELAUNCH_GUI"%str.

Definition artifact_kind_of (value : OsString) : option StagedArtifact :=
  if bool_decide (value = os "deb"%str) then Some SDeb
  else if bool_decide (value = os "pacman"%str) then Some SPacman
  else if bool_decide (value = os "rpm"%str) then Some SRpm
  else if bool_decide (value = os "app_tar_gz"%str) then Some SAppTarGz
  else None.

Definition run_from_env (var : str -> option OsString) (sys : ASys) (pk : Pkexec) : option (ExitCode * list AAct) :=
  match var APPLY_ENV with
  | None => None
  | Some _ =>
      match var APPLY_PATH_ENV with
      | None => Some (2, [])
      | Some path =>
          match var APPLY_KIND_ENV ≫= artifact_kind_of with
          | None => Some (2, [])
          | Some kind => Some (run sys pk path kind (bool_decide (var APPLY_RELAUNCH_GUI_ENV = Some (os "1"%str))))
          end
      end
  end.

(** ** The macOS bundle *)

(** Directory trees by path; a rename moves one and may fail. *)
Notation Trees := (gmap (list N) N).

Definition rename (ok : bool) (from to_ : OsString) (t : Trees) : bool * Trees :=
  match t !! from with
  | Some tree => if ok then (true, <[to_ := tree]> (delete from t)) else (false, t)
  | None => (false, t)
  end.

(** [ok k] is the answer to the k-th rename. *)
Definition swap_bundle (ok : nat -> bool) (target new_app backup : OsString) (t : Trees) : bool * Trees :=
  let '(aside, t) := match t !! target with Some _ => rename (ok 0%nat) target backup t | None => (true, t) end in
  if negb aside then (false, t)
  else
    let '(inn, t) := rename (ok 1%nat) new_app target t in
    if inn : bool then (true, t)
    else (false, match t !! backup with Some _ => (rename (ok 2%nat) backup target t).2 | None => t end).

Definition is_app (p : OsString) : bool := bool_decide (extension p = Some "app"%str).

Fixpoint single_dot_app (found : option OsString) (entries : list OsString) : option OsString :=
  match entries with
  | [] => found
  | p :: rest =>
      if is_app p then match found with Some _ => None | None => single_dot_app (Some p) rest end
      else single_dot_app found rest
  end.
Definition find_single_dot_app (entries : option (list OsString)) : option OsString := l ← entries; single_dot_app None l.

(** [poll_until]: the result and how often it was tried. *)
Fixpoint poll_until (probe : nat -> bool) (i attempts : nat) : bool :=
  match attempts with
  | O => false
  | S attempts' => if probe i then true else poll_until probe (S i) attempts'
  end.
Definition GUI_DAEMON_READY_ATTEMPTS : nat := 40.

(** [mac_untar] is what [tar] leaves in the staging folder of the bytes it reads: the
    entries with their trees, or a failure. *)
Record MacSys := mkMac {
  mac_exe : option OsString;
  mac_read : nat -> OsString -> option (list N);
  mac_exists : OsString -> bool;
  mac_writable : bool;
  mac_create_dir : bool;
  mac_same_volume : bool;
  mac_untar : list N -> option (list (OsString * N));
  mac_rename : nat -> bool;
  mac_suffix : str;
  mac_remove : bool;               (* [remove_dir_all] *)
  mac_open : bool;                 (* [open -b dev.orcker.gui] *)
  mac_ping : nat -> bool;          (* the n-th probe of the daemon's socket *)
}.

Inductive MacMessage := MmExe | MmNotBundle | MmNotInApplications | MmNoParent | MmNotWritable | MmStaging | MmVolume | MmTar | MmNoApp | MmSwap.

Definition nth_parent (k : nat) (p : OsString) : option OsString := Nat.iter k (fun o => o ≫= path_parent) (Some p).

Definition mac_restart_daemon (ms : MacSys) : list AAct :=
  match mac_exe ms ≫= path_parent with
  | Some dir => if mac_exists ms (path_join dir "orckerd"%str) then [RestartedDaemon] else []
  | None => []
  end.
Definition mac_stop_daemon (ms : MacSys) : list AAct := match mac_restart_daemon ms with [] => [] | _ => [StoppedDaemon] end.
Definition mac_relaunch (ms : MacSys) : list AAct := if mac_open ms then [RelaunchedGui] else [].

Definition finish_gui_owned_update (ms : MacSys) : list AAct :=
  mac_relaunch ms ++ (if mac_open ms && poll_until (mac_ping ms) 0 GUI_DAEMON_READY_ATTEMPTS then [] else mac_restart_daemon ms).

(** The entries [tar] leaves, in the staging folder. *)
Definition extract (ms : MacSys) (stage staged : OsString) (t : Trees) : option (list OsString * Trees) :=
  bytes ← mac_read ms 2%nat staged; entries ← mac_untar ms bytes;
  Some ((fun e => path_join stage e.1) <$> entries, foldl (fun t e => <[path_join stage e.1 := e.2]> t) t entries).

(** [remove_dir_all] of a folder of trees. *)
Definition remove_below (dir : OsString) (t : Trees) : Trees := filter (fun e => path_starts_with e.1 dir = false) t.

Definition swap_staged (ms : MacSys) (bundle backup stage staged : OsString) (t : Trees) : result MacMessage unit * list AAct * Trees :=
  if negb (mac_same_volume ms) then (Err MmVolume, [], t)
  else
    match extract ms stage staged t with
    | None => (Err MmTar, [], t)
    | Some (entries, t) =>
        match find_single_dot_app (Some entries) with
        | None => (Err MmNoApp, [], t)
        | Some new_app =>
            let '(ok, t) := swap_bundle (mac_rename ms) bundle new_app backup t in
            if ok : bool then (Ok tt, mac_stop_daemon ms, if mac_remove ms then delete backup t else t)
            else (Err MmSwap, mac_stop_daemon ms ++ mac_restart_daemon ms, t)
        end
    end.

Definition apply_macos (ms : MacSys) (staged : OsString) (relaunch_gui gui_owns_daemon : bool) (t : Trees)
    : result MacMessage unit * list AAct * Trees :=
  match mac_exe ms with
  | None => (Err MmExe, [], t)
  | Some exe =>
      match nth_parent 3 exe with
      | None => (Err MmNotBundle, [], t)
      | Some bundle =>
          if negb (is_app bundle) then (Err MmNotBundle, [], t)
          else if negb (path_starts_with bundle "/Applications/"%str) then (Err MmNotInApplications, [], t)
          else
            match path_parent bundle with
            | None => (Err MmNoParent, [], t)
            | Some parent =>
                if negb (mac_writable ms) then (Err MmNotWritable, [], t)
                else if negb (mac_create_dir ms) then (Err MmStaging, [], t)
                else
                  let stage := path_join parent (os (".orcker-staging-"%str ++ mac_suffix ms)) in
                  let backup := path_join parent (os (".orcker-backup-"%str ++ mac_suffix ms ++ ".app"%str)) in
                  let '(r, acts, t) := swap_staged ms bundle backup stage staged t in
                  let t := if mac_remove ms then remove_below stage t else t in
                  match r with
                  | Ok _ => (Ok tt, acts ++ (if gui_owns_daemon then finish_gui_owned_update ms
                                             else mac_restart_daemon ms ++ (if relaunch_gui then mac_relaunch ms else [])), t)
                  | Err e => (Err e, acts, t)
                  end
            end
      end
  end.

(** [run] on macOS. *)
Definition run_macos (ms : MacSys) (staged : OsString) (relaunch_gui gui_owns_daemon : bool) (t : Trees) : ExitCode * list AAct * Trees :=
  let sys := mkASys false (mac_read ms) (mac_exe ms) (mac_exists ms) [] [] true None (fun _ => None) true in
  match reverify sys staged with
  | Err _ => (1, [], t)
  | Ok _ =>
      let '(r, acts, t) := apply_macos ms staged relaunch_gui gui_owns_daemon t in
      match r with
      | Ok _ => (0, acts, t)
      | Err _ => (1, acts ++ (if relaunch_gui then mac_relaunch ms else []), t)
      end
  end.
End Apply.

(** ** Root installs only what was signed *)

Section ApplyFacts.
Context `{CR : Crypto}.

Definition managers : list (str * list OsString * str) :=
  [("dpkg"%str, [os "-i"%str], "update.deb"%str); ("pacman"%str, [os "-U"%str; os "--noconfirm"%str], "update.pkg.tar.zst"%str);
   ("rpm"%str, [os "-U"%str; os "--oldpackage"%str; os "--replacepkgs"%str], "update.rpm"%str)].

(** Whatever is run as root is a package manager on one file, in a folder made for it
    alone, to which nothing but the bytes of a valid signature was written. *)
Definition signed_run (acts : list AAct) (program : str) (args : list OsString) : Prop :=
  exists options file dir bytes sig, (program, options, file) ∈ managers /\ args = options ++ [path_join dir (os file)] /\
    MadePrivateDir dir ∈ acts /\ WroteFile (path_join dir (os file)) bytes ∈ acts /\
    (forall p b, WroteFile p b ∈ acts -> p = path_join dir (os file) /\ b = bytes) /\
    valid_signature UPDATE_PUBLIC_KEY sig bytes.

Record root_acts (acts : list AAct) : Prop := {
  ra_runs program args : RanAsRoot program args ∈ acts -> signed_run acts program args;
  ra_writes p b : WroteFile p b ∈ acts -> exists bytes sig n, b = take n bytes /\ valid_signature UPDATE_PUBLIC_KEY sig bytes;
}.

Definition inert (a : AAct) : bool :=
  match a with RestartedDaemon | StoppedDaemon | RelaunchedGui | RemovedAll _ => true | _ => false end.

Lemma root_acts_nil : root_acts [].
Proof. split; intros *; by intros ?%elem_of_nil. Qed.

Lemma inert_elem a rest x : Forall (fun a => inert a = true) rest -> inert x = false -> x ∈ a ++ rest -> x ∈ a.
Proof. intros Hr Hx [?|H]%elem_of_app; [done|]. rewrite Forall_forall in Hr. apply Hr in H. congruence. Qed.

Lemma root_acts_app a rest : root_acts a -> Forall (fun a => inert a = true) rest -> root_acts (a ++ rest).
Proof.
  intros [H1 H2] Hr. split.
  - intros program args H%(inert_elem _ _ _ Hr); [|done]. destruct (H1 _ _ H) as (options & file & dir & bytes & sig & ? & ? & ? & ? & Hw & ?).
    exists options, file, dir, bytes, sig. rewrite !elem_of_app. repeat (split; [by auto|]). split; [|done].
    intros p b Hp%(inert_elem _ _ _ Hr); [|done]. by apply Hw.
  - intros p b H%(inert_elem _ _ _ Hr); [|done]. by eapply H2.
Qed.

Lemma read_verified_signed sys n staged key bytes : read_verified sys n staged key = Ok bytes -> exists sig, valid_signature key sig bytes.
Proof.
  unfold read_verified. intros (b & _ & H)%bind_ok. apply bind_ok in H as (sig & _ & H). apply bind_ok in H as ([] & Hv & [= <-]).
  exists sig. apply verify_minisign_ok. by destruct (verify_minisign key sig b) as [[]|].
Qed.

Lemma elevated_install_spec file program options detail sys n staged r acts :
  (program, options, file) ∈ managers ->
  elevated_install file program options detail sys n staged = (r, acts) ->
  root_acts acts /\ (r = Ok tt -> exists args, RanAsRoot program args ∈ acts).
Proof.
  intros Hm. unfold elevated_install. destruct (a_root sys); cbn [negb]; [|intros [= <- <-]; split; [apply root_acts_nil|done]].
  destruct (read_verified sys n staged UPDATE_PUBLIC_KEY) as [bytes|e] eqn:Ev; [|intros [= <- <-]; split; [apply root_acts_nil|done]].
  apply read_verified_signed in Ev as (sig & Hv).
  destruct (a_private_dir sys); cbn [negb]; [|intros [= <- <-]; split; [apply root_acts_nil|done]].
  set (dir := path_join (a_temp_dir sys) _). set (pkg := path_join dir (os file)).
  destruct (a_write sys) as [k|].
  { intros [= <- <-]. split; [|done]. split.
    - intros p args H. apply list_elem_of_In in H. cbn in H. intuition discriminate.
    - intros p b H. apply list_elem_of_In in H. cbn in H. destruct H as [H|[[= <- <-]|[H|[]]]]; try discriminate H. by exists bytes, sig, k. }
  destruct (a_run sys program) as [out|].
  - intros [= <- <-]. split; [|intros _; eexists; apply list_elem_of_In; cbn; eauto]. split.
    + intros p args H. apply list_elem_of_In in H. cbn in H. destruct H as [H|[H|[[= <- <-]|[H|[]]]]]; try discriminate H.
      exists options, file, dir, bytes, sig. split; [done|]. split; [done|]. rewrite !list_elem_of_In. cbn. split; [auto|]. split; [auto|].
      split; [|done]. intros p b H. apply list_elem_of_In in H. cbn in H. destruct H as [H|[[= <- <-]|[H|[H|[]]]]]; try discriminate H. done.
    + intros p b H. apply list_elem_of_In in H. cbn in H. destruct H as [H|[[= <- <-]|[H|[H|[]]]]]; try discriminate H.
      exists bytes, sig, (length bytes). by rewrite take_ge.
  - intros [= <- <-]. split; [|done]. split.
    + intros p args H. apply list_elem_of_In in H. cbn in H. intuition discriminate.
    + intros p b H. apply list_elem_of_In in H. cbn in H. destruct H as [H|[[= <- <-]|[H|[]]]]; try discriminate H.
      exists bytes, sig, (length bytes). by rewrite take_ge.
Qed.

(** The three installers. *)
Definition installer (install : ASys -> nat -> OsString -> result AMessage unit * list AAct) : Prop :=
  forall sys n staged, root_acts (install sys n staged).2 /\ ((install sys n staged).1 = Ok tt -> exists p args, RanAsRoot p args ∈ (install sys n staged).2).

Lemma elevated_installer file program options detail : (program, options, file) ∈ managers -> installer (elevated_install file program options detail).
Proof.
  intros Hm sys n staged. destruct (elevated_install _ _ _ _ _ _ _) as [r acts] eqn:E. eapply elevated_install_spec in E as (H & Hr); [|exact Hm].
  split; [done|]. intros Hok. destruct (Hr Hok) as (args & ?). by exists program, args.
Qed.
Lemma deb_installer : installer elevated_install_deb.
Proof. apply elevated_installer. by left. Qed.
Lemma pacman_installer : installer elevated_install_pacman.
Proof. apply elevated_installer. right. by left. Qed.
Lemma rpm_installer : installer elevated_install_rpm.
Proof. apply elevated_installer. right. right. by left. Qed.

Definition good_end (code : N) (acts : list AAct) : Prop := root_acts acts /\ (code = 0 -> exists p args, RanAsRoot p args ∈ acts).

Lemma install_from_args_good arg install sys args code acts : installer install ->
  run_install_from_args arg install sys args = Some (code, acts) -> good_end code acts.
Proof.
  intros Hi. unfold run_install_from_args. destruct args as [|a rest]; [done|]. destruct (negb _); [done|].
  destruct rest as [|path rest]; [intros [= <- <-]; split; [apply root_acts_nil|done]|]. intros [= <- <-].
  destruct (Hi sys 0%nat path) as [H1 H2]. split; [done|]. cbn. destruct (install sys 0%nat path) as [[[]|e] acts]; cbn in *; [auto|done].
Qed.

Lemma main_install_good sys args code acts : main_install sys args = Some (code, acts) -> good_end code acts.
Proof.
  unfold main_install. destruct (run_install_deb_from_args sys args) as [[c a]|] eqn:E1.
  { intros [= <- <-]. eapply install_from_args_good; [apply deb_installer|exact E1]. }
  destruct (run_install_pacman_from_args sys args) as [[c a]|] eqn:E2.
  { intros [= <- <-]. eapply install_from_args_good; [apply pacman_installer|exact E2]. }
  intros E3. eapply install_from_args_good; [apply rpm_installer|exact E3].
Qed.

Lemma restart_inert sys relaunch : Forall (fun a => inert a = true) (restart_services sys relaunch).
Proof.
  unfold restart_services, restart_daemon, relaunch_gui_app. apply Forall_app. split; [destruct (sibling_orckerd sys); by repeat constructor|].
  destruct relaunch; [|constructor]. destruct (sibling_gui sys); [destruct (a_spawn_gui sys)|]; by repeat constructor.
Qed.

Lemma apply_elevated_good arg install sys pk staged relaunch r acts : installer install ->
  apply_elevated arg install sys pk staged relaunch = (r, acts) -> root_acts acts /\ (r = Ok tt -> exists p args, RanAsRoot p args ∈ acts).
Proof.
  intros Hi. unfold apply_elevated. destruct (a_root sys).
  { intros E. destruct (Hi sys 2%nat staged) as [H1 H2]. rewrite E in H1, H2. done. }
  destruct (a_exe sys); [|intros [= <- <-]; split; [apply root_acts_nil|done]].
  destruct pk as [| |child]; cbn [pkexec_install]; [intros [= <- <-]; split; [apply root_acts_nil|done]..|].
  destruct (main_install child _) as [[code a]|] eqn:E; [|intros [= <- <-]; split; [apply root_acts_nil|done]].
  apply main_install_good in E as [Ha Hc]. destruct (code =? 0) eqn:Ec; cbn [negb]; intros [= <- <-].
  - split; [apply root_acts_app; [done|apply restart_inert]|]. intros _. apply N.eqb_eq in Ec. destruct (Hc Ec) as (p & args & H).
    exists p, args. apply elem_of_app. by left.
  - by split.
Qed.

(** C24. Root installs only what was signed: however the staged files change while the
    update is applied, and with whatever arguments the privileged entry points are
    called, the only programs run as root are the package managers, each on one file of
    a private folder, and every byte written there was read together with a signature
    of it by the built-in key.  A success is reported only when the package manager
    was run. *)
Theorem root_installs_signed sys pk staged kind relaunch child args :
  good_end (run sys pk staged kind relaunch).1 (run sys pk staged kind relaunch).2 /\
  (forall code acts, main_install child args = Some (code, acts) -> good_end code acts) /\
  (forall var code acts, run_from_env var sys pk = Some (code, acts) -> code = 0 -> exists p args, RanAsRoot p args ∈ acts) /\
  (forall bytes, read_verified sys 0 staged UPDATE_PUBLIC_KEY = Ok bytes -> exists sig, valid_signature UPDATE_PUBLIC_KEY sig bytes).
Proof.
  assert (forall staged kind relaunch, good_end (run sys pk staged kind relaunch).1 (run sys pk staged kind relaunch).2) as Hrun.
  { clear. intros staged kind relaunch. unfold run. destruct (reverify sys staged); [|split; [apply root_acts_nil|done]].
    set (res := match kind with SAppTarGz => _ | _ => _ end). destruct res as [r acts] eqn:E.
    assert (root_acts acts /\ (r = Ok tt -> exists p args, RanAsRoot p args ∈ acts)) as [H1 H2].
    { unfold res in E. destruct kind.
      - injection E as <- <-. split; [apply root_acts_nil|done].
      - eapply apply_elevated_good; [apply deb_installer|exact E].
      - eapply apply_elevated_good; [apply pacman_installer|exact E].
      - eapply apply_elevated_good; [apply rpm_installer|exact E]. }
    destruct r as [[]|e]; cbn [fst snd]; [split; auto|]. split; [|done].
    apply root_acts_app; [done|]. destruct relaunch; [|constructor]. unfold relaunch_gui_app.
    destruct (sibling_gui sys); [destruct (a_spawn_gui sys)|]; by repeat constructor. }
  split; [done|]. split; [intros code acts; apply main_install_good|]. split; [|intros bytes; apply read_verified_signed].
  intros var code acts. unfold run_from_env. destruct (var APPLY_ENV); [|done]. destruct (var APPLY_PATH_ENV) as [path|]; [|by intros [= <- <-]].
  destruct (var APPLY_KIND_ENV ≫= artifact_kind_of) as [k|]; [|by intros [= <- <-]]. intros [= E] H0.
  destruct (Hrun path k (bool_decide (var APPLY_RELAUNCH_GUI_ENV = Some (os "1"%str)))) as [_ Hc]. rewrite E in Hc. auto.
Qed.
End ApplyFacts.

(** ** What is staged applies *)

Lemma head_os c s : c < 128 -> head (os s) = Some c <-> head s = Some c.
Proof.
  intros Hc. unfold os. destruct s as [|d s]; [done|]. rewrite as_bytes_cons. unfold utf8_char. cbn [head].
  destruct (d <? 128) eqn:E1; [done|]. bprop.
  destruct (d <? 2048); [|destruct (d <? 65536)]; cbn; split; intros [= E]; exfalso;
    try (subst d; lia); match type of E with ?a + ?x = _ => pose proof (N.le_0_l x); lia end.
Qed.

Lemma starts_slash s : starts_with "/" s = true <-> head s = Some slash.
Proof. rewrite starts_with_spec. split; [by intros (r & ->)|]. destruct s as [|c s]; [done|]. cbn. intros [= ->]. by exists s. Qed.
Lemma ends_slash s : ends_with "/" s = true <-> last s = Some slash.
Proof. rewrite ends_with_spec, last_Some. done. Qed.

Lemma last_os_iff s c : c < 128 -> last (os s) = Some c <-> last s = Some c.
Proof.
  intros Hc. split; [|intros; by apply last_os]. destruct (last s) as [d|] eqn:E.
  - intros H. apply last_Some in E as (s' & ->). unfold os in H. rewrite as_bytes_app in H. cbn in H. rewrite app_nil_r in H.
    f_equal. symmetry. rewrite last_app in H. destruct (last (utf8_char d)) as [x|] eqn:Ex.
    + injection H as ->. apply utf8_char_high; [|done]. apply last_Some in Ex as (l & ->). apply elem_of_app. right. by left.
    + exfalso. apply last_None in Ex. unfold utf8_char in Ex. by repeat case_match.
  - apply last_None in E as ->. done.
Qed.

(** Joining texts is joining their bytes. *)
Lemma os_join a b : path_join (os a) (os b) = os (path_join a b).
Proof.
  unfold path_join, is_absolute.
  assert (starts_with "/" (os b) = starts_with "/" b) as -> by (apply eq_true_iff_eq; rewrite !starts_slash; by apply head_os).
  assert (ends_with "/" (os a) = ends_with "/" a) as -> by (apply eq_true_iff_eq; rewrite !ends_slash; by apply last_os_iff).
  assert (is_empty (os a) = is_empty a) as ->.
  { destruct a as [|c a]; [done|]. unfold os. rewrite as_bytes_cons. unfold utf8_char. by repeat case_match. }
  destruct (starts_with "/" b); [done|]. destruct (_ || _); unfold os; by rewrite !as_bytes_app.
Qed.

(** The entry of a folder: its name, its folder and its neighbours. *)
Definition entry_name (name : OsString) : Prop := slash ∉ name /\ blank_segment name = false /\ name <> ".."%str.
Definition folder (dir : OsString) : Prop := exists d w, dir = d ++ "/"%str ++ w /\ slash ∉ w /\ blank_segment w = false.

Lemma split_folder dir : folder dir -> exists segs w, split_char slash dir = segs ++ [w] /\ segs <> [] /\ blank_segment w = false.
Proof.
  intros (d & w & -> & Hn & Hb). exists (split_char slash d), w. change ("/"%str ++ w) with (slash :: w).
  rewrite split_char_app_all, (split_char_none slash w) by done. split; [done|]. split; [apply split_char_ne|done].
Qed.

Lemma folder_join dir name : folder dir -> slash ∉ name -> path_join dir name = dir ++ slash :: name.
Proof.
  intros (d & w & -> & Hn & Hb) Hs. unfold path_join. rewrite no_slash_relative by done.
  destruct (is_empty _) eqn:E1; [by destruct d|]. destruct (ends_with _ _) eqn:E2; [|done]. exfalso. apply ends_slash in E2.
  destruct w as [|c w _] using rev_ind; [done|]. rewrite !app_assoc, last_snoc in E2. injection E2 as ->.
  apply Hn, elem_of_app. right. by left.
Qed.

Lemma entry_file_name dir name : folder dir -> entry_name name -> file_name (path_join dir name) = Some name.
Proof.
  intros Hd (Hs & Hb & Hp). rewrite folder_join by done. unfold file_name, components.
  rewrite split_char_app_all, (split_char_none slash name) by done. rewrite omap_app, app_assoc, last_app. cbn.
  unfold segment_component. unfold blank_segment in Hb. rewrite Hb. unfold str_eqb. by rewrite bool_decide_false.
Qed.

Lemma entry_parent dir name : folder dir -> entry_name name -> path_parent (path_join dir name) = Some dir.
Proof.
  intros Hd (Hs & Hb & _). rewrite folder_join by done. pose proof (join_split slash dir) as Hj.
  destruct (split_folder dir Hd) as (segs & w & E & Hne & Hw). unfold path_parent.
  rewrite split_char_app_all, (split_char_none slash name), E by done. rewrite E in Hj.
  destruct segs as [|s0 segs]; [done|]. cbn [app]. rewrite !rev_app_distr. cbn [rev app drop_while]. rewrite Hb. cbn [drop_while]. rewrite Hw.
  change (w :: rev segs) with (rev [w] ++ rev segs). rewrite <- rev_app_distr, rev_involutive. cbn [app] in Hj. rewrite Hj.
  destruct (is_empty s0); [|done]. cbn. by destruct segs.
Qed.

Lemma sibling_entry dir name : folder dir -> entry_name name -> sibling_minisig (path_join dir name) = path_join dir (name ++ ".minisig"%str).
Proof. intros Hd Hn. unfold sibling_minisig, with_file_name. by rewrite entry_file_name, entry_parent. Qed.

Lemma safe_entry name c : slash ∉ os name -> last name = Some c -> artifact_end c = true -> entry_name (os name) /\ entry_name (os (name ++ ".minisig"%str)).
Proof.
  intros Hs Hl He. pose proof (artifact_end_plain c He) as (H1 & H2 & H3 & _). pose proof (last_os name c Hl H1) as Hlo. split.
  - split; [done|]. unfold blank_segment, str_eqb. destruct (os name) as [|x l] eqn:E; [done|].
    split; [|intros F; rewrite F in Hlo; cbn in Hlo; congruence]. rewrite (bool_decide_false (x :: l = ""%str)) by done.
    rewrite bool_decide_false; [done|]. intros F. rewrite F in Hlo. cbn in Hlo. congruence.
  - assert (last (os (name ++ ".minisig"%str)) = Some "g"%ch) as Hg by (apply last_os; [by rewrite last_app|done]). split.
    + unfold os. rewrite as_bytes_app, elem_of_app. intros [?|Hin]; [done|]. apply list_elem_of_In in Hin. revert Hin. vm_compute. intuition discriminate.
    + unfold blank_segment, str_eqb. split; [|intros F; by rewrite F in Hg].
      rewrite bool_decide_false by (intros F; by rewrite F in Hg). rewrite bool_decide_false; [done|]. intros F. by rewrite F in Hg.
Qed.

Lemma staging_folder build d : b_cache_dir build = os d -> d <> [] -> folder (staging_dir build).
Proof.
  intros E Hd. unfold staging_dir. rewrite E. unfold path_join. cbn [is_absolute]. change (is_absolute "update"%str) with false. cbn match.
  destruct (is_empty (os d)) eqn:Ee.
  { exfalso. destruct d as [|c d]; [done|]. revert Ee. unfold os. rewrite as_bytes_cons. unfold utf8_char. by repeat case_match. }
  cbn [orb]. destruct (ends_with "/" (os d)) eqn:Es.
  - apply ends_with_spec in Es as (a & ->). exists a, "update"%str. rewrite <- app_assoc. split; [done|]. split; [|done].
    intros H. apply list_elem_of_In in H. revert H. vm_compute. intuition discriminate.
  - exists (os d), "update"%str. split; [done|]. split; [|done]. intros H. apply list_elem_of_In in H. revert H. vm_compute. intuition discriminate.
Qed.

Lemma join_scalar a b : Forall (fun c => is_scalar c = true) a -> Forall (fun c => is_scalar c = true) b -> Forall (fun c => is_scalar c = true) (path_join a b).
Proof. intros Ha Hb. unfold path_join. destruct (is_absolute b); [done|]. destruct (_ || _); rewrite !Forall_app; auto 10. Qed.

Section Handover.
Context `{SV : Semver} `{CR : Crypto} `{UJ : UpdateJson} (build : Build).

(** C27. What the daemon stages, the applier accepts: the path in the reply names the
    staged artifact, its signature is found beside it, and as long as the files are
    left alone every verification of the applier, in either process, reads exactly the
    bytes that were staged and succeeds. *)
Theorem staged_applies running e ov s s' path version k d sys :
  stage_update build running e ov UPDATE_PUBLIC_KEY s = (Staged path version k, s') ->
  b_cache_dir build = os d -> d <> [] -> Forall (fun c => is_scalar c = true) d ->
  (forall m r a, published UPDATE_PUBLIC_KEY m -> r ∈ manifest_to_releases m -> a ∈ rm_assets r -> Forall (fun c => is_scalar c = true) (asset_name a)) ->
  (forall n p, a_read sys n p = us_files s' !! p) ->
  exists art, us_files s' !! os path = Some art /\ (forall n, read_verified sys n (os path) UPDATE_PUBLIC_KEY = Ok art) /\ reverify sys (os path) = Ok tt.
Proof.
  intros Hst Hc Hd Hds Hnames Hread.
  apply stage_update_spec in Hst as [[_ (m & ?)]|(m & sel & ver & art & sig & V & Hf)]; [done|].
  apply stage_files_spec in Hf as (_ & _ & _ & _ & _ & Hr). destruct (Hr path version k eq_refl) as (-> & _ & _ & Ha & Hs).
  destruct V as [Vm Vt Vn Vr Vd Vs (bs & _ & ->) Vsum (Vslash & c & Vl & Ve)]. specialize (Ha Vslash).
  assert (Forall (fun c => is_scalar c = true) (asset_name (artifact sel))) as Hname.
  { destruct Vr as (r & Hr' & _ & Hsel). apply (Hnames m r (artifact sel) Vm Hr'). revert Hsel. unfold select_asset.
    destruct (artifact_matcher _ _) as [[kd p]|]; [|done]. intros (a & Ha' & H)%bind_ok. apply bind_ok in H as (sg & _ & H).
    apply bind_ok in H as (sums & _ & [= <-]). cbn. unfold find_asset in Ha'. destruct (find_first _ _) as [a'|] eqn:E; [|done].
    injection Ha' as ->. by apply find_first_elem in E as [? _]. }
  assert (os (from_utf8_lossy (artifact_path build sel)) = artifact_path build sel) as ->.
  { unfold artifact_path, staging_dir. rewrite Hc. change "update"%str with (os "update"%str). rewrite !os_join.
    unfold os. rewrite from_utf8_lossy_as_bytes; [done|]. apply join_scalar; [|done]. apply join_scalar; [done|].
    repeat (constructor; [reflexivity|]). constructor. }
  destruct (safe_entry _ c Vslash Vl Ve) as [N1 N2]. pose proof (staging_folder build d Hc Hd) as Hfold.
  assert (sibling_minisig (artifact_path build sel) = signature_path build sel) as Hsib.
  { unfold artifact_path, signature_path. rewrite sibling_entry by done. unfold os. by rewrite as_bytes_app. }
  assert (forall n, read_verified sys n (artifact_path build sel) UPDATE_PUBLIC_KEY = Ok art) as Hv.
  { intros n. unfold read_verified, read_to_string. rewrite Hsib, !Hread, Ha, Hs. cbn.
    rewrite from_utf8_as_bytes by apply lossy_scalar. cbn. apply verify_minisign_ok in Vs. by rewrite Vs. }
  exists art. split; [done|]. split; [done|]. unfold reverify, reverify_with_key. by rewrite Hv.
Qed.
End Handover.

(** ** The bundle is never lost *)

Lemma swap_bundle_safe ok target new_app backup t old new r t' :
  target <> new_app -> target <> backup -> new_app <> backup -> t !! target = Some old -> t !! new_app = Some new ->
  swap_bundle ok target new_app backup t = (r, t') ->
  (r = true /\ t' !! target = Some new /\ t' !! backup = Some old) \/
  (r = false /\ t' !! target = Some old) \/
  (r = false /\ ok 1%nat = false /\ ok 2%nat = false /\ t' !! backup = Some old).
Proof.
  intros H1 H2 H3 Ht Hn. unfold swap_bundle, rename. rewrite Ht. destruct (ok 0%nat); cbn [negb]; [|intros [= <- <-]; auto].
  rewrite lookup_insert_ne, lookup_delete_ne, Hn by done. destruct (ok 1%nat) eqn:E1.
  - intros [= <- <-]. left. rewrite lookup_insert_eq, lookup_insert_ne, lookup_delete_ne, lookup_insert_eq by done. done.
  - rewrite lookup_insert_eq. destruct (ok 2%nat) eqn:E2; cbn [snd]; intros [= <- <-].
    + right. left. by rewrite lookup_insert_eq.
    + right. right. by rewrite lookup_insert_eq.
Qed.

(** *** A run *)

Definition demo_machine (files : Files) : ASys :=
  mkASys false (fun _ p => files !! p) (Some "/usr/bin/orcker"%str) (fun _ => true) "/tmp"%str "1"%str true None (fun _ => Some (mkExit true [] [])) true.

Definition key_web (u : str) : option (list N) :=
  if str_eqb u LATEST_MANIFEST_SIG_URL then Some (os ("sig "%str ++ UPDATE_PUBLIC_KEY ++ "2"%str))
  else if str_eqb u "u:sig" then Some (os ("sig "%str ++ UPDATE_PUBLIC_KEY ++ "3"%str))
  else demo_web u.
Definition key_env : UEnv := mkUEnv 7 key_web (fun _ => true) (fun _ => None).
Definition key_staged := stage_update demo_build demo_running key_env None UPDATE_PUBLIC_KEY demo_start.

Definition all_names_scalar : bool :=
  forallb (fun r : ReleaseMeta => forallb (fun a => forallb is_scalar (asset_name a)) (rm_assets r)) (manifest_to_releases demo_latest).

Lemma demo_names m r a : published UPDATE_PUBLIC_KEY m -> r ∈ manifest_to_releases m -> a ∈ rm_assets r -> Forall (fun c => is_scalar c = true) (asset_name a).
Proof.
  intros (body & sig & _ & H). assert (m = demo_latest) as -> by (cbn in H; case_bool_decide; congruence).
  assert (all_names_scalar = true) as E by by vm_compute. unfold all_names_scalar in E. intros Hr Ha.
  rewrite forallb_forall in E. apply list_elem_of_In, E in Hr. rewrite forallb_forall in Hr. apply list_elem_of_In, Hr in Ha.
  rewrite forallb_forall in Ha. apply Forall_forall. intros c Hc%list_elem_of_In. by apply Ha.
Qed.

Lemma staged_applies_witness :
  let path := ("/cache/update/"%str ++ deb_name) in
  key_staged.1 = Staged path "1.1.0"%str SDeb /\ reverify (demo_machine (us_files key_staged.2)) (os path) = Ok tt.
Proof.
  intros path. split; [by vm_compute|].
  destruct (@staged_applies demo_semver demo_crypto demo_json demo_build demo_running key_env None demo_start
    key_staged.2 path "1.1.0"%str SDeb "/cache"%str (demo_machine (us_files key_staged.2))) as (art & _ & _ & H).
  - by vm_compute.
  - by vm_compute.
  - done.
  - repeat (constructor; [reflexivity|]). constructor.
  - apply demo_names.
  - done.
  - exact H.
Defined.

(** On macOS the archive is read again after its verification: a file that changes in
    between is installed unverified. *)
Definition swapped_reads (n : nat) (p : OsString) : option (list N) :=
  if bool_decide (p = "/c/a.gz"%str) then Some (if Nat.ltb n 2 then [1; 2; 3] else [66; 66])
  else if bool_decide (p = "/c/a.gz.minisig"%str) then Some (os ("sig "%str ++ UPDATE_PUBLIC_KEY ++ "3"%str)) else None.
Definition demo_mac : MacSys :=
  mkMac (Some "/Applications/Orcker.app/Contents/MacOS/orcker"%str) swapped_reads (fun _ => true) true true true
    (fun bytes => Some [("Orcker.app"%str, vlen bytes)]) (fun _ => true) "7"%str true true (fun _ => true).

Lemma changed_archive_installed :
  let '(code, acts, t) := run_macos demo_mac "/c/a.gz"%str false false {["/Applications/Orcker.app"%str := 100]} in
  code = 0 /\ t !! ("/Applications/Orcker.app"%str : OsString) = Some 2 /\
  verify_minisign UPDATE_PUBLIC_KEY ("sig "%str ++ UPDATE_PUBLIC_KEY ++ "3"%str) [66; 66] = Err SignatureMismatch.
Proof. by vm_compute. Qed.

(** Run as root, the applier reports a restart it does not make. *)
Definition root_machine : ASys :=
  mkASys true (fun _ p => if bool_decide (p = "/c/a.deb"%str) then Some [1; 2; 3] else Some (os ("sig "%str ++ UPDATE_PUBLIC_KEY ++ "3"%str)))
    (Some "/usr/bin/orcker"%str) (fun _ => true) "/tmp"%str "1"%str true None (fun _ => Some (mkExit true [] [])) true.

Lemma root_run_restarts_nothing :
  let '(code, acts) := run root_machine PkNotFound "/c/a.deb"%str SDeb true in
  code = 0 /\ Forall (fun a => a <> RestartedDaemon /\ a <> RelaunchedGui) acts.
Proof. vm_compute. split; [done|]. repeat constructor; done. Qed.
