(* ===== verification/Dns.v ===== *)
(** * The DNS responder

    [src/crates/orcker-dns]: the classification of a query ([responder.rs]), the answer
    on the wire with its source filter and split horizon, and the binding of the socket
    pair ([server.rs]).  Query names arrive as the text hickory prints them as. *)

From S2P Require Import Prelude RustStr RustMap RustText RustPath Utf8 CoreError DnsLabel Tld Domain Host Php Net Site Proxy Router Project Settings Config Migrate Wire Serialize SiteDomains Ipc Mutate Link Scan Daemon LanSetup DaemonInv DaemonClaims Restart Gateway.

Open Scope N_scope.

(** ** [answer.rs], [responder.rs] *)

Inductive Answer := Loopback4 | Loopback6 | NoData | NxDomain | Refused.
#[export] Instance Answer_eq_dec : EqDecision Answer.
Proof. solve_decision. Defined.
Inductive QClass := QA | QAaaa | QOther.

Definition ANSWER_TTL_SECS : N := 60.
Definition RETRY_BUDGET : nat := 5.

Definition dot : N := "."%ch.

(** [bytes.windows(2).any(|w| w == b"..")] *)
Fixpoint dot_dot (b : list N) : bool :=
  match b with
  | x :: rest => match rest with y :: _ => ((x =? dot) && (y =? dot)) || dot_dot rest | [] => false end
  | [] => false
  end.

Definition responder_answer (tld : Tld) (name : str) (qtype : QClass) : Answer :=
  let bytes := as_bytes name in
  let bytes := default bytes (strip_suffix "." bytes) in
  let tld_bytes := as_bytes (Tld_str tld) in
  let is_apex := (vlen bytes =? vlen tld_bytes) && eq_ignore_ascii_case bytes tld_bytes in
  let at_ := (length bytes - length tld_bytes)%nat in
  let ends_in_dot_tld := (vlen tld_bytes <? vlen bytes) && bool_decide (bytes !! (at_ - 1)%nat = Some dot)
                         && eq_ignore_ascii_case (drop at_ bytes) tld_bytes in
  if negb is_apex && negb ends_in_dot_tld then Refused
  else if is_apex then NoData
  else if bool_decide (head bytes = Some dot) then NxDomain
  else if dot_dot bytes then NxDomain
  else match qtype with QA => Loopback4 | QAaaa => Loopback6 | QOther => NoData end.

(** ** [server.rs] *)

Record AnswerAddrs := mkAddrs { loopback_v4 : Ipv4Addr; lan_v4 : option Ipv4Addr; lan_mode : bool }.
Definition LOCALHOST4 : Ipv4Addr := mkV4 127 0 0 1.
Definition LOCALHOST6 : Ipv6Addr := mkV6 [0; 0; 0; 0; 0; 0; 0; 1].
Definition addrs_loopback : AnswerAddrs := mkAddrs LOCALHOST4 None false.
Definition addrs_lan (lan : option Ipv4Addr) : AnswerAddrs := mkAddrs LOCALHOST4 lan true.

Definition ip_is_loopback (ip : IpAddr) : bool := match ip with V4 a => v4_is_loopback a | V6 a => v6_is_loopback a end.

Definition a_record_for (a : AnswerAddrs) (src : IpAddr) : option Ipv4Addr :=
  if lan_mode a && negb (ip_is_loopback src) then lan_v4 a else Some (loopback_v4 a).

Inductive RecordType := TypeA | TypeAAAA | TypeOther (code : N).
Inductive RData := RA (ip : Ipv4Addr) | RAaaa (ip : Ipv6Addr).
Inductive ResponseCode := NoError | NXDomain | RefusedCode.
#[export] Instance ResponseCode_eq_dec : EqDecision ResponseCode.
Proof. solve_decision. Defined.

Record DnsReply := mkReply { authoritative : bool; rcode : ResponseCode; answers : list (N * RData) }.

Definition handle_request (tld : Tld) (a : AnswerAddrs) (qtype : RecordType) (raw : str) (src_ip : IpAddr) : DnsReply :=
  let qclass := match qtype with TypeA => QA | TypeAAAA => QAaaa | TypeOther _ => QOther end in
  let name := trim_end_matches (N.eqb dot) raw in
  let decision := if lan_mode a && negb (is_lan_source src_ip) then Refused else responder_answer tld name qclass in
  mkReply (match decision with Refused => false | _ => true end)
    (match decision with Loopback4 | Loopback6 | NoData => NoError | NxDomain => NXDomain | Refused => RefusedCode end)
    (match decision with
     | Loopback4 => match a_record_for a src_ip with Some ip => [(ANSWER_TTL_SECS, RA ip)] | None => [] end
     | Loopback6 => if lan_mode a then [] else [(ANSWER_TTL_SECS, RAaaa LOCALHOST6)]
     | NoData | NxDomain | Refused => []
     end).

(** [startup.rs]: the answers of the responder the daemon starts. *)
Definition dns_answer (lan_enabled : bool) (lan_ip : option Ipv4Addr) : AnswerAddrs :=
  if lan_enabled then addrs_lan lan_ip else addrs_loopback.

(** [Bound::bind]: the k-th attempt binds UDP, which may give a port, then TCP to it. *)
Inductive DnsError :=
| BindUdp
| BindTcp
| PortPairMismatch (udp_port : N) (attempts : nat).

Fixpoint bind_loop (udp : nat -> option N) (tcp : nat -> N -> bool) (ephemeral : bool) (fuel attempt : nat) : option (result DnsError N) :=
  match fuel with
  | O => None
  | S fuel' =>
      let attempt := S attempt in
      match udp attempt with
      | None => Some (Err BindUdp)
      | Some port =>
          if tcp attempt port then Some (Ok port)
          else if negb ephemeral then Some (Err BindTcp)
          else if Nat.leb RETRY_BUDGET attempt then Some (Err (PortPairMismatch port attempt))
          else bind_loop udp tcp ephemeral fuel' attempt
      end
  end.
Definition dns_bind (udp : nat -> option N) (tcp : nat -> N -> bool) (port : N) : option (result DnsError N) :=
  bind_loop udp tcp (port =? 0) RETRY_BUDGET 0.

(** ** What is answered *)

Lemma bind_loop_ends udp tcp e fuel : forall attempt, (fuel + attempt = RETRY_BUDGET)%nat -> fuel <> 0%nat ->
  exists r, bind_loop udp tcp e fuel attempt = Some r.
Proof.
  induction fuel as [|fuel IH]; intros attempt Hf Hne; [done|]. cbn [bind_loop]. destruct (udp (S attempt)) as [port|]; [|eauto].
  destruct (tcp (S attempt) port); [eauto|]. destruct (negb e); [eauto|]. destruct (Nat.leb RETRY_BUDGET (S attempt)) eqn:E; [eauto|].
  apply Nat.leb_gt in E. apply IH; lia.
Qed.

(** Binding ends, after at most five attempts. *)
Lemma dns_bind_ends udp tcp port : exists r, dns_bind udp tcp port = Some r.
Proof. by apply bind_loop_ends. Qed.

Lemma eq_ignore_spec a b : eq_ignore_ascii_case a b = bool_decide (to_ascii_lowercase a = to_ascii_lowercase b).
Proof. done. Qed.

Lemma lower_dot c : lower_char c = dot <-> c = dot.
Proof.
  unfold lower_char, is_ascii_uppercase, in_range. destruct (_ && _) eqn:E; [|done]. bprop.
  change ("A"%ch) with 65 in *. change ("Z"%ch) with 90 in *. unfold dot. change ("."%ch) with 46. lia.
Qed.

Lemma dot_dot_lower b : dot_dot (to_ascii_lowercase b) = dot_dot b.
Proof.
  unfold to_ascii_lowercase. induction b as [|x b IH]; [done|]. cbn [map dot_dot]. destruct b as [|y b]; [done|]. cbn [map] in *. rewrite IH.
  assert (forall c, (lower_char c =? dot) = (c =? dot)) as H.
  { intros c. apply eq_true_iff_eq. rewrite !N.eqb_eq. apply lower_dot. }
  by rewrite !H.
Qed.

Lemma head_lower b : head (to_ascii_lowercase b) = Some dot <-> head b = Some dot.
Proof. destruct b as [|c b]; [done|]. cbn. split; intros [= H]; f_equal; by apply lower_dot. Qed.

(** A name below the suffix: what is before it. *)
Lemma ends_in_tld b t : ((vlen t <? vlen b) && bool_decide (b !! (length b - length t - 1)%nat = Some dot)
    && eq_ignore_ascii_case (drop (length b - length t) b) t = true) <->
  exists sub, to_ascii_lowercase b = sub ++ "."%str ++ to_ascii_lowercase t.
Proof.
  rewrite !andb_true_iff, bool_decide_eq_true, eq_ignore_spec, bool_decide_eq_true. unfold vlen. rewrite N.ltb_lt. split.
  - intros [[Hl Hd] He]. set (k := (length b - length t)%nat) in *. exists (to_ascii_lowercase (take (k - 1) b)). rewrite <- He.
    rewrite <- (take_drop (k - 1) b) at 1. unfold to_ascii_lowercase. rewrite map_app. f_equal.
    rewrite (drop_S b dot (k - 1)) by done. replace (S (k - 1)) with k by lia. done.
  - intros (sub & E). pose proof (f_equal length E) as Hlen. unfold to_ascii_lowercase in Hlen.
    rewrite length_map, !length_app, length_map in Hlen. change (length "."%str) with 1%nat in Hlen.
    replace (length b - length t - 1)%nat with (length sub) by lia. replace (length b - length t)%nat with (length sub + 1)%nat by lia.
    split; [split; [lia|]|].
    + pose proof (f_equal (fun l => l !! length sub) E) as Hn. cbn in Hn. unfold to_ascii_lowercase in Hn.
      rewrite list_lookup_fmap, lookup_app_r, Nat.sub_diag in Hn by lia. cbn in Hn. destruct (b !! length sub) as [c|]; [|done].
      injection Hn as Hc. f_equal. by apply lower_dot.
    + pose proof (f_equal (drop (length sub + 1)) E) as Hn. rewrite app_assoc, drop_app_length' in Hn.
      2: { rewrite length_app. cbn. lia. }
      rewrite <- Hn. unfold to_ascii_lowercase. by rewrite <- skipn_map.
Qed.

(** The name a query asks for, as DNS compares names. *)
Definition query_name (name : str) : list N := to_ascii_lowercase (default (as_bytes name) (strip_suffix "." (as_bytes name))).

Lemma trim_dots s k : (forall a, s <> a ++ "."%str) -> Forall (fun c => c = dot) k -> trim_end_matches (N.eqb dot) (s ++ k) = s.
Proof.
  intros Hs Hk. unfold trim_end_matches. rewrite rev_app_distr. apply Forall_rev in Hk.
  induction Hk as [|c r Hc Hr IH]; cbn [app drop_while].
  - destruct (rev s) as [|c r] eqn:E; [by apply (f_equal (@rev N)) in E; rewrite rev_involutive in E|]. cbn [drop_while].
    destruct (dot =? c) eqn:Ec; [|by rewrite <- E, rev_involutive]. apply N.eqb_eq in Ec as <-.
    exfalso. apply (Hs (rev r)). by rewrite <- (rev_involutive s), E.
  - subst c. rewrite N.eqb_refl. exact IH.
Qed.

(** The answer as a function of that name. *)
Lemma responder_exact tld name q : let n := query_name name in let t := to_ascii_lowercase (as_bytes (Tld_str tld)) in
  responder_answer tld name q =
  if bool_decide (n = t) then NoData
  else match strip_suffix ("."%str ++ t) n with
       | None => Refused
       | Some _ => if bool_decide (head n = Some dot) || dot_dot n then NxDomain
                   else match q with QA => Loopback4 | QAaaa => Loopback6 | QOther => NoData end
       end.
Proof.
  intros n t. unfold responder_answer. set (b := default (as_bytes name) _). set (tb := as_bytes (Tld_str tld)).
  change n with (to_ascii_lowercase b). change t with (to_ascii_lowercase tb). clear n t.
  assert ((vlen b =? vlen tb) && eq_ignore_ascii_case b tb = bool_decide (to_ascii_lowercase b = to_ascii_lowercase tb)) as ->.
  { rewrite eq_ignore_spec. case_bool_decide as E; [|apply andb_false_r]. rewrite andb_true_r. apply N.eqb_eq. unfold vlen.
    apply (f_equal length) in E. unfold to_ascii_lowercase in E. rewrite !length_map in E. lia. }
  case_bool_decide as Ea.
  { cbn [negb andb]. done. }
  cbn [negb andb]. pose proof (ends_in_tld b tb) as He.
  destruct (strip_suffix ("."%str ++ to_ascii_lowercase tb) (to_ascii_lowercase b)) as [sub|] eqn:Es.
  - apply strip_suffix_Some in Es. rewrite (proj2 He) by eauto. cbn [negb].
    rewrite dot_dot_lower. rewrite (bool_decide_ext _ _ (head_lower b)). by destruct (bool_decide (head b = Some dot)), (dot_dot b), q.
  - destruct (_ && _ && _) eqn:Ee; [|done]. destruct (proj1 He eq_refl) as (sub & Hs). apply strip_suffix_Some in Hs. congruence.
Qed.

(** ** The names the proxy routes *)

(** No empty label. *)
Definition labels (s : str) : Prop := Forall (fun l => l <> []) (split_char "." s).

Lemma labels_join a b : labels (a ++ "."%str ++ b) <-> labels a /\ labels b.
Proof. unfold labels. cbn [app]. change ("."%str ++ b) with ("."%ch :: b). rewrite split_char_app_all. apply Forall_app. Qed.

Lemma labels_name s : dns_name s = true -> labels s.
Proof.
  unfold dns_name, labels. intros H. apply forallb_Forall in H. eapply Forall_impl; [exact H|]. intros l Hl. by apply dns_label_ne.
Qed.

Lemma dot_dot_spec s : dot_dot s = true -> exists a b, s = a ++ dot :: dot :: b.
Proof.
  induction s as [|x s IH]; [done|]. destruct s as [|y s]; [done|]. cbn [dot_dot].
  intros [[Hx Hy]%andb_true_iff|(a & b & Hs)%IH]%orb_true_iff; [|exists (x :: a), b; by rewrite Hs].
  apply N.eqb_eq in Hx as ->. apply N.eqb_eq in Hy as ->. by exists [], s.
Qed.

Lemma labels_clean s : labels s -> head s <> Some dot /\ dot_dot s = false /\ forall a, s <> a ++ "."%str.
Proof.
  unfold labels. intros H. split_and!.
  - destruct s as [|c s]; [done|]. cbn. intros [= ->]. cbn [split_char] in H. change (dot =? "."%ch) with true in H.
    cbv iota in H. by apply Forall_cons in H as [H _].
  - apply not_true_is_false. intros (a & b & ->)%dot_dot_spec. rewrite split_char_app_all in H. apply Forall_app in H as [_ H].
    cbn [split_char] in H. change (dot =? "."%ch) with true in H. cbv iota in H. by apply Forall_cons in H as [H _].
  - intros a ->. rewrite split_char_app_all in H. apply Forall_app in H as [_ H]. cbn in H. by apply Forall_cons in H as [H _].
Qed.

Lemma dot_dot_complete a b : dot_dot (a ++ dot :: dot :: b) = true.
Proof.
  induction a as [|x a IH]; [done|]. cbn [app dot_dot]. destruct (a ++ dot :: dot :: b) as [|y l] eqn:E; [by destruct a|].
  by rewrite IH, orb_true_r.
Qed.

Lemma clean_labels t s : head (s ++ dot :: t) <> Some dot -> dot_dot (s ++ dot :: t) = false -> labels s.
Proof.
  unfold labels. remember (length s) as n eqn:Hn. revert s Hn. induction (lt_wf n) as [n _ IH]. intros s -> Hh Hd.
  destruct (split_once "." s) as [[l r]|] eqn:E.
  - apply split_once_Some in E as [-> Hl]. rewrite split_char_app by done. constructor.
    { by intros ->. }
    rewrite <- app_assoc in Hh, Hd. cbn [app] in Hh, Hd. change ("."%ch) with dot in *. eapply IH; [|done|..].
    + rewrite length_app. cbn. lia.
    + intros Hr. destruct (r ++ dot :: t) as [|x k]; [done|]. injection Hr as ->. by rewrite dot_dot_complete in Hd.
    + apply not_true_is_false. intros (a & b & Hr)%dot_dot_spec. rewrite Hr in Hd.
      change (l ++ dot :: a ++ dot :: dot :: b) with (l ++ (dot :: a) ++ dot :: dot :: b) in Hd. by rewrite app_assoc, dot_dot_complete in Hd.
  - apply split_once_None in E. rewrite split_char_none by done. constructor; [|constructor]. by intros ->.
Qed.

(** Every planned claimant has the effective domains of its section. *)
Lemma plans_planned cfg sites :
  (forall p, p ∈ plan_sites cfg sites -> p = plan_site cfg (sp_site p)) /\
  (forall p, p ∈ plan_proxies cfg (plan_sites cfg sites) -> exists names, p = plan_proxy cfg names (pp_proxy p)).
Proof.
  split; intros p; [unfold plan_sites|unfold plan_proxies; set (names := list_to_set _)].
  - assert (forall l seen (acc : list SitePlan), (forall q, q ∈ acc -> q = plan_site cfg (sp_site q)) ->
      forall q, q ∈ (foldl (fun (acc : gset str * list SitePlan) site => let '(seen, plans) := acc in
        if bool_decide (site_name site ∈ seen) then acc
        else ({[site_name site]} ∪ seen, plans ++ [plan_site cfg site])) (seen, acc) l).2 -> q = plan_site cfg (sp_site q)) as H.
    { induction l as [|x l IH]; intros seen acc Hacc; [done|]. cbn [foldl]. destruct (bool_decide _); apply IH; [done|].
    intros q [Hq|Hq]%elem_of_app; [by apply Hacc|]. apply list_elem_of_singleton in Hq as ->. f_equal. unfold plan_site. by destruct (delta_parts _) as [[] ?]. }
    apply H. by intros q ?%elem_of_nil.
  - generalize (cf_proxies cfg ++ project_proxies (cf_projects cfg)) as l. intros l0.
    assert (forall l seen (acc : list ProxyPlan), (forall q, q ∈ acc -> q = plan_proxy cfg names (pp_proxy q)) ->
      forall q, q ∈ (foldl (fun (acc : gset str * list ProxyPlan) proxy => let '(seen, plans) := acc in
        if bool_decide (proxy_name proxy ∈ seen) then acc
        else ({[proxy_name proxy]} ∪ seen, plans ++ [plan_proxy cfg names proxy])) (seen, acc) l).2 ->
        q = plan_proxy cfg names (pp_proxy q)) as H.
    { induction l as [|x l IH]; intros seen acc Hacc; [done|]. cbn [foldl]. destruct (bool_decide _); apply IH; [done|].
      intros q [Hq|Hq]%elem_of_app; [by apply Hacc|]. apply list_elem_of_singleton in Hq as ->. f_equal. unfold plan_proxy. by destruct (delta_parts _) as [[] ?]. }
    intros Hp. exists names. apply (H l0 ∅ []); [by intros q ?%elem_of_nil|exact Hp].
Qed.

(** What a domain says after its star. *)
Definition unstarred (d : Domain) : str := default (Domain_str d) (strip_prefix "*." (Domain_str d)).

Lemma unstarred_name n : dns_name n = true -> unstarred (mkDomain n) = n.
Proof.
  intros H. unfold unstarred. cbn [Domain_str]. destruct (strip_prefix "*." n) as [r|] eqn:E; [|done]. apply strip_prefix_Some in E. subst n.
  exfalso. apply (dns_name_no_char _ "*"%ch) in H; [|done..]. apply H. cbn. set_solver.
Qed.

Lemma shape_labels d : subpart_shape (Domain_str d) = true -> labels (unstarred d).
Proof.
  unfold subpart_shape. intros [Hv|Hv]%orb_true_iff.
  - destruct d as [d]. cbn [Domain_str] in Hv. rewrite unstarred_name by done. by apply labels_name.
  - unfold unstarred. destruct (strip_prefix "*." (Domain_str d)); [|done]. by apply labels_name.
Qed.

Lemma effective_shape name a s d : dns_name name = true -> d ∈ effective_domains name a s ->
  (forall x, x ∈ a -> domain_stable x) -> subpart_shape (Domain_str d) = true.
Proof.
  intros Hn Hd Ha. apply elem_of_effective in Hd as [Hx|[-> _]].
  - apply Ha, Domain_parse_subpart_spec in Hx as [Hv _]. unfold valid_subpart in Hv. by apply andb_true_iff in Hv as [Hv _].
  - cbn [Domain_apex Domain_str]. rewrite dns_name_lower by done. unfold subpart_shape. by rewrite Hn.
Qed.

Section Routed.
Context (cfg : Config) (sites : list Site) (S : storable cfg)
  (Hsites : forall s, s ∈ sites -> dns_name (site_name s) = true).

(** The added domains of a delta section are parsed ones. *)
Lemma delta_stable o : (forall d, o = Some d -> exists k, domains_linked (cf_domains cfg) !! k = Some d \/
    domains_parked (cf_domains cfg) !! k = Some d \/ domains_proxy (cf_domains cfg) !! k = Some d) ->
  forall x, x ∈ (delta_parts o).1.1 -> domain_stable x.
Proof using S.
  intros H x. destruct o as [d|]; [|by intros ?%elem_of_nil]. cbn. intros Hx. destruct (H d eq_refl) as (k & Hk).
  eapply so_domains; [exact S|exact Hk|by left].
Qed.

Lemma proxy_named p : p ∈ cf_proxies cfg ++ project_proxies (cf_projects cfg) -> dns_name (proxy_name p) = true.
Proof using S.
  intros [Hp|Hp]%elem_of_app.
  - apply (so_proxies _ S) in Hp as [Hp _]. by apply validate_proxy_name_spec in Hp as [? _].
  - apply list_elem_of_omap in Hp as (c & Hc & Ho). destruct (proxy_site c) as [q|] eqn:E; [|done].
    injection Ho as <-. unfold proxy_site in E. apply bind_ok in E as (t & _ & E). apply bind_ok in E as (q' & E & [= <-]).
    unfold ProxySite_new in E. apply bind_ok in E as (n & E & [= <-]). cbn. by apply validate_proxy_name_spec in E as [? _].
Qed.

(** Every domain a built router answers is a DNS name, or one below a star. *)
Lemma owned_shape d n : domain_owner (build cfg sites) d = Some n -> subpart_shape (Domain_str d) = true.
Proof using S Hsites.
  rewrite build_owner. unfold owner_name. destruct (claim_spec _ _) as [i|] eqn:E; [|done]. intros _.
  apply claim_spec_wants in E as (c & Hc & _ & Hw%wants_elem). apply list_elem_of_lookup_2 in Hc.
  destruct (plans_planned cfg sites) as [Hp1 Hp2]. unfold claimants in Hc. apply elem_of_app in Hc as [Hc|Hc];
    apply list_elem_of_fmap in Hc as (p & -> & Hp); cbn in Hw.
  - pose proof (proj1 (plan_sites_elem cfg sites) p Hp) as Hin. rewrite (Hp1 p Hp) in Hw. revert Hw. unfold plan_site.
    pose proof (delta_stable (delta_for cfg (sp_site p))) as Hd. destruct (delta_parts _) as [[a s] st] eqn:Ed. cbn in Hd |- *.
    intros Hw. eapply effective_shape; [by apply Hsites|exact Hw|]. apply Hd. intros x Hx. unfold delta_for in Hx. case_match; eauto.
  - pose proof (plan_proxies_elem cfg _ p Hp) as Hin. destruct (Hp2 p Hp) as (names & Hn). rewrite Hn in Hw. revert Hw. unfold plan_proxy.
    pose proof (delta_stable (domains_proxy (cf_domains cfg) !! proxy_name (pp_proxy p))) as Hd.
    destruct (delta_parts _) as [[a s] st] eqn:Ed. cbn in Hd |- *.
    intros Hw. eapply effective_shape; [by apply proxy_named|exact Hw|]. apply Hd. eauto.
Qed.

Lemma owned_labels d n : domain_owner (build cfg sites) d = Some n -> labels (unstarred d).
Proof using S Hsites. intros H. by eapply shape_labels, owned_shape. Qed.

(** A host a built router routes is a name below the suffix, without empty labels. *)
Lemma routed_labels raw route : resolve_route (build cfg sites) raw = Some route ->
  exists sub, normalise raw = Hostname (sub ++ "."%str ++ Tld_str (cf_tld cfg)) /\ labels sub.
Proof using S Hsites.
  destruct (build_planned cfg sites) as (W & _ & Ht). unfold resolve_route. destruct (normalise raw) as [h|] eqn:En; [|done].
  cbv zeta. rewrite (wf_config _ W), Ht. destruct (str_eqb h _); [done|].
  destruct (strip_suffix _ h) as [sub|] eqn:Es; [|done]. cbn [mbind option_bind]. apply strip_suffix_Some in Es.
  destruct (is_empty sub) eqn:Ee; [done|]. intros Hr. exists sub. split; [by rewrite Es|].
  destruct (r_exact _ !! sub) as [n|] eqn:Ex.
  - destruct (is_wildcard (mkDomain sub)) eqn:Ew; [by rewrite (wf_exact _ W) in Ex|].
    assert (domain_owner (build cfg sites) (mkDomain sub) = Some n) as Ho%owned_labels by (unfold domain_owner, index_of; by rewrite Ew).
    unfold is_wildcard, starts_with in Ew. cbn [Domain_str] in Ew. unfold unstarred in Ho. cbn [Domain_str] in Ho.
    by destruct (strip_prefix "*." sub).
  - destruct (split_once "." sub) as [[l rest]|] eqn:Eo; [|done].
    destruct (r_wildcards _ !! _) as [n|] eqn:Ew; [|done].
    assert (domain_owner (build cfg sites) (mkDomain ("*."%str ++ rest)) = Some n) as Ho%owned_labels by done.
    assert (unstarred (mkDomain ("*."%str ++ rest)) = rest) as Hu by done. rewrite Hu in Ho.
    apply split_once_Some in Eo as [-> Hl]. change ("."%ch :: rest) with ("."%str ++ rest). apply labels_join. split; [|done].
    unfold labels. rewrite split_char_none by done. apply Forall_singleton. intros ->.
    destruct (normalise_shape _ _ En) as (host & ? & ? & _ & _ & _ & _ & Hd & _ & _ & Hh). rewrite Es in Hh. destruct host as [|c host]; [done|].
    cbn in Hh. injection Hh as Hc _. symmetry in Hc. apply lower_dot in Hc as ->. done.
Qed.
End Routed.

(** ** The responder of the daemon *)

Section Tlds.
Context `{Json J}.

Lemma frame_tld c c' : frame c' = frame c -> cf_tld c' = cf_tld c.
Proof using. by intros [= _ -> _]. Qed.

Lemma quiet_tld c c' : quiet c c' -> cf_tld c' = cf_tld c.
Proof using.
  intros (Hb & _). destruct (build_planned c []) as (_ & _ & <-). destruct (build_planned c' []) as (_ & _ & <-). by rewrite Hb.
Qed.

Lemma change_tld env req s r s' : daemon_change env req s r s' -> cf_tld (ds_config s') = cf_tld (ds_config s).
Proof using.
  intros [r0 cache files _ _|r0 _|r0 new cache files parked watch _ _ _ _ _ Hf _|new live code _ _ Hq _ _|code r0 _ _]; cbn; try done.
  - by apply frame_tld.
  - by apply quiet_tld.
Qed.

Lemma step_tld s s' : daemon_step s s' -> cf_tld (ds_config s') = cf_tld (ds_config s).
Proof using.
  intros [env req r s1 E%dispatch_change|env|env name uuid|env name|sha|now g path query].
  - by eapply change_tld.
  - unfold recompute. by destruct (build_routing _ _ _) as [[rt|e] cache].
  - eapply (change_tld env Ping). apply save_reply; auto.
  - eapply (change_tld env Ping). apply save_reply; auto.
  - done.
  - unfold decide_setup, consume_code. destruct g; [|done]. destruct (classify path); [|done].
    destruct (extract_code query) as [cand|]; [|done]. by destruct (redeem _ _ _) as [[] code].
Qed.

Lemma reached_tld s s' : rtc daemon_step s s' -> cf_tld (ds_config s') = cf_tld (ds_config s).
Proof using. induction 1 as [|s1 s2 s3 Hs _ IH]; [done|]. rewrite IH. by apply step_tld. Qed.

(** A host the proxy routes, in any state the daemon reaches. *)
Lemma reached_labels toml_from_str try_into path read fs bound_http bound_https lan_ip s0 s raw route :
  bring_up fs (Config_load toml_from_str try_into path read) bound_http bound_https lan_ip = Ok s0 ->
  rtc daemon_step s0 s -> resolve_route (ds_router s) raw = Some route ->
  exists sub, normalise raw = Hostname (sub ++ "."%str ++ Tld_str (cf_tld (ds_config s0))) /\ labels sub /\
    dns_name (Tld_str (cf_tld (ds_config s0))) = true.
Proof using.
  intros B R Hr. destruct (service_reachable_inv _ _ _ _ _ _ _ _ _ _ B R) as [S _].
  assert (daemon_inv s) as I.
  { apply boot_inv in B. clear S Hr. induction R as [s|s s1 s2 Hs _ IH]; [done|]. apply IH. by eapply step_inv. }
  destruct (di_router s I) as (parked & Hp & E). rewrite E in Hr. apply reached_tld in R. rewrite <- R.
  destruct (routed_labels (ds_config s) (parked ++ cf_linked (ds_config s)) S) with (raw := raw) (route := route) as (sub & Hn & Hl); [|done|].
  - intros x [Hx|Hx]%elem_of_app.
    + rewrite Forall_forall in Hp. apply Hp in Hx as (_ & _ & Hx & _). by apply dns_label_name.
    + apply (so_linked _ S) in Hx as [Hx _]. apply validate_name_spec in Hx as [Hx _]. by apply dns_label_name.
  - exists sub. split; [done|]. split; [done|]. pose proof (so_tld _ S) as Ht. apply Tld_new_spec in Ht as [Hv _]. unfold valid_tld in Hv. by bprop.
Qed.
End Tlds.

(** What DNS compares of the name a query prints. *)
Definition asked (raw : str) : list N := to_ascii_lowercase (as_bytes (trim_end_matches (N.eqb dot) raw)).

Lemma trim_end_dot s a : trim_end_matches (N.eqb dot) s <> a ++ "."%str.
Proof.
  unfold trim_end_matches. intros E. apply (f_equal (@rev N)) in E. rewrite rev_involutive, rev_app_distr in E. cbn in E.
  induction (rev s) as [|c r IH]; [done|]. cbn in E. destruct (dot =? c) eqn:Ec; [auto|].
  injection E as -> _. by rewrite N.eqb_refl in Ec.
Qed.

Lemma query_name_asked raw : query_name (trim_end_matches (N.eqb dot) raw) = asked raw.
Proof.
  unfold query_name, asked. f_equal. destruct (strip_suffix "." _) as [b|] eqn:E; [|done]. exfalso. apply strip_suffix_Some in E.
  pose proof (trim_end_dot raw) as Hd. destruct (trim_end_matches _ raw) as [|c q _] using rev_ind; [by destruct b|].
  rewrite as_bytes_app in E. assert (dot ∈ as_bytes [c]) as Hin.
  { apply (f_equal (@rev N)) in E. rewrite !rev_app_distr in E. cbn [rev app] in E. apply elem_of_rev.
    assert (as_bytes [c] <> []) as Hne.
    { rewrite as_bytes_cons. cbn. rewrite app_nil_r. unfold utf8_char. by repeat case_match. }
    destruct (rev (as_bytes [c])) as [|x r] eqn:Er.
    - apply (f_equal (@rev N)) in Er. by rewrite rev_involutive in Er.
    - injection E as -> _. by left. }
  apply elem_of_as_bytes_ascii, list_elem_of_singleton in Hin as <-; [|done]. by apply (Hd q).
Qed.

(** What the classification turns on, for a name below the suffix. *)
Lemma below_exists t sub : labels t -> let n := sub ++ "."%str ++ t in
  bool_decide (head n = Some dot) || dot_dot n = negb (bool_decide (labels sub)).
Proof.
  intros Ht n. destruct (bool_decide (labels sub)) eqn:E; cbn [negb]; bprop.
  - assert (labels n) as (Hh & Hd & _)%labels_clean by by apply labels_join. by rewrite bool_decide_false, Hd.
  - destruct (bool_decide (head n = Some dot)) eqn:Eh; [done|]. bprop. cbn [orb]. apply not_false_is_true. intros Hd.
    apply E, (clean_labels t); done.
Qed.

(** C32. What the responder answers, for any query: it refuses, and claims no authority, exactly for a name that is
    neither the suffix nor below it, or in LAN mode a client outside the local network. A name below the suffix does
    not exist exactly when it has an empty label. And it gives no other addresses than these, for 60 seconds each: the
    loopback addresses of the family asked, but in LAN mode the discovered LAN address to the other devices and no IPv6. *)
Theorem dns_answers_exact tld a ty raw src (Ht : dns_name (Tld_str tld) = true) :
  let r := handle_request tld a ty raw src in
  let below sub := asked raw = sub ++ "."%str ++ Tld_str tld in
  let outside := lan_mode a && negb (is_lan_source src) = true in
  (rcode r = RefusedCode <-> outside \/ asked raw <> Tld_str tld /\ forall sub, ~ below sub) /\
  (authoritative r = true <-> rcode r <> RefusedCode) /\
  (rcode r = NXDomain <-> ~ outside /\ exists sub, below sub /\ ~ labels sub) /\
  (answers r =
     if bool_decide (rcode r = NoError) && negb (bool_decide (asked raw = Tld_str tld)) then
       match ty with
       | TypeA => match (if lan_mode a && negb (ip_is_loopback src) then lan_v4 a else Some (loopback_v4 a)) with
                  | Some ip => [(60, RA ip)] | None => [] end
       | TypeAAAA => if lan_mode a then [] else [(60, RAaaa LOCALHOST6)]
       | TypeOther _ => []
       end
     else []).
Proof.
  intros r below outside. unfold r, handle_request. cbv zeta. rewrite responder_exact, query_name_asked. cbv zeta.
  rewrite (as_bytes_ascii (Tld_str tld)), (dns_name_lower _ Ht) by (eapply Forall_impl; [by apply dns_name_ascii|]; by intros c ?%N.ltb_lt).
  clear r. unfold below, outside. clear below outside.
  apply labels_name in Ht. generalize dependent (Tld_str tld). intros t Ht. generalize (asked raw). intros n.
  destruct (lan_mode a && negb (is_lan_source src)) eqn:Eo.
  { cbn. split_and!; [split; auto|split; [done|intros E; by destruct E]|split; [done|by intros [[] _]]|done]. }
  case_bool_decide as En.
  { subst n. cbn [rcode authoritative answers]. rewrite andb_false_r. split_and!; [split; [done|]|done|split; [done|]|done].
    - intros [?|[[] _]]; done.
    - intros (_ & sub & E & _). exfalso. apply (f_equal length) in E. rewrite !length_app in E. cbn in E. lia. }
  destruct (strip_suffix _ n) as [sub|] eqn:Es.
  - apply strip_suffix_Some in Es. subst n. rewrite below_exists by done. assert (forall s, sub ++ "."%str ++ t = s ++ "."%str ++ t -> s = sub) as Hinj.
    { intros s E. by apply app_inv_tail in E. }
    destruct (bool_decide (labels sub)) eqn:El; bprop; cbn [negb].
    + assert (bool_decide (sub ++ "."%str ++ t = t) = false) as Hf by by apply bool_decide_eq_false.
      destruct ty as [| |code]; cbn [rcode authoritative answers]; rewrite ?Hf;
        (split_and!; [split; [done|by intros [?|[_ Hb]]; [|destruct (Hb sub)]]|by split|
           split; [done|by intros (_ & s & E%Hinj & Hs); subst s]|done]).
    + cbn. split_and!; [split; [done|by intros [?|[_ Hb]]; [|destruct (Hb sub)]]|by split|split; [eauto|done]|done].
  - cbn. split_and!; [|split; [done|by intros E]|split; [done|]|done].
    + split; [|done]. intros _. right. split; [done|]. intros sub ->. by rewrite (proj2 (strip_suffix_Some _ _ sub)) in Es.
    + intros (_ & sub & -> & _). by rewrite (proj2 (strip_suffix_Some _ _ sub)) in Es.
Qed.

(** The reply to a query for a name below the suffix. *)
Lemma reply_below tld a ty name src sub : dns_name (Tld_str tld) = true -> labels sub ->
  asked name = sub ++ "."%str ++ Tld_str tld ->
  handle_request tld a ty name src =
  if lan_mode a && negb (is_lan_source src) then mkReply false RefusedCode []
  else mkReply true NoError
    match ty with
    | TypeA => match a_record_for a src with Some ip => [(60, RA ip)] | None => [] end
    | TypeAAAA => if lan_mode a then [] else [(60, RAaaa LOCALHOST6)]
    | TypeOther _ => []
    end.
Proof.
  intros Ht Hl E. unfold handle_request. destruct (_ && _); [done|]. cbv zeta. rewrite responder_exact, query_name_asked. cbv zeta.
  rewrite (as_bytes_ascii (Tld_str tld)), (dns_name_lower _ Ht) by (eapply Forall_impl; [by apply dns_name_ascii|]; by intros c ?%N.ltb_lt).
  case_bool_decide as En.
  { rewrite En in E. apply (f_equal length) in E. rewrite !length_app in E. cbn in E. lia. }
  rewrite (proj2 (strip_suffix_Some _ _ sub)) by done. rewrite E, below_exists by (by apply labels_name).
  rewrite bool_decide_true by done. by destruct ty.
Qed.

(** What is asked when a routed host is looked up, in any case and with or without the root dot. *)
Lemma asked_host raw q name sub t : normalise raw = Hostname (to_ascii_lowercase q) ->
  to_ascii_lowercase q = sub ++ "."%str ++ t -> dns_name t = true -> name = q \/ name = q ++ "."%str -> asked name = to_ascii_lowercase q.
Proof.
  intros Hn E Ht Hq. assert (forall a, q <> a ++ "."%str) as Hd.
  { intros a ->. unfold to_ascii_lowercase in E. rewrite map_app in E. pose proof (dns_name_ne _ Ht) as Hne.
    apply labels_name, labels_clean in Ht as (_ & _ & Ht). destruct t as [|c t _] using rev_ind; [done|]. rewrite !app_assoc in E. apply app_inj_tail in E as [_ E].
    apply (Ht t). by rewrite <- E. }
  assert (trim_end_matches (N.eqb dot) name = q) as Hname.
  { destruct Hq as [->| ->]; [rewrite <- (app_nil_r q) at 1|]; apply trim_dots; auto. }
  unfold asked. rewrite Hname, as_bytes_ascii; [done|].
  apply normalise_shape in Hn as (host & ? & ? & _ & _ & _ & _ & _ & _ & Hasc & Hh).
  apply Forall_forall. intros c Hc. rewrite Forall_forall in Hasc.
  assert (lower_char c ∈ to_ascii_lowercase host) as Hin by (rewrite <- Hh; apply list_elem_of_fmap; eauto).
  apply list_elem_of_fmap in Hin as (d & Hcd & Hin%Hasc). unfold is_ascii in Hin. apply N.ltb_lt in Hin. clear - Hcd Hin.
  unfold lower_char, is_ascii_uppercase, in_range in Hcd. change ("A"%ch) with 65 in Hcd. change ("Z"%ch) with 90 in Hcd.
  destruct (_ && _) eqn:E1 in Hcd; destruct (_ && _) eqn:E2 in Hcd; bprop; lia.
Qed.

(** C6. Names and routes agree.  In every state the daemon reaches, a host its proxy routes is a name its resolver
    serves, whatever was added or removed since it came up: a lookup of that host, in any letter case and with or
    without the root dot, gives the machine itself 127.0.0.1, in LAN mode gives the devices of the local network the
    LAN address discovered at start, when there was one, and refuses everybody else; an IPv6 lookup gives [::1]
    outside LAN mode and nothing in it.  The reply is always authoritative unless refused. *)
Theorem dns_serves_routed_hosts `{Json J} toml_from_str try_into path read fs bound_http bound_https lan_ip s0 s raw route q name
    (B : bring_up fs (Config_load toml_from_str try_into path read) bound_http bound_https lan_ip = Ok s0)
    (R : rtc daemon_step s0 s) (Hr : resolve_route (ds_router s) raw = Some route)
    (Hn : normalise raw = Hostname (to_ascii_lowercase q)) (Hq : name = q \/ name = q ++ "."%str) :
  let lan := cf_lan_enabled (ds_config s0) in
  let reply := handle_request (cf_tld (ds_config s0)) (dns_answer lan (ds_lan_ip s0)) in
  (forall src, ip_is_loopback src = true -> reply TypeA name src = mkReply true NoError [(60, RA (mkV4 127 0 0 1))]) /\
  (forall src, ip_is_loopback src = false -> reply TypeA name src =
     if negb lan then mkReply true NoError [(60, RA (mkV4 127 0 0 1))]
     else if is_lan_source src
     then mkReply true NoError match ds_lan_ip s0 with Some ip => [(60, RA ip)] | None => [] end
     else mkReply false RefusedCode []) /\
  (forall src, ip_is_loopback src = true -> reply TypeAAAA name src =
     mkReply true NoError (if lan then [] else [(60, RAaaa (mkV6 [0; 0; 0; 0; 0; 0; 0; 1]))])).
Proof using.
  intros lan reply. destruct (reached_labels _ _ _ _ _ _ _ _ _ _ _ _ B R Hr) as (sub & Hs & Hl & Ht).
  assert (to_ascii_lowercase q = sub ++ "."%str ++ Tld_str (cf_tld (ds_config s0))) as E by congruence.
  pose proof (asked_host _ _ _ _ _ Hn E Ht Hq) as Ha. rewrite E in Ha.
  assert (forall src, ip_is_loopback src = true -> is_lan_source src = true) as Hloop.
  { intros [v4|v6] Hv; cbn in *; [unfold is_lan_source_v4|]; by rewrite Hv. }
  unfold reply, dns_answer. split_and!; intros src Hsrc; rewrite (reply_below _ _ _ _ _ sub Ht Hl Ha);
    unfold a_record_for; try (rewrite (Hloop src Hsrc)); rewrite ?Hsrc; destruct lan; cbn; try done.
  by destruct (is_lan_source src).
Qed.

(** ** Witnesses *)

Lemma dns_answers_exact_witness :
  let a := addrs_lan (Some (mkV4 192 168 1 5)) in let phone := V4 (mkV4 192 168 1 20) in
  dns_name "test"%str = true /\
  (authoritative (handle_request (mkTld "test"%str) a TypeA "Blog.Test."%str phone) = true <->
   rcode (handle_request (mkTld "test"%str) a TypeA "Blog.Test."%str phone) <> RefusedCode) /\
  answers (handle_request (mkTld "test"%str) a TypeA "Blog.Test."%str phone) = [(60, RA (mkV4 192 168 1 5))] /\
  rcode (handle_request (mkTld "test"%str) a TypeA "a..test"%str phone) = NXDomain /\
  rcode (handle_request (mkTld "test"%str) a TypeA "example.com"%str phone) = RefusedCode.
Proof.
  intros a phone. assert (dns_name "test"%str = true) as Ht by (vm_compute; reflexivity). split; [exact Ht|].
  split; [exact (proj1 (proj2 (dns_answers_exact (mkTld "test"%str) a TypeA "Blog.Test."%str phone Ht)))|].
  split; [|split; vm_compute; reflexivity].
  destruct (dns_answers_exact (mkTld "test"%str) a TypeA "Blog.Test."%str phone Ht) as (_ & _ & _ & E). rewrite E. vm_compute. reflexivity.
Defined.

Lemma dns_serves_routed_hosts_witness :
  let load := Config_load (fun _ => Err []) (fun _ => Err []) "/etc/orcker.toml"%str (Err IoNotFound) in
  match bring_up (demo_fs true) load 8080 8443 None with
  | Ok s0 =>
      match Daemon.dispatch demo_env demo_add s0 with
      | Some (_, s) =>
          resolve_route (ds_router s) "API.test:80"%str <> None /\
          handle_request (cf_tld (ds_config s0)) (dns_answer (cf_lan_enabled (ds_config s0)) (ds_lan_ip s0)) TypeA
            "Api.Test."%str (V4 (mkV4 127 0 0 1)) = mkReply true NoError [(60, RA (mkV4 127 0 0 1))]
      | None => False
      end
  | Err _ => False
  end.
Proof.
  intros load.
  assert (match bring_up (demo_fs true) load 8080 8443 None with
    | Ok s0 => match Daemon.dispatch demo_env demo_add s0 with
        | Some (_, s) => match resolve_route (ds_router s) "API.test:80"%str with Some _ => true | None => false end
        | None => false end
    | Err _ => false end = true) as Hrun by (vm_compute; reflexivity).
  destruct (bring_up (demo_fs true) load 8080 8443 None) as [s0|] eqn:B; [|discriminate Hrun].
  destruct (Daemon.dispatch demo_env demo_add s0) as [[r s]|] eqn:D; [|discriminate Hrun].
  destruct (resolve_route (ds_router s) "API.test:80"%str) as [route|] eqn:Er; [|discriminate Hrun].
  split; [discriminate|].
  exact (proj1 (dns_serves_routed_hosts (fun _ => Err []) (fun _ => Err []) "/etc/orcker.toml"%str (Err IoNotFound)
    (demo_fs true) 8080 8443 None s0 s "API.test:80"%str route "Api.Test"%str "Api.Test."%str B
    (rtc_l _ _ _ _ (st_request s0 demo_env _ _ s D) (rtc_refl _ _)) Er eq_refl (or_intror eq_refl)) (V4 (mkV4 127 0 0 1)) eq_refl).
Defined.
