(* ===== verification/Jobs.v ===== *)
(** * Background jobs

    [src/bin/orckerd/src/jobs.rs], the registry a client polls, with the escape filter
    of [ansi.rs] and the tasks that feed it: the installers of [ipc_server.rs] and
    [tunnel/mod.rs] and the login of [tunnel/named.rs].  The registry is a mutex, so its
    operations are atomic and a run is a sequence of them. *)

From stdpp Require Import sorting.
From S2P Require Import Prelude RustStr RustMap RustText Tunnel.

Open Scope N_scope.

(** ** [ansi.rs] *)

Definition ESC : N := 27.
Definition BEL : N := 7.

(** After [ESC \[]: parameters, intermediates and the final byte. *)
Definition strip_csi (s : str) : str :=
  let s := drop_while (in_range "0"%ch "?"%ch) s in
  let s := drop_while (in_range " "%ch "/"%ch) s in
  match s with
  | c :: r => if in_range "@"%ch "~"%ch c then r else s
  | [] => []
  end.

(** After the introducer of a string sequence: up to [BEL] or [ESC \ ]. *)
Fixpoint strip_string (s : str) : str :=
  match s with
  | [] => []
  | c :: r =>
      if c =? BEL then r
      else match r with
           | d :: r' => if (c =? ESC) && (d =? "\"%ch) then r' else strip_string r
           | [] => strip_string r
           end
  end.

Definition is_string_intro (c : N) : bool :=
  (c =? "]"%ch) || (c =? "P"%ch) || (c =? "X"%ch) || (c =? "^"%ch) || (c =? "_"%ch).

Fixpoint strip_loop (fuel : nat) (s : str) : str :=
  match fuel with
  | O => []
  | S fuel =>
      match s with
      | [] => []
      | c :: r =>
          if negb (c =? ESC) then c :: strip_loop fuel r
          else match r with
               | [] => []
               | d :: r' => if d =? "["%ch then strip_loop fuel (strip_csi r')
                            else if is_string_intro d then strip_loop fuel (strip_string r')
                            else strip_loop fuel r'
               end
      end
  end.

Definition ansi_strip (s : str) : str := strip_loop (S (length s)) s.

(** ** The registry *)

Inductive JobState := JobRunning | JobSucceeded | JobFailed | JobCancelled.
#[export] Instance JobState_eq_dec : EqDecision JobState.
Proof. solve_decision. Defined.

Definition LOG_CAP : N := 5000.
Definition TERMINAL_CAP : N := 64.

Record Job := mkJob { j_state : JobState; j_phase : str; j_log : list str; j_dropped : N; j_error : option str; j_cancel : bool }.

Definition is_terminal (j : Job) : bool := negb (bool_decide (j_state j = JobRunning)).

Record JobRegistry := mkJobs { jobs : gmap str Job; next : N }.
Definition jobs_default : JobRegistry := mkJobs ∅ 0.

Definition job_id (n : N) : str := "job-"%str ++ show_uint n.

Definition id_suffix (id : str) : N :=
  let last := match rsplit_once "-" id with Some (_, s) => s | None => id end in
  default 0 (parse_uint u64_max last).

Definition suffix_le (a b : str) : Prop := id_suffix a <= id_suffix b.
#[export] Instance suffix_le_dec a b : Decision (suffix_le a b).
Proof. unfold suffix_le. apply _. Defined.

Definition terminal_ids (m : gmap str Job) : list str := fst <$> filter (fun e => is_terminal e.2 = true) (map_to_list m).

Definition prune_terminal (m : gmap str Job) : gmap str Job :=
  let terminal := vlen (terminal_ids m) in
  if terminal <=? TERMINAL_CAP then m
  else
    let victims := merge_sort suffix_le (terminal_ids m) in
    foldl (fun m id => delete id m) m (take (N.to_nat (terminal - TERMINAL_CAP)) victims).

Definition jobs_create (r : JobRegistry) : str * JobRegistry :=
  let id := job_id (next r) in
  (id, mkJobs (<[id := mkJob JobRunning "Starting"%str [] 0 None false]> (prune_terminal (jobs r)))
         ((next r + 1) mod (u64_max + 1))).

Definition push_line (line : str) (j : Job) : Job :=
  let log := j_log j ++ [line] in
  if LOG_CAP <? vlen log then
    let over := vlen log - LOG_CAP in
    mkJob (j_state j) (j_phase j) (drop (N.to_nat over) log) (j_dropped j + over) (j_error j) (j_cancel j)
  else mkJob (j_state j) (j_phase j) log (j_dropped j) (j_error j) (j_cancel j).

Definition push_log (id line : str) (r : JobRegistry) : JobRegistry :=
  let line := ansi_strip line in
  if is_empty line then r else mkJobs (alter (push_line line) id (jobs r)) (next r).

Definition set_phase (id phase : str) (r : JobRegistry) : JobRegistry :=
  mkJobs (alter (fun j => mkJob (j_state j) phase (j_log j) (j_dropped j) (j_error j) (j_cancel j)) id (jobs r)) (next r).

Definition finish (id : str) (state : JobState) (error : option str) (r : JobRegistry) : JobRegistry :=
  mkJobs (alter (fun j => mkJob state (j_phase j) (j_log j) (j_dropped j) error (j_cancel j)) id (jobs r)) (next r).

Inductive JobReply :=
| JobNotFound (id : str)
| JobProgress (state : JobState) (phase : str) (log : list str) (next_cursor : N) (error : option str)
| JobOk.

Definition poll (id : str) (cursor : N) (r : JobRegistry) : JobReply :=
  match jobs r !! id with
  | None => JobNotFound id
  | Some job =>
      let total := j_dropped job + vlen (j_log job) in
      let start := N.min (cursor - j_dropped job) (vlen (j_log job)) in
      JobProgress (j_state job) (j_phase job) (drop (N.to_nat start) (j_log job)) total (j_error job)
  end.

Definition jobs_cancel (id : str) (r : JobRegistry) : JobReply * JobRegistry :=
  match jobs r !! id with
  | None => (JobNotFound id, r)
  | Some job => (JobOk, mkJobs (<[id := mkJob (j_state job) (j_phase job) (j_log job) (j_dropped job) (j_error job) true]> (jobs r)) (next r))
  end.

(** ** Runs of the registry *)

Inductive jop :=
| JCreate
| JPush (id line : str)
| JPhase (id phase : str)
| JFinish (id : str) (state : JobState) (error : option str)
| JCancel (id : str).

#[export] Instance jop_eq_dec : EqDecision jop.
Proof. solve_decision. Defined.

Definition apply_jop (r : JobRegistry) (op : jop) : JobRegistry :=
  match op with
  | JCreate => (jobs_create r).2
  | JPush id line => push_log id line r
  | JPhase id phase => set_phase id phase r
  | JFinish id state error => finish id state error r
  | JCancel id => (jobs_cancel id r).2
  end.
Definition jobs_run (r : JobRegistry) (ops : list jop) : JobRegistry := foldl apply_jop r ops.

(** A client that polls after each chunk of operations with the cursor it was given last. *)
Fixpoint client (r : JobRegistry) (id : str) (cursor : N) (seen : JobState) (chunks : list (list jop)) : option (list str * JobState) :=
  match chunks with
  | [] => Some ([], seen)
  | ops :: rest =>
      let r := jobs_run r ops in
      match poll id cursor r with
      | JobProgress state _ log next_cursor _ =>
          '(more, last) ← client r id next_cursor state rest; Some (log ++ more, last)
      | _ => None
      end
  end.

(** ** The tasks that feed a job: what they ask of the registry, in order *)

Inductive JobEnd := Done | FailedWith (error : str) | WasCancelled.
Definition finish_op (id : str) (e : JobEnd) : jop :=
  match e with
  | Done => JFinish id JobSucceeded None
  | FailedWith error => JFinish id JobFailed (Some error)
  | WasCancelled => JFinish id JobCancelled None
  end.

Definition install_tool_ops (id display_name : str) (lines : list str) (result : JobEnd) : list jop :=
  JPhase id ("Installing "%str ++ display_name) :: (JPush id <$> lines) ++ [finish_op id result].

(** The first cancellation can come while the task waits for its lock. *)
Definition install_cloudflared_ops (id : str) (installed : option (list str * JobEnd)) : list jop :=
  JPhase id "Installing cloudflared"%str ::
  match installed with
  | None => [finish_op id WasCancelled]
  | Some (lines, result) => (JPush id <$> lines) ++ [finish_op id result]
  end.

Definition drain_lines (id : str) (lines : list str) : list jop :=
  lines ≫= (fun line =>
    match find_auth_url line with
    | Some url => [JPush id ("Open this URL to authorize Orcker: "%str ++ url)]
    | None => []
    end ++ [JPush id line]).

(** Two tasks drain the child's outputs at the same time. *)
Inductive merged {A} : list A -> list A -> list A -> Prop :=
| merged_nil : merged [] [] []
| merged_l x a b c : merged a b c -> merged (x :: a) b (x :: c)
| merged_r x a b c : merged a b c -> merged a (x :: b) (x :: c).

Inductive LoginEnd := Exited | LoginCancelled | TimedOut.
Definition login_end (e : LoginEnd) (logged_in : bool) : JobEnd :=
  match e with
  | LoginCancelled => WasCancelled
  | TimedOut => FailedWith "login timed out - the browser authorization wasn't completed"%str
  | Exited => if logged_in then Done else FailedWith "login did not complete (no certificate written)"%str
  end.

Definition login_ops (id : str) (spawned : result str (list jop * LoginEnd)) (logged_in : bool) : list jop :=
  JPhase id "Waiting for Cloudflare login"%str ::
  match spawned with
  | Err e => [finish_op id (FailedWith ("spawn: "%str ++ e))]
  | Ok (drained, e) => drained ++ [finish_op id (login_end e logged_in)]
  end.

Inductive job_task (id : str) : list jop -> Prop :=
| task_tool name lines result : job_task id (install_tool_ops id name lines result)
| task_cloudflared installed : job_task id (install_cloudflared_ops id installed)
| task_login_failed e logged_in : job_task id (login_ops id (Err e) logged_in)
| task_login out err drained e logged_in :
    merged (drain_lines id out) (drain_lines id err) drained ->
    job_task id (login_ops id (Ok (drained, e)) logged_in).

(** The operations of one job among those of all, and the lines they store. *)
Definition concerns (id : str) (op : jop) : bool :=
  match op with
  | JPush i _ | JPhase i _ | JFinish i _ _ => str_eqb i id
  | JCreate | JCancel _ => false
  end.
Definition own (id : str) (ops : list jop) : list jop := bfilter (concerns id) ops.

Definition pushed (id : str) (ops : list jop) : list str :=
  omap (fun op => match op with
                  | JPush i line => if str_eqb i id && negb (is_empty (ansi_strip line)) then Some (ansi_strip line) else None
                  | _ => None
                  end) ops.

Definition creates (ops : list jop) : N := vlen (bfilter (fun op => match op with JCreate => true | _ => false end) ops).

(** ** Escape sequences *)

Lemma strip_csi_short s : (length (strip_csi s) <= length s)%nat.
Proof.
  unfold strip_csi. destruct (drop_while_suffix (in_range "0"%ch "?"%ch) s) as (k1 & E1).
  set (s1 := drop_while _ s) in *. destruct (drop_while_suffix (in_range " "%ch "/"%ch) s1) as (k2 & E2).
  set (s2 := drop_while _ s1) in *. rewrite E1, E2, !length_app. destruct s2 as [|c r]; cbn; [lia|]. destruct (in_range _ _ _); cbn; lia.
Qed.

Lemma strip_string_short s : (length (strip_string s) <= length s)%nat.
Proof.
  induction s as [s IH] using (induction_ltof1 _ (@length N)); unfold ltof in IH. destruct s as [|c r]; [done|]. cbn [strip_string].
  destruct (c =? BEL); [cbn; lia|]. destruct r as [|d r']; [cbn; lia|].
  destruct (_ && _); [cbn; lia|]. specialize (IH (d :: r') ltac:(cbn; lia)). cbn [length] in *. lia.
Qed.

Lemma strip_loop_clean fuel s : ESC ∉ strip_loop fuel s.
Proof.
  revert s; induction fuel as [|fuel IH]; intros s; [apply not_elem_of_nil|]. destruct s as [|c r]; [apply not_elem_of_nil|]. cbn [strip_loop].
  destruct (c =? ESC) eqn:E; cbn [negb].
  - destruct r as [|d r']; [apply not_elem_of_nil|]. destruct (d =? _); [apply IH|]. destruct (is_string_intro d); apply IH.
  - bprop. intros [Hc|Hin]%elem_of_cons; [by subst c|by apply IH in Hin].
Qed.

Lemma strip_loop_plain fuel s : (length s < fuel)%nat -> ESC ∉ s -> strip_loop fuel s = s.
Proof.
  revert s; induction fuel as [|fuel IH]; intros s Hl Hs; [lia|]. destruct s as [|c r]; [done|]. cbn [strip_loop].
  apply not_elem_of_cons in Hs as [Hc Hs]. destruct (c =? ESC) eqn:E; bprop; [by subst c|]. cbn [negb]. f_equal. apply IH; [cbn in Hl; lia|done].
Qed.

(** The fuel is no limit: more gives the same. *)
Lemma strip_loop_fuel f1 f2 s : (length s < f1)%nat -> (length s < f2)%nat -> strip_loop f1 s = strip_loop f2 s.
Proof.
  revert f2 s; induction f1 as [|f1 IH]; intros f2 s H1 H2; [lia|]. destruct f2 as [|f2]; [lia|]. destruct s as [|c r]; [done|]. cbn [strip_loop length] in *.
  destruct (negb _); [f_equal; apply IH; lia|]. destruct r as [|d r']; [done|]. cbn [length] in *.
  pose proof (strip_csi_short r'). pose proof (strip_string_short r').
  destruct (d =? _); [apply IH; lia|]. destruct (is_string_intro d); apply IH; lia.
Qed.

(** ** Pruning *)

Lemma foldl_delete (l : list str) (m : gmap str Job) id :
  foldl (fun m id => delete id m) m l !! id = if bool_decide (id ∈ l) then None else m !! id.
Proof.
  revert m; induction l as [|x l IH]; intros m; cbn [foldl].
  { rewrite bool_decide_false; [done|]. apply not_elem_of_nil. }
  rewrite IH. destruct (bool_decide (id ∈ l)) eqn:E; bprop.
  - by rewrite bool_decide_true by (by right).
  - destruct (decide (id = x)) as [->|Hne]; [rewrite lookup_delete_eq, bool_decide_true; [done|by left]|].
    rewrite lookup_delete_ne by done. rewrite bool_decide_false; [done|]. by intros [?|?]%elem_of_cons.
Qed.

Lemma elem_of_terminal_ids m id : id ∈ terminal_ids m <-> exists j, m !! id = Some j /\ is_terminal j = true.
Proof.
  unfold terminal_ids. rewrite list_elem_of_fmap. split.
  - intros ([i j] & -> & [Hj Hin]%list_elem_of_filter). cbn in *. apply elem_of_map_to_list in Hin. eauto.
  - intros (j & Hm & Hj). exists (id, j). split; [done|]. apply list_elem_of_filter. split; [done|]. by apply elem_of_map_to_list.
Qed.

Lemma terminal_ids_NoDup m : NoDup (terminal_ids m).
Proof.
  unfold terminal_ids. pose proof (NoDup_fst_map_to_list m) as H. induction (map_to_list m) as [|[i j] l IH]; [constructor|].
  cbn [fmap list_fmap] in H. apply NoDup_cons in H as [Hi H]. rewrite filter_cons. cbn. destruct (decide (is_terminal j = true)); [|by apply IH].
  cbn. constructor; [|by apply IH]. intros ([i' j'] & Hi' & [_ Hin]%list_elem_of_filter)%list_elem_of_fmap. apply Hi.
  cbn in Hi'. subst i'. apply list_elem_of_fmap. by exists (i, j').
Qed.

(** The ids that are dropped. *)
Definition victims (m : gmap str Job) : list str :=
  take (N.to_nat (vlen (terminal_ids m) - TERMINAL_CAP)) (merge_sort suffix_le (terminal_ids m)).

Lemma prune_lookup m id : prune_terminal m !! id = if bool_decide (id ∈ victims m) then None else m !! id.
Proof.
  unfold prune_terminal, victims. destruct (vlen (terminal_ids m) <=? TERMINAL_CAP) eqn:E; [|apply foldl_delete].
  apply N.leb_le in E. replace (vlen (terminal_ids m) - TERMINAL_CAP) with 0 by lia. cbn [N.to_nat take].
  rewrite bool_decide_false; [done|]. apply not_elem_of_nil.
Qed.

Lemma victims_terminal m id : id ∈ victims m -> id ∈ terminal_ids m.
Proof. unfold victims. intros (i & Hi%list_elem_of_lookup_2 & _)%elem_of_take. by rewrite merge_sort_Permutation in Hi. Qed.

Lemma prune_sub m id j : prune_terminal m !! id = Some j -> m !! id = Some j.
Proof. rewrite prune_lookup. by case_bool_decide. Qed.

Lemma prune_gone m id j : m !! id = Some j -> prune_terminal m !! id = None -> is_terminal j = true.
Proof.
  rewrite prune_lookup. intros Hm. case_bool_decide as Hv; [|congruence]. intros _.
  apply victims_terminal, elem_of_terminal_ids in Hv as (j' & Hj' & Ht). congruence.
Qed.

Lemma terminal_ids_prune m : terminal_ids (prune_terminal m) ≡ₚ drop (N.to_nat (vlen (terminal_ids m) - TERMINAL_CAP)) (merge_sort suffix_le (terminal_ids m)).
Proof.
  pose proof (terminal_ids_NoDup m) as Hn. rewrite <- (merge_sort_Permutation suffix_le) in Hn.
  rewrite <- (take_drop (N.to_nat (vlen (terminal_ids m) - TERMINAL_CAP)) (merge_sort _ _)) in Hn. apply NoDup_app in Hn as (_ & Hd & Hn).
  apply NoDup_Permutation; [apply terminal_ids_NoDup|done|]. intros id. rewrite elem_of_terminal_ids. split.
  - intros (j & Hj & Ht). rewrite prune_lookup in Hj. case_bool_decide as Hv; [done|].
    assert (id ∈ merge_sort suffix_le (terminal_ids m)) as Hin by (rewrite merge_sort_Permutation; apply elem_of_terminal_ids; eauto).
    rewrite <- (take_drop (N.to_nat (vlen (terminal_ids m) - TERMINAL_CAP)) (merge_sort _ _)) in Hin.
    apply elem_of_app in Hin as [Hin|Hin]; [by destruct (Hv Hin)|done].
  - intros Hin. assert (id ∈ terminal_ids m) as (j & Hj & Ht)%elem_of_terminal_ids.
    { rewrite <- (merge_sort_Permutation suffix_le). rewrite <- (take_drop (N.to_nat (vlen (terminal_ids m) - TERMINAL_CAP)) (merge_sort _ _)).
      apply elem_of_app. by right. }
    exists j. split; [|done]. rewrite prune_lookup, bool_decide_false; [done|]. intros Hv. by apply (Hd id Hv).
Qed.

#[export] Instance suffix_le_total : Total suffix_le.
Proof. intros a b. unfold suffix_le. lia. Qed.
#[export] Instance suffix_le_trans : Transitive suffix_le.
Proof. intros a b c. unfold suffix_le. lia. Qed.

Lemma id_suffix_id n : n <= u64_max -> id_suffix (job_id n) = n.
Proof.
  intros Hn. unfold id_suffix, job_id. change ("job-"%str ++ show_uint n) with ("job"%str ++ "-"%ch :: show_uint n).
  rewrite rsplit_once_complete. { by rewrite parse_show_uint. }
  intros Hin. pose proof (show_uint_digits n) as Hd. rewrite Forall_forall in Hd. by apply Hd in Hin.
Qed.

Lemma job_id_inj a b : job_id a = job_id b -> a = b.
Proof. unfold job_id. intros H%app_inv_head. by apply show_uint_inj. Qed.

(** What is dropped is older than what is kept. *)
Lemma victims_oldest m a b : a ∈ victims m -> b ∈ terminal_ids (prune_terminal m) -> suffix_le a b.
Proof.
  unfold victims. rewrite terminal_ids_prune. intros Ha Hb.
  pose proof (StronglySorted_merge_sort suffix_le (terminal_ids m)) as Hs. rewrite <- (take_drop (N.to_nat (vlen (terminal_ids m) - TERMINAL_CAP)) (merge_sort _ _)) in Hs.
  by eapply StronglySorted_app_1_elem_of.
Qed.

(** ** The registry's invariant *)

Definition clean_line (l : str) : Prop := l <> [] /\ ESC ∉ l.

Record jobs_ok (r : JobRegistry) : Prop := mkJobsOk {
  jo_ids id j : jobs r !! id = Some j -> exists n, n < next r /\ id = job_id n;
  jo_logs id j : jobs r !! id = Some j -> vlen (j_log j) <= LOG_CAP /\ Forall clean_line (j_log j);
}.

Lemma push_line_ok line j : vlen (j_log j) <= LOG_CAP -> Forall clean_line (j_log j) -> clean_line line ->
  vlen (j_log (push_line line j)) <= LOG_CAP /\ Forall clean_line (j_log (push_line line j)).
Proof.
  intros Hl Hf Hc. assert (Forall clean_line (j_log j ++ [line])) as Ha by (apply Forall_app; auto).
  unfold push_line. destruct (LOG_CAP <? _) eqn:E; cbn [j_log]; bprop; [|done].
  split; [|by apply Forall_drop]. revert E. unfold vlen. rewrite length_drop, length_app. cbn. lia.
Qed.

(** Every operation changes one job, and how. *)
Definition op_change (op : jop) (id : str) (j : Job) : Job :=
  match op with
  | JPush i line => if str_eqb i id && negb (is_empty (ansi_strip line)) then push_line (ansi_strip line) j else j
  | JPhase i p => if str_eqb i id then mkJob (j_state j) p (j_log j) (j_dropped j) (j_error j) (j_cancel j) else j
  | JFinish i st e => if str_eqb i id then mkJob st (j_phase j) (j_log j) (j_dropped j) e (j_cancel j) else j
  | JCancel i => if str_eqb i id then mkJob (j_state j) (j_phase j) (j_log j) (j_dropped j) (j_error j) true else j
  | JCreate => j
  end.

Lemma alter_at (f : Job -> Job) (i id : str) (m : gmap str Job) :
  alter f i m !! id = (fun j => if str_eqb i id then f j else j) <$> m !! id.
Proof.
  unfold str_eqb. case_bool_decide as E; [subst; by rewrite lookup_alter_eq|]. rewrite lookup_alter_ne by done. by destruct (m !! id).
Qed.

Lemma op_lookup op r id : op <> JCreate -> next (apply_jop r op) = next r /\ jobs (apply_jop r op) !! id = op_change op id <$> jobs r !! id.
Proof.
  destruct op as [|i line|i p|i st e|i]; intros Hne; [by destruct Hne|..]; cbn [apply_jop].
  - unfold push_log. cbv zeta. unfold op_change. destruct (is_empty (ansi_strip line)); cbn [next jobs negb]; (split; [done|]).
    + rewrite andb_false_r. by destruct (jobs r !! id).
    + by rewrite alter_at, andb_true_r.
  - split; [done|]. cbn [jobs set_phase]. by rewrite alter_at.
  - split; [done|]. cbn [jobs finish]. by rewrite alter_at.
  - unfold jobs_cancel, op_change, str_eqb. destruct (jobs r !! i) as [j|] eqn:E; cbn [next jobs snd]; (split; [done|]);
      (destruct (decide (i = id)) as [->|Ei]; [rewrite bool_decide_true by done|rewrite bool_decide_false by done]).
    + by rewrite E, lookup_insert_eq.
    + rewrite lookup_insert_ne by done. by destruct (jobs r !! id).
    + by rewrite E.
    + by destruct (jobs r !! id).
Qed.

Lemma create_lookup r id : jobs (jobs_create r).2 !! id =
  if str_eqb (job_id (next r)) id then Some (mkJob JobRunning "Starting"%str [] 0 None false) else prune_terminal (jobs r) !! id.
Proof.
  cbn. unfold str_eqb. case_bool_decide as E; [subst; by rewrite lookup_insert_eq|by rewrite lookup_insert_ne].
Qed.

Lemma create_next r : next r < u64_max -> next (jobs_create r).2 = next r + 1.
Proof. intros H. cbn. apply N.mod_small. lia. Qed.

Lemma op_ok r op : jobs_ok r -> next r + creates [op] <= u64_max ->
  jobs_ok (apply_jop r op) /\ next (apply_jop r op) = next r + creates [op].
Proof.
  intros [Hi Hl] Hn. destruct (decide (op = JCreate)) as [->|Hne].
  { cbn [creates bfilter] in Hn. change (creates [JCreate]) with 1 in *. cbn [apply_jop]. assert (next r < u64_max) as Hx by lia.
    split; [|by apply create_next]. constructor; intros id j; rewrite create_lookup, ?create_next by done; destruct (str_eqb _ id) eqn:E.
    - intros _. unfold str_eqb in E. bprop. subst id. exists (next r). split; [lia|done].
    - intros H%prune_sub%Hi. destruct H as (n & ? & ->). exists n. split; [lia|done].
    - intros [= <-]. split; [done|constructor].
    - intros H%prune_sub. by eapply Hl. }
  assert (creates [op] = 0) as -> by by destruct op. split; [|rewrite N.add_0_r; by apply (op_lookup op r [] Hne)].
  assert (forall id j, jobs (apply_jop r op) !! id = Some j -> exists j0, jobs r !! id = Some j0 /\ j = op_change op id j0) as Hj.
  { intros id j. rewrite (proj2 (op_lookup op r id Hne)). intros (j0 & Hj0 & ->)%fmap_Some. eauto. }
  constructor; intros id j H; apply Hj in H as (j0 & H0 & ->).
  - rewrite (proj1 (op_lookup op r id Hne)). by eapply Hi.
  - destruct (Hl _ _ H0) as [H1 H2]. destruct op as [|i line|i p|i st e|i]; cbn [op_change]; try destruct (str_eqb i id); try done; cbn [andb].
    destruct (negb _) eqn:E; [|done]. apply push_line_ok; [done|done|]. split; [by intros En; rewrite En in E|apply strip_loop_clean].
Qed.

Lemma creates_app a b : creates (a ++ b) = creates a + creates b.
Proof. unfold creates. rewrite bfilter_app. unfold vlen. rewrite length_app. lia. Qed.
Lemma creates_cons op b : creates (op :: b) = creates [op] + creates b.
Proof. apply (creates_app [op] b). Qed.

Lemma run_ok ops r : jobs_ok r -> next r + creates ops <= u64_max ->
  jobs_ok (jobs_run r ops) /\ next (jobs_run r ops) = next r + creates ops.
Proof.
  revert r; induction ops as [|op ops IH]; intros r Hr Hn; [by rewrite N.add_0_r|]. rewrite creates_cons in *. cbn [jobs_run foldl].
  destruct (op_ok r op Hr) as [H1 H2]; [lia|]. destruct (IH _ H1) as [H3 H4]; [lia|]. split; [done|]. unfold jobs_run in H4. rewrite H4. lia.
Qed.

Lemma default_ok : jobs_ok jobs_default.
Proof. constructor; intros id j H; cbn in H; by rewrite lookup_empty in H. Qed.

(** ** One job through a run *)

(** A job's log is the end of all its lines; only what is over the cap was dropped. *)
Definition logs_of (full : list str) (j : Job) : Prop :=
  j_log j = drop (N.to_nat (j_dropped j)) full /\ j_dropped j + vlen (j_log j) = vlen full /\
  (j_dropped j = 0 \/ vlen (j_log j) = LOG_CAP).

Lemma push_line_logs line full j : logs_of full j -> vlen (j_log j) <= LOG_CAP -> logs_of (full ++ [line]) (push_line line j).
Proof.
  intros (Hl & Ht & Hc) Hb. unfold push_line.
  assert (vlen (j_log j ++ [line]) = vlen (j_log j) + 1) as Hlen by (unfold vlen; rewrite length_app; cbn; lia).
  assert (vlen (full ++ [line]) = vlen full + 1) as Hfull by (unfold vlen; rewrite length_app; cbn; lia).
  assert (j_log j ++ [line] = drop (N.to_nat (j_dropped j)) (full ++ [line])) as Hd.
  { rewrite drop_app_le by (unfold vlen in Ht; lia). by rewrite Hl. }
  destruct (LOG_CAP <? _) eqn:E; unfold logs_of; cbn [j_log j_dropped]; bprop.
  - rewrite Hlen in E |- *. assert (vlen (j_log j) = LOG_CAP) as Hcap by lia. rewrite Hcap in Hlen |- *. replace (LOG_CAP + 1 - LOG_CAP) with 1 by lia.
    assert (vlen (drop (N.to_nat 1) (j_log j ++ [line])) = LOG_CAP) as Hv by (unfold vlen in *; rewrite length_drop; lia).
    rewrite Hv. split; [|split; [lia|by right]]. rewrite Hd, drop_drop. f_equal. lia.
  - split; [done|]. split; [lia|]. left. lia.
Qed.

(** The state a job is in after some operations. *)
Definition state_after (id : str) (ops : list jop) (s : JobState) : JobState :=
  foldl (fun s op => match op with JFinish i st _ => if str_eqb i id then st else s | _ => s end) s ops.

Lemma op_tracks r op id full j : jobs_ok r -> next r + creates [op] <= u64_max ->
  jobs r !! id = Some j -> logs_of full j ->
  match jobs (apply_jop r op) !! id with
  | Some j' => logs_of (full ++ pushed id [op]) j' /\ j_state j' = state_after id [op] (j_state j)
  | None => op = JCreate /\ j_state j <> JobRunning
  end.
Proof.
  intros Hr Hn Hj Hl. destruct (decide (op = JCreate)) as [->|Hne].
  - cbn [apply_jop]. rewrite create_lookup. destruct (str_eqb _ id) eqn:E.
    { unfold str_eqb in E. bprop. destruct (jo_ids r Hr _ _ Hj) as (n & Hlt & Hid). rewrite <- E in Hid. apply job_id_inj in Hid. lia. }
    destruct (prune_terminal (jobs r) !! id) as [j'|] eqn:Ep.
    + apply prune_sub in Ep. rewrite Hj in Ep. injection Ep as <-. cbn. by rewrite app_nil_r.
    + split; [done|]. eapply prune_gone in Ep; [|done]. unfold is_terminal in Ep. by bprop.
  - rewrite (proj2 (op_lookup op r id Hne)), Hj. cbn [fmap option_fmap option_map].
    destruct (jo_logs r Hr _ _ Hj) as [Hb _].
    destruct op as [|i line|i p|i st e|i]; [by destruct Hne|..]; unfold state_after, pushed; cbn [op_change foldl omap list_omap];
      try destruct (str_eqb i id); cbn [andb j_state]; rewrite ?app_nil_r; try done.
    destruct (negb _); rewrite ?app_nil_r; [|done]. split; [by apply push_line_logs|]. unfold push_line. by destruct (_ <? _).
Qed.

Lemma pushed_app id a b : pushed id (a ++ b) = pushed id a ++ pushed id b.
Proof. apply omap_app. Qed.
Lemma pushed_cons id op b : pushed id (op :: b) = pushed id [op] ++ pushed id b.
Proof. apply (pushed_app id [op] b). Qed.
Lemma state_after_app id a b s : state_after id (a ++ b) s = state_after id b (state_after id a s).
Proof. apply foldl_app. Qed.

Lemma gone_stays ops r n : jobs_ok r -> next r + creates ops <= u64_max -> n < next r -> jobs r !! job_id n = None ->
  jobs (jobs_run r ops) !! job_id n = None.
Proof.
  revert r; induction ops as [|op ops IH]; intros r Hr Hn Hlt Hj; [done|]. rewrite creates_cons in Hn. cbn [jobs_run foldl].
  destruct (op_ok r op Hr) as [H1 H2]; [lia|]. apply IH; [done|lia|lia|]. destruct (decide (op = JCreate)) as [->|Hne].
  - cbn [apply_jop]. rewrite create_lookup. destruct (str_eqb _ _) eqn:E; [unfold str_eqb in E; bprop; apply job_id_inj in E; lia|].
    destruct (prune_terminal _ !! _) as [j|] eqn:Ep; [|done]. apply prune_sub in Ep. congruence.
  - by rewrite (proj2 (op_lookup op r _ Hne)), Hj.
Qed.

Lemma run_tracks ops r id full j : jobs_ok r -> next r + creates ops <= u64_max ->
  jobs r !! id = Some j -> logs_of full j ->
  match jobs (jobs_run r ops) !! id with
  | Some j' => logs_of (full ++ pushed id ops) j' /\ j_state j' = state_after id ops (j_state j)
  | None => exists p q, ops = p ++ q /\ state_after id p (j_state j) <> JobRunning
  end.
Proof.
  revert r full j; induction ops as [|op ops IH]; intros r full j Hr Hn Hj Hl.
  { cbn. rewrite Hj, app_nil_r. done. }
  rewrite creates_cons in Hn. cbn [jobs_run foldl]. destruct (op_ok r op Hr) as [H1 H2]; [lia|].
  pose proof (op_tracks r op id full j Hr ltac:(lia) Hj Hl) as Ht. destruct (jobs (apply_jop r op) !! id) as [j1|] eqn:E1.
  - destruct Ht as [Hl1 Hs1]. specialize (IH _ _ j1 H1 ltac:(lia) E1 Hl1). unfold jobs_run in IH. rewrite pushed_cons, app_assoc.
    change (op :: ops) with ([op] ++ ops). rewrite state_after_app, <- Hs1. destruct (jobs (foldl apply_jop _ ops) !! id) as [j'|]; [done|].
    destruct IH as (p & q & -> & Hp). exists (op :: p), q. split; [done|]. change (op :: p) with ([op] ++ p). by rewrite state_after_app, <- Hs1.
  - destruct Ht as [-> Hs]. destruct (jo_ids r Hr _ _ Hj) as (n & Hlt & ->). pose proof (gone_stays ops (apply_jop r JCreate) n H1) as Hg.
    unfold jobs_run in Hg. rewrite Hg; [|lia..|done]. by exists [], (JCreate :: ops).
Qed.

(** The newest lines that a log can hold. *)
Definition newest (lines : list str) : list str := drop (length lines - N.to_nat LOG_CAP) lines.

Lemma newest_all lines : vlen lines <= LOG_CAP -> newest lines = lines.
Proof. intros Hl. unfold newest. replace (length lines - N.to_nat LOG_CAP)%nat with 0%nat by (unfold vlen in Hl; lia). done. Qed.

(** What a poll from the cursor of the last one returns. *)
Lemma poll_newest full new j : logs_of (full ++ new) j -> vlen (j_log j) <= LOG_CAP ->
  drop (N.to_nat (N.min (vlen full - j_dropped j) (vlen (j_log j)))) (j_log j) = newest new.
Proof.
  intros (Hlog & Htot & Hcap) Hb. unfold newest. rewrite Hlog at 2. rewrite drop_drop.
  assert (vlen (full ++ new) = vlen full + vlen new) as Hlen by (unfold vlen; rewrite length_app; lia).
  assert (forall k, (k <= length new)%nat -> drop (length full + k) (full ++ new) = drop k new) as Hd.
  { intros k _. rewrite drop_app. rewrite drop_ge by lia. cbn. f_equal. lia. }
  rewrite <- (Hd (length new - N.to_nat LOG_CAP)%nat) by lia. f_equal. unfold vlen in *. lia.
Qed.

(** What a client that keeps polling gets. *)
Lemma client_tracks chunks r id full j : jobs_ok r -> next r + creates (concat chunks) <= u64_max ->
  jobs r !! id = Some j -> logs_of full j ->
  match client r id (vlen full) (j_state j) chunks with
  | Some (log, last) => log = concat ((fun ch => newest (pushed id ch)) <$> chunks) /\ last = state_after id (concat chunks) (j_state j)
  | None => exists p q, concat chunks = p ++ q /\ state_after id p (j_state j) <> JobRunning
  end.
Proof.
  revert r full j; induction chunks as [|ops chunks IH]; intros r full j Hr Hn Hj Hl; [done|].
  cbn [concat] in Hn |- *. rewrite creates_app in Hn. cbn [client].
  destruct (run_ok ops r Hr) as [H1 H2]; [lia|]. pose proof (run_tracks ops r id full j Hr ltac:(lia) Hj Hl) as Ht.
  unfold poll. destruct (jobs (jobs_run r ops) !! id) as [j1|] eqn:E1; [|destruct Ht as (p & q & -> & Hp); exists p, (q ++ concat chunks); by rewrite app_assoc].
  destruct Ht as [Hl1 Hs1]. destruct (jo_logs _ H1 _ _ E1) as [Hb _]. rewrite (poll_newest full (pushed id ops) j1 Hl1 Hb).
  pose proof Hl1 as (_ & Htot & _). rewrite Htot.
  specialize (IH _ _ j1 H1 ltac:(lia) E1 Hl1). rewrite state_after_app, <- Hs1.
  destruct (client _ _ _ _ chunks) as [[more last]|]; cbn.
  - destruct IH as [-> ->]. done.
  - destruct IH as (p & q & -> & Hp). exists (ops ++ p), q. rewrite app_assoc. split; [done|]. by rewrite state_after_app, <- Hs1.
Qed.

(** A client that never falls behind misses nothing. *)
Lemma newest_concat id chunks : Forall (fun ch => vlen (pushed id ch) <= LOG_CAP) chunks ->
  concat ((fun ch => newest (pushed id ch)) <$> chunks) = pushed id (concat chunks).
Proof. induction 1 as [|ch chunks Hc _ IH]; [done|]. cbn [fmap list_fmap concat]. by rewrite pushed_app, newest_all, IH. Qed.

(** ** The tasks *)

Lemma own_app id a b : own id (a ++ b) = own id a ++ own id b.
Proof. apply bfilter_app. Qed.

Lemma state_after_own id ops s : state_after id ops s = state_after id (own id ops) s.
Proof.
  revert s; induction ops as [|op ops IH]; intros s; [done|]. unfold own. cbn [bfilter]. unfold state_after in *. cbn [foldl].
  destruct op as [|i line|i p|i st e|i]; cbn [concerns]; try destruct (str_eqb i id) eqn:E; cbn [foldl]; rewrite ?E; apply IH.
Qed.

Lemma pushed_own id ops : pushed id ops = pushed id (own id ops).
Proof.
  induction ops as [|op ops IH]; [done|]. rewrite pushed_cons. unfold own. cbn [bfilter].
  destruct (concerns id op) eqn:E; [by rewrite IH, (pushed_cons id op (bfilter (concerns id) ops))|]. rewrite IH.
  destruct op as [|i line|i p|i st e|i]; cbn [concerns] in E; cbn; rewrite ?E; done.
Qed.

Lemma merged_Forall {A} (P : A -> Prop) a b c : merged a b c -> Forall P a -> Forall P b -> Forall P c.
Proof.
  induction 1 as [|x a b c _ IH|x a b c _ IH]; intros Ha Hb; [done|..].
  - apply Forall_cons in Ha as [? ?]. constructor; auto.
  - apply Forall_cons in Hb as [? ?]. constructor; auto.
Qed.

Definition feeds (id : str) (op : jop) : Prop := (exists line, op = JPush id line) \/ (exists p, op = JPhase id p).

Lemma finish_ends id e : exists st err, finish_op id e = JFinish id st err /\ st <> JobRunning.
Proof. destruct e; cbn; eauto 10. Qed.

Lemma task_shape id script : job_task id script ->
  exists pre st err, script = pre ++ [JFinish id st err] /\ st <> JobRunning /\ Forall (feeds id) pre.
Proof.
  assert (forall p pre e, Forall (feeds id) pre -> exists pre' st err, JPhase id p :: pre ++ [finish_op id e] = pre' ++ [JFinish id st err] /\
    st <> JobRunning /\ Forall (feeds id) pre') as H.
  { intros p pre e Hp. destruct (finish_ends id e) as (st & err & -> & Hs). exists (JPhase id p :: pre), st, err.
    split; [done|]. split; [done|]. constructor; [right; eauto|done]. }
  assert (forall lines, Forall (feeds id) (JPush id <$> lines)) as Hl.
  { intros lines. apply Forall_fmap. apply Forall_true. intros l. left. eauto. }
  assert (forall lines, Forall (feeds id) (drain_lines id lines)) as Hd.
  { intros lines. apply Forall_forall. intros op. unfold drain_lines. rewrite list_elem_of_bind. intros (line & Hop & _).
    apply elem_of_app in Hop as [Hop|Hop%list_elem_of_singleton]; [|left; eauto].
    destruct (find_auth_url line); [apply list_elem_of_singleton in Hop; left; eauto|by apply elem_of_nil in Hop]. }
  intros [name lines result|[[lines result]|]|e logged|out err drained e logged Hm].
  - by apply H.
  - by apply H.
  - by apply (H _ [] WasCancelled).
  - by apply (H _ [] (FailedWith _)).
  - apply H. by eapply merged_Forall.
Qed.

Lemma feeds_state id ops s : Forall (feeds id) ops -> state_after id ops s = s.
Proof. induction 1 as [|op ops [(line & ->)|(p & ->)] _ IH]; [done|..]; exact IH. Qed.

(** A task is over only when all of it was done. *)
Lemma task_over id script ops rest : job_task id script -> script = own id ops ++ rest ->
  state_after id ops JobRunning <> JobRunning -> own id ops = script.
Proof.
  intros (pre & st & err & -> & Hst & Hf)%task_shape E Hs. rewrite state_after_own in Hs.
  destruct rest as [|x rest _] using rev_ind; [by rewrite app_nil_r in E|].
  rewrite app_assoc in E. apply app_inj_tail in E as [-> _]. apply Forall_app in Hf as [Hf _]. by rewrite feeds_state in Hs.
Qed.

(** ** Theorems *)

(** C30. A polling client gets a job's output.  For every task of the daemon that runs as a job (tool and cloudflared
    installs, the Cloudflare login), whatever the other jobs and clients do in between: each poll with the cursor the
    client was given returns the lines stored since its last poll, each once and in order, or the newest [LOG_CAP] of
    them when there were more; so a client that never falls further behind than that receives exactly the lines stored
    so far, however many there are.  When it is told that the job ended, everything the task stored came before that
    poll; and the job is unknown to it only after it ended, once newer jobs have pushed it out of the registry. *)
Theorem job_output_delivered ops script chunks
    (C : creates (ops ++ JCreate :: concat chunks) <= u64_max)
    (T : job_task (jobs_create (jobs_run jobs_default ops)).1 script)
    (O : own (jobs_create (jobs_run jobs_default ops)).1 (concat chunks) `prefix_of` script) :
  let '(id, r) := jobs_create (jobs_run jobs_default ops) in
  match client r id 0 JobRunning chunks with
  | Some (log, state) =>
      log = concat ((fun ch => newest (pushed id ch)) <$> chunks) /\
      (Forall (fun ch => vlen (pushed id ch) <= LOG_CAP) chunks -> log = pushed id (concat chunks)) /\
      (state <> JobRunning -> own id (concat chunks) = script /\ pushed id (concat chunks) = pushed id script)
  | None => own id (concat chunks) = script
  end.
Proof.
  rewrite creates_app, creates_cons in C. change (creates [JCreate]) with 1 in C.
  destruct (run_ok ops jobs_default default_ok) as [H1 H2]; [cbn [next jobs_default]; lia|]. cbn [next jobs_default] in H2.
  set (r0 := jobs_run jobs_default ops) in *. destruct (op_ok r0 JCreate H1) as [H3 H4]; [change (creates [JCreate]) with 1; lia|].
  change (creates [JCreate]) with 1 in H4. cbn [apply_jop] in H3, H4. destruct (jobs_create r0) as [id r] eqn:Ec. cbn [fst snd] in *.
  assert (jobs r !! id = Some (mkJob JobRunning "Starting"%str [] 0 None false)) as Hj.
  { pose proof (create_lookup r0 id) as Hc. rewrite Ec in Hc. cbn [snd] in Hc. rewrite Hc. apply (f_equal fst) in Ec. cbn [fst] in Ec. rewrite <- Ec.
    unfold jobs_create. cbn [fst]. unfold str_eqb. by rewrite bool_decide_true. }
  pose proof (client_tracks chunks r id [] _ H3 ltac:(lia) Hj) as Hc. cbn [j_state] in Hc. change (vlen []) with 0 in Hc.
  specialize (Hc ltac:(split; [done|split; [done|by left]])). destruct O as (rest & O).
  destruct (client r id 0 JobRunning chunks) as [[log state]|].
  - destruct Hc as [-> ->]. split; [done|]. split; [apply newest_concat|]. intros Hs.
    pose proof (task_over id script _ rest T O Hs) as E. split; [done|]. by rewrite pushed_own, E.
  - destruct Hc as (p & q & Hpq & Hs). rewrite Hpq, own_app in O |- *. rewrite <- app_assoc in O.
    pose proof (task_over id script p _ T O Hs) as E. rewrite E in O. destruct (own id q); [by rewrite app_nil_r|].
    apply (f_equal length) in O. rewrite !length_app in O. cbn in O. lia.
Qed.

(** C31. The registry stays bounded and forgets the right jobs.  After any operations: each log has at most [LOG_CAP]
    lines, none blank and none with an escape character; a new job gets an id no other has; creating it keeps every
    running job as it is, leaves at most [TERMINAL_CAP] ended ones, and an ended job it forgets was created before
    every ended job it keeps. *)
Theorem registry_bounded ops (C : creates ops < u64_max) :
  let r := jobs_run jobs_default ops in
  let '(new, r') := jobs_create r in
  (forall id j, jobs r !! id = Some j -> vlen (j_log j) <= LOG_CAP /\ Forall (fun l => l <> [] /\ ESC ∉ l) (j_log j)) /\
  jobs r !! new = None /\
  (forall id j, jobs r !! id = Some j -> is_terminal j = false -> jobs r' !! id = Some j) /\
  vlen (terminal_ids (jobs r')) <= TERMINAL_CAP /\
  (forall m n j k, jobs r !! job_id m = Some j -> jobs r' !! job_id m = None ->
     jobs r' !! job_id n = Some k -> is_terminal k = true -> is_terminal j = true /\ m < n).
Proof.
  intros r. destruct (run_ok ops jobs_default default_ok) as [H1 H2]; [cbn; lia|]. fold r in H1, H2. cbn [next jobs_default] in H2.
  destruct (jobs_create r) as [new r'] eqn:Ec. pose proof (create_lookup r) as Hl. rewrite Ec in Hl. cbn [snd] in Hl.
  assert (new = job_id (next r)) as Hnew by (apply (f_equal fst) in Ec; by cbn in Ec).
  assert (jobs r !! new = None) as Hfresh.
  { destruct (jobs r !! new) as [j|] eqn:E; [|done]. apply (jo_ids r H1) in E as (n & Hlt & E). rewrite Hnew in E. apply job_id_inj in E. lia. }
  assert (forall id, id <> new -> jobs r' !! id = prune_terminal (jobs r) !! id) as Ho.
  { intros id Hne. rewrite Hl. unfold str_eqb. rewrite bool_decide_false; [done|]. by rewrite <- Hnew. }
  assert (exists j0, jobs r' !! new = Some j0 /\ is_terminal j0 = false) as (j0 & Hj0 & Ht0).
  { rewrite Hl, <- Hnew. unfold str_eqb. rewrite bool_decide_true by done. eexists. split; done. }
  split_and!.
  - apply (jo_logs r H1).
  - done.
  - intros id j Hj Hr. rewrite Ho by congruence. destruct (prune_terminal (jobs r) !! id) as [j'|] eqn:Ep.
    + apply prune_sub in Ep. congruence.
    + pose proof (prune_gone _ _ _ Hj Ep). congruence.
  - assert (terminal_ids (jobs r') ≡ₚ terminal_ids (prune_terminal (jobs r))) as Hp.
    { apply NoDup_Permutation; [apply terminal_ids_NoDup..|]. intros id. rewrite !elem_of_terminal_ids. destruct (decide (id = new)) as [->|Hne].
      - rewrite Hj0. split; intros (j & Hj & Ht); [congruence|]. apply prune_sub in Hj. congruence.
      - by rewrite Ho. }
    unfold vlen. rewrite Hp, terminal_ids_prune, length_drop, merge_sort_Permutation. unfold vlen. lia.
  - intros m n j k Hm Hgone Hn Hk. assert (job_id m <> new) as Hm' by congruence. assert (job_id n <> new) as Hn' by congruence.
    assert (m <> n) as Hmn by (intros ->; congruence). rewrite Ho in Hgone by done. rewrite Ho in Hn by done. split; [by eapply prune_gone|].
    assert (job_id m ∈ victims (jobs r)) as Hv by (rewrite prune_lookup in Hgone; case_bool_decide; [done|congruence]).
    pose proof (victims_oldest (jobs r) (job_id m) (job_id n) Hv) as Hs.
    assert (job_id n ∈ terminal_ids (prune_terminal (jobs r))) as Ht by (apply elem_of_terminal_ids; eauto). specialize (Hs Ht).
    apply (jo_ids r H1) in Hm as (m' & Hlm & E%job_id_inj). subst m'. apply prune_sub, (jo_ids r H1) in Hn as (n' & Hln & E%job_id_inj). subst n'.
    unfold suffix_le in Hs. rewrite !id_suffix_id in Hs by lia. lia.
Qed.

(** ** Witnesses *)

Definition demo_task : list jop :=
  install_tool_ops (job_id 0) "Node.js"%str ["fetching"%str; ESC :: "[36mdone"%str ++ ESC :: "[0m"%str; ESC :: "[?25l"%str] Done.
Definition demo_chunks : list (list jop) := [take 2 demo_task; [JCreate; JPush (job_id 1) "other"%str]; drop 2 demo_task].

Lemma job_output_delivered_witness :
  let '(id, r) := jobs_create (jobs_run jobs_default []) in
  client r id 0 JobRunning demo_chunks = Some (["fetching"%str; "done"%str], JobSucceeded) /\
  match client r id 0 JobRunning demo_chunks with
  | Some (log, state) =>
      log = concat ((fun ch => newest (pushed id ch)) <$> demo_chunks) /\
      (Forall (fun ch => vlen (pushed id ch) <= LOG_CAP) demo_chunks -> log = pushed id (concat demo_chunks)) /\
      (state <> JobRunning -> own id (concat demo_chunks) = demo_task /\ pushed id (concat demo_chunks) = pushed id demo_task)
  | None => own id (concat demo_chunks) = demo_task
  end.
Proof.
  split; [vm_compute; reflexivity|].
  apply (job_output_delivered [] demo_task demo_chunks).
  - vm_compute. discriminate.
  - apply task_tool.
  - exists []. vm_compute. reflexivity.
Defined.

(** 66 jobs, of which the first 65 ended: creating the next forgets the first. *)
Definition demo_ops : list jop :=
  repeat JCreate 66 ++ ((fun n => JFinish (job_id (N.of_nat n)) JobSucceeded None) <$> seq 0 65).

Lemma registry_bounded_witness :
  let r := jobs_run jobs_default demo_ops in
  creates demo_ops < u64_max /\ vlen (terminal_ids (jobs r)) = 65 /\ vlen (terminal_ids (jobs (jobs_create r).2)) <= TERMINAL_CAP /\
  jobs (jobs_create r).2 !! job_id 0 = None /\ jobs (jobs_create r).2 !! job_id 65 <> None.
Proof.
  intros r. assert (creates demo_ops < u64_max) as C by (vm_compute; reflexivity). split; [exact C|].
  pose proof (registry_bounded demo_ops C) as H. cbv zeta in H. fold r in H. unfold jobs_create in H. destruct H as (_ & _ & _ & H & _).
  split; [vm_compute; reflexivity|]. split; [exact H|]. split; [vm_compute; reflexivity|vm_compute; discriminate].
Defined.
