(* ===== verification/Report.v ===== *)
(** * What the daemon reports and the client shows

    The read-only replies of [src/bin/orckerd/src/ipc_server.rs] about sites, projects,
    proxies, rules, groups and domain collisions, and what the client derives from them
    in [src/bin/orcker/src/map.rs] ([site_domains], [render_domains] and the rule
    filters). *)

From stdpp Require Import sorting.
From S2P Require Import Prelude RustStr RustMap RustText RustPath CoreError DnsLabel Tld Domain Host Php Net Site Proxy Router Project Settings Config Migrate Wire Serialize SiteDomains Descriptor Ipc Mutate Link Scan Daemon LanSetup DaemonInv DaemonClaims Restart Gateway Dns.

Open Scope N_scope.

(** ** The replies *)

Record SiteEntry := mkSiteEntry {
  se_site : Site; se_is_wordpress : bool; se_primary_domain : option str; se_domains : list str;
  se_apex_shadowed_by : option str; se_uses_front_controller : bool; se_is_laravel : bool }.
Record ProxyEntry := mkProxyEntry {
  pre_name : str; pre_target : str; pre_secure : bool; pre_primary_domain : option str; pre_domains : list str }.
Record RuleEntry := mkRuleEntry { re_site : str; re_prefix : str; re_target : str }.
Record DomainShadow := mkShadow { sh_site : str; sh_shadowed_by : str }.
#[export] Instance DomainShadow_eq_dec : EqDecision DomainShadow.
Proof. solve_decision. Defined.

(** [join] *)
Fixpoint join (sep : str) (ws : list str) : str :=
  match ws with
  | [] => []
  | w :: rest => match rest with [] => w | _ => w ++ sep ++ join sep rest end
  end.

(** [SiteRouter::iter]: in name order. *)
Definition router_iter (r : SiteRouter) : list Site := snd <$> btree_iter (r_sites r).

Definition list_site (s : DaemonState) (site : Site) : SiteEntry :=
  let router := ds_router s in
  let tld := Tld_str (cfg_tld (r_config router)) in
  let name := site_name site in
  let is_wordpress := default false (ds_wordpress s !! name) in
  let '(primary_domain, domains) := site_entry_domains router name tld in
  mkSiteEntry site is_wordpress primary_domain domains (apex_shadowed_by router name)
    (uses_front_controller site is_wordpress) (default false (ds_laravel s !! name)).
Definition list_sites (s : DaemonState) : list SiteEntry := list_site s <$> router_iter (ds_router s).

Definition list_parked (s : DaemonState) : list str := parked_paths (ds_config s).

Definition name_le (a b : ProjectEntry) : Prop := str_le (pe_name a) (pe_name b).
#[export] Instance name_le_dec a b : base.Decision (name_le a b).
Proof. unfold name_le. apply _. Defined.

Definition project_entries (fs : Fs) (config : Config) (router : SiteRouter) : list ProjectEntry :=
  merge_sort name_le
    ((fun p =>
        let yml := raw ← fs_read_to_string fs (path_join (project_root p) FILE_NAME); result_ok (parse raw) in
        project_entry p yml (project_domain router (project_name p) (Tld_str (cf_tld config)))) <$> cf_projects config).

(** The site a parked rule set is shown under: the first with its document root. *)
Definition parked_site_of (r : SiteRouter) (docroot : str) : str :=
  match find_first (fun x => str_eqb (site_document_root x) docroot) (router_iter r) with
  | Some x => site_name x
  | None => docroot
  end.

Definition rule_entries {A} (entry : str -> A -> RuleEntry) (r : SiteRouter) (linked parked : gmap str (list A)) : list RuleEntry :=
  (btree_iter linked ≫= fun e => entry e.1 <$> e.2) ++
  (btree_iter parked ≫= fun e => entry (parked_site_of r e.1) <$> e.2).

Definition list_proxies (s : DaemonState) : list ProxyEntry * list RuleEntry :=
  let cfg := ds_config s in let router := ds_router s in
  ((fun p =>
      let '(primary_domain, domains) :=
        match router_proxy router (proxy_name p) with
        | Some _ => site_entry_domains router (proxy_name p) (Tld_str (cf_tld cfg))
        | None => (None, [])
        end in
      mkProxyEntry (proxy_name p) (fmt (proxy_target p)) (proxy_secure p) primary_domain domains) <$> cf_proxies cfg,
   rule_entries (fun site r => mkRuleEntry site (rule_prefix r) (fmt (rule_target r))) router
     (proxy_rules_linked (cf_proxy_rules cfg)) (proxy_rules_parked (cf_proxy_rules cfg))).

Definition list_routes (s : DaemonState) : list RuleEntry :=
  let cfg := ds_config s in
  rule_entries (fun site r => mkRuleEntry site (route_prefix r) (route_target r)) (ds_router s)
    (route_rules_linked (cf_route_rules cfg)) (route_rules_parked (cf_route_rules cfg)).

Definition list_groups (s : DaemonState) : list str * gmap str str :=
  (groups_order (cf_groups (ds_config s)), groups_members (cf_groups (ds_config s))).

Definition domain_shadows (cfg : Config) (sites : list Site) : list DomainShadow :=
  foldl (fun out collision =>
    foldl (fun out loser =>
      let entry := mkShadow loser (col_winner collision) in
      if bool_decide (entry ∈ out) then out else out ++ [entry]) out (col_losers collision)) [] (collisions cfg sites).

(** ** The client *)

Definition site_domains (entry : SiteEntry) (tld : str) : str * list str :=
  let default_ := site_name (se_site entry) ++ "."%str ++ tld in
  (default default_ (se_primary_domain entry), if is_empty (se_domains entry) then [default_] else se_domains entry).

Definition select_sites (sites : list SiteEntry) (filter : option str) : list SiteEntry :=
  match filter with
  | Some f => bfilter (fun e => str_eqb (site_name (se_site e)) (to_ascii_lowercase f)) sites
  | None => sites
  end.

Definition select_routes (rules : list RuleEntry) (filter : option str) : list RuleEntry :=
  match filter with
  | Some f => bfilter (fun r => str_eqb (re_site r) (to_ascii_lowercase f)) rules
  | None => rules
  end.

(** A row of [orcker domain list]. *)
Definition domains_row (tld : str) (e : SiteEntry) : str :=
  let '(primary, domains) := site_domains e tld in
  let list := join ", "%str ((fun d => if str_eqb d primary then d ++ " (primary)"%str else d) <$> domains) in
  site_name (se_site e) ++ ": "%str ++ list ++
  match se_apex_shadowed_by e with Some by_ => "  [apex shadowed by "%str ++ by_ ++ "]"%str | None => [] end.

Inductive Rendered := RenderOk (stdout : str) | RenderErr (stderr : str).

Definition render_domains (sites : list SiteEntry) (tld : str) (filter : option str) : Rendered :=
  let selected := select_sites sites filter in
  match filter with
  | Some f => if is_empty selected then RenderErr f else RenderOk (join [NL] (domains_row tld <$> selected))
  | None => if is_empty selected then RenderOk "No sites yet."%str else RenderOk (join [NL] (domains_row tld <$> selected))
  end.

(** ** Sites *)

Lemma router_iter_elem r s : s ∈ router_iter r <-> exists n, r_sites r !! n = Some s.
Proof.
  unfold router_iter. rewrite list_elem_of_fmap. split.
  - intros ([n x] & -> & Hin%elem_of_btree_iter). eauto.
  - intros (n & Hn). exists (n, s). split; [done|]. by apply elem_of_btree_iter.
Qed.

Lemma fqdn_name d t : dns_name (Domain_str d) = true -> dns_name (Tld_str t) = true -> dns_name (to_fqdn d (Tld_str t)) = true.
Proof.
  intros Hd Ht. by apply dns_name_app.
Qed.

(** An exact domain of a site is where the site answers. *)
Lemma exact_resolves cfg sites d n site : dns_name (Domain_str d) = true -> dns_name (Tld_str (cf_tld cfg)) = true ->
  domain_owner (build cfg sites) d = Some n -> r_sites (build cfg sites) !! n = Some site ->
  resolve_route (build cfg sites) (to_fqdn d (Tld_str (cf_tld cfg))) = Some (RoutePhp site).
Proof.
  intros Hd Ht Ho Hs. destruct (build_planned cfg sites) as (W & _ & Htld). unfold resolve_route.
  rewrite normalise_dns_name by by apply fqdn_name. cbv zeta. rewrite (wf_config _ W), Htld.
  assert (str_eqb (to_fqdn d (Tld_str (cf_tld cfg))) (Tld_str (cf_tld cfg)) = false) as ->.
  { unfold str_eqb. apply bool_decide_eq_false. intros E. apply (f_equal length) in E. unfold to_fqdn in E. rewrite !length_app in E. cbn in E. lia. }
  rewrite (proj2 (strip_suffix_Some _ _ (Domain_str d))) by done. cbn [mbind option_bind].
  pose proof (dns_name_ne _ Hd) as Hne. rewrite (proj2 (is_empty_false _) Hne).
  unfold domain_owner, index_of in Ho. destruct d as [d]. cbn [Domain_str] in *. rewrite dns_name_not_wildcard in Ho by done.
  rewrite Ho. unfold route_for. by rewrite Hs.
Qed.

(** So is every host one label below a wildcard of the site that nobody owns itself. *)
Lemma wildcard_resolves cfg sites label rest n site :
  dns_label label = true -> dns_name rest = true -> dns_name (Tld_str (cf_tld cfg)) = true ->
  domain_owner (build cfg sites) (mkDomain ("*."%str ++ rest)) = Some n ->
  domain_owner (build cfg sites) (mkDomain (label ++ "."%str ++ rest)) = None ->
  r_sites (build cfg sites) !! n = Some site ->
  resolve_route (build cfg sites) (label ++ "."%str ++ rest ++ "."%str ++ Tld_str (cf_tld cfg)) = Some (RoutePhp site).
Proof.
  intros Hl Hr Ht Ho Hno Hs. destruct (build_planned cfg sites) as (W & _ & Htld).
  assert (dns_name (label ++ "."%str ++ rest) = true) as Hsub by (by apply dns_name_app; [apply dns_label_name|]).
  assert (label ++ "."%str ++ rest ++ "."%str ++ Tld_str (cf_tld cfg) =
          (label ++ "."%str ++ rest) ++ "."%str ++ Tld_str (cf_tld cfg)) as -> by (by rewrite <- !app_assoc).
  set (sub := label ++ "."%str ++ rest) in *. unfold resolve_route.
  rewrite normalise_dns_name by by apply dns_name_app. cbv zeta. rewrite (wf_config _ W), Htld.
  assert (str_eqb (sub ++ "."%str ++ Tld_str (cf_tld cfg)) (Tld_str (cf_tld cfg)) = false) as ->.
  { unfold str_eqb. apply bool_decide_eq_false. intros E. apply (f_equal length) in E. rewrite !length_app in E. cbn in E. lia. }
  rewrite (proj2 (strip_suffix_Some _ _ sub)) by done. cbn [mbind option_bind].
  rewrite (proj2 (is_empty_false _) (dns_name_ne _ Hsub)).
  assert (r_exact (build cfg sites) !! sub = None) as ->.
  { unfold domain_owner, index_of in Hno. rewrite dns_name_not_wildcard in Hno by done. exact Hno. }
  assert (split_once "."%ch sub = Some (label, rest)) as ->.
  { unfold sub. change ("."%str ++ rest) with ("."%ch :: rest). apply split_once_complete. by apply dns_label_no_char. }
  assert (r_wildcards (build cfg sites) !! ("*."%str ++ rest) = Some n) as -> by exact Ho.
  unfold route_for. by rewrite Hs.
Qed.

(** Only the domains somebody owns lead anywhere. *)
Lemma resolved_owned r h route : wf r -> resolve_route r h = Some route ->
  exists d n, domain_owner r d = Some n /\ route_for r n = Some route.
Proof.
  intros W. unfold resolve_route. destruct (normalise h) as [host|]; [|done]. cbv zeta. destruct (str_eqb host _); [done|].
  destruct (strip_suffix _ host) as [sub|]; [|done]. cbn [mbind option_bind]. destruct (is_empty sub); [done|].
  destruct (r_exact r !! sub) as [n|] eqn:Ee.
  - intros Hr. exists (mkDomain sub), n. split; [|done]. unfold domain_owner, index_of.
    destruct (is_wildcard (mkDomain sub)) eqn:Ew; [by rewrite (wf_exact r W) in Ee|done].
  - destruct (split_once _ sub) as [[l rest]|]; [|done]. destruct (r_wildcards r !! _) as [n|] eqn:E; [|done].
    intros Hr. exists (mkDomain ("*."%str ++ rest)), n. split; [exact E|done].
Qed.

(** What the daemon leaves out the client puts back. *)
Lemma shown_domains r n tld wp la s : dns_name n = true -> default [] (router_effective_domains r n) <> [] -> site_name s = n ->
  let '(p, ds) := site_entry_domains r n tld in
  site_domains (mkSiteEntry s wp p ds (apex_shadowed_by r n) (uses_front_controller s wp) la) tld =
  (match primary_domain r n with Some d => to_fqdn d tld | None => n ++ "."%str ++ tld end,
   (fun d => to_fqdn d tld) <$> default [] (router_effective_domains r n)).
Proof.
  intros Hn Hne Hs. unfold site_entry_domains. cbv zeta. set (eff := default [] _) in *.
  assert (to_fqdn (Domain_apex n) tld = n ++ "."%str ++ tld) as Hapex by (unfold to_fqdn; cbn; by rewrite dns_name_lower).
  destruct (bool_decide (eff = [Domain_apex n]) && _) eqn:E; unfold site_domains; cbn [se_site se_domains se_primary_domain]; rewrite Hs.
  - bprop. match goal with H : eff = _ |- _ => rewrite H end. match goal with H : primary_domain r n = _ |- _ => rewrite H end.
    cbn [default fmap list_fmap is_empty]. by rewrite Hapex.
  - destruct eff as [|d ds]; [done|]. cbn [fmap list_fmap is_empty]. f_equal.
    destruct (primary_domain r n) as [p|]; [|done]. destruct (bool_decide (p = Domain_apex n)) eqn:Ep; [|done]. bprop. subst p. by rewrite Hapex.
Qed.

Lemma in_list_sites s e : e ∈ list_sites s <-> exists n site, r_sites (ds_router s) !! n = Some site /\ e = list_site s site.
Proof.
  unfold list_sites. rewrite list_elem_of_fmap. split.
  - intros (site & -> & (n & Hn)%router_iter_elem). eauto.
  - intros (n & site & Hn & ->). exists site. split; [done|]. apply router_iter_elem. eauto.
Qed.

(** What the states the daemon reaches have in common, for the reports. *)
Record reported (cfg : Config) (sites : list Site) (s : DaemonState) : Prop := mkReported {
  rp_config : ds_config s = cfg;
  rp_storable : storable cfg;
  rp_router : ds_router s = build cfg sites;
  rp_names x : x ∈ sites -> dns_name (site_name x) = true;
}.

Lemma reached_reported `{Json J} toml_from_str try_into path read fs bound_http bound_https lan_ip s0 s :
  bring_up fs (Config_load toml_from_str try_into path read) bound_http bound_https lan_ip = Ok s0 -> rtc daemon_step s0 s ->
  exists sites, reported (ds_config s) sites s.
Proof.
  intros B R. destruct (service_reachable_inv _ _ _ _ _ _ _ _ _ _ B R) as [S _].
  assert (daemon_inv s) as I.
  { apply boot_inv in B. clear S. induction R as [s|s s1 s2 Hs _ IH]; [done|]. apply IH. by eapply step_inv. }
  destruct (di_router s I) as (parked & Hp & E). exists (parked ++ cf_linked (ds_config s)). constructor; [done|done|done|].
  intros x [Hx|Hx]%elem_of_app.
  - rewrite Forall_forall in Hp. apply Hp in Hx as (_ & _ & Hx & _). by apply dns_label_name.
  - apply (so_linked _ S) in Hx as [Hx _]. apply validate_name_spec in Hx as [Hx _]. by apply dns_label_name.
Qed.

Section Shown.
Context (cfg : Config) (sites : list Site) (s : DaemonState) (P : reported cfg sites s).
Let r := ds_router s.
Let tld := Tld_str (cf_tld cfg).

Lemma rp_wf : wf r /\ cfg_tld (r_config r) = cf_tld cfg.
Proof using P. unfold r. rewrite (rp_router _ _ _ P). destruct (build_planned cfg sites) as (? & _ & ?). done. Qed.

Lemma rp_tld : dns_name tld = true.
Proof using P. pose proof (so_tld _ (rp_storable _ _ _ P)) as H. apply Tld_new_spec in H as [H _]. unfold valid_tld in H. by bprop. Qed.

Lemma rp_named n site : r_sites r !! n = Some site -> site_name site = n /\ dns_name n = true.
Proof using P.
  intros Hs. pose proof (wf_site_names r (proj1 rp_wf) _ _ Hs) as Hn. split; [done|]. subst n.
  assert (route_for r (site_name site) = Some (RoutePhp site)) as Hr by (unfold route_for; by rewrite Hs).
  unfold r in Hr. rewrite (rp_router _ _ _ P), build_route in Hr. apply fmap_Some in Hr as ([rt ds] & Hp & E). cbn in E. subst rt.
  unfold planned in Hp. apply lookup_union_Some_raw in Hp as [Hp|[_ Hp]]; apply elem_of_list_to_map_2 in Hp;
    apply list_elem_of_omap in Hp as ([i q] & Hin & He).
  - unfold proxy_entry in He. cbn in He. by destruct (pp_shadowed q).
  - unfold site_entry in He. cbn in He. injection He as Hn Hsite _. rewrite <- Hsite.
    apply elem_of_enumerate in Hin. apply (rp_names _ _ _ P), (plan_sites_elem cfg sites). by eapply list_elem_of_lookup_2.
Qed.

(** The listed domains of a site that has any are those it owns, and they lead to it. *)
Lemma shown_routes n site : r_sites r !! n = Some site -> default [] (router_effective_domains r n) <> [] ->
  let '(primary, shown) := site_domains (list_site s site) tld in
  primary = primary_fqdn r n /\
  (forall d, d ∈ shown <-> exists dom, domain_owner r dom = Some n /\ d = to_fqdn dom tld) /\
  (forall dom, domain_owner r dom = Some n -> is_wildcard dom = false -> resolve_route r (to_fqdn dom tld) = Some (RoutePhp site)) /\
  (forall label rest, domain_owner r (mkDomain ("*."%str ++ rest)) = Some n -> dns_label label = true ->
     domain_owner r (mkDomain (label ++ "."%str ++ rest)) = None ->
     resolve_route r (label ++ "."%str ++ rest ++ "."%str ++ tld) = Some (RoutePhp site)).
Proof using P.
  intros Hs Hne. destruct (rp_named _ _ Hs) as [Hn Hdns]. destruct rp_wf as [W Ht].
  assert (Tld_str (cfg_tld (r_config r)) = tld) as Htld by (unfold tld; by rewrite Ht).
  unfold list_site. cbv zeta. fold r. rewrite Hn, Htld.
  pose proof (shown_domains r n tld (default false (ds_wordpress s !! n)) (default false (ds_laravel s !! n)) site Hdns Hne Hn) as Hsh.
  destruct (site_entry_domains r n tld) as [p ds]. rewrite Hsh. split_and!.
  - unfold primary_fqdn. by rewrite Htld.
  - intros d. rewrite list_elem_of_fmap. split.
    + intros (dom & -> & Hd). exists dom. split; [|done]. apply (wf_owner r W). unfold router_effective_domains in *.
      destruct (r_domains r !! n) as [l|]; [eauto|by apply elem_of_nil in Hd].
    + intros (dom & Ho & ->). exists dom. split; [done|]. apply (wf_owner r W) in Ho as (l & Hl & Hd). unfold router_effective_domains. by rewrite Hl.
  - intros dom Ho Hw. assert (subpart_shape (Domain_str dom) = true) as Hsh'.
    { unfold r in Ho. rewrite (rp_router _ _ _ P) in Ho. eapply owned_shape; [apply P|apply P|exact Ho]. }
    unfold subpart_shape in Hsh'. unfold is_wildcard, starts_with in Hw. destruct (strip_prefix "*." (Domain_str dom)); [done|].
    rewrite orb_false_r in Hsh'. unfold r, tld in *. rewrite (rp_router _ _ _ P) in *. eapply exact_resolves; [done|apply rp_tld|done|done].
  - intros label rest Ho Hl Hno. assert (dns_name rest = true) as Hrest.
    { unfold r in Ho. rewrite (rp_router _ _ _ P) in Ho. pose proof (owned_shape cfg sites (rp_storable _ _ _ P) (rp_names _ _ _ P) _ _ Ho) as Hsh'.
      unfold subpart_shape in Hsh'. cbn [Domain_str] in Hsh'. apply orb_true_iff in Hsh' as [Hd|Hd]; [|by cbn in Hd].
      apply dns_name_not_wildcard in Hd. by cbn in Hd. }
    unfold r, tld in *. rewrite (rp_router _ _ _ P) in *. eapply wildcard_resolves; [done|done|apply rp_tld|done|done|done].
Qed.
End Shown.

(** C7. What the client shows of a site is where its requests go.  In every state the daemon reaches, [orcker sites]
    and [orcker domain list] list exactly the sites the proxy routes.  For a site that owns any domain the client,
    which fills in what the daemon leaves out, lists exactly the domains it owns and the router's primary address; a
    request for a listed exact domain reaches the site, and so does one for a host one label below a listed wildcard,
    unless that host is an exact domain of some claimant.  The exception is a site that lost all its domains to
    others: it is listed at its default address, although no host at all leads to it. *)
Theorem sites_shown_truly `{Json J} toml_from_str try_into path read fs bound_http bound_https lan_ip s0 s
    (B : bring_up fs (Config_load toml_from_str try_into path read) bound_http bound_https lan_ip = Ok s0)
    (R : rtc daemon_step s0 s) :
  let r := ds_router s in let tld := Tld_str (cf_tld (ds_config s)) in
  (forall site, site ∈ se_site <$> list_sites s <-> get r (site_name site) = Some site) /\
  (forall e, e ∈ list_sites s ->
     let '(primary, shown) := site_domains e tld in
     let n := site_name (se_site e) in
     ((exists dom, domain_owner r dom = Some n) ->
        primary = primary_fqdn r n /\
        (forall d, d ∈ shown <-> exists dom, domain_owner r dom = Some n /\ d = to_fqdn dom tld) /\
        (forall dom, domain_owner r dom = Some n -> is_wildcard dom = false ->
           resolve_route r (to_fqdn dom tld) = Some (RoutePhp (se_site e))) /\
        (forall label rest, domain_owner r (mkDomain ("*."%str ++ rest)) = Some n -> dns_label label = true ->
           domain_owner r (mkDomain (label ++ "."%str ++ rest)) = None ->
           resolve_route r (label ++ "."%str ++ rest ++ "."%str ++ tld) = Some (RoutePhp (se_site e)))) /\
     ((forall dom, domain_owner r dom <> Some n) ->
        shown = [n ++ "."%str ++ tld] /\ forall host, resolve_route r host <> Some (RoutePhp (se_site e)))).
Proof using.
  intros r tld. destruct (reached_reported _ _ _ _ _ _ _ _ _ _ B R) as (sites & P). destruct (rp_wf _ _ _ P) as [W Ht]. fold r in W, Ht.
  assert (forall site, se_site (list_site s site) = site) as Hsite.
  { intros site. unfold list_site. cbv zeta. by destruct (site_entry_domains _ _ _). }
  split.
  - intros site. rewrite list_elem_of_fmap. split.
    + intros (e & -> & (n & x & Hx & ->)%in_list_sites). rewrite Hsite. destruct (rp_named _ _ _ P _ _ Hx) as [-> _]. exact Hx.
    + intros Hg. exists (list_site s site). split; [by rewrite Hsite|]. apply in_list_sites. eauto.
  - intros e (n & site & Hs & ->)%in_list_sites. destruct (rp_named _ _ _ P _ _ Hs) as [Hn Hdns].
    pose proof (shown_routes _ _ _ P n site Hs) as Hsh. fold tld r in Hsh. rewrite Hsite, Hn.
    assert (default [] (router_effective_domains r n) <> [] <-> exists dom, domain_owner r dom = Some n) as He.
    { unfold router_effective_domains. split.
      - destruct (r_domains r !! n) as [[|d l]|] eqn:E; [done| |done]. intros _. exists d. apply (wf_owner r W). exists (d :: l). split; [done|by left].
      - intros (dom & (l & Hl & Hd)%(wf_owner r W)). rewrite Hl. cbn. intros ->. by apply elem_of_nil in Hd. }
    destruct (site_domains (list_site s site) tld) as [primary shown] eqn:Esd. split.
    + intros Hd. apply Hsh. by apply He.
    + intros Hd. split.
      2: { intros host (d & m & Hm & Hrt)%resolved_owned; [|done]. apply (Hd d). rewrite Hm. f_equal.
           unfold route_for in Hrt. destruct (r_sites r !! m) as [x|] eqn:Ex; [|by destruct (r_proxy_sites r !! m)].
           injection Hrt as ->. by rewrite <- (wf_site_names r W _ _ Ex). }
      assert (default [] (router_effective_domains r n) = []) as Heff.
      { destruct (default [] (router_effective_domains r n)) eqn:E; [done|]. destruct (proj1 He) as (dom & Hdom); [congruence|]. by destruct (Hd dom). }
      revert Esd. unfold list_site. cbv zeta. fold r. rewrite Hn, Ht. fold tld. unfold site_entry_domains. cbv zeta. rewrite Heff.
      cbn [fmap list_fmap]. unfold site_domains. rewrite bool_decide_false by done. cbn. rewrite Hn. by intros [= _ <-].
Qed.

(** ** Rules *)

(** The routing rules of a planned site. *)
Definition plan_routes (cfg : Config) (p : SitePlan) : option (list RouteRule) :=
  match site_kind (sp_site p) with
  | Linked => route_rules_linked (cf_route_rules cfg) !! site_name (sp_site p)
  | Parked => route_rules_parked (cf_route_rules cfg) !! site_document_root (sp_site p)
  end.

Lemma set_route_rules_for r m rs n : route_rules_for (set_route_rules m rs r) n = if decide (m = n) then rs else route_rules_for r n.
Proof.
  unfold route_rules_for, set_route_rules. cbn [r_route_rules].
  destruct rs as [|x rs]; cbn [is_empty]; rewrite ?lookup_delete, ?lookup_insert; by destruct (decide (m = n)).
Qed.

Lemma attach_route_rules cfg r p n : route_rules_for (attach_rules cfg r p) n =
  if decide (site_name (sp_site p) = n) then default (route_rules_for r n) (plan_routes cfg p) else route_rules_for r n.
Proof.
  unfold attach_rules. cbv zeta. fold (plan_routes cfg p).
  set (r1 := match _ with Some rs => set_proxy_rules _ rs r | None => r end).
  assert (route_rules_for r1 n = route_rules_for r n) as H1 by (unfold r1; by case_match).
  destruct (plan_routes cfg p) as [rs|]; [rewrite set_route_rules_for|]; rewrite H1; by destruct (decide _).
Qed.

Lemma attach_all_routes cfg l r n :
  route_rules_for (foldl (attach_rules cfg) r l) n = route_rules_for r n \/
  exists p rs, p ∈ l /\ site_name (sp_site p) = n /\ plan_routes cfg p = Some rs /\ route_rules_for (foldl (attach_rules cfg) r l) n = rs.
Proof.
  induction l as [|p l IH] using rev_ind; [by left|]. rewrite foldl_app. cbn [foldl]. rewrite attach_route_rules.
  assert (forall q, q ∈ l -> q ∈ l ++ [p]) as Hin by (intros q Hq; apply elem_of_app; by left).
  destruct (decide (site_name (sp_site p) = n)) as [<-|_]; [destruct (plan_routes cfg p) as [rs|] eqn:E|].
  - right. exists p, rs. split; [apply elem_of_app; right; by left|done].
  - cbn [default]. destruct IH as [->|(q & rs & Hq & ? & ? & ->)]; [by left|right; exists q, rs; auto].
  - destruct IH as [->|(q & rs & Hq & ? & ? & ->)]; [by left|right; exists q, rs; auto].
Qed.

Lemma inserts_keep_routes claims k n : (forall r e, route_rules_for (insert_site_plan claims r e) n = route_rules_for r n) /\
  (forall r e, route_rules_for (insert_proxy_plan claims k r e) n = route_rules_for r n).
Proof.
  split; intros r e.
  - unfold insert_site_plan, insert_with_domains. cbv zeta. destruct (name_taken _ _); [done|]. by destruct (index_conflict _ _).
  - unfold insert_proxy_plan, insert_proxy_with_domains. cbv zeta. destruct (pp_shadowed _); [done|]. destruct (name_taken _ _); [done|].
    by destruct (index_conflict _ _).
Qed.

(** The rules a built router applies are those of the site's section. *)
Lemma built_routes cfg sites n rule : rule ∈ route_rules_for (build cfg sites) n ->
  exists site rs, r_sites (build cfg sites) !! n = Some site /\ rule ∈ rs /\
    match site_kind site with
    | Linked => route_rules_linked (cf_route_rules cfg) !! n
    | Parked => route_rules_parked (cf_route_rules cfg) !! site_document_root site
    end = Some rs.
Proof.
  intros Hr. assert (exists p rs, p ∈ plan_sites cfg sites /\ site_name (sp_site p) = n /\ plan_routes cfg p = Some rs /\ rule ∈ rs) as (p & rs & Hp & Hn & Hrs & Hin).
  { unfold build in Hr. cbv zeta in Hr. match type of Hr with rule ∈ route_rules_for (foldl _ ?base _) _ => set (b := base) in Hr end.
    assert (route_rules_for b n = []) as Hb.
    { unfold b. apply (fold_keeps (fun r => route_rules_for r n = [])); [intros r e; by rewrite (proj2 (inserts_keep_routes _ _ n))|].
      apply (fold_keeps (fun r => route_rules_for r n = [])); [intros r e; by rewrite (proj1 (inserts_keep_routes _ 0 n))|].
      unfold route_rules_for. cbn. by rewrite lookup_empty. }
    destruct (attach_all_routes cfg (plan_sites cfg sites) b n) as [E|(p & rs & Hp & Hn & Hrs & E)]; rewrite E in Hr; [rewrite Hb in Hr; by apply elem_of_nil in Hr|].
    by exists p, rs. }
  exists (sp_site p), rs. split; [|split; [done|]].
  - apply (build_get cfg sites). eauto.
  - unfold plan_routes in Hrs. by destruct (site_kind _); rewrite ?Hn in Hrs.
Qed.

Lemma in_rule_entries {A} (entry : str -> A -> RuleEntry) r linked parked k (rs : list A) x : x ∈ rs ->
  (linked !! k = Some rs -> entry k x ∈ rule_entries entry r linked parked) /\
  (parked !! k = Some rs -> entry (parked_site_of r k) x ∈ rule_entries entry r linked parked).
Proof.
  intros Hx. unfold rule_entries. split; intros Hk; apply elem_of_app; [left|right]; apply list_elem_of_bind; exists (k, rs);
    (split; [|by apply elem_of_btree_iter]); apply list_elem_of_fmap; eauto.
Qed.

Lemma parked_site_unique r n site : r_sites r !! n = Some site -> site_name site = n ->
  (forall m x, r_sites r !! m = Some x -> site_document_root x = site_document_root site -> x = site) ->
  parked_site_of r (site_document_root site) = n.
Proof.
  intros Hs Hn Hu. unfold parked_site_of. destruct (find_first _ _) as [x|] eqn:E.
  - apply find_first_Some in E as (l1 & l2 & Hl & Hx & _). unfold str_eqb in Hx. bprop.
    assert (x ∈ router_iter r) as (m & Hm)%router_iter_elem by (rewrite Hl; apply elem_of_app; right; by left).
    by rewrite (Hu m x Hm Hx).
  - rewrite find_first_None, Forall_forall in E. assert (site ∈ router_iter r) as Hin by (apply router_iter_elem; eauto).
    apply E in Hin. unfold str_eqb in Hin. by rewrite bool_decide_true in Hin.
Qed.

Lemma bfilter_shorter {A} (p : A -> bool) l x : x ∈ l -> p x = false -> (length (bfilter p l) < length l)%nat.
Proof.
  intros Hx Hp. assert (forall l, (length (bfilter p l) <= length l)%nat) as Hle.
  { clear. induction l as [|y l IH]; [done|]. cbn. destruct (p y); cbn; lia. }
  induction l as [|y l IH]; [by apply elem_of_nil in Hx|]. cbn [bfilter length]. specialize (Hle l).
  apply elem_of_cons in Hx as [->|Hx]; [rewrite Hp; lia|]. destruct (p y); cbn [length]; specialize (IH Hx); lia.
Qed.

Lemma route_map_put linked m c : route_rules_map linked (put_route_rules_map linked m c) = m.
Proof. by destruct linked. Qed.

(** C28. A routing rule the proxy applies is listed and can be removed as it is listed.  In every state the daemon
    reaches, a rule applied to a linked site, or to a parked site whose document root no other routed site shares,
    appears in the listing under the site's name, and removing it by that name and prefix is accepted and leaves no
    rule for that prefix in the site's section.  (When a parked folder is also linked under an earlier name, its rules
    are listed under that name and cannot be removed as listed: [shared_root_rule_misnamed].) *)
Theorem listed_routes_removable `{Json J} toml_from_str try_into path read fs bound_http bound_https lan_ip s0 s n site rule php
    (B : bring_up fs (Config_load toml_from_str try_into path read) bound_http bound_https lan_ip = Ok s0)
    (R : rtc daemon_step s0 s) (Hs : get (ds_router s) n = Some site) (Hr : rule ∈ route_rules_for (ds_router s) n)
    (Hu : site_kind site = Parked -> forall m x, get (ds_router s) m = Some x -> site_document_root x = site_document_root site -> x = site) :
  mkRuleEntry n (route_prefix rule) (route_target rule) ∈ list_routes s /\
  exists key msg c', site_rule_key (ds_router s) n = Some key /\
    apply (ds_router s) (RemoveRouteRule n (route_prefix rule)) None php (ds_config s) = (Ok msg, c') /\
    forall x, x ∈ default [] (route_rules_map key.1 c' !! key.2) -> route_prefix x <> route_prefix rule.
Proof using.
  destruct (reached_reported _ _ _ _ _ _ _ _ _ _ B R) as (sites & P). destruct (rp_named _ _ _ P _ _ Hs) as [Hn Hdns].
  pose proof (rp_storable _ _ _ P) as S. rewrite (rp_router _ _ _ P) in Hr. apply built_routes in Hr as (site' & rs & Hs' & Hin & Hk).
  rewrite <- (rp_router _ _ _ P) in Hs'. unfold get in Hs. assert (site' = site) as -> by congruence. clear Hs'.
  split.
  - unfold list_routes. cbv zeta. set (c := ds_config s) in *.
    pose proof (in_rule_entries (fun site r => mkRuleEntry site (route_prefix r) (route_target r)) (ds_router s)
      (route_rules_linked (cf_route_rules c)) (route_rules_parked (cf_route_rules c))) as He.
    destruct (site_kind site).
    + pose proof (proj2 (He (site_document_root site) rs rule Hin) Hk) as Hx. cbv beta in Hx. specialize (Hu eq_refl). by rewrite (parked_site_unique _ n) in Hx.
    + exact (proj1 (He n rs rule Hin) Hk).
  - set (key := match site_kind site with Linked => (true, n) | Parked => (false, site_document_root site) end).
    assert (site_rule_key (ds_router s) n = Some key) as Hkey.
    { unfold site_rule_key, get. rewrite Hs. unfold key. cbn. by destruct (site_kind site). }
    assert (route_rules_map key.1 (ds_config s) !! key.2 = Some rs) as Hm by (unfold key, route_rules_map; by destruct (site_kind site)).
    assert (normalize_prefix (route_prefix rule) = route_prefix rule) as Hp.
    { assert (RouteRule_new (route_prefix rule) (route_target rule) = Ok rule) as E.
      { apply (so_route_rules _ S key.2 rs); [|done]. unfold key, route_rules_map in *. destruct (site_kind site); auto. }
      unfold RouteRule_new in E. cbv zeta in E. repeat (destruct (_ : bool) in E; [done|]). apply (f_equal result_ok) in E. cbn in E.
      injection E as E. by rewrite <- E at 2. }
    exists key. cbn [apply]. unfold apply_remove_route_rule. cbv zeta. rewrite dns_name_lower, Hkey, Hp by done. destruct key as [linked k]. cbn [fst snd] in *.
    rewrite Hm. set (rs' := bfilter _ rs).
    assert (vlen rs' =? vlen rs = false) as ->.
    { apply N.eqb_neq. unfold vlen. intros Hl%Nat2N.inj. revert Hl. apply Nat.lt_neq, (bfilter_shorter _ _ rule Hin).
      unfold str_eqb. by rewrite bool_decide_true. }
    eexists _, _. split; [done|]. split; [reflexivity|]. intros x Hx.
    assert (x ∈ rs') as Hx'.
    { rewrite route_map_put in Hx. destruct (is_empty rs') eqn:E'; [rewrite lookup_delete_eq in Hx; by apply elem_of_nil in Hx|by rewrite lookup_insert_eq in Hx]. }
    apply elem_of_bfilter in Hx' as [Hx' _]. unfold str_eqb in Hx'. by bprop.
Qed.

(** ** Where the reports are wrong *)

Definition blog : Site := mkSite "blog"%str "/srv/blog"%str [] (mkPhp 8 3) false Parked false None None.
Definition alpha : Site := mkSite "alpha"%str "/srv/blog"%str [] (mkPhp 8 3) false Linked false None None.
Definition root_rule : RouteRule := mkRouteRule "/api"%str "api.php"%str.
Definition shared_config : Config :=
  put_route_rules (mkRouteRules ∅ {["/srv/blog"%str := [root_rule]]}) (put_linked [alpha] Config_default).
Definition shared_state : DaemonState :=
  mkState shared_config None ∅ (build shared_config [blog; alpha]) ∅ ∅ ∅ (mkPortStatus 80 8080 true) (mkPortStatus 443 8443 true)
    true None false None None.

(** A parked site whose folder is also linked under a name that sorts before its own: its rule is listed under the
    other name, and removing it as listed fails. *)
Lemma shared_root_rule_misnamed :
  validate shared_config = Ok tt /\
  route_rules_for (ds_router shared_state) "blog"%str = [root_rule] /\
  list_routes shared_state = [mkRuleEntry "alpha"%str "/api"%str "api.php"%str] /\
  match apply (ds_router shared_state) (RemoveRouteRule "alpha"%str "/api"%str) None (mkPhp 8 3) shared_config with
  | (Err (NotFound _), _) => True | _ => False end.
Proof. split_and!; vm_compute; reflexivity || exact I. Qed.

(** Two sites whose stored domains both add one: the router gives it to the first in scan order, the report to the
    first in name order. *)
Definition contested : DomainDelta := mkDelta [mkDomain "shop"%str] [] None.
Definition contested_config : Config :=
  put_domains (mkDomains {["alpha"%str := contested]} {["/srv/blog"%str := contested]} ∅)
    (put_linked [mkSite "alpha"%str "/srv/alpha"%str [] (mkPhp 8 3) false Linked false None None] Config_default).

Lemma shadow_names_wrong_winner :
  let r := build contested_config ([blog] ++ cf_linked contested_config) in
  validate contested_config = Ok tt /\
  domain_owner r (mkDomain "shop"%str) = Some "blog"%str /\
  domain_shadows contested_config (router_iter r) = [mkShadow "blog"%str "alpha"%str].
Proof. split_and!; vm_compute; reflexivity. Qed.

(** ** Witnesses *)

Definition demo_load : result ConfigError Config :=
  Config_load (fun _ => Err []) (fun _ => Err []) "/etc/orcker.toml"%str (Err IoNotFound).

(** A parked folder, then a rule on the site found in it. *)
Definition demo_ruled : option (DaemonState * DaemonState * DaemonState) :=
  match bring_up (demo_fs true) demo_load 8080 8443 None with
  | Ok s0 =>
      '(_, s1) ← Daemon.dispatch demo_env (Park "/srv"%str) s0;
      '(_, s2) ← Daemon.dispatch demo_env (AddRouteRule "my-blog"%str "/api/"%str "api.php"%str) s1;
      Some (s0, s1, s2)
  | Err _ => None
  end.

Lemma demo_ruled_reached : match demo_ruled with
  | Some (s0, s1, s2) => bring_up (demo_fs true) demo_load 8080 8443 None = Ok s0 /\ rtc daemon_step s0 s1 /\ rtc daemon_step s0 s2
  | None => True end.
Proof.
  unfold demo_ruled. destruct (bring_up (demo_fs true) demo_load 8080 8443 None) as [s0|]; [|exact I].
  destruct (Daemon.dispatch demo_env (Park "/srv"%str) s0) as [[r1 s1]|] eqn:D1; [|exact I]. cbn [mbind option_bind].
  destruct (Daemon.dispatch demo_env (AddRouteRule _ _ _) s1) as [[r2 s2]|] eqn:D2; [|exact I]. cbn [mbind option_bind].
  pose proof (st_request s0 demo_env _ _ s1 D1) as H1. pose proof (st_request s1 demo_env _ _ s2 D2) as H2.
  split; [reflexivity|]. split; [exact (rtc_l _ _ _ _ H1 (rtc_refl _ _))|exact (rtc_l _ _ _ _ H1 (rtc_l _ _ _ _ H2 (rtc_refl _ _)))].
Qed.

Lemma sites_shown_truly_witness :
  match demo_ruled with
  | Some (_, s, _) =>
      ((fun e => site_domains e "test"%str) <$> list_sites s) = [("my-blog.test"%str, ["my-blog.test"%str])] /\
      (forall site, site ∈ se_site <$> list_sites s <-> get (ds_router s) (site_name site) = Some site)
  | None => False
  end.
Proof.
  assert (match demo_ruled with Some (_, s, _) => bool_decide (((fun e => site_domains e "test"%str) <$> list_sites s) = [("my-blog.test"%str, ["my-blog.test"%str])])
          | None => false end = true) as Hrun by (vm_compute; reflexivity).
  pose proof demo_ruled_reached as Hd. destruct demo_ruled as [[[s0 s] s2]|]; [|discriminate Hrun]. destruct Hd as (B & R & _).
  split; [exact (bool_decide_eq_true_1 _ Hrun)|].
  exact (proj1 (sites_shown_truly (fun _ => Err []) (fun _ => Err []) "/etc/orcker.toml"%str (Err IoNotFound)
    (demo_fs true) 8080 8443 None s0 s B R)).
Defined.

Lemma listed_routes_removable_witness :
  match demo_ruled with
  | Some (_, _, s) =>
      match get (ds_router s) "my-blog"%str with
      | Some site => mkRuleEntry "my-blog"%str "/api"%str "api.php"%str ∈ list_routes s
      | None => False
      end
  | None => False
  end.
Proof.
  assert (match demo_ruled with
    | Some (_, _, s) =>
        match get (ds_router s) "my-blog"%str with
        | Some site => bool_decide (mkRouteRule "/api"%str "api.php"%str ∈ route_rules_for (ds_router s) "my-blog"%str)
                       && bool_decide (btree_iter (r_sites (ds_router s)) = [("my-blog"%str, site)])
        | None => false
        end
    | None => false end = true) as Hrun by (vm_compute; reflexivity).
  pose proof demo_ruled_reached as Hd. destruct demo_ruled as [[[s0 s1] s]|]; [|discriminate Hrun]. destruct Hd as (B & _ & R).
  destruct (get (ds_router s) "my-blog"%str) as [site|] eqn:G; [|discriminate Hrun].
  apply andb_true_iff in Hrun as [Hr Hone]. apply bool_decide_eq_true_1 in Hr. apply bool_decide_eq_true_1 in Hone.
  refine (proj1 (listed_routes_removable (fun _ => Err []) (fun _ => Err []) "/etc/orcker.toml"%str (Err IoNotFound)
    (demo_fs true) 8080 8443 None s0 s "my-blog"%str site _ (mkPhp 8 3) B R G Hr _)).
  intros _ m x Hx _. apply elem_of_btree_iter in Hx. rewrite Hone in Hx. apply list_elem_of_singleton in Hx. by injection Hx as _ ->.
Defined.
