(* ===== verification/Doctor.v ===== *)
(** * Status and diagnosis

    The report of [orcker status] ([build_status_report] in
    [src/bin/orckerd/src/ipc_server.rs], types in [src/crates/orcker-ipc/src/status.rs])
    and the findings of [orcker doctor] ([src/crates/orcker-doctor], pure).  What the
    platform layer and the parts of the daemon outside [Daemon] answer are [Probes]. *)

From S2P Require Import Prelude RustStr RustMap RustText RustPath CoreError DnsLabel Tld Domain Host Php Net Site Proxy Router Project Settings Config Migrate Wire Serialize SiteDomains Ipc Mutate Link Scan Daemon LanSetup DaemonInv DaemonClaims Restart Report.

Open Scope N_scope.

(** ** [status.rs] *)

Inductive BrowserTrust := BrowserTrusted | BrowserUntrusted | ToolMissing.
Record CaStatus := mkCaStatus { ca_path : str; ca_fingerprint : str; trusted_system : option bool; browser_trust : option BrowserTrust }.
Record SiteCounts := mkCounts { n_parked : N; n_linked : N; n_secured : N }.
Record PortRedirectTargets := mkTargets { rt_http : N; rt_https : N }.
Record UnboundWeb := mkUnbound { ub_http : N; ub_https : N }.
Record MailStatus := mkMailStatus { mst_enabled : bool; mst_port : N; mst_listening : bool; mst_count : N; mst_unread : N }.

Record StatusReport := mkReport {
  daemon_pid : N; uptime_secs : N; daemon_rss_bytes : option N; sr_tld : str; sr_http : PortStatus; sr_https : PortStatus;
  dns_addr : SocketAddr; sr_ca : CaStatus; resolver_installed : option bool; port_redirect : option bool;
  foreign_web_listener : option bool; resolver_backup : option str; sr_sites : SiteCounts; load_avg : option (N * N * N);
  daemon_version : str; sr_mail : option MailStatus; web_unbound : option UnboundWeb; dns_unbound : option N;
  boot_id : option N; shared_sites : N; symlink_protection : bool; shadows : list DomainShadow; mcp_enabled : bool;
  lan_enabled : bool; sr_lan_ip : option Ipv4Addr; lan_setup_bound : option bool;
  port_redirect_targets : option PortRedirectTargets; lan_redirect_targets : option PortRedirectTargets }.

Inductive Severity := SevOk | SevWarn | SevFail.
#[export] Instance Severity_eq_dec : EqDecision Severity.
Proof. solve_decision. Defined.

Inductive DiagnosisCode :=
| DaemonDown | PortFallback | WebPortsUnbound | ForeignWebListener | DnsPortUnbound | CaNotTrusted | CaNotTrustedByBrowsers
| ResolverNotInstalled | ServiceFailed | NoSites | ResolverBackupSaved | BinDirNotOnPath | SymlinkProtectionDisabled
| DomainShadowed | PortRedirectStale | LanRedirectStale | AllGood.
#[export] Instance DiagnosisCode_eq_dec : EqDecision DiagnosisCode.
Proof. solve_decision. Defined.

Record Diagnosis := mkDiagnosis { dg_code : DiagnosisCode; dg_severity : Severity; dg_title : str; dg_detail : str; dg_remedy : option str }.
Record FixResult := mkFix { fx_code : DiagnosisCode; fx_ok : bool; fx_message : str }.
Record FixReport := mkFixReport { performed : list FixResult; manual : list Diagnosis }.

(** ** [ipc_server.rs] *)

Record Probes := mkProbes {
  p_pid : N; p_uptime : N; p_rss : option N; p_dns_addr : SocketAddr; p_ca : CaStatus; p_resolver : option bool;
  p_redirect : option bool * option bool * option (N * N) * option (N * N); p_backup : option str; p_load : option (N * N * N);
  p_version : str; p_mail_listening : bool; p_mail_counts : N * N; p_web_unbound : option UnboundWeb; p_dns_unbound : option N;
  p_boot_id : N; p_shared_sites : N; p_path_needs_setup : option bool }.

Definition redirect_targets_to_wire (t : N * N) : PortRedirectTargets := mkTargets t.1 t.2.

Definition count_site (c : SiteCounts) (s : Site) : SiteCounts :=
  let c := match site_kind s with
           | Parked => mkCounts (n_parked c + 1) (n_linked c) (n_secured c)
           | Linked => mkCounts (n_parked c) (n_linked c + 1) (n_secured c)
           end in
  if site_secure s then mkCounts (n_parked c) (n_linked c) (n_secured c + 1) else c.

Definition build_status_report (s : DaemonState) (p : Probes) : StatusReport :=
  let cfg := ds_config s in
  let router := ds_router s in
  let counts := foldl count_site (mkCounts 0 0 0) (router_iter router) in
  let shadows := domain_shadows cfg (router_iter router) in
  let lan_enabled := cf_lan_enabled cfg in
  let '(lan_ip, lan_setup_bound) := if lan_enabled then (ds_lan_ip s, Some (ds_lan_setup_bound s)) else (None, None) in
  let '(port_redirect, foreign, targets, lan_targets) := p_redirect p in
  mkReport (p_pid p) (p_uptime p) (p_rss p) (Tld_str (cf_tld cfg)) (ds_http s) (ds_https s) (p_dns_addr p) (p_ca p) (p_resolver p)
    port_redirect foreign (p_backup p) counts (p_load p) (p_version p)
    (Some (mkMailStatus (mail_enabled (cf_mail cfg)) (mail_port (cf_mail cfg)) (p_mail_listening p) (p_mail_counts p).1 (p_mail_counts p).2))
    (p_web_unbound p) (p_dns_unbound p) (Some (p_boot_id p)) (p_shared_sites p) (cf_symlink_protection cfg) shadows
    (cf_mcp_enabled cfg) lan_enabled lan_ip lan_setup_bound
    (redirect_targets_to_wire <$> targets) (redirect_targets_to_wire <$> lan_targets).

(** ** [orcker-doctor] *)

Definition PRIVILEGED_PORT_CEILING : N := 1024.

Definition warn (code : DiagnosisCode) (title detail remedy : str) : Diagnosis := mkDiagnosis code SevWarn title detail (Some remedy).
Definition fail (code : DiagnosisCode) (title detail : str) (remedy : option str) : Diagnosis := mkDiagnosis code SevFail title detail remedy.

Definition privileged_fallback (r : StatusReport) : bool :=
  ((ps_requested (sr_http r) <? PRIVILEGED_PORT_CEILING) && ps_fell_back (sr_http r))
  || ((ps_requested (sr_https r) <? PRIVILEGED_PORT_CEILING) && ps_fell_back (sr_https r)).

(** An installed redirect that leads to a port the daemon does not serve. *)
Definition mismatched (r : StatusReport) (t : PortRedirectTargets) : bool :=
  negb ((rt_http t =? ps_bound (sr_http r)) && (rt_https t =? ps_bound (sr_https r))).

Definition ARROW : str := [8594].
Definition DASH : str := [8212].
Definition MENU : str := [9656].

Definition stale_detail (what : str) (r : StatusReport) (t : PortRedirectTargets) (effect : str) : str :=
  what ++ " sends 80"%str ++ ARROW ++ show_uint (rt_http t) ++ " and 443"%str ++ ARROW ++ show_uint (rt_https t)
  ++ ", but Orcker is listening on "%str ++ show_uint (ps_bound (sr_http r)) ++ " and "%str ++ show_uint (ps_bound (sr_https r)) ++ effect.

Definition redirect_stale_finding (r : StatusReport) : option Diagnosis :=
  t ← port_redirect_targets r;
  if negb (mismatched r t) then None
  else Some (warn PortRedirectStale "Port redirect is stale"%str
    (stale_detail "The pf redirect"%str r t ", so http/https on this Mac fail even though the daemon is running."%str)
    "restart the daemon if it recently changed ports, then sudo orcker elevate ports; if LAN mode is on, also sudo orcker elevate lan"%str).

Definition lan_redirect_stale_finding (r : StatusReport) : option Diagnosis :=
  if negb (lan_enabled r) then None
  else
    t ← lan_redirect_targets r;
    if negb (mismatched r t) then None
    else Some (warn LanRedirectStale "LAN redirect is stale"%str
      (stale_detail "The LAN pf redirect"%str r t ", so other devices on your network reach a dead port."%str)
      "sudo orcker elevate lan (and sudo orcker elevate ports if host 80/443 are also stale); if the daemon still holds a privileged port, restart it first"%str).

Definition of_option {A} (o : option A) : list A := match o with Some x => [x] | None => [] end.

Section Host.
(** [cfg!(target_os = ...)] *)
Context (macos : bool).

Definition port_fallback_remedy (lan : bool) : str :=
  if macos && lan then "sudo orcker elevate ports  (then, for LAN devices: sudo orcker elevate lan)"%str else "sudo orcker elevate ports"%str.

Definition port_findings (r : StatusReport) : list Diagnosis :=
  let out := match dns_unbound r with
    | Some dns_port => [warn DnsPortUnbound "Orcker's DNS port is busy"%str
        ("Orcker couldn't bind its DNS port ("%str ++ show_uint dns_port ++ ") "%str ++ DASH
         ++ " another process holds it "%str ++ DASH ++ " so *.test names won't resolve through Orcker until it's freed or changed."%str)
        ("Free that port, or change Orcker's DNS port in Settings (Orcker "%str ++ MENU
         ++ " General), then restart. If you changed the port, re-run Trust so the OS resolver points at the new one."%str)]
    | None => []
    end in
  let foreign_listener := bool_decide (foreign_web_listener r = Some true) in
  let out := out ++ (if foreign_listener
    then [warn ForeignWebListener "Another process is using port 80/443"%str
            "A program other than Orcker is listening on a privileged web port (80/443). Orcker can't serve your .test sites there until it's stopped."%str
            "Stop the other web server (e.g. Apache, nginx, Valet), then `sudo orcker elevate ports`"%str]
    else []) in
  match web_unbound r with
  | Some unbound =>
      out ++ [fail WebPortsUnbound "Not serving any sites"%str
        ("Orcker couldn't bind its web ports (HTTP "%str ++ show_uint (ub_http unbound) ++ ", HTTPS "%str ++ show_uint (ub_https unbound)
         ++ ") "%str ++ DASH ++ " likely because another process holds them "%str ++ DASH ++ " so no .test sites are being served."%str)
        (Some ("Free those ports, or change Orcker's fallback ports in Settings (Orcker "%str ++ MENU ++ " General), then restart the daemon."%str))]
  | None =>
      let host_stale := redirect_stale_finding r in
      let host_stale_present := match host_stale with Some _ => true | None => false end in
      out ++ of_option host_stale ++ of_option (lan_redirect_stale_finding r) ++
      (if privileged_fallback r && negb (bool_decide (port_redirect r = Some true)) && negb foreign_listener && negb host_stale_present
       then [warn PortFallback "Privileged ports not bound"%str
               ("HTTP "%str ++ show_uint (ps_requested (sr_http r)) ++ ARROW ++ show_uint (ps_bound (sr_http r))
                ++ ", HTTPS "%str ++ show_uint (ps_requested (sr_https r)) ++ ARROW ++ show_uint (ps_bound (sr_https r))
                ++ ": 80/443 need elevation, serving on the rootless ports."%str)
               (port_fallback_remedy (lan_enabled r))]
       else [])
  end.

Definition browser_untrusted_detail : str :=
  if macos
  then "Firefox keeps its own certificate store, separate from the system keychain, so it shows HTTPS warnings on .test sites until the CA is added there."%str
  else "Brave, Chrome and Firefox keep their own certificate store, separate from the system store, so they show HTTPS warnings on .test sites until the CA is added there."%str.
Definition certutil_missing_detail : str :=
  if macos
  then "Browsers won't trust the local CA until certutil is installed: `brew install nss` (Homebrew) or `sudo port install nss` (MacPorts). Install it, then run trust again."%str
  else "Browsers won't trust the local CA until certutil is installed: libnss3-tools (Debian/Ubuntu/Zorin), nss-tools (Fedora), nss (Arch), or `brew install nss` (macOS). Install it, then run trust again."%str.

Definition trust_findings (r : StatusReport) : list Diagnosis :=
  (if bool_decide (trusted_system (sr_ca r) = Some false)
   then [warn CaNotTrusted "Local CA not trusted"%str
           "HTTPS sites will show certificate warnings until the CA is trusted."%str "sudo orcker elevate trust"%str] else []) ++
  match browser_trust (sr_ca r) with
  | Some BrowserUntrusted => [warn CaNotTrustedByBrowsers "Browsers don't trust the local CA"%str browser_untrusted_detail "orcker elevate trust"%str]
  | Some ToolMissing => [warn CaNotTrustedByBrowsers "Can't establish browser trust (certutil missing)"%str certutil_missing_detail "orcker elevate trust"%str]
  | _ => []
  end ++
  (if bool_decide (resolver_installed r = Some false)
   then [warn ResolverNotInstalled "Resolver not installed"%str
           ("*."%str ++ sr_tld r ++ " is not routed to Orcker's DNS responder ("%str ++ SocketAddr_fmt (dns_addr r) ++ ")."%str)
           "sudo orcker elevate resolver"%str] else []).

Definition resolver_backup_finding (r : StatusReport) : option Diagnosis :=
  path ← resolver_backup r;
  Some (mkDiagnosis ResolverBackupSaved SevOk "Resolver file replaced"%str
    ("Installing the ."%str ++ sr_tld r ++ " resolver replaced an existing /etc/resolver file; your previous one was saved to "%str ++ path
     ++ ". Unelevating the resolver restores it automatically, or you can delete the backup."%str) None).

Definition symlink_protection_finding (r : StatusReport) : option Diagnosis :=
  if negb (symlink_protection r)
  then Some (mkDiagnosis SymlinkProtectionDisabled SevOk "Symlink protection is off"%str
    "The proxy will serve files reached through symlinks that resolve outside a site's own folder, for every site. Combined with a public tunnel this can expose files beyond the site root. Re-enable it under Settings > Security in the desktop app."%str None)
  else None.

Definition no_sites_finding (r : StatusReport) : option Diagnosis :=
  if (n_parked (sr_sites r) =? 0) && (n_linked (sr_sites r) =? 0)
  then Some (mkDiagnosis NoSites SevOk "No sites configured"%str "Nothing is being served yet."%str
    (Some "orcker park <dir>  (or  orcker link <name> <dir>)"%str))
  else None.

Definition shadow_findings (r : StatusReport) : list Diagnosis :=
  (fun s => warn DomainShadowed "Domain claimed by another site"%str
     (sh_site s ++ "'s domain is also claimed by "%str ++ sh_shadowed_by s
      ++ ", so it was dropped from routing. Which site wins can depend on directory scan order, so it may change when Orcker restarts."%str)
     "make each site's domains unique with `orcker domain remove` or `orcker domain primary`"%str) <$> shadows r.

Definition is_alarm (d : Diagnosis) : bool := match dg_severity d with SevWarn | SevFail => true | SevOk => false end.

Definition diagnose (r : StatusReport) (path_needs_setup : option bool) : list Diagnosis :=
  let out := port_findings r ++ trust_findings r ++ of_option (resolver_backup_finding r) ++ of_option (symlink_protection_finding r)
    ++ of_option (no_sites_finding r) ++ shadow_findings r
    ++ (if bool_decide (path_needs_setup = Some true)
        then [warn BinDirNotOnPath "Orcker's bin directory isn't on your PATH"%str
                "A dev tool is installed, but its commands won't resolve in your shell until Orcker's bin directory is on PATH."%str
                "orcker path install"%str] else []) in
  if negb (existsb is_alarm out)
  then out ++ [mkDiagnosis AllGood SevOk "All checks passed"%str "Daemon, ports, DNS, and CA look healthy."%str None]
  else out.

(** [FixAction] has no variant: there is nothing to run. *)
Inductive FixAction := .
Definition plan_auto_fixes (r : StatusReport) : list FixAction := [].

Definition run_doctor_fix (before after : StatusReport) (path_needs_setup : option bool) : FixReport :=
  mkFixReport [] (bfilter is_alarm (diagnose after path_needs_setup)).
End Host.

(** ** The client *)

Inductive DoctorReply := ReplyError | Diagnoses (items : list Diagnosis) | DoctorFixed (report : FixReport) | OtherReply.
Definition doctor_exit_code (resp : DoctorReply) : N :=
  match resp with
  | ReplyError => 1
  | Diagnoses items => if existsb (fun d => bool_decide (dg_severity d = SevFail)) items then 1 else 0
  | DoctorFixed report => if existsb (fun d => bool_decide (dg_severity d = SevFail)) (manual report) then 1 else 0
  | OtherReply => 0
  end.

(** ** When each finding is raised *)

Definition stale (r : StatusReport) (t : option PortRedirectTargets) : bool :=
  match t with
  | Some t => negb (bool_decide (rt_http t = ps_bound (sr_http r) /\ rt_https t = ps_bound (sr_https r)))
  | None => false
  end.
Definition web_down (r : StatusReport) : bool := match web_unbound r with Some _ => true | None => false end.

(** The condition of each code, independently of the others' text and order. *)
Definition raises (r : StatusReport) (path_needs_setup : option bool) (code : DiagnosisCode) : bool :=
  match code with
  | DnsPortUnbound => match dns_unbound r with Some _ => true | None => false end
  | ForeignWebListener => bool_decide (foreign_web_listener r = Some true)
  | WebPortsUnbound => web_down r
  | PortRedirectStale => negb (web_down r) && stale r (port_redirect_targets r)
  | LanRedirectStale => negb (web_down r) && lan_enabled r && stale r (lan_redirect_targets r)
  | PortFallback =>
      negb (web_down r) && privileged_fallback r && negb (bool_decide (port_redirect r = Some true))
      && negb (bool_decide (foreign_web_listener r = Some true)) && negb (stale r (port_redirect_targets r))
  | CaNotTrusted => bool_decide (trusted_system (sr_ca r) = Some false)
  | CaNotTrustedByBrowsers => match browser_trust (sr_ca r) with Some BrowserUntrusted | Some ToolMissing => true | _ => false end
  | ResolverNotInstalled => bool_decide (resolver_installed r = Some false)
  | ResolverBackupSaved => match resolver_backup r with Some _ => true | None => false end
  | SymlinkProtectionDisabled => negb (symlink_protection r)
  | NoSites => (n_parked (sr_sites r) =? 0) && (n_linked (sr_sites r) =? 0)
  | DomainShadowed => negb (is_empty (shadows r))
  | BinDirNotOnPath => bool_decide (path_needs_setup = Some true)
  | AllGood | DaemonDown | ServiceFailed => false
  end.

Definition severity_of (code : DiagnosisCode) : Severity :=
  match code with
  | WebPortsUnbound => SevFail
  | ResolverBackupSaved | SymlinkProtectionDisabled | NoSites | AllGood => SevOk
  | _ => SevWarn
  end.

Definition PORT_CODES : list DiagnosisCode :=
  [DnsPortUnbound; ForeignWebListener; WebPortsUnbound; PortRedirectStale; LanRedirectStale; PortFallback].
Definition TRUST_CODES : list DiagnosisCode :=
  [CaNotTrusted; CaNotTrustedByBrowsers; ResolverNotInstalled; ResolverBackupSaved; SymlinkProtectionDisabled; NoSites].
Definition ALARM_CODES : list DiagnosisCode :=
  PORT_CODES ++ [CaNotTrusted; CaNotTrustedByBrowsers; ResolverNotInstalled; DomainShadowed; BinDirNotOnPath].

Definition coded (d : Diagnosis) : Prop := dg_severity d = severity_of (dg_code d).
Definition codes (ds : list Diagnosis) : list DiagnosisCode := dg_code <$> ds.

Lemma stale_mismatched r t : stale r (Some t) = mismatched r t.
Proof.
  unfold stale, mismatched. f_equal. apply eq_true_iff_eq. rewrite bool_decide_eq_true, andb_true_iff, !N.eqb_eq. done.
Qed.

Lemma redirect_codes r :
  redirect_stale_finding r = None /\ stale r (port_redirect_targets r) = false \/
  (exists d, redirect_stale_finding r = Some d /\ dg_code d = PortRedirectStale /\ coded d) /\ stale r (port_redirect_targets r) = true.
Proof.
  unfold redirect_stale_finding. destruct (port_redirect_targets r) as [t|]; [|by left]. rewrite stale_mismatched. cbn [mbind option_bind].
  destruct (mismatched r t); cbn [negb]; [right|by left]. split; [|done]. by eexists.
Qed.

Lemma lan_codes r :
  lan_redirect_stale_finding r = None /\ lan_enabled r && stale r (lan_redirect_targets r) = false \/
  (exists d, lan_redirect_stale_finding r = Some d /\ dg_code d = LanRedirectStale /\ coded d) /\
    lan_enabled r && stale r (lan_redirect_targets r) = true.
Proof.
  unfold lan_redirect_stale_finding. destruct (lan_enabled r); cbn [negb andb]; [|by left].
  destruct (lan_redirect_targets r) as [t|]; [|by left]. rewrite stale_mismatched. cbn [mbind option_bind].
  destruct (mismatched r t); cbn [negb]; [right|by left]. split; [|done]. by eexists.
Qed.

Lemma port_codes macos r p : codes (port_findings macos r) = bfilter (raises r p) PORT_CODES /\ Forall coded (port_findings macos r).
Proof.
  unfold port_findings, PORT_CODES. cbv zeta. cbn [bfilter raises]. unfold web_down.
  destruct (redirect_codes r) as [[-> ->]|[(d & -> & Hd & Hc) ->]], (lan_codes r) as [[-> Hl]|[(d' & -> & Hd' & Hc') Hl]].
  all: destruct (web_unbound r); cbn [negb andb]; rewrite ?Hl; destruct (dns_unbound r), (bool_decide (foreign_web_listener r = Some true));
    cbn [negb andb of_option app]; rewrite ?andb_true_r, ?andb_false_r; cbn [app];
    try (destruct (privileged_fallback r && _); cbn [app]);
    (split; [unfold codes; cbn [fmap list_fmap dg_code warn fail]; congruence|repeat constructor; done]).
Qed.

Lemma trust_codes macos r p :
  let ds := trust_findings macos r ++ of_option (resolver_backup_finding r) ++ of_option (symlink_protection_finding r) ++ of_option (no_sites_finding r) in
  codes ds = bfilter (raises r p) TRUST_CODES /\ Forall coded ds.
Proof.
  cbv zeta. unfold trust_findings, resolver_backup_finding, symlink_protection_finding, no_sites_finding, TRUST_CODES. cbn [bfilter raises].
  destruct (bool_decide (trusted_system _ = _)), (browser_trust (sr_ca r)) as [[]|], (bool_decide (resolver_installed r = _)), (resolver_backup r),
    (symlink_protection r), ((n_parked (sr_sites r) =? 0) && _); cbn [negb of_option app mbind option_bind];
    (split; [done|repeat constructor; done]).
Qed.

Lemma shadow_codes r : codes (shadow_findings r) = repeat DomainShadowed (length (shadows r)) /\ Forall coded (shadow_findings r).
Proof.
  unfold shadow_findings, codes. induction (shadows r) as [|s l [IH1 IH2]]; [done|]. cbn. split; [by f_equal|by constructor].
Qed.

Lemma severities_exist (f : Severity -> bool) ds : Forall coded ds ->
  existsb (fun d => f (dg_severity d)) ds = existsb (fun c => f (severity_of c)) (codes ds).
Proof. induction 1 as [|d ds Hd _ IH]; [done|]. cbn. by rewrite IH, Hd. Qed.

Lemma alarm_severity d : is_alarm d = negb (bool_decide (dg_severity d = SevOk)).
Proof. unfold is_alarm. by destruct (dg_severity d). Qed.

Lemma alarms_exist ds : Forall coded ds -> existsb is_alarm ds = existsb (fun c => negb (bool_decide (severity_of c = SevOk))) (codes ds).
Proof. induction 1 as [|d ds Hd _ IH]; [done|]. cbn. by rewrite IH, alarm_severity, Hd. Qed.

Lemma existsb_bfilter {A} (f g : A -> bool) l : existsb f (bfilter g l) = existsb (fun x => g x && f x) l.
Proof. induction l as [|x l IH]; [done|]. cbn. destruct (g x); cbn; by rewrite IH. Qed.

(** The alarms of all findings but the last. *)
Lemma alarms_raised r p :
  existsb (fun c => negb (bool_decide (severity_of c = SevOk)))
    (bfilter (raises r p) PORT_CODES ++ bfilter (raises r p) TRUST_CODES ++ repeat DomainShadowed (length (shadows r))
     ++ bfilter (raises r p) [BinDirNotOnPath]) = existsb (raises r p) ALARM_CODES.
Proof.
  rewrite !existsb_app, !existsb_bfilter.
  assert (existsb (fun c => negb (bool_decide (severity_of c = SevOk))) (repeat DomainShadowed (length (shadows r))) = raises r p DomainShadowed) as ->.
  { cbn [raises]. by destruct (shadows r). }
  unfold ALARM_CODES, PORT_CODES, TRUST_CODES. generalize (raises r p). intros f. cbn. by rewrite ?andb_true_r, ?andb_false_r, ?orb_false_r, <- ?orb_assoc.
Qed.

Lemma existsb_shadow n : existsb (fun c => bool_decide (severity_of c = SevFail)) (repeat DomainShadowed n) = false.
Proof. by induction n. Qed.

(** C29. The doctor reports exactly what the report shows, no more and no less: each finding when its condition holds
    and at no other time, once (a shadowed domain once per shadow), in the documented order and with its severity;
    "all checks passed" exactly when nothing alarms; probes that could not tell raise nothing; the client's exit code
    is 1 exactly when the web ports are not bound; and what [doctor fix] leaves to the user are the alarms. *)
Theorem doctor_exact macos r p :
  let items := diagnose macos r p in
  codes items =
    bfilter (raises r p) PORT_CODES ++ bfilter (raises r p) TRUST_CODES ++ repeat DomainShadowed (length (shadows r))
    ++ bfilter (raises r p) [BinDirNotOnPath] ++ (if existsb (raises r p) ALARM_CODES then [] else [AllGood]) /\
  Forall (fun d => dg_severity d = severity_of (dg_code d)) items /\
  (foreign_web_listener r = None -> port_redirect_targets r = None -> lan_redirect_targets r = None ->
   trusted_system (sr_ca r) = None -> browser_trust (sr_ca r) = None -> resolver_installed r = None -> p = None ->
   web_unbound r = None -> dns_unbound r = None -> privileged_fallback r = false -> shadows r = [] ->
   Forall (fun d => dg_severity d = SevOk) items) /\
  doctor_exit_code (Diagnoses items) = (if web_unbound r then 1 else 0) /\
  forall before, manual (run_doctor_fix macos before r p) = bfilter (fun d => negb (bool_decide (dg_severity d = SevOk))) items.
Proof.
  intros items. destruct (port_codes macos r p) as [P1 P2]. destruct (trust_codes macos r p) as [T1 T2]. destruct (shadow_codes r) as [S1 S2].
  cbv zeta in T1, T2. set (out := port_findings macos r ++ trust_findings macos r ++ of_option (resolver_backup_finding r)
    ++ of_option (symlink_protection_finding r) ++ of_option (no_sites_finding r) ++ shadow_findings r
    ++ (if bool_decide (p = Some true) then [warn BinDirNotOnPath "Orcker's bin directory isn't on your PATH"%str
         "A dev tool is installed, but its commands won't resolve in your shell until Orcker's bin directory is on PATH."%str "orcker path install"%str] else [])).
  assert (items = if existsb is_alarm out then out else out ++ [mkDiagnosis AllGood SevOk "All checks passed"%str "Daemon, ports, DNS, and CA look healthy."%str None]) as Hi.
  { unfold items, diagnose. cbv zeta. fold out. by destruct (existsb is_alarm out). }
  assert (codes out = bfilter (raises r p) PORT_CODES ++ bfilter (raises r p) TRUST_CODES ++ repeat DomainShadowed (length (shadows r))
     ++ bfilter (raises r p) [BinDirNotOnPath] /\ Forall coded out) as [Hc Hf].
  { unfold out. rewrite (app_assoc (of_option (symlink_protection_finding r))), (app_assoc (of_option (resolver_backup_finding r))),
      (app_assoc (trust_findings macos r)). revert T1 T2. generalize (trust_findings macos r ++ of_option (resolver_backup_finding r)
        ++ of_option (symlink_protection_finding r) ++ of_option (no_sites_finding r)). intros trust T1 T2.
    unfold codes in *. rewrite !fmap_app, P1, T1, S1. split.
    - do 3 f_equal. cbn [bfilter raises]. by destruct (bool_decide (p = Some true)).
    - repeat apply Forall_app_2; try done. destruct (bool_decide (p = Some true)); by repeat constructor. }
  assert (existsb is_alarm out = existsb (raises r p) ALARM_CODES) as Ha by (rewrite alarms_exist by done; by rewrite Hc, alarms_raised).
  assert (Forall coded items) as Hitems.
  { rewrite Hi. destruct (existsb is_alarm out); [done|]. apply Forall_app. split; [done|]. by repeat constructor. }
  split_and!.
  - rewrite Hi, <- Ha. destruct (existsb is_alarm out); unfold codes in *; rewrite ?fmap_app, Hc, <- ?app_assoc, ?app_nil_r; done.
  - exact Hitems.
  - intros H1 H2 H3 H4 H5 H6 -> H8 H9 H10 H11. assert (existsb (raises r None) ALARM_CODES = false) as Hn.
    { unfold ALARM_CODES, PORT_CODES. cbn [app existsb raises]. unfold web_down, stale. rewrite H1, H2, H3, H4, H5, H6, H8, H9, H10, H11.
      by rewrite ?andb_false_r. }
    rewrite <- Ha in Hn. rewrite Hi, Hn. rewrite existsb_none in Hn. apply Forall_app. split; [|by repeat constructor].
    apply Forall_forall. intros d Hd. apply Hn in Hd. unfold is_alarm in Hd. by destruct (dg_severity d).
  - cbn [doctor_exit_code]. assert (existsb (fun d => bool_decide (dg_severity d = SevFail)) items = web_down r) as ->; [|unfold web_down; by destruct (web_unbound r)].
    etransitivity; [exact (severities_exist (fun s => bool_decide (s = SevFail)) items Hitems)|]. rewrite Hi.
    destruct (existsb is_alarm out); unfold codes in *; rewrite ?fmap_app, Hc, !existsb_app, !existsb_bfilter, existsb_shadow; cbn;
      rewrite ?andb_false_r, ?orb_false_r; cbn; by rewrite ?andb_true_r, ?orb_false_r.
  - intros before. unfold run_doctor_fix. cbn [manual]. fold items. clear. induction items as [|d ds IH]; [done|]. cbn [bfilter]. by rewrite IH, alarm_severity.
Qed.

(** ** Witness: a daemon that fell back to rootless ports, without a resolver *)

Definition demo_probes : Probes :=
  mkProbes 1 60 None (mkAddr (V4 (mkV4 127 0 0 1)) 5353) (mkCaStatus "/ca.pem"%str []%str None None) (Some false)
    (Some false, None, None, None) None None "1.0.0"%str true (0, 0) None None 7 0 None.

Lemma doctor_exact_witness :
  let r := build_status_report shared_state demo_probes in
  codes (diagnose false r None) = [PortFallback; ResolverNotInstalled] /\
  doctor_exit_code (Diagnoses (diagnose false r None)) = 0 /\
  Forall (fun d => dg_severity d = severity_of (dg_code d)) (diagnose false r None).
Proof.
  intros r. destruct (doctor_exact false r None) as (H1 & H2 & _ & H4 & _). split; [|split].
  - rewrite H1. vm_compute. reflexivity.
  - rewrite H4. vm_compute. reflexivity.
  - exact H2.
Defined.
